(* ===== verification/_CoqProject ===== *)
-Q . S2P
Prelude.v
Money.v
Decimal.v
GoTime.v
Domain.v
Float64.v
Rand.v
Book.v
BookFacts.v
BookSpec.v
Ring.v
Candles.v
Tape.v
Summary.v
SummaryFacts.v
Bus.v
Provider.v
Engine.v
EngineSpec.v
Registry.v
Tier.v
TierSpec.v
Coalesce.v
CoalesceSpec.v
Json.v
Protocol.v
ProtocolSpec.v
Wire.v
Log.v
Session.v
SessionLoop.v
SessionSpec.v
Feed.v
FeedSpec.v
LadderSpec.v
Faults.v
SessionId.v
Manager.v
Websocket.v
Metrics.v
MetricsStore.v
MetricsSpec.v
StableSort.v
MetricsQuery.v
MemoryRepo.v
MetricsQuerySpec.v
MemorySpec.v
Strconv.v
Config.v
Startup.v
ConfigSpec.v
TimeText.v
TimeTextSpec.v
JsonText.v
JsonTextSpec.v
FrameSpec.v
Fixture.v
FixtureSpec.v
Probe.v
Sqlite.v
SqliteSpec.v
SqliteRef.v
Http.v
HttpSpec.v
Obs.v
Migrate.v
SqliteQuery.v
DriverSpec.v
DriverRef.v
Lifecycle.v
SqlWriter.v
SqlWriterSpec.v
SessionRun.v
SessionRunSpec.v
Router.v
StoreLife.v
StoreLifeSpec.v
SqliteOpen.v
SessionStore.v
SqliteStore.v
