(* ===== verification/Prelude.v ===== *)
(** * PulseTrade backend: a verification library

    PulseTrade is a market-data server written in Go
    ([src/pulse_trade_backend]).  Every market of a fixed roster has a provider
    of upstream events (a deterministic synthetic generator, or a replay), an
    engine that owns the order book, the candles, the 24-hour summary and the
    trade tape, and a bus.  A client opens a WebSocket session; the session
    coalesces what the engine publishes and sends it at a rate that its delivery
    tier allows, the tier following the latency the client reports.  A metrics
    store batches telemetry into SQLite or memory, and a REST surface reads the
    engines and the store.  This library models that code as executable
    definitions and proves what makes it correct.

    ** How the model reads

    Money, quantities and counters are [Z] with the 64-bit wrap-around written
    out ([i64], [u64]); float64 is the executable IEEE model of [Float64]
    (SpecFloat); texts are lists of ascii characters, names are strings; Go maps
    are stdpp's [gmap]; an instant is a number of nanoseconds since year 1 with
    its location.  A function that can fail returns [res] (a sentinel error) or a
    sum, one that can panic or index out of range returns an [option], and the
    theorems show when it does not.  Mutexes only order whole operations, so an
    operation is one step; goroutines are interleavings, given to a step as data
    (what arrived meanwhile, when a context ended, why a loop woke up).  Effects
    (events, records, counters, frames) are lists in the order the code has them.

    ** Files and the code they model

    Shared: [Prelude] (this file: errors, integers, list lemmas), [GoTime]
    (package time), [Strconv], [TimeText] (strconv and time parsing), [Float64],
    [Json] (values and the assignment of fields) and [JsonText] with
    [JsonTextSpec] (bytes: the parser and the printer of encoding/json), [Rand]
    (math/rand/v2's PCG and the interface [RandSource] with its laws),
    [StableSort] (package sort).

    - internal/domain: [Money], [Decimal] (fixed-point texts), [Domain].
    - internal/market: [Book] with [BookFacts] and [BookSpec], [Ring] and
      [Candles], [Summary] with [SummaryFacts], [Tape], [Bus], [Engine] with
      [EngineSpec], [Registry].
    - internal/exchange: [Provider] (the boundary, class [MarketDataProvider]),
      [Feed] with [FeedSpec] and [LadderSpec] (synthetic and replay providers),
      [Faults] (the fault-injecting decorator), [Fixture] with [FixtureSpec]
      (the recorded events of a replay, from the bytes of their file).
    - internal/delivery: [Tier] with [TierSpec] (class [Policy]), [Coalesce] with
      [CoalesceSpec], [Session] (state and sending) and [SessionLoop] (the
      delivery loop, the reader and the writer) with [SessionSpec], [SessionRun]
      (a life from [Run] to its deferred calls) with [SessionRunSpec],
      [SessionStore] (a life, the store it records in and the counters it
      moves), [SessionId],
      [Manager].
    - internal/protocol: [Protocol] (client messages) with [ProtocolSpec] and
      [FrameSpec] (their bytes), [Wire] (server frames), [TimeText] with
      [TimeTextSpec] (timestamps).
    - internal/metrics: [Metrics] (rows, batches, the drop-oldest queue),
      [MetricsStore] (class [Repository], producers, the batching writer) with
      [MetricsSpec], [StoreLife] (drivers, [Open] and [Close]) with
      [StoreLifeSpec], [MetricsQuery] (class [QueryRepository]) with
      [MetricsQuerySpec] (class [LatencyReader]), [MemoryRepo] with [MemorySpec]
      (the in-memory driver), [Sqlite] with [SqliteSpec] and [SqliteRef] (the
      SQLite driver over the classes [Transaction], [Database], [Deletion]),
      [SqliteQuery] (its reads, class [Queries]) with [DriverSpec] (classes
      [QueryLaws] and [StorageLaws]) and [DriverRef] (a database that meets all
      the laws, for the witnesses), [SqliteOpen] (class [SqlDriver]),
      [SqlWriter] (the batch writer of the SQLite package) with
      [SqlWriterSpec], [Migrate] (schema migrations), [SqliteStore] (a store
      over the SQLite driver, from a record to the answer of a query).
    - internal/config and cmd/server: [Config], [Startup] (what [run] builds, its
      exit), [ConfigSpec], [Lifecycle] (the steps of [run] on every way out).
    - cmd/wsprobe: [Probe] (the client's view of a book, and the run with its
      verdict).
    - internal/transport and internal/observability: [Http] (class
      [MetricsQuerier]) with [HttpSpec], [Router] (class [ResponseWriter]; the
      middleware), [Websocket] (origin check, upgrade, a connection's serving),
      [Obs] (counters and gauges), [Log] (loggers and their lines).

    ** How the parts meet

    [Engine] runs [Book], [Candles], [Summary] and [Tape] on the events of a
    provider and returns the events it publishes; [Session] takes those events
    and emits frames and records; [MetricsStore] takes records and calls a
    [Repository], which [MemoryRepo] and [Sqlite] implement; [MetricsQuery] reads
    a [QueryRepository], which both drivers implement; [Http] asks [Registry],
    [Engine], [Manager] and a [MetricsQuerier], which the store implements, and
    [Router] sends its answers through a [ResponseWriter]; [Startup] hands the values of
    [Config] to all of them.  Each client is proved against the class, and an
    instance discharges it.

    ** What the theorems show

    - The book refines its specification under provider deltas and simulated
      trades and never crosses; recentring and refreshing keep it well formed, and
      a refresh either recentres or churns and refills, depending on the drift.
    - Candles, summary and tape are exactly those of the trades accepted, on the
      engine's read side and behind the REST surface, whatever the history.
    - A client that applies the frames of a session has the book of the engine:
      coalescing is transparent, the deltas always apply, no gap is hidden, over
      the whole life of a connection and up to the levels the probe shows from
      the bytes of the frames, whatever window the coalescer held at the snapshot.
    - A session is recorded once as started and ended, holds one subscription
      while it runs, and names the reason of its end; over a store with the
      in-memory driver its row says what it did; whatever the interleaving of
      sessions, the counter of active connections is the number that run.
    - The tier machine degrades and recovers with hysteresis; the rate limiter,
      the subscription and the decoder behave on every input, errors included.
    - Every metrics record is written, refused, dropped, pending or queued, and
      the counters say so; a flush ends and leaves nothing behind; [Close] returns
      whatever its goroutines do, closes the driver once and last, and what it
      leaves uncounted is named; the two batch writers of the code base serve a
      flush alike, and where they differ at shutdown is stated; a database is
      opened with every setting or closed again; on four queries both drivers
      answer alike to the millisecond, up to the order of rows of one
      millisecond, and so does a store over any database with the stated laws;
      a batch reaches SQLite whole or not at all, each row once, in statements
      within its limits; rows read back as written; pruning ends and is exact;
      migrations are never changed; a latency query partitions its samples.
    - A configuration is rejected with every malformed value, or is taken over by
      the components, the few values that load and are replaced being named; timestamps and decimals round-trip; every
      REST parameter is bounded and the health document blames the right layer.
    - The bytes of a client message decode to it, and a recording survives its
      file; every request is logged once and truthfully, a panic is answered;
      a log line carries exactly its logger's attributes and those of its call;
      the reader of a connection ends with its peer or its session; the probe
      passes exactly the runs it means to; what a start-up step opened is
      released on every way out of [run].

    ** Bounds and fuel

    Loops that are not structural take fuel, and a theorem shows that the fuel
    given is enough: the rounds of a drain ([drain_rounds], the row budget of
    10000), the passes of pruning over a table (more than its rows), the chunks
    of a bulk insert (its rows), the rounds of the fault decorator ([remaining]),
    the polls of the warmup wait (the deadline), the parts of a duration (its
    characters).  The rounds of the writer while a store closes are inputs, so
    their number is a theorem: the backlog over the batch size, and one.

    ** Parameters

    The mathematical functions of package math that are not exactly specified
    ([MathFns]), random sources ([RandSource] with [RandLaws]), the database
    ([Transaction], [Database], [Deletion], [Queries], [SchemaDB] with their laws,
    [StorageLaws] among them, and [SqlDriver]), SHA-256, the file system and the socket are parameters; each
    has a concrete instance on which the witnesses run.

    ** Not modelled

    What belongs to code outside the repository: chi's matching of routes, the
    HTTP protocol of net/http, gorilla's framing, the SQLite engine, and how slog
    prints a value.  A goroutine is the interleaving of its steps, so its
    start-up and the memory model are not.  Statements of SQL are their tables,
    columns, conditions and tuples, and their texts where the driver builds one
    (inserts, and the summaries its errors carry).  The texts of errors, the log
    calls inside the session, the engine and the store ([Log] has what a call
    emits; the calls of the request log, the endpoint and the start-up are
    modelled where they are made), the flags and the printed report of the probe,
    getters, the helpers of the SQLite driver that only tests call, and the
    Flutter application (another language). *)

From Stdlib Require Export ZArith Lia Bool.
From stdpp Require Export base tactics option list gmap strings sorting.

#[global] Open Scope Z_scope.

(** ** Scope and notations

    [pulse_scope] holds the notations of the development; it is opened by every
    file through this one. *)

Declare Scope pulse_scope.
Delimit Scope pulse_scope with pulse.

(** ** Errors and results

    Go functions return a value and an [error].  The sentinel errors of
    [internal/domain/money.go], [internal/exchange/provider.go] and
    [internal/delivery] are the constructors of [error]; the text that
    [fmt.Errorf] wraps around a sentinel is not modelled, because callers only
    use [errors.Is]. *)

Inductive error :=
| ErrDivideByZero | ErrOverflow | ErrInexactValue | ErrMalformedNumber
| ErrSymbolNotFound | ErrUnsupportedInterval | ErrInvalidLimit
| ErrCrossedBook | ErrEmptyBook | ErrBookGap | ErrStaleUpdate
| ErrCandleInvariant | ErrPriceNotTickAligned
| ErrUnknownTier | ErrUnknownSide
| ErrProviderClosed | ErrSymbolMismatch | ErrInvalidFixture
| ErrAlreadyStreaming | ErrContext | ErrNoEngine.

#[global] Instance error_eq_dec : EqDecision error.
Proof. solve_decision. Defined.

Inductive res (A : Type) :=
| Ok (a : A)
| Err (e : error).
Arguments Ok {A} a.
Arguments Err {A} e.

#[global] Instance res_ret : MRet res := fun A a => Ok a.
#[global] Instance res_bind : MBind res := fun A B f m =>
  match m with Ok a => f a | Err e => Err e end.

#[global] Instance res_eq_dec {A} `{EqDecision A} : EqDecision (res A).
Proof. solve_decision. Defined.

(** A conditional early return: [if !c { return err }]. *)
Definition guard_or (c : bool) (e : error) : res unit :=
  if c then Ok tt else Err e.

Lemma guard_or_ok c e u : guard_or c e = Ok u <-> c = true.
Proof. destruct c, u; simpl; split; congruence. Qed.

(** ** Machine integers

    A Go [int64] (and [int] on a 64-bit platform) is a [Z] in
    [[-2^63, 2^63)]; arithmetic wraps and [i64] writes the wrap-around.
    [uint64] is a [Z] in [[0, 2^64)] with [u64]. *)

Abbreviation MaxInt64 := 9223372036854775807 (only parsing).
Abbreviation MinInt64 := (-9223372036854775808) (only parsing).
Abbreviation two63 := 9223372036854775808 (only parsing).
Abbreviation two64 := 18446744073709551616 (only parsing).

Definition i64 (z : Z) : Z := (z + two63) `mod` two64 - two63.
Definition u64 (z : Z) : Z := z `mod` two64.

Definition in_i64 (z : Z) : Prop := MinInt64 <= z <= MaxInt64.
Definition in_u64 (z : Z) : Prop := 0 <= z < two64.

#[global] Instance in_i64_dec z : Decision (in_i64 z).
Proof. unfold in_i64. apply _. Defined.
#[global] Instance in_u64_dec z : Decision (in_u64 z).
Proof. unfold in_u64. apply _. Defined.

Lemma i64_small z : in_i64 z -> i64 z = z.
Proof. unfold in_i64, i64. intros. rewrite Z.mod_small; lia. Qed.
Lemma u64_small z : in_u64 z -> u64 z = z.
Proof. unfold in_u64, u64. intros. rewrite Z.mod_small; lia. Qed.
Lemma i64_range z : in_i64 (i64 z).
Proof. unfold in_i64, i64. pose proof (Z.mod_pos_bound (z + two63) two64). lia. Qed.
Lemma u64_range z : in_u64 (u64 z).
Proof. unfold in_u64, u64. apply Z.mod_pos_bound. lia. Qed.
Lemma i64_i64 z : i64 (i64 z) = i64 z.
Proof. apply i64_small, i64_range. Qed.

Lemma i64_add_l a b : i64 (i64 a + b) = i64 (a + b).
Proof.
  unfold i64. f_equal.
  replace ((a + two63) `mod` two64 - two63 + b + two63)
    with ((a + two63) `mod` two64 + b) by lia.
  rewrite Zplus_mod_idemp_l. f_equal. lia.
Qed.
Lemma i64_add_r a b : i64 (a + i64 b) = i64 (a + b).
Proof. rewrite (Z.add_comm a), i64_add_l. f_equal. lia. Qed.
Lemma i64_sub_l a b : i64 (i64 a - b) = i64 (a - b).
Proof. rewrite <- !Z.add_opp_r. apply i64_add_l. Qed.
Lemma i64_sub_r a b : i64 (a - i64 b) = i64 (a - b).
Proof.
  unfold i64.
  replace (a - ((b + two63) `mod` two64 - two63) + two63)
    with ((a + two64) - (b + two63) `mod` two64) by lia.
  rewrite Zminus_mod_idemp_r. do 2 f_equal. lia.
Qed.

(** ** Hints and tactics *)

Create HintDb pulse.
Create Rewrite HintDb i64_norm.
Create Rewrite HintDb cmp_norm.
#[export] Hint Rewrite i64_i64 i64_add_l i64_add_r i64_sub_l i64_sub_r : i64_norm.
#[export] Hint Resolve i64_range u64_range : pulse.

(** [no_wrap] removes the wrap-arounds that linear arithmetic shows to be
    the identity in the current context. *)
Ltac no_wrap :=
  repeat match goal with
  | |- context [i64 ?z] => rewrite (i64_small z) by (unfold in_i64 in *; lia)
  | |- context [u64 ?z] => rewrite (u64_small z) by (unfold in_u64 in *; lia)
  end.

(** [split_if] splits on the boolean conditions of the goal and turns the
    tests into arithmetic. *)
Ltac bool_to_prop :=
  repeat match goal with
  | H : (_ <? _) = true |- _ => apply Z.ltb_lt in H
  | H : (_ <? _) = false |- _ => apply Z.ltb_ge in H
  | H : (_ <=? _) = true |- _ => apply Z.leb_le in H
  | H : (_ <=? _) = false |- _ => apply Z.leb_gt in H
  | H : (_ =? _) = true |- _ => apply Z.eqb_eq in H
  | H : (_ =? _) = false |- _ => apply Z.eqb_neq in H
  | H : (_ && _) = true |- _ => apply andb_true_iff in H as [? ?]
  | H : (_ || _) = false |- _ => apply orb_false_iff in H as [? ?]
  | H : negb _ = true |- _ => apply negb_true_iff in H
  | H : negb _ = false |- _ => apply negb_false_iff in H
  end.

Ltac split_if :=
  repeat match goal with
  | |- context [if ?b then _ else _] =>
      lazymatch type of b with
      | bool => let E := fresh "E" in destruct b eqn:E; bool_to_prop
      end
  end.

(** ** Panics

    A Go function that can panic (a slice index out of range, a division by
    zero, ...) is modelled with an [option] result: [None] is the panic and
    [Some] the normal return.  The monad operations on [option] are stdpp's. *)

(** ** Lists *)

(** Go's [len]. *)
Definition len {A} (l : list A) : Z := Z.of_nat (length l).

(** The last [n] elements. *)
Definition lastn {A} (n : nat) (l : list A) : list A := drop (length l - n) l.

Lemma lastn_all {A} n (l : list A) : (length l <= n)%nat -> lastn n l = l.
Proof. intros Hl. unfold lastn. by replace (length l - n)%nat with 0%nat by lia. Qed.

Lemma length_lastn {A} n (l : list A) : length (lastn n l) = Nat.min n (length l).
Proof. unfold lastn. rewrite length_drop. lia. Qed.

Lemma lookup_lastn {A} n (l : list A) i :
  lastn n l !! i = l !! (length l - n + i)%nat.
Proof. unfold lastn. by rewrite lookup_drop. Qed.

Lemma lastn_lastn_snoc {A} n (l : list A) x :
  lastn n (lastn n l ++ [x]) = lastn n (l ++ [x]).
Proof.
  destruct n as [|n].
  { unfold lastn. by rewrite !Nat.sub_0_r, !drop_all. }
  unfold lastn. rewrite !length_app, length_drop. cbn [length].
  rewrite !drop_app_le by (rewrite ?length_drop; lia). rewrite drop_drop.
  f_equal. f_equal. lia.
Qed.

Lemma lastn_lastn {A} n k (l : list A) : (n <= k)%nat -> lastn n (lastn k l) = lastn n l.
Proof.
  intros Hn. unfold lastn at 1 2. rewrite length_drop, drop_drop. unfold lastn. f_equal. lia.
Qed.

Lemma lastn_snoc {A} n (l : list A) x : lastn (S n) (l ++ [x]) = lastn n l ++ [x].
Proof.
  unfold lastn. rewrite length_app. cbn [length].
  replace (length l + 1 - S n)%nat with (length l - n)%nat by lia.
  by rewrite drop_app_le by lia.
Qed.

Lemma lastn_min {A} n (l : list A) : lastn (Nat.min n (length l)) l = lastn n l.
Proof. unfold lastn. f_equal. lia. Qed.

Definition total (l : list Z) : Z := foldr Z.add 0 l.
Lemma total_app l k : total (l ++ k) = total l + total k.
Proof. unfold total. induction l as [|x l IH]; simpl; [done|]. rewrite IH. lia. Qed.
Lemma total_cons x l : total (x :: l) = x + total l.
Proof. done. Qed.
Lemma total_perm l k : l ≡ₚ k -> total l = total k.
Proof. induction 1; rewrite ?total_cons; lia. Qed.
