(* ===== verification/Money.v ===== *)
(** * Fixed-point money: [internal/domain/money.go]

    [Price] and [Qty] are [int64] fixed-point integers; both are a [Z] kept in
    range by the wrap-around of [Prelude.i64].  The file models the arithmetic
    of the two types, the 128-bit [MulDiv], [ChangeBasisPoints] and
    [RoundToStep].  The decimal text of a value is in [Decimal]. *)

From S2P Require Import Prelude.

Definition maxSafeMagnitude : Z := Z.shiftl 1 53.

(** ** Price and Qty arithmetic

    The two Go types have the same operations on the same representation. *)

Module Price.
Definition Add (p o : Z) : Z := i64 (p + o).
Definition Sub (p o : Z) : Z := i64 (p - o).
Definition Cmp (p o : Z) : Z :=
  if p <? o then -1 else if o <? p then 1 else 0.
Definition Sign (p : Z) : Z :=
  if p <? 0 then -1 else if 0 <? p then 1 else 0.
Definition IsZero (p : Z) : bool := p =? 0.
End Price.

Definition MaxPrice (a b : Z) : Z := if b <? a then a else b.
Definition MinPrice (a b : Z) : Z := if a <? b then a else b.

Module Qty.
Definition Add (q o : Z) : Z := i64 (q + o).
Definition Sub (q o : Z) : Z := i64 (q - o).
Definition Cmp (q o : Z) : Z :=
  if q <? o then -1 else if o <? q then 1 else 0.
Definition IsZero (q : Z) : bool := q =? 0.
Definition IsNegative (q : Z) : bool := q <? 0.
Definition IsPositive (q : Z) : bool := 0 <? q.
End Qty.

Definition MaxQty (a b : Z) : Z := if b <? a then a else b.
Definition MinQty (a b : Z) : Z := if a <? b then a else b.

(** The tests the code writes with [Cmp]. *)
Lemma Cmp_gt a b : (0 <? Price.Cmp a b) = (b <? a).
Proof. unfold Price.Cmp. split_if; lia. Qed.
Lemma Cmp_lt a b : (Price.Cmp a b <? 0) = (a <? b).
Proof. unfold Price.Cmp. split_if; lia. Qed.
Lemma Cmp_ge a b : (0 <=? Price.Cmp a b) = (b <=? a).
Proof. unfold Price.Cmp. split_if; lia. Qed.
Lemma Cmp_le a b : (Price.Cmp a b <=? 0) = (a <=? b).
Proof. unfold Price.Cmp. split_if; lia. Qed.
#[export] Hint Rewrite Cmp_gt Cmp_lt Cmp_ge Cmp_le : cmp_norm.

(** ** Safe integer helpers *)

(** [absUint64] avoids the overflow of [-MinInt64]. *)
Definition absUint64 (v : Z) : Z * bool :=
  if 0 <=? v then (u64 v, false)
  else if v =? MinInt64 then (two63, true)
  else (u64 (i64 (- v)), true).

(** [bits.Mul64] and [bits.Div64] of the standard library: the full 128-bit
    product, and the quotient of a 128-bit value, which panics when the
    quotient does not fit 64 bits. *)
Definition Mul64 (x y : Z) : Z * Z := ((x * y) / two64, (x * y) `mod` two64).
Definition Div64 (hi lo y : Z) : option (Z * Z) :=
  if (y =? 0) || (y <=? hi) then None
  else Some ((hi * two64 + lo) / y, (hi * two64 + lo) `mod` y).

Definition MulDiv (a b c : Z) : option (res Z) :=
  if c =? 0 then Some (Err ErrDivideByZero) else
  let '(ua, aneg) := absUint64 a in
  let '(ub, bneg) := absUint64 b in
  let '(uc, cneg) := absUint64 c in
  let '(hi, lo) := Mul64 ua ub in
  if uc <=? hi then Some (Err ErrOverflow) else
  '(q, _) ← Div64 hi lo uc;
  let neg := negb (Bool.eqb aneg bneg) in
  let neg := negb (Bool.eqb neg cneg) in
  Some (if neg then
          if two63 <? q then Err ErrOverflow
          else if q =? two63 then Ok MinInt64
          else Ok (i64 (- i64 q))
        else
          if MaxInt64 <? q then Err ErrOverflow else Ok (i64 q)).

Definition ChangeBasisPoints (open last : Z) : option (res Z) :=
  if open =? 0 then Some (Err ErrDivideByZero)
  else MulDiv (i64 (last - open)) 10000 open.

(** [%] of Go truncates toward zero: [Z.rem]. *)
Definition RoundToStep (v step : Z) : Z :=
  if step <=? 0 then v else
  let rem := Z.rem v step in
  if rem =? 0 then v else
  let rem := if rem <? 0 then i64 (- rem) else rem in
  if step <=? i64 (rem * 2) then
  if v <? 0 then i64 (v - i64 (step - rem)) else i64 (v + i64 (step - rem))
  else
  if v <? 0 then i64 (v + rem) else i64 (v - rem).

(** ** Lemmas *)

Lemma absUint64_spec v :
  in_i64 v -> absUint64 v = (Z.abs v, v <? 0).
Proof.
  unfold in_i64, absUint64. intros Hv. split_if; subst.
  - rewrite u64_small by (unfold in_u64; lia). f_equal; lia.
  - reflexivity.
  - no_wrap. f_equal; lia.
Qed.

(** The sign and magnitude of a truncated quotient. *)
Lemma quot_sign_abs n c :
  c <> 0 ->
  Z.quot n c = if xorb (n <? 0) (c <? 0) then - (Z.abs n / Z.abs c)
               else Z.abs n / Z.abs c.
Proof.
  intros Hc.
  destruct (n <? 0) eqn:En, (c <? 0) eqn:Ec; bool_to_prop; simpl.
  - rewrite <- (Z.quot_opp_opp n c) by lia.
    rewrite Z.quot_div_nonneg by lia. f_equal; lia.
  - rewrite <- (Z.opp_involutive n) at 1. rewrite Z.quot_opp_l by lia.
    rewrite Z.quot_div_nonneg by lia. do 2 f_equal; lia.
  - rewrite <- (Z.opp_involutive c) at 1. rewrite Z.quot_opp_r by lia.
    rewrite Z.quot_div_nonneg by lia. do 2 f_equal; lia.
  - rewrite Z.quot_div_nonneg by lia. f_equal; lia.
Qed.

Lemma hi_overflow p c :
  0 <= p -> 0 < c -> (c <=? p / two64) = (two64 <=? p / c).
Proof.
  intros Hp Hc. apply eq_true_iff_eq. rewrite !Z.leb_le.
  split; intros H.
  - apply Z.div_le_lower_bound; [lia|].
    pose proof (Z.mul_div_le p two64). nia.
  - apply Z.div_le_lower_bound; [lia|].
    pose proof (Z.mul_div_le p c). nia.
Qed.

Lemma mul_sign_xor a b :
  a <> 0 -> b <> 0 -> (a * b <? 0) = xorb (a <? 0) (b <? 0).
Proof.
  intros. destruct (a <? 0) eqn:?, (b <? 0) eqn:?, (a * b <? 0) eqn:?;
    bool_to_prop; simpl; try reflexivity; nia.
Qed.

Lemma MulDiv_correct a b c :
  in_i64 a -> in_i64 b -> in_i64 c ->
  MulDiv a b c = Some
    (if decide (c = 0) then Err ErrDivideByZero
     else if decide (in_i64 (Z.quot (a * b) c)) then Ok (Z.quot (a * b) c)
     else Err ErrOverflow).
Proof.
  intros Ha Hb Hc. unfold MulDiv.
  case_decide as Hc0; [subst; reflexivity|].
  rewrite (proj2 (Z.eqb_neq c 0)) by done.
  rewrite !absUint64_spec by done. unfold Mul64, Div64. cbv beta iota zeta.
  set (p := Z.abs a * Z.abs b).
  assert (Hp : 0 <= p) by (unfold p; nia).
  assert (Hpa : p = Z.abs (a * b)) by (unfold p; lia).
  fold p. rewrite hi_overflow by lia.
  assert (Hq : 0 <= p / Z.abs c) by (apply Z.div_pos; lia).
  rewrite (quot_sign_abs (a * b) c), <- Hpa by done.
  destruct (two64 <=? p / Z.abs c) eqn:Eov; bool_to_prop.
  { case_decide as Hin; [|done]. unfold in_i64 in Hin.
    destruct (xorb _ _) in Hin; lia. }
  rewrite (proj2 (Z.eqb_neq (Z.abs c) 0)) by lia.
  cbn [orb mbind option_bind].
  replace (p / two64 * two64 + p `mod` two64) with p
    by (pose proof (Z.div_mod p two64); lia).
  destruct (decide (p = 0)) as [Hp0|Hp0].
  { (* a zero product: both signs give zero *)
    assert (Hz : p / Z.abs c = 0) by (rewrite Hp0; apply Z.div_0_l; lia).
    rewrite Hz. unfold i64, in_i64. simpl.
    destruct (negb _), (xorb _ _); reflexivity. }
  assert (a <> 0 /\ b <> 0) as [Ha0 Hb0] by (unfold p in Hp0; split; intros ->; lia).
  rewrite mul_sign_xor by done.
  replace (negb (Bool.eqb (negb (Bool.eqb (a <? 0) (b <? 0))) (c <? 0)))
    with (xorb (xorb (a <? 0) (b <? 0)) (c <? 0))
    by (destruct (a <? 0), (b <? 0), (c <? 0); reflexivity).
  destruct (xorb _ (c <? 0)) eqn:Eneg; unfold in_i64; split_if;
    try case_decide; try lia; do 2 f_equal; try lia; no_wrap; lia.
Qed.

Lemma ChangeBasisPoints_total open last :
  in_i64 open -> open <> 0 -> exists r, ChangeBasisPoints open last = Some r /\
    (in_i64 (last - open) -> in_i64 (Z.quot ((last - open) * 10000) open) ->
     r = Ok (Z.quot ((last - open) * 10000) open)).
Proof.
  intros Ho Hne. unfold ChangeBasisPoints. rewrite (proj2 (Z.eqb_neq open 0)) by done.
  rewrite MulDiv_correct by (done || apply i64_range || (unfold in_i64; lia)).
  eexists. split; [done|]. intros Hd Hq. rewrite i64_small by done.
  by rewrite decide_False, decide_True by done.
Qed.

(** C20: [MulDiv] computes the quotient of the exact product truncated toward
    zero, never panics, and reports an overflow exactly when that quotient is
    not an [int64].  No intermediate result wraps, [MinInt64] included. *)
Theorem MulDiv_spec a b c :
  in_i64 a -> in_i64 b -> in_i64 c ->
  MulDiv a b c = Some
    (if decide (c = 0) then Err ErrDivideByZero
     else if decide (in_i64 (Z.quot (a * b) c)) then Ok (Z.quot (a * b) c)
     else Err ErrOverflow).
Proof. apply MulDiv_correct. Qed.

Example MulDiv_spec_witness :
  MulDiv MinInt64 10000 (-10000) = Some (Err ErrOverflow) /\
  MulDiv (-7) 3 2 = Some (Ok (-10)).
Proof.
  split; rewrite MulDiv_spec by (unfold in_i64; lia); reflexivity.
Defined.

(** [RoundToStep] returns the multiple of the step nearest to the value,
    with ties going away from zero, as long as the multiple is representable
    and twice the step does not overflow. *)
Theorem RoundToStep_nearest v step :
  0 < step -> 2 * step <= MaxInt64 ->
  in_i64 (v - step) -> in_i64 (v + step) ->
  let r := RoundToStep v step in
  Z.divide step r /\ 2 * Z.abs (r - v) <= step /\
  (2 * Z.abs (r - v) = step -> Z.abs v < Z.abs r).
Proof.
  unfold in_i64, RoundToStep. intros Hs H2 Hlo Hhi. simpl.
  rewrite (proj2 (Z.leb_gt step 0)) by lia.
  pose proof (Z.quot_rem' v step) as Hqr.
  pose proof (Z.rem_bound_abs v step ltac:(lia)) as Hb.
  assert (Hsgn : 0 <= Z.rem v step * v) by (apply Z.rem_sign_mul; lia).
  assert (Hv0 : Z.rem v step <> 0 -> v <> 0)
    by (intros Hm ->; apply Hm, Z.rem_0_l; lia).
  set (q := Z.quot v step) in *. set (m := Z.rem v step) in *.
  destruct (m =? 0) eqn:Em; bool_to_prop.
  { repeat split; [exists q; lia|lia|lia]. }
  destruct (m <? 0) eqn:Emn; bool_to_prop.
  - assert (v < 0) by (specialize (Hv0 Em); nia). no_wrap.
    rewrite (proj2 (Z.ltb_lt v 0)) by lia.
    split_if; no_wrap; (repeat split; [|lia|lia]).
    + exists (q - 1). lia.
    + exists q. lia.
  - assert (0 < v) by (specialize (Hv0 Em); nia). no_wrap.
    rewrite (proj2 (Z.ltb_ge v 0)) by lia.
    split_if; no_wrap; (repeat split; [|lia|lia]).
    + exists (q + 1). lia.
    + exists q. lia.
Qed.

Example RoundToStep_nearest_witness :
  let r := RoundToStep (-250) 100 in
  Z.divide 100 r /\ 2 * Z.abs (r - -250) <= 100 /\
  (2 * Z.abs (r - -250) = 100 -> Z.abs (-250) < Z.abs r).
Proof. apply RoundToStep_nearest; unfold in_i64; lia. Defined.
