(* ===== verification/Decimal.v ===== *)
(** * Decimal text of fixed-point values: [internal/domain/money.go]

    [FormatScaled] and [ParseScaled].  Go strings are byte sequences; here the
    decimal text of a price or a quantity is a [list ascii].  The parts of
    [strings] and [strconv] the two functions use are modelled first:
    [TrimSpace], [TrimRight], [IndexByte], [Repeat], [FormatUint], [ParseInt]. *)

From Stdlib Require Import Ascii.
From S2P Require Import Prelude Money.

Abbreviation text := (list ascii).

Definition txt (s : string) : text := String.list_ascii_of_string s.

(** ** Standard library *)

(** [strings.Repeat(string(c), n)] for a non-negative count. *)
Definition repeatc (c : ascii) (n : Z) : text := replicate (Z.to_nat n) c.

Fixpoint index_byte (c : ascii) (s : text) : option nat :=
  match s with
  | [] => None
  | x :: s => if Ascii.eqb x c then Some O else S <$> index_byte c s
  end.

(** The UTF-8 encodings of the code points [unicode.IsSpace] accepts. *)
Definition space_runes : list text :=
  map (map ascii_of_N)
    ([[9]; [10]; [11]; [12]; [13]; [32]; [194; 133]; [194; 160];
      [225; 154; 128]; [226; 128; 168]; [226; 128; 169]; [226; 128; 175];
      [226; 129; 159]; [227; 128; 128]]
     ++ map (fun k => [226; 128; 128 + k]) [0; 1; 2; 3; 4; 5; 6; 7; 8; 9; 10])%N.

Fixpoint strip_prefix (p s : text) : option text :=
  match p, s with
  | [], _ => Some s
  | a :: p, b :: s => if Ascii.eqb a b then strip_prefix p s else None
  | _ :: _, [] => None
  end.

Fixpoint strip_any (ps : list text) (s : text) : option text :=
  match ps with
  | [] => None
  | p :: ps => match strip_prefix p s with
               | Some s' => Some s'
               | None => strip_any ps s
               end
  end.

(** One code point is removed per step, so the length is enough fuel. *)
Fixpoint trim_left (fuel : nat) (ps : list text) (s : text) : text :=
  match fuel with
  | O => s
  | S fuel => match strip_any ps s with
              | Some s' => trim_left fuel ps s'
              | None => s
              end
  end.

Definition TrimSpace (s : text) : text :=
  let s := trim_left (length s) space_runes s in
  let r := rev s in
  rev (trim_left (length r) (map (@rev ascii) space_runes) r).

Definition TrimRight_byte (c : ascii) (s : text) : text :=
  rev (trim_left (length s) [[c]] (rev s)).

Definition is_digit (c : ascii) : bool :=
  (48 <=? N_of_ascii c)%N && (N_of_ascii c <=? 57)%N.

Definition digit_val (c : ascii) : Z := Z.of_N (N_of_ascii c) - 48.
Definition digit_char (d : Z) : ascii := ascii_of_N (Z.to_N (48 + d)).

(** Value of a digit string, most significant digit first. *)
Definition dec_value (s : text) : Z :=
  fold_left (fun acc c => acc * 10 + digit_val c) s 0.

(** [strconv.ParseInt(s, 10, 64)] on a string without a sign. *)
Definition ParseInt (s : text) : option Z :=
  if bool_decide (s = []) then None
  else if negb (forallb is_digit s) then None
  else if MaxInt64 <? dec_value s then None else Some (dec_value s).

(** [strconv.FormatUint(n, 10)]: at most twenty digits. *)
Fixpoint format_digits (fuel : nat) (n : Z) : text :=
  match fuel with
  | O => []
  | S fuel =>
      if n <? 10 then [digit_char n]
      else format_digits fuel (n / 10) ++ [digit_char (n `mod` 10)]
  end.

Definition FormatUint (n : Z) : text := format_digits 20 n.

(** ** FormatScaled and ParseScaled *)

Definition FormatScaled (v digits : Z) : text :=
  let neg := v <? 0 in
  let '(mag, _) := absUint64 v in
  let s := FormatUint mag in
  if digits <=? 0 then (if neg then "-"%char :: s else s) else
  let s := if Z.of_nat (length s) <=? digits
           then repeatc "0" (digits - Z.of_nat (length s) + 1) ++ s else s in
  let cut := Z.to_nat (Z.of_nat (length s) - digits) in
  let out := take cut s ++ "."%char :: drop cut s in
  if neg then "-"%char :: out else out.

(** The sign prefix: [switch s[0]]. *)
Definition split_sign (s : text) : bool * text :=
  match s with
  | c :: r => if Ascii.eqb c "-" then (true, r)
              else if Ascii.eqb c "+" then (false, r) else (false, s)
  | [] => (false, [])
  end.

(** The integral and the fractional part. *)
Definition split_point (s : text) : text * text :=
  match index_byte "." s with
  | Some dot => (take dot s, drop (S dot) s)
  | None => (s, [])
  end.

(** Excess fractional digits are accepted only when they are zeros. *)
Definition clip_fraction (frac : text) (digits : Z) : res text :=
  if digits <? Z.of_nat (length frac) then
    if digits <? Z.of_nat (length (TrimRight_byte "0" frac))
    then Err ErrInexactValue
    else Ok (take (Z.to_nat digits) frac)
  else Ok frac.

(** [maxSafeMagnitude/scale] panics on a zero scale. *)
Definition ParseScaled (s : text) (scale digits : Z) : option (res Z) :=
  let s := TrimSpace s in
  if bool_decide (s = []) then Some (Err ErrMalformedNumber) else
  let '(neg, s) := split_sign s in
  if bool_decide (s = []) then Some (Err ErrMalformedNumber) else
  let '(intPart, fracPart) := split_point s in
  if bool_decide (intPart = []) && bool_decide (fracPart = [])
  then Some (Err ErrMalformedNumber) else
  match clip_fraction fracPart digits with
  | Err e => Some (Err e)
  | Ok fracPart =>
      let intPart := if bool_decide (intPart = []) then txt "0" else intPart in
      if negb (forallb is_digit intPart) then Some (Err ErrMalformedNumber) else
      if negb (forallb is_digit fracPart) then Some (Err ErrMalformedNumber) else
      let fracPadded :=
        fracPart ++ repeatc "0" (digits - Z.of_nat (length fracPart)) in
      match ParseInt intPart with
      | None => Some (Err ErrMalformedNumber)
      | Some whole =>
          if scale =? 0 then None else
          if Z.quot maxSafeMagnitude scale <? whole then Some (Err ErrOverflow) else
          let v := i64 (whole * scale) in
          let finish v := Some (Ok (if neg then i64 (- v) else v)) in
          if bool_decide (fracPadded = []) then finish v else
          match ParseInt fracPadded with
          | None => Some (Err ErrMalformedNumber)
          | Some frac => finish (i64 (v + frac))
          end
      end
  end.

Example FormatScaled_ex : FormatScaled (-6742135) 2 = txt "-67421.35".
Proof. reflexivity. Qed.
Example ParseScaled_ex : ParseScaled (txt "  -67421.3500 ") 100 2 = Some (Ok (-6742135)).
Proof. reflexivity. Qed.
Example ParseScaled_ex2 : ParseScaled (txt "1.234") 100 2 = Some (Err ErrInexactValue).
Proof. reflexivity. Qed.

(** ** Digit strings *)

Lemma dec_value_snoc s c : dec_value (s ++ [c]) = dec_value s * 10 + digit_val c.
Proof. unfold dec_value. by rewrite fold_left_app. Qed.

Lemma dec_value_app a b :
  dec_value (a ++ b) = dec_value a * 10 ^ Z.of_nat (length b) + dec_value b.
Proof.
  induction b as [|c b IH] using rev_ind.
  - rewrite app_nil_r. simpl. change (dec_value []) with 0. lia.
  - rewrite app_assoc, !dec_value_snoc, IH, length_app, Nat2Z.inj_add.
    rewrite Z.pow_add_r by lia. simpl. lia.
Qed.

Lemma digit_char_val d : 0 <= d < 10 -> digit_val (digit_char d) = d.
Proof.
  intros Hd. unfold digit_val, digit_char.
  rewrite N_ascii_embedding by lia. lia.
Qed.

Lemma digit_char_is_digit d : 0 <= d < 10 -> is_digit (digit_char d) = true.
Proof.
  intros Hd. unfold is_digit, digit_char.
  rewrite N_ascii_embedding by lia. rewrite andb_true_iff, !N.leb_le. lia.
Qed.

Lemma digit_val_range c : is_digit c = true -> 0 <= digit_val c < 10.
Proof. unfold is_digit, digit_val. rewrite andb_true_iff, !N.leb_le. lia. Qed.

Lemma dec_value_range s :
  forallb is_digit s = true -> 0 <= dec_value s < 10 ^ Z.of_nat (length s).
Proof.
  induction s as [|c s IH] using rev_ind; [simpl; change (dec_value []) with 0; lia|].
  rewrite forallb_app, dec_value_snoc, length_app, Nat2Z.inj_add.
  rewrite Z.pow_add_r by lia. simpl. rewrite andb_true_r, andb_true_iff.
  intros [Hs Hc]. specialize (IH Hs). apply digit_val_range in Hc. lia.
Qed.

Lemma format_digits_spec fuel n :
  (0 < fuel)%nat -> 0 <= n < 10 ^ Z.of_nat fuel ->
  let s := format_digits fuel n in
  dec_value s = n /\ forallb is_digit s = true /\ s <> [].
Proof.
  revert n. induction fuel as [|fuel IH]; [lia|]. intros n _ Hn. simpl.
  destruct (n <? 10) eqn:En; bool_to_prop.
  - unfold dec_value. simpl. rewrite digit_char_val, digit_char_is_digit by lia.
    repeat split; lia || done.
  - rewrite Nat2Z.inj_succ, Z.pow_succ_r in Hn by lia.
    destruct fuel as [|fuel]; [simpl in Hn; lia|].
    destruct (IH (n / 10)) as (Hv & Hd & _); [lia|split; [apply Z.div_pos; lia|]|].
    { apply Z.div_lt_upper_bound; lia. }
    pose proof (Z.mod_pos_bound n 10 ltac:(lia)).
    rewrite dec_value_snoc, Hv, forallb_app, Hd, digit_char_val by lia.
    cbn [forallb]. rewrite digit_char_is_digit by lia.
    repeat split; [pose proof (Z.div_mod n 10); lia|destruct (format_digits (S fuel) (n / 10)); done].
Qed.

Lemma FormatUint_spec n :
  in_u64 n ->
  dec_value (FormatUint n) = n /\ forallb is_digit (FormatUint n) = true /\
  FormatUint n <> [].
Proof. unfold in_u64. intros. apply format_digits_spec; lia. Qed.

Lemma repeat_zero_spec n :
  dec_value (repeatc "0" n) = 0 /\ forallb is_digit (repeatc "0" n) = true.
Proof.
  unfold repeatc. generalize (Z.to_nat n) as k. clear n.
  induction k as [|k IH]; [done|].
  change (replicate (S k) "0"%char) with (["0"%char] ++ replicate k "0"%char).
  rewrite dec_value_app, forallb_app. destruct IH as [-> ->]. split; [|done].
  change (dec_value ["0"%char]) with 0. lia.
Qed.

Lemma ParseInt_digits s :
  s <> [] -> forallb is_digit s = true -> dec_value s <= MaxInt64 ->
  ParseInt s = Some (dec_value s).
Proof.
  intros Hs Hd Hv. unfold ParseInt.
  rewrite bool_decide_false, Hd by done. simpl. split_if; [lia|done].
Qed.

(** ** Trimming leaves a decimal number unchanged *)

Definition num_start (c : ascii) : bool := is_digit c || Ascii.eqb c "-".

Lemma strip_space_num c s :
  num_start c = true -> strip_any space_runes (c :: s) = None.
Proof.
  destruct c as [[] [] [] [] [] [] [] []]; intros H;
    first [discriminate H | reflexivity].
Qed.

Lemma strip_rspace_num c s :
  num_start c = true -> strip_any (map (@rev ascii) space_runes) (c :: s) = None.
Proof.
  destruct c as [[] [] [] [] [] [] [] []]; intros H;
    first [discriminate H | reflexivity].
Qed.

Lemma TrimSpace_num s c d m :
  s = c :: m -> (exists m', s = m' ++ [d]) ->
  num_start c = true -> num_start d = true -> TrimSpace s = s.
Proof.
  intros Hs [m' Hs'] Hc Hd. unfold TrimSpace.
  assert (trim_left (length s) space_runes s = s) as ->.
  { rewrite Hs. cbn [length trim_left]. by rewrite strip_space_num. }
  rewrite Hs', rev_app_distr. cbn [rev app length trim_left].
  rewrite strip_rspace_num by done. simpl. by rewrite rev_involutive.
Qed.

Lemma digit_num_start c : is_digit c = true -> num_start c = true.
Proof. unfold num_start. by intros ->. Qed.

Lemma digits_snoc s :
  s <> [] -> forallb is_digit s = true -> exists m d, s = m ++ [d] /\ is_digit d = true.
Proof.
  intros Hs Hd. destruct s as [|d m _] using rev_ind; [done|].
  exists m, d. rewrite forallb_app in Hd. simpl in Hd.
  rewrite !andb_true_iff in Hd. split; [done|tauto].
Qed.

Lemma digits_cons s :
  s <> [] -> forallb is_digit s = true -> exists d m, s = d :: m /\ is_digit d = true.
Proof.
  destruct s as [|d m]; [done|]. simpl. rewrite andb_true_iff. intros _ [? _]. eauto.
Qed.

(** ** The shape of a formatted value *)

Definition point_tail (fp : text) : text :=
  if bool_decide (fp = []) then [] else "."%char :: fp.

Lemma cut_value s d :
  0 <= d < Z.of_nat (length s) -> forallb is_digit s = true ->
  let cut := Z.to_nat (Z.of_nat (length s) - d) in
  dec_value (take cut s) = dec_value s / 10 ^ d /\
  dec_value (drop cut s) = dec_value s `mod` 10 ^ d /\
  forallb is_digit (take cut s) = true /\ forallb is_digit (drop cut s) = true /\
  length (drop cut s) = Z.to_nat d /\ take cut s <> [].
Proof.
  intros Hd Hs cut. rewrite <- (take_drop cut s) in Hs at 1.
  rewrite forallb_app, andb_true_iff in Hs. destruct Hs as [Ht Hr].
  assert (Hl : length (drop cut s) = Z.to_nat d) by (rewrite length_drop; lia).
  pose proof (dec_value_app (take cut s) (drop cut s)) as Hv.
  rewrite take_drop, Hl, Z2Nat.id in Hv by lia.
  pose proof (dec_value_range _ Hr) as Hb. rewrite Hl, Z2Nat.id in Hb by lia.
  assert (take cut s <> []).
  { intros E. apply (f_equal length) in E. rewrite length_take in E. simpl in E. lia. }
  split; [|split].
  - apply (Z.div_unique_pos _ _ _ (dec_value (drop cut s))); lia.
  - apply (Z.mod_unique_pos _ _ (dec_value (take cut s))); lia.
  - done.
Qed.

Lemma FormatScaled_shape v d :
  0 <= d -> in_i64 v ->
  exists ip fp, FormatScaled v d =
      (if v <? 0 then ["-"%char] else @nil ascii) ++ ip ++ point_tail fp /\
    ip <> [] /\ forallb is_digit ip = true /\ forallb is_digit fp = true /\
    length fp = Z.to_nat d /\
    dec_value ip = Z.abs v / 10 ^ d /\ dec_value fp = Z.abs v `mod` 10 ^ d.
Proof.
  intros Hd Hv. unfold FormatScaled. rewrite absUint64_spec by done.
  destruct (FormatUint_spec (Z.abs v)) as (Hval & Hdig & Hne);
    [unfold in_i64, in_u64 in *; lia|].
  set (s := FormatUint (Z.abs v)) in *. cbv beta iota zeta.
  destruct (d <=? 0) eqn:Ed; bool_to_prop.
  { assert (d = 0) as -> by lia. exists s, (@nil ascii).
    rewrite Hval, Z.div_1_r, Z.mod_1_r. simpl. rewrite !app_nil_r.
    split_and!; try done. destruct (v <? 0); [|by rewrite app_nil_l]; done. }
  set (p := if Z.of_nat (length s) <=? d then _ ++ s else s).
  assert (Hp : dec_value p = Z.abs v /\ forallb is_digit p = true /\
               d < Z.of_nat (length p)).
  { unfold p. destruct (_ <=? d) eqn:El; bool_to_prop; [|by split_and!].
    rewrite dec_value_app, forallb_app, length_app.
    destruct (repeat_zero_spec (d - Z.of_nat (length s) + 1)) as [-> ->].
    rewrite Hdig, Hval. unfold repeatc. rewrite length_replicate. simpl. lia. }
  destruct Hp as (Hpv & Hpd & Hpl).
  destruct (cut_value p d) as (H1 & H2 & H3 & H4 & H5 & H6); [lia|done|].
  eexists _, _. split_and!; [|exact H6|exact H3|exact H4|exact H5|congruence|congruence].
  unfold point_tail. rewrite bool_decide_false.
  - by destruct (v <? 0).
  - intros E. rewrite E in H5. simpl in H5. lia.
Qed.

Lemma index_byte_digits s r :
  forallb is_digit s = true ->
  index_byte "." (s ++ "."%char :: r) = Some (length s) /\ index_byte "." s = None.
Proof.
  induction s as [|c s IH]; simpl; [done|].
  rewrite andb_true_iff. intros [Hc Hs]. destruct (IH Hs) as [-> ->].
  replace (Ascii.eqb c ".") with false; [done|].
  symmetry. apply Ascii.eqb_neq. intros ->. done.
Qed.

Lemma split_point_shape ip fp :
  forallb is_digit ip = true -> split_point (ip ++ point_tail fp) = (ip, fp).
Proof.
  intros Hd. unfold split_point, point_tail. case_bool_decide as E; subst.
  - rewrite app_nil_r. by rewrite (proj2 (index_byte_digits ip [] Hd)).
  - rewrite (proj1 (index_byte_digits ip fp Hd)).
    rewrite take_app_length. f_equal.
    change (ip ++ "."%char :: fp) with (ip ++ ["."%char] ++ fp).
    rewrite app_assoc, drop_app_length'; [done|].
    rewrite length_app. simpl. lia.
Qed.

Lemma split_sign_shape (neg : bool) ip rest :
  ip <> [] -> forallb is_digit ip = true ->
  split_sign ((if neg then ["-"%char] else []) ++ ip ++ rest) = (neg, ip ++ rest).
Proof.
  intros Hne Hd. destruct neg; simpl; [done|].
  destruct (digits_cons ip Hne Hd) as (c & m & -> & Hc). simpl.
  destruct c as [[] [] [] [] [] [] [] []]; first [discriminate Hc | reflexivity].
Qed.

Lemma TrimSpace_shape (neg : bool) ip fp :
  ip <> [] -> forallb is_digit ip = true -> forallb is_digit fp = true ->
  let s := (if neg then ["-"%char] else []) ++ ip ++ point_tail fp in
  TrimSpace s = s.
Proof.
  intros Hne Hi Hf s. destruct (digits_cons ip Hne Hi) as (c & m & Hc & Hcd).
  assert (exists m' d, ip ++ point_tail fp = m' ++ [d] /\ is_digit d = true)
    as (m' & d & Hm & Hdd).
  { unfold point_tail. case_bool_decide as E.
    - rewrite app_nil_r. by apply digits_snoc.
    - destruct (digits_snoc fp E Hf) as (k & d & -> & ?).
      exists (ip ++ "."%char :: k), d. split; [|done]. by rewrite <- app_assoc. }
  destruct neg; unfold s; simpl.
  - eapply TrimSpace_num with (c := "-"%char) (d := d); [done| |done|by apply digit_num_start].
    rewrite Hm. by exists ("-"%char :: m').
  - eapply TrimSpace_num with (c := c) (d := d); [by rewrite Hc| |by apply digit_num_start..].
    rewrite Hm. by exists m'.
Qed.

(** ** Round trip *)

Lemma ParseScaled_shape neg ip fp d :
  0 <= d <= 18 -> ip <> [] ->
  forallb is_digit ip = true -> forallb is_digit fp = true ->
  length fp = Z.to_nat d ->
  dec_value ip * 10 ^ d + dec_value fp <= maxSafeMagnitude ->
  ParseScaled ((if neg : bool then ["-"%char] else []) ++ ip ++ point_tail fp) (10 ^ d) d
  = Some (Ok ((if neg then Z.opp else id) (dec_value ip * 10 ^ d + dec_value fp))).
Proof.
  intros Hd Hne Hi Hf Hl Hv. unfold ParseScaled.
  rewrite TrimSpace_shape, bool_decide_false, split_sign_shape by
    (done || (destruct neg, ip; done)).
  cbv beta iota zeta.
  rewrite bool_decide_false by (destruct ip; done).
  rewrite split_point_shape by done. rewrite (bool_decide_false (ip = [])) by done.
  unfold clip_fraction. rewrite (proj2 (Z.ltb_ge d _)) by lia.
  cbn [andb]. cbv beta iota zeta. rewrite Hi, Hf. cbn [negb].
  replace (d - Z.of_nat (length fp)) with 0 by lia.
  change (repeatc "0" 0) with ([] : text). rewrite app_nil_r.
  pose proof (dec_value_range _ Hi). pose proof (dec_value_range _ Hf).
  pose proof (Z.pow_pos_nonneg 10 d ltac:(lia) ltac:(lia)).
  pose proof (Z.pow_le_mono_r 10 d 18 ltac:(lia) ltac:(lia)).
  change (10 ^ 18) with 1000000000000000000 in *.
  change maxSafeMagnitude with 9007199254740992 in *.
  rewrite ParseInt_digits by (done || nia).
  rewrite (proj2 (Z.eqb_neq (10 ^ d) 0)) by lia.
  rewrite Z.quot_div_nonneg by lia.
  rewrite (proj2 (Z.ltb_ge _ _)) by (apply Z.div_le_lower_bound; lia).
  rewrite (i64_small (dec_value ip * 10 ^ d)) by (unfold in_i64; nia).
  case_bool_decide as E.
  - subst fp. change (dec_value []) with 0 in *. rewrite Z.add_0_r in *.
    do 2 f_equal. destruct neg; unfold id; no_wrap; lia.
  - rewrite ParseInt_digits by (done || nia).
    do 2 f_equal. destruct neg; unfold id; no_wrap; lia.
Qed.

Lemma parse_format_core v d :
  0 <= d <= 18 -> Z.abs v <= maxSafeMagnitude ->
  ParseScaled (FormatScaled v d) (10 ^ d) d = Some (Ok v).
Proof.
  intros Hd Hv.
  destruct (FormatScaled_shape v d) as (ip & fp & -> & Hne & Hi & Hf & Hl & Hiv & Hfv).
  { lia. } { change maxSafeMagnitude with 9007199254740992 in Hv. unfold in_i64. lia. }
  assert (Hsum : dec_value ip * 10 ^ d + dec_value fp = Z.abs v).
  { rewrite Hiv, Hfv. pose proof (Z.div_mod (Z.abs v) (10 ^ d)).
    pose proof (Z.pow_pos_nonneg 10 d). lia. }
  pose proof (ParseScaled_shape (v <? 0) ip fp d) as HP.
  rewrite Hsum in HP. rewrite HP by (done || lia).
  do 2 f_equal. destruct (v <? 0) eqn:E; bool_to_prop; unfold id; lia.
Qed.

(** parsing the rendering of a fixed-point value gives the value back, for
    every scale of up to eighteen digits and every magnitude the engine
    accepts; neither function panics. *)
Theorem parse_format_scaled v d :
  0 <= d <= 18 -> Z.abs v <= maxSafeMagnitude ->
  ParseScaled (FormatScaled v d) (10 ^ d) d = Some (Ok v).
Proof. apply parse_format_core. Qed.

Example parse_format_scaled_witness :
  ParseScaled (FormatScaled (-4820) 4) (10 ^ 4) 4 = Some (Ok (-4820)).
Proof.
  apply parse_format_scaled; [lia | change maxSafeMagnitude with 9007199254740992; lia].
Defined.
