(* ===== verification/GoTime.v ===== *)
(** * Time: the part of the [time] package the backend uses

    A [Time] is an absolute instant (nanoseconds since Go's zero time, year 1)
    with a location; a [time.Duration] is an [int64] of nanoseconds.  The
    functions follow the documentation of the [time] package: [Sub] saturates,
    [Truncate] rounds down on absolute time since the zero time. *)

From S2P Require Import Prelude.

Inductive Location := UTC | OtherLocation.

#[global] Instance Location_eq_dec : EqDecision Location.
Proof. solve_decision. Defined.

Record Time := mkTime { ns : Z; loc : Location }.

#[global] Instance Time_eq_dec : EqDecision Time.
Proof. solve_decision. Defined.

Definition Nanosecond : Z := 1.
Definition Microsecond : Z := 1000.
Definition Millisecond : Z := 1000000.
Definition Second : Z := 1000000000.
Definition Minute : Z := 60000000000.
Definition Hour : Z := 3600000000000.

(** Seconds from year 1 to the Unix epoch. *)
Definition unixToInternal : Z := 62135596800.

Definition zeroTime : Time := mkTime 0 UTC.
Definition tIsZero (t : Time) : bool := ns t =? 0.
Definition tUTC (t : Time) : Time := mkTime (ns t) UTC.
Definition tEqual (t u : Time) : bool := ns t =? ns u.
Definition tBefore (t u : Time) : bool := ns t <? ns u.
Definition tAfter (t u : Time) : bool := ns u <? ns t.
Definition tAdd (t : Time) (d : Z) : Time := mkTime (ns t + d) (loc t).

Definition tSub (t u : Time) : Z :=
  let d := ns t - ns u in
  if MaxInt64 <? d then MaxInt64 else if d <? MinInt64 then MinInt64 else d.

Definition tTruncate (t : Time) (d : Z) : Time :=
  if d <=? 0 then t else mkTime (ns t - ns t `mod` d) (loc t).

Definition tUnix (t : Time) : Z := i64 (ns t / Second - unixToInternal).
Definition tUnixMilli (t : Time) : Z :=
  i64 (ns t / Millisecond - unixToInternal * 1000).
Definition tUnixNano (t : Time) : Z := i64 (ns t - unixToInternal * Second).

(** [Duration.Milliseconds]: truncated. *)
Definition dMilliseconds (d : Z) : Z := Z.quot d Millisecond.

(** An instant given in Unix nanoseconds. *)
Definition unixNanos (n : Z) : Time := mkTime (unixToInternal * Second + n) UTC.

Lemma tSub_small t u : in_i64 (ns t - ns u) -> tSub t u = ns t - ns u.
Proof. unfold in_i64, tSub. intros. split_if; lia. Qed.

Lemma tSub_mono t t' u : ns t <= ns t' -> tSub t u <= tSub t' u.
Proof. unfold tSub. intros. split_if; lia. Qed.

Lemma tTruncate_spec t d :
  0 < d -> ns (tTruncate t d) <= ns t < ns (tTruncate t d) + d /\
           (d | ns (tTruncate t d)).
Proof.
  intros Hd. unfold tTruncate. rewrite (proj2 (Z.leb_gt d 0)) by lia. simpl.
  pose proof (Z.mod_pos_bound (ns t) d Hd). split; [lia|].
  exists (ns t / d). pose proof (Z.div_mod (ns t) d). lia.
Qed.

Lemma tTruncate_mono t u d : 0 < d -> ns t <= ns u -> ns (tTruncate t d) <= ns (tTruncate u d).
Proof.
  intros Hd Htu. unfold tTruncate. rewrite (proj2 (Z.leb_gt d 0)) by lia. simpl.
  pose proof (Z.div_mod (ns t) d). pose proof (Z.div_mod (ns u) d).
  pose proof (Z.div_le_mono (ns t) (ns u) d). nia.
Qed.

(** A multiple of [d] at or below [t] and above [t - d] is the truncation. *)
Lemma tTruncate_unique t d b :
  0 < d -> (d | b) -> b <= ns t < b + d -> ns (tTruncate t d) = b.
Proof.
  intros Hd [k ->] Hb. unfold tTruncate. rewrite (proj2 (Z.leb_gt d 0)) by lia. simpl.
  rewrite (Z.mod_eq (ns t) d) by lia.
  replace (ns t / d) with k; [lia|].
  apply (Z.div_unique_pos _ _ _ (ns t - k * d)); lia.
Qed.
