(* ===== verification/Domain.v ===== *)
(** * Domain value types: [internal/domain/{symbol,interval,market,candle,tier,clock}.go]

    Symbols and the market roster, intervals and bucketing, trades, levels and
    snapshots, candles, and the vocabulary of the delivery tiers.  [Interval],
    [DeliveryTier], [TierReason] are Go string types whose values are the
    declared constants: they are inductive types here, with their wire text
    given by a function. *)

From S2P Require Import Prelude Money Decimal GoTime.

(** ** Symbols *)

Record Symbol := mkSymbol {
  ID : string; Base : string; Quote : string; Display : string;
  Name : string; Glyph : string;
  PriceScale : Z; QtyScale : Z; PriceDigits : Z; QtyDigits : Z; Live : bool }.

#[global] Instance Symbol_eq_dec : EqDecision Symbol.
Proof. solve_decision. Defined.

Definition Tick (s : Symbol) : Z := 1.
Definition Step (s : Symbol) : Z := 1.
Definition FormatPrice (s : Symbol) (p : Z) : text := FormatScaled p (PriceDigits s).
Definition FormatQty (s : Symbol) (q : Z) : text := FormatScaled q (QtyDigits s).
Definition ParsePrice (s : Symbol) (v : text) : option (res Z) :=
  ParseScaled v (PriceScale s) (PriceDigits s).
Definition ParseQty (s : Symbol) (v : text) : option (res Z) :=
  ParseScaled v (QtyScale s) (QtyDigits s).
Definition IsTickAligned (s : Symbol) (p : Z) : bool := Z.rem p (Tick s) =? 0.
Definition IsStepAligned (s : Symbol) (q : Z) : bool := Z.rem q (Step s) =? 0.

Definition BTCUSDT : Symbol :=
  mkSymbol "BTCUSDT" "BTC" "USDT" "BTC/USDT" "Bitcoin / USDT" "₿" 100 100000000 2 8 true.
Definition ETHUSDT : Symbol :=
  mkSymbol "ETHUSDT" "ETH" "USDT" "ETH/USDT" "Ethereum / USDT" "Ξ" 1000 100000000 3 8 true.
Definition SOLUSDT : Symbol :=
  mkSymbol "SOLUSDT" "SOL" "USDT" "SOL/USDT" "Solana / USDT" "S" 10000 100000000 4 8 true.
Definition BNBUSDT : Symbol :=
  mkSymbol "BNBUSDT" "BNB" "USDT" "BNB/USDT" "BNB Chain / USDT" "B" 10000 100000000 4 8 true.
Definition AVAXUSDT : Symbol :=
  mkSymbol "AVAXUSDT" "AVAX" "USDT" "AVAX/USDT" "Avalanche / USDT" "A" 10000 100000000 4 8 true.
Definition ADAUSDT : Symbol :=
  mkSymbol "ADAUSDT" "ADA" "USDT" "ADA/USDT" "Cardano / USDT" "D" 10000 100000000 4 8 true.

Definition allSymbols : list Symbol :=
  [BTCUSDT; ETHUSDT; SOLUSDT; BNBUSDT; AVAXUSDT; ADAUSDT].

(** [MarketSeed] pairs a symbol with the starting price of its feed. *)
Definition seedBy : gmap string (Symbol * Z) :=
  <[ID BTCUSDT := (BTCUSDT, 6742135)]> (<[ID ETHUSDT := (ETHUSDT, 3421200)]>
  (<[ID SOLUSDT := (SOLUSDT, 1824000)]> (<[ID BNBUSDT := (BNBUSDT, 5941000)]>
  (<[ID AVAXUSDT := (AVAXUSDT, 287500)]> (<[ID ADAUSDT := (ADAUSDT, 4820)]> ∅))))).

Definition AllSymbols : list Symbol := allSymbols.

Fixpoint lookup_symbol (l : list Symbol) (id : string) : res Symbol :=
  match l with
  | [] => Err ErrSymbolNotFound
  | s :: l => if bool_decide (ID s = id) then Ok s else lookup_symbol l id
  end.
Definition Lookup (id : string) : res Symbol := lookup_symbol allSymbols id.

Definition Seed (id : string) : option (Symbol * Z) := seedBy !! id.
Definition SeedPrice (id : string) : option Z := snd <$> seedBy !! id.

(** FNV-1a, 64 bits, of [hash/fnv]. *)
Definition fnv64a (s : text) : Z :=
  fold_left (fun h c => u64 (Z.lxor h (Z.of_N (Ascii.N_of_ascii c)) * 1099511628211))
    s 14695981039346656037.
Definition DerivedSeed (base : Z) (symbolID : string) : Z :=
  i64 (Z.lxor base (i64 (fnv64a (txt symbolID)))).

(** ** Intervals *)

Inductive Interval :=
| Interval1m | Interval5m | Interval15m | Interval1h | Interval4h | Interval1D.

#[global] Instance Interval_eq_dec : EqDecision Interval.
Proof. solve_decision. Defined.

Definition Interval_code (i : Interval) : positive :=
  match i with
  | Interval1m => 1 | Interval5m => 2 | Interval15m => 3
  | Interval1h => 4 | Interval4h => 5 | Interval1D => 6
  end.
Definition Interval_decode (p : positive) : option Interval :=
  match p with
  | 1 => Some Interval1m | 2 => Some Interval5m | 3 => Some Interval15m
  | 4 => Some Interval1h | 5 => Some Interval4h | 6 => Some Interval1D
  | _ => None
  end%positive.
#[global] Instance Interval_countable : Countable Interval.
Proof. refine {| encode := Interval_code; decode := Interval_decode |}. by intros []. Defined.

Definition intervalSpecs : list (Interval * Z * Z) :=
  [(Interval1m, Minute, 500); (Interval5m, 5 * Minute, 500);
   (Interval15m, 15 * Minute, 500); (Interval1h, Hour, 500);
   (Interval4h, 4 * Hour, 180); (Interval1D, 24 * Hour, 30)].

Definition IntervalID (i : Interval) : string :=
  match i with
  | Interval1m => "1m" | Interval5m => "5m" | Interval15m => "15m"
  | Interval1h => "1h" | Interval4h => "4h" | Interval1D => "1D"
  end.

Fixpoint find_spec (l : list (Interval * Z * Z)) (id : string) : res (Interval * Z * Z) :=
  match l with
  | [] => Err ErrUnsupportedInterval
  | s :: l => if bool_decide (IntervalID (fst (fst s)) = id) then Ok s else find_spec l id
  end.
Definition intervalSpec (i : Interval) : res (Interval * Z * Z) :=
  find_spec intervalSpecs (IntervalID i).
Definition ParseInterval (id : string) : res Interval :=
  match find_spec intervalSpecs id with Ok s => Ok (fst (fst s)) | Err e => Err e end.

Definition Intervals : list Interval := map (fun s => fst (fst s)) intervalSpecs.
Definition IntervalIDs : list string := map IntervalID Intervals.

(** The panic of [Duration] on an unregistered interval cannot happen on the
    inductive type; [Duration_registered] shows it. *)
Definition Duration (i : Interval) : Z :=
  match intervalSpec i with Ok s => snd (fst s) | Err _ => 0 end.
Definition HistoryDepth (i : Interval) : Z :=
  match intervalSpec i with Ok s => snd s | Err _ => 0 end.

Definition BucketStart (i : Interval) (t : Time) : Time := tTruncate (tUTC t) (Duration i).
Definition BucketEnd (i : Interval) (t : Time) : Time := tAdd (BucketStart i t) (Duration i).
Definition ExpectedNext (i : Interval) (t : Time) : Time :=
  tAdd (BucketStart i t) (Duration i).

Lemma Duration_registered i : exists s, intervalSpec i = Ok s /\ fst (fst s) = i /\
  Duration i = snd (fst s) /\ 0 < Duration i.
Proof. destruct i; eexists; repeat split; vm_compute; reflexivity. Qed.
Lemma Duration_pos i : 0 < Duration i.
Proof. destruct i; reflexivity. Qed.
#[export] Hint Resolve Duration_pos : pulse.

Lemma Interval_roundtrip i : ParseInterval (IntervalID i) = Ok i.
Proof. by destruct i. Qed.

(** ** Trades, levels, snapshots *)

Inductive Side := SideUnknown | SideBuy | SideSell.
#[global] Instance Side_eq_dec : EqDecision Side.
Proof. solve_decision. Defined.

Definition Side_String (s : Side) : string :=
  match s with SideBuy => "BUY" | SideSell => "SELL" | _ => "UNKNOWN" end.
Definition ParseSide (v : string) : res Side :=
  if bool_decide (v = "BUY"%string) then Ok SideBuy
  else if bool_decide (v = "SELL"%string) then Ok SideSell else Err ErrUnknownSide.

Record Trade := mkTrade {
  trID : Z; trSymbol : string; trTimestamp : Time;
  trPrice : Z; trQuantity : Z; trSide : Side }.
#[global] Instance Trade_eq_dec : EqDecision Trade.
Proof. solve_decision. Defined.

Record Level := mkLevel { lvPrice : Z; lvQuantity : Z }.
#[global] Instance Level_eq_dec : EqDecision Level.
Proof. solve_decision. Defined.

Record OrderBookSnapshot := mkSnapshot {
  snSymbol : string; snEpoch : Z; snUpdateID : Z;
  snBids : list Level; snAsks : list Level; snServerTime : Time }.

Definition best (side : list Level) : option Level := head side.

Definition Snapshot_Spread (s : OrderBookSnapshot) : option Z :=
  match best (snBids s), best (snAsks s) with
  | Some b, Some a => Some (Price.Sub (lvPrice a) (lvPrice b))
  | _, _ => None
  end.

(** The two adjacency loops shared by [OrderBookSnapshot.Validate] and
    [OrderBook.checkOrdering]. *)
Fixpoint descending (l : list Level) : bool :=
  match l with
  | a :: (b :: _) as r => negb (Price.Cmp (lvPrice a) (lvPrice b) <=? 0) && descending r
  | _ => true
  end.
Fixpoint ascending (l : list Level) : bool :=
  match l with
  | a :: (b :: _) as r => negb (0 <=? Price.Cmp (lvPrice a) (lvPrice b)) && ascending r
  | _ => true
  end.

Definition Snapshot_Validate (s : OrderBookSnapshot) : option error :=
  match snBids s, snAsks s with
  | [], _ | _, [] => Some ErrEmptyBook
  | b :: _, a :: _ =>
      if 0 <=? Price.Cmp (lvPrice b) (lvPrice a) then Some ErrCrossedBook
      else if negb (descending (snBids s)) then Some ErrCrossedBook
      else if negb (ascending (snAsks s)) then Some ErrCrossedBook else None
  end.

Record MarketSummary := mkSummary {
  smSymbol : string; smLast : Z; smOpen24h : Z; smHigh24h : Z; smLow24h : Z;
  smVolume24h : Z; smChange : Z; smChangeBP : Z; smTrades24h : Z; smUpdatedAt : Time }.

(** ** Candles *)

Record Candle := mkCandle {
  cdSymbol : string; cdInterval : Interval; cdStartTime : Time;
  cdOpen : Z; cdHigh : Z; cdLow : Z; cdClose : Z; cdVolume : Z;
  cdTradeCount : Z; cdSourceSequence : Z }.
#[global] Instance Candle_eq_dec : EqDecision Candle.
Proof. solve_decision. Defined.

(** Opens a candle from the first trade of a bucket. *)
Definition NewCandle (symbol : string) (iv : Interval) (t : Trade) : Candle :=
  mkCandle symbol iv (BucketStart iv (trTimestamp t))
    (trPrice t) (trPrice t) (trPrice t) (trPrice t) (trQuantity t) 1 (trID t).

Definition Candle_Apply (c : Candle) (t : Trade) : Candle :=
  mkCandle (cdSymbol c) (cdInterval c) (cdStartTime c) (cdOpen c)
    (if 0 <? Price.Cmp (trPrice t) (cdHigh c) then trPrice t else cdHigh c)
    (if Price.Cmp (trPrice t) (cdLow c) <? 0 then trPrice t else cdLow c)
    (trPrice t)
    (Qty.Add (cdVolume c) (trQuantity t))
    (i64 (cdTradeCount c + 1))
    (trID t).

(** [None] is a nil error. *)
Definition Candle_Validate (c : Candle) : option error :=
  if cdTradeCount c <=? 0 then Some ErrCandleInvariant
  else if Qty.IsNegative (cdVolume c) then Some ErrCandleInvariant
  else if Price.Cmp (cdHigh c) (MaxPrice (cdOpen c) (cdClose c)) <? 0
  then Some ErrCandleInvariant
  else if 0 <? Price.Cmp (cdLow c) (MinPrice (cdOpen c) (cdClose c))
  then Some ErrCandleInvariant
  else if Price.Cmp (cdHigh c) (cdLow c) <? 0 then Some ErrCandleInvariant
  else if bool_decide (loc (cdStartTime c) = UTC) then None
  else Some ErrCandleInvariant.

Definition Candle_EqualValue (c o : Candle) : bool :=
  bool_decide (cdSymbol c = cdSymbol o) && bool_decide (cdInterval c = cdInterval o) &&
  tEqual (cdStartTime c) (cdStartTime o) && (cdOpen c =? cdOpen o) &&
  (cdHigh c =? cdHigh o) && (cdLow c =? cdLow o) && (cdClose c =? cdClose o) &&
  (cdVolume c =? cdVolume o).

(** [clock.go]: exact comparisons. *)
Fixpoint EqualLevels (a b : list Level) : bool :=
  match a, b with
  | [], [] => true
  | x :: a, y :: b => bool_decide (x = y) && EqualLevels a b
  | _, _ => false
  end.

Definition EqualTrades (a b : Trade) : bool :=
  (trID a =? trID b) && bool_decide (trSymbol a = trSymbol b) &&
  tEqual (trTimestamp a) (trTimestamp b) && (trPrice a =? trPrice b) &&
  (trQuantity a =? trQuantity b) && bool_decide (trSide a = trSide b).

(** ** Delivery tiers *)

Inductive DeliveryTier := TierFull | TierDegraded | TierMinimal.
#[global] Instance DeliveryTier_eq_dec : EqDecision DeliveryTier.
Proof. solve_decision. Defined.

Definition Tier_String (t : DeliveryTier) : string :=
  match t with
  | TierFull => "FULL" | TierDegraded => "DEGRADED" | TierMinimal => "MINIMAL"
  end.
Definition ParseTier (v : string) : res DeliveryTier :=
  if bool_decide (v = "FULL"%string) then Ok TierFull
  else if bool_decide (v = "DEGRADED"%string) then Ok TierDegraded
  else if bool_decide (v = "MINIMAL"%string) then Ok TierMinimal
  else Err ErrUnknownTier.
Definition Rank (t : DeliveryTier) : Z :=
  match t with TierFull => 2 | TierDegraded => 1 | TierMinimal => 0 end.

Inductive TierReason :=
| ReasonGoodHealth | ReasonHighRTT | ReasonHighJitter | ReasonMissingReports
| ReasonForcedOverride | ReasonRecovery | ReasonInitialAssignment.
#[global] Instance TierReason_eq_dec : EqDecision TierReason.
Proof. solve_decision. Defined.

Definition Reason_String (r : TierReason) : string :=
  match r with
  | ReasonGoodHealth => "GOOD_HEALTH" | ReasonHighRTT => "HIGH_RTT"
  | ReasonHighJitter => "HIGH_JITTER" | ReasonMissingReports => "MISSING_REPORTS"
  | ReasonForcedOverride => "FORCED_OVERRIDE" | ReasonRecovery => "RECOVERY"
  | ReasonInitialAssignment => "INITIAL"
  end.

Inductive HealthBand := BandGood | BandDegraded | BandMinimal.
#[global] Instance HealthBand_eq_dec : EqDecision HealthBand.
Proof. solve_decision. Defined.

Definition Band_rank (b : HealthBand) : Z :=
  match b with BandGood => 0 | BandDegraded => 1 | BandMinimal => 2 end.
Definition Band_String (b : HealthBand) : string :=
  match b with
  | BandGood => "GOOD" | BandDegraded => "DEGRADED_BAND" | _ => "MINIMAL_BAND"
  end.

Lemma Tier_roundtrip t : ParseTier (Tier_String t) = Ok t.
Proof. by destruct t. Qed.

(** ** Lemmas *)

Lemma EqualLevels_spec a b : EqualLevels a b = true <-> a = b.
Proof.
  revert b. induction a as [|x a IH]; intros [|y b]; simpl; try done.
  rewrite andb_true_iff, bool_decide_eq_true, IH. split; [intros [-> ->]; done|intros [= -> ->]; done].
Qed.

(** buckets.  [BucketStart] gives the UTC bucket boundary on the Unix
    timeline, for every registered interval, although [time.Truncate] counts
    from year 1: the boundary is a multiple of the interval since the epoch,
    the instant lies in [[start, start + duration)], and the boundary is the
    only such instant. *)
Theorem BucketStart_unix_boundary (iv : Interval) (t : Time) (b : Z) :
  let s := BucketStart iv t in
  loc s = UTC /\ ns s <= ns t < ns (BucketEnd iv t) /\
  Z.divide (Duration iv) (ns s - unixToInternal * Second) /\
  (Z.divide (Duration iv) (b - unixToInternal * Second) ->
   b <= ns t < b + Duration iv -> ns s = b).
Proof.
  assert (Hoff : Z.divide (Duration iv) (unixToInternal * Second))
    by (destruct iv; apply Z.mod_divide; done).
  pose proof (Duration_pos iv) as Hd. unfold BucketEnd, BucketStart. simpl.
  destruct (tTruncate_spec (tUTC t) (Duration iv) Hd) as [Hb Hdiv].
  split_and!.
  - unfold tTruncate. by destruct (_ <=? _).
  - apply Hb.
  - apply Hb.
  - by apply Z.divide_sub_r.
  - intros Hb' Hr. apply (tTruncate_unique (tUTC t)); [done| |done].
    replace b with ((b - unixToInternal * Second) + unixToInternal * Second) by lia.
    by apply Z.divide_add_r.
Qed.

Example BucketStart_unix_boundary_witness :
  ns (BucketStart Interval5m (unixNanos (1789649723 * Second + 17)))
  = unixToInternal * Second + 1789649700 * Second.
Proof.
  apply BucketStart_unix_boundary.
  - exists 5965499. reflexivity.
  - vm_compute. split; [discriminate | reflexivity].
Defined.
