(* ===== verification/Float64.v ===== *)
(** * IEEE 754 binary64 arithmetic

    Go's [float64] operations round to nearest even; they are the operations of
    the standard library's [SpecFloat] at precision 53 and exponent bound 1024,
    which compute without axioms.  The lemmas bound the magnitude of the
    non-negative values the backend converts to integers, so that no conversion
    is out of range. *)

From Stdlib Require Import SpecFloat.
From S2P Require Import Prelude.

Definition float64 : Type := spec_float.

Definition f64_of_Z (z : Z) : float64 := binary_normalize 53 1024 z 0 false.
Definition f64_add (x y : float64) : float64 := SFadd 53 1024 x y.
Definition f64_sub (x y : float64) : float64 := SFsub 53 1024 x y.
Definition f64_mul (x y : float64) : float64 := SFmul 53 1024 x y.
Definition f64_div (x y : float64) : float64 := SFdiv 53 1024 x y.

(** A decimal literal: the quotient of two exact integers is the nearest
    [float64] to the exact ratio. *)
Definition f64_lit (num den : Z) : float64 := f64_div (f64_of_Z num) (f64_of_Z den).

(** [x * 2^e], exact in the normal range. *)
Definition f64_ldexp (m e : Z) : float64 := binary_normalize 53 1024 m e false.

Definition f64_ltb (x y : float64) : bool := SFltb x y.
Definition f64_leb (x y : float64) : bool := SFleb x y.

(** Conversion to [int64] truncates toward zero.  Out of range, NaN and
    infinities give [MinInt64], the value of amd64. *)
Definition f64_to_int (x : float64) : Z :=
  match x with
  | S754_zero _ => 0
  | S754_finite s m e =>
      let v := if 0 <=? e then Zpos m * 2 ^ e else Zpos m / 2 ^ (- e) in
      let v := if s then - v else v in
      if (MinInt64 <=? v) && (v <=? MaxInt64) then v else MinInt64
  | _ => MinInt64
  end.

(** ** Magnitude of non-negative values *)

(** [mag_lt f k]: [f] is finite, non-negative and below [2^k]. *)
Definition mag_lt (f : float64) (k : Z) : Prop :=
  match f with
  | S754_zero false => True
  | S754_finite false m e => Z.log2 (Zpos m) + e < k
  | _ => False
  end.

Definition small_pair (m e k : Z) : Prop :=
  0 <= m /\ e <= k /\ (0 < m -> Z.log2 m + e < k).

Lemma Zdigits2_log2 m : 0 < m -> Zdigits2 m = Z.log2 m + 1.
Proof.
  destruct m as [|p|p]; [lia| |lia]. intros _. cbn [Zdigits2].
  induction p as [p IH|p IH|]; cbn [digits2_pos]; [| |reflexivity].
  - rewrite Pos2Z.inj_succ, IH. rewrite (Pos2Z.inj_xI p).
    rewrite Z.log2_succ_double by lia. lia.
  - rewrite Pos2Z.inj_succ, IH. rewrite (Pos2Z.inj_xO p).
    rewrite Z.log2_double by lia. lia.
Qed.

Lemma shr_1_half mrs :
  0 <= shr_m mrs -> shr_m (shr_1 mrs) = shr_m mrs / 2.
Proof.
  destruct mrs as [m r s]. cbn [shr_m]. intros Hm.
  destruct m as [|[p|p|]|p]; cbn [shr_1 shr_m]; try reflexivity; try lia.
  - rewrite (Pos2Z.inj_xI p). apply (Z.div_unique_pos _ _ _ 1); lia.
  - rewrite (Pos2Z.inj_xO p). apply (Z.div_unique_pos _ _ _ 0); lia.
Qed.

Lemma iter_shr_1 n mrs :
  0 <= shr_m mrs ->
  shr_m (SpecFloat.iter_pos shr_1 n mrs) = shr_m mrs / 2 ^ Zpos n.
Proof.
  intros Hm. assert (Hsteps : forall n mrs, SpecFloat.iter_pos shr_1 n mrs = Nat.iter (Pos.to_nat n) shr_1 mrs).
  { clear. induction n as [n IH|n IH|]; intros mrs; cbn [SpecFloat.iter_pos].
    - rewrite !IH, Pos2Nat.inj_xI, <- Nat.iter_add.
      replace (S (2 * Pos.to_nat n)) with (Pos.to_nat n + Pos.to_nat n + 1)%nat by lia.
      by rewrite (Nat.iter_add _ 1).
    - rewrite !IH, Pos2Nat.inj_xO, <- Nat.iter_add. f_equal. lia.
    - done. }
  rewrite Hsteps. rewrite <- (positive_nat_Z n).
  induction (Pos.to_nat n) as [|k IH]; simpl Nat.iter.
  - rewrite Z.div_1_r. done.
  - rewrite shr_1_half; rewrite IH; [|apply Z.div_pos; lia].
    rewrite Nat2Z.inj_succ, Z.pow_succ_r, Z.mul_comm by lia.
    rewrite Z.div_div by lia. done.
Qed.

Lemma shr_small mrs e n k :
  small_pair (shr_m mrs) e k -> e + n <= k ->
  let '(mrs', e') := shr mrs e n in small_pair (shr_m mrs') e' k.
Proof.
  intros (Hm & He & Hl) Hn. unfold shr. destruct n as [|p|p]; try by split_and!.
  rewrite iter_shr_1 by done. split_and!; [apply Z.div_pos; lia|done|].
  intros Hpos.
  assert (2 ^ Zpos p <= shr_m mrs).
  { destruct (Z.le_gt_cases (2 ^ Zpos p) (shr_m mrs)); [done|].
    rewrite Z.div_small in Hpos; lia. }
  rewrite <- Z.shiftr_div_pow2, Z.log2_shiftr by lia.
  specialize (Hl ltac:(lia)). pose proof (Z.log2_nonneg (shr_m mrs)).
  enough (Zpos p <= Z.log2 (shr_m mrs)) by lia.
  apply Z.log2_le_pow2; lia.
Qed.

Lemma shr_fexp_small m e k :
  0 <= k -> small_pair m e k ->
  let '(mrs, e') := shr_fexp 53 1024 m e loc_Exact in small_pair (shr_m mrs) e' k.
Proof.
  intros Hk Hs. unfold shr_fexp. apply shr_small; [done|].
  destruct Hs as (Hm & He & Hl). unfold fexp, emin.
  destruct (decide (m = 0)) as [->|]; [simpl; lia|].
  rewrite Zdigits2_log2 by lia. specialize (Hl ltac:(lia)). lia.
Qed.

Lemma binary_round_aux_mag m e k :
  0 <= k <= 970 -> 0 < m -> Z.log2 m + e < k ->
  mag_lt (binary_round_aux 53 1024 false m e loc_Exact) (k + 1).
Proof.
  intros Hk Hm Hl. unfold binary_round_aux.
  assert (Hs : small_pair m e k).
  { split_and!; [lia| |done]. pose proof (Z.log2_nonneg m). lia. }
  pose proof (shr_fexp_small m e k ltac:(lia) Hs) as H1.
  destruct (shr_fexp 53 1024 m e loc_Exact) as [mrs1 e1].
  set (m2 := round_nearest_even _ _).
  assert (Hs2 : small_pair m2 e1 (k + 1)).
  { destruct H1 as (Hm1 & He1 & Hl1).
    assert (m2 = shr_m mrs1 \/ m2 = shr_m mrs1 + 1) as [->| ->].
    { unfold m2, round_nearest_even. destruct (loc_of_shr_record mrs1) as [|[| |]]; auto.
      destruct (Z.even _); auto. }
    - split_and!; [done|lia|]. intros Hp. specialize (Hl1 Hp). lia.
    - split_and!; [lia|lia|]. intros _.
      destruct (decide (shr_m mrs1 = 0)) as [E|E]; [rewrite E; simpl; lia|].
      specialize (Hl1 ltac:(lia)).
      pose proof (Z.log2_succ_le (shr_m mrs1)). unfold Z.succ in *. lia. }
  pose proof (shr_fexp_small m2 e1 (k + 1) ltac:(lia) Hs2) as H3.
  destruct (shr_fexp 53 1024 m2 e1 loc_Exact) as [mrs2 e2].
  destruct H3 as (Hm3 & He3 & Hl3).
  destruct (shr_m mrs2) as [|p|p]; [done| |lia].
  rewrite (proj2 (Z.leb_le e2 (1024 - 53))) by lia. simpl. by apply Hl3.
Qed.

Lemma f64_mul_mag x y j k :
  mag_lt x j -> mag_lt y k -> 0 <= j + k + 1 <= 970 -> mag_lt (f64_mul x y) (j + k + 2).
Proof.
  unfold mag_lt at 1 2, f64_mul.
  destruct x as [[]| | |[] mx ex], y as [[]| | |[] my ey]; try done.
  intros Hx Hy Hk. cbn [SFmul xorb]. replace (j + k + 2) with (j + k + 1 + 1) by lia.
  apply binary_round_aux_mag; [lia|lia|].
  pose proof (Z.log2_mul_above (Zpos mx) (Zpos my)).
  rewrite Pos2Z.inj_mul. lia.
Qed.

Lemma shl_align_value m e e' :
  let '(m', e2) := shl_align m e e' in Z.log2 (Zpos m') + e2 = Z.log2 (Zpos m) + e.
Proof.
  unfold shl_align. destruct (e' - e) as [|d|d] eqn:E; try done.
  assert (Hp : forall d, Zpos (Pos.iter xO m d) = Zpos m * 2 ^ Zpos d).
  { clear. intros d. induction d as [|d IH] using Pos.peano_ind.
    - simpl. rewrite (Pos2Z.inj_xO m). lia.
    - rewrite Pos.iter_succ, (Pos2Z.inj_xO (Pos.iter _ _ _)), IH.
      rewrite Pos2Z.inj_succ, Z.pow_succ_r by lia. lia. }
  rewrite Hp, Z.log2_mul_pow2 by lia. lia.
Qed.

Lemma f64_ldexp_mag m e k :
  0 <= m -> (0 < m -> Z.log2 m + e < k) -> 0 <= k <= 970 ->
  mag_lt (f64_ldexp m e) (k + 1).
Proof.
  intros Hm Hl Hk. unfold f64_ldexp, binary_normalize.
  destruct m as [|p|p]; [done| |lia].
  unfold binary_round.
  set (e' := fexp _ _ _). pose proof (shl_align_value p e e') as Hv.
  destruct (shl_align p e e') as [mz ez].
  apply binary_round_aux_mag; [lia|lia|]. specialize (Hl ltac:(lia)). lia.
Qed.

Lemma f64_of_Z_mag z k : 0 <= z < 2 ^ k -> 0 <= k <= 970 -> mag_lt (f64_of_Z z) (k + 1).
Proof.
  intros Hz Hk. apply f64_ldexp_mag; [lia| |lia].
  intros Hp. rewrite Z.add_0_r. apply Z.log2_lt_pow2; lia.
Qed.

(** Conversion of a non-negative value below [2^62] neither truncates below
    zero nor leaves the [int64] range. *)
Lemma f64_to_int_nonneg x k : mag_lt x k -> 0 <= k <= 62 -> 0 <= f64_to_int x < 2 ^ k.
Proof.
  unfold mag_lt, f64_to_int. destruct x as [[]| | |[] m e]; try done; intros Hl Hk.
  { split; [lia|]. apply Z.pow_pos_nonneg; lia. }
  set (v := if 0 <=? e then _ else _).
  assert (Hv : 0 <= v < 2 ^ k).
  { pose proof (Z.log2_spec (Zpos m) ltac:(lia)) as [_ Hm].
    pose proof (Z.log2_nonneg (Zpos m)). unfold v, Z.succ in *. clear v.
    destruct (0 <=? e) eqn:He; bool_to_prop.
    - split; [pose proof (Z.pow_nonneg 2 e); lia|].
      apply Z.lt_le_trans with (2 ^ (Z.log2 (Zpos m) + 1) * 2 ^ e).
      + pose proof (Z.pow_pos_nonneg 2 e). nia.
      + rewrite <- Z.pow_add_r by lia. apply Z.pow_le_mono_r; lia.
    - pose proof (Z.pow_pos_nonneg 2 (- e) ltac:(lia) ltac:(lia)).
      split; [apply Z.div_pos; lia|].
      apply Z.div_lt_upper_bound; [lia|]. rewrite <- Z.pow_add_r by lia.
      apply Z.lt_le_trans with (2 ^ (Z.log2 (Zpos m) + 1)); [done|].
      apply Z.pow_le_mono_r; lia. }
  pose proof (Z.pow_le_mono_r 2 k 62 ltac:(lia) ltac:(lia)).
  change (2 ^ 62) with 4611686018427387904 in *.
  rewrite (proj2 (Z.leb_le MinInt64 v)), (proj2 (Z.leb_le v MaxInt64)) by lia. done.
Qed.

Lemma f64_to_int_range x : in_i64 (f64_to_int x).
Proof.
  unfold in_i64, f64_to_int. destruct x as [| | |s m e]; try lia.
  cbv zeta. destruct (_ && _) eqn:E; [|lia]. bool_to_prop. lia.
Qed.

Example f64_ex1 : f64_to_int (f64_mul (f64_lit 29 100) (f64_of_Z 100)) = 28.
Proof. reflexivity. Qed.
