(* ===== verification/Rand.v ===== *)
(** * The random source: [math/rand/v2]

    The backend draws through [*rand.Rand] values that it threads by pointer;
    here the source is a state passed explicitly.  [RandSource] is the interface
    the components use and [RandLaws] what they rely on: [IntN n] lies in
    [[0, n)] and [Float64] is a multiple of [2^-53] in [[0, 1)].  The instance
    [pcg_source] is the generator the program seeds, [rand.NewPCG]. *)

From Stdlib Require Import SpecFloat.
From S2P Require Import Prelude Money Float64.

Class RandSource (G : Type) := {
  IntN : Z -> G -> Z * G;
  rFloat64 : G -> float64 * G }.

Class RandLaws (G : Type) `{RandSource G} : Prop := {
  IntN_range : forall n (g : G), 0 < n < two63 -> 0 <= fst (IntN n g) < n;
  rFloat64_unit : forall (g : G), exists k, 0 <= k < 2 ^ 53 /\ fst (rFloat64 g) = f64_ldexp k (-53) }.

#[export] Hint Mode RandSource ! : typeclass_instances.

Lemma rFloat64_mag {G} `{RandLaws G} (g : G) : mag_lt (fst (rFloat64 g)) 1.
Proof.
  destruct (rFloat64_unit g) as (k & Hk & ->).
  apply (f64_ldexp_mag k (-53) 0); [lia| |lia].
  intros Hp. assert (Z.log2 k < 53) by (apply Z.log2_lt_pow2; lia). lia.
Qed.

(** ** PCG-DXSM *)

Record PCG := mkPCG { pcgHi : Z; pcgLo : Z }.

Definition NewPCG (seed1 seed2 : Z) : PCG := mkPCG (u64 seed1) (u64 seed2).

Definition pcg_next (p : PCG) : PCG :=
  let '(hi, lo) := Mul64 (pcgLo p) 4865540595714422341 in
  let hi := u64 (hi + u64 (u64 (pcgHi p * 4865540595714422341)
                           + u64 (pcgLo p * 2549297995355413924))) in
  let sum := lo + 1442695040888963407 in
  let c := sum / two64 in
  mkPCG (u64 (hi + 6364136223846793005 + c)) (u64 sum).

Definition pcg_Uint64 (p : PCG) : Z * PCG :=
  let p := pcg_next p in
  let hi := pcgHi p in
  let hi := Z.lxor hi (Z.shiftr hi 32) in
  let hi := u64 (hi * 15750249268501108917) in
  let hi := Z.lxor hi (Z.shiftr hi 48) in
  let hi := u64 (hi * Z.lor (pcgLo p) 1) in
  (hi, p).

(** Rejection of the biased low products.  Each round rejects with probability
    below [n / 2^64]; the loop is bounded at 64 rounds, and what it returns
    lies in the range whatever the number of rounds. *)
Fixpoint reject (fuel : nat) (n thresh : Z) (x : Z) (p : PCG) : Z * PCG :=
  let '(hi, lo) := Mul64 x n in
  match fuel with
  | O => (hi, p)
  | S fuel =>
      if lo <? thresh then let '(x, p) := pcg_Uint64 p in reject fuel n thresh x p
      else (hi, p)
  end.

(** [uint64n] reduces through 32-bit draws only where [int] has 32 bits (its
    constant [is32bit]); the program runs where it has 64, so every [n] takes
    this path. *)
Definition pcg_uint64n (n : Z) (p : PCG) : Z * PCG :=
  let '(x, p) := pcg_Uint64 p in
  if Z.land n (n - 1) =? 0 then (Z.land x (n - 1), p)
  else reject 64 n (u64 (- n) `mod` n) x p.

Definition pcg_Float64 (p : PCG) : float64 * PCG :=
  let '(x, p) := pcg_Uint64 p in
  (f64_ldexp (Z.shiftr (u64 (Z.shiftl x 11)) 11) (-53), p).

#[global] Instance pcg_source : RandSource PCG := {
  IntN := pcg_uint64n; rFloat64 := pcg_Float64 }.

Lemma land_le_r x m : 0 <= x -> 0 <= m -> Z.land x m <= m.
Proof.
  intros Hx Hm. rewrite <- (Z2N.id x), <- (Z2N.id m), <- N2Z.inj_land by done.
  apply N2Z.inj_le, N.land_le_r.
Qed.

Lemma pcg_Uint64_range p : in_u64 (fst (pcg_Uint64 p)).
Proof. unfold pcg_Uint64. apply u64_range. Qed.

Lemma mul_hi_range x n : in_u64 x -> 0 < n -> 0 <= fst (Mul64 x n) < n.
Proof.
  unfold in_u64, Mul64. simpl. intros Hx Hn.
  split; [apply Z.div_pos; nia|apply Z.div_lt_upper_bound; nia].
Qed.

Lemma reject_range fuel n thresh x p :
  in_u64 x -> 0 < n -> 0 <= fst (reject fuel n thresh x p) < n.
Proof.
  revert x p. induction fuel as [|fuel IH]; intros x p Hx Hn;
    pose proof (mul_hi_range x n Hx Hn); unfold Mul64 in *; cbn [reject fst] in *;
    unfold Mul64; [done|].
  destruct (_ <? thresh); [|done].
  pose proof (pcg_Uint64_range p). destruct (pcg_Uint64 p) as [x' p'].
  by apply IH.
Qed.

#[global] Instance pcg_laws : RandLaws PCG.
Proof.
  split.
  - intros n p Hn. cbn [IntN pcg_source]. unfold pcg_uint64n.
    pose proof (pcg_Uint64_range p) as Hx. destruct (pcg_Uint64 p) as [x p']. cbn [fst] in Hx.
    destruct (Z.land n (n - 1) =? 0); [|apply reject_range; [done|lia]]. cbn [fst].
    unfold in_u64 in Hx. split; [apply Z.land_nonneg; lia|].
    enough (Z.land x (n - 1) <= n - 1) by lia.
    by apply land_le_r; lia.
  - intros p. cbn [rFloat64 pcg_source]. unfold pcg_Float64.
    destruct (pcg_Uint64 p) as [x p']. cbn [fst]. eexists. split; [|done].
    rewrite Z.shiftr_div_pow2 by lia. pose proof (u64_range (Z.shiftl x 11)) as Hr.
    unfold in_u64 in Hr. change (2 ^ 11) with 2048. change (2 ^ 53) with 9007199254740992.
    split; [apply Z.div_pos; lia|apply Z.div_lt_upper_bound; lia].
Qed.
