(* ===== verification/Book.v ===== *)
(** * The canonical order book: [internal/market/book.go]

    [OrderBook] is a record of the Go fields; each method is a function from
    the book to the new book.  Methods that index a slice return an [option]
    ([None] is the out-of-range panic), methods that draw random numbers thread
    a source of [Rand.RandSource].

    The [changed] map the Go code fills in [ApplyTrade], [Refresh], [Recenter]
    and [ApplyDelta] is passed to [mutationRange], which never reads it: the
    published mutation carries the window only.  It is therefore not part of
    the model. *)

From S2P Require Import Prelude Money GoTime Domain Float64 Rand.

Record OrderBook := mkBook {
  bkSymbol : Symbol; bkMaxLevels : Z; bkWindow : Z;
  bkEpoch : Z; bkUpdateID : Z;
  bkBids : list Level;   (* strictly descending price *)
  bkAsks : list Level    (* strictly ascending price *) }.

Record Mutation := mkMutation {
  muSymbol : string; muEpoch : Z; muFirstUpdate : Z; muLastUpdate : Z;
  muBids : list Level; muAsks : list Level; muAt : Time; muErr : option error }.

Record BookWindow := mkWindow {
  bwSymbol : string; bwEpoch : Z; bwUpdateID : Z;
  bwBids : list Level; bwAsks : list Level; bwAt : Time; bwDescription : string }.

Definition set_sides (b : OrderBook) (bids asks : list Level) : OrderBook :=
  mkBook (bkSymbol b) (bkMaxLevels b) (bkWindow b) (bkEpoch b) (bkUpdateID b) bids asks.
Definition set_update (b : OrderBook) (u : Z) : OrderBook :=
  mkBook (bkSymbol b) (bkMaxLevels b) (bkWindow b) (bkEpoch b) u (bkBids b) (bkAsks b).


(** ** Level helpers *)

Definition copyLevels (src : list Level) (n : Z) : list Level :=
  let n := if (n <=? 0) || (len src <? n) then len src else n in
  take (Z.to_nat n) src.

Definition trimTo (levels : list Level) (maxLevels : Z) : list Level :=
  if len levels <=? maxLevels then levels else take (Z.to_nat maxLevels) levels.

Fixpoint insertDescending (levels : list Level) (lvl : Level) : list Level :=
  match levels with
  | [] => [lvl]
  | e :: r => if 0 <? Price.Cmp (lvPrice lvl) (lvPrice e) then lvl :: levels
              else e :: insertDescending r lvl
  end.

Fixpoint insertAscending (levels : list Level) (lvl : Level) : list Level :=
  match levels with
  | [] => [lvl]
  | e :: r => if Price.Cmp (lvPrice lvl) (lvPrice e) <? 0 then lvl :: levels
              else e :: insertAscending r lvl
  end.

Fixpoint removePrice (levels : list Level) (p : Z) : list Level :=
  match levels with
  | [] => []
  | e :: r => if lvPrice e =? p then r else e :: removePrice r p
  end.

Fixpoint replacePrice (levels : list Level) (lvl : Level) : option (list Level) :=
  match levels with
  | [] => None
  | e :: r => if lvPrice e =? lvPrice lvl then Some (lvl :: r)
              else cons e <$> replacePrice r lvl
  end.

(** Sets or deletes one level, keeping the slice sorted and capped. *)
Definition applyLevel (levels : list Level) (lvl : Level) (bid : bool) (maxLevels : Z)
    : list Level :=
  if Qty.IsZero (lvQuantity lvl) then removePrice levels (lvPrice lvl)
  else match replacePrice levels lvl with
       | Some levels => levels
       | None =>
           let levels := if bid then insertDescending levels lvl
                         else insertAscending levels lvl in
           if maxLevels <? len levels then take (Z.to_nat maxLevels) levels else levels
       end.

(** ** Construction and reads *)

Definition NewOrderBook (sym : Symbol) (maxLevels window : Z) : OrderBook :=
  let maxLevels := if maxLevels <? 15 then 100 else maxLevels in
  let window :=
    if (window <? 10) || (maxLevels <? window) then
      if maxLevels <? 15 then maxLevels else 15
    else window in
  mkBook sym maxLevels window 0 0 [] [].

Definition Install (b : OrderBook) (epoch updateID : Z) (bids asks : list Level)
    : OrderBook * option error :=
  match bids, asks with
  | [], _ | _, [] => (b, Some ErrEmptyBook)
  | bid :: _, ask :: _ =>
      if 0 <=? Price.Cmp (lvPrice bid) (lvPrice ask) then (b, Some ErrCrossedBook)
      else (mkBook (bkSymbol b) (bkMaxLevels b) (bkWindow b) epoch updateID
              (trimTo bids (bkMaxLevels b)) (trimTo asks (bkMaxLevels b)), None)
  end.

Definition Snapshot (b : OrderBook) (at_ : Time) : OrderBookSnapshot :=
  mkSnapshot (ID (bkSymbol b)) (bkEpoch b) (bkUpdateID b) (bkBids b) (bkAsks b) (tUTC at_).

Definition TopN (b : OrderBook) (n : Z) : list Level * list Level :=
  (copyLevels (bkBids b) n, copyLevels (bkAsks b) n).
Definition BestBid (b : OrderBook) : option Level := head (bkBids b).
Definition BestAsk (b : OrderBook) : option Level := head (bkAsks b).
Definition Spread (b : OrderBook) : option Z :=
  match BestBid b, BestAsk b with
  | Some bid, Some ask => Some (Price.Sub (lvPrice ask) (lvPrice bid))
  | _, _ => None
  end.
Definition Depth (b : OrderBook) : Z * Z := (len (bkBids b), len (bkAsks b)).

Definition windowLocked (b : OrderBook) : list Level * list Level :=
  (copyLevels (bkBids b) (bkWindow b), copyLevels (bkAsks b) (bkWindow b)).

Definition checkOrdering (b : OrderBook) : option error :=
  if negb (descending (bkBids b)) then Some ErrCrossedBook
  else if negb (ascending (bkAsks b)) then Some ErrCrossedBook
  else match bkBids b, bkAsks b with
       | bid :: _, ask :: _ =>
           if 0 <=? Price.Cmp (lvPrice bid) (lvPrice ask) then Some ErrCrossedBook else None
       | _, _ => None
       end.

Definition mutationRange (b : OrderBook) (first last : Z) (at_ : Time) : Mutation :=
  let '(bids, asks) := windowLocked b in
  mkMutation (ID (bkSymbol b)) (bkEpoch b) first last bids asks (tUTC at_) None.
Definition mutation (b : OrderBook) (at_ : Time) : Mutation :=
  mutationRange b (bkUpdateID b) (bkUpdateID b) at_.

(** The mutation of a violated invariant: the other fields keep Go's zero
    values. *)
Definition errMutation (b : OrderBook) (e : error) : Mutation :=
  mkMutation "" (bkEpoch b) (bkUpdateID b) (bkUpdateID b) [] [] zeroTime (Some e).

(** The common tail of [ApplyTrade], [Refresh] and [Recenter]. *)
Definition commit (b : OrderBook) (at_ : Time) : OrderBook * Mutation :=
  match checkOrdering b with
  | Some e => (b, errMutation b e)
  | None => let b := set_update b (u64 (bkUpdateID b + 1)) in (b, mutation b at_)
  end.

(** ** Recentring *)

Definition needsRecenter (b : OrderBook) (mid : Z) : option bool :=
  if mid <=? 0 then Some false else
  let min_depth := Z.quot (bkMaxLevels b * 3) 4 in
  if (len (bkBids b) <? min_depth) || (len (bkAsks b) <? min_depth) then Some true else
  match bkBids b, bkAsks b with
  | bid :: _, ask :: _ =>
      let spread := Price.Sub (lvPrice ask) (lvPrice bid) in
      let tolerance := Z.quot (6 * bkMaxLevels b) 100 in
      let tolerance := if tolerance <? 6 then 6 else tolerance in
      Some ((tolerance <? spread) || (0 <? Price.Cmp (lvPrice bid) mid)
            || (Price.Cmp (lvPrice ask) mid <? 0))
  | _, _ => None
  end.

Definition sizeAt (b : OrderBook) (depth : nat) (bid : bool) : Z :=
  match (if bid then bkBids b else bkAsks b) !! depth with
  | Some l => lvQuantity l
  | None =>
      let base := f64_add (f64_lit 2 100)
                    (f64_mul (f64_of_Z (Z.of_nat depth)) (f64_lit 4 1000)) in
      let scaled := f64_to_int (f64_mul base (f64_of_Z (QtyScale (bkSymbol b)))) in
      if scaled <? 1 then 1 else scaled
  end.

(** The ladder loop of [Recenter], from level [i] on. *)
Fixpoint ladder (b : OrderBook) (n i : nat) (bidPrice askPrice : Z)
    : list Level * list Level :=
  match n with
  | O => ([], [])
  | S n =>
      let step := 1 + Z.quot (Z.of_nat i) 20 in
      let '(bidPrice, askPrice) :=
        if 0 <? Z.of_nat i then (i64 (bidPrice - step), i64 (askPrice + step))
        else (bidPrice, askPrice) in
      let bidPrice := if bidPrice <=? 0 then 1 else bidPrice in
      let '(bids, asks) := ladder b n (S i) bidPrice askPrice in
      (mkLevel bidPrice (sizeAt b i true) :: bids,
       mkLevel askPrice (sizeAt b i false) :: asks)
  end.

Definition Recenter (b : OrderBook) (mid : Z) (at_ : Time) : OrderBook * option Mutation :=
  if mid <=? 0 then (b, None) else
  let half := 1 + Z.rem mid 2 in
  let bestBid := i64 (mid - half) in
  let bestAsk := i64 (mid + half) in
  let bestBid := if bestBid <=? 0 then 1 else bestBid in
  let bestAsk := if bestAsk <=? bestBid then i64 (bestBid + 1) else bestAsk in
  let '(bids, asks) := ladder b (Z.to_nat (bkMaxLevels b)) 0 bestBid bestAsk in
  let '(b, m) := commit (set_sides b bids asks) at_ in
  (b, Some m).

(** ** Provider deltas *)

Definition applyLevels (side : list Level) (lvls : list Level) (bid : bool) (maxLevels : Z)
    : list Level :=
  fold_left (fun side lvl => applyLevel side lvl bid maxLevels) lvls side.

(** The levels are applied before the ordering is checked, and stay applied
    when the check fails. *)
Definition ApplyDelta (b : OrderBook) (epoch first last : Z) (bids asks : list Level)
    (at_ : Time) : OrderBook * res Mutation :=
  if negb (epoch =? bkEpoch b) then (b, Err ErrStaleUpdate)
  else if last <=? bkUpdateID b then (b, Err ErrStaleUpdate)
  else if u64 (bkUpdateID b + 1) <? first then (b, Err ErrBookGap)
  else
    let b := set_sides b (applyLevels (bkBids b) bids true (bkMaxLevels b))
                         (applyLevels (bkAsks b) asks false (bkMaxLevels b)) in
    match checkOrdering b with
    | Some e => (b, Err e)
    | None => let b := set_update b last in (b, Ok (mutationRange b first last at_))
    end.

(** ** Trades and churn *)

Section Random.
Context {G : Type} `{RandSource G}.

Definition replenishQuantity (sym : Symbol) (g : G) : Z * G :=
  let '(f, g) := rFloat64 g in
  let base := f64_add (f64_lit 2 100) (f64_mul f (f64_lit 6 10)) in
  let scaled := f64_to_int (f64_mul base (f64_of_Z (QtyScale sym))) in
  (if scaled <? 1 then 1 else scaled, g).

(** The [consume] closure of [ApplyTrade]: [side[len(side)-1]] panics when the
    consumed level was the last one. *)
Definition consume (sym : Symbol) (side : list Level) (buy : bool) (qty : Z) (g : G)
    : option (list Level * G) :=
  match side with
  | [] => None
  | level :: rest =>
      let remaining := Qty.Sub (lvQuantity level) qty in
      if Qty.IsPositive remaining then
        Some (mkLevel (lvPrice level) remaining :: rest, g)
      else
        lst ← last rest;
        let '(k, g) := IntN 2 g in
        let far := if buy then Price.Add (lvPrice lst) (1 + k)
                   else Price.Sub (lvPrice lst) (1 + k) in
        let far := if far <=? 0 then 1 else far in
        let '(q, g) := replenishQuantity sym g in
        let fresh := mkLevel far q in
        Some (if buy then rest ++ [fresh] else insertDescending rest fresh, g)
  end.

Definition ApplyTrade (b : OrderBook) (t : Trade) (g : G)
    : option (OrderBook * option Mutation * G) :=
  if bool_decide (bkBids b = []) || bool_decide (bkAsks b = []) then Some (b, None, g) else
  '(b, g) ← match trSide t with
    | SideBuy =>
        '(asks, g) ← consume (bkSymbol b) (bkAsks b) true (trQuantity t) g;
        Some (set_sides b (bkBids b) asks, g)
    | _ =>
        '(bids, g) ← consume (bkSymbol b) (bkBids b) false (trQuantity t) g;
        Some (set_sides b bids (bkAsks b), g)
    end;
  let '(b, m) := commit b (trTimestamp t) in
  Some (b, Some m, g).

(** [side[idx]] panics on a negative index; too large an index is clamped. *)
Definition mutateRandomLevel (side : list Level) (g : G) : option (list Level * G) :=
  if bool_decide (side = []) then Some (side, g) else
  let '(f1, g) := rFloat64 g in
  let '(f2, g) := rFloat64 g in
  let idx := f64_to_int (f64_mul (f64_mul (f64_of_Z (len side)) f1) f2) in
  let idx := if len side <=? idx then len side - 1 else idx in
  if idx <? 0 then None else
  let idx := Z.to_nat idx in
  level ← side !! idx;
  let '(f3, g) := rFloat64 g in
  if f64_ltb f3 (f64_lit 8 100) && (20 <? len side) then
    Some (take idx side ++ drop (S idx) side, g)
  else
    let '(f4, g) := rFloat64 g in
    let factor := f64_add (f64_lit 1 2) (f64_mul f4 (f64_lit 3 2)) in
    let q := f64_to_int (f64_mul (f64_of_Z (lvQuantity level)) factor) in
    let q := if q <? 1 then 1 else q in
    Some (<[idx := mkLevel (lvPrice level) q]> side, g).

Fixpoint mutate_many (n : nat) (side : list Level) (g : G) : option (list Level * G) :=
  match n with
  | O => Some (side, g)
  | S n => '(side, g) ← mutateRandomLevel side g; mutate_many n side g
  end.

Fixpoint replenish_bids (sym : Symbol) (n : nat) (side : list Level) (g : G)
    : option (list Level * G) :=
  match n with
  | O => Some (side, g)
  | S n =>
      lst ← last side;
      let '(k, g) := IntN 2 g in
      let price := Price.Sub (lvPrice lst) (1 + k) in
      if price <=? 0 then Some (side, g) else
      let '(q, g) := replenishQuantity sym g in
      replenish_bids sym n (side ++ [mkLevel price q]) g
  end.

Fixpoint replenish_asks (sym : Symbol) (n : nat) (side : list Level) (g : G)
    : option (list Level * G) :=
  match n with
  | O => Some (side, g)
  | S n =>
      lst ← last side;
      let '(k, g) := IntN 2 g in
      let price := Price.Add (lvPrice lst) (1 + k) in
      let '(q, g) := replenishQuantity sym g in
      replenish_asks sym n (side ++ [mkLevel price q]) g
  end.

(** Each loop of [replenish] adds one level per round until the depth is
    [maxLevels], so the missing depth is the number of rounds. *)
Definition replenish (b : OrderBook) (g : G) : option (OrderBook * G) :=
  let missing side := Z.to_nat (bkMaxLevels b - len side) in
  '(bids, g) ← replenish_bids (bkSymbol b) (missing (bkBids b)) (bkBids b) g;
  '(asks, g) ← replenish_asks (bkSymbol b) (missing (bkAsks b)) (bkAsks b) g;
  Some (set_sides b bids asks, g).

Definition Refresh (b : OrderBook) (g : G) (mid : Z) (at_ : Time)
    : option (OrderBook * option Mutation * G) :=
  let recenter := let '(b, m) := Recenter b mid at_ in Some (b, m, g) in
  if bool_decide (bkBids b = []) || bool_decide (bkAsks b = []) then recenter else
  need ← needsRecenter b mid;
  if need : bool then recenter else
  let '(touched, g) := IntN 3 g in
  '(bids, g) ← mutate_many (Z.to_nat (1 + touched)) (bkBids b) g;
  let '(touched, g) := IntN 3 g in
  '(asks, g) ← mutate_many (Z.to_nat (1 + touched)) (bkAsks b) g;
  '(b, g) ← replenish (set_sides b bids asks) g;
  let '(b, m) := commit b at_ in
  Some (b, Some m, g).
End Random.
