(* ===== verification/BookFacts.v ===== *)
(** * Order-book invariants

    Both sides of a book are handled at once: [better bid p q] says that [p] is
    nearer to the touch than [q], and a side is [ordered] when its prices are
    strictly sorted by [better].  [book_ordered] is what [checkOrdering] tests,
    [book_wf] the invariant the operations of [Book] preserve. *)

From S2P Require Import Prelude Money GoTime Domain Float64 Rand Book.

Definition prices (l : list Level) : list Z := lvPrice <$> l.
Definition better (bid : bool) (p q : Z) : Prop := if bid then q < p else p < q.
Definition ordered (bid : bool) (l : list Level) : Prop :=
  StronglySorted (better bid) (prices l).
Definition uncrossed (bids asks : list Level) : Prop :=
  forall x y, x ∈ prices bids -> y ∈ prices asks -> x < y.

Record book_ordered (b : OrderBook) : Prop := {
  bo_bids : ordered true (bkBids b);
  bo_asks : ordered false (bkAsks b);
  bo_uncrossed : uncrossed (bkBids b) (bkAsks b) }.

#[global] Instance better_trans bid : Transitive (better bid).
Proof. intros x y z. destruct bid; simpl; lia. Qed.

#[global] Instance better_dec bid p q : Decision (better bid p q).
Proof. destruct bid; simpl; apply _. Defined.

Lemma better_irrefl bid p : ~ better bid p p.
Proof. destruct bid; simpl; lia. Qed.

(** ** Ordered sides *)

Lemma ordered_nil bid : ordered bid [].
Proof. constructor. Qed.

Lemma ordered_cons bid x l :
  ordered bid (x :: l) <-> Forall (better bid (lvPrice x)) (prices l) /\ ordered bid l.
Proof.
  unfold ordered. simpl. split; [|intros [? ?]; by constructor].
  intros H. apply StronglySorted_inv in H. tauto.
Qed.

Lemma ordered_app bid l k :
  ordered bid (l ++ k) <->
  (forall x y, x ∈ prices l -> y ∈ prices k -> better bid x y) /\ ordered bid l /\ ordered bid k.
Proof. unfold ordered, prices. by rewrite fmap_app, StronglySorted_app. Qed.

Lemma ordered_take bid n l : ordered bid l -> ordered bid (take n l).
Proof. rewrite <- (take_drop n l) at 1. by intros (_ & ? & _)%ordered_app. Qed.

Lemma ordered_drop bid n l : ordered bid l -> ordered bid (drop n l).
Proof. rewrite <- (take_drop n l) at 1. by intros (_ & _ & ?)%ordered_app. Qed.

Lemma ordered_NoDup bid l : ordered bid l -> NoDup (prices l).
Proof.
  induction l as [|x l IH]; simpl; [constructor|].
  intros [Hx Hl]%ordered_cons. apply NoDup_cons. split; [|auto].
  intros Hin. rewrite Forall_forall in Hx. by apply (better_irrefl bid (lvPrice x)), Hx.
Qed.

Lemma ordered_best bid x l y :
  ordered bid (x :: l) -> y ∈ prices (x :: l) -> y = lvPrice x \/ better bid (lvPrice x) y.
Proof.
  intros [Hx _]%ordered_cons Hy. simpl in Hy. apply elem_of_cons in Hy as [->|Hy]; [auto|].
  rewrite Forall_forall in Hx. auto.
Qed.

Lemma ordered_last bid l lst y :
  ordered bid l -> last l = Some lst -> y ∈ prices l ->
  y = lvPrice lst \/ better bid y (lvPrice lst).
Proof.
  intros Ho Hl Hy. apply last_Some in Hl as [k ->]. apply ordered_app in Ho as (Hk & _ & _).
  unfold prices in Hy. rewrite fmap_app, elem_of_app in Hy. simpl in Hy.
  destruct Hy as [Hy|Hy]; [right; apply Hk; [done|by left]|].
  rewrite list_elem_of_singleton in Hy. auto.
Qed.

Lemma ordered_same_prices bid l k : prices l = prices k -> ordered bid l -> ordered bid k.
Proof. unfold ordered. by intros ->. Qed.

(** The adjacency loop of the code decides [ordered]. *)
Definition adjacent (bid : bool) (l : list Level) : bool :=
  if bid then descending l else ascending l.

Lemma adjacent_cons bid a b l :
  adjacent bid (a :: b :: l) = true <->
  better bid (lvPrice a) (lvPrice b) /\ adjacent bid (b :: l) = true.
Proof.
  unfold adjacent. destruct bid; simpl; rewrite andb_true_iff, negb_true_iff;
    [rewrite Cmp_le|rewrite Cmp_ge]; rewrite Z.leb_gt; done.
Qed.

Lemma adjacent_spec bid l : adjacent bid l = true <-> ordered bid l.
Proof.
  induction l as [|a [|b l] IH]; [|by split; [intros; repeat constructor|destruct bid]|].
  { split; [constructor|by destruct bid]. }
  rewrite adjacent_cons, IH, (ordered_cons bid a). split; [|intros [Hf ?]].
  - intros [Hab Hl]. split; [|done]. apply Forall_forall. intros y Hy.
    destruct (ordered_best _ _ _ _ Hl Hy) as [->|]; [done|by transitivity (lvPrice b)].
  - split; [|done]. rewrite Forall_forall in Hf. apply Hf. by left.
Qed.

Lemma uncrossed_heads bid ask bids asks :
  ordered true (bid :: bids) -> ordered false (ask :: asks) ->
  lvPrice bid < lvPrice ask -> uncrossed (bid :: bids) (ask :: asks).
Proof.
  intros Hb Ha Hlt x y Hx Hy.
  destruct (ordered_best _ _ _ _ Hb Hx) as [->|Hx'], (ordered_best _ _ _ _ Ha Hy) as [->|Hy'];
    simpl in *; lia.
Qed.

(** [checkOrdering] reports no error exactly on ordered, uncrossed books. *)
Lemma checkOrdering_spec b : checkOrdering b = None <-> book_ordered b.
Proof.
  unfold checkOrdering.
  change (descending (bkBids b)) with (adjacent true (bkBids b)).
  change (ascending (bkAsks b)) with (adjacent false (bkAsks b)).
  pose proof (adjacent_spec true (bkBids b)) as HB.
  pose proof (adjacent_spec false (bkAsks b)) as HA.
  destruct (adjacent true (bkBids b)); cbn [negb];
    [|by split; [|intros [Hb _ _]; apply HB in Hb]].
  destruct (adjacent false (bkAsks b)); cbn [negb];
    [|by split; [|intros [_ Ha _]; apply HA in Ha]].
  pose proof (proj1 HB eq_refl) as Hb. pose proof (proj1 HA eq_refl) as Ha. clear HA HB. destruct (bkBids b) as [|bid bids] eqn:Eb, (bkAsks b) as [|ask asks] eqn:Ea;
    try (split; [intros _; split; rewrite ?Eb, ?Ea; [done|done|]; intros x y Hx Hy;
                 first [by inversion Hx | by inversion Hy]|done]).
  rewrite Cmp_ge. destruct (lvPrice ask <=? lvPrice bid) eqn:E; bool_to_prop.
  - split; [done|]. intros [_ _ Hu]. rewrite Eb, Ea in Hu.
    specialize (Hu (lvPrice bid) (lvPrice ask) ltac:(by left) ltac:(by left)). lia.
  - split; [intros _|done]. split; rewrite ?Eb, ?Ea; [done|done|].
    by apply uncrossed_heads.
Qed.

(** ** Insertion, removal, replacement *)

Definition insertLevel (bid : bool) (l : list Level) (x : Level) : list Level :=
  if bid then insertDescending l x else insertAscending l x.

Lemma insertLevel_cons bid e r x :
  insertLevel bid (e :: r) x =
  if decide (better bid (lvPrice x) (lvPrice e)) then x :: e :: r
  else e :: insertLevel bid r x.
Proof.
  unfold insertLevel. destruct bid; simpl; [rewrite Cmp_gt|rewrite Cmp_lt];
    case_decide; split_if; lia || done.
Qed.

Lemma insertLevel_perm bid l x : insertLevel bid l x ≡ₚ x :: l.
Proof.
  induction l as [|e r IH]; [by destruct bid|].
  rewrite insertLevel_cons. case_decide; [done|]. rewrite IH. apply Permutation_swap.
Qed.

Lemma insertLevel_length bid l x : length (insertLevel bid l x) = S (length l).
Proof. by rewrite insertLevel_perm. Qed.

Lemma elem_prices_insert bid l x p :
  p ∈ prices (insertLevel bid l x) <-> p = lvPrice x \/ p ∈ prices l.
Proof. unfold prices. rewrite insertLevel_perm. simpl. by rewrite elem_of_cons. Qed.

Lemma insertLevel_ordered bid l x :
  ordered bid l -> lvPrice x ∉ prices l -> ordered bid (insertLevel bid l x).
Proof.
  induction l as [|e r IH]; intros Ho Hx; [by destruct bid; repeat constructor|].
  rewrite insertLevel_cons. pose proof Ho as [He Hr]%ordered_cons.
  simpl in Hx. apply not_elem_of_cons in Hx as [Hne Hx].
  case_decide as Hb; apply ordered_cons; (split; [|try done]).
  - simpl. constructor; [done|]. eapply Forall_impl; [exact He|].
    intros q Hq. by transitivity (lvPrice e).
  - apply Forall_forall. intros p [->|Hp]%elem_prices_insert.
    + destruct bid; simpl in *; lia.
    + rewrite Forall_forall in He. auto.
  - by apply IH.
Qed.

(** A price worse than every level goes to the far end. *)
Lemma insertLevel_snoc bid l x :
  (forall p, p ∈ prices l -> better bid p (lvPrice x)) -> insertLevel bid l x = l ++ [x].
Proof.
  induction l as [|e r IH]; intros Hx; [by destruct bid|].
  rewrite insertLevel_cons. case_decide as Hb.
  - exfalso. specialize (Hx (lvPrice e) ltac:(by left)).
    destruct bid; simpl in *; lia.
  - simpl. f_equal. apply IH. intros p Hp. apply Hx. by right.
Qed.

Lemma ordered_snoc bid l lst x :
  ordered bid l -> last l = Some lst -> better bid (lvPrice lst) (lvPrice x) ->
  ordered bid (l ++ [x]).
Proof.
  intros Ho Hl Hx. apply ordered_app. split_and!; [|done|repeat constructor].
  intros p q Hp Hq. simpl in Hq. apply list_elem_of_singleton in Hq as ->.
  destruct (ordered_last _ _ _ _ Ho Hl Hp) as [->|Hb]; [done|by transitivity (lvPrice lst)].
Qed.

Lemma removePrice_spec l p :
  exists i, prices (removePrice l p) = take i (prices l) ++ drop (S i) (prices l).
Proof.
  induction l as [|e r [i IH]]; [by exists 0%nat|]. simpl.
  destruct (lvPrice e =? p); [by exists 0%nat|].
  exists (S i). simpl. by rewrite IH.
Qed.

Lemma removePrice_elem l p q : q ∈ prices (removePrice l p) -> q ∈ prices l.
Proof.
  destruct (removePrice_spec l p) as [i ->]. rewrite elem_of_app.
  intros [Hq|Hq].
  - rewrite <- (take_drop i (prices l)), elem_of_app. by left.
  - rewrite <- (take_drop (S i) (prices l)), elem_of_app. by right.
Qed.

Lemma StronglySorted_remove {A} (R : relation A) (l : list A) i :
  StronglySorted R l -> StronglySorted R (take i l ++ drop (S i) l).
Proof.
  revert i. induction l as [|x l IH]; intros i Hs; [by destruct i|].
  apply StronglySorted_inv in Hs as [Hl Hx]. destruct i as [|i]; simpl; [by rewrite drop_0|].
  constructor; [by apply IH|]. apply Forall_app. split; [by apply Forall_take|by apply Forall_drop].
Qed.

Lemma removePrice_ordered bid l p : ordered bid l -> ordered bid (removePrice l p).
Proof.
  unfold ordered. destruct (removePrice_spec l p) as [i ->]. apply StronglySorted_remove.
Qed.

Lemma replacePrice_spec l x :
  match replacePrice l x with
  | Some l' => prices l' = prices l /\ lvPrice x ∈ prices l
  | None => lvPrice x ∉ prices l
  end.
Proof.
  induction l as [|e r IH]; simpl; [apply not_elem_of_nil|].
  destruct (lvPrice e =? lvPrice x) eqn:E; bool_to_prop.
  - simpl. rewrite E. split; [done|by left].
  - destruct (replacePrice r x); simpl in *; rewrite elem_of_cons.
    + destruct IH as [-> ?]. auto.
    + intros [?|?]; [by apply E|done].
Qed.

(** Every level update keeps a side ordered: only the touch can be crossed. *)
Lemma applyLevel_ordered bid l x n : ordered bid l -> ordered bid (applyLevel l x bid n).
Proof.
  intros Ho. unfold applyLevel. destruct (Qty.IsZero _); [by apply removePrice_ordered|].
  pose proof (replacePrice_spec l x) as Hr. destruct (replacePrice l x).
  - destruct Hr as [Hr _]. by eapply ordered_same_prices.
  - change (if bid then insertDescending l x else insertAscending l x)
      with (insertLevel bid l x).
    pose proof (insertLevel_ordered bid l x Ho Hr).
    destruct (n <? len (insertLevel bid l x)); [by apply ordered_take|done].
Qed.

Lemma applyLevels_ordered bid lvls l n : ordered bid l -> ordered bid (applyLevels l lvls bid n).
Proof.
  unfold applyLevels. revert l. induction lvls as [|x lvls IH]; intros l Ho; [done|].
  apply IH. by apply applyLevel_ordered.
Qed.
#[export] Hint Resolve applyLevels_ordered applyLevel_ordered ordered_take ordered_drop
  removePrice_ordered ordered_nil : pulse.

(** ** A side as a finite map

    The abstract book of a side maps a price to the quantity resting there. *)

Definition side_map (l : list Level) : gmap Z Z :=
  list_to_map ((fun x => (lvPrice x, lvQuantity x)) <$> l).
Definition update_map (m : gmap Z Z) (x : Level) : gmap Z Z :=
  if lvQuantity x =? 0 then delete (lvPrice x) m else <[lvPrice x := lvQuantity x]> m.

Lemma side_map_fst l : ((fun x => (lvPrice x, lvQuantity x)) <$> l).*1 = prices l.
Proof. unfold prices. rewrite <- list_fmap_compose. by apply list_fmap_ext. Qed.

Lemma side_map_perm l k : NoDup (prices l) -> l ≡ₚ k -> side_map l = side_map k.
Proof.
  intros Hn Hp. apply list_to_map_proper; [by rewrite side_map_fst|by rewrite Hp].
Qed.

Lemma side_map_None l p : p ∉ prices l -> side_map l !! p = None.
Proof. intros Hp. apply not_elem_of_list_to_map_1. by rewrite side_map_fst. Qed.

Lemma side_map_cons x l : side_map (x :: l) = <[lvPrice x := lvQuantity x]> (side_map l).
Proof. done. Qed.

Lemma side_map_remove l p : NoDup (prices l) -> side_map (removePrice l p) = delete p (side_map l).
Proof.
  induction l as [|e r IH]; intros Hn; [symmetry; apply delete_empty|].
  apply NoDup_cons in Hn as [He Hn]. cbn [removePrice].
  destruct (lvPrice e =? p) eqn:E; bool_to_prop; rewrite !side_map_cons.
  - subst p. rewrite delete_insert_eq, delete_id; [done|]. by apply side_map_None.
  - rewrite IH by done. by rewrite delete_insert_ne.
Qed.

Lemma side_map_replace l x l' :
  replacePrice l x = Some l' -> side_map l' = <[lvPrice x := lvQuantity x]> (side_map l).
Proof.
  revert l'. induction l as [|e r IH]; intros l'; cbn [replacePrice]; [done|].
  destruct (lvPrice e =? lvPrice x) eqn:E; bool_to_prop.
  - intros [= <-]. rewrite !side_map_cons. by rewrite E, insert_insert_eq.
  - destruct (replacePrice r x) eqn:Hr; simpl; intros [= <-]. rewrite !side_map_cons.
    rewrite (IH _ eq_refl). by rewrite insert_insert_ne by done.
Qed.

Lemma applyLevel_map bid l x n :
  ordered bid l -> len l < n ->
  side_map (applyLevel l x bid n) = update_map (side_map l) x.
Proof.
  intros Ho Hn. pose proof (ordered_NoDup _ _ Ho) as Hd.
  unfold applyLevel, update_map, Qty.IsZero. destruct (lvQuantity x =? 0).
  { by apply side_map_remove. }
  pose proof (replacePrice_spec l x) as Hr. destruct (replacePrice l x) eqn:E.
  { by apply side_map_replace. }
  change (if bid then insertDescending l x else insertAscending l x)
    with (insertLevel bid l x).
  unfold len in *. rewrite insertLevel_length.
  rewrite (proj2 (Z.ltb_ge _ _)) by lia.
  change (<[lvPrice x := lvQuantity x]> (side_map l)) with (side_map (x :: l)).
  apply side_map_perm; [|apply insertLevel_perm].
  unfold prices. rewrite insertLevel_perm. simpl. by apply NoDup_cons.
Qed.

Lemma removePrice_length l p : (length (removePrice l p) <= length l)%nat.
Proof. induction l as [|e r IH]; simpl; [done|]. destruct (_ =? p); simpl; lia. Qed.

Lemma replacePrice_length l x l' : replacePrice l x = Some l' -> length l' = length l.
Proof.
  revert l'. induction l as [|e r IH]; simpl; intros l'; [done|].
  destruct (_ =? _); [by intros [= <-]|].
  destruct (replacePrice r x); simpl; intros [= <-]. simpl. by rewrite (IH _ eq_refl).
Qed.

Lemma applyLevel_length l x bid n : len (applyLevel l x bid n) <= len l + 1.
Proof.
  unfold applyLevel, len. destruct (Qty.IsZero _).
  { pose proof (removePrice_length l (lvPrice x)). lia. }
  destruct (replacePrice l x) eqn:E; [apply replacePrice_length in E; lia|].
  change (if bid then insertDescending l x else insertAscending l x)
    with (insertLevel bid l x).
  pose proof (insertLevel_length bid l x). destruct (_ <? _); rewrite ?length_take; lia.
Qed.

(** No side grows beyond the configured depth. *)
Lemma applyLevel_cap l x bid n : 0 <= n -> len l <= n -> len (applyLevel l x bid n) <= n.
Proof.
  unfold applyLevel, len. intros Hn Hl. destruct (Qty.IsZero _).
  { pose proof (removePrice_length l (lvPrice x)). lia. }
  destruct (replacePrice l x) eqn:E; [apply replacePrice_length in E; lia|].
  change (if bid then insertDescending l x else insertAscending l x)
    with (insertLevel bid l x).
  pose proof (insertLevel_length bid l x).
  destruct (n <? _) eqn:E'; bool_to_prop; rewrite ?length_take; lia.
Qed.

Lemma applyLevels_cap lvls l bid n : 0 <= n -> len l <= n -> len (applyLevels l lvls bid n) <= n.
Proof.
  unfold applyLevels. revert l. induction lvls as [|x lvls IH]; intros l Hn Hl; [done|].
  apply IH; [done|]. by apply applyLevel_cap.
Qed.

Lemma applyLevels_map bid lvls l n :
  ordered bid l -> len l + len lvls <= n ->
  side_map (applyLevels l lvls bid n) = foldl update_map (side_map l) lvls.
Proof.
  unfold applyLevels, len. revert l.
  induction lvls as [|x lvls IH]; intros l Ho Hn; [done|]. simpl in *.
  pose proof (applyLevel_length l x bid n). unfold len in *.
  rewrite IH; [|auto with pulse|lia].
  by rewrite applyLevel_map by (unfold len; done || lia).
Qed.

Lemma side_map_elem bid l x :
  ordered bid l -> x ∈ l <-> side_map l !! lvPrice x = Some (lvQuantity x).
Proof.
  intros Ho. unfold side_map. rewrite <- elem_of_list_to_map.
  - rewrite list_elem_of_fmap. destruct x as [p q]. split; [by exists (mkLevel p q)|].
    intros ([p' q'] & [= -> ->] & ?). done.
  - rewrite side_map_fst. by apply (ordered_NoDup bid).
Qed.

(** Two ordered sides with the same map are equal: the map determines the
    list. *)
Lemma ordered_map_eq bid l k :
  ordered bid l -> ordered bid k -> side_map l = side_map k -> l = k.
Proof.
  intros Hl Hk Hm.
  assert (Hp : l ≡ₚ k).
  { apply NoDup_Permutation; [apply (NoDup_fmap_1 lvPrice); by apply (ordered_NoDup bid) ..|].
    intros x. rewrite !(side_map_elem bid) by done. by rewrite Hm. }
  clear Hm. revert k Hk Hp. induction l as [|x l IH]; intros k Hk Hp.
  - by apply Permutation_nil in Hp as ->.
  - destruct k as [|y k]; [by apply Permutation_nil_r in Hp|].
    assert (x = y) as ->.
    { pose proof Hl as [Hx _]%ordered_cons. pose proof Hk as [Hy _]%ordered_cons.
      rewrite Forall_forall in Hx, Hy.
      assert (x ∈ y :: k) as [->|Hin]%elem_of_cons by (rewrite <- Hp; by left); [done|].
      assert (y ∈ x :: l) as [->|Hin']%elem_of_cons by (rewrite Hp; by left); [done|].
      assert (better bid (lvPrice x) (lvPrice y)) by (by apply Hx, list_elem_of_fmap_2).
      assert (better bid (lvPrice y) (lvPrice x)) by (by apply Hy, list_elem_of_fmap_2).
      destruct bid; simpl in *; lia. }
    f_equal. apply IH; [by apply ordered_cons in Hl as [_ ?]|by apply ordered_cons in Hk as [_ ?]|].
    by apply Permutation_cons_inv in Hp.
Qed.

Lemma elem_dom_side_map p l : p ∈ dom (side_map l) <-> p ∈ prices l.
Proof. unfold side_map. by rewrite dom_list_to_map_L, elem_of_list_to_set, side_map_fst. Qed.

(** On sorted sides the only failure is a crossed touch. *)
Lemma checkOrdering_err b e :
  checkOrdering b = Some e -> ordered true (bkBids b) -> ordered false (bkAsks b) ->
  e = ErrCrossedBook /\ exists p q, p ∈ prices (bkBids b) /\ q ∈ prices (bkAsks b) /\ q <= p.
Proof.
  intros He Hb%(adjacent_spec true) Ha%(adjacent_spec false). unfold adjacent in *.
  unfold checkOrdering in He. rewrite Hb, Ha in He. cbn [negb] in He.
  destruct (bkBids b) as [|bid bids], (bkAsks b) as [|ask asks]; try done.
  rewrite Cmp_ge in He. destruct (_ <=? _) eqn:E; [|done]. bool_to_prop.
  injection He as <-. split; [done|].
  exists (lvPrice bid), (lvPrice ask). split_and!; [by left|by left|done].
Qed.
