(* ===== verification/BookSpec.v ===== *)
(** * Correctness of the order book

    The theorems about [Book]: provider deltas refine updates of a price map
    ([ApplyDelta_refines]), a trade consumes the touch and keeps the book
    well formed ([ApplyTrade_spec]), recentring restores the configured ladder
    ([Recenter_restores]), and churn never panics nor breaks the book
    ([Refresh_ok]). *)

From S2P Require Import Prelude Money GoTime Domain Float64 Rand Book BookFacts.

Lemma copyLevels_take l n : 0 < n -> copyLevels l n = take (Z.to_nat n) l.
Proof.
  intros Hn. unfold copyLevels, len. rewrite (proj2 (Z.leb_gt n 0)) by lia. simpl.
  split_if; [|done]. rewrite Nat2Z.id, firstn_all. symmetry. apply take_ge. lia.
Qed.

(** The published window of a book: the best levels of each side. *)
Definition is_window (b : OrderBook) (m : Mutation) : Prop :=
  muSymbol m = ID (bkSymbol b) /\ muEpoch m = bkEpoch b /\ muLastUpdate m = bkUpdateID b /\
  muErr m = None /\
  muBids m = take (Z.to_nat (bkWindow b)) (bkBids b) /\
  muAsks m = take (Z.to_nat (bkWindow b)) (bkAsks b).

Lemma mutationRange_window b first at_ :
  0 < bkWindow b -> is_window b (mutationRange b first (bkUpdateID b) at_).
Proof. intros Hw. repeat split; simpl; by apply copyLevels_take. Qed.

Lemma book_ordered_set_update b u : book_ordered (set_update b u) <-> book_ordered b.
Proof. split; intros []; by split. Qed.

(** The tail shared by trades, churn and recentring succeeds on an ordered
    book. *)
Lemma commit_ok b at_ :
  book_ordered b -> 0 < bkWindow b ->
  exists m, commit b at_ = (set_update b (u64 (bkUpdateID b + 1)), m) /\
    is_window (set_update b (u64 (bkUpdateID b + 1))) m.
Proof.
  intros Ho Hw. unfold commit. rewrite (proj2 (checkOrdering_spec b)) by done.
  eexists. split; [done|]. by apply (mutationRange_window (set_update b _)).
Qed.

(** ** Provider deltas *)


(** A small book for the witnesses. *)
Definition demo_bids : list Level := [mkLevel 100 5; mkLevel 99 7; mkLevel 98 2].
Definition demo_asks : list Level := [mkLevel 102 4; mkLevel 103 6; mkLevel 105 1].
Definition demo_book : OrderBook := mkBook BTCUSDT 15 10 0 7 demo_bids demo_asks.

Lemma demo_book_ordered : book_ordered demo_book.
Proof. by apply checkOrdering_spec. Qed.


(** A delta that crosses the touch is refused with its levels already in the
    book. *)
Example ApplyDelta_crossed_stays :
  let '(b', r) := ApplyDelta demo_book 0 8 9 [mkLevel 102 3] [] zeroTime in
  r = Err ErrCrossedBook /\ bkUpdateID b' = 7 /\ head (bkBids b') = Some (mkLevel 102 3).
Proof. by vm_compute. Qed.

(** ** Trades *)

Definition positive_qty (l : list Level) : Prop := Forall (fun x => 0 < lvQuantity x <= MaxInt64) l.

Section Random.
Context {G : Type} `{RandLaws G}.

Lemma replenishQuantity_pos sym (g : G) : 0 < fst (replenishQuantity sym g) <= MaxInt64.
Proof.
  unfold replenishQuantity. destruct (rFloat64 g) as [f g'].
  pose proof (f64_to_int_range (f64_mul (f64_add (f64_lit 2 100) (f64_mul f (f64_lit 6 10)))
    (f64_of_Z (QtyScale sym)))) as Hr. unfold in_i64 in Hr. cbn [fst]. split_if; lia.
Qed.

Lemma IntN_2 (g : G) : fst (IntN 2 g) = 0 \/ fst (IntN 2 g) = 1.
Proof. pose proof (IntN_range 2 g ltac:(lia)). lia. Qed.

(** What a trade does to the side it hits: the touch shrinks, or it is
    exhausted and a fresh level joins the far end. *)
Definition consumed (bid : bool) (side side' : list Level) (qty : Z) : Prop :=
  match side with
  | [] => False
  | x :: rest =>
      if qty <? lvQuantity x then side' = mkLevel (lvPrice x) (lvQuantity x - qty) :: rest
      else exists fresh, side' = rest ++ [fresh] /\ 0 < lvQuantity fresh <= MaxInt64 /\
             (forall p, p ∈ prices rest -> better bid p (lvPrice fresh)) /\
             0 < lvPrice fresh
  end.

Lemma consume_spec sym side bid qty (g : G) :
  ordered bid side -> (2 <= length side)%nat -> positive_qty side -> 0 < qty <= MaxInt64 ->
  Forall (fun x => if bid then 3 <= lvPrice x <= MaxInt64
                   else 0 < lvPrice x <= MaxInt64 - 2) side ->
  exists side' g', consume sym side (negb bid) qty g = Some (side', g') /\
    consumed bid side side' qty.
Proof.
  intros Ho Hlen Hq Hqty Hp. destruct side as [|x rest]; [simpl in Hlen; lia|].
  unfold consume, consumed.
  inversion Hq as [|? ? Hx Hrest]; subst. inversion Hp as [|? ? Hpx Hprest]; subst.
  unfold Qty.Sub, Qty.IsPositive. no_wrap.
  destruct (qty <? lvQuantity x) eqn:Ex; bool_to_prop.
  { rewrite (proj2 (Z.ltb_lt _ _)) by lia. by eauto. }
  rewrite (proj2 (Z.ltb_ge _ _)) by lia.
  destruct (last rest) as [lst|] eqn:El;
    [|apply last_None in El as ->; simpl in Hlen; lia]. cbn [mbind option_bind].
  apply ordered_cons in Ho as [_ Ho].
  assert (Hlst : lst ∈ rest) by (apply last_Some in El as [? ->]; apply elem_of_app; right; by left).
  rewrite Forall_forall in Hprest. specialize (Hprest _ Hlst).
  pose proof (IntN_2 g) as Hk. destruct (IntN 2 g) as [k g1]. cbn [fst] in Hk.
  pose proof (replenishQuantity_pos sym g1) as Hfresh.
  destruct (replenishQuantity sym g1) as [q g2]. cbn [fst] in Hfresh.
  set (far := if negb bid then Price.Add (lvPrice lst) (1 + k) else Price.Sub (lvPrice lst) (1 + k)).
  assert (Hfar : far = if bid then lvPrice lst - (1 + k) else lvPrice lst + (1 + k)).
  { unfold far, Price.Add, Price.Sub. destruct bid; cbn [negb]; no_wrap; done. }
  rewrite (proj2 (Z.leb_gt far 0)) by (rewrite Hfar; destruct bid; lia).
  assert (Hbet : forall p, p ∈ prices rest -> better bid p far).
  { intros p Hin. rewrite Hfar.
    destruct (ordered_last bid rest lst p Ho El Hin) as [->|Hb]; destruct bid; simpl in *; lia. }
  exists (rest ++ [mkLevel far q]), g2. split.
  - destruct bid; [|done]. cbn [negb]. do 2 f_equal. by apply (insertLevel_snoc true).
  - exists (mkLevel far q). cbn [lvPrice lvQuantity]. split; [done|]. split; [done|].
    split; [done|]. rewrite Hfar. destruct bid; lia.
Qed.

Lemma consumed_ordered bid side side' qty :
  ordered bid side -> consumed bid side side' qty -> ordered bid side'.
Proof.
  destruct side as [|x rest]; [done|]. intros Ho. unfold consumed.
  destruct (_ <? _); [by intros ->|].
  intros (f & -> & _ & Hf & _). apply ordered_cons in Ho as [_ Ho].
  apply ordered_app. split_and!; [|done|repeat constructor].
  intros p q Hp Hq. simpl in Hq. apply list_elem_of_singleton in Hq as ->. auto.
Qed.

Lemma consumed_length bid side side' qty :
  consumed bid side side' qty -> length side' = length side.
Proof.
  destruct side as [|x rest]; [done|]. unfold consumed. destruct (_ <? _); [by intros ->|].
  intros (f & -> & _). rewrite length_app. simpl. lia.
Qed.

Lemma consumed_positive bid side side' qty :
  0 < qty <= MaxInt64 -> positive_qty side -> consumed bid side side' qty -> positive_qty side'.
Proof.
  unfold positive_qty. destruct side as [|x rest]; [done|]. intros Hq Hp. unfold consumed.
  inversion Hp; subst. destruct (_ <? _) eqn:E; bool_to_prop.
  - intros ->. constructor; [simpl; lia|done].
  - intros (f & -> & Hf & _). apply Forall_app. split; [done|]. by constructor.
Qed.

(** Prices after a trade are no nearer to the other side than before. *)
Lemma consumed_not_nearer bid side side' qty p :
  (2 <= length side)%nat -> consumed bid side side' qty -> p ∈ prices side' ->
  exists q, q ∈ prices side /\ (p = q \/ better bid q p).
Proof.
  destruct side as [|x [|y rest]]; simpl length; [lia|lia|]. intros _. unfold consumed.
  destruct (_ <? _); [intros -> Hp; by eauto|].
  intros (f & -> & _ & Hf & _) Hp. unfold prices in Hp. rewrite fmap_app, elem_of_app in Hp.
  destruct Hp as [Hp|Hp]; [exists p; split; [by right|by left]|].
  simpl in Hp. apply list_elem_of_singleton in Hp as ->.
  exists (lvPrice y). split; [by right; left|right]. apply Hf. by left.
Qed.

(** The conditions under which the synthetic book runs: sorted sides at least
    two levels deep, positive sizes, prices clear of both ends of the range. *)
Record book_wf (b : OrderBook) : Prop := {
  wf_ordered : book_ordered b;
  wf_window : 0 < bkWindow b;
  wf_bid_depth : (2 <= length (bkBids b))%nat;
  wf_ask_depth : (2 <= length (bkAsks b))%nat;
  wf_bid_qty : positive_qty (bkBids b);
  wf_ask_qty : positive_qty (bkAsks b);
  wf_bid_price : Forall (fun x => 3 <= lvPrice x <= MaxInt64) (bkBids b);
  wf_ask_price : Forall (fun x => 0 < lvPrice x <= MaxInt64 - 2) (bkAsks b) }.

(** The sides of a book before and after a trade. *)
Definition trade_effect (b : OrderBook) (t : Trade) (bids asks : list Level) : Prop :=
  if decide (trSide t = SideBuy)
  then bids = bkBids b /\ consumed false (bkAsks b) asks (trQuantity t)
  else asks = bkAsks b /\ consumed true (bkBids b) bids (trQuantity t).

Lemma ApplyTrade_sides b t (g : G) :
  book_wf b -> 0 < trQuantity t <= MaxInt64 ->
  exists bids asks g', trade_effect b t bids asks /\
    ApplyTrade b t g =
      let '(b', m) := commit (set_sides b bids asks) (trTimestamp t) in Some (b', Some m, g').
Proof.
  intros [[Hob Hoa _] _ Hdb Hda Hqb Hqa Hpb Hpa] Hq. unfold ApplyTrade, trade_effect.
  rewrite !bool_decide_eq_false_2 by (intros E; rewrite E in *; simpl in *; lia). cbn [orb].
  destruct (consume_spec (bkSymbol b) (bkAsks b) false _ g Hoa Hda Hqa Hq Hpa)
    as (asks & ga & Ea & Ca).
  destruct (consume_spec (bkSymbol b) (bkBids b) true _ g Hob Hdb Hqb Hq Hpb)
    as (bids & gb & Eb & Cb).
  cbn [negb] in Ea, Eb.
  destruct (trSide t); case_decide as Hd; try done; rewrite ?Ea, ?Eb; cbn [mbind option_bind]; eauto 10.
Qed.

Lemma trade_effect_ok b t bids asks :
  book_wf b -> 0 < trQuantity t <= MaxInt64 -> trade_effect b t bids asks ->
  book_ordered (set_sides b bids asks) /\ positive_qty bids /\ positive_qty asks /\
  length bids = length (bkBids b) /\ length asks = length (bkAsks b).
Proof.
  intros [[Hob Hoa Hu] _ Hdb Hda Hqb Hqa _ _] Hq. unfold trade_effect.
  case_decide; intros [-> C].
  - split; [|split_and!; [done|exact (consumed_positive false _ _ _ Hq Hqa C)|done|
      exact (consumed_length false _ _ _ C)]].
    split; simpl; [done|by apply (consumed_ordered false _ _ _ Hoa C)|]. intros x y Hx Hy.
    destruct (consumed_not_nearer _ _ _ _ _ Hda C Hy) as (q & Hqin & Hc).
    specialize (Hu x q Hx Hqin). simpl in Hc. lia.
  - split; [|split_and!; [exact (consumed_positive true _ _ _ Hq Hqb C)|done|
      exact (consumed_length true _ _ _ C)|done]].
    split; simpl; [by apply (consumed_ordered true _ _ _ Hob C)|done|]. intros x y Hx Hy.
    destruct (consumed_not_nearer _ _ _ _ _ Hdb C Hx) as (q & Hqin & Hc).
    specialize (Hu q y Hqin Hy). simpl in Hc. lia.
Qed.

Lemma ApplyTrade_core b t (g : G) :
  book_wf b -> 0 < trQuantity t <= MaxInt64 ->
  exists b' m g', ApplyTrade b t g = Some (b', Some m, g') /\
    bkUpdateID b' = u64 (bkUpdateID b + 1) /\ is_window b' m /\
    trade_effect b t (bkBids b') (bkAsks b') /\
    book_ordered b' /\ positive_qty (bkBids b') /\ positive_qty (bkAsks b') /\
    Depth b' = Depth b.
Proof.
  intros Hwf Hq. destruct (ApplyTrade_sides b t g Hwf Hq) as (bids & asks & g' & He & ->).
  destruct (trade_effect_ok _ _ _ _ Hwf Hq He) as (Ho & Pb & Pa & Lb & La).
  destruct (commit_ok (set_sides b bids asks) (trTimestamp t) Ho (wf_window b Hwf))
    as (m & -> & Hm).
  do 3 eexists. split; [done|]. split; [done|]. split; [exact Hm|]. split; [done|].
  split; [by apply book_ordered_set_update|]. split; [done|]. split; [done|].
  unfold Depth, len. simpl. by rewrite Lb, La.
Qed.

(** C9: A trade on a well-formed book never panics and never breaks the book.
    It touches only the side the aggressor hits, whose best level either loses
    the traded quantity or, when exhausted, leaves the book while a fresh level
    with a positive size joins the far end; the depth of both sides is kept,
    the book stays strictly sorted and uncrossed, the update id grows by one
    and the published mutation is the window of the new book. *)
Theorem ApplyTrade_spec b t (g : G) :
  book_wf b -> 0 < trQuantity t <= MaxInt64 ->
  exists b' m g', ApplyTrade b t g = Some (b', Some m, g') /\
    bkUpdateID b' = u64 (bkUpdateID b + 1) /\ is_window b' m /\
    trade_effect b t (bkBids b') (bkAsks b') /\
    book_ordered b' /\ positive_qty (bkBids b') /\ positive_qty (bkAsks b') /\
    Depth b' = Depth b.
Proof. apply ApplyTrade_core. Qed.

Lemma demo_book_wf : book_wf demo_book.
Proof.
  split; [apply demo_book_ordered|done|simpl; lia|simpl; lia|repeat constructor; done..].
Qed.
End Random.

Example ApplyTrade_spec_witness :
  let t := mkTrade 1 "BTCUSDT" zeroTime 102 4 SideBuy in
  exists b' m g', ApplyTrade demo_book t (NewPCG 1 2) = Some (b', Some m, g') /\
    head (bkAsks b') = Some (mkLevel 103 6) /\ length (bkAsks b') = 3%nat.
Proof.
  destruct (ApplyTrade_spec demo_book (mkTrade 1 "BTCUSDT" zeroTime 102 4 SideBuy) (NewPCG 1 2)
    demo_book_wf ltac:(done)) as (b' & m & g' & Hrun & _ & _ & (_ & fresh & Hasks & _) & _).
  exists b', m, g'. split; [exact Hrun|]. rewrite Hasks. split; reflexivity.
Defined.

(** The index [side[len(side)-1]] of [consume] is out of range when the
    exhausted level was the only one of its side: provider deltas can leave a
    side with one level, and the next trade against it panics. *)
Lemma ApplyTrade_last_level_panics {G} `{RandSource G} b t (g : G) x :
  bkBids b <> [] -> bkAsks b = [x] -> trSide t = SideBuy ->
  in_i64 (lvQuantity x) -> in_i64 (lvQuantity x - trQuantity t) ->
  lvQuantity x <= trQuantity t -> ApplyTrade b t g = None.
Proof.
  intros Hb Ha Hs Hx Hd Hle. unfold ApplyTrade. rewrite Ha, Hs.
  rewrite !bool_decide_eq_false_2 by done. cbn [orb].
  unfold consume, Qty.Sub, Qty.IsPositive. no_wrap.
  by rewrite (proj2 (Z.ltb_ge _ _)) by lia.
Qed.

(** ** Recentring *)

Lemma i64_pos_sub p s : 0 <= p <= MaxInt64 -> 0 <= s <= MaxInt64 -> i64 (p - s) = p - s.
Proof. intros. apply i64_small. unfold in_i64. lia. Qed.

Definition ladder_step (i : nat) : Z := if 0 <? Z.of_nat i then 1 + Z.quot (Z.of_nat i) 20 else 0.

Lemma ladder_step_bound i N : (i < N)%nat -> 0 <= ladder_step i <= 1 + Z.of_nat N / 20.
Proof.
  intros Hi. unfold ladder_step. rewrite Z.quot_div_nonneg by lia.
  pose proof (Z.div_pos (Z.of_nat N) 20). pose proof (Z.div_pos (Z.of_nat i) 20).
  pose proof (Z.div_le_mono (Z.of_nat i) (Z.of_nat N) 20). split_if; lia.
Qed.

Lemma ladder_cons b n i bp ap :
  0 <= bp <= MaxInt64 -> 0 < ap -> ap + ladder_step i <= MaxInt64 -> ladder_step i < bp ->
  ladder b (S n) i bp ap =
    let bp' := bp - ladder_step i in let ap' := ap + ladder_step i in
    let '(bids, asks) := ladder b n (S i) bp' ap' in
    (mkLevel bp' (sizeAt b i true) :: bids, mkLevel ap' (sizeAt b i false) :: asks).
Proof.
  unfold ladder_step. intros Hb Ha Hmax Hlt. cbn [ladder].
  assert (0 <= Z.quot (Z.of_nat i) 20) by (apply Z.quot_pos; lia).
  destruct (0 <? Z.of_nat i) eqn:E; bool_to_prop.
  - rewrite i64_pos_sub by lia. rewrite (i64_small (ap + _)) by (unfold in_i64; lia).
    rewrite (proj2 (Z.leb_gt _ 0)) by lia. done.
  - rewrite (proj2 (Z.leb_gt _ 0)) by lia. by rewrite Z.sub_0_r, Z.add_0_r.
Qed.

(** Away from the ends of the price range the ladder is a strictly sorted,
    full-depth book around its two starting prices. *)
Lemma ladder_spec b N n i bp ap (c := 1 + Z.of_nat N / 20) :
  (i + n <= N)%nat -> Z.of_nat n * c < bp <= MaxInt64 -> 0 < ap ->
  ap + Z.of_nat n * c <= MaxInt64 ->
  let '(bids, asks) := ladder b n i bp ap in
  length bids = n /\ length asks = n /\ ordered true bids /\ ordered false asks /\
  (forall p, p ∈ prices bids -> 1 <= p <= bp - ladder_step i) /\
  (forall p, p ∈ prices asks -> ap + ladder_step i <= p) /\
  (forall d, (d < n)%nat -> lvQuantity <$> bids !! d = Some (sizeAt b (i + d) true)) /\
  (forall d, (d < n)%nat -> lvQuantity <$> asks !! d = Some (sizeAt b (i + d) false)).
Proof.
  revert i bp ap. induction n as [|n IH]; intros i bp ap Hi Hb Ha Hmax.
  { split; [done|]. split; [done|]. split; [apply ordered_nil|]. split; [apply ordered_nil|].
    split_and!; try (intros p Hp; by apply elem_of_nil in Hp); intros; lia. }
  assert (Hc : 1 <= c) by (unfold c; pose proof (Z.div_pos (Z.of_nat N) 20); lia).
  pose proof (ladder_step_bound i N ltac:(lia)) as Hs. fold c in Hs.
  pose proof (ladder_step_bound (S i) (S N) ltac:(lia)) as Hs'.
  assert (Hstep' : 1 <= ladder_step (S i)).
  { unfold ladder_step. rewrite (proj2 (Z.ltb_lt 0 _)) by lia.
    pose proof (Z.quot_pos (Z.of_nat (S i)) 20). lia. }
  rewrite Nat2Z.inj_succ in *.
  rewrite ladder_cons by nia. cbv zeta.
  specialize (IH (S i) (bp - ladder_step i) (ap + ladder_step i) ltac:(lia) ltac:(nia)
    ltac:(lia) ltac:(nia)).
  destruct (ladder b n (S i) _ _) as [bids asks].
  destruct IH as (Lb & La & Ob & Oa & Pb & Pa & Qb & Qa).
  split; [by simpl; f_equal|]. split; [by simpl; f_equal|].
  split; [apply ordered_cons; split; [|done]|].
  { apply Forall_forall. intros p Hp. specialize (Pb p Hp). simpl. lia. }
  split; [apply ordered_cons; split; [|done]|].
  { apply Forall_forall. intros p Hp. specialize (Pa p Hp). simpl. lia. }
  split; [|split; [|split]].
  - intros p [->|Hp]%elem_of_cons; simpl; [nia|]. specialize (Pb p Hp). lia.
  - intros p [->|Hp]%elem_of_cons; simpl; [lia|]. specialize (Pa p Hp). lia.
  - intros [|d] Hd; simpl; [by rewrite Nat.add_0_r|].
    rewrite Qb by lia. by rewrite <- Nat.add_succ_comm.
  - intros [|d] Hd; simpl; [by rewrite Nat.add_0_r|].
    rewrite Qa by lia. by rewrite <- Nat.add_succ_comm.
Qed.

Lemma sizeAt_kept b d (bid : bool) l :
  (if bid then bkBids b else bkAsks b) !! d = Some l -> sizeAt b d bid = lvQuantity l.
Proof. unfold sizeAt. by intros ->. Qed.

Lemma sizeAt_pos b d bid : positive_qty (bkBids b) -> positive_qty (bkAsks b) ->
  0 < sizeAt b d bid <= MaxInt64.
Proof.
  intros Hb Ha. unfold sizeAt. destruct (_ !! d) as [l|] eqn:E.
  - apply list_elem_of_lookup_2 in E. unfold positive_qty in *.
    rewrite Forall_forall in Hb, Ha. destruct bid; [by apply Hb|by apply Ha].
  - cbv zeta. match goal with |- context [f64_to_int ?x] =>
      pose proof (f64_to_int_range x) as Hr end.
    unfold in_i64 in Hr. split_if; lia.
Qed.

Lemma ladder_head b n i bp ap :
  0 <= bp <= MaxInt64 -> 0 < ap -> ap + ladder_step i <= MaxInt64 -> ladder_step i < bp ->
  let '(bids, asks) := ladder b (S n) i bp ap in
  exists x bids' y asks', bids = x :: bids' /\ asks = y :: asks' /\
    lvPrice x = bp - ladder_step i /\ lvPrice y = ap + ladder_step i.
Proof.
  intros. rewrite ladder_cons by done. cbv zeta. destruct (ladder b n _ _ _). by eauto 10.
Qed.

(** A full book whose touch encloses the mid closely does not need
    recentring. *)
Lemma needsRecenter_centred b mid x bids y asks :
  0 <= bkMaxLevels b -> bkBids b = x :: bids -> bkAsks b = y :: asks ->
  len (bkBids b) = bkMaxLevels b -> len (bkAsks b) = bkMaxLevels b ->
  lvPrice x <= mid <= lvPrice y -> lvPrice y - lvPrice x <= 6 ->
  needsRecenter b mid = Some false.
Proof.
  intros Hn Eb Ea Lb La Hm Hs. unfold needsRecenter.
  destruct (mid <=? 0); [done|]. cbv zeta. rewrite Lb, La, Eb, Ea.
  assert (Z.quot (bkMaxLevels b * 3) 4 <= bkMaxLevels b).
  { rewrite Z.quot_div_nonneg by lia. apply Z.div_le_upper_bound; lia. }
  rewrite (proj2 (Z.ltb_ge (bkMaxLevels b) _)) by lia. cbn [orb].
  rewrite Cmp_gt, Cmp_lt. unfold Price.Sub. rewrite (i64_small (lvPrice y - _)) by (unfold in_i64; lia).
  rewrite (proj2 (Z.ltb_ge mid (lvPrice x))), (proj2 (Z.ltb_ge (lvPrice y) mid)) by lia.
  rewrite !orb_false_r. f_equal. apply Z.ltb_ge. split_if; lia.
Qed.

(** The room a ladder needs on each side of its starting price. *)
Definition ladder_room (n : Z) : Z := n * (1 + n / 20).

Lemma mid_half mid : 0 < mid -> 1 <= 1 + Z.rem mid 2 <= 2.
Proof. intros. pose proof (Z.rem_bound_pos mid 2). lia. Qed.

Lemma Recenter_sides b mid at_ (h := 1 + Z.rem mid 2) :
  0 < bkMaxLevels b -> ladder_room (bkMaxLevels b) + 2 < mid ->
  mid + 2 + ladder_room (bkMaxLevels b) <= MaxInt64 ->
  Recenter b mid at_ =
    let '(bids, asks) := ladder b (Z.to_nat (bkMaxLevels b)) 0 (mid - h) (mid + h) in
    let '(b', m) := commit (set_sides b bids asks) at_ in (b', Some m).
Proof.
  unfold Recenter, ladder_room. intros Hn Hlo Hhi.
  pose proof (Z.div_pos (bkMaxLevels b) 20). pose proof (mid_half mid ltac:(nia)) as Hh. fold h in Hh |- *.
  rewrite (proj2 (Z.leb_gt mid 0)) by nia. rewrite (i64_small (mid - h)), (i64_small (mid + h))
    by (unfold in_i64; nia).
  rewrite (proj2 (Z.leb_gt (mid - h) 0)) by nia.
  by rewrite (proj2 (Z.leb_gt (mid + h) (mid - h))) by lia.
Qed.

Lemma Recenter_core b mid at_ :
  15 <= bkMaxLevels b -> 0 < bkWindow b ->
  ladder_room (bkMaxLevels b) + 2 < mid ->
  mid + 2 + ladder_room (bkMaxLevels b) <= MaxInt64 ->
  exists b' m, Recenter b mid at_ = (b', Some m) /\ is_window b' m /\
    bkUpdateID b' = u64 (bkUpdateID b + 1) /\ book_ordered b' /\
    Depth b' = (bkMaxLevels b, bkMaxLevels b) /\ needsRecenter b' mid = Some false /\
    (forall d l, Z.of_nat d < bkMaxLevels b ->
       (bkBids b !! d = Some l -> lvQuantity <$> bkBids b' !! d = Some (lvQuantity l)) /\
       (bkAsks b !! d = Some l -> lvQuantity <$> bkAsks b' !! d = Some (lvQuantity l))).
Proof.
  intros Hn Hw Hlo Hhi. rewrite Recenter_sides by lia. unfold ladder_room in *.
  pose proof (Z.div_pos (bkMaxLevels b) 20). pose proof (mid_half mid ltac:(nia)) as Hh.
  set (h := 1 + Z.rem mid 2) in *. set (N := Z.to_nat (bkMaxLevels b)).
  assert (HN : Z.of_nat N = bkMaxLevels b) by (unfold N; lia).
  pose proof (ladder_spec b N N 0 (mid - h) (mid + h) ltac:(lia) ltac:(rewrite HN; lia)
    ltac:(nia) ltac:(rewrite HN; lia)) as Hl.
  pose proof (ladder_head b (pred N) 0 (mid - h) (mid + h)) as Hhead.
  replace (S (pred N)) with N in Hhead by lia.
  specialize (Hhead ltac:(nia) ltac:(nia) ltac:(change (ladder_step 0) with 0; nia)
    ltac:(change (ladder_step 0) with 0; nia)).
  destruct (ladder b N 0 (mid - h) (mid + h)) as [bids asks].
  destruct Hl as (Lb & La & Ob & Oa & Pb & Pa & Qb & Qa).
  change (ladder_step 0) with 0 in Pb, Pa.
  assert (Ho : book_ordered (set_sides b bids asks)).
  { split; [done|done|]. intros x y Hx Hy. specialize (Pb x Hx). specialize (Pa y Hy). lia. }
  destruct (commit_ok (set_sides b bids asks) at_ Ho Hw) as (m & -> & Hm).
  do 2 eexists. split; [done|]. split; [exact Hm|]. split; [done|].
  split; [by apply book_ordered_set_update|].
  split; [unfold Depth, len; simpl; by rewrite Lb, La, HN|].
  split.
  - destruct Hhead as (x & bs & y & ks & Eb & Ea & Ex & Ey). change (ladder_step 0) with 0 in *.
    apply (needsRecenter_centred _ _ x bs y ks); simpl; unfold len; done || lia.
  - intros d l Hd. split; intros Hl; simpl.
    + rewrite Qb by lia. f_equal. by apply sizeAt_kept.
    + rewrite Qa by lia. f_equal. by apply sizeAt_kept.
Qed.

Lemma Recenter_restores_depth b mid at_ :
  15 <= bkMaxLevels b -> 0 < bkWindow b ->
  ladder_room (bkMaxLevels b) + 2 < mid ->
  mid + 2 + ladder_room (bkMaxLevels b) <= MaxInt64 ->
  exists b' m, Recenter b mid at_ = (b', Some m) /\ is_window b' m /\
    bkUpdateID b' = u64 (bkUpdateID b + 1) /\ book_ordered b' /\
    len (bkBids b') <= bkMaxLevels b /\ len (bkAsks b') = bkMaxLevels b.
Proof.
  intros Hn Hw Hlo Hhi.
  destruct (Recenter_core b mid at_ Hn Hw Hlo Hhi) as (b' & m & Hr & Hm & Hu & Ho & Hd & _).
  injection Hd as Hb Ha. exists b', m. split_and!; done || lia.
Qed.

(** C15: When the mid price leaves room for the ladder, recentring always
    succeeds whatever the book was: both sides get exactly the configured depth, strictly
    sorted around the mid, with the sizes of the old levels kept at the same
    depth; the update id grows by one, and the new book does not itself need
    recentring at that mid. *)
Theorem Recenter_restores b mid at_ :
  15 <= bkMaxLevels b -> 0 < bkWindow b ->
  ladder_room (bkMaxLevels b) + 2 < mid ->
  mid + 2 + ladder_room (bkMaxLevels b) <= MaxInt64 ->
  exists b' m, Recenter b mid at_ = (b', Some m) /\ is_window b' m /\
    bkUpdateID b' = u64 (bkUpdateID b + 1) /\ book_ordered b' /\
    Depth b' = (bkMaxLevels b, bkMaxLevels b) /\ needsRecenter b' mid = Some false /\
    (forall d l, Z.of_nat d < bkMaxLevels b ->
       (bkBids b !! d = Some l -> lvQuantity <$> bkBids b' !! d = Some (lvQuantity l)) /\
       (bkAsks b !! d = Some l -> lvQuantity <$> bkAsks b' !! d = Some (lvQuantity l))).
Proof. apply Recenter_core. Qed.

Example Recenter_restores_witness :
  exists b' m, Recenter demo_book 101 zeroTime = (b', Some m) /\
    Depth b' = (15, 15) /\ needsRecenter b' 101 = Some false.
Proof.
  destruct (Recenter_restores demo_book 101 zeroTime ltac:(done) ltac:(done) ltac:(done) ltac:(done))
    as (b' & m & Hr & _ & _ & _ & Hd & Hn & _). exists b', m. split; [exact Hr|]. split; [exact Hd|exact Hn].
Defined.

(** ** Churn *)

Section Churn.
Context {G : Type} `{RandLaws G}.

(** What churn needs of a side. *)
Record side_ok (bid : bool) (l : list Level) : Prop := {
  so_ordered : ordered bid l;
  so_nonempty : l <> [];
  so_qty : positive_qty l }.

Lemma churn_index (l : list Level) (f1 f2 : float64) :
  len l < 2 ^ 21 -> mag_lt f1 1 -> mag_lt f2 1 ->
  0 <= f64_to_int (f64_mul (f64_mul (f64_of_Z (len l)) f1) f2).
Proof.
  intros Hl H1 H2.
  assert (H3 : mag_lt (f64_of_Z (len l)) 22) by (apply (f64_of_Z_mag _ 21); unfold len in *; lia).
  pose proof (f64_mul_mag _ _ 22 1 H3 H1 ltac:(lia)) as H4.
  pose proof (f64_mul_mag _ _ 25 1 H4 H2 ltac:(lia)) as H5.
  by apply (f64_to_int_nonneg _ 28).
Qed.

(** A side after some levels changed size or left. *)
Definition churned (bid : bool) (l l' : list Level) : Prop :=
  side_ok bid l' /\ len l' <= len l /\ (forall p, p ∈ prices l' -> p ∈ prices l).

Lemma churned_trans bid l l' l'' : churned bid l l' -> churned bid l' l'' -> churned bid l l''.
Proof. intros (? & ? & Hp) (? & ? & Hp'). split_and!; [done|lia|auto]. Qed.

Lemma drop_one_churned bid l i :
  side_ok bid l -> 20 < len l -> (i < length l)%nat -> churned bid l (take i l ++ drop (S i) l).
Proof.
  intros [Ho Hne Hq] Hl Hi. unfold churned, len in *.
  assert (Hlen : length (take i l ++ drop (S i) l) = pred (length l))
    by (rewrite length_app, length_take, length_drop; lia).
  assert (Hp : prices (take i l ++ drop (S i) l) = take i (prices l) ++ drop (S i) (prices l))
    by (unfold prices; by rewrite fmap_app, fmap_take, fmap_drop).
  split; [split|split; [lia|]].
  - unfold ordered. rewrite Hp. by apply StronglySorted_remove.
  - intros E. rewrite E in Hlen. simpl in Hlen. lia.
  - apply Forall_app. split; [by apply Forall_take|by apply Forall_drop].
  - intros p. rewrite Hp, elem_of_app. intros [Hin|Hin].
    + rewrite <- (take_drop i (prices l)), elem_of_app. by left.
    + rewrite <- (take_drop (S i) (prices l)), elem_of_app. by right.
Qed.

Lemma resize_churned bid l i x q :
  side_ok bid l -> l !! i = Some x -> 0 < q <= MaxInt64 ->
  churned bid l (<[i := mkLevel (lvPrice x) q]> l).
Proof.
  intros [Ho Hne Hq] Hi Hqr. unfold churned, len.
  assert (Hp : prices (<[i := mkLevel (lvPrice x) q]> l) = prices l).
  { unfold prices. rewrite list_fmap_insert. simpl. apply list_insert_id.
    by rewrite list_lookup_fmap, Hi. }
  split; [split|split; [by rewrite length_insert|by rewrite Hp]].
  - unfold ordered. by rewrite Hp.
  - intros E. apply (f_equal length) in E. rewrite length_insert in E.
    by destruct l.
  - apply Forall_insert; [done|]. done.
Qed.

(** One move of the churn: a level takes a new size, from a draw [f], or leaves
    a side of more than 20 levels. *)
Definition unit_draw (f : float64) : Prop := exists k, 0 <= k < 2 ^ 53 /\ f = f64_ldexp k (-53).
Definition resized (q : Z) (f : float64) : Z :=
  Z.max 1 (f64_to_int (f64_mul (f64_of_Z q) (f64_add (f64_lit 1 2) (f64_mul f (f64_lit 3 2))))).
Inductive churn_move (l : list Level) : list Level -> Prop :=
| move_resize i x f : l !! i = Some x -> unit_draw f ->
    churn_move l (<[i := mkLevel (lvPrice x) (resized (lvQuantity x) f)]> l)
| move_drop i : 20 < len l -> (i < length l)%nat -> churn_move l (take i l ++ drop (S i) l).

Lemma mutateRandomLevel_churned bid l (g : G) :
  side_ok bid l -> len l < 2 ^ 21 ->
  exists l' g', mutateRandomLevel l g = Some (l', g') /\ churned bid l l' /\ churn_move l l'.
Proof.
  intros Hok Hl. unfold mutateRandomLevel.
  rewrite bool_decide_eq_false_2 by apply Hok.
  pose proof (rFloat64_mag g) as M1. destruct (rFloat64 g) as [f1 g1].
  pose proof (rFloat64_mag g1) as M2. destruct (rFloat64 g1) as [f2 g2]. cbn [fst] in *.
  pose proof (churn_index l f1 f2 Hl M1 M2) as Hidx. cbv zeta.
  set (raw := f64_to_int _) in *.
  set (idx := if len l <=? raw then len l - 1 else raw).
  assert (Hb : 0 <= idx < len l).
  { unfold idx. destruct Hok as [_ Hne _]. unfold len in *. destruct l; [done|].
    simpl length in *. split_if; lia. }
  rewrite (proj2 (Z.ltb_ge idx 0)) by lia.
  destruct (lookup_lt_is_Some_2 l (Z.to_nat idx)) as [x Hx]; [unfold len in *; lia|].
  rewrite Hx. cbn [mbind option_bind].
  destruct (rFloat64 g2) as [f3 g3]. destruct (_ && _) eqn:E.
  - apply andb_true_iff in E as [_ E]. bool_to_prop. do 2 eexists. split; [done|].
    assert (Hi : (Z.to_nat idx < length l)%nat) by (unfold len in *; lia).
    split; [by apply drop_one_churned|by apply move_drop].
  - pose proof (rFloat64_unit g3) as Hu. destruct (rFloat64 g3) as [f4 g4]. cbn [fst] in Hu. do 2 eexists. split; [done|].
    assert (Eq : forall q, (if q <? 1 then 1 else q) = Z.max 1 q) by (intros q; split_if; lia).
    rewrite Eq. change (Z.max 1 _) with (resized (lvQuantity x) f4). split; [|by apply move_resize].
    apply resize_churned; [done|done|]. unfold resized.
    match goal with |- context [f64_to_int ?x] => pose proof (f64_to_int_range x) as Hr end.
    unfold in_i64 in Hr. lia.
Qed.

Lemma mutate_many_churned bid n l (g : G) :
  side_ok bid l -> len l < 2 ^ 21 ->
  exists l' g', mutate_many n l g = Some (l', g') /\ churned bid l l' /\ nsteps churn_move n l l'.
Proof.
  revert l g. induction n as [|n IH]; intros l g Hok Hl; cbn [mutate_many].
  { do 2 eexists. split; [done|]. split; [by split_and!|constructor]. }
  destruct (mutateRandomLevel_churned bid l g Hok Hl) as (l1 & g1 & -> & H1 & Hm).
  cbn [mbind option_bind]. destruct H1 as (Hok1 & Hl1 & Hp1).
  destruct (IH l1 g1 Hok1 ltac:(lia)) as (l2 & g2 & -> & H2 & Hms). do 2 eexists.
  split; [done|]. split; [eapply churned_trans; [|exact H2]; by split_and!|by econstructor].
Qed.

(** A side extended at its far end. *)
Definition extended (bid : bool) (l l' : list Level) : Prop :=
  side_ok bid l' /\ l `prefix_of` l'.

Lemma extended_snoc bid l lst p q :
  side_ok bid l -> last l = Some lst -> better bid (lvPrice lst) p -> 0 < q <= MaxInt64 ->
  side_ok bid (l ++ [mkLevel p q]).
Proof.
  intros [Ho Hne Hq] Hl Hp Hqr. split.
  - by eapply ordered_snoc.
  - by destruct l.
  - apply Forall_app. split; [done|]. by constructor.
Qed.

Lemma extended_not_nearer bid l l' p :
  l <> [] -> extended bid l l' -> p ∈ prices l' ->
  exists q, q ∈ prices l /\ (p = q \/ better bid q p).
Proof.
  intros Hne ([Ho _ _] & k & ->) Hp. apply ordered_app in Ho as (Hk & _ & _).
  unfold prices in Hp. rewrite fmap_app, elem_of_app in Hp. destruct Hp as [Hp|Hp]; [by eauto|].
  destruct l as [|x l]; [done|]. exists (lvPrice x). split; [by left|]. right. apply Hk; [by left|done].
Qed.

Lemma last_some {A} (l : list A) : l <> [] -> exists x, last l = Some x.
Proof. intros Hl. destruct (last l) eqn:E; [by eauto|]. by apply last_None in E. Qed.

Lemma Forall_last {A} (P : A -> Prop) l x : Forall P l -> last l = Some x -> P x.
Proof. intros Hf Hl. apply last_Some in Hl as [k ->]. apply Forall_app in Hf as [_ Hf]. by inversion Hf. Qed.

(** Fresh levels join behind the last one, each one or two ticks further, with
    drawn quantities. *)
Definition further (bid : bool) (p : Z) (k : Z) : Z := if bid then p - k else p + k.
Inductive restocked (sym : Symbol) (bid : bool) (l : list Level) : list Level -> Prop :=
| restock_done : restocked sym bid l l
| restock_one l' lst k (g : G) : restocked sym bid l l' -> last l' = Some lst -> k = 1 \/ k = 2 ->
    restocked sym bid l (l' ++ [mkLevel (further bid (lvPrice lst) k) (fst (replenishQuantity sym g))]).

Lemma restocked_first sym bid l lst k (g : G) l' :
  last l = Some lst -> k = 1 \/ k = 2 ->
  restocked sym bid (l ++ [mkLevel (further bid (lvPrice lst) k) (fst (replenishQuantity sym g))]) l' ->
  restocked sym bid l l'.
Proof.
  intros Hl Hk. induction 1 as [|l' lst' k' g' _ IH Hl' Hk']; [|by apply restock_one].
  apply restock_one; [constructor|done|done].
Qed.

Lemma replenish_bids_ok sym n l (g : G) :
  side_ok true l -> Forall (fun x => 0 < lvPrice x <= MaxInt64) l ->
  exists l' g', replenish_bids sym n l g = Some (l', g') /\ extended true l l' /\
    Forall (fun x => 0 < lvPrice x <= MaxInt64) l' /\ (length l' <= length l + n)%nat /\
    restocked sym true l l' /\
    (length l' = (length l + n)%nat \/ exists lst, last l' = Some lst /\ lvPrice lst <= 2).
Proof.
  revert l g. induction n as [|n IH]; intros l g Hok Hp; cbn [replenish_bids].
  { do 2 eexists. split; [done|]. split; [done|]. split; [done|]. split_and!; [lia|constructor|left; lia]. }
  destruct (last_some l ltac:(apply Hok)) as [lst Hlst]. rewrite Hlst. cbn [mbind option_bind].
  pose proof (Forall_last _ _ _ Hp Hlst) as Hb. cbn beta in Hb.
  pose proof (IntN_2 g) as Hk. destruct (IntN 2 g) as [k g1]. cbn [fst] in Hk.
  unfold Price.Sub. no_wrap. destruct (_ <=? 0) eqn:E; bool_to_prop.
  { do 2 eexists. split; [done|]. split; [done|]. split; [done|]. split_and!; [lia|constructor|right].
    exists lst. split; [done|lia]. }
  pose proof (replenishQuantity_pos sym g1) as Hq.
  pose proof (fun l' => restocked_first sym true l lst (1 + k) g1 l' Hlst ltac:(lia)) as Hrs.
  destruct (replenishQuantity sym g1) as [q g2]. cbn [fst further] in Hq, Hrs.
  assert (Hok' : side_ok true (l ++ [mkLevel (lvPrice lst - (1 + k)) q]))
    by (eapply extended_snoc; [done|done|simpl; lia|done]).
  destruct (IH _ g2 Hok') as (l' & g' & -> & [Hok2 Hpre] & Hp2 & Hlen & Hs & Hd).
  { apply Forall_app. split; [done|]. constructor; [cbn [lvPrice]; lia|done]. }
  rewrite length_app in Hlen, Hd. simpl in Hlen, Hd.
  do 2 eexists. split; [done|]. split; [split; [done|]|split; [done|split_and!; [lia|by apply Hrs|]]].
  - etransitivity; [|exact Hpre]. by apply prefix_app_r.
  - destruct Hd as [Hd|Hd]; [left; lia|by right].
Qed.

Lemma replenish_asks_ok sym n l (g : G) :
  side_ok false l -> Forall (fun x => 0 < lvPrice x <= MaxInt64 - 2 * Z.of_nat n) l ->
  exists l' g', replenish_asks sym n l g = Some (l', g') /\ extended false l l' /\
    length l' = (length l + n)%nat /\ restocked sym false l l'.
Proof.
  revert l g. induction n as [|n IH]; intros l g Hok Hp; cbn [replenish_asks].
  { do 2 eexists. split; [done|]. split; [done|]. split; [lia|constructor]. }
  destruct (last_some l ltac:(apply Hok)) as [lst Hlst]. rewrite Hlst. cbn [mbind option_bind].
  pose proof (Forall_last _ _ _ Hp Hlst) as Hb. cbn beta in Hb.
  pose proof (IntN_2 g) as Hk. destruct (IntN 2 g) as [k g1]. cbn [fst] in Hk.
  unfold Price.Add. no_wrap.
  pose proof (replenishQuantity_pos sym g1) as Hq.
  pose proof (fun l' => restocked_first sym false l lst (1 + k) g1 l' Hlst ltac:(lia)) as Hrs.
  destruct (replenishQuantity sym g1) as [q g2]. cbn [fst further] in Hq, Hrs.
  assert (Hok' : side_ok false (l ++ [mkLevel (lvPrice lst + (1 + k)) q]))
    by (eapply extended_snoc; [done|done|simpl; lia|done]).
  destruct (IH _ g2 Hok') as (l' & g' & -> & [Hok2 Hpre] & Hlen & Hs).
  { apply Forall_app. split; [|constructor; [simpl; lia|done]].
    eapply Forall_impl; [exact Hp|]. intros x Hx. cbn beta in *. lia. }
  do 2 eexists. split; [done|]. split; [split; [done|]|split; [|by apply Hrs]].
  - etransitivity; [|exact Hpre]. by apply prefix_app_r.
  - rewrite length_app in Hlen. simpl in Hlen. lia.
Qed.

(** The conditions under which churn runs. *)
Record churn_ready (b : OrderBook) : Prop := {
  cr_ordered : book_ordered b;
  cr_window : 0 < bkWindow b;
  cr_levels : 15 <= bkMaxLevels b < 2 ^ 20;
  cr_bid_depth : len (bkBids b) <= bkMaxLevels b;
  cr_ask_depth : len (bkAsks b) <= bkMaxLevels b;
  cr_bid_qty : positive_qty (bkBids b);
  cr_ask_qty : positive_qty (bkAsks b);
  cr_bid_price : Forall (fun x => 0 < lvPrice x <= MaxInt64) (bkBids b);
  cr_ask_price : Forall (fun x => 0 < lvPrice x <= MaxInt64 - 2 * bkMaxLevels b) (bkAsks b) }.

Lemma Forall_prices (P : Z -> Prop) l : Forall (fun x => P (lvPrice x)) l <-> Forall P (prices l).
Proof. unfold prices. by rewrite Forall_fmap. Qed.

Lemma churned_prices bid l l' (P : Z -> Prop) :
  churned bid l l' -> Forall (fun x => P (lvPrice x)) l -> Forall (fun x => P (lvPrice x)) l'.
Proof.
  intros (_ & _ & Hp). rewrite !Forall_prices, !Forall_forall. auto.
Qed.

Lemma replenish_ok b bids asks (g : G) :
  churn_ready b -> churned true (bkBids b) bids -> churned false (bkAsks b) asks ->
  exists bids' asks' g', replenish (set_sides b bids asks) g = Some (set_sides b bids' asks', g') /\
    extended true bids bids' /\ extended false asks asks' /\
    len bids' <= bkMaxLevels b /\ len asks' = bkMaxLevels b /\
    restocked (bkSymbol b) true bids bids' /\ restocked (bkSymbol b) false asks asks' /\
    (len bids' = bkMaxLevels b \/ exists lst, last bids' = Some lst /\ lvPrice lst <= 2).
Proof.
  intros [] Hb Ha. unfold replenish. cbv zeta. cbn [bkBids bkAsks bkSymbol bkMaxLevels set_sides].
  pose proof (churned_prices _ _ _ (fun p => 0 < p <= MaxInt64) Hb cr_bid_price0) as Pb.
  pose proof (churned_prices _ _ _ (fun p => 0 < p <= MaxInt64 - 2 * bkMaxLevels b) Ha
    cr_ask_price0) as Pa.
  destruct Hb as (Okb & Lb & _), Ha as (Oka & La & _).
  destruct (replenish_bids_ok (bkSymbol b) (Z.to_nat (bkMaxLevels b - len bids)) bids g Okb Pb)
    as (bids' & g1 & -> & Eb & _ & Lb' & Rb & Db). cbn [mbind option_bind].
  destruct (replenish_asks_ok (bkSymbol b) (Z.to_nat (bkMaxLevels b - len asks)) asks g1 Oka)
    as (asks' & g2 & -> & Ea & La' & Ra).
  { eapply Forall_impl; [exact Pa|]. intros x Hx. unfold len. cbn beta in *. lia. }
  cbn [mbind option_bind]. do 3 eexists. split; [done|]. unfold len in *.
  split_and!; try done; try lia. destruct Db as [Db|Db]; [left; lia|by right].
Qed.

Lemma churn_uncrossed bids bids1 bids2 asks asks1 asks2 :
  uncrossed bids asks -> churned true bids bids1 -> churned false asks asks1 ->
  extended true bids1 bids2 -> extended false asks1 asks2 -> uncrossed bids2 asks2.
Proof.
  intros Hu ([_ Nb _] & _ & Hb) ([_ Na _] & _ & Ha) Eb Ea x y Hx Hy.
  destruct (extended_not_nearer _ _ _ _ Nb Eb Hx) as (p & Hp & Hc).
  destruct (extended_not_nearer _ _ _ _ Na Ea Hy) as (q & Hq & Hd).
  specialize (Hu p q (Hb _ Hp) (Ha _ Hq)). simpl in *. lia.
Qed.

(** What a refresh that churns does to a side: one to three moves, then fresh
    levels up to the depth [n], or, on the bid side, until the price runs out. *)
Definition side_refreshed (sym : Symbol) (bid : bool) (n : Z) (l l' : list Level) : Prop :=
  exists moves l1, (1 <= moves <= 3)%nat /\ nsteps churn_move moves l l1 /\ restocked sym bid l1 l' /\
    (len l' = n \/ bid = true /\ exists lst, last l' = Some lst /\ lvPrice lst <= 2).

Lemma IntN_3 (g : G) : (1 <= Z.to_nat (1 + fst (IntN 3 g)) <= 3)%nat.
Proof. pose proof (IntN_range 3 g ltac:(lia)). lia. Qed.

Lemma Refresh_churn b (g : G) mid at_ :
  churn_ready b -> bkBids b <> [] -> bkAsks b <> [] -> needsRecenter b mid = Some false ->
  exists b' m g', Refresh b g mid at_ = Some (b', Some m, g') /\ is_window b' m /\
    bkUpdateID b' = u64 (bkUpdateID b + 1) /\ book_ordered b' /\
    len (bkBids b') <= bkMaxLevels b /\ len (bkAsks b') = bkMaxLevels b /\
    side_refreshed (bkSymbol b) true (bkMaxLevels b) (bkBids b) (bkBids b') /\
    side_refreshed (bkSymbol b) false (bkMaxLevels b) (bkAsks b) (bkAsks b').
Proof.
  intros Hr Nb Na Hneed. pose proof Hr as [[Ob Oa Hu] Hw Hml Lb La Qb Qa _ _].
  unfold Refresh. cbv zeta. rewrite !bool_decide_eq_false_2 by done. cbn [orb].
  rewrite Hneed. cbn [mbind option_bind]. pose proof (IntN_3 g) as N1. destruct (IntN 3 g) as [t1 g1].
  destruct (mutate_many_churned true (Z.to_nat (1 + t1)) (bkBids b) g1) as (bids1 & g2 & -> & C1 & M1);
    [by split|lia|].
  cbn [mbind option_bind]. pose proof (IntN_3 g2) as N2. destruct (IntN 3 g2) as [t2 g3].
  destruct (mutate_many_churned false (Z.to_nat (1 + t2)) (bkAsks b) g3) as (asks1 & g4 & -> & C2 & M2);
    [by split|lia|].
  cbn [mbind option_bind].
  destruct (replenish_ok b bids1 asks1 g4 Hr C1 C2) as (bids2 & asks2 & g5 & -> & E1 & E2 & L1 & L2 & R1 & R2 & D1).
  cbn [mbind option_bind].
  pose proof (churn_uncrossed _ _ _ _ _ _ Hu C1 C2 E1 E2) as Hu'.
  destruct E1 as [[O1 _ Q1] _], E2 as [[O2 _ Q2] _].
  destruct (commit_ok (set_sides b bids2 asks2) at_) as (m & -> & Hm); [by split|done|].
  do 3 eexists. split; [done|]. split; [exact Hm|]. split; [done|].
  split; [by apply book_ordered_set_update|]. split; [done|]. split; [done|]. split.
  - exists (Z.to_nat (1 + t1)), bids1. split; [exact N1|]. split; [exact M1|]. split; [exact R1|]. destruct D1 as [D1|D1]; [by left|by right].
  - exists (Z.to_nat (1 + t2)), asks1. split; [exact N2|]. split; [exact M2|]. split; [exact R2|by left].
Qed.

(** The book has lost its place around [mid]: a side is empty or below three
    quarters of the depth, the touch is wide, or [mid] is outside it. *)
Definition drifted (b : OrderBook) (mid : Z) : Prop :=
  match bkBids b, bkAsks b with
  | bid :: _, ask :: _ =>
      len (bkBids b) < 3 * bkMaxLevels b / 4 \/ len (bkAsks b) < 3 * bkMaxLevels b / 4 \/
      Z.max 6 (6 * bkMaxLevels b / 100) < lvPrice ask - lvPrice bid \/ mid < lvPrice bid \/ lvPrice ask < mid
  | _, _ => True
  end.

Lemma needsRecenter_drifted b mid bid bids ask asks :
  churn_ready b -> 0 < mid -> bkBids b = bid :: bids -> bkAsks b = ask :: asks ->
  exists need, needsRecenter b mid = Some need /\ (need = true <-> drifted b mid).
Proof.
  intros [[_ _ Hu] _ Hml _ _ _ _ Pb Pa] Hm Eb Ea. unfold needsRecenter, drifted. rewrite (proj2 (Z.leb_gt mid 0)) by lia. cbv zeta.
  rewrite Eb, Ea in *. apply Forall_cons in Pb as [Pb _], Pa as [Pa _].
  rewrite !Z.quot_div_nonneg, Cmp_gt, Cmp_lt by lia. rewrite (Z.mul_comm _ 3).
  unfold Price.Sub. rewrite (i64_small (lvPrice ask - _)) by (unfold in_i64; lia).
  destruct (_ || _) eqn:E1; eexists; (split; [reflexivity|]).
  - split; [|done]. intros _. apply orb_true_iff in E1. rewrite !Z.ltb_lt in E1. tauto.
  - apply orb_false_iff in E1. rewrite !Z.ltb_ge in E1. rewrite !orb_true_iff, !Z.ltb_lt.
    assert (Em : forall z, (if z <? 6 then 6 else z) = Z.max 6 z) by (intros z; split_if; lia). rewrite Em. lia.
Qed.

(** C16: Whatever the random draws, refreshing a book around a mid price that
    leaves room for the ladder does not panic, grows the update id by one and
    publishes the window of a strictly sorted, uncrossed book.  A book that has
    drifted from the mid (a side empty or below three quarters of the depth, the
    touch wider than the tolerance or not around the mid) is recentred, without a
    draw.  Any other book is churned: on each side one to three levels are resized
    or, from more than 20 levels, removed, and then fresh levels join behind the
    last, one or two ticks apart, until the side has the configured depth (the bid
    side stops short only when its last price is at most two ticks). *)
Theorem Refresh_ok b (g : G) mid at_ :
  churn_ready b -> ladder_room (bkMaxLevels b) + 2 < mid ->
  mid + 2 + ladder_room (bkMaxLevels b) <= MaxInt64 ->
  exists b' m g', Refresh b g mid at_ = Some (b', Some m, g') /\ is_window b' m /\
    bkUpdateID b' = u64 (bkUpdateID b + 1) /\ book_ordered b' /\
    len (bkBids b') <= bkMaxLevels b /\ len (bkAsks b') = bkMaxLevels b /\
    (drifted b mid -> Recenter b mid at_ = (b', Some m) /\ g' = g) /\
    (~ drifted b mid ->
       side_refreshed (bkSymbol b) true (bkMaxLevels b) (bkBids b) (bkBids b') /\
       side_refreshed (bkSymbol b) false (bkMaxLevels b) (bkAsks b) (bkAsks b')).
Proof.
  intros Hr Hlo Hhi. pose proof Hr as [_ Hw Hml _ _ _ _ _ _].
  destruct (Recenter_restores_depth b mid at_ ltac:(lia) Hw Hlo Hhi) as (b' & m & Hrec & Hrest).
  assert (Hmid : 0 < mid) by (unfold ladder_room in Hlo; pose proof (Z.div_pos (bkMaxLevels b) 20); nia).
  match goal with |- ?goal =>
    assert (Hre : drifted b mid -> Refresh b g mid at_ = Some (b', Some m, g) -> goal) end.
  { intros Hd ->. exists b', m, g. split; [done|]. destruct Hrest as (? & ? & ? & ? & ?). by split_and!. }
  destruct (bkBids b) as [|bid bids] eqn:Eb.
  { apply Hre; [unfold drifted; by rewrite Eb|]. unfold Refresh. cbv zeta. by rewrite Hrec, Eb. }
  destruct (bkAsks b) as [|ask asks] eqn:Ea.
  { apply Hre; [unfold drifted; by rewrite Eb, Ea|]. unfold Refresh. cbv zeta. by rewrite Hrec, Eb, Ea. }
  destruct (needsRecenter_drifted b mid bid bids ask asks Hr Hmid Eb Ea) as ([] & Hn & Hd).
  - apply Hre; [by apply Hd|]. unfold Refresh. cbv zeta. rewrite Hrec, Eb, Ea. cbn [bool_decide orb]. by rewrite Hn.
  - destruct (Refresh_churn b g mid at_ Hr) as (b2 & m2 & g2 & E & H1 & H2 & H3 & H4 & H5 & H6 & H7);
      [by rewrite Eb|by rewrite Ea|done|].
    rewrite Eb in H6. rewrite Ea in H7. exists b2, m2, g2. split_and!; try done. intros K%Hd. done.
Qed.
End Churn.

Lemma demo_churn_ready : churn_ready demo_book.
Proof. split; try done; try (by repeat constructor). apply demo_book_ordered. Qed.

(** The same book recentred: deep enough to be churned. *)
Definition deep_book : OrderBook := Eval vm_compute in fst (Recenter demo_book 101 zeroTime).
Lemma deep_churn_ready : churn_ready deep_book /\ ~ drifted deep_book 101.
Proof.
  split; [split; try done; try (by repeat constructor); by apply checkOrdering_spec|]. vm_compute. intuition discriminate.
Qed.

Example Refresh_ok_witness :
  (exists b' m g', Refresh demo_book (NewPCG 3 4) 101 zeroTime = Some (b', Some m, g') /\ len (bkAsks b') = 15 /\
     drifted demo_book 101 /\ Recenter demo_book 101 zeroTime = (b', Some m)) /\
  (exists b' m g', Refresh deep_book (NewPCG 3 4) 101 zeroTime = Some (b', Some m, g') /\
     side_refreshed (G := PCG) BTCUSDT true 15 (bkBids deep_book) (bkBids b') /\ bkBids b' <> bkBids deep_book).
Proof.
  split.
  - destruct (Refresh_ok demo_book (NewPCG 3 4) 101 zeroTime demo_churn_ready ltac:(done) ltac:(done))
      as (b' & m & g' & Hr & _ & _ & _ & _ & Hl & Hd & _).
    assert (Hdr : drifted demo_book 101) by (left; reflexivity).
    exists b', m, g'. split; [exact Hr|]. split; [exact Hl|]. split; [exact Hdr|]. exact (proj1 (Hd Hdr)).
  - destruct deep_churn_ready as [Hc Hn].
    destruct (Refresh_ok deep_book (NewPCG 3 4) 101 zeroTime Hc ltac:(done) ltac:(done))
      as (b' & m & g' & Hr & _ & _ & _ & _ & _ & _ & Hs). destruct (Hs Hn) as [Hb _].
    exists b', m, g'. split; [exact Hr|]. split; [exact Hb|]. vm_compute in Hr. injection Hr as <- _ _. vm_compute. discriminate.
Defined.
