(* ===== verification/Ring.v ===== *)
(** * Ring buffers

    [CandleAggregator] and [TradeRing] keep their history in a slice written
    cyclically at [head].  [ring_rep buf head count l] says that the slice
    stands for the list [l], oldest element first. *)

From S2P Require Import Prelude.

Definition ring_start {A} (buf : list A) (head count : Z) : Z :=
  if count =? len buf then head else 0.

Record ring_rep {A} (buf : list A) (head count : Z) (l : list A) : Prop := {
  rr_cap : 0 < len buf;
  rr_head : 0 <= head < len buf;
  rr_count : count = len l;
  rr_le : len l <= len buf;
  rr_part : count < len buf -> head = count;
  rr_get : forall i, (i < length l)%nat ->
    buf !! Z.to_nat (Z.rem (ring_start buf head count + Z.of_nat i) (len buf)) = l !! i }.

Lemma rem_wrap a n : 0 <= a < 2 * n -> Z.rem a n = if a <? n then a else a - n.
Proof.
  intros Ha. rewrite Z.rem_mod_nonneg by lia. split_if; [by apply Z.mod_small; lia|].
  symmetry. apply (Z.mod_unique_pos _ _ 1); lia.
Qed.

Lemma ring_rep_empty {A} (buf : list A) : 0 < len buf -> ring_rep buf 0 0 [].
Proof. intros Hb. split; try done; [unfold len in *; simpl; lia|]. intros i Hi. simpl in Hi. lia. Qed.

Lemma ring_rep_push {A} (buf : list A) head count l x :
  ring_rep buf head count l ->
  ring_rep (<[Z.to_nat head := x]> buf) (Z.rem (head + 1) (len buf))
    (if count <? len buf then count + 1 else count) (lastn (length buf) (l ++ [x])).
Proof.
  intros [Hcap Hh Hc Hle Hpart Hget]. subst count.
  assert (Hlen : len (<[Z.to_nat head := x]> buf) = len buf)
    by (unfold len; by rewrite length_insert).
  rewrite rem_wrap by lia. unfold ring_start, len in *.
  destruct (Z.of_nat (length l) <? Z.of_nat (length buf)) eqn:E; bool_to_prop.
  - (* not yet full *)
    specialize (Hpart E). subst head. rewrite Nat2Z.id in *.
    rewrite (proj2 (Z.eqb_neq _ _)) in Hget by lia.
    rewrite lastn_all by (rewrite length_app; simpl; lia).
    split; unfold ring_start, len in *; rewrite ?length_insert, ?length_app; cbn [length]; try lia.
    + split_if; lia.
    + intros Hlt. split_if; lia.
    + intros i Hi. rewrite rem_wrap by (split_if; lia).
      set (k := Z.to_nat _).
      assert (k = i) as -> by (unfold k; split_if; lia).
      destruct (decide (i = length l)) as [->|Hne].
      * rewrite list_lookup_insert_eq by lia. by rewrite lookup_app_r, Nat.sub_diag by lia.
      * rewrite list_lookup_insert_ne, lookup_app_l by lia.
        rewrite <- Hget by lia. rewrite rem_wrap by lia. f_equal. split_if; lia.
  - (* full: the oldest element is overwritten *)
    assert (Hfull : length l = length buf) by lia.
    rewrite (proj2 (Z.eqb_eq _ _)) in Hget by lia.
    split; unfold ring_start, len in *; rewrite ?length_insert, ?length_lastn, ?length_app;
      cbn [length]; try lia.
    + split_if; lia.
    + intros i Hi. rewrite (proj2 (Z.eqb_eq _ _)) by lia.
      rewrite rem_wrap by (split_if; lia).
      rewrite lookup_lastn, length_app. cbn [length].
      replace (length l + 1 - length buf + i)%nat with (S i) by lia.
      set (k := Z.to_nat _).
      destruct (decide (S i = length l)) as [He|Hne].
      * rewrite lookup_app_r by lia. replace (S i - length l)%nat with 0%nat by lia.
        assert (k = Z.to_nat head) as -> by (unfold k; split_if; lia).
        by rewrite list_lookup_insert_eq by lia.
      * rewrite lookup_app_l by lia. rewrite <- Hget by lia. rewrite rem_wrap by lia.
        rewrite list_lookup_insert_ne by (unfold k; split_if; lia).
        f_equal. unfold k. split_if; lia.
Qed.

(** Reading the ring back: the loop of the history functions returns the
    last [n] elements. *)
Definition ring_read {A} (buf : list A) (head count : Z) (i : Z) : option A :=
  buf !! Z.to_nat (Z.rem (ring_start buf head count + i) (len buf)).

Lemma ring_read_spec {A} (buf : list A) head count l i :
  ring_rep buf head count l -> 0 <= i < count -> ring_read buf head count i = l !! Z.to_nat i.
Proof.
  intros Hr Hi. pose proof (rr_count _ _ _ _ Hr) as Hc. unfold ring_read, len in *.
  rewrite <- (rr_get _ _ _ _ Hr) by lia. do 3 f_equal. lia.
Qed.

Lemma omap_lookup_seq {A} (l : list A) a n :
  (a + n <= length l)%nat -> omap (fun i => l !! i) (seq a n) = take n (drop a l).
Proof.
  revert a. induction n as [|n IH]; intros a Hn; [by rewrite take_0|].
  cbn [seq omap list_omap].
  destruct (lookup_lt_is_Some_2 l a) as [x Hx]; [lia|].
  rewrite Hx. rewrite (drop_S _ x) by done. cbn [take]. f_equal.
  rewrite IH by lia. done.
Qed.
