(* ===== verification/Candles.v ===== *)
(** * Candle aggregation: [internal/market/candle.go]

    A [CandleAggregator] folds trades into the candles of one interval.  It
    keeps the active candle and a ring of closed ones.  [agg_rep a hist act]
    relates it to the plain list of every candle it ever closed; the theorems
    show that the candles are the summaries of the on-time trades grouped by
    bucket, and that the history functions return the newest of them in
    ascending order. *)

From S2P Require Import Prelude Money GoTime Domain Ring.

(** The zero value of a slot; its interval is the empty string in Go and is
    never read. *)
Definition zeroCandle : Candle := mkCandle "" Interval1m zeroTime 0 0 0 0 0 0 0.

Record CandleAggregator := mkAgg {
  agSymbol : Symbol; agInterval : Interval; agDepth : Z;
  agActive : Candle; agHasActive : bool;
  agClosed : list Candle; agHead : Z; agClosedN : Z;
  agLateTrades : Z }.

Definition NewCandleAggregator (sym : Symbol) (iv : Interval) (depth : Z) : CandleAggregator :=
  let depth := if depth <=? 0 then HistoryDepth iv else depth in
  mkAgg sym iv depth zeroCandle false (replicate (Z.to_nat depth) zeroCandle) 0 0 0.

Definition set_active (a : CandleAggregator) (c : Candle) : CandleAggregator :=
  mkAgg (agSymbol a) (agInterval a) (agDepth a) c true
    (agClosed a) (agHead a) (agClosedN a) (agLateTrades a).

Definition pushClosed (a : CandleAggregator) (c : Candle) : CandleAggregator :=
  mkAgg (agSymbol a) (agInterval a) (agDepth a) (agActive a) (agHasActive a)
    (<[Z.to_nat (agHead a) := c]> (agClosed a))
    (Z.rem (agHead a + 1) (agDepth a))
    (if agClosedN a <? agDepth a then agClosedN a + 1 else agClosedN a)
    (agLateTrades a).

(** The result is the aggregator, whether the active candle changed, and the
    candle that closed. *)
Definition Apply (a : CandleAggregator) (t : Trade) : CandleAggregator * bool * option Candle :=
  if negb (bool_decide (trSymbol t = ID (agSymbol a))) then (a, false, None) else
  let bucket := BucketStart (agInterval a) (trTimestamp t) in
  if negb (agHasActive a) then
    (set_active a (NewCandle (ID (agSymbol a)) (agInterval a) t), true, None)
  else if tEqual bucket (cdStartTime (agActive a)) then
    (set_active a (Candle_Apply (agActive a) t), true, None)
  else if tAfter bucket (cdStartTime (agActive a)) then
    let finished := agActive a in
    (set_active (pushClosed a finished) (NewCandle (ID (agSymbol a)) (agInterval a) t),
     true, Some finished)
  else
    (mkAgg (agSymbol a) (agInterval a) (agDepth a) (agActive a) (agHasActive a)
       (agClosed a) (agHead a) (agClosedN a) (u64 (agLateTrades a + 1)), false, None).

Definition Active (a : CandleAggregator) : option Candle :=
  if agHasActive a then Some (agActive a) else None.

Definition idx (a : CandleAggregator) (logical : Z) : Z :=
  let start := if agClosedN a =? agDepth a then agHead a else 0 in
  Z.rem (start + logical) (agDepth a).

(** One slot of the ring; out of range is a panic. *)
Definition slot (a : CandleAggregator) (logical : Z) : option Candle :=
  if idx a logical <? 0 then None else agClosed a !! Z.to_nat (idx a logical).

(** The loop [for i := lo; i < lo+n; i++ { out = append(out, closed[idx(i)]) }]. *)
Fixpoint slots (a : CandleAggregator) (lo : Z) (n : nat) : option (list Candle) :=
  match n with
  | O => Some []
  | S n => c ← slot a lo; out ← slots a (lo + 1) n; Some (c :: out)
  end.

Definition LastClosed (a : CandleAggregator) : option (option Candle) :=
  if agClosedN a =? 0 then Some None else Some <$> slot a (agClosedN a - 1).

Definition History (a : CandleAggregator) (limit : Z) : option (list Candle) :=
  let limit := if (limit <=? 0) || (agClosedN a <? limit) then agClosedN a else limit in
  slots a (agClosedN a - limit) (Z.to_nat limit).

Definition HistoryWithActive (a : CandleAggregator) (limit : Z) : option (list Candle) :=
  let limit := if limit <=? 0 then agClosedN a + 1 else limit in
  let room := if agHasActive a then limit - 1 else limit in
  let room := if agClosedN a <? room then agClosedN a else room in
  out ← slots a (agClosedN a - room) (Z.to_nat room);
  Some (if agHasActive a then out ++ [agActive a] else out).

Definition ClosedCount (a : CandleAggregator) : Z := agClosedN a.

Definition Agg_Reset (a : CandleAggregator) : CandleAggregator :=
  mkAgg (agSymbol a) (agInterval a) (agDepth a) zeroCandle false (agClosed a) 0 0 0.

(** ** The abstract aggregator *)

(** [agg_rep a hist act]: [a] has closed the candles [hist], oldest first, of
    which the ring holds the newest [depth], and its active candle is
    [act]. *)
Record agg_rep (a : CandleAggregator) (hist : list Candle) (act : option Candle) : Prop := {
  ar_depth : len (agClosed a) = agDepth a;
  ar_ring : ring_rep (agClosed a) (agHead a) (agClosedN a) (lastn (length (agClosed a)) hist);
  ar_active : Active a = act }.

Definition abs_state : Type := list Candle * option Candle.
Definition abs_apply (id : string) (iv : Interval) (s : abs_state) (t : Trade)
    : abs_state * bool * option Candle :=
  let '(hist, act) := s in
  if decide (trSymbol t = id) then
    match act with
    | None => ((hist, Some (NewCandle id iv t)), true, None)
    | Some c =>
        let b := ns (BucketStart iv (trTimestamp t)) in
        if decide (b = ns (cdStartTime c)) then ((hist, Some (Candle_Apply c t)), true, None)
        else if decide (ns (cdStartTime c) < b)
        then ((hist ++ [c], Some (NewCandle id iv t)), true, Some c)
        else (s, false, None)
    end
  else (s, false, None).

Lemma HistoryDepth_pos iv : 0 < HistoryDepth iv.
Proof. by destruct iv. Qed.

Lemma agg_rep_new sym iv depth : agg_rep (NewCandleAggregator sym iv depth) [] None.
Proof.
  pose proof (HistoryDepth_pos iv).
  assert (0 < if depth <=? 0 then HistoryDepth iv else depth) by (split_if; lia).
  split; [|apply ring_rep_empty|done]; simpl; unfold len; rewrite length_replicate; lia.
Qed.

Lemma agg_rep_reset a hist act : agg_rep a hist act -> agg_rep (Agg_Reset a) [] None.
Proof. intros [Hd Hr _]. split; [done|by eapply ring_rep_empty, rr_cap|done]. Qed.

Lemma agg_rep_push a hist act c :
  agg_rep a hist act -> agg_rep (pushClosed a c) (hist ++ [c]) act.
Proof.
  intros [Hd Hr Ha]. pose proof (ring_rep_push _ _ _ _ c Hr) as Hp.
  rewrite lastn_lastn_snoc, Hd in Hp.
  split; simpl; [unfold len; by rewrite length_insert|by rewrite length_insert|done].
Qed.

Lemma agg_rep_set_active a hist act c : agg_rep a hist act -> agg_rep (set_active a c) hist (Some c).
Proof. intros []. by split. Qed.

(** The aggregator simulates the abstract one. *)
Lemma Apply_simulates a hist act t :
  agg_rep a hist act ->
  let '((hist', act'), changed, closed) := abs_apply (ID (agSymbol a)) (agInterval a) (hist, act) t in
  exists a', Apply a t = (a', changed, closed) /\ agg_rep a' hist' act' /\
    agSymbol a' = agSymbol a /\ agInterval a' = agInterval a /\ agDepth a' = agDepth a.
Proof.
  intros Hr. unfold Apply, abs_apply. pose proof (ar_active _ _ _ Hr) as Hact.
  case_decide as Hs; [rewrite bool_decide_eq_true_2 by done|rewrite bool_decide_eq_false_2 by done];
    cbn [negb]; [|by eauto 10].
  unfold Active in Hact. destruct (agHasActive a) eqn:Eh; subst act; cbn [negb].
  - unfold tEqual, tAfter. repeat case_decide; split_if; try lia;
      (eexists; split; [done|]; split; [|done]).
    + by eapply agg_rep_set_active.
    + by eapply agg_rep_set_active, agg_rep_push.
    + destruct Hr as [Hd Hr _]. split; [done|done|]. unfold Active. simpl. by rewrite ?Eh.
  - eexists. split; [done|]. split; [|done]. by eapply agg_rep_set_active.
Qed.

(** ** Reading the history *)

Lemma slot_spec a hist act i :
  agg_rep a hist act -> 0 <= i < agClosedN a ->
  slot a i = lastn (length (agClosed a)) hist !! Z.to_nat i.
Proof.
  intros [Hd Hr _] Hi. rewrite <- (ring_read_spec _ _ _ _ _ Hr Hi).
  unfold slot, ring_read, idx, ring_start. rewrite Hd. pose proof (rr_cap _ _ _ _ Hr).
  pose proof (rr_head _ _ _ _ Hr). rewrite (proj2 (Z.ltb_ge _ 0)); [done|].
  apply Z.rem_nonneg; [lia|]. split_if; lia.
Qed.

Lemma slots_spec a hist act lo n :
  agg_rep a hist act -> 0 <= lo -> lo + Z.of_nat n <= agClosedN a ->
  slots a lo n = Some (take n (drop (Z.to_nat lo) (lastn (length (agClosed a)) hist))).
Proof.
  intros Hr. revert lo. induction n as [|n IH]; intros lo Hlo Hn; [done|]. cbn [slots].
  rewrite (slot_spec _ _ _ _ Hr) by lia.
  destruct (lookup_lt_is_Some_2 (lastn (length (agClosed a)) hist) (Z.to_nat lo)) as [c Hc].
  { pose proof (rr_count _ _ _ _ (ar_ring _ _ _ Hr)). unfold len in *. lia. }
  rewrite Hc. cbn [mbind option_bind]. rewrite IH by lia. cbn [mbind option_bind].
  rewrite (drop_S _ c _ Hc). cbn [take]. by rewrite Z2Nat.inj_add, Nat.add_1_r by lia.
Qed.

Lemma closedN_spec a hist act :
  agg_rep a hist act -> agClosedN a = Z.min (agDepth a) (len hist).
Proof.
  intros [Hd Hr _]. rewrite (rr_count _ _ _ _ Hr). unfold len in *. rewrite length_lastn. lia.
Qed.

Lemma slots_lastn a hist act n :
  agg_rep a hist act -> 0 <= n <= agClosedN a ->
  slots a (agClosedN a - n) (Z.to_nat n) = Some (lastn (Z.to_nat n) hist).
Proof.
  intros Hr Hn. pose proof (closedN_spec _ _ _ Hr) as Hc. pose proof (ar_depth _ _ _ Hr) as Hd.
  unfold len in *. rewrite (slots_spec _ _ _ _ _ Hr) by lia.
  rewrite <- (lastn_lastn (Z.to_nat n) (length (agClosed a))) by lia.
  unfold lastn at 2. rewrite take_ge; [|rewrite length_drop, length_lastn; lia].
  do 2 f_equal. rewrite length_lastn. lia.
Qed.

(** ** The candles of a trade stream *)

Definition bucket (iv : Interval) (t : Trade) : Z := ns (BucketStart iv (trTimestamp t)).

(** The trades of the market that do not arrive in an already closed
    bucket; [cur] is the bucket of the last accepted trade. *)
Fixpoint on_time (id : string) (iv : Interval) (cur : option Z) (ts : list Trade) : list Trade :=
  match ts with
  | [] => []
  | t :: ts =>
      if bool_decide (trSymbol t = id) && from_option (fun c => c <=? bucket iv t) true cur
      then t :: on_time id iv (Some (bucket iv t)) ts
      else on_time id iv cur ts
  end.

(** Consecutive trades of one bucket. *)
Fixpoint groups (iv : Interval) (ts : list Trade) : list (list Trade) :=
  match ts with
  | [] => []
  | t :: ts =>
      match groups iv ts with
      | (u :: g) :: gs =>
          if decide (bucket iv t = bucket iv u) then (t :: u :: g) :: gs
          else [t] :: (u :: g) :: gs
      | _ => [[t]]
      end
  end.

Definition max_of (d : Z) (l : list Z) : Z := foldr Z.max d l.
Definition min_of (d : Z) (l : list Z) : Z := foldr Z.min d l.

(** Open, high, low, close, volume, count of one bucket's trades. *)
Definition candle_of (id : string) (iv : Interval) (g : list Trade) : Candle :=
  match g with
  | [] => zeroCandle
  | t :: r =>
      let lst := default t (last r) in
      mkCandle id iv (BucketStart iv (trTimestamp t))
        (trPrice t) (max_of (trPrice t) (trPrice <$> r)) (min_of (trPrice t) (trPrice <$> r))
        (trPrice lst)
        (i64 (total (trQuantity <$> g))) (i64 (len g)) (trID lst)
  end.

Definition candles (id : string) (iv : Interval) (ts : list Trade) : list Candle :=
  candle_of id iv <$> groups iv (on_time id iv None ts).

Lemma max_of_snoc d l x : max_of d (l ++ [x]) = Z.max (max_of d l) x.
Proof. unfold max_of. induction l as [|y l IH]; simpl; [lia|]. rewrite IH. lia. Qed.
Lemma min_of_snoc d l x : min_of d (l ++ [x]) = Z.min (min_of d l) x.
Proof. unfold min_of. induction l as [|y l IH]; simpl; [lia|]. rewrite IH. lia. Qed.

Lemma candle_of_new id iv t : in_i64 (trQuantity t) -> candle_of id iv [t] = NewCandle id iv t.
Proof. intros Hq. unfold candle_of, NewCandle. simpl. by rewrite Z.add_0_r, i64_small. Qed.

(** [Candle.Apply] extends the summary by one trade. *)
Lemma candle_of_snoc id iv g t :
  g <> [] -> candle_of id iv (g ++ [t]) = Candle_Apply (candle_of id iv g) t.
Proof.
  destruct g as [|u r]; [done|]. intros _. rewrite <- app_comm_cons. unfold candle_of, Candle_Apply.
  cbv zeta. rewrite last_snoc, !fmap_app. cbn [default cdOpen cdHigh cdLow cdClose cdVolume
    cdTradeCount cdSourceSequence cdSymbol cdInterval cdStartTime].
  cbn [fmap list_fmap]. rewrite max_of_snoc, min_of_snoc, Cmp_gt, Cmp_lt.
  f_equal; [split_if; lia|split_if; lia| |].
  - unfold Qty.Add. rewrite fmap_app, app_comm_cons, total_app, i64_add_l. f_equal. simpl. lia.
  - rewrite i64_add_l. f_equal. unfold len. cbn [length]. rewrite length_app. simpl. lia.
Qed.

Lemma groups_cons_same iv g :
  g <> [] -> (forall t u, t ∈ g -> u ∈ g -> bucket iv t = bucket iv u) -> groups iv g = [g].
Proof.
  induction g as [|t g IH]; intros Hne Hb; [done|]. cbn [groups].
  destruct g as [|u g]; [done|]. rewrite IH; [|done|intros; apply Hb; by right].
  rewrite decide_True; [done|]. apply Hb; [by left|right; by left].
Qed.

Lemma groups_head iv t ts : exists g gs, groups iv (t :: ts) = (t :: g) :: gs.
Proof.
  cbn [groups]. destruct (groups iv ts) as [|[|u g] gs]; [by eauto|by eauto|].
  case_decide; by eauto.
Qed.

Lemma groups_app iv g u ts :
  g <> [] -> (forall t, t ∈ g -> bucket iv t <> bucket iv u) ->
  (forall t t', t ∈ g -> t' ∈ g -> bucket iv t = bucket iv t') ->
  groups iv (g ++ u :: ts) = g :: groups iv (u :: ts).
Proof.
  induction g as [|t g IH]; intros Hne Hu Hb; [done|]. destruct g as [|t' g].
  - cbn [app]. destruct (groups_head iv u ts) as (g & gs & E).
    cbn [groups] in E |- *. rewrite E. rewrite decide_False; [done|]. apply Hu. by left.
  - rewrite <- app_comm_cons. cbn [groups].
    change (groups iv ((t' :: g) ++ u :: ts)) with (groups iv ((t' :: g) ++ u :: ts)).
    rewrite IH; [|done|intros; apply Hu; by right|intros; apply Hb; by right].
    rewrite decide_True; [done|]. apply Hb; [by left|right; by left].
Qed.

(** ** Running a stream *)

(** Folds the trades one by one; the second component collects the candles
    that closed, in order. *)
Definition step (s : CandleAggregator * list Candle) (t : Trade) : CandleAggregator * list Candle :=
  let '(a, out) := s in
  let '(a', _, closed) := Apply a t in (a', out ++ option_list closed).
Definition run (a : CandleAggregator) (ts : list Trade) : CandleAggregator * list Candle :=
  fold_left step ts (a, []).

(** The invariant of a run: [done_] are the accepted trades whose buckets are
    closed, [g] those of the active bucket. *)
Record run_inv (id : string) (iv : Interval) (d : Z) (s : CandleAggregator * list Candle)
    (hist : list Candle) (g : list Trade) : Prop := {
  ri_rep : agg_rep (fst s) hist (match g with [] => None | _ => Some (candle_of id iv g) end);
  ri_out : snd s = hist;
  ri_sym : ID (agSymbol (fst s)) = id;
  ri_iv : agInterval (fst s) = iv;
  ri_depth : agDepth (fst s) = d;
  ri_hist : g = [] -> hist = [];
  ri_bucket : forall t u, t ∈ g -> u ∈ g -> bucket iv t = bucket iv u }.

Lemma candle_of_start id iv t g :
  (forall t u, t ∈ g -> u ∈ g -> bucket iv t = bucket iv u) -> t ∈ g ->
  ns (cdStartTime (candle_of id iv g)) = bucket iv t.
Proof. destruct g as [|u g]; [by intros _ ?%elem_of_nil|]. intros Hb Ht. simpl. apply Hb; [by left|done]. Qed.

(** One trade: what the run so far and the trades to come amount to is the same
    before and after it. *)
Lemma candle_step_spec id iv d t ts s hist g :
  in_i64 (trQuantity t) -> run_inv id iv d s hist g ->
  exists hist' g', run_inv id iv d (step s t) hist' g' /\
    hist' ++ (candle_of id iv <$> groups iv (g' ++ on_time id iv (bucket iv <$> head g') ts)) =
      hist ++ (candle_of id iv <$> groups iv (g ++ on_time id iv (bucket iv <$> head g) (t :: ts))).
Proof.
  intros Hqt Hi. cbn [on_time]. destruct s as [a out], Hi as [Hr Hout Hs Hiv Hd Hh Hb]. cbn [fst snd] in *.
  pose proof (Apply_simulates _ _ _ t Hr) as Hsim. rewrite Hs, Hiv in Hsim. unfold abs_apply in Hsim.
  assert (Hone : forall x y, x ∈ [t] -> y ∈ [t] -> bucket iv x = bucket iv y) by (by intros x y ->%list_elem_of_singleton ->%list_elem_of_singleton).
  case_bool_decide as Hid; [rewrite decide_True in Hsim by done|rewrite decide_False in Hsim by done];
    cbn [andb]; fold (bucket iv t) in Hsim.
  2: { destruct Hsim as (a' & Ha & Hr' & E1 & E2 & E3). exists hist, g. split; [|done].
       unfold step. rewrite Ha. split; cbn [fst snd option_list]; rewrite ?app_nil_r; done || congruence. }
  destruct g as [|u g]; cbn [fmap option_fmap option_map head from_option app] in *.
  { destruct Hsim as (a' & Ha & Hr' & E1 & E2 & E3). exists hist, [t]. split; [|done]. unfold step. rewrite Ha.
    split; cbn [fst snd option_list]; rewrite ?app_nil_r, ?candle_of_new by done; done || congruence. }
  rewrite (candle_of_start id iv u) in Hsim by (done || by left).
  case_decide as Hsame; [|case_decide as Hafter]; destruct Hsim as (a' & Ha & Hr' & E1 & E2 & E3).
  - rewrite (proj2 (Z.leb_le _ _)) by lia. exists hist, ((u :: g) ++ [t]). split.
    + unfold step. rewrite Ha. split; cbn [fst snd option_list app]; rewrite ?app_nil_r; try congruence.
      * rewrite app_comm_cons, candle_of_snoc by done. done.
      * rewrite app_comm_cons.
        intros x y [Hx|Hx%list_elem_of_singleton]%elem_of_app [Hy|Hy%list_elem_of_singleton]%elem_of_app;
          subst; rewrite ?(Hb x u Hx ltac:(by left)), ?(Hb y u Hy ltac:(by left)); done.
    + rewrite <- app_assoc. cbn [app head fmap option_fmap option_map]. by rewrite Hsame.
  - rewrite (proj2 (Z.leb_le _ _)) by lia. exists (hist ++ [candle_of id iv (u :: g)]), [t]. split.
    + unfold step. rewrite Ha.
      split; cbn [fst snd option_list app]; rewrite ?candle_of_new by done; try congruence; [by rewrite Hout|done].
    + rewrite <- app_assoc. cbn [app head fmap option_fmap option_map].
      rewrite app_comm_cons, groups_app; [done|done| |done]. intros x Hx. rewrite (Hb x u Hx ltac:(by left)). lia.
  - rewrite (proj2 (Z.leb_gt _ _)) by lia. exists hist, (u :: g). split; [|done].
    unfold step. rewrite Ha. split; cbn [fst snd option_list]; rewrite ?app_nil_r; done || congruence.
Qed.

Lemma run_spec id iv d ts s hist g :
  Forall (fun t => in_i64 (trQuantity t)) ts -> run_inv id iv d s hist g ->
  exists hist' g', run_inv id iv d (fold_left step ts s) hist' g' /\
    hist' ++ (match g' with [] => [] | _ => [candle_of id iv g'] end) =
      hist ++ (candle_of id iv <$> groups iv (g ++ on_time id iv (bucket iv <$> head g) ts)).
Proof.
  intros Hq. revert s hist g. induction Hq as [|t ts Hqt Hq IH]; intros s hist g Hi; cbn [fold_left].
  { exists hist, g. split; [done|]. cbn [on_time]. rewrite app_nil_r.
    destruct g as [|u g]; [done|]. by rewrite groups_cons_same by (done || apply Hi). }
  destruct (candle_step_spec id iv d t ts s hist g Hqt Hi) as (h1 & g1 & H1 & E1).
  destruct (IH _ _ _ H1) as (h' & g' & H' & E'). exists h', g'. split; [done|congruence].
Qed.

Lemma run_new sym iv depth ts :
  Forall (fun t => in_i64 (trQuantity t)) ts ->
  exists hist act, agg_rep (fst (run (NewCandleAggregator sym iv depth) ts)) hist act /\
    snd (run (NewCandleAggregator sym iv depth) ts) = hist /\
    agDepth (fst (run (NewCandleAggregator sym iv depth) ts)) =
      (if depth <=? 0 then HistoryDepth iv else depth) /\
    hist ++ option_list act = candles (ID sym) iv ts /\ (act = None -> hist = []).
Proof.
  intros Hq. destruct (run_spec (ID sym) iv (if depth <=? 0 then HistoryDepth iv else depth) ts
    (NewCandleAggregator sym iv depth, []) [] [] Hq) as (hist & g & [Hr Ho _ _ Hd Hh _] & E).
  { split; try done; [apply agg_rep_new|]. intros t u ?%elem_of_nil. done. }
  exists hist, (match g with [] => None | _ => Some (candle_of (ID sym) iv g) end).
  split; [done|]. split; [done|]. split; [done|]. cbn [app head fmap option_fmap option_map] in E.
  fold (candles (ID sym) iv ts) in E. rewrite <- E.
  destruct g; [by split; auto|done].
Qed.

(** The bound on the length of a history request. *)
Definition history_bound (depth limit : Z) : nat :=
  Z.to_nat (if limit <=? 0 then depth + 1 else Z.min limit (depth + 1)).

Lemma HistoryWithActive_spec a hist act limit :
  agg_rep a hist act -> (act = None -> hist = []) ->
  HistoryWithActive a limit =
    Some (lastn (history_bound (agDepth a) limit) (hist ++ option_list act)).
Proof.
  intros Hr Hne. unfold HistoryWithActive, history_bound. pose proof (closedN_spec _ _ _ Hr) as Hc.
  pose proof (rr_cap _ _ _ _ (ar_ring _ _ _ Hr)) as Hcap. rewrite (ar_depth _ _ _ Hr) in Hcap.
  pose proof (ar_active _ _ _ Hr) as Ha. unfold Active in Ha.
  assert (Hl : 0 <= len hist) by (unfold len; lia).
  destruct (agHasActive a) eqn:Eh; subst act.
  - set (lim := if limit <=? 0 then agClosedN a + 1 else limit).
    set (room := if agClosedN a <? lim - 1 then agClosedN a else lim - 1).
    assert (Hroom : 0 <= room <= agClosedN a) by (unfold room, lim; split_if; lia).
    cbv zeta. fold lim room.
    rewrite (slots_lastn _ _ _ _ Hr Hroom). cbn [mbind option_bind option_list]. f_equal.
    rewrite <- lastn_snoc, <- (lastn_min (S (Z.to_nat room))), <- (lastn_min (Z.to_nat (if _ : bool then _ else _))).
    change (option_list (Some (agActive a))) with [agActive a].
    f_equal. rewrite length_app. cbn [length]. clear Hroom. unfold room, lim, len in *.
    destruct (limit <=? 0) eqn:El; bool_to_prop; split_if; lia.
  - rewrite (Hne eq_refl) in *. cbn [option_list app]. unfold len in Hc. cbn [length] in Hc.
    replace (agClosedN a) with 0 by lia. cbv zeta.
    set (lim := if limit <=? 0 then 0 + 1 else limit).
    assert (Hlim : 1 <= lim) by (unfold lim; split_if; lia).
    by rewrite (proj2 (Z.ltb_lt 0 lim)) by lia.
Qed.

(** C7: Feeding any sequence of trades to a fresh aggregator yields exactly
    the open/high/low/close/volume/count summaries of the trades grouped by
    bucket, where trades of another market and trades older than the active
    bucket are ignored.  A candle is reported as closed once, in order, and
    never rewritten; and the history functions return the newest summaries in
    ascending order, up to the requested limit and the depth of the ring. *)
Theorem aggregation_correct sym iv depth ts limit :
  Forall (fun t => in_i64 (trQuantity t)) ts ->
  let '(a, closed) := run (NewCandleAggregator sym iv depth) ts in
  let cs := candles (ID sym) iv ts in
  let d := if depth <=? 0 then HistoryDepth iv else depth in
  closed = take (pred (length cs)) cs /\ Active a = last cs /\
  HistoryWithActive a limit = Some (lastn (history_bound d limit) cs) /\
  History a limit = Some (lastn (Z.to_nat (if limit <=? 0 then d else Z.min limit d)) closed).
Proof.
  intros Hq. destruct (run_new sym iv depth ts Hq) as (hist & act & Hr & Ho & Hd & E & Hne).
  destruct (run _ _) as [a closed]. cbn [fst snd] in *. subst closed. cbv zeta.
  rewrite <- E. rewrite <- Hd. split; [|split; [|split]].
  - destruct act as [c|]; [change (option_list (Some c)) with [c]|by rewrite (Hne eq_refl)].
    rewrite length_app. cbn [length]. rewrite Nat.add_1_r. cbn [pred]. by rewrite take_app_length.
  - rewrite (ar_active _ _ _ Hr). destruct act as [c|]; [|by rewrite (Hne eq_refl)].
    change (option_list (Some c)) with [c]. by rewrite last_snoc.
  - by apply HistoryWithActive_spec.
  - unfold History. pose proof (closedN_spec _ _ _ Hr) as Hc.
    pose proof (rr_cap _ _ _ _ (ar_ring _ _ _ Hr)) as Hcap. rewrite (ar_depth _ _ _ Hr) in Hcap.
    assert (Hl : 0 <= len hist) by (unfold len; lia).
    rewrite (slots_lastn _ _ _ _ Hr) by (split_if; lia). f_equal.
    rewrite <- (lastn_min (Z.to_nat (if (limit <=? 0) || _ then _ else _))),
      <- (lastn_min (Z.to_nat (if limit <=? 0 then _ else _))).
    f_equal. unfold len in *. destruct (limit <=? 0) eqn:El; cbn [orb]; bool_to_prop; split_if; lia.
Qed.

(** Two five-minute buckets of a small stream, with one late trade. *)
Definition demo_trade (n s p q : Z) : Trade :=
  mkTrade n "BTCUSDT" (unixNanos ((1789649700 + s) * Second)) p q SideBuy.
Definition demo_trades : list Trade :=
  [demo_trade 1 0 100 5; demo_trade 2 20 103 1; demo_trade 3 300 101 2; demo_trade 4 299 90 9].

Lemma demo_trades_range : Forall (fun t => in_i64 (trQuantity t)) demo_trades.
Proof. repeat constructor; vm_compute; discriminate. Qed.

Example aggregation_correct_witness :
  let '(a, closed) := run (NewCandleAggregator BTCUSDT Interval5m 3) demo_trades in
  History a 10 = Some closed /\ length closed = 1%nat /\
  (cdHigh <$> closed) = [103] /\ (cdVolume <$> closed) = [6] /\
  HistoryWithActive a 1 = Some (lastn 1 (candles "BTCUSDT" Interval5m demo_trades)).
Proof.
  pose proof (aggregation_correct BTCUSDT Interval5m 3 demo_trades 10 demo_trades_range) as H10.
  pose proof (aggregation_correct BTCUSDT Interval5m 3 demo_trades 1 demo_trades_range) as H1.
  destruct (run _ _) as [a closed]. destruct H10 as (Hc & _ & _ & Hh). destruct H1 as (_ & _ & Ha & _).
  rewrite Hh, Hc, Ha. repeat split; vm_compute; reflexivity.
Defined.

(** ** Validity and order of the candles *)

Lemma groups_cases iv t ts :
  (ts = [] /\ groups iv (t :: ts) = [[t]]) \/
  exists u r g gs, ts = u :: r /\ groups iv ts = (u :: g) :: gs /\
    groups iv (t :: ts) =
      if decide (bucket iv t = bucket iv u) then (t :: u :: g) :: gs else [t] :: (u :: g) :: gs.
Proof.
  destruct ts as [|u r]; [by left|right].
  destruct (groups_head iv u r) as (g & gs & E). exists u, r, g, gs.
  split; [done|]. split; [done|]. change (groups iv (t :: u :: r)) with
    (match groups iv (u :: r) with
     | (u :: g) :: gs => if decide (bucket iv t = bucket iv u) then (t :: u :: g) :: gs
                         else [t] :: (u :: g) :: gs
     | _ => [[t]] end). by rewrite E.
Qed.

Lemma groups_concat iv ts : concat (groups iv ts) = ts.
Proof.
  induction ts as [|t ts IH]; [done|].
  destruct (groups_cases iv t ts) as [[-> ->]|(u & r & g & gs & -> & E & ->)]; [done|].
  rewrite E in IH. case_decide; simpl in *; by f_equal.
Qed.

Lemma groups_nonempty iv ts : Forall (fun g => g <> []) (groups iv ts).
Proof.
  induction ts as [|t ts IH]; [constructor|].
  destruct (groups_cases iv t ts) as [[-> ->]|(u & r & g & gs & -> & E & ->)]; [by repeat constructor|].
  rewrite E in IH. inversion IH; subst. case_decide; by repeat constructor.
Qed.

Definition start_of (iv : Interval) (g : list Trade) : Z := default 0 (bucket iv <$> head g).

Lemma groups_sorted iv ts :
  StronglySorted (fun t u => bucket iv t <= bucket iv u) ts ->
  StronglySorted (fun g h => start_of iv g < start_of iv h) (groups iv ts).
Proof.
  induction 1 as [|t ts Hs IH Hf]; [constructor|].
  destruct (groups_cases iv t ts) as [[-> ->]|(u & r & g & gs & -> & E & ->)];
    [by repeat constructor|].
  rewrite E in IH. inversion Hf as [|? ? Htu _]; subst.
  pose proof IH as [IHgs IHf]%StronglySorted_inv.
  assert (Hst : forall x l, start_of iv (x :: l) = bucket iv x) by done.
  case_decide as Hb.
  - constructor; [done|]. eapply Forall_impl; [exact IHf|]. cbn beta. intros h.
    rewrite !Hst. lia.
  - constructor; [done|]. constructor; [rewrite !Hst; lia|].
    eapply Forall_impl; [exact IHf|]. cbn beta. intros h. rewrite !Hst. lia.
Qed.

Lemma on_time_sorted id iv cur ts :
  StronglySorted (fun t u => bucket iv t <= bucket iv u) (on_time id iv cur ts) /\
  Forall (fun t => from_option (fun c => c <= bucket iv t) True cur) (on_time id iv cur ts).
Proof.
  revert cur. induction ts as [|t ts IH]; intros cur; cbn [on_time]; [by repeat constructor|].
  destruct (_ && _) eqn:E; [|apply IH]. apply andb_true_iff in E as [_ E].
  destruct (IH (Some (bucket iv t))) as [Hs Hf]. split; [by constructor|].
  destruct cur as [c|]; cbn [from_option] in *; bool_to_prop; constructor; try done.
  - eapply Forall_impl; [exact Hf|]. cbn beta. intros; lia.
  - by eapply Forall_impl; [exact Hf|].
Qed.

Lemma on_time_sublist id iv cur ts : on_time id iv cur ts `sublist_of` ts.
Proof.
  revert cur. induction ts as [|t ts IH]; intros cur; cbn [on_time]; [done|].
  destruct (_ && _); by constructor.
Qed.

Lemma total_sublist (k l : list Trade) :
  k `sublist_of` l -> Forall (fun t => 0 <= trQuantity t) l ->
  total (trQuantity <$> k) <= total (trQuantity <$> l).
Proof.
  assert (Hcons : forall t l, total (trQuantity <$> t :: l) = trQuantity t + total (trQuantity <$> l))
    by done.
  induction 1 as [|t k l _ IH|t k l _ IH]; intros Hf; [done| |]; inversion Hf; subst;
    rewrite ?Hcons; specialize (IH ltac:(done)); lia.
Qed.

Lemma max_of_ge d l x : x = d \/ x ∈ l -> x <= max_of d l.
Proof.
  unfold max_of. induction l as [|y l IH]; simpl; [by intros [->|?%elem_of_nil]|].
  intros [->|[->|Hx]%elem_of_cons]; [specialize (IH (or_introl eq_refl))| |specialize (IH (or_intror Hx))]; lia.
Qed.
Lemma min_of_le d l x : x = d \/ x ∈ l -> min_of d l <= x.
Proof.
  unfold min_of. induction l as [|y l IH]; simpl; [by intros [->|?%elem_of_nil]|].
  intros [->|[->|Hx]%elem_of_cons]; [specialize (IH (or_introl eq_refl))| |specialize (IH (or_intror Hx))]; lia.
Qed.

Lemma candle_of_valid id iv g :
  g <> [] -> 0 <= total (trQuantity <$> g) <= MaxInt64 -> len g <= MaxInt64 ->
  Candle_Validate (candle_of id iv g) = None.
Proof.
  destruct g as [|t r]; [done|]. intros _ Hq Hl. unfold candle_of, Candle_Validate. cbv zeta.
  cbn [cdTradeCount cdVolume cdHigh cdLow cdOpen cdClose cdStartTime].
  rewrite (i64_small (len _)), (i64_small (total _)) by (unfold in_i64, len in *; cbn [length] in *; lia).
  rewrite (proj2 (Z.leb_gt (len (t :: r)) 0)) by (unfold len; cbn [length]; lia).
  unfold Qty.IsNegative. rewrite (proj2 (Z.ltb_ge (total _) 0)) by lia.
  set (lst := default t (last r)).
  assert (Hin : trPrice lst = trPrice t \/ trPrice lst ∈ (trPrice <$> r)).
  { unfold lst. destruct (last r) as [y|] eqn:E; [right|by left].
    apply last_Some in E as [k ->]. apply list_elem_of_fmap_2. apply elem_of_app. right. by left. }
  pose proof (max_of_ge (trPrice t) _ _ Hin). pose proof (min_of_le (trPrice t) _ _ Hin).
  pose proof (max_of_ge (trPrice t) (trPrice <$> r) _ (or_introl eq_refl)).
  pose proof (min_of_le (trPrice t) (trPrice <$> r) _ (or_introl eq_refl)).
  rewrite !Cmp_lt, Cmp_gt. unfold MaxPrice, MinPrice.
  rewrite !(proj2 (Z.ltb_ge _ _)) by (split_if; lia).
  rewrite bool_decide_eq_true_2; [done|]. unfold BucketStart, tTruncate. by destruct (_ <=? _).
Qed.

Lemma elem_total (g : list Trade) gs :
  g ∈ gs -> Forall (fun t => 0 <= trQuantity t) (concat gs) ->
  0 <= total (trQuantity <$> g) <= total (trQuantity <$> concat gs).
Proof.
  intros (k1 & k2 & ->)%list_elem_of_split Hf. rewrite concat_app in *. cbn [concat] in *.
  rewrite !fmap_app, !total_app. rewrite !Forall_app in Hf. destruct Hf as (H1 & H2 & H3).
  assert (Hnn : forall l, Forall (fun t => 0 <= trQuantity t) l -> 0 <= total (trQuantity <$> l))
    by (intros l; induction 1 as [|x l Hx _ IH]; [done|];
        change (total (trQuantity <$> x :: l)) with (trQuantity x + total (trQuantity <$> l)); lia).
  pose proof (Hnn _ H1). pose proof (Hnn _ H2). pose proof (Hnn _ H3). lia.
Qed.

Lemma elem_length (g : list Trade) gs : g ∈ gs -> (length g <= length (concat gs))%nat.
Proof.
  intros (k1 & k2 & ->)%list_elem_of_split. rewrite concat_app, !length_app. cbn [concat].
  rewrite length_app. lia.
Qed.

(** As long as quantities are non-negative and the stream's total
    quantity and length fit 64 bits, every candle the aggregator produces
    passes [Candle.Validate], and their start times strictly increase: a chart
    never sees two candles for one bucket or a candle out of order. *)
Theorem candles_valid_ascending id iv ts :
  Forall (fun t => 0 <= trQuantity t) ts -> total (trQuantity <$> ts) <= MaxInt64 ->
  len ts <= MaxInt64 ->
  Forall (fun c => Candle_Validate c = None) (candles id iv ts) /\
  StronglySorted (fun c d => ns (cdStartTime c) < ns (cdStartTime d)) (candles id iv ts).
Proof.
  intros Hq Ht Hl. unfold candles. pose proof (on_time_sublist id iv None ts) as Hsub.
  pose proof (total_sublist _ _ Hsub Hq) as Htot. pose proof (sublist_length _ _ Hsub) as Hlen.
  assert (Hq' : Forall (fun t => 0 <= trQuantity t) (on_time id iv None ts))
    by (apply Forall_forall; intros t Hin; rewrite Forall_forall in Hq; apply Hq;
        by eapply elem_of_sublist).
  pose proof (groups_concat iv (on_time id iv None ts)) as Hc.
  pose proof (groups_nonempty iv (on_time id iv None ts)) as Hne.
  pose proof (groups_sorted iv _ (proj1 (on_time_sorted id iv None ts))) as Hs.
  split.
  - apply Forall_fmap, Forall_forall. intros g Hg. cbn [compose].
    rewrite Forall_forall in Hne. rewrite <- Hc in Hq', Htot, Hlen.
    pose proof (elem_total _ _ Hg Hq'). pose proof (elem_length _ _ Hg).
    apply candle_of_valid; [by apply Hne|lia|unfold len in *; lia].
  - revert Hne Hs. generalize (groups iv (on_time id iv None ts)). clear.
    induction l as [|g gs IH]; intros Hne Hs; [constructor|]. inversion Hne; subst.
    apply StronglySorted_inv in Hs as [Hs Hf]. constructor; [by apply IH|].
    apply Forall_fmap. rewrite Forall_forall in Hf, H2. apply Forall_forall. intros h Hh.
    specialize (Hf h Hh). specialize (H2 h Hh). by destruct g, h.
Qed.

Example candles_valid_ascending_witness :
  Forall (fun c => Candle_Validate c = None) (candles "BTCUSDT" Interval5m demo_trades) /\
  length (candles "BTCUSDT" Interval5m demo_trades) = 2%nat.
Proof.
  split; [|reflexivity].
  apply candles_valid_ascending; [repeat constructor; vm_compute; discriminate|vm_compute; discriminate..].
Defined.

(** ** The abstract aggregator computes the candles *)

Definition abs_run (id : string) (iv : Interval) (ts : list Trade) : abs_state :=
  fold_left (fun s t => fst (fst (abs_apply id iv s t))) ts ([], None).

Lemma abs_run_snoc id iv ts t :
  abs_run id iv (ts ++ [t]) = fst (fst (abs_apply id iv (abs_run id iv ts) t)).
Proof. unfold abs_run. by rewrite fold_left_app. Qed.

Lemma abs_apply_closed id iv hist act t :
  let '((hist', _), _, closed) := abs_apply id iv (hist, act) t in
  hist' = hist ++ option_list closed.
Proof.
  unfold abs_apply. case_decide; [|by rewrite app_nil_r].
  destruct act; [|by rewrite app_nil_r]. repeat case_decide; try by rewrite app_nil_r. done.
Qed.

Lemma run_lockstep id iv a ts :
  ID (agSymbol a) = id -> agInterval a = iv -> agg_rep a [] None ->
  let s := run a ts in
  agg_rep (fst s) (fst (abs_run id iv ts)) (snd (abs_run id iv ts)) /\
  snd s = fst (abs_run id iv ts) /\
  agSymbol (fst s) = agSymbol a /\ agInterval (fst s) = agInterval a /\ agDepth (fst s) = agDepth a.
Proof.
  intros Hs Hiv Ha. cbv zeta. rewrite <- (rev_involutive ts).
  induction (rev ts) as [|t l IH]; [done|]. cbn [rev]. unfold run. rewrite fold_left_app, abs_run_snoc.
  fold (run a (rev l)). destruct (run a (rev l)) as [a' out]. cbn [fst snd] in IH.
  destruct IH as (Hr & -> & E1 & E2 & E3). destruct (abs_run id iv (rev l)) as [hist act].
  cbn [fst snd] in *. pose proof (Apply_simulates _ _ _ t Hr) as Hsim.
  pose proof (abs_apply_closed id iv hist act t) as Hcl. rewrite E1, E2, Hs, Hiv in Hsim.
  destruct (abs_apply id iv (hist, act) t) as [[[hist' act'] changed] closed].
  destruct Hsim as (a2 & Hap & Hr2 & F1 & F2 & F3). cbn [fold_left step]. rewrite Hap.
  cbn [fst snd]. rewrite Hcl in *. split_and!; done || congruence.
Qed.

Lemma abs_run_candles sym iv ts :
  Forall (fun t => in_i64 (trQuantity t)) ts ->
  fst (abs_run (ID sym) iv ts) ++ option_list (snd (abs_run (ID sym) iv ts)) = candles (ID sym) iv ts /\
  (snd (abs_run (ID sym) iv ts) = None -> fst (abs_run (ID sym) iv ts) = []).
Proof.
  intros Hq. destruct (run_new sym iv 1 ts Hq) as (hist & act & Hr & Ho & _ & E & Hne).
  destruct (run_lockstep (ID sym) iv (NewCandleAggregator sym iv 1) ts eq_refl eq_refl
    (agg_rep_new sym iv 1)) as (Hr' & Ho' & _).
  pose proof (ar_active _ _ _ Hr) as A1. pose proof (ar_active _ _ _ Hr') as A2.
  rewrite <- Ho', <- A2, Ho, A1. done.
Qed.
