(* ===== verification/Tape.v ===== *)
(** * The trade tape: [internal/market/trades.go]

    A [TradeRing] keeps the newest trades; it refines the list of every trade
    pushed since the last reset. *)

From S2P Require Import Prelude Money GoTime Domain Ring.

Definition zeroTrade : Trade := mkTrade 0 "" zeroTime 0 0 SideUnknown.

Record TradeRing := mkRing { rgBuf : list Trade; rgHead : Z; rgCount : Z }.

Definition NewTradeRing (capacity : Z) : TradeRing :=
  let capacity := if capacity <? 1 then 200 else capacity in
  mkRing (replicate (Z.to_nat capacity) zeroTrade) 0 0.

Definition Push (r : TradeRing) (t : Trade) : TradeRing :=
  mkRing (<[Z.to_nat (rgHead r) := t]> (rgBuf r))
    (Z.rem (rgHead r + 1) (len (rgBuf r)))
    (if rgCount r <? len (rgBuf r) then rgCount r + 1 else rgCount r).

Definition Ring_Len (r : TradeRing) : Z := rgCount r.

(** An index out of range is a panic. *)
Definition cell (r : TradeRing) (i : Z) : option Trade :=
  if i <? 0 then None else rgBuf r !! Z.to_nat i.

Fixpoint recent (r : TradeRing) (i : Z) (n : nat) : option (list Trade) :=
  match n with
  | O => Some []
  | S n =>
      t ← cell r (Z.rem (rgHead r - 1 - i + len (rgBuf r) * 2) (len (rgBuf r)));
      out ← recent r (i + 1) n; Some (t :: out)
  end.

Definition Recent (r : TradeRing) (limit : Z) : option (list Trade) :=
  let limit := if (limit <=? 0) || (rgCount r <? limit) then rgCount r else limit in
  recent r 0 (Z.to_nat limit).

Definition Last (r : TradeRing) : option (option Trade) :=
  if rgCount r =? 0 then Some None
  else Some <$> cell r (Z.rem (rgHead r - 1 + len (rgBuf r)) (len (rgBuf r))).

Definition Ring_Reset (r : TradeRing) : TradeRing := mkRing (rgBuf r) 0 0.

(** ** Refinement *)

Definition tape_rep (r : TradeRing) (all : list Trade) : Prop :=
  ring_rep (rgBuf r) (rgHead r) (rgCount r) (lastn (length (rgBuf r)) all).

Lemma tape_rep_new n : tape_rep (NewTradeRing n) [].
Proof.
  assert (0 < if n <? 1 then 200 else n) by (split_if; lia).
  apply ring_rep_empty. simpl. unfold len. rewrite length_replicate. lia.
Qed.

Lemma tape_rep_reset r all : tape_rep r all -> tape_rep (Ring_Reset r) [].
Proof. intros Hr. by eapply ring_rep_empty, rr_cap. Qed.

Lemma tape_rep_push r all t : tape_rep r all -> tape_rep (Push r t) (all ++ [t]).
Proof.
  intros Hr. pose proof (ring_rep_push _ _ _ _ t Hr) as Hp. rewrite lastn_lastn_snoc in Hp.
  unfold tape_rep. simpl. by rewrite length_insert.
Qed.

(** The slot [i] places before [head] holds the [i]-th newest element. *)
Lemma ring_back {A} (buf : list A) head count l i :
  ring_rep buf head count l -> 0 <= i < count ->
  buf !! Z.to_nat (Z.rem (head - 1 - i + len buf * 2) (len buf)) = l !! Z.to_nat (count - 1 - i).
Proof.
  intros Hr Hi. rewrite <- (ring_read_spec _ _ _ _ _ Hr) by lia.
  unfold ring_read, ring_start. destruct Hr as [Hcap Hh Hc Hle Hpart _].
  f_equal. f_equal.
  destruct (count =? len buf) eqn:E; bool_to_prop.
  - replace (head - 1 - i + len buf * 2) with (head + (count - 1 - i) + 1 * len buf) by lia.
    apply Z.rem_add; [lia|]. nia.
  - specialize (Hpart ltac:(lia)). subst head.
    replace (count - 1 - i + len buf * 2) with (0 + (count - 1 - i) + 2 * len buf) by lia.
    apply Z.rem_add; [lia|]. nia.
Qed.

Lemma cell_spec r all i :
  tape_rep r all -> 0 <= i < rgCount r ->
  cell r (Z.rem (rgHead r - 1 - i + len (rgBuf r) * 2) (len (rgBuf r))) =
  lastn (length (rgBuf r)) all !! Z.to_nat (rgCount r - 1 - i).
Proof.
  intros Hr Hi. unfold cell. rewrite <- (ring_back _ _ _ _ _ Hr Hi).
  destruct Hr as [Hcap Hh Hc Hle _ _]. rewrite (proj2 (Z.ltb_ge _ 0)); [done|].
  apply Z.rem_nonneg; lia.
Qed.

Lemma recent_spec r all i n :
  tape_rep r all -> 0 <= i -> i + Z.of_nat n <= rgCount r ->
  recent r i n = Some (take n (drop (Z.to_nat i) (reverse (lastn (length (rgBuf r)) all)))).
Proof.
  intros Hr. revert i. induction n as [|n IH]; intros i Hi Hn; [done|]. cbn [recent].
  rewrite (cell_spec _ _ _ Hr) by lia. pose proof (rr_count _ _ _ _ Hr) as Hc. unfold len in Hc.
  rewrite IH by lia.
  destruct (lookup_lt_is_Some_2 (lastn (length (rgBuf r)) all) (Z.to_nat (rgCount r - 1 - i)))
    as [t Ht]; [lia|].
  rewrite Ht. cbn [mbind option_bind]. rewrite (drop_S _ t (Z.to_nat i)); [cbn [take]|].
  - by replace (Z.to_nat (i + 1)) with (S (Z.to_nat i)) by lia.
  - rewrite reverse_lookup by lia. rewrite <- Ht. f_equal. lia.
Qed.

Lemma tape_run capacity ts :
  let r := fold_left Push ts (NewTradeRing capacity) in
  tape_rep r ts /\ len (rgBuf r) = if capacity <? 1 then 200 else capacity.
Proof.
  cbv zeta. rewrite <- (rev_involutive ts). induction (rev ts) as [|t l [IH IHl]]; simpl.
  - split; [apply tape_rep_new|]. simpl. unfold len. rewrite length_replicate. split_if; lia.
  - rewrite fold_left_app. simpl. split; [by apply tape_rep_push|].
    rewrite <- IHl. unfold len. by rewrite length_insert.
Qed.

Lemma Recent_rep r ts limit :
  tape_rep r ts ->
  Recent r limit = Some (take (Z.to_nat (if limit <=? 0 then len (rgBuf r)
    else Z.min limit (len (rgBuf r)))) (reverse ts)).
Proof.
  intros Hr. pose proof (rr_count _ _ _ _ Hr) as Hc. pose proof (rr_cap _ _ _ _ Hr) as Hpos.
  unfold len in Hc. rewrite length_lastn in Hc.
  assert (Hback : forall n, (n <= length (rgBuf r))%nat ->
    take n (reverse (lastn (length (rgBuf r)) ts)) = reverse (lastn n ts)).
  { intros n Hn. rewrite take_reverse. f_equal. by apply (lastn_lastn n). }
  unfold Recent. rewrite (recent_spec _ _ _ _ Hr) by (unfold len in *; split_if; lia).
  change (Z.to_nat 0) with 0%nat. rewrite drop_0, Hback by (unfold len in *; split_if; lia).
  rewrite take_reverse. unfold lastn. do 3 f_equal. unfold len in *.
  destruct (limit <=? 0) eqn:El; cbn [orb]; bool_to_prop; split_if; lia.
Qed.

(** The tape never panics and refines the list of all trades since the
    last reset: [Recent] returns the newest trades first, as many as asked for
    up to the capacity, and [Last] the newest one. *)
Theorem tape_refines capacity ts limit :
  let r := fold_left Push ts (NewTradeRing capacity) in
  let cap := if capacity <? 1 then 200 else capacity in
  Recent r limit =
    Some (take (Z.to_nat (if limit <=? 0 then cap else Z.min limit cap)) (reverse ts)) /\
  Last r = Some (last ts) /\ Ring_Len r = Z.min cap (len ts).
Proof.
  cbv zeta. destruct (tape_run capacity ts) as [Hr Hcap].
  set (r := fold_left _ _ _) in *. set (cap := if capacity <? 1 then _ else _) in *.
  assert (Hpos : 0 < cap) by (unfold cap; split_if; lia).
  pose proof (rr_count _ _ _ _ Hr) as Hc. rewrite <- Hcap. unfold len in Hc, Hcap.
  rewrite length_lastn in Hc.
  split; [|split].
  - by apply Recent_rep.
  - unfold Last. destruct (rgCount r =? 0) eqn:E0; bool_to_prop.
    + assert (Hnil : length ts = 0%nat) by (unfold len in Hcap; lia).
      by apply nil_length_inv in Hnil as ->.
    + pose proof (rr_head _ _ _ _ Hr) as Hh. pose proof (cell_spec r ts 0 Hr ltac:(lia)) as Hcell.
      replace (Z.rem (rgHead r - 1 - 0 + len (rgBuf r) * 2) (len (rgBuf r)))
        with (Z.rem (rgHead r - 1 + len (rgBuf r)) (len (rgBuf r))) in Hcell.
      2: { rewrite <- (Z.rem_add (rgHead r - 1 + len (rgBuf r)) 1) by lia || nia.
           f_equal. lia. }
      rewrite Hcell, lookup_lastn. rewrite last_lookup.
      destruct (lookup_lt_is_Some_2 ts (pred (length ts))) as [t Ht]; [lia|].
      rewrite Ht. replace (_ + _)%nat with (pred (length ts)) by (unfold len in Hcap; lia).
      by rewrite Ht.
  - unfold Ring_Len, len. unfold len in Hcap. lia.
Qed.
