(* ===== verification/SummaryFacts.v ===== *)
(** * Exactness of the 24-hour summary

    The invariant relates the ring of buckets to the list of trades in the
    window; [summary_exact] is the resulting specification. *)

From S2P Require Import Prelude Money GoTime Domain Summary.

(** ** Picking the best set bucket

    The three recomputation loops pick the set bucket with the least key. *)

Definition pick (key : summaryBucket -> Z) (acc : option summaryBucket) (b : summaryBucket)
    : option summaryBucket :=
  if negb (sbSet b) then acc
  else match acc with
       | None => Some b
       | Some a => if key b <? key a then Some b else acc
       end.
Definition best_bucket (key : summaryBucket -> Z) (bs : list summaryBucket) : option summaryBucket :=
  fold_left (pick key) bs None.

Lemma pick_fold key bs acc :
  match fold_left (pick key) bs acc with
  | None => acc = None /\ forall b, b ∈ bs -> sbSet b = false
  | Some r => (acc = Some r \/ (r ∈ bs /\ sbSet r = true)) /\
      (forall a, acc = Some a -> key r <= key a) /\
      (forall b, b ∈ bs -> sbSet b = true -> key r <= key b)
  end.
Proof.
  revert acc. induction bs as [|b bs IH]; intros acc; cbn [fold_left].
  { destruct acc as [a|].
    - split; [by left|]. split; [intros ? [= ->]; lia|]. by intros ? ?%elem_of_nil.
    - split; [done|]. by intros ? ?%elem_of_nil. }
  specialize (IH (pick key acc b)). destruct (fold_left _ _ _) as [r|].
  - destruct IH as (Hr & Ha & Hb). unfold pick in Hr, Ha.
    destruct (sbSet b) eqn:Es; cbn [negb] in *.
    + destruct acc as [a|].
      * destruct (key b <? key a) eqn:E; bool_to_prop.
        -- split; [right|split].
           ++ destruct Hr as [[= <-]|[? ?]]; split; try done; [by left|by right].
           ++ intros ? [= <-]. specialize (Ha b eq_refl). lia.
           ++ intros b' [->|Hin]%elem_of_cons Hs; [by apply Ha|by apply Hb].
        -- split; [|split].
           ++ destruct Hr as [?|[? ?]]; [by left|right; split; [by right|done]].
           ++ done.
           ++ intros b' [->|Hin]%elem_of_cons Hs; [specialize (Ha a eq_refl); lia|by apply Hb].
      * split; [right|split; [done|]].
        -- destruct Hr as [[= <-]|[? ?]]; split; try done; [by left|by right].
        -- intros b' [->|Hin]%elem_of_cons Hs; [by apply Ha|by apply Hb].
    + split; [|split; [done|]].
      * destruct Hr as [?|[? ?]]; [by left|right; split; [by right|done]].
      * intros b' [->|Hin]%elem_of_cons Hs; [congruence|by apply Hb].
  - destruct IH as [Hn Hb]. unfold pick in Hn. destruct (sbSet b) eqn:Es; cbn [negb] in Hn.
    + destruct acc as [a|]; [by destruct (_ <? _)|done].
    + split; [done|]. intros b' [->|Hin]%elem_of_cons; [done|by apply Hb].
Qed.

Lemma best_bucket_spec key bs :
  (exists b, b ∈ bs /\ sbSet b = true) ->
  exists r, best_bucket key bs = Some r /\ r ∈ bs /\ sbSet r = true /\
    forall b, b ∈ bs -> sbSet b = true -> key r <= key b.
Proof.
  intros (b & Hb & Hs). unfold best_bucket. pose proof (pick_fold key bs None) as H.
  destruct (fold_left _ _ _) as [r|]; [|destruct H as [_ H]; rewrite (H b Hb) in Hs; done].
  destruct H as ([?|[? ?]] & _ & Hmin); [done|]. by exists r.
Qed.

Lemma recomputeHigh_best s r :
  best_bucket (fun b => - sbHigh b) (suBuckets s) = Some r ->
  recomputeHigh s = mkSum (suSymbol s) (suBuckets s) (suVolume s) (sbHigh r) (suLow s) (suOpen s)
    (suLast s) (suTrades s) (suOpenAt s) (suCount s) (suNewest s).
Proof.
  unfold best_bucket, recomputeHigh. intros Hr.
  assert (H : forall bs acc,
    fold_left (fun '(found, high) b =>
      if negb (sbSet b) then (found, high)
      else if negb found || (0 <? Price.Cmp (sbHigh b) high) then (true, sbHigh b)
      else (found, high)) bs
      (match acc with None => (false, suHigh s) | Some a => (true, sbHigh a) end) =
    match fold_left (pick (fun b => - sbHigh b)) bs acc with
    | None => (false, suHigh s) | Some a => (true, sbHigh a) end).
  { induction bs as [|b bs IH]; intros acc; [done|]. cbn [fold_left]. rewrite <- IH. f_equal.
    unfold pick. destruct acc as [a|], (sbSet b); cbn [negb orb]; try done.
    rewrite Cmp_gt. split_if; try done; lia. }
  specialize (H (suBuckets s) None). cbn beta iota in H. by rewrite H, Hr.
Qed.

Lemma recomputeLow_best s r :
  best_bucket sbLow (suBuckets s) = Some r ->
  recomputeLow s = mkSum (suSymbol s) (suBuckets s) (suVolume s) (suHigh s) (sbLow r) (suOpen s)
    (suLast s) (suTrades s) (suOpenAt s) (suCount s) (suNewest s).
Proof.
  unfold best_bucket, recomputeLow. intros Hr.
  assert (H : forall bs acc,
    fold_left (fun '(found, low) b =>
      if negb (sbSet b) then (found, low)
      else if negb found || (Price.Cmp (sbLow b) low <? 0) then (true, sbLow b)
      else (found, low)) bs
      (match acc with None => (false, suLow s) | Some a => (true, sbLow a) end) =
    match fold_left (pick sbLow) bs acc with
    | None => (false, suLow s) | Some a => (true, sbLow a) end).
  { induction bs as [|b bs IH]; intros acc; [done|]. cbn [fold_left]. rewrite <- IH. f_equal.
    unfold pick. destruct acc as [a|], (sbSet b); cbn [negb orb]; try done.
    rewrite Cmp_lt. split_if; try done; lia. }
  specialize (H (suBuckets s) None). cbn beta iota in H. by rewrite H, Hr.
Qed.

Lemma recomputeOpen_best s r :
  best_bucket sbMinute (suBuckets s) = Some r ->
  recomputeOpen s = mkSum (suSymbol s) (suBuckets s) (suVolume s) (suHigh s) (suLow s) (sbOpen r)
    (suLast s) (suTrades s) (sbMinute r) (suCount s) (suNewest s).
Proof.
  unfold best_bucket, recomputeOpen. intros Hr.
  assert (H : forall bs acc,
    fold_left (fun '(found, first, open, openAt) b =>
      if negb (sbSet b) then (found, first, open, openAt)
      else if negb found || (sbMinute b <? first)
      then (true, sbMinute b, sbOpen b, sbMinute b)
      else (found, first, open, openAt)) bs
      (match acc with None => (false, 0, suOpen s, suOpenAt s)
       | Some a => (true, sbMinute a, sbOpen a, sbMinute a) end) =
    match fold_left (pick sbMinute) bs acc with
    | None => (false, 0, suOpen s, suOpenAt s)
    | Some a => (true, sbMinute a, sbOpen a, sbMinute a) end).
  { induction bs as [|b bs IH]; intros acc; [done|]. cbn [fold_left]. rewrite <- IH. f_equal.
    unfold pick. destruct acc as [a|], (sbSet b); cbn [negb orb]; try done. by split_if. }
  specialize (H (suBuckets s) None). cbn beta iota in H. by rewrite H, Hr.
Qed.

(** ** The invariant *)

Definition is_max (W : list Trade) (h : Z) : Prop :=
  (exists t, t ∈ W /\ trPrice t = h) /\ forall t, t ∈ W -> trPrice t <= h.
Definition is_min (W : list Trade) (l : Z) : Prop :=
  (exists t, t ∈ W /\ trPrice t = l) /\ forall t, t ∈ W -> l <= trPrice t.
(** The opening trade: the first to arrive in the oldest minute. *)
Definition is_open (W : list Trade) (m p : Z) : Prop :=
  (forall t, t ∈ W -> m <= minute_of t) /\
  trPrice <$> head (filter (fun t => minute_of t = m) W) = Some p.

(** A bucket that stands for the trades [g]. *)
Definition bucket_ok (b : summaryBucket) (g : list Trade) : Prop :=
  match g with
  | [] => b = zeroBucket
  | t :: _ =>
      sbSet b = true /\ (forall u, u ∈ g -> minute_of u = sbMinute b) /\
      sbVolume b = i64 (total (trQuantity <$> g)) /\ sbTrades b = i64 (len g) /\
      is_max g (sbHigh b) /\ is_min g (sbLow b) /\ sbOpen b = trPrice t
  end.

Definition slot_of (j : Z) (W : list Trade) : list Trade :=
  filter (fun t => bucketIndex (minute_of t) = j) W.
Definition set_count (bs : list summaryBucket) : Z := len (filter (fun b => sbSet b = true) bs).

Record core_inv (s : Summary24h) (W : list Trade) (lo : Z) : Prop := {
  si_len : len (suBuckets s) = summaryBuckets;
  si_slot : forall j, 0 <= j < summaryBuckets -> bucket_ok (bucket_at s j) (slot_of j W);
  si_range : forall t, t ∈ W -> lo < minute_of t <= suNewest s;
  si_lo : suNewest s - summaryBuckets <= lo;
  si_volume : suVolume s = i64 (total (trQuantity <$> W));
  si_trades : suTrades s = i64 (len W);
  si_count : suCount s = set_count (suBuckets s) }.

Record summary_inv (s : Summary24h) (W : list Trade) (lo : Z) : Prop := {
  si_core : core_inv s W lo;
  si_high : W <> [] -> is_max W (suHigh s);
  si_low : W <> [] -> is_min W (suLow s);
  si_open : W <> [] -> is_open W (suOpenAt s) (suOpen s) }.

Lemma bucketIndex_mod m : bucketIndex m = m `mod` summaryBuckets.
Proof.
  unfold bucketIndex, summaryBuckets. change (24 * 60) with 1440.
  pose proof (Z.rem_bound_abs m 1440 ltac:(lia)).
  rewrite Z.rem_mod_nonneg by lia. rewrite <- (Z.mod_add m (Z.quot m 1440 * -1 + 1)) by lia.
  f_equal. pose proof (Z.quot_rem' m 1440). lia.
Qed.

Lemma bucketIndex_range m : 0 <= bucketIndex m < summaryBuckets.
Proof. rewrite bucketIndex_mod. by apply Z.mod_pos_bound. Qed.

(** Inside a window of 1440 minutes a slot determines its minute. *)
Lemma bucketIndex_inj lo m m' :
  lo < m <= lo + summaryBuckets -> lo < m' <= lo + summaryBuckets ->
  bucketIndex m = bucketIndex m' -> m = m'.
Proof.
  rewrite !bucketIndex_mod. unfold summaryBuckets in *. intros Hm Hm' E.
  pose proof (Z.div_mod m 1440). pose proof (Z.div_mod m' 1440).
  change (24 * 60) with 1440 in *. nia.
Qed.

Lemma elem_slot_of t j W : t ∈ slot_of j W <-> bucketIndex (minute_of t) = j /\ t ∈ W.
Proof. unfold slot_of. by rewrite list_elem_of_filter. Qed.

Lemma bucket_ok_set b g : bucket_ok b g -> sbSet b = true <-> g <> [].
Proof. destruct g as [|t g]; simpl; [intros ->; done|]. intros (-> & _). done. Qed.

Lemma elem_buckets s b :
  len (suBuckets s) = summaryBuckets ->
  b ∈ suBuckets s <-> exists j, 0 <= j < summaryBuckets /\ bucket_at s j = b.
Proof.
  intros Hl. unfold bucket_at, len in *. split.
  - intros (i & Hi)%list_elem_of_lookup. exists (Z.of_nat i).
    pose proof (lookup_lt_Some _ _ _ Hi). split; [lia|]. rewrite Nat2Z.id.
    by apply nth_lookup_Some.
  - intros (j & Hj & <-). rewrite list_elem_of_In. apply nth_In. lia.
Qed.

(** A set bucket stands for a non-empty slot of the window. *)
Lemma set_bucket_slot s W lo b :
  core_inv s W lo -> b ∈ suBuckets s -> sbSet b = true ->
  exists g, g <> [] /\ bucket_ok b g /\ (exists j, 0 <= j < summaryBuckets /\ g = slot_of j W).
Proof.
  intros Hi (j & Hj & <-)%elem_buckets Hs; [|apply Hi].
  pose proof (si_slot _ _ _ Hi j Hj) as Hok. exists (slot_of j W).
  split; [by eapply bucket_ok_set|]. by eauto.
Qed.

(** What the extremes of the set buckets say about the window. *)
Record slots_ok (bs : list summaryBucket) (W : list Trade) : Prop := {
  so_from : forall b, b ∈ bs -> sbSet b = true ->
    exists j, bucket_ok b (slot_of j W) /\ slot_of j W <> [];
  so_to : forall t, t ∈ W -> exists b j, b ∈ bs /\ sbSet b = true /\ bucket_ok b (slot_of j W) /\ t ∈ slot_of j W }.

Lemma bucket_ok_nonempty b g t :
  t ∈ g -> bucket_ok b g ->
  sbSet b = true /\ (forall u, u ∈ g -> minute_of u = sbMinute b) /\
  is_max g (sbHigh b) /\ is_min g (sbLow b) /\ trPrice <$> head g = Some (sbOpen b).
Proof.
  destruct g as [|u g]; [by intros ?%elem_of_nil|]. intros _ (? & ? & _ & _ & ? & ? & Ho).
  split_and!; try done. simpl. by rewrite Ho.
Qed.

Lemma best_high bs W :
  slots_ok bs W -> W <> [] ->
  exists r, best_bucket (fun b => - sbHigh b) bs = Some r /\ is_max W (sbHigh r).
Proof.
  intros [Hf Ht] Hne. destruct W as [|w W']; [done|]. set (W := w :: W') in *.
  destruct (best_bucket_spec (fun b => - sbHigh b) bs) as (r & Hr & Hin & Hs & Hmin).
  { destruct (Ht w ltac:(by left)) as (b & j & ? & ? & _). by eauto. }
  exists r. split; [done|]. destruct (Hf r Hin Hs) as (j & Hok & Hj).
  destruct (slot_of j W) as [|u g] eqn:E; [done|].
  destruct (bucket_ok_nonempty _ _ u ltac:(by left) Hok) as (_ & _ & [(x & Hx & Ex) _] & _).
  split.
  - exists x. split; [|done]. rewrite <- E in Hx. by apply elem_slot_of in Hx as [_ ?].
  - intros t Hin'. destruct (Ht t Hin') as (b & j' & Hb & Hbs & Hok' & Hin'').
    destruct (bucket_ok_nonempty _ _ t Hin'' Hok') as (_ & _ & [_ Hmax] & _).
    specialize (Hmax t Hin''). specialize (Hmin b Hb Hbs). cbn beta in Hmin. lia.
Qed.

Lemma best_low bs W :
  slots_ok bs W -> W <> [] -> exists r, best_bucket sbLow bs = Some r /\ is_min W (sbLow r).
Proof.
  intros [Hf Ht] Hne. destruct W as [|w W']; [done|]. set (W := w :: W') in *.
  destruct (best_bucket_spec sbLow bs) as (r & Hr & Hin & Hs & Hmin).
  { destruct (Ht w ltac:(by left)) as (b & j & ? & ? & _). by eauto. }
  exists r. split; [done|]. destruct (Hf r Hin Hs) as (j & Hok & Hj).
  destruct (slot_of j W) as [|u g] eqn:E; [done|].
  destruct (bucket_ok_nonempty _ _ u ltac:(by left) Hok) as (_ & _ & _ & [(x & Hx & Ex) _] & _).
  split.
  - exists x. split; [|done]. rewrite <- E in Hx. by apply elem_slot_of in Hx as [_ ?].
  - intros t Hin'. destruct (Ht t Hin') as (b & j' & Hb & Hbs & Hok' & Hin'').
    destruct (bucket_ok_nonempty _ _ t Hin'' Hok') as (_ & _ & _ & [_ Hmax] & _).
    specialize (Hmax t Hin''). specialize (Hmin b Hb Hbs). lia.
Qed.

Lemma filter_ext_in {A} (P Q : A -> Prop) `{!forall x, Decision (P x)} `{!forall x, Decision (Q x)} (l : list A) :
  (forall x, x ∈ l -> P x <-> Q x) -> filter P l = filter Q l.
Proof.
  induction l as [|x l IH]; intros Hpq; [done|]. rewrite !filter_cons.
  rewrite IH by (intros y Hy; apply Hpq; by right).
  specialize (Hpq x ltac:(by left)). repeat case_decide; tauto.
Qed.

Definition in_window (lo : Z) (W : list Trade) : Prop :=
  forall t, t ∈ W -> lo < minute_of t <= lo + summaryBuckets.

Lemma best_open bs W lo :
  slots_ok bs W -> in_window lo W -> W <> [] ->
  exists r, best_bucket sbMinute bs = Some r /\ is_open W (sbMinute r) (sbOpen r).
Proof.
  intros [Hf Ht] Hw Hne. destruct W as [|w W']; [done|]. set (W := w :: W') in *.
  destruct (best_bucket_spec sbMinute bs) as (r & Hr & Hin & Hs & Hmin).
  { destruct (Ht w ltac:(by left)) as (b & j & ? & ? & _). by eauto. }
  exists r. split; [done|]. destruct (Hf r Hin Hs) as (j & Hok & Hj).
  destruct (slot_of j W) as [|u g] eqn:E; [done|].
  destruct (bucket_ok_nonempty _ _ u ltac:(by left) Hok) as (_ & Hm & _ & _ & Ho).
  split.
  - intros t Hin'. destruct (Ht t Hin') as (b & j' & Hb & Hbs & Hok' & Hin'').
    destruct (bucket_ok_nonempty _ _ t Hin'' Hok') as (_ & Hmin' & _).
    rewrite (Hmin' t Hin''). by apply Hmin.
  - rewrite <- Ho, <- E. do 2 f_equal. unfold slot_of. apply filter_ext_in. intros t Htin.
    assert (Hu : u ∈ slot_of j W) by (rewrite E; by left). apply elem_slot_of in Hu as [Hju Hu].
    specialize (Hm u ltac:(by left)). rewrite <- Hju, <- Hm. split; [by intros ->|].
    apply (bucketIndex_inj lo); by apply Hw.
Qed.

Lemma inv_slots_ok s W lo : core_inv s W lo -> slots_ok (suBuckets s) W.
Proof.
  intros Hi. split.
  - intros b Hb Hs. destruct (set_bucket_slot _ _ _ _ Hi Hb Hs) as (g & Hg & Hok & j & _ & ->). by eauto.
  - intros t Ht. set (j := bucketIndex (minute_of t)).
    pose proof (bucketIndex_range (minute_of t)) as Hj. fold j in Hj.
    pose proof (si_slot _ _ _ Hi j Hj) as Hok.
    assert (Hin : t ∈ slot_of j W) by (by apply elem_slot_of).
    exists (bucket_at s j), j. split; [apply elem_buckets; [apply Hi|by eauto]|].
    split; [|by split]. eapply bucket_ok_set; [exact Hok|]. intros E. rewrite E in Hin.
    by apply elem_of_nil in Hin.
Qed.

Lemma inv_in_window s W lo : core_inv s W lo -> in_window lo W.
Proof.
  intros Hi t Ht. pose proof (si_range _ _ _ Hi t Ht). pose proof (si_lo _ _ _ Hi). lia.
Qed.

(** ** Changing one bucket *)

Lemma bucket_at_insert s i b j :
  len (suBuckets s) = summaryBuckets -> 0 <= i < summaryBuckets -> 0 <= j < summaryBuckets ->
  bucket_at (set_bucket s i b) j = if decide (i = j) then b else bucket_at s j.
Proof.
  intros Hl Hi Hj. unfold bucket_at, set_bucket, len in *. cbn [suBuckets].
  case_decide as Hij.
  - subst j. apply nth_lookup_Some. apply list_lookup_insert_eq. lia.
  - rewrite !nth_lookup, list_lookup_insert_ne by lia. done.
Qed.

Lemma set_count_insert bs i b :
  (i < length bs)%nat ->
  set_count (<[i := b]> bs) =
    set_count bs - (if sbSet (nth i bs zeroBucket) then 1 else 0) + (if sbSet b then 1 else 0).
Proof.
  intros Hi. destruct (lookup_lt_is_Some_2 bs i Hi) as [c Hc].
  rewrite (nth_lookup_Some _ _ _ _ Hc). rewrite insert_take_drop by done.
  rewrite <- (take_drop_middle bs i c Hc) at 3. unfold set_count, len.
  rewrite !filter_app, !filter_cons, !length_app.
  repeat case_decide; cbn [length]; destruct (sbSet b), (sbSet c); try done; lia.
Qed.

Lemma set_count_0 bs : set_count bs = 0 -> forall b, b ∈ bs -> sbSet b = false.
Proof.
  intros H b Hb. destruct (sbSet b) eqn:E; [|done]. exfalso.
  assert (Hf : b ∈ filter (fun b => sbSet b = true) bs) by (by apply list_elem_of_filter).
  unfold set_count, len in H. destruct (filter _ bs); [by apply elem_of_nil in Hf|]. simpl in H. lia.
Qed.

(** ** Expiry *)

(** The window without one slot. *)
Definition without (i : Z) (W : list Trade) : list Trade :=
  filter (fun t => bucketIndex (minute_of t) <> i) W.

Lemma elem_without t i W : t ∈ without i W <-> bucketIndex (minute_of t) <> i /\ t ∈ W.
Proof. unfold without. by rewrite list_elem_of_filter. Qed.

Lemma slot_of_without i j W :
  slot_of j (without i W) = if decide (i = j) then [] else slot_of j W.
Proof.
  unfold slot_of, without. rewrite list_filter_filter. case_decide as Hij.
  - subst. destruct (filter _ W) as [|t l] eqn:E; [done|]. exfalso.
    assert (Ht : t ∈ filter (fun t => bucketIndex (minute_of t) = j /\
      bucketIndex (minute_of t) <> j) W) by (rewrite E; by left).
    apply list_elem_of_filter in Ht. tauto.
  - apply list_filter_iff. intros t. split; [tauto|]. intros <-. auto.
Qed.

Lemma total_filter_split (P : Trade -> Prop) `{!forall t, Decision (P t)} W :
  total (trQuantity <$> W) =
    total (trQuantity <$> filter P W) + total (trQuantity <$> filter (fun t => ~ P t) W) /\
  len W = len (filter P W) + len (filter (fun t => ~ P t) W).
Proof.
  unfold len. induction W as [|t W [IH1 IH2]]; [done|]. rewrite !filter_cons, fmap_cons.
  repeat case_decide; try tauto; rewrite ?fmap_cons, !total_cons; cbn [length]; split; lia.
Qed.

Lemma without_split i W :
  total (trQuantity <$> W) = total (trQuantity <$> slot_of i W) + total (trQuantity <$> without i W) /\
  len W = len (slot_of i W) + len (without i W).
Proof. apply (total_filter_split (fun t => bucketIndex (minute_of t) = i)). Qed.

Lemma core_expire s W lo i (b := bucket_at s i) s' :
  core_inv s W lo -> 0 <= i < summaryBuckets -> slot_of i W <> [] ->
  suBuckets s' = <[Z.to_nat i := zeroBucket]> (suBuckets s) ->
  suVolume s' = Qty.Sub (suVolume s) (sbVolume b) ->
  suTrades s' = i64 (suTrades s - sbTrades b) -> suCount s' = suCount s - 1 ->
  suNewest s' = suNewest s -> core_inv s' (without i W) lo.
Proof.
  intros Hi Hir Hne Eb Ev Et Ec En. pose proof (si_slot _ _ _ Hi i Hir) as Hok. fold b in Hok.
  pose proof (without_split i W) as [Hq Hl]. pose proof (si_len _ _ _ Hi) as Hlen.
  split.
  - rewrite Eb. unfold len. by rewrite length_insert.
  - intros j Hj. rewrite slot_of_without.
    replace (bucket_at s' j) with (bucket_at (set_bucket s i zeroBucket) j)
      by (unfold bucket_at, set_bucket; cbn [suBuckets]; by rewrite Eb).
    rewrite bucket_at_insert by done. case_decide; [done|]. by apply Hi.
  - intros t [_ Ht]%elem_without. rewrite En. by apply Hi.
  - rewrite En. apply Hi.
  - rewrite Ev, (si_volume _ _ _ Hi). destruct (slot_of i W) as [|t g] eqn:E; [done|].
    destruct Hok as (_ & _ & -> & _). unfold Qty.Sub. rewrite i64_sub_l, i64_sub_r. f_equal. lia.
  - rewrite Et, (si_trades _ _ _ Hi). destruct (slot_of i W) as [|t g] eqn:E; [done|].
    destruct Hok as (_ & _ & _ & -> & _). rewrite i64_sub_l, i64_sub_r. f_equal. lia.
  - rewrite Ec, (si_count _ _ _ Hi), Eb, set_count_insert by (unfold len in *; lia).
    change (nth (Z.to_nat i) (suBuckets s) zeroBucket) with b.
    rewrite (proj2 (bucket_ok_set _ _ Hok) Hne). cbn [sbSet zeroBucket]. lia.
Qed.

Lemma count_zero s W lo : core_inv s W lo -> suCount s = 0 <-> W = [].
Proof.
  intros Hi. split.
  - intros H0. destruct W as [|t W']; [done|]. exfalso.
    destruct (so_to _ _ (inv_slots_ok _ _ _ Hi) t ltac:(by left)) as (b & j & Hb & Hs & _).
    rewrite (si_count _ _ _ Hi) in H0. by rewrite (set_count_0 _ H0 b Hb) in Hs.
  - intros ->. rewrite (si_count _ _ _ Hi). unfold set_count, len.
    destruct (filter _ _) as [|b bs] eqn:E; [done|]. exfalso.
    assert (Hb : b ∈ filter (fun b => sbSet b = true) (suBuckets s)) by (rewrite E; by left).
    apply list_elem_of_filter in Hb as [Hs Hb].
    destruct (so_from _ _ (inv_slots_ok _ _ _ Hi) b Hb Hs) as (j & _ & Hj). by apply Hj.
Qed.

(** A cached extreme not held by the expired bucket stays valid. *)
Lemma is_max_without i W h b :
  is_max W h -> bucket_ok b (slot_of i W) -> slot_of i W <> [] -> sbHigh b <> h ->
  is_max (without i W) h.
Proof.
  intros [(t & Ht & Ep) Hmax] Hok Hne Hnh. split.
  - exists t. split; [|done]. apply elem_without. split; [|done]. intros Hi. apply Hnh.
    assert (Hs : t ∈ slot_of i W) by (by apply elem_slot_of).
    destruct (bucket_ok_nonempty _ _ t Hs Hok) as (_ & _ & [(u & Hu & Eu) Hm] & _).
    apply elem_slot_of in Hu as [_ Hu]. specialize (Hmax u Hu). specialize (Hm t Hs). lia.
  - intros u [_ Hu]%elem_without. auto.
Qed.

Lemma is_min_without i W l b :
  is_min W l -> bucket_ok b (slot_of i W) -> slot_of i W <> [] -> sbLow b <> l ->
  is_min (without i W) l.
Proof.
  intros [(t & Ht & Ep) Hmin] Hok Hne Hnl. split.
  - exists t. split; [|done]. apply elem_without. split; [|done]. intros Hi. apply Hnl.
    assert (Hs : t ∈ slot_of i W) by (by apply elem_slot_of).
    destruct (bucket_ok_nonempty _ _ t Hs Hok) as (_ & _ & _ & [(u & Hu & Eu) Hm] & _).
    apply elem_slot_of in Hu as [_ Hu]. specialize (Hmin u Hu). specialize (Hm t Hs). lia.
  - intros u [_ Hu]%elem_without. auto.
Qed.

Lemma is_open_without i W m p b lo :
  is_open W m p -> in_window lo W -> bucket_ok b (slot_of i W) -> slot_of i W <> [] ->
  sbMinute b <> m -> is_open (without i W) m p.
Proof.
  intros [Hmin Hh] Hw Hok Hne Hnm. split; [intros t [_ Ht]%elem_without; auto|].
  rewrite <- Hh. do 2 f_equal. unfold without. rewrite list_filter_filter. apply filter_ext_in.
  intros t Ht. split; [tauto|]. intros Em. split; [done|]. intros Hi. apply Hnm.
  assert (Hs : t ∈ slot_of i W) by (by apply elem_slot_of).
  destruct (bucket_ok_nonempty _ _ t Hs Hok) as (_ & Hm & _). rewrite <- Em. symmetry. auto.
Qed.

Lemma core_ext s s' W lo :
  core_inv s W lo -> suBuckets s' = suBuckets s -> suVolume s' = suVolume s ->
  suTrades s' = suTrades s -> suCount s' = suCount s -> suNewest s' = suNewest s ->
  core_inv s' W lo.
Proof.
  intros [] Eb Ev Et Ec En. split; rewrite ?Eb, ?Ev, ?Et, ?Ec, ?En; try done.
  intros j Hj. unfold bucket_at. rewrite Eb. by apply si_slot0.
Qed.

Lemma expire_eq s i rh rl ro (b := bucket_at s i) (bs := <[Z.to_nat i := zeroBucket]> (suBuckets s)) :
  suCount s - 1 <> 0 ->
  best_bucket (fun b => - sbHigh b) bs = Some rh -> best_bucket sbLow bs = Some rl ->
  best_bucket sbMinute bs = Some ro ->
  expire s i = mkSum (suSymbol s) bs (Qty.Sub (suVolume s) (sbVolume b))
    (if sbHigh b =? suHigh s then sbHigh rh else suHigh s)
    (if sbLow b =? suLow s then sbLow rl else suLow s)
    (if sbMinute b =? suOpenAt s then sbOpen ro else suOpen s)
    (suLast s) (i64 (suTrades s - sbTrades b))
    (if sbMinute b =? suOpenAt s then sbMinute ro else suOpenAt s)
    (suCount s - 1) (suNewest s).
Proof.
  intros Hc Hh Hl Ho. unfold expire. fold b. cbv zeta.
  cbn [suCount suSymbol suBuckets suVolume suHigh suLow suOpen suLast suTrades suOpenAt suNewest].
  fold bs. rewrite (proj2 (Z.eqb_neq _ 0) Hc).
  destruct (sbHigh b =? suHigh s); [rewrite (recomputeHigh_best _ rh) by done|];
  (destruct (sbLow b =? suLow s); [rewrite (recomputeLow_best _ rl) by done|]);
  (destruct (sbMinute b =? suOpenAt s); [rewrite (recomputeOpen_best _ ro) by done|]); done.
Qed.

Lemma expire_count_0 s i (b := bucket_at s i) :
  suCount s - 1 = 0 ->
  expire s i = mkSum (suSymbol s) (<[Z.to_nat i := zeroBucket]> (suBuckets s))
    (Qty.Sub (suVolume s) (sbVolume b)) 0 0 0 (suLast s) (i64 (suTrades s - sbTrades b)) 0
    (suCount s - 1) (suNewest s).
Proof. intros Hc. unfold expire. fold b. cbv zeta. cbn [suCount]. by rewrite (proj2 (Z.eqb_eq _ 0) Hc). Qed.

Definition same_tail (s s' : Summary24h) : Prop :=
  suNewest s' = suNewest s /\ suLast s' = suLast s /\ suSymbol s' = suSymbol s.

Lemma expire_inv s W lo i :
  summary_inv s W lo -> 0 <= i < summaryBuckets -> slot_of i W <> [] ->
  summary_inv (expire s i) (without i W) lo /\ same_tail s (expire s i).
Proof.
  intros [Hcore Hh Hl Ho] Hi Hne.
  pose proof (si_slot _ _ _ Hcore i Hi) as Hok.
  assert (HW : W <> []) by (intros ->; by apply Hne).
  specialize (Hh HW). specialize (Hl HW). specialize (Ho HW).
  destruct (decide (suCount s - 1 = 0)) as [Hc|Hc].
  - rewrite (expire_count_0 s i Hc). split; [|done].
    match goal with |- summary_inv ?s1 _ _ => assert (Hc1 : core_inv s1 (without i W) lo)
      by (by apply (core_expire s W lo i)) end.
    pose proof (proj1 (count_zero _ _ _ Hc1) Hc) as E. split; [exact Hc1|by intros []..].
  - set (s1 := mkSum (suSymbol s) (<[Z.to_nat i := zeroBucket]> (suBuckets s))
      (Qty.Sub (suVolume s) (sbVolume (bucket_at s i))) 0 0 0 0
      (i64 (suTrades s - sbTrades (bucket_at s i))) 0 (suCount s - 1) (suNewest s)).
    assert (Hc1 : core_inv s1 (without i W) lo) by (by apply (core_expire s W lo i)).
    assert (HW1 : without i W <> []) by (intros E; apply Hc, (count_zero _ _ _ Hc1), E).
    pose proof (inv_slots_ok _ _ _ Hc1) as Hs1.
    destruct (best_high _ _ Hs1 HW1) as (rh & Erh & Mh).
    destruct (best_low _ _ Hs1 HW1) as (rl & Erl & Ml).
    destruct (best_open _ _ lo Hs1 (inv_in_window _ _ _ Hc1) HW1) as (ro & Ero & Mo).
    rewrite (expire_eq s i rh rl ro Hc Erh Erl Ero). split; [|done]. split.
    + by eapply core_ext.
    + intros _. cbn [suHigh]. destruct (_ =? _) eqn:E; bool_to_prop; [done|].
      by eapply is_max_without.
    + intros _. cbn [suLow]. destruct (_ =? _) eqn:E; bool_to_prop; [done|].
      by eapply is_min_without.
    + intros _. cbn [suOpen suOpenAt]. destruct (_ =? _) eqn:E; bool_to_prop; [done|].
      eapply is_open_without; [done|by apply (inv_in_window s)|done..].
Qed.

(** Expiring minute by minute leaves the trades of the last 1440 minutes. *)
Definition since (m : Z) (W : list Trade) : list Trade := filter (fun t => m < minute_of t) W.

Lemma since_since m m' W : m <= m' -> since m' (since m W) = since m' W.
Proof.
  intros Hm. unfold since. rewrite list_filter_filter. apply filter_ext_in.
  intros t _. split; lia || (intros; split; lia).
Qed.

Lemma since_id m W : (forall t, t ∈ W -> m < minute_of t) -> since m W = W.
Proof.
  unfold since. induction W as [|t W IH]; intros Hm; [done|]. rewrite filter_cons_True
    by (apply Hm; by left). f_equal. apply IH. intros u Hu. apply Hm. by right.
Qed.

Lemma summary_inv_weaken s W lo lo' :
  summary_inv s W lo -> (forall t, t ∈ W -> lo' < minute_of t) -> suNewest s - summaryBuckets <= lo' ->
  summary_inv s W lo'.
Proof.
  intros [[] ? ? ?] Ht Hlo. split; [split|..]; try done.
  intros t Hin. specialize (si_range0 t Hin). specialize (Ht t Hin). lia.
Qed.

(** The minutes that share a bucket with a minute [m] beyond the window. *)
Lemma same_bucket_minute s W m t :
  summary_inv s W (m - 1 - summaryBuckets) -> suNewest s < m -> t ∈ W ->
  bucketIndex (minute_of t) = bucketIndex m <-> minute_of t = m - summaryBuckets.
Proof.
  intros Hinv Hnew Ht. pose proof (si_range _ _ _ (si_core _ _ _ Hinv) t Ht) as Hr. split.
  - rewrite !bucketIndex_mod. unfold summaryBuckets in *. intros E.
    pose proof (Z.div_mod (minute_of t) (24 * 60)). pose proof (Z.div_mod m (24 * 60)). nia.
  - intros ->. rewrite !bucketIndex_mod. unfold summaryBuckets.
    rewrite <- (Z.mod_add (m - 24 * 60) 1) by lia. f_equal. lia.
Qed.

(** Making room for the minute [m]. *)
Lemma expire_minute_inv s W oldest m :
  summary_inv s W (m - 1 - summaryBuckets) -> suNewest s < m -> m < oldest + summaryBuckets ->
  let i := bucketIndex m in
  let s1 := if sbSet (bucket_at s i) && (sbMinute (bucket_at s i) <? oldest) then expire s i else s in
  summary_inv s1 (since (m - summaryBuckets) W) (m - 1 - summaryBuckets) /\ same_tail s s1.
Proof.
  intros Hinv Hnew Hold i. cbv zeta. pose proof (bucketIndex_range m) as Hi. fold i in Hi.
  pose proof (si_slot _ _ _ (si_core _ _ _ Hinv) i Hi) as Hok. pose proof (si_range _ _ _ (si_core _ _ _ Hinv)) as Hr.
  assert (Hmin : forall t, t ∈ W -> bucketIndex (minute_of t) = i <-> minute_of t = m - summaryBuckets)
    by (intros t Ht; by eapply same_bucket_minute).
  assert (Hwi : without i W = since (m - summaryBuckets) W).
  { unfold without, since. apply filter_ext_in. intros t Ht. specialize (Hr t Ht). rewrite (Hmin t Ht). lia. }
  rewrite <- Hwi. destruct (sbSet (bucket_at s i)) eqn:Es; cbn [andb].
  - apply (proj1 (bucket_ok_set _ _ Hok)) in Es. destruct (slot_of i W) as [|t g] eqn:E; [done|].
    destruct (bucket_ok_nonempty _ _ t ltac:(by left) Hok) as (_ & Hm & _).
    assert (Ht : t ∈ slot_of i W) by (rewrite E; by left). apply elem_slot_of in Ht as [Hti HtW].
    rewrite <- (Hm t ltac:(by left)), (proj1 (Hmin t HtW) Hti).
    rewrite (proj2 (Z.ltb_lt _ _)) by lia. apply expire_inv; [done|done|by rewrite E].
  - split; [|done]. replace (without i W) with W; [done|]. rewrite Hwi. symmetry. apply since_id.
    intros t Ht. specialize (Hr t Ht). assert (minute_of t <> m - summaryBuckets); [|lia]. intros Em.
    assert (Hin : t ∈ slot_of i W) by (apply elem_slot_of; split; [by apply Hmin|done]).
    destruct (bucket_ok_nonempty _ _ t Hin Hok) as (Hs & _). congruence.
Qed.

Lemma expire_from_inv s W oldest m n :
  summary_inv s W (m - 1 - summaryBuckets) -> suNewest s < m -> m + Z.of_nat n <= oldest + summaryBuckets ->
  let s' := expire_from s oldest m n in
  summary_inv s' (since (m - 1 + Z.of_nat n - summaryBuckets) W) (m - 1 + Z.of_nat n - summaryBuckets) /\
  same_tail s s'.
Proof.
  revert s W m. induction n as [|n IH]; intros s W m Hinv Hnew Hold.
  - cbn [expire_from Z.of_nat]. rewrite Z.add_0_r. split; [|done].
    rewrite since_id; [done|]. intros t Ht.
    pose proof (si_range _ _ _ (si_core _ _ _ Hinv) t Ht). lia.
  - cbn [expire_from]. cbv zeta.
    destruct (expire_minute_inv s W oldest m Hinv Hnew ltac:(lia)) as [Hinv1 (Hn1 & Hl1 & Hs1)].
    set (s1 := if _ : bool then _ else _) in *.
    destruct (IH s1 (since (m - summaryBuckets) W) (m + 1)) as [Hinv2 (Hn2 & Hl2 & Hs2)].
    + eapply summary_inv_weaken; [exact Hinv1| |rewrite Hn1; lia].
      intros t [Ht _]%list_elem_of_filter. lia.
    + lia.
    + lia.
    + rewrite since_since in Hinv2 by lia.
      replace (m + 1 - 1 + Z.of_nat n) with (m - 1 + Z.of_nat (S n)) in Hinv2 by lia.
      split; [done|]. unfold same_tail. split_and!; congruence.
Qed.

(** ** One trade *)

Lemma core_empty s lo :
  len (suBuckets s) = summaryBuckets -> (forall b, b ∈ suBuckets s -> b = zeroBucket) ->
  suVolume s = 0 -> suTrades s = 0 -> suCount s = 0 -> suNewest s - summaryBuckets <= lo ->
  core_inv s [] lo.
Proof.
  intros Hl Hb Hv Ht Hc Hlo. split; try done.
  - intros j Hj. change (slot_of j []) with (@nil Trade). cbn [bucket_ok]. apply Hb.
    apply elem_buckets; [done|]. by exists j.
  - intros t ?%elem_of_nil. done.
  - rewrite Hc. unfold set_count, len. destruct (filter _ _) as [|b bs] eqn:E; [done|]. exfalso.
    assert (Hin : b ∈ filter (fun b => sbSet b = true) (suBuckets s)) by (rewrite E; by left).
    apply list_elem_of_filter in Hin as [Hs Hin]. by rewrite (Hb b Hin) in Hs.
Qed.

Lemma inv_empty s lo : core_inv s [] lo -> summary_inv s [] lo.
Proof. intros H. by split. Qed.

(** The state between two trades: the window ends at the newest minute. *)
Definition sum_ok (s : Summary24h) (W : list Trade) : Prop :=
  summary_inv s W (suNewest s - summaryBuckets).

Definition new_newest (s : Summary24h) (W : list Trade) (m : Z) : Z :=
  match W with [] => m | _ => Z.max (suNewest s) m end.

Lemma sum_ok_set_newest s W W' lo m :
  summary_inv s W lo -> lo = m - summaryBuckets -> W' = W -> suNewest s <= m ->
  sum_ok (set_newest s m) W'.
Proof.
  intros [Hc Hh Hl Ho] -> -> Hm. split; [|done..].
  destruct Hc. split; try done. simpl.
  intros t Ht. specialize (si_range0 t Ht). lia.
Qed.

Lemma advance_ok s W m :
  sum_ok s W ->
  let s' := advance s m in
  suNewest s' = new_newest s W m /\ sum_ok s' (since (suNewest s' - summaryBuckets) W) /\
  suLast s' = suLast s /\ suSymbol s' = suSymbol s.
Proof.
  intros Hok. cbv zeta. pose proof (si_core _ _ _ Hok) as Hc. unfold advance.
  pose proof (count_zero _ _ _ Hc) as Hz.
  destruct (suCount s =? 0) eqn:E0; bool_to_prop.
  { apply Hz in E0. subst W. split; [done|]. split; [|done]. apply inv_empty.
    destruct Hc. split; try done. intros t ?%elem_of_nil. done. }
  assert (HW : W <> []) by tauto.
  assert (Hnew : new_newest s W m = Z.max (suNewest s) m) by (by destruct W). rewrite Hnew.
  pose proof (si_range _ _ _ Hc) as Hr.
  destruct (m <=? suNewest s) eqn:E1; bool_to_prop.
  { split; [lia|]. split; [|done]. rewrite since_id; [done|]. intros t Ht. specialize (Hr t Ht). lia. }
  destruct (summaryBuckets <=? m - suNewest s) eqn:E2; bool_to_prop.
  { split; [simpl; lia|]. split; [|done]. cbn [suNewest set_newest].
    replace (since (m - summaryBuckets) W) with (@nil Trade).
    - apply inv_empty, core_empty; try done; simpl.
      + unfold len. rewrite length_map. apply Hc.
      + intros b (x & -> & _)%list_elem_of_fmap. done.
    - symmetry. destruct (since _ W) as [|t l] eqn:E; [done|]. exfalso.
      assert (Ht : t ∈ since (m - summaryBuckets) W) by (rewrite E; by left).
      apply list_elem_of_filter in Ht as [Hm Ht]. specialize (Hr t Ht). lia. }
  assert (Hinv : summary_inv s W (suNewest s + 1 - 1 - summaryBuckets))
    by (replace (suNewest s + 1 - 1) with (suNewest s) by lia; done).
  destruct (expire_from_inv s W (m - summaryBuckets + 1) (suNewest s + 1) (Z.to_nat (m - suNewest s))
    Hinv ltac:(lia) ltac:(lia)) as [Hex (Hn & Hl & Hs)].
  split; [simpl; lia|]. split; [|done]. cbn [suNewest set_newest].
  replace (suNewest s + 1 - 1 + Z.of_nat (Z.to_nat (m - suNewest s))) with m in Hex by lia.
  eapply sum_ok_set_newest; [exact Hex|done|done|]. rewrite Hn. lia.
Qed.

Lemma is_max_snoc W h t :
  (W <> [] -> is_max W h) ->
  is_max (W ++ [t]) (match W with [] => trPrice t | _ => Z.max h (trPrice t) end).
Proof.
  intros Hm. destruct W as [|w W']; [split; [exists t; split; [by left|done]|]|].
  { intros u ->%list_elem_of_singleton. lia. }
  destruct (Hm ltac:(done)) as [(x & Hx & Ex) Hle]. split.
  - destruct (Z.max_spec h (trPrice t)) as [[_ ->]|[_ ->]].
    + exists t. split; [|done]. apply elem_of_app. right. by left.
    + exists x. split; [|done]. apply elem_of_app. by left.
  - intros u [Hu|Hu%list_elem_of_singleton]%elem_of_app; [specialize (Hle u Hu); lia|subst; lia].
Qed.

Lemma is_min_snoc W l t :
  (W <> [] -> is_min W l) ->
  is_min (W ++ [t]) (match W with [] => trPrice t | _ => Z.min l (trPrice t) end).
Proof.
  intros Hm. destruct W as [|w W']; [split; [exists t; split; [by left|done]|]|].
  { intros u ->%list_elem_of_singleton. lia. }
  destruct (Hm ltac:(done)) as [(x & Hx & Ex) Hle]. split.
  - destruct (Z.min_spec l (trPrice t)) as [[_ ->]|[_ ->]].
    + exists x. split; [|done]. apply elem_of_app. by left.
    + exists t. split; [|done]. apply elem_of_app. right. by left.
  - intros u [Hu|Hu%list_elem_of_singleton]%elem_of_app; [specialize (Hle u Hu); lia|subst; lia].
Qed.

Lemma is_open_snoc W m p t :
  (W <> [] -> is_open W m p) ->
  is_open (W ++ [t])
    (match W with [] => minute_of t | _ => Z.min m (minute_of t) end)
    (match W with [] => trPrice t | _ => if minute_of t <? m then trPrice t else p end).
Proof.
  intros Ho. destruct W as [|w W'].
  { split; [intros u ->%list_elem_of_singleton; lia|]. cbn [app].
    rewrite filter_cons_True by done. done. }
  destruct (Ho ltac:(done)) as [Hle Hh]. split.
  - intros u [Hu|Hu%list_elem_of_singleton]%elem_of_app; [specialize (Hle u Hu); lia|subst; lia].
  - rewrite filter_app. destruct (minute_of t <? m) eqn:E; bool_to_prop.
    + rewrite Z.min_r by lia.
      assert (Hnil : filter (fun u => minute_of u = minute_of t) (w :: W') = []).
      { destruct (filter (fun u => minute_of u = minute_of t) (w :: W')) as [|u l] eqn:Ef; [done|].
        exfalso.
        assert (Hu : u ∈ filter (fun u => minute_of u = minute_of t) (w :: W')) by (rewrite Ef; by left).
        apply list_elem_of_filter in Hu as [Hu Hin]. specialize (Hle u Hin). lia. }
      rewrite Hnil, filter_cons_True by done. done.
    + rewrite Z.min_l by lia. destruct (filter (fun u => minute_of u = m) (w :: W')); done.
Qed.

Lemma total_one t : total (trQuantity <$> [t]) = trQuantity t.
Proof. change (trQuantity t + 0 = trQuantity t). lia. Qed.

Lemma fold_bucket_ok b g m t :
  bucket_ok b g -> (g <> [] -> sbMinute b = m) -> minute_of t = m ->
  bucket_ok (fold_bucket b m t) (g ++ [t]).
Proof.
  intros Hok Hm Ht. unfold fold_bucket. cbv zeta. destruct g as [|u g].
  - simpl in Hok. subst b. cbn [zeroBucket sbSet sbVolume negb app]. cbv zeta.
    split; [done|]. split; [intros ? ->%list_elem_of_singleton; done|].
    split; [rewrite total_one; done|]. split; [done|].
    split; [exact (is_max_snoc [] 0 t ltac:(done))|].
    split; [exact (is_min_snoc [] 0 t ltac:(done))|done].
  - destruct Hok as (Hs & Hmin & Hv & Htr & Hh & Hl & Ho).
    rewrite Hs. cbn [negb]. cbv zeta. cbn [sbSet sbMinute sbVolume sbHigh sbLow sbOpen sbTrades].
    change ((u :: g) ++ [t]) with (u :: (g ++ [t])). cbn [bucket_ok sbSet sbMinute sbVolume sbHigh sbLow sbOpen sbTrades].
    rewrite !app_comm_cons. split; [done|]. split.
    { intros x [Hx|Hx%list_elem_of_singleton]%elem_of_app; [auto|subst x; rewrite (Hm ltac:(done)); done]. }
    split; [rewrite Hv, fmap_app, total_app; unfold Qty.Add; rewrite i64_add_l, total_one; done|].
    split; [rewrite Htr, i64_add_l; unfold len; rewrite length_app; f_equal; simpl; lia|].
    rewrite Cmp_gt, Cmp_lt. split; [|split; [|done]].
    + replace (if sbHigh b <? trPrice t then trPrice t else sbHigh b) with (Z.max (sbHigh b) (trPrice t))
        by (split_if; lia). by apply (is_max_snoc (u :: g)).
    + replace (if trPrice t <? sbLow b then trPrice t else sbLow b) with (Z.min (sbLow b) (trPrice t))
        by (split_if; lia). by apply (is_min_snoc (u :: g)).
Qed.

Lemma slot_of_snoc j W t :
  slot_of j (W ++ [t]) = slot_of j W ++ (if decide (bucketIndex (minute_of t) = j) then [t] else []).
Proof. unfold slot_of. rewrite filter_app, filter_cons. by case_decide. Qed.

Lemma add_trade_core s W t (i := bucketIndex (minute_of t)) s' :
  sum_ok s W -> suNewest s - summaryBuckets < minute_of t <= suNewest s ->
  suBuckets s' = <[Z.to_nat i := fold_bucket (bucket_at s i) (minute_of t) t]> (suBuckets s) ->
  suVolume s' = Qty.Add (suVolume s) (trQuantity t) -> suTrades s' = i64 (suTrades s + 1) ->
  suCount s' = (if sbSet (bucket_at s i) then suCount s else suCount s + 1) ->
  suNewest s' = suNewest s ->
  core_inv s' (W ++ [t]) (suNewest s - summaryBuckets).
Proof.
  intros [Hc _ _ _] Hm Eb Ev Et Ec En. pose proof (bucketIndex_range (minute_of t)) as Hi. fold i in Hi.
  pose proof (si_slot _ _ _ Hc i Hi) as Hok. pose proof (si_len _ _ _ Hc) as Hlen.
  split.
  - rewrite Eb. unfold len. by rewrite length_insert.
  - intros j Hj. rewrite slot_of_snoc. fold i.
    replace (bucket_at s' j)
      with (bucket_at (set_bucket s i (fold_bucket (bucket_at s i) (minute_of t) t)) j)
      by (unfold bucket_at, set_bucket; cbn [suBuckets]; by rewrite Eb).
    rewrite bucket_at_insert by done. case_decide as Hij; [subst j|rewrite app_nil_r; by apply Hc].
    apply fold_bucket_ok; [done| |done]. intros Hne. destruct (slot_of i W) as [|u g] eqn:E; [done|].
    destruct (bucket_ok_nonempty _ _ u ltac:(by left) Hok) as (_ & Hmin & _).
    assert (Hu : u ∈ slot_of i W) by (rewrite E; by left). apply elem_slot_of in Hu as [Hui Hu].
    rewrite <- (Hmin u ltac:(by left)).
    apply (bucketIndex_inj (suNewest s - summaryBuckets)); [exact (inv_in_window _ _ _ Hc u Hu)|lia|done].
  - rewrite En. intros u [Hu|Hu%list_elem_of_singleton]%elem_of_app; [by apply Hc|subst; lia].
  - rewrite En. lia.
  - rewrite Ev, (si_volume _ _ _ Hc), fmap_app, total_app. unfold Qty.Add. by rewrite i64_add_l, total_one.
  - rewrite Et, (si_trades _ _ _ Hc), i64_add_l. unfold len. rewrite length_app. f_equal. simpl. lia.
  - rewrite Ec, (si_count _ _ _ Hc), Eb, set_count_insert by (unfold len in *; lia).
    change (nth (Z.to_nat i) (suBuckets s) zeroBucket) with (bucket_at s i).
    unfold fold_bucket. destruct (sbSet (bucket_at s i)) eqn:Es; cbn [negb sbSet]; lia.
Qed.

(** The first trade of an empty window is told apart by the counters. *)
Lemma first_iff s W i :
  sum_ok s W -> 0 <= i < summaryBuckets -> len W < MaxInt64 ->
  ((if sbSet (bucket_at s i) then suCount s else suCount s + 1) = 1 /\
   i64 ((if sbSet (bucket_at s i) then sbTrades (bucket_at s i) else 0) + 1) = 1) <-> W = [].
Proof.
  intros [Hc _ _ _] Hi Hl. pose proof (si_slot _ _ _ Hc i Hi) as Hok.
  pose proof (count_zero _ _ _ Hc) as Hz.
  destruct (sbSet (bucket_at s i)) eqn:Es.
  - pose proof (proj1 (bucket_ok_set _ _ Hok) Es) as Hne.
    assert (HW : W <> []) by (intros ->; by apply Hne). split; [|done]. intros [_ Ht].
    destruct (slot_of i W) as [|u g] eqn:E; [done|]. destruct Hok as (_ & _ & _ & Htr & _).
    rewrite Htr, i64_add_l in Ht.
    pose proof (without_split i W) as [_ Hs]. rewrite E in Hs. unfold len in *. cbn [length] in *.
    rewrite i64_small in Ht by (unfold in_i64; lia). lia.
  - rewrite <- Hz. split; [intros [? _]; lia|intros ->; by split].
Qed.

Lemma bucket_set_minute s W lo m :
  core_inv s W lo -> lo < m <= lo + summaryBuckets -> sbSet (bucket_at s (bucketIndex m)) = true ->
  sbMinute (bucket_at s (bucketIndex m)) = m.
Proof.
  intros Hc Hm Hs. pose proof (bucketIndex_range m) as Hi.
  pose proof (si_slot _ _ _ Hc _ Hi) as Hok.
  pose proof (proj1 (bucket_ok_set _ _ Hok) Hs) as Hne.
  destruct (slot_of (bucketIndex m) W) as [|u g] eqn:E; [done|].
  destruct (bucket_ok_nonempty _ _ u ltac:(by left) Hok) as (_ & Hmin & _).
  assert (Hu : u ∈ slot_of (bucketIndex m) W) by (rewrite E; by left).
  apply elem_slot_of in Hu as [Hui Hu]. rewrite <- (Hmin u ltac:(by left)).
  apply (bucketIndex_inj lo); [exact (inv_in_window _ _ _ Hc u Hu)|done|done].
Qed.

Lemma set_slot_elem s W lo i :
  core_inv s W lo -> 0 <= i < summaryBuckets -> sbSet (bucket_at s i) = true ->
  exists u, bucketIndex (minute_of u) = i /\ u ∈ W.
Proof.
  intros Hc Hi Hs. pose proof (si_slot _ _ _ Hc _ Hi) as Hok.
  pose proof (proj1 (bucket_ok_set _ _ Hok) Hs) as Hne.
  destruct (slot_of i W) as [|u g] eqn:E; [done|]. exists u. apply elem_slot_of. rewrite E. by left.
Qed.

(** After the first trade, a trade opens the window only from an unused bucket
    earlier than the opening one. *)
Lemma opens_before s w W t :
  let i := bucketIndex (minute_of t) in
  core_inv s (w :: W) (suNewest s - summaryBuckets) -> is_open (w :: W) (suOpenAt s) (suOpen s) ->
  suNewest s - summaryBuckets < minute_of t <= suNewest s ->
  negb (sbSet (bucket_at s i)) &&
    (((if sbSet (bucket_at s i) then suCount s else suCount s + 1) =? 1) || (minute_of t <? suOpenAt s))
  = (minute_of t <? suOpenAt s).
Proof.
  intros i Hc Ho Hm. pose proof (bucketIndex_range (minute_of t)) as Hi. fold i in Hi.
  pose proof (count_zero _ _ _ Hc) as Hz. destruct (sbSet (bucket_at s i)) eqn:Es; cbn [negb andb].
  - destruct (set_slot_elem s (w :: W) _ i Hc Hi Es) as (u & Hui & Hu). symmetry.
    apply Z.ltb_ge. rewrite <- (bucketIndex_inj (suNewest s - summaryBuckets) (minute_of u) (minute_of t));
      [exact (proj1 Ho u Hu)|exact (inv_in_window _ _ _ Hc u Hu)|lia|done].
  - rewrite (proj2 (Z.eqb_neq (suCount s + 1) 1)); [done|].
    intros E. assert (suCount s = 0) as E0 by lia. by apply Hz in E0.
Qed.

Lemma add_trade_ok s W t :
  sum_ok s W -> suNewest s - summaryBuckets < minute_of t <= suNewest s -> len W < MaxInt64 ->
  sum_ok (add_trade s t) (W ++ [t]) /\ suNewest (add_trade s t) = suNewest s /\
  suLast (add_trade s t) = trPrice t /\ suSymbol (add_trade s t) = suSymbol s.
Proof.
  intros Hok Hm Hlen. pose proof (bucketIndex_range (minute_of t)) as Hi.
  pose proof (si_core _ _ _ Hok) as Hc.
  unfold add_trade. set (i := bucketIndex (minute_of t)) in *. cbv zeta.
  replace (sbSet (bucket_at s i) && negb (sbMinute (bucket_at s i) =? minute_of t)) with false.
  2: { destruct (sbSet (bucket_at s i)) eqn:Es; [|done]. symmetry. cbn [andb].
       pose proof (bucket_set_minute s W _ (minute_of t) Hc ltac:(lia) Es) as Hbm.
       fold i in Hbm. by rewrite Hbm, Z.eqb_refl. }
  rewrite (proj2 (Z.ltb_ge (suNewest s) (minute_of t))) by lia.
  pose proof (first_iff s W i Hok Hi Hlen) as Hfirst.
  set (count := if sbSet (bucket_at s i) then suCount s else suCount s + 1) in *.
  replace (sbTrades (fold_bucket (bucket_at s i) (minute_of t) t))
    with (i64 ((if sbSet (bucket_at s i) then sbTrades (bucket_at s i) else 0) + 1))
    by (unfold fold_bucket; by destruct (sbSet (bucket_at s i))).
  set (tr := i64 _) in *.
  assert (Hf : ((count =? 1) && (tr =? 1)) = true <-> W = []).
  { rewrite <- Hfirst, andb_true_iff, !Z.eqb_eq. done. }
  assert (Hnf : W <> [] -> ((count =? 1) && (tr =? 1)) = false)
    by (intros HW; apply not_true_iff_false; by rewrite Hf).
  split; [|done]. pose proof Hok as [_ Hh Hl Ho]. split; [by apply (add_trade_core s W t)|..];
    intros _; cbn [suHigh suLow suOpen suOpenAt].
  - pose proof (is_max_snoc W _ t Hh) as Hx. rewrite Cmp_gt.
    destruct W as [|w W']; [rewrite (proj2 Hf eq_refl); exact Hx|].
    rewrite (Hnf ltac:(done)).
    replace (if suHigh s <? trPrice t then _ else _) with (Z.max (suHigh s) (trPrice t)) by (split_if; lia).
    exact Hx.
  - pose proof (is_min_snoc W _ t Hl) as Hx. rewrite Cmp_lt.
    destruct W as [|w W']; [rewrite (proj2 Hf eq_refl); exact Hx|].
    rewrite (Hnf ltac:(done)).
    replace (if trPrice t <? suLow s then _ else _) with (Z.min (suLow s) (trPrice t)) by (split_if; lia).
    exact Hx.
  - pose proof (is_open_snoc W _ _ t Ho) as Hx.
    destruct W as [|w W'].
    + rewrite (proj2 Hf eq_refl). apply proj2 in Hf. specialize (Hf eq_refl).
      apply andb_true_iff in Hf as [Hcount _].
      pose proof (si_slot _ _ _ Hc i Hi) as Hb. change (slot_of i []) with (@nil Trade) in Hb.
      cbn [bucket_ok] in Hb. rewrite Hb. cbn [zeroBucket sbSet negb andb]. by rewrite Hcount.
    + rewrite (Hnf ltac:(done)).
      unfold count, i. rewrite (opens_before s w W' t Hc (Ho ltac:(done)) Hm). rewrite (Z.min_comm (suOpenAt s)) in Hx.
      replace (if minute_of t <? suOpenAt s then minute_of t else suOpenAt s)
        with (Z.min (minute_of t) (suOpenAt s)) by (split_if; lia). exact Hx.
Qed.

(** ** Streams *)

(** No trade arrives a full window after the newest one seen. *)
Fixpoint timely (newest : option Z) (ts : list Trade) : bool :=
  match ts with
  | [] => true
  | t :: ts =>
      from_option (fun n => n - summaryBuckets <? minute_of t) true newest &&
      timely (Some (from_option (Z.max (minute_of t)) (minute_of t) newest)) ts
  end.

Definition newest_of (ts : list Trade) : Z :=
  match ts with [] => 0 | t :: r => foldr (fun u => Z.max (minute_of u)) (minute_of t) r end.

(** The trades of the last 1440 minutes. *)
Definition window (ts : list Trade) : list Trade := since (newest_of ts - summaryBuckets) ts.

Lemma Sum_Apply_ok s W t :
  sum_ok s W -> len W < MaxInt64 ->
  (W <> [] -> suNewest s - summaryBuckets < minute_of t) ->
  let s' := Sum_Apply s t in
  suNewest s' = new_newest s W (minute_of t) /\
  sum_ok s' (since (suNewest s' - summaryBuckets) (W ++ [t])) /\
  since (suNewest s' - summaryBuckets) (W ++ [t]) <> [] /\
  suLast s' = trPrice t /\ suSymbol s' = suSymbol s.
Proof.
  intros Hok Hlen Ht. cbv zeta. unfold Sum_Apply.
  destruct (advance_ok s W (minute_of t) Hok) as (Hn & Hok1 & Hl1 & Hs1).
  set (s1 := advance s (minute_of t)) in *.
  assert (Hrange : suNewest s1 - summaryBuckets < minute_of t <= suNewest s1).
  { rewrite Hn. unfold new_newest, summaryBuckets in *. destruct W; [lia|].
    specialize (Ht ltac:(done)). lia. }
  assert (Hlen1 : len (since (suNewest s1 - summaryBuckets) W) < MaxInt64).
  { pose proof (length_filter (fun u => suNewest s1 - summaryBuckets < minute_of u) W).
    unfold since, len in *. lia. }
  destruct (add_trade_ok s1 _ t Hok1 Hrange Hlen1) as (Hok2 & Hn2 & Hl2 & Hs2).
  assert (Hsince : since (suNewest s1 - summaryBuckets) (W ++ [t]) =
    since (suNewest s1 - summaryBuckets) W ++ [t]).
  { unfold since. rewrite filter_app, filter_cons_True by lia. done. }
  rewrite Hn2, Hn in *. rewrite Hsince. split; [done|]. split; [done|].
  split; [by destruct (since _ _)|]. split; [done|]. congruence.
Qed.

Lemma newest_of_snoc ps t :
  ps <> [] -> newest_of (ps ++ [t]) = Z.max (minute_of t) (newest_of ps).
Proof.
  destruct ps as [|p ps]; [done|]. intros _. simpl.
  induction ps as [|q ps IH]; simpl; [lia|]. rewrite IH. lia.
Qed.

Lemma newest_of_ge ps t : t ∈ ps -> minute_of t <= newest_of ps.
Proof.
  destruct ps as [|p ps]; [by intros ?%elem_of_nil|]. simpl. intros [->|Hin]%elem_of_cons.
  - induction ps; simpl; lia.
  - induction ps as [|q ps IH]; [by apply elem_of_nil in Hin|]. simpl.
    apply elem_of_cons in Hin as [->|Hin]; [lia|]. specialize (IH Hin). lia.
Qed.

Record stream_inv (s : Summary24h) (ps : list Trade) : Prop := {
  st_ok : sum_ok s (window ps);
  st_newest : ps <> [] -> suNewest s = newest_of ps;
  st_nonempty : ps <> [] -> window ps <> [];
  st_last : ps <> [] -> Some (suLast s) = trPrice <$> last ps }.

Lemma window_snoc ps t :
  ps <> [] -> window (ps ++ [t]) = since (newest_of (ps ++ [t]) - summaryBuckets) (window ps ++ [t]).
Proof.
  intros Hne. unfold window. unfold since at 1 2. rewrite !filter_app. f_equal.
  symmetry. apply since_since. rewrite newest_of_snoc by done. lia.
Qed.

Lemma stream_step s ps t :
  stream_inv s ps -> len ps < MaxInt64 ->
  (ps <> [] -> newest_of ps - summaryBuckets < minute_of t) ->
  stream_inv (Sum_Apply s t) (ps ++ [t]) /\ suSymbol (Sum_Apply s t) = suSymbol s.
Proof.
  intros [Hok Hn Hne Hl] Hlen Ht.
  assert (HlenW : len (window ps) < MaxInt64).
  { pose proof (length_filter (fun u => newest_of ps - summaryBuckets < minute_of u) ps).
    unfold window, since, len in *. lia. }
  destruct (Sum_Apply_ok s (window ps) t Hok HlenW) as (Hn' & Hok' & Hne' & Hl' & Hs').
  { intros HW. assert (Hps : ps <> []) by (intros ->; by apply HW). rewrite (Hn Hps). by apply Ht. }
  assert (Hnew : suNewest (Sum_Apply s t) = newest_of (ps ++ [t])).
  { rewrite Hn'. destruct ps as [|p ps].
    - done.
    - rewrite newest_of_snoc by done. unfold new_newest.
      destruct (window (p :: ps)) eqn:E; [by destruct (Hne ltac:(done))|]. rewrite Hn by done. lia. }
  rewrite Hnew in *.
  assert (Hw : since (newest_of (ps ++ [t]) - summaryBuckets) (window ps ++ [t]) = window (ps ++ [t])).
  { destruct ps as [|p ps]; [done|]. by rewrite window_snoc. }
  rewrite Hw in *. split; [|done]. split; [done|done|done|]. intros _. by rewrite Hl', last_snoc.
Qed.

Lemma stream_run rest s ps :
  stream_inv s ps -> timely (match ps with [] => None | _ => Some (newest_of ps) end) rest = true ->
  len ps + len rest <= MaxInt64 ->
  stream_inv (fold_left Sum_Apply rest s) (ps ++ rest) /\
  suSymbol (fold_left Sum_Apply rest s) = suSymbol s.
Proof.
  revert s ps. induction rest as [|t rest IH]; intros s ps Hi Ht Hl; [by rewrite app_nil_r|].
  cbn [timely] in Ht. apply andb_true_iff in Ht as [Ht Hrest].
  destruct (stream_step s ps t Hi) as [Hi' Hs']; [unfold len in *; cbn [length] in *; lia| |].
  { intros Hne. destruct ps; [done|]. cbn [from_option] in Ht. by bool_to_prop. }
  cbn [fold_left]. destruct (IH (Sum_Apply s t) (ps ++ [t]) Hi') as [IH1 IH2].
  - replace (match ps ++ [t] with [] => None | _ => Some (newest_of (ps ++ [t])) end)
      with (Some (newest_of (ps ++ [t]))) by (by destruct ps).
    destruct ps as [|p ps]; [done|]. rewrite newest_of_snoc by done. exact Hrest.
  - unfold len in *. rewrite length_app. cbn [length] in *. lia.
  - rewrite <- app_assoc in IH1. split; [exact IH1|congruence].
Qed.

Lemma stream_new sym : stream_inv (NewSummary24h sym) [].
Proof.
  split; try done. apply inv_empty, core_empty; try done.
  intros b Hb. by apply elem_of_replicate in Hb as [-> _].
Qed.

(** C6: For every stream in which no trade is a full day older than the
    newest one seen, the summary served to clients equals a direct
    computation over the trades of the last 1440 minutes: total quantity, trade count, highest and lowest
    price, the first price of the oldest minute, and the last price.  The
    incremental expiry, the cached extremes and the ring never drift from it. *)
Theorem summary_exact sym ts at_ :
  ts <> [] -> timely None ts = true -> len ts <= MaxInt64 ->
  Forall (fun t => in_i64 (trPrice t)) ts ->
  let s := fold_left Sum_Apply ts (NewSummary24h sym) in
  let W := window ts in
  exists m, Sum_Snapshot s at_ = Some m /\ HasData s = true /\
    smSymbol m = ID sym /\
    smVolume24h m = i64 (total (trQuantity <$> W)) /\ smTrades24h m = len W /\
    is_max W (smHigh24h m) /\ is_min W (smLow24h m) /\
    (exists oldest, is_open W oldest (smOpen24h m)) /\
    Some (smLast m) = trPrice <$> last ts /\
    (smOpen24h m <> 0 -> smChange m = i64 (smLast m - smOpen24h m)).
Proof.
  intros Hne Ht Hl Hp. cbv zeta.
  destruct (stream_run ts (NewSummary24h sym) [] (stream_new sym) Ht Hl) as [[Hok Hn Hw Hlast] Hs].
  cbn [app] in *. set (s := fold_left _ _ _) in *.
  specialize (Hw Hne). specialize (Hlast Hne). pose proof Hok as [Hc Hh Hlo Ho].
  specialize (Hh Hw). specialize (Hlo Hw). specialize (Ho Hw).
  assert (Hdata : HasData s = true).
  { unfold HasData. apply Z.ltb_lt. pose proof (count_zero _ _ _ Hc).
    assert (0 <= suCount s) by (rewrite (si_count _ _ _ Hc); unfold set_count, len; lia).
    destruct (decide (suCount s = 0)); [tauto|lia]. }
  assert (Hopen : in_i64 (suOpen s)).
  { destruct Ho as [_ Ho]. destruct (head _) as [t|] eqn:E; [|done]. injection Ho as <-.
    apply head_Some_elem_of, list_elem_of_filter in E as [_ E].
    apply list_elem_of_filter in E as [_ E]. rewrite Forall_forall in Hp. by apply Hp. }
  assert (Hsnap : exists m, Sum_Snapshot s at_ = Some m /\ smSymbol m = ID (suSymbol s) /\
    smVolume24h m = suVolume s /\ smTrades24h m = suTrades s /\ smHigh24h m = suHigh s /\
    smLow24h m = suLow s /\ smOpen24h m = suOpen s /\ smLast m = suLast s /\
    (suOpen s <> 0 -> smChange m = i64 (suLast s - suOpen s))).
  { unfold Sum_Snapshot. fold (HasData s). rewrite Hdata. cbn [andb]. cbv zeta.
    destruct (suOpen s =? 0) eqn:E; bool_to_prop; cbn [negb].
    - eexists. split; [done|]. split_and!; done.
    - destruct (ChangeBasisPoints_total (suOpen s) (suLast s) Hopen E) as (r & -> & _).
      eexists. split; [done|]. split_and!; done. }
  destruct Hsnap as (m & Hm & E1 & E2 & E3 & E4 & E5 & E6 & E7 & Hch).
  exists m. rewrite E1, E2, E3, E4, E5, E6, E7. split; [done|]. split; [done|]. split; [by rewrite Hs|].
  split; [by apply Hc|]. split.
  { rewrite (si_trades _ _ _ Hc). apply i64_small.
    pose proof (length_filter (fun u => newest_of ts - summaryBuckets < minute_of u) ts).
    unfold in_i64, window, since, len in *. lia. }
  by eauto 10.
Qed.

Definition sum_trade (n s p q : Z) : Trade :=
  mkTrade n "BTCUSDT" (unixNanos ((1789649700 + s) * Second)) p q SideBuy.
Definition sum_trades : list Trade :=
  [sum_trade 1 0 100 5; sum_trade 2 60 90 1; sum_trade 3 86400 95 2; sum_trade 4 86399 99 4].

Example summary_exact_witness :
  exists m, Sum_Snapshot (fold_left Sum_Apply sum_trades (NewSummary24h BTCUSDT)) zeroTime = Some m /\
    smVolume24h m = 7 /\ smTrades24h m = 3 /\ smLast m = 99.
Proof.
  destruct (summary_exact BTCUSDT sum_trades zeroTime ltac:(done) ltac:(by vm_compute)
    ltac:(by vm_compute) ltac:(repeat constructor; vm_compute; discriminate))
    as (m & Hm & _ & _ & Hv & Ht & _ & _ & _ & Hl & _).
  exists m. split; [exact Hm|].
  split; [rewrite Hv; vm_compute; reflexivity|].
  split; [rewrite Ht; vm_compute; reflexivity|].
  injection Hl as ->. reflexivity.
Defined.

(** A trade a full day late lands on the slot of a live minute and expires
    it: the live trades of that minute leave the volume. *)
Example day_late_trade_expires_live_minute :
  let s := fold_left Sum_Apply [sum_trade 1 86400 100 5; sum_trade 2 0 90 1] (NewSummary24h BTCUSDT) in
  suVolume s = 1 /\ suNewest s = minute_of (sum_trade 1 86400 100 5).
Proof. by vm_compute. Qed.
