(* ===== verification/Bus.v ===== *)
(** * The canonical event bus: [internal/market/bus.go]

    A bus is a finite map from subscription identities to mailboxes.  The
    receive side takes from the front of [subQueue].  Go ranges over the map in
    an unspecified order: no mailbox depends on the others, and the order of
    the returned names is that of the model's map. *)

From S2P Require Import Prelude Money GoTime Domain Book.

Inductive EngState := StateStarting | StateWarming | StateLive | StatePaused | StateDegraded | StateStopped.
#[global] Instance EngState_eq_dec : EqDecision EngState.
Proof. solve_decision. Defined.

Record MarketStatus := mkStatus {
  msState : EngState; msEpoch : Z; msMessage : string; msAt : Time }.

Inductive Event :=
| EventTrade (t : Trade)
| EventBookWindow (w : BookWindow)
| EventCandleChanged (c : Candle)
| EventCandleClosed (c : Candle)
| EventMarketStatus (s : MarketStatus).

Definition Kind_String (ev : Event) : string :=
  match ev with
  | EventTrade _ => "trade" | EventBookWindow _ => "book_window"
  | EventCandleChanged _ => "candle_changed" | EventCandleClosed _ => "candle_closed"
  | EventMarketStatus _ => "market_status"
  end.

Record Subscription := mkSub {
  subName : string; subCap : Z; subQueue : list Event; subDone : bool; subDropped : Z }.

Record Bus := mkBus { busSubs : gmap positive Subscription }.

Definition NewBus : Bus := mkBus ∅.

(** [Subscribe] allocates a new subscription: [fresh] stands for the new
    pointer. *)
Definition Subscribe (b : Bus) (name : string) (capacity : Z) : Bus * positive :=
  let capacity := if capacity <=? 0 then 64 else capacity in
  let id := fresh (dom (busSubs b)) in
  (mkBus (<[id := mkSub name capacity [] false 0]> (busSubs b)), id).

(** The subscription leaves the map and is marked done; a nil subscription is
    ignored. *)
Definition close (s : Subscription) : Subscription :=
  mkSub (subName s) (subCap s) (subQueue s) true (subDropped s).
Definition Unsubscribe (b : Bus) (id : option positive) : Bus * option Subscription :=
  match id with
  | None => (b, None)
  | Some id => (mkBus (delete id (busSubs b)), close <$> busSubs b !! id)
  end.

Definition SubscriberCount (b : Bus) : nat := size (busSubs b).

Definition critical (ev : Event) : bool :=
  match ev with EventCandleClosed _ | EventMarketStatus _ => true | _ => false end.

(** A non-blocking send on the mailbox. *)
Definition has_room (s : Subscription) : bool := len (subQueue s) <? subCap s.
Definition enqueue (s : Subscription) (ev : Event) : Subscription :=
  mkSub (subName s) (subCap s) (subQueue s ++ [ev]) (subDone s) (subDropped s).

(** What happens while a critical event waits up to 50 ms on a full mailbox:
    the consumer receives [n > 0] events, it goes away, or the wait times
    out. *)
Inductive wait := Drained (n : nat) | WentAway | TimedOut.

Definition drain (s : Subscription) (n : nat) : Subscription :=
  mkSub (subName s) (subCap s) (drop n (subQueue s)) (subDone s) (subDropped s).

(** Delivery of one event to one subscriber; the string is the reported
    drop. *)
Definition deliver (s : Subscription) (ev : Event) (w : wait) : Subscription * option string :=
  if subDone s then (s, None)
  else if critical ev then
    if has_room s then (enqueue s ev, None)
    else match w with
         | Drained n => if has_room (drain s n) then (enqueue (drain s n) ev, None)
                        else (drain s n, Some (subName s ++ ":critical")%string)
         | WentAway => (close s, None)
         | TimedOut => (s, Some (subName s ++ ":critical")%string)
         end
  else if has_room s then (enqueue s ev, None)
  else (mkSub (subName s) (subCap s) (subQueue s) (subDone s) (u64 (subDropped s + 1)),
        Some (subName s)).

Definition Publish (b : Bus) (ev : Event) (w : positive -> wait) : Bus * list string :=
  (mkBus (map_imap (fun id s => Some (fst (deliver s ev (w id)))) (busSubs b)),
   omap (fun '(id, s) => snd (deliver s ev (w id))) (map_to_list (busSubs b))).

(** Every subscriber is removed and marked done. *)
Definition Close (b : Bus) : Bus * gmap positive Subscription :=
  (NewBus, close <$> busSubs b).

(** ** Properties *)

Definition sub_wf (s : Subscription) : Prop := 0 < subCap s /\ len (subQueue s) <= subCap s.
#[global] Instance sub_wf_dec s : Decision (sub_wf s).
Proof. unfold sub_wf. apply _. Defined.
Definition bus_wf (b : Bus) : Prop := map_Forall (fun _ s => sub_wf s) (busSubs b).

#[global] Instance bus_wf_dec b : Decision (bus_wf b).
Proof. unfold bus_wf. apply _. Defined.

Lemma deliver_wf s ev w : sub_wf s -> sub_wf (fst (deliver s ev w)).
Proof.
  intros [Hc Hl]. unfold deliver, has_room, enqueue, drain, close, sub_wf, len in *.
  destruct (subDone s); [done|]. destruct (critical ev).
  - destruct (_ <? _) eqn:E; bool_to_prop; [simpl; rewrite length_app; simpl; lia|].
    destruct w as [n| |]; [|simpl; lia|simpl; lia].
    cbn [subQueue subCap]. destruct (Z.of_nat (length (drop n _)) <? _) eqn:E'; bool_to_prop; simpl.
    + rewrite length_app. simpl. lia.
    + rewrite length_drop in *. lia.
  - destruct (_ <? _) eqn:E; bool_to_prop; simpl; rewrite ?length_app; simpl; lia.
Qed.

Lemma Publish_lookup b ev w id :
  busSubs (fst (Publish b ev w)) !! id = (fun s => fst (deliver s ev (w id))) <$> busSubs b !! id.
Proof. unfold Publish. simpl. rewrite map_lookup_imap. by destruct (busSubs b !! id). Qed.

Lemma elem_dropped b ev w n :
  n ∈ snd (Publish b ev w) <->
  exists id s, busSubs b !! id = Some s /\ snd (deliver s ev (w id)) = Some n.
Proof.
  unfold Publish. simpl. rewrite list_elem_of_omap. split.
  - intros ([id s] & Hin & Hd). apply elem_of_map_to_list in Hin. by eauto.
  - intros (id & s & Hl & Hd). exists (id, s). by rewrite elem_of_map_to_list.
Qed.

(** Publishing affects every mailbox independently and never overfills
    one.  To a live subscriber an ordinary event is either appended at the end
    of its mailbox or, when the mailbox is full, lost with the loss counted
    and reported by name, and it never waits; a critical event (candle close,
    market status) is appended unless the subscriber left or stayed full for
    the whole wait, and then the miss is reported.  A closed
    subscription receives nothing. *)
Theorem Publish_delivers b ev w id s :
  bus_wf b -> busSubs b !! id = Some s ->
  exists s', busSubs (fst (Publish b ev w)) !! id = Some s' /\ sub_wf s' /\
    (subDone s = true -> s' = s) /\
    (subDone s = false -> critical ev = false ->
       if decide (len (subQueue s) < subCap s)
       then subQueue s' = subQueue s ++ [ev] /\ subDropped s' = subDropped s
       else subQueue s' = subQueue s /\ subDropped s' = u64 (subDropped s + 1) /\
            subName s ∈ snd (Publish b ev w)) /\
    (subDone s = false -> critical ev = true ->
       (exists k, subQueue s' = drop k (subQueue s) ++ [ev]) \/ subDone s' = true \/
       (subName s ++ ":critical")%string ∈ snd (Publish b ev w)).
Proof.
  intros Hwf Hl. exists (fst (deliver s ev (w id))). split; [by rewrite Publish_lookup, Hl|].
  split; [apply deliver_wf; by eapply Hwf|].
  assert (Hrep : forall n, snd (deliver s ev (w id)) = Some n -> n ∈ snd (Publish b ev w))
    by (intros n Hn; apply elem_dropped; by eauto).
  split; [|split].
  - intros Hd. unfold deliver. by rewrite Hd.
  - intros Hds Hcr. revert Hrep. unfold deliver, has_room. rewrite Hds, Hcr.
    case_decide as Hd.
    + rewrite (proj2 (Z.ltb_lt _ _)) by done. done.
    + rewrite (proj2 (Z.ltb_ge _ _)) by lia. intros Hrep. split; [done|]. split; [done|].
      by apply Hrep.
  - intros Hds Hcr. revert Hrep. unfold deliver, has_room. rewrite Hds, Hcr.
    destruct (len (subQueue s) <? subCap s); [intros _; left; by exists 0%nat|].
    destruct (w id) as [n| |]; [|intros _; right; by left|intros Hrep; right; right; by apply Hrep].
    destruct (len (subQueue (drain s n)) <? _); [intros _; left; by exists n|].
    intros Hrep. right. right. by apply Hrep.
Qed.

Example Publish_delivers_witness :
  let '(b, id) := Subscribe NewBus "s" 1 in
  let '(b, _) := Publish b (EventTrade (mkTrade 1 "X" zeroTime 1 1 SideBuy)) (fun _ => TimedOut) in
  let '(b, lost) := Publish b (EventTrade (mkTrade 2 "X" zeroTime 1 1 SideBuy)) (fun _ => TimedOut) in
  exists s', busSubs b !! id = Some s' /\ sub_wf s' /\ subDropped s' = 1 /\ lost = ["s"%string].
Proof.
  destruct (Publish_delivers
    (fst (Publish (fst (Subscribe NewBus "s" 1)) (EventTrade (mkTrade 1 "X" zeroTime 1 1 SideBuy))
      (fun _ => TimedOut)))
    (EventTrade (mkTrade 2 "X" zeroTime 1 1 SideBuy)) (fun _ => TimedOut)
    1%positive (mkSub "s" 1 [EventTrade (mkTrade 1 "X" zeroTime 1 1 SideBuy)] false 0))
    as (s' & Hs & Hw & _ & Hd & _).
  - apply (bool_decide_unpack _). vm_compute. exact I.
  - vm_compute. reflexivity.
  - specialize (Hd eq_refl eq_refl). exists s'. split; [exact Hs|]. split; [exact Hw|].
    destruct Hd as (_ & Hd & _). split; [exact Hd|]. vm_compute. reflexivity.
Defined.
