(* ===== verification/Provider.v ===== *)
(** * The upstream boundary: [internal/exchange/provider.go]

    Normalised market events and the operations a provider offers.  The two
    methods every provider implements are a class; the optional capabilities
    (pacing, pausing, bursting) are flags, and a call to one is an effect. *)

From S2P Require Import Prelude Money GoTime Domain.

Record BookDelta := mkDelta {
  bdSymbol : string; bdEpoch : Z; bdFirst : Z; bdLast : Z;
  bdBids : list Level; bdAsks : list Level; bdTimestamp : Time }.

Inductive MarketEvent :=
| TradeEvent (t : Trade)
| BookDeltaEvent (d : BookDelta)
| HeartbeatEvent (at_ : Time)
| FaultEvent (kind description : string) (at_ : Time).

Definition EventType_String (ev : MarketEvent) : string :=
  match ev with
  | TradeEvent _ => "trade" | BookDeltaEvent _ => "book_delta"
  | HeartbeatEvent _ => "heartbeat" | FaultEvent _ _ _ => "fault"
  end.

Definition At (ev : MarketEvent) : Time :=
  match ev with
  | TradeEvent t => trTimestamp t | BookDeltaEvent d => bdTimestamp d
  | HeartbeatEvent at_ => at_ | FaultEvent _ _ at_ => at_
  end.

Inductive Pace := PaceRealtime | PaceFast.
Definition Pace_String (p : Pace) : string :=
  match p with PaceFast => "fast" | PaceRealtime => "realtime" end.

(** A provider with state [P]: a bootstrap snapshot, and the next event of the
    stream; [None] is a closed stream. *)
Class MarketDataProvider (P : Type) := {
  pSnapshot : P -> string -> res OrderBookSnapshot;
  pNext : P -> option (MarketEvent * P) }.

(** Which optional interfaces a provider implements. *)
Record Capabilities := mkCaps { capPace : bool; capPause : bool; capBurst : bool }.
