(* ===== verification/Engine.v ===== *)
(** * The market engine: [internal/market/engine.go]

    One writer owns the canonical state of one market.  Each operation is a
    function from the engine to the new engine and the effects it has, in
    order: events published on the bus, records handed to the metrics
    recorder, and calls to optional provider capabilities.  The lock only
    orders whole operations; [applyTrade] publishes after its locked section,
    so its effects follow the state change.

    [now] is the reading of the injected clock during the operation.  The
    texts of wrapped errors are not modelled: an [EngineEvent] carries the
    sentinel error instead. *)

From S2P Require Import Prelude Money GoTime Domain Float64 Rand Book Candles Summary Tape Bus.
From S2P Require Import Provider.

Record EngineEvent := mkEngineEvent {
  eeEvent : string; eeEpoch : Z; eeEventIndex : Z; eeUpdateID : Z; eeTradeID : Z;
  eeError : option error; eeDetail : string; eeDurationMs : Z; eeAt : Time }.

Record Config := mkConfig {
  cfSymbol : Symbol; cfSeed : Z; cfBookLevels : Z; cfBookDeltaWindow : Z;
  cfBookRefreshHz : float64; cfWarmupEvents : Z; cfRecentTradesCap : Z; cfHistoryDepth : Z;
  cfVolatilityBurstRate : float64; cfBusCapacity : Z }.

Definition withDefaults (c : Config) : Config :=
  mkConfig (cfSymbol c) (cfSeed c)
    (if cfBookLevels c <? 15 then 100 else cfBookLevels c)
    (if cfBookDeltaWindow c <? 10 then 15 else cfBookDeltaWindow c)
    (if f64_leb (cfBookRefreshHz c) (f64_of_Z 0) then f64_of_Z 10 else cfBookRefreshHz c)
    (cfWarmupEvents c)
    (if cfRecentTradesCap c <? 50 then 200 else cfRecentTradesCap c)
    (if cfHistoryDepth c <=? 0 then 500 else cfHistoryDepth c)
    (cfVolatilityBurstRate c)
    (if cfBusCapacity c <=? 0 then 256 else cfBusCapacity c).

Inductive Effect :=
| EPublish (ev : Event)
| ERecordEngine (ev : EngineEvent)
| ERecordClose (c : Candle)
| ESetPace (p : Pace) | EPause | EResume | EForceBurst (d : Z).

(** [byInterval] maps an interval to one of the aggregators of [enAggs]; it is
    the search of that list. *)
Record Engine (G : Type) := mkEngine {
  enCfg : Config; enCaps : Capabilities;
  enBook : OrderBook; enAggs : list CandleAggregator; enSummary : Summary24h;
  enTrades : TradeRing; enRng : G;
  enEpoch : Z; enEventIndex : Z; enState : EngState; enLastPrice : Z;
  enWarmupDone : bool; enLastErr : option error }.
Arguments mkEngine {G}. Arguments enCfg {G}. Arguments enCaps {G}. Arguments enBook {G}.
Arguments enAggs {G}. Arguments enSummary {G}. Arguments enTrades {G}. Arguments enRng {G}.
Arguments enEpoch {G}. Arguments enEventIndex {G}. Arguments enState {G}.
Arguments enLastPrice {G}. Arguments enWarmupDone {G}. Arguments enLastErr {G}.

Section Engine.
Context {G : Type} `{RandSource G}.
Implicit Types e : Engine G.

Definition set_book e (b : OrderBook) (g : G) : Engine G :=
  mkEngine (enCfg e) (enCaps e) b (enAggs e) (enSummary e) (enTrades e) g (enEpoch e)
    (enEventIndex e) (enState e) (enLastPrice e) (enWarmupDone e) (enLastErr e).
Definition set_market e aggs su tr : Engine G :=
  mkEngine (enCfg e) (enCaps e) (enBook e) aggs su tr (enRng e) (enEpoch e)
    (enEventIndex e) (enState e) (enLastPrice e) (enWarmupDone e) (enLastErr e).
Definition set_tick e idx price : Engine G :=
  mkEngine (enCfg e) (enCaps e) (enBook e) (enAggs e) (enSummary e) (enTrades e) (enRng e)
    (enEpoch e) idx (enState e) price (enWarmupDone e) (enLastErr e).
Definition setState e (s : EngState) : Engine G :=
  mkEngine (enCfg e) (enCaps e) (enBook e) (enAggs e) (enSummary e) (enTrades e) (enRng e)
    (enEpoch e) (enEventIndex e) s (enLastPrice e) (enWarmupDone e) (enLastErr e).
Definition set_warm e : Engine G :=
  mkEngine (enCfg e) (enCaps e) (enBook e) (enAggs e) (enSummary e) (enTrades e) (enRng e)
    (enEpoch e) (enEventIndex e) (enState e) (enLastPrice e) true (enLastErr e).
Definition set_err e (x : error) : Engine G :=
  mkEngine (enCfg e) (enCaps e) (enBook e) (enAggs e) (enSummary e) (enTrades e) (enRng e)
    (enEpoch e) (enEventIndex e) (enState e) (enLastPrice e) (enWarmupDone e) (Some x).

(** ** Construction *)

Definition New (cfg : Config) (caps : Capabilities) (rng : Z -> Z -> G)
    (snapshot : res OrderBookSnapshot) : res (Engine G) :=
  let cfg := withDefaults cfg in
  let aggs := map (fun iv => NewCandleAggregator (cfSymbol cfg) iv (cfHistoryDepth cfg)) Intervals in
  let book := NewOrderBook (cfSymbol cfg) (cfBookLevels cfg) (cfBookDeltaWindow cfg) in
  snap ← snapshot;
  match Install book (snEpoch snap) (snUpdateID snap) (snBids snap) (snAsks snap) with
  | (_, Some err) => Err err
  | (book, None) =>
      Ok (mkEngine cfg caps book aggs (NewSummary24h (cfSymbol cfg))
            (NewTradeRing (cfRecentTradesCap cfg))
            (rng (Z.lxor (u64 (cfSeed cfg)) 2685821657736338717) (u64 (cfSeed cfg)))
            0 0 StateStarting 0 false None)
  end.

(** ** The write path *)

Definition recordInvariant e (err : error) (t : Trade) (now : Time) : Effect :=
  ERecordEngine (mkEngineEvent "INVARIANT_VIOLATION" (enEpoch e) (enEventIndex e)
    (bkUpdateID (enBook e)) (trID t) (Some err) "" 0 now).

Definition window_event (m : Mutation) (description : string) : Event :=
  EventBookWindow (mkWindow (muSymbol m) (muEpoch m) (muLastUpdate m) (muBids m) (muAsks m)
    (muAt m) description).

(** The loop over the aggregators: the new aggregators, the candles that
    changed and those that closed. *)
Fixpoint apply_aggs (aggs : list CandleAggregator) (t : Trade)
    : list CandleAggregator * list Candle * list Candle :=
  match aggs with
  | [] => ([], [], [])
  | a :: aggs =>
      let '(a', changed, closed) := Candles.Apply a t in
      let '(aggs', changes, closes) := apply_aggs aggs t in
      (a' :: aggs',
       (if changed then option_list (Active a') else []) ++ changes,
       option_list closed ++ closes)
  end.

Definition applyTrade e (t : Trade) (emit : bool) (now : Time) : option (Engine G * list Effect) :=
  let e := set_tick e (u64 (enEventIndex e + 1)) (trPrice t) in
  '(b, mutation, g) ← ApplyTrade (enBook e) t (enRng e);
  let e := set_book e b g in
  match mutation ≫= muErr with
  | Some err => Some (e, [recordInvariant e err t now])
  | None =>
      let '(aggs, changes, closes) := apply_aggs (enAggs e) t in
      let violations :=
        omap (fun c => match Candle_Validate c with
                       | Some err => Some (recordInvariant e err t now)
                       | None => None end) closes in
      let e := set_market e aggs (Sum_Apply (enSummary e) t) (Push (enTrades e) t) in
      if negb emit then Some (e, violations)
      else Some (e, violations
             ++ concat (map (fun c => [ERecordClose c; EPublish (EventCandleClosed c)]) closes)
             ++ (match mutation with
                 | Some m => [EPublish (window_event m "trade")]
                 | None => [] end)
             ++ map (fun c => EPublish (EventCandleChanged c)) changes
             ++ [EPublish (EventTrade t)])
  end.

Definition applyProviderDelta e (d : BookDelta) (emit : bool) : Engine G * list Effect :=
  let '(b, r) := ApplyDelta (enBook e) (bdEpoch d) (bdFirst d) (bdLast d) (bdBids d) (bdAsks d)
                   (bdTimestamp d) in
  let e := set_book e b (enRng e) in
  match r with
  | Err err => (e, [ERecordEngine (mkEngineEvent "PROVIDER_DELTA_REJECTED" (enEpoch e) 0 0 0
                      (Some err) "" 0 (bdTimestamp d))])
  | Ok m => (e, if emit then [EPublish (window_event m "provider")] else [])
  end.

Definition applyEvent e (ev : MarketEvent) (emit : bool) (now : Time)
    : option (Engine G * list Effect) :=
  match ev with
  | TradeEvent t => applyTrade e t emit now
  | BookDeltaEvent d => Some (applyProviderDelta e d emit)
  | FaultEvent kind description at_ =>
      Some (e, [ERecordEngine (mkEngineEvent "FAULT_INJECTED" (enEpoch e) 0 0 0 None
                  (kind ++ ": " ++ description)%string 0 at_)])
  | HeartbeatEvent _ => Some (e, [])
  end.

Definition refreshBook e (now : Time) : option (Engine G * list Effect) :=
  let mid := if enLastPrice e =? 0 then
               match BestBid (enBook e) with Some best => lvPrice best | None => 0 end
             else enLastPrice e in
  '(b, mutation, g) ← Refresh (enBook e) (enRng e) mid now;
  let e := set_book e b g in
  Some (match mutation with
        | None => (e, [])
        | Some m =>
            match muErr m with
            | Some err => (e, [recordInvariant e err zeroTrade now])
            | None => (e, [EPublish (window_event m "refresh")])
            end
        end).

(** ** Lifecycle *)

Definition publishStatus e (message : string) (now : Time) : Effect :=
  EPublish (EventMarketStatus (mkStatus (enState e) (enEpoch e) message now)).

Definition warmup_budget e : Z :=
  if cfWarmupEvents (enCfg e) <=? 0 then 200000 else cfWarmupEvents (enCfg e).

(** The warmup loop over the events the stream delivers. *)
Fixpoint warmup_loop e (events : list MarketEvent) (now : Time) : option (Engine G * list Effect) :=
  match events with
  | [] => Some (e, [])
  | ev :: events =>
      '(e, out) ← applyEvent e ev false now;
      '(e, out') ← warmup_loop e events now;
      Some (e, out ++ out')
  end.

(** A stream or a context that ends before the budget is spent stops the warmup
    with an error: the engine keeps what it aggregated.  [events] are those
    received until then, [cancelled] says that the context ended. *)
Definition warmup e (events : list MarketEvent) (cancelled : bool) (start now : Time)
    : option (Engine G * list Effect * option error) :=
  let e := setState e StateWarming in
  let fast := if capPace (enCaps e) then [ESetPace PaceFast] else [] in
  let budget := warmup_budget e in
  '(e, out) ← warmup_loop e (take (Z.to_nat budget) events) now;
  if len events <? budget then Some (e, fast ++ out, Some (if cancelled then ErrContext else ErrProviderClosed))
  else
    let e := set_warm e in
    let done_ := ERecordEngine (mkEngineEvent "WARMUP_COMPLETE" (enEpoch e) (enEventIndex e)
      (bkUpdateID (enBook e)) 0 None "events=" (dMilliseconds (tSub now start)) now) in
    Some (e, fast ++ out ++ (if capPace (enCaps e) then [ESetPace PaceRealtime] else []) ++ [done_],
          None).

(** One round of the live loop. *)
Inductive Input := CtxDone | Tick | Received (ev : MarketEvent) | StreamClosed.

Definition go_live e (now : Time) : Engine G * list Effect :=
  let e := setState e StateLive in (e, [publishStatus e "live" now]).

(** The flag says that [Run] returned. *)
Definition run_step e (i : Input) (now : Time) : option (Engine G * list Effect * bool) :=
  match i with
  | CtxDone =>
      let e := setState e StateStopped in
      Some (e, [publishStatus e "stopped" now], true)
  | StreamClosed =>
      let e := set_err (setState e StateDegraded) ErrProviderClosed in
      Some (e, [publishStatus e "provider_closed" now], true)
  | Tick =>
      if decide (enState e = StatePaused) then Some (e, [], false)
      else '(e, out) ← refreshBook e now; Some (e, out, false)
  | Received ev =>
      if decide (enState e = StatePaused) then Some (e, [], false)
      else '(e, out) ← applyEvent e ev true now; Some (e, out, false)
  end.

(** ** Debug controls *)

Definition Pause e (now : Time) : Engine G * list Effect :=
  let calls := if capPause (enCaps e) then [EPause] else [] in
  let e := setState e StatePaused in
  (e, calls ++ [publishStatus e "generator paused" now]).

Definition Resume e (now : Time) : Engine G * list Effect :=
  let calls := if capPause (enCaps e) then [EResume] else [] in
  let e := setState e StateLive in
  (e, calls ++ [publishStatus e "generator resumed" now]).

Definition Burst e (d : Z) (now : Time) : Engine G * list Effect :=
  (e, (if capBurst (enCaps e) then [EForceBurst d] else []) ++
      [ERecordEngine (mkEngineEvent "BURST_START" (enEpoch e) 0 0 0 None "" 0 now)]).

(** The epoch grows even when the snapshot is refused by the book. *)
Definition Reset e (snapshot : res OrderBookSnapshot) (now : Time)
    : Engine G * list Effect * option error :=
  match snapshot with
  | Err err => (e, [], Some err)
  | Ok snap =>
      let epoch := u64 (enEpoch e + 1) in
      let '(b, err) := Install (enBook e) epoch (snUpdateID snap) (snBids snap) (snAsks snap) in
      let e := mkEngine (enCfg e) (enCaps e) b (enAggs e) (enSummary e) (enTrades e) (enRng e)
        epoch (enEventIndex e) (enState e) (enLastPrice e) (enWarmupDone e) (enLastErr e) in
      match err with
      | Some err => (e, [], Some err)
      | None =>
          let e := set_market (set_tick e 0 0) (map Agg_Reset (enAggs e))
            (Sum_Reset (enSummary e)) (Ring_Reset (enTrades e)) in
          (e, [ERecordEngine (mkEngineEvent "RESET" epoch 0 (bkUpdateID (enBook e)) 0 None "" 0 now);
               publishStatus e "market reset" now], None)
      end
  end.

(** ** Reads *)

Definition Engine_Book e (now : Time) : OrderBookSnapshot := Snapshot (enBook e) now.

Definition Engine_BookWindow e (now : Time) : BookWindow :=
  let '(bids, asks) := windowLocked (enBook e) in
  mkWindow (ID (cfSymbol (enCfg e))) (bkEpoch (enBook e)) (bkUpdateID (enBook e)) bids asks now "".

Definition byInterval e (iv : Interval) : option CandleAggregator :=
  find (fun a => bool_decide (agInterval a = iv)) (enAggs e).

(** History, and whether its last candle is the active one. *)
Definition Engine_Candles e (iv : Interval) (limit : Z) : option (res (list Candle * bool)) :=
  match byInterval e iv with
  | None => Some (Err ErrUnsupportedInterval)
  | Some agg =>
      history ← HistoryWithActive agg limit;
      Some (Ok (history,
        match Active agg, last history with
        | Some active, Some c => tEqual (cdStartTime c) (cdStartTime active)
        | _, _ => false
        end))
  end.

Definition ActiveCandle e (iv : Interval) : option Candle := byInterval e iv ≫= Active.
Definition Engine_Summary e (now : Time) : option MarketSummary := Sum_Snapshot (enSummary e) now.
Definition RecentTrades e (limit : Z) : option (list Trade) := Recent (enTrades e) limit.

Definition LastPrice e : option Z :=
  if negb (enLastPrice e =? 0) then Some (enLastPrice e) else
  t ← Last (enTrades e);
  Some (match t with
        | Some t => trPrice t
        | None => match BestBid (enBook e) with Some bid => lvPrice bid | None => 0 end
        end).
End Engine.
