(* ===== verification/EngineSpec.v ===== *)
(** * The engine keeps one consistent market

    [engine_rep e ts] says that the aggregators, the summary and the tape of
    [e] all describe the same trades [ts]: those the book accepted since the
    last reset.  Every operation preserves it. *)

From S2P Require Import Prelude Money GoTime Domain Float64 Rand Book Ring Candles Summary.
From S2P Require Import Tape BookFacts BookSpec SummaryFacts Bus Provider Engine.

(** ** Aggregator lists *)

Definition agg_for (sym : Symbol) (depth : Z) (ts : list Trade) (iv : Interval)
    (a : CandleAggregator) : Prop :=
  agSymbol a = sym /\ agInterval a = iv /\ agDepth a = depth /\
  agg_rep a (fst (abs_run (ID sym) iv ts)) (snd (abs_run (ID sym) iv ts)).

Lemma agg_for_apply sym depth ts iv a t :
  agg_for sym depth ts iv a ->
  agg_for sym depth (ts ++ [t]) iv (fst (fst (Candles.Apply a t))).
Proof.
  intros (Hs & Hi & Hd & Hr). unfold agg_for. rewrite abs_run_snoc.
  destruct (abs_run (ID sym) iv ts) as [hist act]. cbn [fst snd] in *.
  pose proof (Apply_simulates _ _ _ t Hr) as Hsim. rewrite Hs, Hi in Hsim.
  destruct (abs_apply _ _ _ _) as [[[hist' act'] changed] closed].
  destruct Hsim as (a' & -> & Hr' & E1 & E2 & E3). cbn [fst snd]. split_and!; done || congruence.
Qed.

Lemma apply_aggs_new aggs t :
  fst (fst (apply_aggs aggs t)) = (fun a => fst (fst (Candles.Apply a t))) <$> aggs.
Proof.
  induction aggs as [|a aggs IH]; [done|]. cbn [apply_aggs fmap list_fmap].
  destruct (Candles.Apply a t) as [[a' changed] closed].
  destruct (apply_aggs aggs t) as [[aggs' changes] closes]. cbn [fst] in *. by rewrite IH.
Qed.

(** ** The summary under reset *)

Lemma expire_length s i : length (suBuckets (expire s i)) = length (suBuckets s).
Proof.
  unfold expire. cbv zeta. cbn [suCount]. destruct (_ =? 0); [apply length_insert|].
  set (s1 := mkSum _ _ _ _ _ _ _ _ _ _ _).
  assert (Hs1 : length (suBuckets s1) = length (suBuckets s)) by apply length_insert.
  assert (HH : forall s, suBuckets (recomputeHigh s) = suBuckets s)
    by (intros x; unfold recomputeHigh; by destruct (fold_left _ _ _)).
  assert (HL : forall s, suBuckets (recomputeLow s) = suBuckets s)
    by (intros x; unfold recomputeLow; by destruct (fold_left _ _ _)).
  assert (HO : forall s, suBuckets (recomputeOpen s) = suBuckets s)
    by (intros x; unfold recomputeOpen; destruct (fold_left _ _ _) as [[[? ?] ?] ?]; done).
  repeat destruct (_ =? _); rewrite ?HO, ?HL, ?HH; done.
Qed.

Lemma expire_symbol s i : suSymbol (expire s i) = suSymbol s.
Proof.
  unfold expire. cbv zeta. cbn [suCount]. destruct (_ =? 0); [done|].
  assert (HH : forall s, suSymbol (recomputeHigh s) = suSymbol s)
    by (intros x; unfold recomputeHigh; by destruct (fold_left _ _ _)).
  assert (HL : forall s, suSymbol (recomputeLow s) = suSymbol s)
    by (intros x; unfold recomputeLow; by destruct (fold_left _ _ _)).
  assert (HO : forall s, suSymbol (recomputeOpen s) = suSymbol s)
    by (intros x; unfold recomputeOpen; destruct (fold_left _ _ _) as [[[? ?] ?] ?]; done).
  repeat destruct (_ =? _); rewrite ?HO, ?HL, ?HH; done.
Qed.

Definition sum_shape (s s' : Summary24h) : Prop :=
  length (suBuckets s') = length (suBuckets s) /\ suSymbol s' = suSymbol s.

Lemma expire_from_shape s oldest m n : sum_shape s (expire_from s oldest m n).
Proof.
  revert s m. induction n as [|n IH]; intros s m; [done|]. cbn [expire_from]. cbv zeta.
  destruct (_ && _); [|apply IH]. destruct (IH (expire s (bucketIndex m)) (m + 1)) as [E1 E2].
  split; [by rewrite E1, expire_length|by rewrite E2, expire_symbol].
Qed.

Lemma Sum_Apply_shape s t : sum_shape s (Sum_Apply s t).
Proof.
  assert (Ha : sum_shape s (advance s (minute_of t))).
  { unfold advance. destruct (_ =? 0); [done|]. destruct (_ <=? _); [done|].
    destruct (_ <=? _); [by split; [apply length_map|]|].
    apply (expire_from_shape s). }
  unfold Sum_Apply, add_trade. set (s1 := advance s _) in *. cbv zeta. destruct Ha as [E1 E2].
  destruct (_ && negb _); split; cbn [suBuckets suSymbol]; rewrite ?length_insert, ?expire_length, ?expire_symbol; done.
Qed.

Lemma Sum_run_shape ts s : sum_shape s (fold_left Sum_Apply ts s).
Proof.
  revert s. induction ts as [|t ts IH]; intros s; [done|]. cbn [fold_left].
  destruct (IH (Sum_Apply s t)) as [E1 E2], (Sum_Apply_shape s t) as [F1 F2]. split; congruence.
Qed.

Lemma map_const {A B} (l : list A) (b : B) : map (fun _ => b) l = replicate (length l) b.
Proof. induction l as [|x l IH]; simpl; [done|]. by rewrite IH. Qed.

Lemma Sum_Reset_new sym ts :
  Sum_Reset (fold_left Sum_Apply ts (NewSummary24h sym)) = NewSummary24h sym.
Proof.
  destruct (Sum_run_shape ts (NewSummary24h sym)) as [E1 E2].
  unfold Sum_Reset, clear_window. cbn [suSymbol suBuckets suVolume suHigh suLow suOpen suTrades suOpenAt suCount].
  rewrite map_const, E1, E2. unfold NewSummary24h. cbn [suBuckets suSymbol]. by rewrite length_replicate.
Qed.

(** ** The invariant *)

Section Spec.
Context {G : Type} `{RandSource G}.
Implicit Types e : Engine G.

Record engine_rep e (ts : list Trade) : Prop := {
  er_aggs : Forall2 (agg_for (cfSymbol (enCfg e)) (cfHistoryDepth (enCfg e)) ts) Intervals (enAggs e);
  er_summary : enSummary e = fold_left Sum_Apply ts (NewSummary24h (cfSymbol (enCfg e)));
  er_tape : tape_rep (enTrades e) ts /\ len (rgBuf (enTrades e)) = cfRecentTradesCap (enCfg e) }.

(** The trades the engine has folded after an operation; [ts] are those
    before it. *)
Inductive op :=
| OpEvent (ev : MarketEvent) (emit : bool) (now : Time)
| OpRefresh (now : Time)
| OpPause (now : Time) | OpResume (now : Time) | OpBurst (d : Z) (now : Time)
| OpState (s : EngState)
| OpReset (snapshot : res OrderBookSnapshot) (now : Time).

Definition exec e (o : op) : option (Engine G * list Effect) :=
  match o with
  | OpEvent ev emit now => applyEvent e ev emit now
  | OpRefresh now => refreshBook e now
  | OpPause now => Some (Pause e now)
  | OpResume now => Some (Resume e now)
  | OpBurst d now => Some (Burst e d now)
  | OpState s => Some (setState e s, [])
  | OpReset snap now => let '(e, out, _) := Reset e snap now in Some (e, out)
  end.

Definition book_accepts e (t : Trade) : bool :=
  match ApplyTrade (enBook e) t (enRng e) with
  | Some (_, Some m, _) => match muErr m with Some _ => false | None => true end
  | _ => true
  end.

Definition accepted e (o : op) (ts : list Trade) : list Trade :=
  match o with
  | OpEvent (TradeEvent t) _ _ => if book_accepts e t then ts ++ [t] else ts
  | OpReset snap now => match Reset e snap now with (_, _, None) => [] | _ => ts end
  | _ => ts
  end.

Fixpoint exec_all e (ts : list Trade) (os : list op) : option (Engine G * list Trade * list Effect) :=
  match os with
  | [] => Some (e, ts, [])
  | o :: os =>
      '(e', out) ← exec e o;
      '(e'', ts', out') ← exec_all e' (accepted e o ts) os;
      Some (e'', ts', out ++ out')
  end.

Lemma applyTrade_cases e t emit now e' out :
  applyTrade e t emit now = Some (e', out) ->
  enCfg e' = enCfg e /\
  if book_accepts e t
  then enAggs e' = fst (fst (apply_aggs (enAggs e) t)) /\
       enSummary e' = Sum_Apply (enSummary e) t /\ enTrades e' = Push (enTrades e) t
  else enAggs e' = enAggs e /\ enSummary e' = enSummary e /\ enTrades e' = enTrades e.
Proof.
  unfold applyTrade, book_accepts. cbv zeta. cbn [enBook enRng set_tick].
  destruct (ApplyTrade (enBook e) t (enRng e)) as [[[b m] g]|]; [|done].
  cbn [mbind option_bind]. destruct m as [m|]; cbn [mbind option_bind].
  - destruct (muErr m) as [err|]; [intros [= <- _]; done|]. cbn [enAggs set_book set_tick].
    destruct (apply_aggs (enAggs e) t) as [[aggs changes] closes].
    destruct emit; intros [= <- _]; done.
  - cbn [enAggs set_book set_tick]. destruct (apply_aggs (enAggs e) t) as [[aggs changes] closes].
    destruct emit; intros [= <- _]; done.
Qed.

Lemma exec_rep e o ts e' out :
  engine_rep e ts -> exec e o = Some (e', out) ->
  engine_rep e' (accepted e o ts) /\ enCfg e' = enCfg e.
Proof.
  intros [Ha Hs Ht] He.
  destruct o as [ev emit now|now|now|now|d now|s|snap now]; cbn [exec accepted] in *;
    unfold Pause, Resume, Burst in *; cbv zeta in He.
  - destruct ev as [t|d|at_|k d at_]; cbn [applyEvent] in He.
    + destruct (applyTrade_cases _ _ _ _ _ _ He) as [Hc Hcase]. split; [|done].
      destruct (book_accepts e t); destruct Hcase as (E1 & E2 & E3); split; rewrite ?Hc, ?E1, ?E2, ?E3.
      * rewrite apply_aggs_new. apply Forall2_fmap_r. eapply Forall2_impl; [exact Ha|].
        intros iv a. apply agg_for_apply.
      * by rewrite fold_left_app, Hs.
      * destruct Ht as [Ht Hl]. split; [by apply tape_rep_push|]. rewrite <- Hl.
        unfold len. cbn [Push rgBuf]. by rewrite length_insert.
      * done.
      * done.
      * done.
    + unfold applyProviderDelta in He.
      destruct (ApplyDelta _ _ _ _ _ _ _) as [b [m|err]]; injection He as <- _; by split.
    + injection He as <- _; by split.
    + injection He as <- _; by split.
  - unfold refreshBook in He. cbv zeta in He.
    destruct (Refresh _ _ _ _) as [[[b m] g]|]; [|done]. cbn [mbind option_bind] in He.
    destruct m as [m|]; [destruct (muErr m)|]; injection He as <- _; by split.
  - injection He as <- _; by split.
  - injection He as <- _; by split.
  - injection He as <- _; by split.
  - injection He as <- _; by split.
  - unfold Reset in *. destruct snap as [snap|err]; [|injection He as <- _; by split].
    destruct (Install _ _ _ _ _) as [b [err|]]; injection He as <- _; [by split|].
    split; [|done]. split; cbn [enAggs enCfg enSummary enTrades set_market set_tick].
    + apply Forall2_fmap_r. eapply Forall2_impl; [exact Ha|].
      intros iv a (H1 & H2 & H3 & H4). split_and!; try done. by eapply agg_rep_reset.
    + by rewrite Hs, Sum_Reset_new.
    + destruct Ht as [Ht Hl]. split; [by eapply tape_rep_reset|done].
Qed.

Lemma exec_all_rep e ts os e' ts' out :
  engine_rep e ts -> exec_all e ts os = Some (e', ts', out) ->
  engine_rep e' ts' /\ enCfg e' = enCfg e.
Proof.
  revert e ts out. induction os as [|o os IH]; intros e ts out Hr He; cbn [exec_all] in He.
  { injection He as <- <- _. done. }
  destruct (exec e o) as [[e1 out1]|] eqn:E1; [|done]. cbn [mbind option_bind] in He.
  destruct (exec_all e1 _ os) as [[[e2 ts2] out2]|] eqn:E2; [|done]. cbn [mbind option_bind] in He.
  injection He as <- <- _. destruct (exec_rep _ _ _ _ _ Hr E1) as [Hr1 Hc1].
  destruct (IH _ _ _ Hr1 E2) as [Hr2 Hc2]. split; [done|congruence].
Qed.

Lemma New_rep cfg caps rng snap e :
  New cfg caps rng snap = Ok e -> engine_rep e [] /\ enCfg e = withDefaults cfg.
Proof.
  assert (Hd : 0 < cfHistoryDepth (withDefaults cfg)) by (simpl; split_if; lia).
  assert (Hc : 50 <= cfRecentTradesCap (withDefaults cfg)) by (simpl; split_if; lia).
  unfold New. cbv zeta. set (c := withDefaults cfg) in *. clearbody c.
  set (aggs := map _ Intervals).
  destruct snap as [snap|err]; [|done]. cbn [mbind res_bind].
  destruct (Install _ _ _ _ _) as [b [err|]]; [done|]. intros [= <-].
  split; [|done]. split; cbn [enCfg enAggs enSummary enTrades].
  - unfold aggs. generalize Intervals as ivs. induction ivs as [|iv ivs IH]; constructor; [|exact IH].
    split_and!; try done; [|apply agg_rep_new]. simpl. by rewrite (proj2 (Z.leb_gt _ 0)) by lia.
  - done.
  - split; [apply tape_rep_new|]. unfold len. simpl. rewrite length_replicate.
    rewrite (proj2 (Z.ltb_ge _ 1)) by lia. lia.
Qed.

Lemma byInterval_rep e ts iv :
  engine_rep e ts -> exists a, byInterval e iv = Some a /\
    agg_for (cfSymbol (enCfg e)) (cfHistoryDepth (enCfg e)) ts iv a.
Proof.
  intros [Ha _ _]. unfold byInterval.
  assert (Hin : iv ∈ Intervals) by (apply list_elem_of_In; destruct iv; simpl; tauto).
  induction Ha as [|i a ivs aggs Hia _ IH]; [by apply elem_of_nil in Hin|]. cbn [find].
  case_bool_decide as Hd.
  - exists a. split; [done|]. rewrite <- Hd. by destruct Hia as (? & <- & ?).
  - apply IH. apply elem_of_cons in Hin as [->|Hin]; [|done]. by destruct Hia as (_ & ? & _).
Qed.

Lemma Engine_Candles_spec e ts iv limit :
  engine_rep e ts -> Forall (fun t => in_i64 (trQuantity t)) ts -> 0 < cfHistoryDepth (enCfg e) ->
  let cs := candles (ID (cfSymbol (enCfg e))) iv ts in
  Engine_Candles e iv limit =
    Some (Ok (lastn (history_bound (cfHistoryDepth (enCfg e)) limit) cs,
              negb (bool_decide (cs = [])))).
Proof.
  intros Hr Hq Hd. cbv zeta. destruct (byInterval_rep e ts iv Hr) as (a & Hb & Hs & Hi & Hda & Hrep).
  unfold Engine_Candles. rewrite Hb.
  destruct (abs_run_candles (cfSymbol (enCfg e)) iv ts Hq) as [Hcs Hne].
  destruct (abs_run _ iv ts) as [hist act]. cbn [fst snd] in *.
  rewrite (HistoryWithActive_spec _ _ _ limit Hrep Hne), Hcs, Hda. cbn [mbind option_bind].
  do 3 f_equal. rewrite (ar_active _ _ _ Hrep). rewrite <- Hcs. destruct act as [c|].
  - change (option_list (Some c)) with [c].
    assert (Hb0 : exists k, history_bound (cfHistoryDepth (enCfg e)) limit = S k).
    { exists (pred (history_bound (cfHistoryDepth (enCfg e)) limit)). unfold history_bound.
      destruct (limit <=? 0) eqn:E; bool_to_prop; lia. }
    destruct Hb0 as [k ->]. rewrite lastn_snoc, last_snoc. unfold tEqual. rewrite Z.eqb_refl.
    rewrite bool_decide_eq_false_2; [done|]. by destruct hist.
  - rewrite (Hne eq_refl). done.
Qed.

(** C10: Whatever sequence of trades, provider deltas, book refreshes, pauses,
    bursts and resets the engine went through, its read API describes one
    market: the candles of every interval, the 24-hour summary and the trade
    tape are all computed from the same trades, those the book accepted since
    the last reset, in order. *)
Theorem engine_views_agree cfg caps rng snap e os e' ts out :
  New cfg caps rng snap = Ok e -> exec_all e [] os = Some (e', ts, out) ->
  Forall (fun t => in_i64 (trQuantity t)) ts ->
  let sym := cfSymbol cfg in
  let cap := cfRecentTradesCap (withDefaults cfg) in
  (forall iv limit, Engine_Candles e' iv limit =
     Some (Ok (lastn (history_bound (cfHistoryDepth (withDefaults cfg)) limit) (candles (ID sym) iv ts),
               negb (bool_decide (candles (ID sym) iv ts = []))))) /\
  (forall now, Engine_Summary e' now = Sum_Snapshot (fold_left Sum_Apply ts (NewSummary24h sym)) now) /\
  (forall limit, RecentTrades e' limit =
     Some (take (Z.to_nat (if limit <=? 0 then cap else Z.min limit cap)) (reverse ts))).
Proof.
  intros Hn He Hq. destruct (New_rep _ _ _ _ _ Hn) as [Hr Hc].
  destruct (exec_all_rep _ _ _ _ _ _ Hr He) as [Hr' Hc']. rewrite Hc in Hc'.
  assert (Hd : 0 < cfHistoryDepth (withDefaults cfg)) by (simpl; split_if; lia).
  cbv zeta. split; [|split].
  - intros iv limit. rewrite (Engine_Candles_spec e' ts iv limit Hr' Hq) by (by rewrite Hc').
    by rewrite Hc'.
  - intros now. unfold Engine_Summary. rewrite (er_summary _ _ Hr'), Hc'. done.
  - intros limit. unfold RecentTrades. destruct (er_tape _ _ Hr') as [Ht Hl].
    rewrite <- Hc' , <- Hl. by apply Recent_rep.
Qed.

(** ** Publication of a trade *)

(** The phase of an effect in the publication of one trade. *)
Definition phase (x : Effect) : nat :=
  match x with
  | ERecordEngine _ => 0
  | ERecordClose _ | EPublish (EventCandleClosed _) => 1
  | EPublish (EventBookWindow _) => 2
  | EPublish (EventCandleChanged _) => 3
  | EPublish (EventTrade _) => 4
  | _ => 5
  end.
Definition is_publish (x : Effect) : Prop := (0 < phase x)%nat.

Lemma sorted_blocks (ls : list (list Effect)) (ps : list nat) :
  Forall2 (fun l p => Forall (fun x => phase x = p) l) ls ps -> StronglySorted Nat.lt ps ->
  StronglySorted (fun x y => (phase x <= phase y)%nat) (concat ls).
Proof.
  induction 1 as [|l p ls ps Hl Hf IH]; intros Hs; [constructor|].
  apply StronglySorted_inv in Hs as [Hs Hp]. simpl. apply StronglySorted_app. split_and!.
  - intros x y Hx Hy. rewrite Forall_forall in Hl. rewrite (Hl x Hx).
    apply list_elem_of_In, in_concat in Hy as (k & Hk & Hy). apply list_elem_of_In in Hk, Hy.
    apply list_elem_of_lookup in Hk as [i Hi].
    destruct (Forall2_lookup_l _ _ _ _ _ Hf Hi) as (q & Hq & Hkq).
    rewrite Forall_forall in Hkq. rewrite (Hkq y Hy).
    pose proof (proj1 (Forall_forall _ _) Hp q (list_elem_of_lookup_2 _ _ _ Hq)). lia.
  - clear Hf IH Hs Hp. induction Hl as [|x l Hx Hl IH]; constructor; [done|].
    eapply Forall_impl; [exact Hl|]. cbn beta. intros; lia.
  - by apply IH.
Qed.

Lemma apply_aggs_changes aggs t c :
  c ∈ snd (fst (apply_aggs aggs t)) ->
  exists a, a ∈ fst (fst (apply_aggs aggs t)) /\ Active a = Some c.
Proof.
  induction aggs as [|a aggs IH]; cbn [apply_aggs]; [by intros ?%elem_of_nil|].
  destruct (Candles.Apply a t) as [[a' changed] closed].
  destruct (apply_aggs aggs t) as [[aggs' changes] closes]. cbn [fst snd] in *.
  intros [Hc|Hc]%elem_of_app.
  - exists a'. split; [by left|]. destruct changed; [|by apply elem_of_nil in Hc].
    destruct (Active a') as [c'|]; [|by apply elem_of_nil in Hc].
    by apply list_elem_of_singleton in Hc as ->.
  - destruct (IH Hc) as (a2 & Hin & Ha). exists a2. split; [by right|done].
Qed.

(** The effects of one applied trade, block by block. *)
Definition trade_effects (violations : list Effect) (closes : list Candle) (m : Mutation)
    (changes : list Candle) (t : Trade) : list Effect :=
  violations ++ concat (map (fun c => [ERecordClose c; EPublish (EventCandleClosed c)]) closes)
  ++ [EPublish (window_event m "trade")] ++ map (fun c => EPublish (EventCandleChanged c)) changes
  ++ [EPublish (EventTrade t)].

Lemma trade_effects_sorted violations closes m changes t :
  Forall (fun x => phase x = 0%nat) violations ->
  StronglySorted (fun x y => (phase x <= phase y)%nat) (trade_effects violations closes m changes t).
Proof.
  intros Hv. unfold trade_effects.
  replace (violations ++ _) with (concat [violations;
    concat (map (fun c => [ERecordClose c; EPublish (EventCandleClosed c)]) closes);
    [EPublish (window_event m "trade")]; map (fun c => EPublish (EventCandleChanged c)) changes;
    [EPublish (EventTrade t)]]) by (cbn [concat]; by rewrite app_nil_r).
  apply (sorted_blocks _ [0;1;2;3;4]%nat).
  - repeat constructor; [done| |].
    + induction closes as [|c closes IH]; simpl; [constructor|]. by repeat constructor.
    + induction changes as [|c changes IH]; simpl; constructor; done.
  - repeat constructor; lia.
Qed.

Lemma applyTrade_shape `{!RandLaws G} e t now :
  book_wf (enBook e) -> 0 < trQuantity t <= MaxInt64 ->
  exists e' violations closes m changes,
    applyTrade e t true now = Some (e', trade_effects violations closes m changes t) /\
    applyTrade e t false now = Some (e', violations) /\
    Forall (fun x => phase x = 0%nat) violations /\
    is_window (enBook e') m /\
    (forall c, c ∈ changes -> exists a, a ∈ enAggs e' /\ Active a = Some c) /\
    enLastPrice e' = trPrice t /\ bkUpdateID (enBook e') = u64 (bkUpdateID (enBook e) + 1).
Proof.
  intros Hwf Hq. destruct (ApplyTrade_core (enBook e) t (enRng e) Hwf Hq)
    as (b' & m & g' & Hb & Hu & Hm & _).
  unfold applyTrade. cbv zeta. cbn [enBook enRng set_tick]. rewrite Hb. cbn [mbind option_bind].
  destruct Hm as (Hm1 & Hm2 & Hm3 & Herr & Hm4). rewrite Herr.
  cbn [enAggs set_book set_tick].
  pose proof (fun c => apply_aggs_changes (enAggs e) t c) as Hch.
  destruct (apply_aggs (enAggs e) t) as [[aggs changes] closes]. cbn [fst snd] in Hch. cbn [negb].
  do 5 eexists. split; [reflexivity|]. split; [reflexivity|]. split.
  { apply Forall_forall. intros x (c & Hc & Hx)%list_elem_of_omap.
    destruct (Candle_Validate c); [|done]. by injection Hx as <-. }
  split; [by split_and!; try apply Hm4|]. split; [exact Hch|]. done.
Qed.

(** On a well-formed book a trade is always applied.  Subscribers see it
    strictly after the state: first the candles that closed (each recorded,
    then published), then one book window, then the changed candles, then the
    trade itself, which comes last; the window is the one of the new book and
    every changed candle is the active candle of the new state.  Applying it
    silently during warmup leaves exactly the same engine and publishes
    nothing, so warmup and live trading build the same candles. *)
Theorem applyTrade_publishes `{!RandLaws G} e t now :
  book_wf (enBook e) -> 0 < trQuantity t <= MaxInt64 ->
  exists e' out quiet,
    applyTrade e t true now = Some (e', out) /\ applyTrade e t false now = Some (e', quiet) /\
    Forall (fun x => ~ is_publish x) quiet /\
    StronglySorted (fun x y => (phase x <= phase y)%nat) out /\
    last out = Some (EPublish (EventTrade t)) /\
    (exists w, EPublish (EventBookWindow w) ∈ out) /\
    (forall w, EPublish (EventBookWindow w) ∈ out ->
       bwUpdateID w = bkUpdateID (enBook e') /\
       bwBids w = take (Z.to_nat (bkWindow (enBook e'))) (bkBids (enBook e')) /\
       bwAsks w = take (Z.to_nat (bkWindow (enBook e'))) (bkAsks (enBook e'))) /\
    (forall c, EPublish (EventCandleChanged c) ∈ out ->
       exists a, a ∈ enAggs e' /\ Active a = Some c).
Proof.
  intros Hwf Hq. destruct (applyTrade_shape e t now Hwf Hq)
    as (e' & vs & closes & m & changes & H1 & H2 & Hv & Hm & Hc & _).
  exists e', (trade_effects vs closes m changes t), vs. split; [done|]. split; [done|].
  split; [eapply Forall_impl; [exact Hv|]; unfold is_publish; intros x Hx; lia|].
  split; [by apply trade_effects_sorted|].
  split; [unfold trade_effects; by rewrite !app_assoc, last_snoc|].
  assert (Hv' : forall x, phase x <> 0%nat -> x ∉ vs).
  { intros x Hx Hin. rewrite Forall_forall in Hv. by apply Hx, Hv. }
  assert (Hcl : forall ev, EPublish ev ∈ concat (map (fun c => [ERecordClose c;
    EPublish (EventCandleClosed c)]) closes) -> exists c, ev = EventCandleClosed c).
  { intros ev Hin. apply list_elem_of_In, in_concat in Hin as (l & Hl & Hin).
    apply in_map_iff in Hl as (c & <- & _). exists c. by destruct Hin as [|[[= <-]|[]]]. }
  split; [|split].
  - eexists. unfold trade_effects. rewrite !elem_of_app. right. right. left. by left.
  - intros w Hin. unfold trade_effects in Hin. rewrite !elem_of_app in Hin.
    destruct Hin as [Hin|[Hin|[Hin|[Hin|Hin]]]].
    + by apply Hv' in Hin.
    + by apply Hcl in Hin as [c [=]].
    + apply list_elem_of_singleton in Hin. injection Hin as ->. cbn [bwUpdateID bwBids bwAsks]. by destruct Hm as (_ & _ & ? & _ & ? & ?).
    + by apply list_elem_of_fmap in Hin as (c & [=] & _).
    + apply list_elem_of_singleton in Hin. done.
  - intros c Hin. unfold trade_effects in Hin. rewrite !elem_of_app in Hin.
    destruct Hin as [Hin|[Hin|[Hin|[Hin|Hin]]]].
    + by apply Hv' in Hin.
    + by apply Hcl in Hin as [c' [=]].
    + apply list_elem_of_singleton in Hin. done.
    + apply list_elem_of_fmap in Hin as (c' & [= ->] & Hin). by apply Hc.
    + apply list_elem_of_singleton in Hin. done.
Qed.
End Spec.

(** ** Witnesses *)

Definition demo_cfg : Config := mkConfig BTCUSDT 7 15 10 (f64_of_Z 10) 4 50 3 (f64_of_Z 0) 64.
Definition demo_snapshot : OrderBookSnapshot := mkSnapshot "BTCUSDT" 0 7 demo_bids demo_asks zeroTime.
Definition demo_new : res (Engine PCG) := New demo_cfg (mkCaps true true true) NewPCG (Ok demo_snapshot).
Definition demo_ops : list op :=
  [OpEvent (TradeEvent (demo_trade 1 0 102 4)) false zeroTime; OpPause zeroTime; OpResume zeroTime;
   OpEvent (TradeEvent (demo_trade 2 300 103 1)) true zeroTime].

Example engine_views_agree_witness :
  match demo_new with
  | Ok e =>
      match exec_all e [] demo_ops with
      | Some (e', ts, _) =>
          (trID <$> ts) = [1; 2] /\
          RecentTrades e' 1 = Some [demo_trade 2 300 103 1] /\
          Engine_Candles e' Interval5m 1 =
            Some (Ok (lastn 1 (candles "BTCUSDT" Interval5m ts), true))
      | None => False
      end
  | Err _ => False
  end.
Proof.
  destruct demo_new as [e|] eqn:E; [|vm_compute in E; discriminate E].
  assert (Hts : (fun p => snd (fst p)) <$> exec_all e [] demo_ops =
    Some [demo_trade 1 0 102 4; demo_trade 2 300 103 1])
    by (vm_compute in E; injection E as <-; vm_compute; reflexivity).
  destruct (exec_all e [] demo_ops) as [[[e' ts] out]|] eqn:Eo; [|discriminate Hts].
  injection Hts as ->.
  destruct (engine_views_agree demo_cfg (mkCaps true true true) NewPCG (Ok demo_snapshot) e demo_ops e'
    [demo_trade 1 0 102 4; demo_trade 2 300 103 1] out E Eo
    ltac:(repeat constructor; vm_compute; discriminate)) as (Hc & _ & Hr).
  split; [reflexivity|]. split; [rewrite Hr; vm_compute; reflexivity|].
  rewrite Hc. vm_compute. reflexivity.
Defined.

Example applyTrade_publishes_witness :
  match demo_new with
  | Ok e => exists e' out quiet, applyTrade e (demo_trade 1 0 102 4) true zeroTime = Some (e', out) /\
      applyTrade e (demo_trade 1 0 102 4) false zeroTime = Some (e', quiet) /\
      last out = Some (EPublish (EventTrade (demo_trade 1 0 102 4)))
  | Err _ => False
  end.
Proof.
  destruct demo_new as [e|] eqn:E; [|vm_compute in E; discriminate E].
  assert (Hwf : book_wf (enBook e)).
  { assert (Hb : enBook e = demo_book) by (vm_compute in E; injection E as <-; reflexivity).
    rewrite Hb. apply demo_book_wf. }
  destruct (applyTrade_publishes e (demo_trade 1 0 102 4) zeroTime Hwf ltac:(split; reflexivity || discriminate))
    as (e' & out & quiet & H1 & H2 & _ & _ & H3 & _).
  exists e', out, quiet. split; [exact H1|]. split; [exact H2|exact H3].
Defined.
