(* ===== verification/Registry.v ===== *)
(** * The engine registry: [internal/market/registry.go]

    Every live market maps to the engine that serves it.  The engines are
    shared pointers; the registry stores identities [E] with the symbol each
    one serves. *)

From S2P Require Import Prelude Money GoTime Domain.

Section Registry.
Context {E : Type} (Engine_Symbol : E -> Symbol).

Record Registry := mkRegistry { rgEngines : gmap string E; rgOrder : list Symbol }.

Definition register (r : Registry) (engine : option E) : Registry :=
  match engine with
  | None => r
  | Some e =>
      let id := ID (Engine_Symbol e) in
      match rgEngines r !! id with
      | Some _ => r
      | None => mkRegistry (<[id := e]> (rgEngines r)) (rgOrder r ++ [Engine_Symbol e])
      end
  end.
Definition NewRegistry (engines : list (option E)) : Registry :=
  fold_left register engines (mkRegistry ∅ []).

(** A nil registry answers nothing. *)
Definition Registry_Lookup (r : option Registry) (sym : Symbol) : option E :=
  r ← r; rgEngines r !! ID sym.
Definition Symbols (r : option Registry) : list Symbol :=
  match r with Some r => rgOrder r | None => [] end.
Definition Engines (r : option Registry) : list (option E) :=
  match r with Some r => map (fun sym => rgEngines r !! ID sym) (rgOrder r) | None => [] end.
Definition Registry_Len (r : option Registry) : Z :=
  match r with Some r => len (rgOrder r) | None => 0 end.

(** The first engine given for a symbol. *)
Definition first_for (engines : list (option E)) (id : string) : option E :=
  head (filter (fun e => ID (Engine_Symbol e) = id) (omap (fun x => x) engines)).

Lemma registry_inv engines :
  let r := NewRegistry engines in
  (forall id, rgEngines r !! id = first_for engines id) /\
  NoDup (map ID (rgOrder r)) /\
  (forall id, id ∈ map ID (rgOrder r) <-> is_Some (rgEngines r !! id)).
Proof.
  cbv zeta. rewrite <- (rev_involutive engines). induction (rev engines) as [|x l (IH1 & IH2 & IH3)].
  { split; [done|]. split; [constructor|]. intros id. simpl. rewrite lookup_empty. split; [|by intros [? ?]].
    by intros ?%elem_of_nil. }
  cbn [rev]. unfold NewRegistry in *. rewrite fold_left_app. cbn [fold_left].
  set (r := fold_left _ (rev l) _) in *. unfold register.
  assert (Hfirst : forall id, first_for (rev l ++ [x]) id =
    match first_for (rev l) id with Some e => Some e
    | None => match x with Some e => if decide (ID (Engine_Symbol e) = id) then Some e else None
              | None => None end end).
  { intros id. unfold first_for. rewrite omap_app, filter_app.
    destruct (filter _ (omap _ (rev l))) as [|e es]; [|done]. destruct x as [e|]; [|done].
    cbn [omap list_omap app]. rewrite filter_cons. by case_decide. }
  destruct x as [e|].
  - destruct (rgEngines r !! ID (Engine_Symbol e)) as [e0|] eqn:El.
    + split; [|done]. intros id. rewrite Hfirst, <- IH1. destruct (rgEngines r !! id) eqn:Ei; [done|].
      case_decide; [congruence|done].
    + cbn [rgEngines rgOrder]. rewrite map_app. cbn [map]. split; [|split].
      * intros id. rewrite Hfirst, <- IH1. destruct (decide (ID (Engine_Symbol e) = id)) as [<-|Hne].
        -- by rewrite lookup_insert_eq, El.
        -- rewrite lookup_insert_ne by done. by destruct (rgEngines r !! id).
      * apply NoDup_app. split; [done|]. split; [|by apply NoDup_singleton].
        intros id Hin ->%list_elem_of_singleton. apply IH3 in Hin as [? Hs]. congruence.
      * intros id. rewrite elem_of_app, IH3, list_elem_of_singleton. rewrite lookup_insert.
        case_decide as Hd; [split; [by eauto|by right]|]. split; [intros [?|?]; congruence|by left].
  - split; [|done]. intros id. rewrite Hfirst, <- IH1. by destruct (rgEngines r !! id).
Qed.

(** A market is served by the first engine registered for its symbol,
    nil engines and later duplicates are ignored, and the registered markets
    are exactly the symbols that can be looked up, each listed once. *)
Theorem registry_first_wins engines sym :
  let r := Some (NewRegistry engines) in
  Registry_Lookup r sym = first_for engines (ID sym) /\
  NoDup (map ID (Symbols r)) /\
  (ID sym ∈ map ID (Symbols r) <-> is_Some (Registry_Lookup r sym)) /\
  Forall is_Some (Engines r) /\ len (Engines r) = Registry_Len r.
Proof.
  cbv zeta. destruct (registry_inv engines) as (H1 & H2 & H3).
  unfold Registry_Lookup, Symbols, Engines, Registry_Len. cbn [mbind option_bind].
  split; [apply H1|]. split; [done|]. split; [apply H3|]. split.
  - apply Forall_fmap, Forall_forall. intros s Hs. apply H3. by apply list_elem_of_fmap_2.
  - unfold len. by rewrite length_map.
Qed.
End Registry.
