(* ===== verification/Tier.v ===== *)
(** * Adaptive delivery tiers: [internal/delivery/tier.go]

    [Policy] is the interface that maps health samples to bands and tiers to
    rates, [DefaultPolicy] its production instance.  [TierMachine] is the pure
    state machine that decides the delivery tier of a connection. *)

From S2P Require Import Prelude Money GoTime Domain Float64.

Record Thresholds := mkThresholds {
  FullMaxRTTMs : float64; FullMaxJitterMs : float64;
  MinimalMinRTTMs : float64; MinimalMinJitterMs : float64;
  DegradeStreak : Z; RecoverStreak : Z; ReportHold : Z; ReportDegrade : Z }.

Class Policy (P : Type) := {
  Classify : P -> float64 -> float64 -> HealthBand;
  pThresholds : P -> Thresholds;
  TargetRate : P -> DeliveryTier -> float64;
  FlushInterval : P -> DeliveryTier -> Z }.

(** ** The production policy *)

Record DefaultPolicy := mkPolicy {
  dpThresholds : Thresholds; dpFull : float64; dpDegraded : float64; dpMinimal : float64 }.

Definition NewDefaultPolicy (t : Thresholds) (full degraded minimal : float64) : DefaultPolicy :=
  mkPolicy t full degraded minimal.

Definition rate_of (p : DefaultPolicy) (tier : DeliveryTier) : float64 :=
  match tier with
  | TierFull => dpFull p | TierDegraded => dpDegraded p | TierMinimal => dpMinimal p
  end.

Definition f64_geb (x y : float64) : bool := f64_leb y x.

Definition DefaultPolicy_Classify (p : DefaultPolicy) (rttMs jitterMs : float64) : HealthBand :=
  let t := dpThresholds p in
  if f64_geb rttMs (MinimalMinRTTMs t) || f64_geb jitterMs (MinimalMinJitterMs t) then BandMinimal
  else if f64_geb rttMs (FullMaxRTTMs t) || f64_geb jitterMs (FullMaxJitterMs t) then BandDegraded
  else BandGood.

Definition DefaultPolicy_TargetRate (p : DefaultPolicy) (tier : DeliveryTier) : float64 :=
  if f64_ltb (f64_of_Z 0) (rate_of p tier) then rate_of p tier else f64_of_Z 1.

Definition DefaultPolicy_FlushInterval (p : DefaultPolicy) (tier : DeliveryTier) : Z :=
  f64_to_int (f64_div (f64_of_Z Second) (DefaultPolicy_TargetRate p tier)).

#[global] Instance default_policy : Policy DefaultPolicy := {
  Classify := DefaultPolicy_Classify; pThresholds := dpThresholds;
  TargetRate := DefaultPolicy_TargetRate; FlushInterval := DefaultPolicy_FlushInterval }.

(** ** Reports and transitions *)

Record HealthReport := mkReport {
  hrRTTMs : float64; hrJitterMs : float64; hrSamples : Z; hrClientTimeMs : Z; hrReceivedAt : Time }.

(** The session id and the override text are filled in by the session. *)
Record TierTransition := mkTransition {
  ttFrom : DeliveryTier; ttTo : DeliveryTier; ttReason : TierReason; ttStreak : Z;
  ttRTTMs : float64; ttJitterMs : float64; ttAt : Time; ttChanged : bool }.

Record TierMachine (P : Type) := mkTM {
  tmPolicy : P; tmAuto : DeliveryTier; tmTier : DeliveryTier; tmOverride : option DeliveryTier;
  tmGood : Z; tmBad : Z; tmMinimal : Z; tmRecovery : Z;
  tmWatchdog : bool; tmReason : TierReason }.
Arguments mkTM {P}. Arguments tmPolicy {P}. Arguments tmAuto {P}. Arguments tmTier {P}.
Arguments tmOverride {P}. Arguments tmGood {P}. Arguments tmBad {P}. Arguments tmMinimal {P}.
Arguments tmRecovery {P}. Arguments tmWatchdog {P}. Arguments tmReason {P}.

Definition f64_zero : float64 := f64_of_Z 0.

Section Machine.
Context {P : Type} `{Policy P}.
Implicit Types m : TierMachine P.

Definition NewTierMachine (policy : P) : TierMachine P :=
  mkTM policy TierFull TierFull None 0 0 0 0 false ReasonInitialAssignment.

Definition Streak m : Z :=
  match tmReason m with
  | ReasonHighRTT | ReasonHighJitter =>
      if decide (tmAuto m = TierMinimal) then tmMinimal m else tmBad m
  | ReasonGoodHealth => tmGood m
  | ReasonRecovery => tmRecovery m
  | _ => 0
  end.

(** The cap of the four counters. *)
Definition streak_cap : Z := 16.
Definition bump (c : bool) (n : Z) : Z := Z.min (if c then n + 1 else 0) streak_cap.

Definition updateStreaks m (band : HealthBand) : TierMachine P :=
  mkTM (tmPolicy m) (tmAuto m) (tmTier m) (tmOverride m)
    (bump (bool_decide (band = BandGood)) (tmGood m))
    (bump (Band_rank BandDegraded <=? Band_rank band) (tmBad m))
    (bump (bool_decide (band = BandMinimal)) (tmMinimal m))
    (bump (negb (bool_decide (band = BandMinimal))) (tmRecovery m))
    (tmWatchdog m) (tmReason m).

Definition bandReason (band : HealthBand) : TierReason :=
  if decide (band = BandMinimal) then ReasonHighJitter else ReasonHighRTT.

Definition oneStepDown (tier : DeliveryTier) : DeliveryTier :=
  match tier with TierFull => TierDegraded | _ => TierMinimal end.

(** The switch of [Observe]: the next automatic tier and its reason. *)
Definition next_tier m (band : HealthBand) : DeliveryTier * TierReason :=
  let t := pThresholds (tmPolicy m) in
  match tmAuto m with
  | TierFull =>
      if DegradeStreak t <=? tmBad m then (TierDegraded, bandReason band)
      else (TierFull, tmReason m)
  | TierDegraded =>
      if DegradeStreak t <=? tmMinimal m then (TierMinimal, bandReason band)
      else if RecoverStreak t <=? tmGood m then (TierFull, ReasonGoodHealth)
      else (TierDegraded, tmReason m)
  | TierMinimal =>
      if RecoverStreak t <=? tmRecovery m then (TierDegraded, ReasonRecovery)
      else (TierMinimal, tmReason m)
  end.

Definition set_auto m (auto : DeliveryTier) (reason : TierReason) : TierMachine P :=
  mkTM (tmPolicy m) auto (tmTier m) (tmOverride m) (tmGood m) (tmBad m) (tmMinimal m)
    (tmRecovery m) (tmWatchdog m) reason.
Definition set_tier m (tier : DeliveryTier) : TierMachine P :=
  mkTM (tmPolicy m) (tmAuto m) tier (tmOverride m) (tmGood m) (tmBad m) (tmMinimal m)
    (tmRecovery m) (tmWatchdog m) (tmReason m).
Definition set_watchdog m (w : bool) : TierMachine P :=
  mkTM (tmPolicy m) (tmAuto m) (tmTier m) (tmOverride m) (tmGood m) (tmBad m) (tmMinimal m)
    (tmRecovery m) w (tmReason m).
Definition set_override m (o : option DeliveryTier) (reason : TierReason) : TierMachine P :=
  mkTM (tmPolicy m) (tmAuto m) (tmTier m) o (tmGood m) (tmBad m) (tmMinimal m)
    (tmRecovery m) (tmWatchdog m) reason.
Definition resetStreaks m : TierMachine P :=
  mkTM (tmPolicy m) (tmAuto m) (tmTier m) (tmOverride m) 0 0 0 0 (tmWatchdog m) (tmReason m).

Definition applyAuto m (at_ : Time) (rep : HealthReport) (changed : bool)
    : TierMachine P * TierTransition :=
  let previous := tmTier m in
  let m := set_tier m (tmAuto m) in
  (m, mkTransition previous (tmTier m) (tmReason m) (Streak m) (hrRTTMs rep) (hrJitterMs rep) at_
        (changed && negb (bool_decide (previous = tmTier m)))).

Definition Observe m (rep : HealthReport) (at_ : Time) : TierMachine P * TierTransition :=
  let band := Classify (tmPolicy m) (hrRTTMs rep) (hrJitterMs rep) in
  let m := set_watchdog (updateStreaks m band) false in
  let '(next, reason) := next_tier m band in
  let changed := negb (bool_decide (next = tmAuto m)) in
  let m := set_auto m next reason in
  match tmOverride m with
  | Some _ =>
      (m, mkTransition (tmTier m) (tmTier m) ReasonForcedOverride (Streak m)
            (hrRTTMs rep) (hrJitterMs rep) at_ false)
  | None => applyAuto m at_ rep changed
  end.

Definition still m (reason : TierReason) (at_ : Time) : TierTransition :=
  mkTransition (tmTier m) (tmTier m) reason 0 f64_zero f64_zero at_ false.

(** The switch of [OnMissingReports]: where the silence takes the tier. *)
Definition watchdog_target m (age : Z) : option DeliveryTier :=
  let t := pThresholds (tmPolicy m) in
  if ReportDegrade t <=? age then Some TierMinimal
  else if (ReportHold t <=? age) && negb (tmWatchdog m) then Some (oneStepDown (tmAuto m))
  else None.

Definition OnMissingReports m (age : Z) (at_ : Time) : TierMachine P * TierTransition :=
  match watchdog_target m age with
  | None => (m, still m (tmReason m) at_)
  | Some target =>
      let m := set_watchdog m true in
      if decide (target = tmAuto m) then (m, still m (tmReason m) at_)
      else
        let m := resetStreaks (set_auto m target ReasonMissingReports) in
        match tmOverride m with
        | Some _ => (m, still m ReasonForcedOverride at_)
        | None =>
            let previous := tmTier m in
            let m := set_tier m target in
            (m, mkTransition previous target ReasonMissingReports 0 f64_zero f64_zero at_
                  (negb (bool_decide (previous = target))))
        end
  end.

Definition Force m (tier : DeliveryTier) (at_ : Time) : TierMachine P * TierTransition :=
  let previous := tmTier m in
  let m := set_tier (set_override m (Some tier) ReasonForcedOverride) tier in
  (m, mkTransition previous tier ReasonForcedOverride 0 f64_zero f64_zero at_
        (negb (bool_decide (previous = tier)))).

Definition ClearOverride m (at_ : Time) : TierMachine P * TierTransition :=
  match tmOverride m with
  | None => (m, still m (tmReason m) at_)
  | Some _ =>
      let previous := tmTier m in
      let m := set_tier (set_override m None ReasonRecovery) (tmAuto m) in
      (m, mkTransition previous (tmTier m) ReasonRecovery 0 f64_zero f64_zero at_
            (negb (bool_decide (previous = tmTier m))))
  end.

(** The watchdog flag keeps its value. *)
Definition OnReconnect m (at_ : Time) : TierMachine P * TierTransition :=
  let previous := tmTier m in
  let m := resetStreaks (set_tier (set_auto (set_override m None ReasonInitialAssignment)
             TierFull ReasonInitialAssignment) TierFull) in
  (m, mkTransition previous (tmTier m) ReasonInitialAssignment 0 f64_zero f64_zero at_
        (negb (bool_decide (previous = tmTier m)))).

(** ** Health tracking *)

Record HealthSnapshot := mkHealthSnapshot {
  hsHasReport : bool; hsRTTMs : float64; hsJitterMs : float64; hsSamples : Z;
  hsLastReportAt : Time; hsAge : Z; hsMissedPongs : Z; hsCapped : Z; hsTotalReports : Z }.

Record HealthTracker := mkTracker {
  htPolicy : P; htHasReport : bool; htRTTMs : float64; htJitterMs : float64; htSamples : Z;
  htLastReportAt : Time; htMissedPongs : Z; htCapped : Z; htTotalReports : Z }.

Definition NewHealthTracker (policy : P) : HealthTracker :=
  mkTracker policy false f64_zero f64_zero 0 zeroTime 0 0 0.

Definition Ingest (h : HealthTracker) (rep : HealthReport) : HealthTracker :=
  mkTracker (htPolicy h) true (hrRTTMs rep) (hrJitterMs rep) (hrSamples rep) (hrReceivedAt rep)
    (htMissedPongs h) (htCapped h) (i64 (htTotalReports h + 1)).

Definition Tracker_Snapshot (h : HealthTracker) (now : Time) : HealthSnapshot :=
  mkHealthSnapshot (htHasReport h) (htRTTMs h) (htJitterMs h) (htSamples h) (htLastReportAt h)
    (if htHasReport h then Z.max 0 (tSub now (htLastReportAt h)) else 0)
    (htMissedPongs h) (htCapped h) (htTotalReports h).

Definition Tracker_Band (h : HealthTracker) : HealthBand :=
  if negb (htHasReport h) then BandGood else Classify (htPolicy h) (htRTTMs h) (htJitterMs h).
End Machine.
