(* ===== verification/TierSpec.v ===== *)
(** * Correctness of the tier machine

    The streak counters are explained by the bands reported since they were
    last reset ([streaks_ok]); the transition rules of the machine are then
    statements about the last reports.  The override never influences the
    automatic tier, and the watchdog only degrades. *)

From S2P Require Import Prelude Money GoTime Domain Float64 Tier.

(** The length of the longest suffix satisfying [f]. *)
Definition run_length (f : HealthBand -> bool) (bs : list HealthBand) : Z :=
  fold_left (fun n b => if f b then n + 1 else 0) bs 0.

Definition is_good (b : HealthBand) : bool := bool_decide (b = BandGood).
Definition is_bad (b : HealthBand) : bool := Band_rank BandDegraded <=? Band_rank b.
Definition is_minimal (b : HealthBand) : bool := bool_decide (b = BandMinimal).
Definition is_better (b : HealthBand) : bool := negb (is_minimal b).

(** The last [k] reports all satisfy [f]. *)
Definition last_all (f : HealthBand -> bool) (k : Z) (bs : list HealthBand) : bool :=
  (k <=? len bs) && forallb f (lastn (Z.to_nat k) bs).

Lemma run_length_snoc f bs b :
  run_length f (bs ++ [b]) = if f b then run_length f bs + 1 else 0.
Proof. unfold run_length. by rewrite fold_left_app. Qed.

Lemma run_length_bounds f bs : 0 <= run_length f bs <= len bs.
Proof.
  rewrite <- (rev_involutive bs). induction (rev bs) as [|b l IH]; [done|]. cbn [rev].
  rewrite run_length_snoc. unfold len in *. rewrite length_app. simpl. destruct (f b); lia.
Qed.

(** A run of [k] is the last [k] reports satisfying [f]. *)
Lemma run_length_last_all f k bs : 0 <= k -> (k <=? run_length f bs) = last_all f k bs.
Proof.
  rewrite <- (rev_involutive bs). revert k.
  induction (rev bs) as [|b l IH]; intros k Hk; cbn [rev].
  { unfold last_all, run_length. cbn [fold_left].
    replace (lastn (Z.to_nat k) (@nil HealthBand)) with (@nil HealthBand)
      by (unfold lastn; by rewrite drop_nil).
    cbn [forallb]. by rewrite andb_true_r. }
  rewrite run_length_snoc. unfold last_all. destruct (decide (k = 0)) as [->|Hne].
  { pose proof (run_length_bounds f (rev l)). change (Z.to_nat 0) with 0%nat. unfold lastn, len.
    rewrite Nat.sub_0_r, drop_all. cbn [forallb]. rewrite andb_true_r.
    transitivity true; [|symmetry]; apply Z.leb_le; [destruct (f b); lia|lia]. }
  replace (Z.to_nat k) with (S (Z.to_nat (k - 1))) by lia. rewrite lastn_snoc, forallb_app.
  unfold len in *. rewrite length_app. cbn [length forallb]. rewrite andb_true_r.
  specialize (IH (k - 1) ltac:(lia)). unfold last_all, len in IH.
  destruct (f b); rewrite ?andb_false_r, ?andb_true_r.
  - replace (k <=? run_length f (rev l) + 1) with (k - 1 <=? run_length f (rev l))
      by (apply eq_true_iff_eq; rewrite !Z.leb_le; lia).
    rewrite IH. f_equal. apply eq_true_iff_eq. rewrite !Z.leb_le. lia.
  - apply Z.leb_gt. lia.
Qed.

Section Spec.
Context {P : Type} `{Policy P}.
Implicit Types m : TierMachine P.

(** The counters are the capped runs over the bands [bs] seen since the last
    reset of the streaks. *)
Record streaks_ok m (bs : list HealthBand) : Prop := {
  sk_good : tmGood m = Z.min (run_length is_good bs) streak_cap;
  sk_bad : tmBad m = Z.min (run_length is_bad bs) streak_cap;
  sk_minimal : tmMinimal m = Z.min (run_length is_minimal bs) streak_cap;
  sk_recovery : tmRecovery m = Z.min (run_length is_better bs) streak_cap }.

Lemma bump_run f bs b :
  bump (f b) (Z.min (run_length f bs) streak_cap) = Z.min (run_length f (bs ++ [b])) streak_cap.
Proof. rewrite run_length_snoc. unfold bump, streak_cap. destruct (f b); lia. Qed.

Lemma updateStreaks_ok m bs b : streaks_ok m bs -> streaks_ok (updateStreaks m b) (bs ++ [b]).
Proof.
  intros [Eg Eb Em Er]. split; cbn [updateStreaks tmGood tmBad tmMinimal tmRecovery].
  - rewrite Eg. apply (bump_run is_good).
  - rewrite Eb. apply (bump_run is_bad).
  - rewrite Em. apply (bump_run is_minimal).
  - rewrite Er. apply (bump_run is_better).
Qed.

(** The thresholds the counters can reach. *)
Definition thresholds_ok (t : Thresholds) : Prop :=
  1 <= DegradeStreak t <= streak_cap /\ 1 <= RecoverStreak t <= streak_cap.

Lemma capped_run f k bs :
  1 <= k <= streak_cap -> (k <=? Z.min (run_length f bs) streak_cap) = last_all f k bs.
Proof.
  intros Hk. rewrite <- run_length_last_all by lia. apply eq_true_iff_eq. rewrite !Z.leb_le. lia.
Qed.

(** The transition rules of the documentation. *)
Definition rule (t : Thresholds) (bs : list HealthBand) (auto : DeliveryTier) : DeliveryTier :=
  match auto with
  | TierFull => if last_all is_bad (DegradeStreak t) bs then TierDegraded else TierFull
  | TierDegraded =>
      if last_all is_minimal (DegradeStreak t) bs then TierMinimal
      else if last_all is_good (RecoverStreak t) bs then TierFull else TierDegraded
  | TierMinimal => if last_all is_better (RecoverStreak t) bs then TierDegraded else TierMinimal
  end.

Definition band_of m (rep : HealthReport) : HealthBand :=
  Classify (tmPolicy m) (hrRTTMs rep) (hrJitterMs rep).

Lemma Observe_core m rep at_ bs :
  streaks_ok m bs -> thresholds_ok (pThresholds (tmPolicy m)) ->
  let '(m', tr) := Observe m rep at_ in
  let bs' := bs ++ [band_of m rep] in
  let next := rule (pThresholds (tmPolicy m)) bs' (tmAuto m) in
  streaks_ok m' bs' /\ tmAuto m' = next /\ tmWatchdog m' = false /\ tmPolicy m' = tmPolicy m /\
  tmOverride m' = tmOverride m /\
  tmTier m' = (match tmOverride m with Some _ => tmTier m | None => next end) /\
  ttFrom tr = tmTier m /\ ttTo tr = tmTier m' /\
  (ttChanged tr = true <-> tmOverride m = None /\ next <> tmAuto m /\ tmTier m <> next).
Proof.
  intros Hs [Hd Hr]. unfold Observe. cbv zeta. fold (band_of m rep).
  set (b := band_of m rep). set (m1 := set_watchdog (updateStreaks m b) false).
  assert (Hs1 : streaks_ok m1 (bs ++ [b])) by (destruct (updateStreaks_ok m bs b Hs); by split).
  assert (Hnext : fst (next_tier m1 b) = rule (pThresholds (tmPolicy m)) (bs ++ [b]) (tmAuto m)).
  { destruct Hs1 as [Eg Eb Em Er]. unfold next_tier, rule. cbv zeta.
    rewrite Eg, Eb, Em, Er. cbn [m1 set_watchdog updateStreaks tmAuto tmPolicy].
    rewrite !capped_run by done. destruct (tmAuto m); by repeat destruct (last_all _ _ _). }
  destruct (next_tier m1 b) as [next reason]. cbn [fst] in Hnext. subst next.
  set (next := rule _ _ _).
  change (tmOverride (set_auto m1 next reason)) with (tmOverride m).
  destruct (tmOverride m) as [o|] eqn:Eo; unfold applyAuto; cbv zeta;
    (split; [destruct Hs1; by split|]);
    (split; [done|]); (split; [done|]); (split; [done|]); (split; [exact Eo|]);
    (split; [done|]); (split; [done|]); (split; [done|]).
  - split; [done|]. by intros (? & _).
  - cbn [ttChanged tmTier set_tier set_auto tmAuto].
    change (tmAuto m1) with (tmAuto m). change (tmTier m1) with (tmTier m).
    rewrite andb_true_iff, !negb_true_iff, !bool_decide_eq_false. tauto.
Qed.

(** C8: A health report moves the automatic tier exactly by the documented
    hysteresis rules, read off the bands reported so far: FULL drops after the degrade streak of
    bad reports, DEGRADED drops after the degrade streak of minimal ones or
    recovers after the recovery streak of good ones, and MINIMAL recovers to
    DEGRADED after the recovery streak of reports better than minimal.  Never
    does a report move by two tiers.  The delivered tier follows unless an
    override pins it, and the transition is marked changed exactly when the
    delivered tier changes. *)
Theorem Observe_hysteresis m rep at_ bs :
  streaks_ok m bs -> thresholds_ok (pThresholds (tmPolicy m)) ->
  let '(m', tr) := Observe m rep at_ in
  let bs' := bs ++ [band_of m rep] in
  let next := rule (pThresholds (tmPolicy m)) bs' (tmAuto m) in
  streaks_ok m' bs' /\ tmAuto m' = next /\ Z.abs (Rank next - Rank (tmAuto m)) <= 1 /\
  tmTier m' = (match tmOverride m with Some _ => tmTier m | None => next end) /\
  ttFrom tr = tmTier m /\ ttTo tr = tmTier m' /\
  (ttChanged tr = true <-> tmOverride m = None /\ next <> tmAuto m /\ tmTier m <> next).
Proof.
  intros Hs Ht. pose proof (Observe_core m rep at_ bs Hs Ht) as Hc.
  destruct (Observe m rep at_) as [m' tr]. destruct Hc as (H1 & H2 & _ & _ & _ & H3 & H4 & H5 & H6).
  cbv zeta in *. split_and!; try done; try apply H6.
  unfold rule. destruct (tmAuto m); repeat destruct (last_all _ _ _); simpl; lia.
Qed.

(** ** The watchdog *)

Lemma OnMissingReports_cases m age at_ :
  let '(m', tr) := OnMissingReports m age at_ in
  match watchdog_target m age with
  | None => m' = m /\ ttChanged tr = false
  | Some target =>
      tmAuto m' = target /\ tmWatchdog m' = true /\ tmPolicy m' = tmPolicy m /\
      (target = tmAuto m -> m' = set_watchdog m true /\ ttChanged tr = false) /\
      (target <> tmAuto m -> streaks_ok m' [] /\ tmReason m' = ReasonMissingReports)
  end.
Proof.
  unfold OnMissingReports. destruct (watchdog_target m age) as [target|]; [|done]. cbv zeta.
  change (tmAuto (set_watchdog m true)) with (tmAuto m).
  case_decide as Ed; [by split_and!|].
  destruct (tmOverride _); (split; [done|]); (split; [done|]); (split; [done|]); (split; [done|]);
    intros _; by split; [split|].
Qed.

Lemma watchdog_target_degrades m age target :
  watchdog_target m age = Some target -> Rank target <= Rank (tmAuto m).
Proof.
  unfold watchdog_target. cbv zeta. destruct (_ <=? age); [intros [= <-]; destruct (tmAuto m); simpl; lia|].
  destruct (_ && _); [|done]. intros [= <-]. destruct (tmAuto m); simpl; lia.
Qed.

(** A second evaluation of the same silence finds nothing to do. *)
Lemma watchdog_again m m' age age' :
  tmPolicy m' = tmPolicy m -> tmWatchdog m' = true -> watchdog_target m age = Some (tmAuto m') ->
  (age' < ReportDegrade (pThresholds (tmPolicy m)) \/ ReportDegrade (pThresholds (tmPolicy m)) <= age) ->
  watchdog_target m' age' = None \/ watchdog_target m' age' = Some (tmAuto m').
Proof.
  intros Hp Hw Ht Ha. unfold watchdog_target in *. cbv zeta in *. rewrite Hp, Hw, andb_false_r.
  destruct (ReportDegrade _ <=? age') eqn:E'; bool_to_prop; [|by left]. right.
  rewrite (proj2 (Z.leb_le _ age)) in Ht by lia. done.
Qed.

(** Silence only degrades, one step at a time until it is long enough for
    MINIMAL.  After [ReportHold] the tier drops by exactly one step, once per
    silence episode; after [ReportDegrade] it is MINIMAL; the streaks then
    start from nothing, so coming back needs a full recovery streak; and
    re-evaluating the same or a greater age below [ReportDegrade] changes
    nothing further. *)
Theorem watchdog_degrades m age at_ :
  let t := pThresholds (tmPolicy m) in
  let '(m', tr) := OnMissingReports m age at_ in
  Rank (tmAuto m') <= Rank (tmAuto m) /\
  (ReportDegrade t <= age -> tmAuto m' = TierMinimal) /\
  (ReportHold t <= age < ReportDegrade t -> tmWatchdog m = false ->
     tmAuto m' = oneStepDown (tmAuto m)) /\
  (age < ReportHold t -> age < ReportDegrade t -> m' = m) /\
  (tmAuto m' <> tmAuto m -> streaks_ok m' [] /\ tmReason m' = ReasonMissingReports) /\
  (forall age' at', ReportHold t <= age -> (age' < ReportDegrade t \/ ReportDegrade t <= age) ->
     fst (OnMissingReports m' age' at') = m' /\ ttChanged (snd (OnMissingReports m' age' at')) = false).
Proof.
  cbv zeta. pose proof (OnMissingReports_cases m age at_) as Hc.
  destruct (OnMissingReports m age at_) as [m' tr]. set (t := pThresholds (tmPolicy m)).
  destruct (watchdog_target m age) as [target|] eqn:Et.
  - pose proof (watchdog_target_degrades _ _ _ Et) as Hdeg.
    destruct Hc as (Ha & Hw & Hp & Hsame & Hdiff). rewrite Ha.
    unfold watchdog_target in Et. cbv zeta in Et. fold t in Et.
    split; [done|]. split; [|split; [|split; [|split; [done|]]]].
    + intros Hd. rewrite (proj2 (Z.leb_le _ _) Hd) in Et. congruence.
    + intros [Hh Hd] Hwd. rewrite (proj2 (Z.leb_gt _ _) Hd), (proj2 (Z.leb_le _ _) Hh), Hwd in Et.
      cbn in Et. congruence.
    + intros Hh Hd. rewrite (proj2 (Z.leb_gt _ _) Hd), (proj2 (Z.leb_gt _ _) Hh) in Et. done.
    + intros age' at' _ Hage. pose proof (OnMissingReports_cases m' age' at') as Hc'.
      destruct (OnMissingReports m' age' at') as [m2 tr2]. cbn [fst snd].
      destruct (watchdog_again m m' age age' Hp Hw) as [E|E]; [by rewrite Ha| |rewrite E in Hc'..].
      * done.
      * done.
      * destruct Hc' as (_ & _ & _ & Hs & _). destruct (Hs eq_refl) as [-> Hch]. split; [|done].
        destruct m'; cbn in Hw; by rewrite Hw.
  - destruct Hc as [-> Htr]. unfold watchdog_target in Et. cbv zeta in Et. fold t in Et.
    destruct (ReportDegrade t <=? age) eqn:E1; [done|]. bool_to_prop.
    split; [done|]. split; [lia|]. split; [|split; [done|split; [done|]]].
    + intros [Hh _] Hwd. by rewrite (proj2 (Z.leb_le _ _) Hh), Hwd in Et.
    + intros age' at' Hh [Hlt|?]; [|lia]. pose proof (OnMissingReports_cases m age' at') as Hc'.
      destruct (OnMissingReports m age' at') as [m2 tr2]. cbn [fst snd].
      assert (Hn : watchdog_target m age' = None).
      { unfold watchdog_target. cbv zeta. fold t. rewrite (proj2 (Z.leb_gt _ _) Hlt).
        rewrite (proj2 (Z.leb_le _ _) Hh) in Et. destruct (tmWatchdog m); [|done]. by rewrite andb_false_r. }
      by rewrite Hn in Hc'.
Qed.

(** ** Overrides *)

(** The inputs of the machine, in the order the session applies them. *)
Inductive tier_input :=
  | InReport (rep : HealthReport)
  | InSilence (age : Z)
  | InForce (tier : DeliveryTier)
  | InClear
  | InReconnect.

Definition tier_step m (at_ : Time) (i : tier_input) : TierMachine P :=
  match i with
  | InReport rep => fst (Observe m rep at_)
  | InSilence age => fst (OnMissingReports m age at_)
  | InForce tier => fst (Force m tier at_)
  | InClear => fst (ClearOverride m at_)
  | InReconnect => fst (OnReconnect m at_)
  end.

Definition tier_run m (at_ : Time) (ins : list tier_input) : TierMachine P :=
  fold_left (fun m i => tier_step m at_ i) ins m.

Definition is_override (i : tier_input) : bool :=
  match i with InForce _ | InClear => true | _ => false end.

(** The tier the inputs leave forced. *)
Definition forced_by (o : option DeliveryTier) (i : tier_input) : option DeliveryTier :=
  match i with InForce tier => Some tier | InClear | InReconnect => None | _ => o end.

(** The automatic part of two machines is the same. *)
Definition same_auto m m' : Prop :=
  tmPolicy m = tmPolicy m' /\ tmAuto m = tmAuto m' /\ tmWatchdog m = tmWatchdog m' /\
  (tmGood m, tmBad m, tmMinimal m, tmRecovery m) = (tmGood m', tmBad m', tmMinimal m', tmRecovery m').

(** The delivered tier is the forced one, or the automatic one. *)
Definition tier_inv m : Prop :=
  tmTier m = match tmOverride m with Some tier => tier | None => tmAuto m end.

Lemma Observe_frame m rep at_ :
  let m' := fst (Observe m rep at_) in
  same_auto m' (set_auto (set_watchdog (updateStreaks m (band_of m rep)) false)
    (fst (next_tier (set_watchdog (updateStreaks m (band_of m rep)) false) (band_of m rep)))
    ReasonRecovery) /\
  tmOverride m' = tmOverride m /\ (tier_inv m -> tier_inv m').
Proof.
  cbv zeta. unfold Observe, tier_inv. cbv zeta. fold (band_of m rep).
  destruct (next_tier _ _) as [next reason].
  change (tmOverride (set_auto _ next reason)) with (tmOverride m).
  destruct (tmOverride m) as [o|] eqn:Eo; cbn [fst]; (split; [done|]).
  - change (tmOverride (set_auto _ next reason)) with (tmOverride m). rewrite Eo. done.
  - cbn [applyAuto fst]. change (tmOverride (set_tier _ _)) with (tmOverride m). by rewrite Eo.
Qed.

Lemma OnMissingReports_frame m age at_ :
  let m' := fst (OnMissingReports m age at_) in
  tmOverride m' = tmOverride m /\ (tier_inv m -> tier_inv m').
Proof.
  cbv zeta. unfold OnMissingReports, tier_inv. destruct (watchdog_target m age) as [target|]; [|done].
  cbv zeta. case_decide; [done|].
  change (tmOverride (resetStreaks (set_auto (set_watchdog m true) target ReasonMissingReports)))
    with (tmOverride m).
  destruct (tmOverride m) as [o|] eqn:Eo; cbn [fst].
  - change (tmOverride (resetStreaks _)) with (tmOverride m). by rewrite Eo.
  - change (tmOverride (set_tier _ _)) with (tmOverride m). by rewrite Eo.
Qed.

Lemma next_tier_same m m' b :
  same_auto m m' -> fst (next_tier m b) = fst (next_tier m' b).
Proof.
  intros (Hp & Ha & _ & [= Hg Hb Hm Hr]). unfold next_tier. rewrite Hp, Ha, Hg, Hb, Hm, Hr.
  destruct (tmAuto m'); by repeat case_match.
Qed.

Lemma same_auto_trans m1 m2 m3 : same_auto m1 m2 -> same_auto m2 m3 -> same_auto m1 m3.
Proof. unfold same_auto. intros (-> & -> & -> & ->). done. Qed.
Lemma same_auto_sym m1 m2 : same_auto m1 m2 -> same_auto m2 m1.
Proof. unfold same_auto. intros (-> & -> & -> & ->). done. Qed.

(** Forcing and clearing leave the automatic part alone. *)
Lemma override_same_auto m at_ i : is_override i = true -> same_auto (tier_step m at_ i) m.
Proof.
  destruct i; try done. intros _. unfold tier_step, ClearOverride. by destruct (tmOverride m).
Qed.

(** The other inputs act on the automatic part alone. *)
Lemma tier_step_same m m' at_ i :
  is_override i = false -> same_auto m m' -> same_auto (tier_step m at_ i) (tier_step m' at_ i).
Proof.
  intros Hi Hs. destruct i; try done; cbn [tier_step].
  - destruct (Observe_frame m rep at_) as [H1 _]. destruct (Observe_frame m' rep at_) as [H2 _].
    eapply same_auto_trans; [apply H1|]. eapply same_auto_trans; [|apply same_auto_sym, H2].
    assert (Hb : band_of m rep = band_of m' rep) by (unfold band_of; by rewrite (proj1 Hs)).
    rewrite Hb. set (b := band_of m' rep).
    assert (Hu : same_auto (set_watchdog (updateStreaks m b) false)
                           (set_watchdog (updateStreaks m' b) false)).
    { destruct Hs as (Hp & Ha & Hw & [= Hg Hbd Hm Hr]). unfold same_auto.
      cbn [set_watchdog updateStreaks tmPolicy tmAuto tmWatchdog tmGood tmBad tmMinimal tmRecovery].
      by rewrite Hp, Ha, Hg, Hbd, Hm, Hr. }
    rewrite (next_tier_same _ _ b Hu). destruct Hu as (Hp & Ha & Hw & Hc). by split_and!.
  - assert (Ht : watchdog_target m age = watchdog_target m' age).
    { destruct Hs as (Hp & Ha & Hw & _). unfold watchdog_target. by rewrite Hp, Ha, Hw. }
    unfold OnMissingReports. rewrite <- Ht. destruct (watchdog_target m age) as [target|]; [|done].
    destruct Hs as (Hp & Ha & Hw & Hc). cbv zeta.
    change (tmAuto (set_watchdog m true)) with (tmAuto m).
    change (tmAuto (set_watchdog m' true)) with (tmAuto m'). rewrite <- Ha.
    case_decide; [by split_and!|].
    destruct (tmOverride (resetStreaks (set_auto (set_watchdog m true) _ _)));
    destruct (tmOverride (resetStreaks (set_auto (set_watchdog m' true) _ _))); by split_and!.
  - destruct Hs as (Hp & Ha & Hw & Hc). by split_and!.
Qed.

Lemma tier_step_inv m at_ i :
  tier_inv m ->
  tier_inv (tier_step m at_ i) /\ tmOverride (tier_step m at_ i) = forced_by (tmOverride m) i.
Proof.
  intros Hm. destruct i; cbn [tier_step forced_by]; try done.
  - destruct (Observe_frame m rep at_) as (_ & ? & ?). auto.
  - destruct (OnMissingReports_frame m age at_) as (? & ?). auto.
  - unfold ClearOverride. destruct (tmOverride m) eqn:Eo; done.
Qed.

(** Overrides are transparent.  Whatever reports, silences, forced tiers,
    clears and reconnects a connection sees, the automatic tier, its streaks
    and its watchdog are those it would have without the overrides; the
    delivered tier is the forced one while an override is in force and the
    automatic one otherwise, so clearing lands on a tier that reflects the
    reports received meanwhile. *)
Theorem override_transparent (p : P) at_ (ins : list tier_input) :
  let m := tier_run (NewTierMachine p) at_ ins in
  same_auto m (tier_run (NewTierMachine p) at_ (filter (fun i => is_override i = false) ins)) /\
  tmOverride m = fold_left forced_by ins None /\
  tmTier m = match fold_left forced_by ins None with Some tier => tier | None => tmAuto m end.
Proof.
  cbv zeta. unfold tier_run.
  assert (Hgen : forall m m', tier_inv m -> same_auto m m' ->
    let r := fold_left (fun m i => tier_step m at_ i) ins m in
    same_auto r (fold_left (fun m i => tier_step m at_ i)
                  (filter (fun i => is_override i = false) ins) m') /\
    tmOverride r = fold_left forced_by ins (tmOverride m) /\ tier_inv r).
  { induction ins as [|i ins IH]; intros m m' Hm Hs; cbn [fold_left]; [done|].
    destruct (tier_step_inv m at_ i Hm) as [Hi Ho]. rewrite filter_cons, <- Ho. case_decide as Ei.
    - cbn [fold_left]. apply IH; [done|]. by apply tier_step_same.
    - apply IH; [done|]. apply not_false_iff_true in Ei.
      eapply same_auto_trans; [by apply override_same_auto|done]. }
  destruct (Hgen (NewTierMachine p) (NewTierMachine p)) as (H1 & H2 & H3); [done|by split_and!|].
  split; [done|]. split; [exact H2|]. unfold tier_inv in H3. rewrite H3 at 1. by rewrite H2.
Qed.

(** ** How long recovery takes *)

Lemma override_state (p : P) ins :
  let m := tier_run (NewTierMachine p) zeroTime ins in
  tier_inv m /\ tmOverride m = fold_left forced_by ins None.
Proof.
  cbv zeta. unfold tier_run. change None with (tmOverride (NewTierMachine p)) at 1.
  assert (Hi : tier_inv (NewTierMachine p)) by done. revert Hi. generalize (NewTierMachine p).
  induction ins as [|i ins IH]; intros m Hm; [done|]. cbn [fold_left].
  destruct (tier_step_inv m zeroTime i Hm) as [Hi <-]. by apply IH.
Qed.

Lemma last_all_replicate f b k n :
  f b = true -> 0 <= k -> last_all f k (replicate n b) = (k <=? Z.of_nat n).
Proof.
  intros Hf Hk. unfold last_all, len. rewrite length_replicate. apply eq_true_iff_eq.
  rewrite andb_true_iff. split; [by intros [? _]|]. intros ?. split; [done|].
  unfold lastn. rewrite drop_replicate. apply forallb_forall. intros x Hx.
  apply repeat_spec in Hx || (apply list_elem_of_In, elem_of_replicate in Hx). by destruct_and?; subst.
Qed.

Lemma last_all_replicate_ne f b k n :
  f b = false -> 1 <= k -> last_all f k (replicate n b) = false.
Proof.
  intros Hf Hk. rewrite <- run_length_last_all by lia. apply Z.leb_gt.
  destruct n as [|n]; [unfold run_length; cbn; lia|].
  replace (S n) with (n + 1)%nat by lia. rewrite replicate_add.
  change (replicate 1 b) with [b]. rewrite run_length_snoc.
  rewrite Hf. lia.
Qed.

Definition recovered (r n : Z) : DeliveryTier :=
  if n <? r then TierMinimal else if n =? r then TierDegraded else TierFull.

(** Recovery is slow and passes through DEGRADED.  A connection that
    silence took to MINIMAL and that then sends only good reports stays at
    MINIMAL until the recovery streak is complete, is DEGRADED for exactly one
    report, and is FULL from the next one on: with the counters kept across
    the transition, the total is the recovery streak plus one. *)
Theorem recovery_schedule m reps at_ :
  tmAuto m = TierMinimal -> tmOverride m = None -> streaks_ok m [] ->
  thresholds_ok (pThresholds (tmPolicy m)) ->
  Forall (fun rep => band_of m rep = BandGood) reps ->
  let m' := tier_run m at_ (InReport <$> reps) in
  tmTier m' = (match reps with [] => tmTier m | _ =>
     recovered (RecoverStreak (pThresholds (tmPolicy m))) (len reps) end) /\
  tmAuto m' = recovered (RecoverStreak (pThresholds (tmPolicy m))) (len reps).
Proof.
  intros Ha Ho Hs Ht Hg. cbv zeta. unfold tier_run. rewrite <- (rev_involutive reps) in *.
  set (r := RecoverStreak _). assert (Hr : 1 <= r <= streak_cap) by apply Ht.
  assert (Hgen : let m' := fold_left (fun m i => tier_step m at_ i) (InReport <$> rev (rev reps)) m in
    streaks_ok m' (replicate (length (rev reps)) BandGood) /\ tmPolicy m' = tmPolicy m /\
    tmOverride m' = None /\ tmAuto m' = recovered r (len (rev (rev reps))) /\
    tmTier m' = (match rev (rev reps) with [] => tmTier m | _ => tmAuto m' end)).
  { cbv zeta. induction (rev reps) as [|rep l IH]; cbn [rev].
    { cbn [fmap list_fmap fold_left]. split_and!; try done. rewrite Ha. unfold recovered, len. simpl.
      by rewrite (proj2 (Z.ltb_lt _ _)) by lia. }
    cbn [rev] in Hg. apply Forall_app in Hg as [Hg Hl]. apply Forall_cons in Hl as [Hb _].
    specialize (IH Hg). rewrite fmap_app, fold_left_app. cbn [fmap list_fmap fold_left tier_step].
    set (m1 := fold_left _ _ m) in *. destruct IH as (IHs & IHp & IHo & IHa & _).
    pose proof (Observe_core m1 rep at_ _ IHs ltac:(by rewrite IHp)) as Hc.
    destruct (Observe m1 rep at_) as [m2 tr]. cbv zeta in Hc. cbn [fst].
    assert (Eb : band_of m1 rep = BandGood) by (unfold band_of; rewrite IHp; exact Hb).
    rewrite Eb, IHp, IHo, IHa in Hc. destruct Hc as (Hs2 & Ha2 & _ & Hp2 & Ho2 & Ht2 & _).
    change [BandGood] with (replicate 1 BandGood) in Hs2, Ha2, Ht2.
    rewrite <- replicate_add in Hs2, Ha2, Ht2.
    cbn [length]. rewrite Nat.add_1_r in Hs2, Ha2, Ht2.
    assert (Hnext : tmAuto m2 = recovered r (len (rev l ++ [rep]))).
    { rewrite Ha2. unfold rule, recovered, len. rewrite length_app, length_rev. cbn [length].
      fold r. rewrite last_all_replicate_ne by (done || apply Ht).
      rewrite last_all_replicate_ne by (done || apply Ht).
      rewrite !last_all_replicate by (done || lia).
      repeat case_match; bool_to_prop; try done; lia. }
    split_and!; try done. rewrite Ht2. destruct (rev l ++ [rep]) eqn:E; [by destruct (rev l)|].
    by rewrite <- Ha2. }
  cbv zeta in Hgen. rewrite rev_involutive in Hgen. destruct Hgen as (_ & _ & _ & H1 & H2).
  rewrite !rev_involutive. rewrite H2, H1. split; [|done]. by destruct reps.
Qed.
End Spec.

(** ** The documented policy: 150/50 ms, 500/150 ms, streaks of 3 and 5 *)

Definition doc_thresholds : Thresholds :=
  mkThresholds (f64_of_Z 150) (f64_of_Z 50) (f64_of_Z 500) (f64_of_Z 150) 3 5
    (5 * Second) (10 * Second).
Definition doc_policy : DefaultPolicy :=
  NewDefaultPolicy doc_thresholds (f64_of_Z 15) (f64_of_Z 4) (f64_div (f64_of_Z 1) (f64_of_Z 2)).
Definition sample (rtt jitter : Z) : HealthReport :=
  mkReport (f64_of_Z rtt) (f64_of_Z jitter) 10 0 zeroTime.

Lemma new_streaks_ok {P : Type} (p : P) : streaks_ok (NewTierMachine p) [].
Proof. done. Qed.

Lemma doc_thresholds_ok : thresholds_ok doc_thresholds.
Proof. unfold thresholds_ok, streak_cap. simpl. lia. Qed.

Lemma Observe_hysteresis_witness :
  tmAuto (fst (Observe (NewTierMachine doc_policy) (sample 200 10) zeroTime)) = TierFull.
Proof.
  pose proof (Observe_hysteresis (NewTierMachine doc_policy) (sample 200 10) zeroTime []
    (new_streaks_ok _) doc_thresholds_ok) as Hw.
  destruct (Observe (NewTierMachine doc_policy) (sample 200 10) zeroTime) as [m' tr].
  destruct Hw as (_ & Hw & _). exact Hw.
Defined.

Definition silent : TierMachine DefaultPolicy :=
  fst (OnMissingReports (NewTierMachine doc_policy) (10 * Second) zeroTime).

Lemma recovery_schedule_witness :
  let go n := tmTier (tier_run silent zeroTime (InReport <$> replicate n (sample 40 5))) in
  go 4%nat = TierMinimal /\ go 5%nat = TierDegraded /\ go 6%nat = TierFull.
Proof.
  cbv zeta. assert (Hall : forall n, Forall (fun rep => band_of silent rep = BandGood)
                                    (replicate n (sample 40 5))) by
    (intros n; apply Forall_replicate; by vm_compute).
  assert (Hs : streaks_ok silent []) by by vm_compute.
  split_and!;
    (match goal with |- tmTier (tier_run _ _ (_ <$> replicate ?n _)) = _ =>
       pose proof (recovery_schedule silent (replicate n (sample 40 5)) zeroTime
         eq_refl eq_refl Hs doc_thresholds_ok (Hall n)) as [Hw _] end; exact Hw).
Defined.

(** Four reports in the documented bands. *)
Example classify_examples :
  let c rtt jitter := Classify doc_policy (f64_of_Z rtt) (f64_of_Z jitter) in
  (c 149 49, c 150 0, c 10 50, c 499 149, c 500 0, c 10 150) =
  (BandGood, BandDegraded, BandDegraded, BandDegraded, BandMinimal, BandMinimal).
Proof. vm_compute. reflexivity. Qed.

(** A report of 600 ms round trip without jitter is given HIGH_JITTER as the
    reason of a step down, one of 200 ms jitter is given too. *)
Example bandReason_rtt :
  tmReason (tier_run (NewTierMachine doc_policy) zeroTime
    (InReport <$> replicate 3 (sample 600 0))) = ReasonHighJitter.
Proof. vm_compute. reflexivity. Qed.

(** A threshold above the cap of the counters is never reached: with a degrade
    streak of 17, no number of minimal reports moves the tier. *)
Definition deaf_policy : DefaultPolicy :=
  NewDefaultPolicy (mkThresholds (f64_of_Z 150) (f64_of_Z 50) (f64_of_Z 500) (f64_of_Z 150) 17 5
    (5 * Second) (10 * Second)) (f64_of_Z 15) (f64_of_Z 4) (f64_of_Z 1).

Lemma deaf_step m rep :
  tmPolicy m = deaf_policy -> tmAuto m = TierFull ->
  tmPolicy (fst (Observe m rep zeroTime)) = deaf_policy /\
  tmAuto (fst (Observe m rep zeroTime)) = TierFull.
Proof.
  intros Hp Ha. destruct (Observe_frame m rep zeroTime) as ((H1 & H2 & _) & _).
  rewrite H1, H2. cbn [set_auto tmPolicy set_watchdog updateStreaks tmAuto]. split; [done|].
  unfold next_tier. cbn [set_watchdog updateStreaks tmAuto tmPolicy tmBad]. rewrite Ha, Hp.
  cbv zeta. rewrite (proj2 (Z.leb_gt _ _)); [done|]. unfold bump, streak_cap. simpl. lia.
Qed.

Lemma unreachable_threshold reps :
  tmTier (tier_run (NewTierMachine deaf_policy) zeroTime (InReport <$> reps)) = TierFull.
Proof.
  assert (Hg : forall m, tmPolicy m = deaf_policy -> tmAuto m = TierFull ->
    tmAuto (tier_run m zeroTime (InReport <$> reps)) = TierFull).
  { unfold tier_run. induction reps as [|rep reps IH]; intros m Hp Ha; [done|].
    cbn [fmap list_fmap fold_left tier_step]. destruct (deaf_step m rep Hp Ha). by apply IH. }
  destruct (override_state deaf_policy (InReport <$> reps)) as [Hi Ho]. unfold tier_inv in Hi.
  rewrite Hi, Ho. replace (fold_left _ _ _) with (@None DeliveryTier); [by apply Hg|].
  clear. induction reps; [done|]. done.
Qed.
