(* ===== verification/Coalesce.v ===== *)
(** * Undelivered state of a session: [internal/delivery/coalesce.go]

    [Coalescer] keeps the newest engine window and what the client's book was
    last told as finite maps keyed by price, the newest active candle of every
    interval, and a bounded batch of trades.  Go ranges over a map in an
    unspecified order; the levels that a range collects are then sorted by
    their (distinct) prices, so the order of the model's map is as good as any.
    A nil slice and an empty one are the same list. *)

From S2P Require Import Prelude Money GoTime Domain.

Abbreviation LevelMap := (gmap Z Level).

Record Coalescer := mkCoalescer {
  coSymbol : Symbol;
  coBids : LevelMap; coAsks : LevelMap; coSentBids : LevelMap; coSentAsks : LevelMap;
  coEpoch : Z; coUpdateID : Z; coClientApplied : Z; coBookDirty : bool; coNeedsSnapshot : bool;
  coCandles : gmap Interval Candle; coTrades : list Trade; coOmitted : Z;
  coCoalesced : Z; coSuppressed : Z }.

Definition NewCoalescer (symbol : Symbol) : Coalescer :=
  mkCoalescer symbol ∅ ∅ ∅ ∅ 0 0 0 false false ∅ [] 0 0 0.

(** ** Level maps *)

(** [levelMap]: the last level of a price wins. *)
Definition levelMap (levels : list Level) : LevelMap :=
  fold_left (fun out l => <[lvPrice l := l]> out) levels ∅.

(** Clears [dst] and copies [src]. *)
Definition replaceLevels (dst src : LevelMap) : LevelMap :=
  let dst := map_fold (fun k _ d => delete k d) dst dst in
  map_fold (fun k v d => <[k := v]> d) dst src.

Definition mergeLevels (dst : LevelMap) (levels : list Level) : LevelMap :=
  fold_left (fun dst l => <[lvPrice l := l]> dst) levels dst.

Definition diffLevels (current sent : LevelMap) : list Level :=
  omap (fun '(price, level) =>
    match sent !! price with
    | Some previous => if lvQuantity previous =? lvQuantity level then None else Some level
    | None => Some level
    end) (map_to_list current) ++
  omap (fun '(price, _) =>
    match current !! price with Some _ => None | None => Some (mkLevel price 0) end)
    (map_to_list sent).

Definition before (descending : bool) (a b : Level) : Prop :=
  if descending then lvPrice b <= lvPrice a else lvPrice a <= lvPrice b.
#[global] Instance before_dec d a b : Decision (before d a b).
Proof. unfold before. destruct d; apply _. Defined.

Definition sortLevels (levels : list Level) (descending : bool) : list Level :=
  merge_sort (before descending) levels.

(** ** Incoming events *)

Definition set_book (c : Coalescer) (bids asks sentBids sentAsks : LevelMap)
    (epoch updateID clientApplied : Z) (dirty needs : bool) : Coalescer :=
  mkCoalescer (coSymbol c) bids asks sentBids sentAsks epoch updateID clientApplied dirty needs
    (coCandles c) (coTrades c) (coOmitted c) (coCoalesced c) (coSuppressed c).

Definition OnBookWindow (c : Coalescer) (epoch updateID : Z) (bids asks : list Level)
    : Coalescer :=
  let c := if epoch =? coEpoch c then c
           else set_book c (coBids c) (coAsks c) ∅ ∅ epoch (coUpdateID c) 0 true true in
  set_book c (replaceLevels (coBids c) (levelMap bids)) (replaceLevels (coAsks c) (levelMap asks))
    (coSentBids c) (coSentAsks c) (coEpoch c)
    (if coUpdateID c <? updateID then updateID else coUpdateID c)
    (coClientApplied c) true (coNeedsSnapshot c).

Definition set_candles (c : Coalescer) (cs : gmap Interval Candle) : Coalescer :=
  mkCoalescer (coSymbol c) (coBids c) (coAsks c) (coSentBids c) (coSentAsks c) (coEpoch c)
    (coUpdateID c) (coClientApplied c) (coBookDirty c) (coNeedsSnapshot c) cs (coTrades c)
    (coOmitted c) (coCoalesced c) (coSuppressed c).

(** A candle no newer than the pending one of the same bucket is skipped. *)
Definition superseded (previous candle : Candle) : bool :=
  (cdSourceSequence candle <=? cdSourceSequence previous) &&
  tEqual (cdStartTime previous) (cdStartTime candle).

Definition OnCandle (c : Coalescer) (candle : Candle) : Coalescer :=
  match coCandles c !! cdInterval candle with
  | Some previous =>
      if superseded previous candle then c
      else set_candles c (<[cdInterval candle := candle]> (coCandles c))
  | None => set_candles c (<[cdInterval candle := candle]> (coCandles c))
  end.

Definition set_trades (c : Coalescer) (ts : list Trade) (omitted coalesced : Z) : Coalescer :=
  mkCoalescer (coSymbol c) (coBids c) (coAsks c) (coSentBids c) (coSentAsks c) (coEpoch c)
    (coUpdateID c) (coClientApplied c) (coBookDirty c) (coNeedsSnapshot c) (coCandles c) ts
    omitted coalesced (coSuppressed c).

Definition OnTrade (c : Coalescer) (t : Trade) (maxBatch : Z) : Coalescer :=
  if (0 <? maxBatch) && (maxBatch <=? len (coTrades c)) then
    set_trades c (tail (coTrades c) ++ [t]) (i64 (coOmitted c + 1)) (i64 (coCoalesced c + 1))
  else set_trades c (coTrades c ++ [t]) (coOmitted c) (coCoalesced c).

(** ** Delivery *)

Record BookDelta := mkDelta {
  bdEpoch : Z; bdFirst : Z; bdLast : Z; bdBids : list Level; bdAsks : list Level }.

Definition clean (c : Coalescer) : Coalescer :=
  set_book c (coBids c) (coAsks c) (coSentBids c) (coSentAsks c) (coEpoch c) (coUpdateID c)
    (coClientApplied c) false (coNeedsSnapshot c).

Definition TakeBookDelta (c : Coalescer) : Coalescer * option BookDelta :=
  if negb (coBookDirty c) || coNeedsSnapshot c then (c, None)
  else if coUpdateID c <=? coClientApplied c then (clean c, None)
  else
    let bids := diffLevels (coBids c) (coSentBids c) in
    let asks := diffLevels (coAsks c) (coSentAsks c) in
    if (len bids =? 0) && (len asks =? 0) then (clean c, None)
    else
      let first := u64 (coClientApplied c + 1) in
      let last := coUpdateID c in
      let c := set_book c (coBids c) (coAsks c) (replaceLevels (coSentBids c) (coBids c))
                 (replaceLevels (coSentAsks c) (coAsks c)) (coEpoch c) (coUpdateID c)
                 (coUpdateID c) false (coNeedsSnapshot c) in
      (c, Some (mkDelta (coEpoch c) first last (sortLevels bids true) (sortLevels asks false))).

Definition TakeCandle (c : Coalescer) (iv : Interval) : Coalescer * option Candle :=
  match coCandles c !! iv with
  | None => (c, None)
  | Some candle => (set_candles c (delete iv (coCandles c)), Some candle)
  end.

(** The second component is [(trades, omitted, ok)]. *)
Definition TakeTrades (c : Coalescer) : Coalescer * (list Trade * Z * bool) :=
  match coTrades c with
  | [] => (c, ([], coOmitted c, false))
  | ts => (set_trades c [] 0 (coCoalesced c), (ts, coOmitted c, true))
  end.

Definition NeedsSnapshot (c : Coalescer) : bool := coNeedsSnapshot c.

(** What the client was told is taken to be the window the coalescer holds,
    not the snapshot that was sent. *)
Definition SnapshotSent (c : Coalescer) (epoch updateID : Z) : Coalescer :=
  set_book c (coBids c) (coAsks c) (replaceLevels (coSentBids c) (coBids c))
    (replaceLevels (coSentAsks c) (coAsks c)) epoch updateID updateID false false.

Definition InjectGap (c : Coalescer) : Coalescer * Z :=
  (set_book c (coBids c) (coAsks c) (coSentBids c) (coSentAsks c) (coEpoch c) (coUpdateID c)
     (coUpdateID c) true (coNeedsSnapshot c),
   u64 (coUpdateID c - coClientApplied c)).

Definition Coalescer_Reset (c : Coalescer) : Coalescer :=
  mkCoalescer (coSymbol c) ∅ ∅ ∅ ∅ (coEpoch c) 0 0 false true ∅ [] 0 (coCoalesced c)
    (coSuppressed c).

Definition PendingCounts (c : Coalescer) : Z * Z * Z :=
  (Z.of_nat (size (coCandles c)), len (coTrades c),
   Z.of_nat (size (coBids c)) + Z.of_nat (size (coAsks c))).

Definition Stats (c : Coalescer) : Coalescer * (Z * Z) :=
  (mkCoalescer (coSymbol c) (coBids c) (coAsks c) (coSentBids c) (coSentAsks c) (coEpoch c)
     (coUpdateID c) (coClientApplied c) (coBookDirty c) (coNeedsSnapshot c) (coCandles c)
     (coTrades c) (coOmitted c) 0 0,
   (coCoalesced c, coSuppressed c)).
