(* ===== verification/CoalesceSpec.v ===== *)
(** * What the coalescer promises to the client

    [ClientBook] is the book of a client that follows the delta protocol of the
    README: a range is applied when it starts at or before the next sequence
    number, ignored when it ends at or before the last applied one, and is a
    gap otherwise; quantities are absolute and zero deletes.  The theorems
    relate the coalescer's idea of that book to the book itself. *)

From S2P Require Import Prelude Money GoTime Domain Coalesce.

(** ** The client *)

Record ClientBook := mkClient {
  clEpoch : Z; clApplied : Z; clBids : gmap Z Z; clAsks : gmap Z Z }.

Inductive outcome :=
| Applied (cl : ClientBook)
| Ignored
| Gap
| OtherEpoch.

Definition set_level (side : gmap Z Z) (l : Level) : gmap Z Z :=
  if lvQuantity l =? 0 then delete (lvPrice l) side else <[lvPrice l := lvQuantity l]> side.
Definition set_levels (side : gmap Z Z) (ls : list Level) : gmap Z Z := fold_left set_level ls side.

Definition client_apply (cl : ClientBook) (d : BookDelta) : outcome :=
  if negb (bdEpoch d =? clEpoch cl) then OtherEpoch
  else if bdLast d <=? clApplied cl then Ignored
  else if clApplied cl + 1 <? bdFirst d then Gap
  else Applied (mkClient (clEpoch cl) (bdLast d) (set_levels (clBids cl) (bdBids d))
                  (set_levels (clAsks cl) (bdAsks d))).

(** The client replaces its book by a snapshot. *)
Definition client_install (epoch updateID : Z) (bids asks : list Level) : ClientBook :=
  mkClient epoch updateID (lvQuantity <$> levelMap bids) (lvQuantity <$> levelMap asks).

(** ** Level maps *)

(** Indexed by price, with something to show. *)
Definition keyed (m : LevelMap) : Prop :=
  map_Forall (fun p l => lvPrice l = p /\ 0 < lvQuantity l) m.

Definition quantities (m : LevelMap) : gmap Z Z := lvQuantity <$> m.

Lemma fold_delete_all (m d : LevelMap) p :
  map_fold (fun k _ d => delete k d) d m !! p =
  match m !! p with Some _ => None | None => d !! p end.
Proof.
  revert p. refine (map_fold_weak_ind (fun r m => forall p, r !! p =
    match m !! p with Some _ => None | None => d !! p end) _ d _ _ m).
  - intros p. by rewrite lookup_empty.
  - intros i x m' r Hi IH p. cbv beta in *. destruct (decide (i = p)) as [->|Hne].
    + by rewrite lookup_delete_eq, lookup_insert_eq.
    + by rewrite lookup_delete_ne, lookup_insert_ne, IH.
Qed.

Lemma fold_insert_all (m d : LevelMap) p :
  map_fold (fun k v d => <[k := v]> d) d m !! p =
  match m !! p with Some v => Some v | None => d !! p end.
Proof.
  revert p. refine (map_fold_weak_ind (fun r m => forall p, r !! p =
    match m !! p with Some v => Some v | None => d !! p end) _ d _ _ m).
  - intros p. by rewrite lookup_empty.
  - intros i x m' r Hi IH p. cbv beta in *. destruct (decide (i = p)) as [->|Hne].
    + by rewrite !lookup_insert_eq.
    + by rewrite !lookup_insert_ne, IH.
Qed.

(** [replaceLevels] makes the destination a copy of the source. *)
Lemma replaceLevels_eq dst src : replaceLevels dst src = src.
Proof.
  apply map_eq. intros p. unfold replaceLevels. rewrite fold_insert_all, fold_delete_all.
  destruct (src !! p); [done|]. by destruct (dst !! p).
Qed.

Lemma levelMap_keyed ls : Forall (fun l => 0 < lvQuantity l) ls -> keyed (levelMap ls).
Proof.
  unfold levelMap. intros Hl. assert (Hg : forall m, keyed m ->
    keyed (fold_left (fun out l => <[lvPrice l := l]> out) ls m)).
  { induction Hl as [|l ls Hq _ IH]; intros m Hm; [done|]. cbn [fold_left]. apply IH.
    by apply map_Forall_insert_2. }
  apply Hg, map_Forall_empty.
Qed.

(** What a diff contains. *)
Lemma diffLevels_spec current sent l :
  keyed current ->
  l ∈ diffLevels current sent <->
  (current !! lvPrice l = Some l /\ (lvQuantity <$> sent !! lvPrice l) <> Some (lvQuantity l)) \/
  (current !! lvPrice l = None /\ is_Some (sent !! lvPrice l) /\ lvQuantity l = 0).
Proof.
  intros Hk. unfold diffLevels. rewrite elem_of_app, !list_elem_of_omap. split.
  - intros [([p l'] & Hin & Hl)|([p l'] & Hin & Hl)]; apply elem_of_map_to_list in Hin.
    + left. destruct (Hk _ _ Hin) as [<- _]. destruct (sent !! lvPrice l') as [pr|] eqn:Es.
      * destruct (lvQuantity pr =? lvQuantity l') eqn:Eq; [done|]. injection Hl as [= ->].
        rewrite Es. split; [done|]. simpl. intros [= Hq]. lia.
      * injection Hl as [= ->]. by rewrite Es.
    + right. destruct (current !! p) eqn:Ec; [done|]. injection Hl as [= <-]. simpl. eauto.
  - intros [[Hc Hs]|(Hc & [l' Hs] & Hq)].
    + left. exists (lvPrice l, l). rewrite elem_of_map_to_list. split; [done|].
      destruct (sent !! lvPrice l) as [pr|] eqn:Es; [|done].
      destruct (lvQuantity pr =? lvQuantity l) eqn:Eq; [|done]. exfalso. apply Hs. simpl. f_equal. lia.
    + right. exists (lvPrice l, l'). rewrite elem_of_map_to_list. split; [done|]. rewrite Hc.
      destruct l; simpl in *. by subst.
Qed.

(** Applying levels that all describe a target map reaches it wherever it
    differs. *)
Lemma set_levels_target (target : gmap Z Z) ls side :
  (forall l, l ∈ ls -> target !! lvPrice l = if lvQuantity l =? 0 then None else Some (lvQuantity l)) ->
  (forall p, (forall l, l ∈ ls -> lvPrice l <> p) -> side !! p = target !! p) ->
  set_levels side ls = target.
Proof.
  unfold set_levels. revert side. induction ls as [|l ls IH]; intros side Hl Hs; cbn [fold_left].
  - apply map_eq. intros p. apply Hs. intros l Hin. by apply elem_of_nil in Hin.
  - apply IH; [intros l' Hin; apply Hl; by right|]. intros p Hp.
    destruct (decide (lvPrice l = p)) as [<-|Hne].
    + rewrite Hl by left. unfold set_level. destruct (lvQuantity l =? 0).
      * by rewrite lookup_delete_eq.
      * by rewrite lookup_insert_eq.
    + rewrite <- Hs.
      * unfold set_level. destruct (lvQuantity l =? 0); [by rewrite lookup_delete_ne|by rewrite lookup_insert_ne].
      * intros l' [->|Hin]%elem_of_cons; [done|]. by apply Hp.
Qed.

(** The levels of a client's side that the coalescer does not know of. *)
Definition unknown (sent : LevelMap) (side : gmap Z Z) : gmap Z Z :=
  filter (fun kv => sent !! kv.1 = None) side.

Lemma lookup_unknown sent side p :
  unknown sent side !! p = match sent !! p with Some _ => None | None => side !! p end.
Proof.
  unfold unknown. destruct (sent !! p) as [l|] eqn:Es.
  - apply map_lookup_filter_None_2. right. intros q _ Hn. simpl in Hn. congruence.
  - destruct (side !! p) as [q|] eqn:Eq.
    + by apply map_lookup_filter_Some_2.
    + apply map_lookup_filter_None_2. by left.
Qed.

(** Applying a diff against what the client was told gives exactly the current
    window, plus whatever the client held that the coalescer does not know. *)
Lemma diff_applies current sent side ls :
  keyed current -> quantities sent ⊆ side -> ls ≡ₚ diffLevels current sent ->
  set_levels side ls = quantities current ∪ unknown sent side.
Proof.
  intros Hk Hs Hp. apply set_levels_target.
  - intros l Hl. rewrite Hp in Hl. apply diffLevels_spec in Hl; [|done].
    destruct Hl as [[Hc _]|(Hc & [l' Hs'] & ->)].
    + rewrite (lookup_union_Some_l _ _ _ (lvQuantity l)).
      * destruct (Hk _ _ Hc) as [_ Hq]. by rewrite (proj2 (Z.eqb_neq _ _)) by lia.
      * unfold quantities. by rewrite lookup_fmap, Hc.
    + rewrite lookup_union_r by (unfold quantities; by rewrite lookup_fmap, Hc).
      by rewrite lookup_unknown, Hs'.
  - intros p Hnot. destruct (current !! p) as [l|] eqn:Hc.
    + destruct (Hk _ _ Hc) as [Hpl Hq]. rewrite (lookup_union_Some_l _ _ _ (lvQuantity l))
        by (unfold quantities; by rewrite lookup_fmap, Hc).
      destruct (decide ((lvQuantity <$> sent !! p) = Some (lvQuantity l))) as [He|Hne].
      * eapply lookup_weaken; [|exact Hs]. unfold quantities. by rewrite lookup_fmap.
      * exfalso. apply (Hnot l); [|done]. rewrite Hp. apply diffLevels_spec; [done|]. left. by rewrite Hpl.
    + rewrite lookup_union_r by (unfold quantities; by rewrite lookup_fmap, Hc).
      rewrite lookup_unknown. destruct (sent !! p) as [l'|] eqn:Es; [|done].
      exfalso. apply (Hnot (mkLevel p 0)); [|done]. rewrite Hp. apply diffLevels_spec; [done|]. right.
      simpl. rewrite Es. eauto.
Qed.

Lemma sortLevels_perm ls d : sortLevels ls d ≡ₚ ls.
Proof. apply merge_sort_Permutation. Qed.

Lemma sortLevels_sorted ls d : StronglySorted (before d) (sortLevels ls d).
Proof.
  apply Sorted_StronglySorted; [intros a b c; unfold before; destruct d; lia|].
  apply Sorted_merge_sort. intros a b. unfold before. destruct d; lia.
Qed.

(** ** The relation between the coalescer and the client *)

(** The coalescer knows the client's epoch and sequence, and everything it
    believes the client was told is on the client's book. *)
Record synced (c : Coalescer) (cl : ClientBook) : Prop := {
  sy_epoch : clEpoch cl = coEpoch c;
  sy_applied : clApplied cl = coClientApplied c;
  sy_bids : quantities (coSentBids c) ⊆ clBids cl;
  sy_asks : quantities (coSentAsks c) ⊆ clAsks cl }.

(** The windows are well formed and the sequence numbers are [uint64]. *)
Record window_ok (c : Coalescer) : Prop := {
  wo_bids : keyed (coBids c);
  wo_asks : keyed (coAsks c);
  wo_ids : in_u64 (coUpdateID c) /\ in_u64 (coClientApplied c) }.

(** The coalescer knows the whole of the client's book. *)
Definition exact (c : Coalescer) (cl : ClientBook) : Prop :=
  clBids cl = quantities (coSentBids c) /\ clAsks cl = quantities (coSentAsks c).

Lemma TakeBookDelta_cases c :
  (snd (TakeBookDelta c) = None /\
   (fst (TakeBookDelta c) = c \/ fst (TakeBookDelta c) = clean c)) \/
  (coNeedsSnapshot c = false /\ coClientApplied c < coUpdateID c /\
   TakeBookDelta c =
     (set_book c (coBids c) (coAsks c) (coBids c) (coAsks c) (coEpoch c) (coUpdateID c)
        (coUpdateID c) false (coNeedsSnapshot c),
      Some (mkDelta (coEpoch c) (u64 (coClientApplied c + 1)) (coUpdateID c)
        (sortLevels (diffLevels (coBids c) (coSentBids c)) true)
        (sortLevels (diffLevels (coAsks c) (coSentAsks c)) false)))).
Proof.
  unfold TakeBookDelta. destruct (negb (coBookDirty c) || coNeedsSnapshot c) eqn:E1; [by left; auto|].
  destruct (coUpdateID c <=? coClientApplied c) eqn:E2; [by left; auto|]. cbv zeta.
  destruct (_ && _); [by left; auto|]. right. bool_to_prop. rewrite !replaceLevels_eq. auto.
Qed.

Lemma unknown_exact sent side : side = quantities sent -> unknown sent side = ∅.
Proof.
  intros ->. apply map_eq. intros p. rewrite lookup_unknown, lookup_empty. unfold quantities.
  rewrite lookup_fmap. by destruct (sent !! p).
Qed.

(** The delta a flush produces, seen from the client. *)
Lemma TakeBookDelta_core c cl c' d :
  window_ok c -> synced c cl -> TakeBookDelta c = (c', Some d) ->
  let cl' := mkClient (coEpoch c) (coUpdateID c)
               (quantities (coBids c) ∪ unknown (coSentBids c) (clBids cl))
               (quantities (coAsks c) ∪ unknown (coSentAsks c) (clAsks cl)) in
  client_apply cl d = Applied cl' /\ synced c' cl' /\ window_ok c' /\
  bdFirst d = clApplied cl + 1 /\ bdFirst d <= bdLast d /\ bdLast d = coUpdateID c /\
  (exact c cl -> exact c' cl').
Proof.
  intros [Hb Ha [Hu Hap]] [Se Sa Sb Sk] Ht. cbv zeta.
  destruct (TakeBookDelta_cases c) as [[Hn _]|(_ & Hlt & Hc)]; [by rewrite Ht in Hn|].
  rewrite Ht in Hc. injection Hc as [= -> ->].
  assert (Hfirst : u64 (coClientApplied c + 1) = coClientApplied c + 1)
    by (apply u64_small; unfold in_u64 in *; lia).
  cbn [bdFirst bdLast]. rewrite Sa, Hfirst. split_and!; try lia.
  - unfold client_apply. cbn [bdEpoch bdFirst bdLast bdBids bdAsks].
    rewrite Se, Z.eqb_refl, Sa. cbn [negb].
    rewrite (proj2 (Z.leb_gt _ _)) by lia. rewrite (proj2 (Z.ltb_ge _ _)) by lia.
    rewrite (diff_applies (coBids c) (coSentBids c)) by (done || apply sortLevels_perm).
    by rewrite (diff_applies (coAsks c) (coSentAsks c)) by (done || apply sortLevels_perm).
  - split; try done; apply map_union_subseteq_l.
  - by split.
  - intros [Eb Ek]. unfold exact. cbn [clBids clAsks coSentBids coSentAsks set_book].
    rewrite !unknown_exact by done. by rewrite !(right_id_L ∅ (∪)).
Qed.

(** ** A session over time *)

Definition positive_levels (ls : list Level) : Prop := Forall (fun l => 0 < lvQuantity l) ls.

(** What happens to a coalescer and the client behind it.  A snapshot is the
    engine's book at the moment it is read: it must show what the coalescer
    will believe the client was told, which is so when the coalescer has seen
    all published windows and when it was reset. *)
Inductive delivery_step : Coalescer * ClientBook -> Coalescer * ClientBook -> Prop :=
| step_window c cl epoch u bids asks :
    positive_levels bids -> positive_levels asks -> in_u64 u ->
    delivery_step (c, cl) (OnBookWindow c epoch u bids asks, cl)
| step_flush c cl c' :
    TakeBookDelta c = (c', None) -> delivery_step (c, cl) (c', cl)
| step_flush_delta c cl c' d cl' :
    TakeBookDelta c = (c', Some d) -> client_apply cl d = Applied cl' ->
    delivery_step (c, cl) (c', cl')
| step_flush_refused c cl c' d :
    TakeBookDelta c = (c', Some d) -> (forall cl', client_apply cl d <> Applied cl') ->
    delivery_step (c, cl) (c', cl)
| step_snapshot c cl epoch u bids asks :
    in_u64 u ->
    quantities (coBids c) ⊆ quantities (levelMap bids) ->
    quantities (coAsks c) ⊆ quantities (levelMap asks) ->
    delivery_step (c, cl) (SnapshotSent c epoch u, client_install epoch u bids asks)
| step_reset c cl : delivery_step (c, cl) (Coalescer_Reset c, cl)
| step_trade c cl t n : delivery_step (c, cl) (OnTrade c t n, cl)
| step_candle c cl k : delivery_step (c, cl) (OnCandle c k, cl)
| step_take_trades c cl : delivery_step (c, cl) (fst (TakeTrades c), cl)
| step_take_candle c cl iv : delivery_step (c, cl) (fst (TakeCandle c iv), cl)
| step_stats c cl : delivery_step (c, cl) (fst (Stats c), cl).

Definition delivery_inv (s : Coalescer * ClientBook) : Prop :=
  window_ok (fst s) /\ (coNeedsSnapshot (fst s) = false -> synced (fst s) (snd s)).

Definition fresh_session (sym : Symbol) : Coalescer * ClientBook :=
  (NewCoalescer sym, mkClient 0 0 ∅ ∅).

(** Steps that leave the book fields alone. *)
Definition book_fields (c : Coalescer) :=
  (coBids c, coAsks c, coSentBids c, coSentAsks c, coEpoch c, coUpdateID c, coClientApplied c,
   coNeedsSnapshot c).

Lemma delivery_inv_frame c c' cl :
  book_fields c' = book_fields c -> delivery_inv (c, cl) -> delivery_inv (c', cl).
Proof.
  intros [= E1 E2 E3 E4 E5 E6 E7 E8] [[Hb Ha Hi] Hs]. split; cbn [fst snd] in *.
  - split; by rewrite ?E1, ?E2, ?E6, ?E7.
  - rewrite E8. intros Hn. destruct (Hs Hn) as [S1 S2 S3 S4]. split; by rewrite ?E3, ?E4, ?E5, ?E7.
Qed.

Lemma quantities_empty : quantities ∅ = ∅.
Proof. apply fmap_empty. Qed.

Lemma OnBookWindow_inv c cl epoch u bids asks :
  positive_levels bids -> positive_levels asks -> in_u64 u -> delivery_inv (c, cl) ->
  delivery_inv (OnBookWindow c epoch u bids asks, cl).
Proof.
  intros Hb Ha Hu [[_ _ [Hi1 Hi2]] Hs]. unfold OnBookWindow. cbv zeta. cbn [fst snd] in *.
  destruct (epoch =? coEpoch c); split; cbn [fst snd].
  - split; cbn [set_book coBids coAsks coUpdateID coClientApplied]; rewrite ?replaceLevels_eq;
      auto using levelMap_keyed. by destruct (_ <? _).
  - intros Hn. by destruct (Hs Hn).
  - split; cbn [set_book coBids coAsks coUpdateID coClientApplied]; rewrite ?replaceLevels_eq;
      auto using levelMap_keyed. split; [by destruct (_ <? _)|unfold in_u64; lia].
  - done.
Qed.

Lemma delivery_step_inv s s' : delivery_step s s' -> delivery_inv s -> delivery_inv s'.
Proof.
  intros Hst Hinv. destruct Hst as [c cl e u bids asks|c cl c' Ht|c cl c' d cl' Ht Hcl|c cl c' d Ht Hcl
    |c cl e u bids asks Hu Hb Ha|c cl|c cl t n|c cl k|c cl|c cl iv|c cl].
  - by apply OnBookWindow_inv.
  - apply (delivery_inv_frame c); [|done].
    destruct (TakeBookDelta_cases c) as [[_ [E|E]]|(_ & _ & E)]; rewrite Ht in E; cbn [fst] in E; by subst.
  - destruct Hinv as [Hw Hs]. cbn [fst snd] in *.
    assert (Hn : coNeedsSnapshot c = false)
      by (destruct (TakeBookDelta_cases c) as [[E _]|(? & _)]; [by rewrite Ht in E|done]).
    destruct (TakeBookDelta_core c cl c' d Hw (Hs Hn) Ht) as (E & Hsy & Hw' & _).
    rewrite Hcl in E. injection E as [= ->]. split; [exact Hw'|]. intros _. exact Hsy.
  - exfalso. destruct Hinv as [Hw Hs]. cbn [fst snd] in *.
    assert (Hn : coNeedsSnapshot c = false)
      by (destruct (TakeBookDelta_cases c) as [[E _]|(? & _)]; [by rewrite Ht in E|done]).
    destruct (TakeBookDelta_core c cl c' d Hw (Hs Hn) Ht) as (E & _). by apply Hcl in E.
  - destruct Hinv as [[Hkb Hka _] _]. split; [by split|]. intros _.
    split; try done; cbn [SnapshotSent set_book coSentBids coSentAsks fst snd client_install clBids clAsks];
      by rewrite replaceLevels_eq.
  - split; [|done]. split; cbn; try apply map_Forall_empty. unfold in_u64; lia.
  - apply (delivery_inv_frame c); [|done]. unfold OnTrade. by destruct (_ && _).
  - apply (delivery_inv_frame c); [|done]. unfold OnCandle. destruct (_ !! _); [|done].
    by destruct (superseded _ _).
  - apply (delivery_inv_frame c); [|done]. unfold TakeTrades. by destruct (coTrades c).
  - apply (delivery_inv_frame c); [|done]. unfold TakeCandle. by destruct (_ !! _).
  - by apply (delivery_inv_frame c).
Qed.

Lemma fresh_session_inv sym : delivery_inv (fresh_session sym).
Proof.
  split; [split; try apply map_Forall_empty; cbn; unfold in_u64; lia|].
  intros _. split; try done; cbn; rewrite quantities_empty; apply map_empty_subseteq.
Qed.

Lemma delivery_reachable_inv sym s : rtc delivery_step (fresh_session sym) s -> delivery_inv s.
Proof.
  intros Hr. remember (fresh_session sym) as s0 eqn:E. assert (Hi : delivery_inv s0)
    by (subst; apply fresh_session_inv). clear E.
  induction Hr; [done|]. eauto using delivery_step_inv.
Qed.

(** C3: However windows, flushes, snapshots and resets interleave, a flush never
    produces a range the client must reject: every delta starts right after
    the client's last applied update and ends at the newest one, its levels are sorted, and once applied the
    client shows every level of the engine's newest window, and nothing else
    but levels a snapshot left there that the coalescer was never told of. *)
Theorem deltas_always_apply sym c cl c' d :
  rtc delivery_step (fresh_session sym) (c, cl) -> TakeBookDelta c = (c', Some d) ->
  exists cl', client_apply cl d = Applied cl' /\
    bdFirst d = clApplied cl + 1 /\ bdFirst d <= bdLast d /\ clApplied cl' = coUpdateID c /\
    clBids cl' = quantities (coBids c) ∪ unknown (coSentBids c) (clBids cl) /\
    clAsks cl' = quantities (coAsks c) ∪ unknown (coSentAsks c) (clAsks cl) /\
    StronglySorted (before true) (bdBids d) /\ StronglySorted (before false) (bdAsks d).
Proof.
  intros Hr Ht. destruct (delivery_reachable_inv _ _ Hr) as [Hw Hs]. cbn [fst snd] in *.
  destruct (TakeBookDelta_cases c) as [[E _]|(Hn & _ & E)]; [by rewrite Ht in E|].
  destruct (TakeBookDelta_core c cl c' d Hw (Hs Hn) Ht) as (Hcl & _ & _ & H1 & H2 & _).
  rewrite Ht in E. injection E as [= _ ->].
  eexists. split; [exact Hcl|]. cbn [bdBids bdAsks clApplied clBids clAsks] in *.
  split_and!; try done; apply sortLevels_sorted.
Qed.

(** ** Coalescing is transparent *)

Definition shows (c : Coalescer) (cl : ClientBook) : Prop :=
  clBids cl = quantities (coBids c) /\ clAsks cl = quantities (coAsks c).

(** A client whose whole book the coalescer knows, and who is behind only by
    windows that are still to be flushed. *)
Record settled (c : Coalescer) (cl : ClientBook) : Prop := {
  st_window : window_ok c;
  st_synced : synced c cl;
  st_exact : exact c cl;
  st_live : coNeedsSnapshot c = false;
  st_behind : coClientApplied c <= coUpdateID c;
  st_shows : coBookDirty c = false \/ coUpdateID c = coClientApplied c -> shows c cl }.

Definition deliver (cl : ClientBook) (od : option BookDelta) : ClientBook :=
  match od with
  | Some d => match client_apply cl d with Applied cl' => cl' | _ => cl end
  | None => cl
  end.

Definition flush_book (s : Coalescer * ClientBook) : Coalescer * ClientBook :=
  let '(c, d) := TakeBookDelta (fst s) in (c, deliver (snd s) d).

Lemma flush_settled c cl :
  settled c cl ->
  let s := flush_book (c, cl) in
  settled (fst s) (snd s) /\ shows (fst s) (snd s) /\
  coBids (fst s) = coBids c /\ coAsks (fst s) = coAsks c /\
  coEpoch (fst s) = coEpoch c /\ coUpdateID (fst s) = coUpdateID c.
Proof.
  intros [Hw Hs He Hl Hb Hsh]. cbv zeta. unfold flush_book. cbn [fst snd].
  destruct (TakeBookDelta_cases c) as [[Hn Hc]|(_ & Hlt & Hc)].
  - destruct (TakeBookDelta c) as [c' od] eqn:Ht. cbn [fst snd] in *. subst od. cbn [deliver].
    assert (Hshows : shows c cl).
    { unfold TakeBookDelta in Ht. rewrite Hl, orb_false_r in Ht.
      destruct (coBookDirty c) eqn:Ed; [|by apply Hsh; left]. cbn [negb] in Ht.
      destruct (coUpdateID c <=? coClientApplied c) eqn:Eu; [apply Hsh; right; lia|]. cbv zeta in Ht.
      destruct ((len _ =? 0) && _) eqn:El; [|done]. bool_to_prop. destruct Hw as [Hkb Hka _].
      destruct Hs as [_ _ Sb Sa], He as [Eb Ea].
      assert (Hempty : forall cur sent side, keyed cur -> quantities sent ⊆ side ->
        side = quantities sent -> len (diffLevels cur sent) = 0 -> side = quantities cur).
      { intros cur sent side Hk Hsub Hex Hlen. unfold len in Hlen.
        destruct (diffLevels cur sent) eqn:Ediff; [|cbn [length] in Hlen; lia].
        pose proof (diff_applies cur sent side [] Hk Hsub ltac:(by rewrite Ediff)) as Hd.
        rewrite unknown_exact, (right_id_L ∅ (∪)) in Hd by done. exact Hd. }
      split; eapply Hempty; eauto. }
    destruct Hw as [? ? ?], Hs as [? ? ? ?].
    destruct Hc as [-> | ->]; (split; [split; first [done|by split]|done]).
  - destruct (TakeBookDelta_core c cl _ _ Hw Hs Hc) as (Hcl & Hsy & Hw' & _ & _ & _ & Hex).
    rewrite Hc. cbn [deliver fst snd]. rewrite Hcl. specialize (Hex He).
    assert (Hshows : shows (set_book c (coBids c) (coAsks c) (coBids c) (coAsks c) (coEpoch c)
      (coUpdateID c) (coUpdateID c) false (coNeedsSnapshot c))
      (mkClient (coEpoch c) (coUpdateID c)
        (quantities (coBids c) ∪ unknown (coSentBids c) (clBids cl))
        (quantities (coAsks c) ∪ unknown (coSentAsks c) (clAsks cl)))) by exact Hex.
    split; [split; try done; cbn; lia|done].
Qed.

(** A newer window of the same epoch. *)
Lemma OnBookWindow_newer c u bids asks :
  coUpdateID c < u ->
  OnBookWindow c (coEpoch c) u bids asks =
  set_book c (levelMap bids) (levelMap asks) (coSentBids c) (coSentAsks c) (coEpoch c) u
    (coClientApplied c) true (coNeedsSnapshot c).
Proof.
  intros Hlt. unfold OnBookWindow. rewrite Z.eqb_refl, !replaceLevels_eq. cbv zeta.
  by rewrite (proj2 (Z.ltb_lt _ _)) by lia.
Qed.

Lemma window_settled c cl u bids asks :
  settled c cl -> positive_levels bids -> positive_levels asks -> in_u64 u -> coUpdateID c < u ->
  let c' := OnBookWindow c (coEpoch c) u bids asks in
  settled c' cl /\ coBids c' = levelMap bids /\ coAsks c' = levelMap asks /\
  coEpoch c' = coEpoch c /\ coUpdateID c' = u.
Proof.
  intros [[_ _ [Hi1 Hi2]] [Se Sa Sb Sk] He Hl Hbh Hsh] Hb Ha Hu Hlt. cbv zeta.
  rewrite OnBookWindow_newer by done. split; [|done]. split; cbn [set_book coNeedsSnapshot coClientApplied coUpdateID coBookDirty];
    try done; try lia.
  by split; cbn; auto using levelMap_keyed.
Qed.

(** Windows as published, with the flushes between them. *)
Inductive book_event :=
| Published (u : Z) (bids asks : list Level)
| Flushed.

Definition book_event_step (s : Coalescer * ClientBook) (e : book_event) :=
  match e with
  | Published u bids asks => (OnBookWindow (fst s) (coEpoch (fst s)) u bids asks, snd s)
  | Flushed => flush_book s
  end.

(** The update ids increase. *)
Fixpoint increasing (u : Z) (es : list book_event) : Prop :=
  match es with
  | [] => True
  | Flushed :: es => increasing u es
  | Published u' bids asks :: es =>
      u < u' /\ in_u64 u' /\ positive_levels bids /\ positive_levels asks /\ increasing u' es
  end.

Fixpoint last_window (w : LevelMap * LevelMap) (es : list book_event) : LevelMap * LevelMap :=
  match es with
  | [] => w
  | Flushed :: es => last_window w es
  | Published _ bids asks :: es => last_window (levelMap bids, levelMap asks) es
  end.

Lemma book_events_settled es c cl :
  settled c cl -> increasing (coUpdateID c) es ->
  let s := fold_left book_event_step es (c, cl) in
  settled (fst s) (snd s) /\ (coBids (fst s), coAsks (fst s)) = last_window (coBids c, coAsks c) es.
Proof.
  revert c cl. induction es as [|[u bids asks|] es IH]; intros c cl Hs Hi; cbn [fold_left].
  - done.
  - destruct Hi as (Hlt & Hu & Hb & Ha & Hi). cbn [book_event_step fst snd].
    destruct (window_settled c cl u bids asks Hs Hb Ha Hu Hlt) as (Hs' & E1 & E2 & _ & E4).
    cbv zeta in *. destruct (IH _ _ Hs' ltac:(by rewrite E4)) as [H1 H2]. split; [exact H1|].
    by rewrite H2, E1, E2.
  - destruct (flush_settled c cl Hs) as (Hs' & _ & E1 & E2 & _ & E4). cbv zeta in *.
    cbn [book_event_step]. destruct (flush_book (c, cl)) as [c' cl']. cbn [fst snd] in *.
    destruct (IH _ _ Hs' ltac:(by rewrite E4)) as [H1 H2]. split; [exact H1|].
    by rewrite H2, E1, E2.
Qed.

(** C2: Coalescing changes how often the client hears, never what it ends up
    with.  From a synchronised client, however the flushes are placed between
    the windows the engine publishes, after the last flush the client's book
    is exactly the last published window, and the client never saw a gap. *)
Theorem coalescing_transparent c cl es :
  settled c cl -> increasing (coUpdateID c) es ->
  let cl' := snd (fold_left book_event_step (es ++ [Flushed]) (c, cl)) in
  clBids cl' = quantities (fst (last_window (coBids c, coAsks c) es)) /\
  clAsks cl' = quantities (snd (last_window (coBids c, coAsks c) es)).
Proof.
  intros Hs Hi. cbv zeta. destruct (book_events_settled es c cl Hs Hi) as [Hs' He].
  rewrite fold_left_app. cbn [fold_left book_event_step].
  destruct (fold_left book_event_step es (c, cl)) as [c1 cl1]. cbn [fst snd] in *.
  destruct (flush_settled c1 cl1 Hs') as (_ & [S1 S2] & E1 & E2 & _). rewrite <- He. cbn [fst snd].
  by rewrite S1, S2, E1, E2.
Qed.

(** A snapshot of exactly the coalescer's window settles the client. *)
Lemma SnapshotSent_settled c epoch u bids asks :
  window_ok c -> in_u64 u -> coBids c = levelMap bids -> coAsks c = levelMap asks ->
  settled (SnapshotSent c epoch u) (client_install epoch u bids asks).
Proof.
  intros [Hkb Hka _] Hu Eb Ea. unfold SnapshotSent. rewrite !replaceLevels_eq, Eb, Ea in *.
  split; try done; cbn; lia.
Qed.

(** An injected gap is seen as one.  When the client is behind, after
    [InjectGap] the next delta the coalescer produces starts beyond what the
    client can apply: the client reports a gap and leaves its book alone. *)
Theorem inject_gap_detected c cl u bids asks c' d :
  window_ok c -> synced c cl -> coClientApplied c < coUpdateID c -> coUpdateID c < u -> in_u64 u ->
  TakeBookDelta (OnBookWindow (fst (InjectGap c)) (coEpoch c) u bids asks) = (c', Some d) ->
  client_apply cl d = Gap /\ snd (InjectGap c) = coUpdateID c - clApplied cl.
Proof.
  intros [_ _ [Hu1 Hu2]] [Se Sa _ _] Hlt Hlt' Hu Ht.
  rewrite (OnBookWindow_newer (fst (InjectGap c)) u) in Ht by done.
  match type of Ht with TakeBookDelta ?x = _ =>
    destruct (TakeBookDelta_cases x) as [[Hn _]|(_ & _ & Hc)] end; [by rewrite Ht in Hn|].
  rewrite Ht in Hc. injection Hc as [= _ ->]. unfold client_apply.
  cbn [InjectGap fst snd set_book coEpoch bdEpoch bdLast bdFirst coClientApplied coUpdateID].
  rewrite Se, Sa, Z.eqb_refl. cbn [negb]. rewrite (proj2 (Z.leb_gt u _)) by lia.
  rewrite !u64_small by (unfold in_u64 in *; lia). by rewrite (proj2 (Z.ltb_lt _ _)) by lia.
Qed.

(** ** The trade batch and the pending candles *)

Definition offer (c : Coalescer) (tn : Trade * Z) : Coalescer := OnTrade c (fst tn) (snd tn).

Lemma fold_offer_cons offers c t n :
  fold_left offer ((t, n) :: offers) c = fold_left offer offers (OnTrade c t n).
Proof. done. Qed.

Lemma offer_trades offers c :
  len (coTrades c) + len offers <= MaxInt64 -> 0 <= coOmitted c ->
  coOmitted c + len offers <= MaxInt64 ->
  let c' := fold_left offer offers c in
  exists k, coTrades c' = lastn k (coTrades c ++ map fst offers) /\
    (k <= length (coTrades c ++ map fst offers))%nat /\
    coOmitted c' = coOmitted c + (len (coTrades c) + len offers - Z.of_nat k).
Proof.
  revert c. induction offers as [|[t n] offers IH]; intros c Hl Ho Hm; rewrite ?fold_offer_cons; cbn [fold_left].
  { exists (length (coTrades c)). cbn [map]. rewrite app_nil_r, lastn_all by lia.
    unfold len. cbn [length]. split_and!; [done|lia|lia]. }
  unfold len in *. cbn [length map fst snd] in *. unfold OnTrade.
  destruct ((0 <? n) && _) eqn:Eb; [bool_to_prop|].
  - destruct (coTrades c) as [|t0 ts] eqn:Et; [unfold len in *; cbn [length] in *; lia|].
    destruct (IH (set_trades c (tail (t0 :: ts) ++ [t]) (i64 (coOmitted c + 1)) (i64 (coCoalesced c + 1))))
      as (k & E1 & E2 & E3);
      cbn [set_trades coTrades coOmitted tail length] in *; rewrite ?length_app in *; cbn [length] in *;
      rewrite ?(i64_small (coOmitted c + 1)) in * by (unfold in_i64; lia); try lia.
    cbv zeta. exists k. rewrite length_map in *. split_and!; [|rewrite ?length_map; lia|].
    + rewrite E1, <- app_assoc. cbn [app]. unfold lastn. cbn [length].
      rewrite !length_app. cbn [length].
      rewrite length_map in *.
      replace (S (length ts + S (length offers)) - k)%nat with (S (length ts + S (length offers) - k)) by lia.
      done.
    + rewrite E3. lia.
  - destruct (IH (set_trades c (coTrades c ++ [t]) (coOmitted c) (coCoalesced c))) as (k & E1 & E2 & E3);
      cbn [set_trades coTrades coOmitted] in *; rewrite ?length_app in *; cbn [length] in *; try lia.
    cbv zeta. exists k. rewrite E1, E3, <- app_assoc. cbn [app]. split_and!; [done| |lia].
    lia.
Qed.

Lemma offer_bound offers c (n : Z) :
  0 < n -> Forall (fun tn : Trade * Z => 0 < snd tn <= n) offers -> len (coTrades c) <= n ->
  len (coTrades (fold_left offer offers c)) <= n.
Proof.
  intros Hn Hf. revert c. induction Hf as [|[t k] offers Hk _ IH]; intros c Hc; [done|].
  rewrite fold_offer_cons. apply IH. cbn [fst snd] in *. unfold OnTrade, len in *.
  destruct ((0 <? k) && _) eqn:Eb; bool_to_prop; cbn [set_trades coTrades]; rewrite length_app; cbn [length].
  - destruct (coTrades c); cbn [tail length] in *; lia.
  - apply andb_false_iff in Eb as [?|?]; bool_to_prop; lia.
Qed.

(** A batch of trades loses nothing silently.  Whatever the batch limits
    in force while trades arrive, the batch handed to the client is the newest
    of the trades received since the last one, in order, and together with the
    reported number of omitted trades it accounts for all of them; without a
    limit every trade is kept, and with limits of at most [n] so is the batch. *)
Theorem trade_batch_accounts c offers n :
  coTrades c = [] -> coOmitted c = 0 -> len offers <= MaxInt64 ->
  let '(_, (ts, omitted, ok)) := TakeTrades (fold_left offer offers c) in
  ts = lastn (length ts) (map fst offers) /\ len ts + omitted = len offers /\
  ok = bool_decide (offers <> []) /\
  (Forall (fun tn : Trade * Z => snd tn <= 0) offers -> ts = map fst offers) /\
  (0 < n -> Forall (fun tn : Trade * Z => 0 < snd tn <= n) offers -> len ts <= n).
Proof.
  intros Ht Ho Hl. set (c' := fold_left offer offers c).
  destruct (offer_trades offers c) as (k & E1 & E2 & E3);
    rewrite ?Ht, ?Ho; unfold len; cbn [length app]; unfold len in Hl; try lia.
  change (fold_left offer offers c) with c' in E1, E3. rewrite Ht in E1, E2, E3. rewrite Ho in E3.
  cbn [app] in E1, E2. unfold len in E3. cbn [length] in E3.
  assert (Hunlim : Forall (fun tn : Trade * Z => snd tn <= 0) offers -> coTrades c' = map fst offers).
  { intros Hf. subst c'. clear -Hf Ht. transitivity (coTrades c ++ map fst offers); [|by rewrite Ht].
    clear Ht. revert c. induction Hf as [|[t k] offers Hk _ IH]; intros c; cbn [map fst];
      [by rewrite app_nil_r|]. rewrite fold_offer_cons, IH. cbn [snd] in Hk. unfold OnTrade.
    rewrite (proj2 (Z.ltb_ge _ _)) by done. cbn [andb set_trades coTrades]. by rewrite <- app_assoc. }
  assert (Hbound : 0 < n -> Forall (fun tn : Trade * Z => 0 < snd tn <= n) offers -> len (coTrades c') <= n).
  { intros Hn Hf. apply offer_bound; [done|done|]. rewrite Ht. unfold len. cbn [length]. lia. }
  assert (Hne : offers <> [] -> coTrades c' <> []).
  { subst c'. clear. intros Hne. destruct (exists_last Hne) as (o' & [t k] & ->).
    rewrite fold_left_app, fold_offer_cons. cbn [fold_left]. unfold OnTrade.
    destruct (_ && _); cbn [set_trades coTrades]; by intros [_ ?]%app_eq_nil. }
  assert (Hk : length (coTrades c') = k) by (rewrite E1, length_lastn; lia).
  unfold TakeTrades. destruct (coTrades c') as [|t0 ts] eqn:Ec.
  - destruct offers; [|by destruct Hne]. cbn [length map] in *. unfold len. split_and!; try done.
  - split_and!; try done.
    + by rewrite Hk.
    + unfold len. lia.
    + symmetry. apply bool_decide_eq_true. intros ->. subst c'. cbn in Ec. congruence.
Qed.

(** The candle a client is sent is the newest one.  When the candles of an
    interval arrive in the order of their source sequence, the one taken is
    the last that arrived since the previous take, and it is taken once. *)
Theorem newest_candle_taken c (ks : list Candle) iv k :
  coCandles c = ∅ -> last ks = Some k -> cdInterval k = iv ->
  StronglySorted (fun a b => cdSourceSequence a < cdSourceSequence b) ks ->
  let '(c1, got) := TakeCandle (fold_left OnCandle ks c) iv in
  got = Some k /\ snd (TakeCandle c1 iv) = None /\
  forall iv', iv' <> iv -> coCandles c1 !! iv' = coCandles (fold_left OnCandle ks c) !! iv'.
Proof.
  intros Hc Hk <- Hs. destruct (last_Some ks k) as [H1 _]. destruct (H1 Hk) as [ks' ->]. clear H1.
  assert (Hin : forall iv p, coCandles (fold_left OnCandle ks' c) !! iv = Some p -> p ∈ ks').
  { clear -Hc. intros iv p Hl. assert (Hg : forall c, (forall iv p, coCandles c !! iv = Some p -> p ∈ ks') ->
      forall l, l ⊆ ks' -> forall iv p, coCandles (fold_left OnCandle l c) !! iv = Some p -> p ∈ ks').
    { clear. intros c Hc l. revert c Hc. induction l as [|q l IH]; intros c Hc Hsub; [exact Hc|].
      cbn [fold_left]. apply IH; [|intros x ?; apply Hsub; by right].
      intros iv p. unfold OnCandle. destruct (coCandles c !! cdInterval q) as [pr|] eqn:E;
        [destruct (superseded pr q); [apply Hc|]|]; cbn [set_candles coCandles];
        (destruct (decide (cdInterval q = iv)) as [<-|?]; [rewrite lookup_insert_eq; intros [= <-]; apply Hsub; by left
          |rewrite lookup_insert_ne by done; apply Hc]). }
    eapply (Hg c); [|reflexivity|exact Hl]. rewrite Hc. intros ? ?. by rewrite lookup_empty. }
  rewrite fold_left_app. cbn [fold_left]. set (c1 := fold_left OnCandle ks' c) in *.
  assert (Hset : OnCandle c1 k = set_candles c1 (<[cdInterval k := k]> (coCandles c1))).
  { unfold OnCandle. destruct (coCandles c1 !! cdInterval k) as [p|] eqn:Ep; [|done].
    apply Hin in Ep. apply StronglySorted_app in Hs as (Hlt & _ & _).
    specialize (Hlt p k Ep ltac:(by left)). unfold superseded. by rewrite (proj2 (Z.leb_gt _ _)) by lia. }
  rewrite Hset. unfold TakeCandle. cbn [set_candles coCandles]. rewrite lookup_insert_eq.
  cbn [set_candles coCandles]. rewrite lookup_delete_eq. split_and!; try done.
  intros iv' Hne. by rewrite lookup_delete_ne by done.
Qed.

(** ** Concrete runs *)

Definition lv (p q : Z) : Level := mkLevel p q.

Lemma positive_lv : positive_levels [lv 100 5; lv 99 7] /\ positive_levels [lv 101 4; lv 103 6].
Proof. split; repeat constructor. Qed.

Definition c_window : Coalescer :=
  OnBookWindow (NewCoalescer BTCUSDT) 0 1 [lv 100 5; lv 99 7] [lv 101 4; lv 103 6].

Lemma deltas_always_apply_witness :
  exists cl', deliver (mkClient 0 0 ∅ ∅) (snd (TakeBookDelta c_window)) = cl' /\
    clApplied cl' = 1.
Proof.
  assert (Hr : rtc delivery_step (fresh_session BTCUSDT) (c_window, mkClient 0 0 ∅ ∅)).
  { apply rtc_once, step_window; [apply positive_lv|apply positive_lv|unfold in_u64; lia]. }
  destruct (TakeBookDelta c_window) as [c' od] eqn:E. destruct od as [d|]; [|by vm_compute in E].
  destruct (deltas_always_apply BTCUSDT c_window _ c' d Hr E) as (cl' & H1 & _ & _ & H4 & _).
  exists cl'. cbn [snd deliver]. rewrite H1. split; [reflexivity|exact H4].
Defined.

(** The client that received a snapshot of the first window. *)
Definition c_settled : Coalescer := SnapshotSent c_window 0 1.
Definition cl_settled : ClientBook := client_install 0 1 [lv 100 5; lv 99 7] [lv 101 4; lv 103 6].

Lemma c_settled_ok : settled c_settled cl_settled.
Proof.
  apply SnapshotSent_settled.
  - apply (OnBookWindow_inv (NewCoalescer BTCUSDT) (mkClient 0 0 ∅ ∅)); try apply positive_lv;
      [unfold in_u64; lia|apply fresh_session_inv].
  - unfold in_u64; lia.
  - vm_compute. reflexivity.
  - vm_compute. reflexivity.
Qed.

Definition published : list book_event :=
  [Published 2 [lv 100 4; lv 99 7] [lv 101 4; lv 103 6]; Flushed;
   Published 3 [lv 99 7; lv 98 2] [lv 101 4]; Published 5 [lv 99 1; lv 98 2] [lv 100 9; lv 101 4]].

Lemma coalescing_transparent_witness :
  clBids (snd (fold_left book_event_step (published ++ [Flushed]) (c_settled, cl_settled))) =
  quantities (levelMap [lv 99 1; lv 98 2]).
Proof.
  apply (coalescing_transparent c_settled cl_settled published c_settled_ok).
  cbn [increasing published]. change (coUpdateID c_settled) with 1.
  unfold in_u64, positive_levels. split_and!; try lia; try repeat constructor; done.
Defined.

Lemma inject_gap_detected_witness :
  let c := OnBookWindow c_settled 0 3 [lv 100 9] [lv 101 4] in
  exists d, snd (TakeBookDelta (OnBookWindow (fst (InjectGap c)) 0 4 [lv 100 8] [lv 101 4])) = Some d /\
    client_apply cl_settled d = Gap.
Proof.
  cbv zeta. pose proof (window_settled c_settled cl_settled 3 [lv 100 9] [lv 101 4] c_settled_ok
    ltac:(repeat constructor) ltac:(repeat constructor) ltac:(unfold in_u64; lia) ltac:(vm_compute; done))
    as (Hs & _).
  change (coEpoch c_settled) with 0 in Hs. cbv zeta in Hs.
  set (c := OnBookWindow c_settled 0 3 [lv 100 9] [lv 101 4]) in *.
  destruct (TakeBookDelta (OnBookWindow (fst (InjectGap c)) 0 4 [lv 100 8] [lv 101 4])) as [c' od] eqn:E.
  destruct od as [d|]; [|by vm_compute in E]. exists d. split; [done|].
  apply (inject_gap_detected c cl_settled 4 [lv 100 8] [lv 101 4] c' d (st_window _ _ Hs) (st_synced _ _ Hs));
    [by vm_compute|by vm_compute|unfold in_u64; lia|exact E].
Defined.

Definition tape_trade (id : Z) : Trade := mkTrade id "BTC-USDT" zeroTime 100 1 SideBuy.
Definition offered : list (Trade * Z) := map (fun i => (tape_trade i, 2)) [1; 2; 3; 4; 5].

Lemma trade_batch_accounts_witness :
  let '(_, (ts, omitted, ok)) := TakeTrades (fold_left offer offered (NewCoalescer BTCUSDT)) in
  ts = [tape_trade 4; tape_trade 5] /\ len ts + omitted = 5 /\ ok = true.
Proof.
  pose proof (trade_batch_accounts (NewCoalescer BTCUSDT) offered 2 eq_refl eq_refl ltac:(vm_compute; done))
    as Hw.
  destruct (TakeTrades (fold_left offer offered (NewCoalescer BTCUSDT))) as [c' [[ts om] ok]] eqn:E.
  destruct Hw as (_ & H2 & H3 & _). injection (f_equal snd E) as [= <- <- <-].
  split; [reflexivity|]. split; [exact H2|exact H3].
Defined.

Definition k_candle (seq close : Z) : Candle :=
  mkCandle "BTC-USDT" Interval1m zeroTime 100 110 90 close 5 seq seq.

Lemma newest_candle_taken_witness :
  snd (TakeCandle (fold_left OnCandle [k_candle 1 100; k_candle 2 105] (NewCoalescer BTCUSDT)) Interval1m)
  = Some (k_candle 2 105).
Proof.
  pose proof (newest_candle_taken (NewCoalescer BTCUSDT) [k_candle 1 100; k_candle 2 105] Interval1m
    (k_candle 2 105) eq_refl eq_refl eq_refl
    ltac:(repeat constructor)) as Hw.
  destruct (TakeCandle _ _) as [c1 got]. destruct Hw as [Hw _]. exact Hw.
Defined.

(** A resynchronised client can keep a level the engine no longer has: the
    snapshot shows 100, the coalescer was reset and believes the client holds
    nothing, the next window is without 100, and the delta does not delete it. *)
Example resync_leaves_stale_level :
  let c := SnapshotSent (Coalescer_Reset c_settled) 0 10 in
  let cl := client_install 0 10 [lv 100 5; lv 99 7] [lv 101 4] in
  let s := fold_left book_event_step [Published 11 [lv 99 7] [lv 100 3; lv 101 4]; Flushed] (c, cl) in
  clBids (snd s) !! 100 = Some 5 /\ clAsks (snd s) !! 100 = Some 3.
Proof. vm_compute. done. Qed.

(** A delta held and sent after its successor arrives as a gap, not as a stale
    range: the successor starts where the held one ends. *)
Example reversed_deltas_are_a_gap :
  let c1 := OnBookWindow c_settled 0 2 [lv 100 4; lv 99 7] [lv 101 4; lv 103 6] in
  let '(c2, d1) := TakeBookDelta c1 in
  let '(_, d2) := TakeBookDelta (OnBookWindow c2 0 3 [lv 100 3; lv 99 7] [lv 101 4; lv 103 6]) in
  option_map (client_apply cl_settled) d2 = Some Gap.
Proof. vm_compute. reflexivity. Qed.
