(* ===== verification/Json.v ===== *)
(** * JSON values and [encoding/json]: what the protocol package uses

    A frame is received as text and decoded twice by [json.Unmarshal].  The
    model starts from the syntax tree of the text: [None] is text that is not
    valid JSON.  Object members keep their order and duplicates, numbers keep
    what distinguishes their literals.  The functions below are the decoding
    of a value into a Go struct field of each type the protocol uses: [null]
    leaves a field alone, a value of another type is an error, the last member
    of a name wins, and names match without regard to case. *)

From Stdlib Require Import Ascii SpecFloat.
From S2P Require Import Prelude Money Decimal Float64.

(** The literal [-?mant * 10^exp10]; [jnInteger] when it has neither a
    fraction nor an exponent. *)
Record JsonNumber := mkNumber { jnNeg : bool; jnMant : Z; jnExp10 : Z; jnInteger : bool }.

Inductive Json :=
| JNull
| JBool (b : bool)
| JNum (n : JsonNumber)
| JStr (s : string)
| JArr (l : list Json)
| JObj (ms : list (string * Json)).

(** ** Numbers *)

Definition signed (neg : bool) (z : Z) : Z := if neg then - z else z.

(** The nearest [float64] to [mant * 10^exp10]; infinite when out of range. *)
Definition f64_of_decimal (neg : bool) (mant exp10 : Z) : float64 :=
  if mant =? 0 then S754_zero neg
  else if 0 <=? exp10 then binary_normalize 53 1024 (signed neg (mant * 10 ^ exp10)) 0 neg
  else
    let '(m, e, l) := SFdiv_core_binary 53 1024 mant 0 (10 ^ (- exp10)) 0 in
    binary_round_aux 53 1024 neg m e l.

Definition f64_finite (x : float64) : bool :=
  match x with S754_zero _ | S754_finite _ _ _ => true | _ => false end.

(** ** Field names *)

(** [json.foldName] on the bytes of a name: lower-case letters become upper
    case, and so do the two other code points that fold to ASCII letters (the
    long s and the Kelvin sign). *)
Fixpoint fold_name (s : text) : text :=
  match s with
  | [] => []
  | a :: s1 =>
      match N_of_ascii a, s1 with
      | 197%N, b :: s2 =>
          if (N_of_ascii b =? 191)%N then "S"%char :: fold_name s2 else a :: fold_name s1
      | 226%N, b :: c :: s3 =>
          if ((N_of_ascii b =? 132) && (N_of_ascii c =? 170))%N then "K"%char :: fold_name s3
          else a :: fold_name s1
      | n, _ =>
          (if (97 <=? n)%N && (n <=? 122)%N then ascii_of_N (n - 32) else a) :: fold_name s1
      end
  end.

Definition same_name (field key : string) : bool :=
  bool_decide (fold_name (txt field) = fold_name (txt key)).

(** ** Fields *)

(** The members that are assigned to a field, in order. *)
Definition assigned (field : string) (ms : list (string * Json)) : list Json :=
  map snd (List.filter (fun m => same_name field (fst m)) ms).

(** Assignments one after the other; [None] is an [UnmarshalTypeError]. *)
Definition assign {A} (f : A -> Json -> option A) (zero : A) (field : string)
    (ms : list (string * Json)) : option A :=
  foldl (fun acc j => a ← acc; f a j) (Some zero) (assigned field ms).

Definition string_value (old : string) (j : Json) : option string :=
  match j with JStr s => Some s | JNull => Some old | _ => None end.

(** [int] and [int64] are both 64 bits wide; only an integer literal in range
    is accepted. *)
Definition int_value (old : Z) (j : Json) : option Z :=
  match j with
  | JNum n =>
      let z := signed (jnNeg n) (jnMant n) in
      if jnInteger n && (MinInt64 <=? z) && (z <=? MaxInt64) then Some z else None
  | JNull => Some old
  | _ => None
  end.

(** A [uint64] field. *)
Definition uint_value (old : Z) (j : Json) : option Z :=
  match j with
  | JNum n => if jnInteger n && negb (jnNeg n) && (jnMant n <? two64) then Some (jnMant n) else None
  | JNull => Some old
  | _ => None
  end.

Definition float_value (old : float64) (j : Json) : option float64 :=
  match j with
  | JNum n =>
      let x := f64_of_decimal (jnNeg n) (jnMant n) (jnExp10 n) in
      if f64_finite x then Some x else None
  | JNull => Some old
  | _ => None
  end.

(** A slice while it is decoded: its length, [None] when it is nil, and the
    memory behind it.  An array is decoded over the memory of the last one, so
    an element that leaves its target alone shows what was there. *)
Record Slice (A : Type) := mkSlice { slLen : option nat; slMem : list A }.
Arguments mkSlice {A} _ _.
Arguments slLen {A} _.
Arguments slMem {A} _.
Definition nil_slice {A} : Slice A := mkSlice None [].
Definition elements {A} (s : Slice A) : option (list A) := (fun n => take n (slMem s)) <$> slLen s.

Fixpoint fill {A} (f : A -> Json -> option A) (zero : A) (mem : list A) (l : list Json) : option (list A) :=
  match l with
  | [] => Some mem
  | j :: l => a ← f (hd zero mem) j; rest ← fill f zero (tl mem) l; Some (a :: rest)
  end.
Definition slice_value {A} (f : A -> Json -> option A) (zero : A) (old : Slice A) (j : Json) : option (Slice A) :=
  match j with
  | JArr [] => Some (mkSlice (Some O) [])
  | JArr l => mem ← fill f zero (slMem old) l; Some (mkSlice (Some (length l)) mem)
  | JNull => Some nil_slice
  | _ => None
  end.
Definition slice_field {A} (f : A -> Json -> option A) (zero : A) (field : string) (ms : list (string * Json))
    : option (option (list A)) :=
  elements <$> assign (slice_value f zero) nil_slice field ms.
Definition strings_field : string -> list (string * Json) -> option (option (list string)) := slice_field string_value "".

(** A [[2]string]: elements past the second are skipped, missing ones are empty. *)
Definition pair_value (old : string * string) (j : Json) : option (string * string) :=
  match j with
  | JArr [] => Some (""%string, ""%string)
  | JArr [a] => a ← string_value (fst old) a; Some (a, ""%string)
  | JArr (a :: b :: _) => a ← string_value (fst old) a; b ← string_value (snd old) b; Some (a, b)
  | JNull => Some old
  | _ => None
  end.
Definition levels_field (field : string) (ms : list (string * Json)) : option (list (string * string)) :=
  default [] <$> slice_field pair_value (""%string, ""%string) field ms.

Lemma fill_all {A} (f : A -> Json -> option A) zero (g : A -> Json) l :
  (forall a, a ∈ l -> f zero (g a) = Some a) -> fill f zero [] (map g l) = Some l.
Proof.
  induction l as [|a l IH]; intros H; [done|]. cbn [map fill hd tl]. rewrite H by apply list_elem_of_here.
  cbn [mbind option_bind]. rewrite IH; [done|]. intros b Hb. apply H. by apply list_elem_of_further.
Qed.

(** A field that is given once, as an array, holds its elements. *)
Lemma slice_field_one {A} (f : A -> Json -> option A) zero field ms (g : A -> Json) l :
  assigned field ms = [JArr (map g l)] -> (forall a, a ∈ l -> f zero (g a) = Some a) ->
  slice_field f zero field ms = Some (Some l).
Proof.
  intros Ha H. unfold slice_field, assign. rewrite Ha. cbn [foldl mbind option_bind].
  destruct l as [|a l]; [done|]. pose proof (fill_all f zero g (a :: l) H) as Hf.
  cbn [map slice_value slMem nil_slice] in *. rewrite Hf. cbn. by rewrite length_map, firstn_all.
Qed.

(** A second array under the same name is decoded over the first one. *)
Example slice_reuse :
  strings_field "c" [("c", JArr [JStr "a"; JStr "b"]); ("c", JArr [JStr "x"]); ("c", JArr [JNull; JNull])]%string
  = Some (Some ["x"; "b"])%string.
Proof. reflexivity. Qed.

(** The members of a frame that decodes into a struct: an object, or [null],
    which leaves the struct alone. *)
Definition members (j : Json) : option (list (string * Json)) :=
  match j with JObj ms => Some ms | JNull => Some [] | _ => None end.

Lemma assigned_app field ms ms' : assigned field (ms ++ ms') = assigned field ms ++ assigned field ms'.
Proof. unfold assigned. by rewrite List.filter_app, map_app. Qed.

(** A member with another name is not assigned. *)
Lemma assigned_other field ms1 k v ms2 :
  same_name field k = false -> assigned field (ms1 ++ (k, v) :: ms2) = assigned field (ms1 ++ ms2).
Proof. intros Hk. rewrite !assigned_app. unfold assigned. cbn [List.filter fst map]. by rewrite Hk. Qed.

Lemma assign_other {A} f (zero : A) field ms1 k v ms2 :
  same_name field k = false ->
  assign f zero field (ms1 ++ (k, v) :: ms2) = assign f zero field (ms1 ++ ms2).
Proof. intros Hk. unfold assign. by rewrite assigned_other. Qed.
