(* ===== verification/Protocol.v ===== *)
(** * The wire protocol: [internal/protocol/{envelope,codes,client}.go]

    The client messages, their decoding and validation, and the error codes.
    Error texts ([fmt.Sprintf]) are not modelled: what the program inspects
    is the code and the fatal flag. *)

From Stdlib Require Import Ascii.
From S2P Require Import Prelude Money Decimal GoTime Domain Float64 Json.

Definition Version : Z := 1.

(** ** Message types *)

Inductive MessageType :=
| TypeWelcome | TypeSubscribed | TypeUnsubscribed | TypePong | TypePing | TypeMarketStatus
| TypeOrderBookSnapshot | TypeOrderBookDelta | TypeTrade | TypeTradeBatch | TypeCandleUpdate
| TypeCandleClosed | TypeMarketSummary | TypeHealth | TypeError | TypeGoodbye
| TypeHello | TypeSubscribe | TypeUnsubscribe | TypeSetInterval | TypeLatencyReport
| TypeTierOverride.
#[global] Instance MessageType_eq_dec : EqDecision MessageType.
Proof. solve_decision. Defined.

Definition MessageType_String (t : MessageType) : string :=
  match t with
  | TypeWelcome => "welcome" | TypeSubscribed => "subscribed" | TypeUnsubscribed => "unsubscribed"
  | TypePong => "pong" | TypePing => "ping" | TypeMarketStatus => "market_status"
  | TypeOrderBookSnapshot => "order_book_snapshot" | TypeOrderBookDelta => "order_book_delta"
  | TypeTrade => "trade" | TypeTradeBatch => "trade_batch" | TypeCandleUpdate => "candle_update"
  | TypeCandleClosed => "candle_closed" | TypeMarketSummary => "market_summary"
  | TypeHealth => "health" | TypeError => "error" | TypeGoodbye => "goodbye"
  | TypeHello => "hello" | TypeSubscribe => "subscribe" | TypeUnsubscribe => "unsubscribe"
  | TypeSetInterval => "set_interval" | TypeLatencyReport => "latency_report"
  | TypeTierOverride => "tier_override"
  end.

(** The types [DecodeClientMessage] switches on. *)
Definition client_types : list MessageType :=
  [TypeHello; TypeSubscribe; TypeUnsubscribe; TypeSetInterval; TypePing; TypeLatencyReport;
   TypeTierOverride].

Fixpoint find_type (ts : list MessageType) (s : string) : option MessageType :=
  match ts with
  | [] => None
  | t :: ts => if bool_decide (MessageType_String t = s) then Some t else find_type ts s
  end.

(** ** Error codes *)

Inductive ErrorCode :=
| CodeMalformedFrame | CodeUnknownMessageType | CodeValidationFailed | CodeUnsupportedSymbol
| CodeUnsupportedInterval | CodeUnsupportedChannel | CodeRateLimited | CodeTierOverrideRejected
| CodeDebugDisabled | CodeSubscriptionRequired | CodeSlowConsumer | CodeProtocolVersion
| CodeServerShutdown | CodeInternal.
#[global] Instance ErrorCode_eq_dec : EqDecision ErrorCode.
Proof. solve_decision. Defined.

Record ProtoError := mkProtoError { peCode : ErrorCode; peFatal : bool }.
Definition NewError (code : ErrorCode) : ProtoError := mkProtoError code false.
Definition NewFatalError (code : ErrorCode) : ProtoError := mkProtoError code true.

(** A decoding step fails with a protocol error. *)
Definition presult (A : Type) : Type := (A + ProtoError)%type.
#[global] Instance presult_ret : MRet presult := fun A a => inl a.
#[global] Instance presult_bind : MBind presult := fun A B f m =>
  match m with inl a => f a | inr e => inr e end.

(** ** Channels *)

Definition ChannelOrderBook : string := "order_book".
Definition ChannelTrades : string := "trades".
Definition ChannelCandles : string := "candles".
Definition ChannelSummary : string := "summary".
Definition ChannelHealth : string := "health".

Definition Channels : list string :=
  [ChannelOrderBook; ChannelTrades; ChannelCandles; ChannelSummary; ChannelHealth].
Definition ValidChannel (name : string) : bool := existsb (fun c => bool_decide (c = name)) Channels.
Definition DefaultChannels : list string :=
  [ChannelOrderBook; ChannelTrades; ChannelCandles; ChannelSummary; ChannelHealth].

(** ** Client messages *)

(** The channel list of a subscription is nil when the member is absent. *)
Inductive ClientMessage :=
| Hello (clientVersion platform deviceId : string)
| Subscribe (symbol interval : string) (channels : option (list string))
| Unsubscribe (channels : list string)
| SetInterval (interval : string)
| Ping (id clientTimeMs : Z)
| LatencyReport (rttMs jitterMs : float64) (samples clientTimeMs : Z) (window : string)
    (missedPongs capped : Z)
| TierOverride (tier : string).

Definition Type_of (m : ClientMessage) : MessageType :=
  match m with
  | Hello _ _ _ => TypeHello | Subscribe _ _ _ => TypeSubscribe | Unsubscribe _ => TypeUnsubscribe
  | SetInterval _ => TypeSetInterval | Ping _ _ => TypePing
  | LatencyReport _ _ _ _ _ _ _ => TypeLatencyReport | TierOverride _ => TypeTierOverride
  end.

(** [if c { return err }] *)
Definition refuse (c : bool) (code : ErrorCode) : presult unit :=
  if c then inr (NewError code) else inl tt.

Definition known_interval (iv : string) : bool :=
  match ParseInterval iv with Ok _ => true | Err _ => false end.

Definition Subscribe_validate (symbol interval : string) (channels : list string) : presult unit :=
  refuse (bool_decide (symbol = ""%string)) CodeValidationFailed ≫= fun _ =>
  refuse (bool_decide (interval = ""%string)) CodeValidationFailed ≫= fun _ =>
  refuse (negb (known_interval interval)) CodeUnsupportedInterval ≫= fun _ =>
  refuse (negb (forallb ValidChannel channels)) CodeUnsupportedChannel.

Definition f64_gtb (x y : float64) : bool := f64_ltb y x.

Definition LatencyReport_validate (rttMs jitterMs : float64) (samples : Z) : presult unit :=
  refuse (f64_ltb rttMs (f64_of_Z 0)) CodeValidationFailed ≫= fun _ =>
  refuse (f64_ltb jitterMs (f64_of_Z 0)) CodeValidationFailed ≫= fun _ =>
  refuse (f64_gtb rttMs (f64_of_Z 60000)) CodeValidationFailed ≫= fun _ =>
  refuse (f64_gtb jitterMs (f64_of_Z 60000)) CodeValidationFailed ≫= fun _ =>
  refuse ((samples <? 0) || (1000 <? samples)) CodeValidationFailed.

(** [strings.EqualFold(v, AUTO)]: none of the four letters folds outside ASCII. *)
Definition lower_to_upper (a : ascii) : ascii :=
  let n := N_of_ascii a in if (97 <=? n)%N && (n <=? 122)%N then ascii_of_N (n - 32) else a.
Definition is_auto (v : text) : bool := bool_decide (map lower_to_upper v = txt "AUTO").

(** The check made while decoding; [None] is the empty tier of AUTO. *)
Definition parseTierOrAuto (v : string) : presult (option DeliveryTier) :=
  if is_auto (txt v) then inl None
  else match ParseTier v with Ok t => inl (Some t) | Err _ => inr (NewError CodeTierOverrideRejected) end.

(** The one the delivery layer uses trims spaces around AUTO. *)
Definition ParseTierOrAuto (v : string) : presult (option DeliveryTier) :=
  if is_auto (TrimSpace (txt v)) then inl None
  else match ParseTier v with Ok t => inl (Some t) | Err _ => inr (NewError CodeTierOverrideRejected) end.

(** ** Decoding *)

Record header := mkHeader { hType : string; hVersion : Z; hRequestID : string }.

Definition decode_header (ms : list (string * Json)) : option header :=
  t ← assign string_value "" "type" ms;
  v ← assign int_value 0 "version" ms;
  r ← assign string_value "" "requestId" ms;
  Some (mkHeader t v r).

(** The [unmarshal] closure: a type mismatch is a validation failure. *)
Definition unmarshal {A} (o : option A) : presult A :=
  match o with Some a => inl a | None => inr (NewError CodeValidationFailed) end.

Definition decode_hello (ms : list (string * Json)) : option ClientMessage :=
  v ← assign string_value "" "clientVersion" ms;
  p ← assign string_value "" "platform" ms;
  d ← assign string_value "" "deviceId" ms;
  Some (Hello v p d).

Definition decode_subscribe (ms : list (string * Json)) : presult ClientMessage :=
  '(s, iv, cs) ← unmarshal (
    s ← assign string_value "" "symbol" ms;
    iv ← assign string_value "" "interval" ms;
    cs ← strings_field "channels" ms;
    Some (s, iv, cs));
  Subscribe_validate s iv (default [] cs) ≫= fun _ => inl (Subscribe s iv cs).

Definition decode_unsubscribe (ms : list (string * Json)) : presult ClientMessage :=
  cs ← unmarshal (strings_field "channels" ms);
  let cs := default [] cs in
  refuse (bool_decide (cs = [])) CodeValidationFailed ≫= fun _ =>
  refuse (negb (forallb ValidChannel cs)) CodeUnsupportedChannel ≫= fun _ => inl (Unsubscribe cs).

Definition decode_set_interval (ms : list (string * Json)) : presult ClientMessage :=
  iv ← unmarshal (assign string_value "" "interval" ms);
  refuse (negb (known_interval iv)) CodeUnsupportedInterval ≫= fun _ => inl (SetInterval iv).

Definition decode_ping (ms : list (string * Json)) : option ClientMessage :=
  i ← assign int_value 0 "id" ms;
  t ← assign int_value 0 "clientTimeMs" ms;
  Some (Ping i t).

Definition decode_latency_report (ms : list (string * Json)) : presult ClientMessage :=
  '(r, j, n, (t, w, p, c)) ← unmarshal (
    r ← assign float_value (f64_of_Z 0) "rttMs" ms;
    j ← assign float_value (f64_of_Z 0) "jitterMs" ms;
    n ← assign int_value 0 "samples" ms;
    t ← assign int_value 0 "clientTimeMs" ms;
    w ← assign string_value "" "window" ms;
    p ← assign int_value 0 "missedPongs" ms;
    c ← assign int_value 0 "cappedSamples" ms;
    Some (r, j, n, (t, w, p, c)));
  LatencyReport_validate r j n ≫= fun _ => inl (LatencyReport r j n t w p c).

Definition decode_tier_override (ms : list (string * Json)) : presult ClientMessage :=
  t ← unmarshal (assign string_value "" "tier" ms);
  parseTierOrAuto t ≫= fun _ => inl (TierOverride t).

(** The switch on the message type. *)
Definition decode_payload (type : string) (ms : list (string * Json)) : presult ClientMessage :=
  match find_type client_types type with
  | Some TypeHello => unmarshal (decode_hello ms)
  | Some TypeSubscribe => decode_subscribe ms
  | Some TypeUnsubscribe => decode_unsubscribe ms
  | Some TypeSetInterval => decode_set_interval ms
  | Some TypePing => unmarshal (decode_ping ms)
  | Some TypeLatencyReport => decode_latency_report ms
  | Some TypeTierOverride => decode_tier_override ms
  | _ => inr (NewError CodeUnknownMessageType)
  end.

Definition DecodeClientMessage (data : option Json) : presult ClientMessage :=
  match data ≫= members with
  | None => inr (NewError CodeMalformedFrame)
  | Some ms =>
      match decode_header ms with
      | None => inr (NewError CodeMalformedFrame)
      | Some hdr =>
          if bool_decide (TrimSpace (txt (hType hdr)) = []) then inr (NewError CodeValidationFailed)
          else if Version <? hVersion hdr then inr (NewFatalError CodeProtocolVersion)
          else decode_payload (hType hdr) ms
      end
  end.

(** ** Envelopes *)

(** [DecodeEnvelope] checks a server frame; the payload stays raw. *)
Record Envelope := mkEnvelope {
  enType : string; enVersion : Z; enServerTime : string; enSeq : Z; enPayload : option Json }.

Definition decode_envelope (ms : list (string * Json)) : option Envelope :=
  t ← assign string_value "" "type" ms;
  v ← assign int_value 0 "version" ms;
  st ← assign string_value "" "serverTime" ms;
  s ← assign uint_value 0 "seq" ms;
  Some (mkEnvelope t v st s (last (assigned "payload" ms))).

Definition DecodeEnvelope (data : option Json) : presult Envelope :=
  match (ms ← data ≫= members; decode_envelope ms) with
  | None => inr (NewError CodeMalformedFrame)
  | Some env =>
      if bool_decide (enType env = ""%string) then inr (NewError CodeValidationFailed)
      else if enVersion env =? 0 then inr (NewError CodeValidationFailed)
      else if Version <? enVersion env then inr (NewFatalError CodeProtocolVersion)
      else inl env
  end.
