(* ===== verification/ProtocolSpec.v ===== *)
(** * Decoding is sound, complete for well-formed frames, and forward compatible *)

From Stdlib Require Import Ascii.
From S2P Require Import Prelude Money Decimal GoTime Domain Float64 Json Protocol.

(** ** What the rest of the program may assume of a decoded message *)

Definition plausible (x : float64) : Prop :=
  f64_finite x = true /\ f64_ltb x (f64_of_Z 0) = false /\ f64_ltb (f64_of_Z 60000) x = false.

Definition valid_message (m : ClientMessage) : Prop :=
  match m with
  | Hello _ _ _ => True
  | Subscribe s iv cs =>
      s <> ""%string /\ known_interval iv = true /\ Forall (fun c => c ∈ Channels) (default [] cs)
  | Unsubscribe cs => cs <> [] /\ Forall (fun c => c ∈ Channels) cs
  | SetInterval iv => known_interval iv = true
  | Ping i t => in_i64 i /\ in_i64 t
  | LatencyReport r j n t w p c =>
      plausible r /\ plausible j /\ 0 <= n <= 1000 /\ in_i64 t /\ in_i64 p /\ in_i64 c
  | TierOverride t => exists o, ParseTierOrAuto t = inl o
  end.

Lemma presult_bind_ok {A B} (m : presult A) (f : A -> presult B) b :
  m ≫= f = inl b -> exists a, m = inl a /\ f a = inl b.
Proof. destruct m as [a|e]; [|done]. intros Hf. by exists a. Qed.

Lemma refuse_ok c code u : refuse c code = inl u -> c = false.
Proof. by destruct c. Qed.

Lemma unmarshal_ok {A} (o : option A) a : unmarshal o = inl a -> o = Some a.
Proof. by destruct o as [a'|]; [intros [= ->]|]. Qed.

Lemma bind_some {A B} (o : option A) (f : A -> option B) b :
  o ≫= f = Some b -> exists a, o = Some a /\ f a = Some b.
Proof. destruct o as [a|]; [|done]. intros Hf. by exists a. Qed.

(** [steps H] opens a successful chain of decoding steps. *)
Ltac steps H :=
  repeat match type of H with
  | refuse _ _ = inl _ => apply refuse_ok in H
  | unmarshal _ = inl _ => apply unmarshal_ok in H
  | @mbind presult _ _ _ _ _ = inl _ =>
      let x := fresh "x" in let E := fresh "E" in
      apply presult_bind_ok in H as (x & E & H); steps E
  | @mbind option _ _ _ _ _ = Some _ =>
      let x := fresh "x" in let E := fresh "E" in
      apply bind_some in H as (x & E & H)
  | context [match ?p with pair _ _ => _ end] => destruct p
  end.

Lemma assign_inv {A} (Q : A -> Prop) f (zero : A) field ms a :
  Q zero -> (forall a j a', Q a -> f a j = Some a' -> Q a') -> assign f zero field ms = Some a -> Q a.
Proof.
  intros H0 Hf. unfold assign. generalize (assigned field ms). intros l.
  assert (Hnone : forall l, foldl (fun acc j => a ← acc; f a j) (@None A) l = None)
    by (clear; induction l; [done|exact IHl]).
  revert zero H0. induction l as [|j l IH]; intros zero H0; simpl; [by intros [= <-]|].
  destruct (f zero j) as [a'|] eqn:E; simpl; [|by rewrite Hnone].
  apply IH. by eapply Hf.
Qed.

Lemma int_assigned field ms z : assign int_value 0 field ms = Some z -> in_i64 z.
Proof.
  apply (assign_inv in_i64); [unfold in_i64; lia|]. intros a j a' Ha.
  destruct j; simpl; try done; [by intros [= <-]|].
  destruct (jnInteger _ && _ && _) eqn:E; [|done]. bool_to_prop. intros [= <-]. unfold in_i64. lia.
Qed.

Lemma float_assigned field ms x :
  assign float_value (f64_of_Z 0) field ms = Some x -> f64_finite x = true.
Proof.
  apply (assign_inv (fun x => f64_finite x = true)); [done|]. intros a j a' Ha.
  destruct j; simpl; try done; [by intros [= <-]|].
  destruct (f64_finite (f64_of_decimal _ _ _)) eqn:E; [|done]. by intros [= <-].
Qed.

Lemma ValidChannel_spec c : ValidChannel c = true <-> c ∈ Channels.
Proof.
  unfold ValidChannel. rewrite existsb_exists. setoid_rewrite bool_decide_eq_true.
  rewrite list_elem_of_In. split; [by intros (x & ? & <-)|eauto].
Qed.

Lemma valid_channels cs : forallb ValidChannel cs = true <-> Forall (fun c => c ∈ Channels) cs.
Proof.
  rewrite forallb_forall, Forall_forall. setoid_rewrite list_elem_of_In.
  split; intros Hc x Hx; [by apply list_elem_of_In, ValidChannel_spec, Hc|apply ValidChannel_spec, list_elem_of_In; auto].
Qed.

(** What decoding accepts, [ParseTierOrAuto] accepts: a text that is AUTO has
    no spaces to trim, and the tiers are compared whole. *)
Lemma upper_inv a u :
  lower_to_upper a = u -> a = u \/ a = ascii_of_N (N_of_ascii u + 32).
Proof. intros <-. destruct a as [[] [] [] [] [] [] [] []]; vm_compute; auto. Qed.

Lemma is_auto_trim v : is_auto v = true -> is_auto (TrimSpace v) = true.
Proof.
  unfold is_auto. rewrite !bool_decide_eq_true. intros Hv.
  destruct v as [|a [|u [|t [|o [|? ?]]]]]; try done.
  injection Hv as [= Ha Hu Ht Ho].
  apply upper_inv in Ha as [->| ->], Hu as [->| ->], Ht as [->| ->], Ho as [->| ->]; vm_compute; reflexivity.
Qed.

Lemma ParseTierOrAuto_accepts v o : parseTierOrAuto v = inl o -> ParseTierOrAuto v = inl o \/ ParseTierOrAuto v = inl None.
Proof.
  unfold parseTierOrAuto, ParseTierOrAuto. destruct (is_auto (txt v)) eqn:E.
  - rewrite (is_auto_trim _ E). auto.
  - intros ->. destruct (is_auto (TrimSpace (txt v))); auto.
Qed.

Lemma LatencyReport_validate_ok r j n u :
  LatencyReport_validate r j n = inl u -> f64_finite r = true -> f64_finite j = true ->
  plausible r /\ plausible j /\ 0 <= n <= 1000.
Proof.
  unfold LatencyReport_validate, f64_gtb, plausible. intros H Hr Hj. steps H. bool_to_prop.
  split_and!; done || lia.
Qed.

Lemma decode_payload_valid type ms m :
  decode_payload type ms = inl m -> valid_message m /\ MessageType_String (Type_of m) = type.
Proof.
  unfold decode_payload, client_types, find_type.
  repeat (case_bool_decide as Et; [|clear Et]); [subst type..|done]; intros H.
  - unfold decode_hello in H. steps H. by injection H as [= <-].
  - unfold decode_subscribe, Subscribe_validate in H. steps H. injection E as [= -> -> ->].
    injection H as [= <-]. bool_to_prop. rewrite bool_decide_eq_false in *. rewrite valid_channels in *.
    by split.
  - unfold decode_unsubscribe in H. steps H. injection H as [= <-]. bool_to_prop.
    rewrite bool_decide_eq_false in *. rewrite valid_channels in *. by split.
  - unfold decode_set_interval in H. steps H. injection H as [= <-]. bool_to_prop. by split.
  - unfold decode_ping in H. steps H. injection H as [= <-]. split; [|done].
    split; eapply int_assigned; eassumption.
  - unfold decode_latency_report in H. steps H. injection E as [= -> -> -> -> -> -> ->].
    injection H as [= <-]. split; [|done].
    edestruct LatencyReport_validate_ok as (? & ? & ?);
      [eassumption|eapply float_assigned; eassumption..|].
    split_and!; try done; try lia; eapply int_assigned; eassumption.
  - unfold decode_tier_override in H. steps H. injection H as [= <-]. split; [|done].
    edestruct ParseTierOrAuto_accepts as [Hp|Hp]; [eassumption|by eexists..].
Qed.

(** No decoding step closes the connection. *)
Definition nonfatal {A} (m : presult A) : Prop :=
  match m with inl _ => True | inr e => peFatal e = false /\ peCode e <> CodeProtocolVersion end.

Lemma nonfatal_bind {A B} (m : presult A) (f : A -> presult B) :
  nonfatal m -> (forall a, nonfatal (f a)) -> nonfatal (m ≫= f).
Proof. destruct m; [intros _ Hf; apply Hf|done]. Qed.
Lemma nonfatal_refuse c code : code <> CodeProtocolVersion -> nonfatal (refuse c code).
Proof. by destruct c. Qed.
Lemma nonfatal_unmarshal {A} (o : option A) : nonfatal (unmarshal o).
Proof. by destruct o. Qed.
Lemma nonfatal_tier v : nonfatal (parseTierOrAuto v).
Proof. unfold parseTierOrAuto. destruct (is_auto _); [done|]. by destruct (ParseTier v). Qed.
Create HintDb nonfatal.
#[local] Hint Resolve nonfatal_bind nonfatal_refuse nonfatal_unmarshal nonfatal_tier : nonfatal.

Ltac nonfatal_tac :=
  repeat (apply nonfatal_bind; [eauto with nonfatal|intros]);
  repeat match goal with
  | |- nonfatal (match ?p with pair _ _ => _ end) => destruct p
  | |- nonfatal (_ ≫= _) => apply nonfatal_bind; [|intros]
  end; try (by apply nonfatal_refuse); try done.

Lemma decode_payload_nonfatal type ms : nonfatal (decode_payload type ms).
Proof.
  unfold decode_payload. destruct (find_type _ _) as [[]|]; try (by split); try apply nonfatal_unmarshal.
  - unfold decode_subscribe, Subscribe_validate. nonfatal_tac.
  - unfold decode_unsubscribe. nonfatal_tac.
  - unfold decode_set_interval. nonfatal_tac.
  - unfold decode_latency_report, LatencyReport_validate. nonfatal_tac.
  - unfold decode_tier_override. nonfatal_tac.
Qed.

Lemma decode_sound_core data :
  match DecodeClientMessage data with
  | inl m =>
      valid_message m /\
      exists ms hdr, data ≫= members = Some ms /\ decode_header ms = Some hdr /\
        hVersion hdr <= Version /\ hType hdr = MessageType_String (Type_of m)
  | inr e =>
      (peFatal e = true <-> peCode e = CodeProtocolVersion) /\
      (peFatal e = true -> exists ms hdr, data ≫= members = Some ms /\ decode_header ms = Some hdr /\
         Version < hVersion hdr) /\
      (data ≫= members = None -> peCode e = CodeMalformedFrame)
  end.
Proof.
  unfold DecodeClientMessage. destruct (data ≫= members) as [ms|] eqn:Ems; [|done].
  destruct (decode_header ms) as [hdr|] eqn:Eh; [|done].
  case_bool_decide; [done|]. destruct (Version <? hVersion hdr) eqn:Ev; bool_to_prop.
  { split; [done|]. split; [|done]. intros _. eauto 10. }
  destruct (decode_payload (hType hdr) ms) as [m|e] eqn:Ed.
  - destruct (decode_payload_valid _ _ _ Ed) as [Hv Ht]. split; [done|]. by exists ms, hdr.
  - assert (Hnf : peFatal e = false /\ peCode e <> CodeProtocolVersion).
    { pose proof (decode_payload_nonfatal (hType hdr) ms) as Hn. by rewrite Ed in Hn. }
    destruct Hnf as [Hf Hc]. rewrite Hf. split; [by split|]. by split.
Qed.

(** C22: Decoding is sound.  A message that [DecodeClientMessage] returns is
    well formed: intervals are supported, channels exist, health samples are
    finite and within the plausibility bounds, integers fit, and a tier
    override is one the delivery layer accepts.  An error is fatal exactly
    when the frame asks for a newer protocol version, and everything that is
    not an object is malformed. *)
Theorem decode_sound data :
  match DecodeClientMessage data with
  | inl m =>
      valid_message m /\
      exists ms hdr, data ≫= members = Some ms /\ decode_header ms = Some hdr /\
        hVersion hdr <= Version /\ hType hdr = MessageType_String (Type_of m)
  | inr e =>
      (peFatal e = true <-> peCode e = CodeProtocolVersion) /\
      (peFatal e = true -> exists ms hdr, data ≫= members = Some ms /\ decode_header ms = Some hdr /\
         Version < hVersion hdr) /\
      (data ≫= members = None -> peCode e = CodeMalformedFrame)
  end.
Proof. apply decode_sound_core. Qed.

(** ** Well-formed frames *)

(** The literal of an integer. *)
Definition int_json (z : Z) : Json := JNum (mkNumber (z <? 0) (Z.abs z) 0 true).

Definition frame_header (m : ClientMessage) : list (string * Json) :=
  [("type"%string, JStr (MessageType_String (Type_of m))); ("version"%string, int_json Version)].

(** The payload members the client writes; [rtt] and [jitter] are the number
    literals of a health report. *)
Definition payload_members (m : ClientMessage) (rtt jitter : JsonNumber) : list (string * Json) :=
  match m with
  | Hello v p d =>
      [("clientVersion"%string, JStr v); ("platform"%string, JStr p); ("deviceId"%string, JStr d)]
  | Subscribe s iv cs =>
      [("symbol"%string, JStr s); ("interval"%string, JStr iv);
       ("channels"%string, match cs with Some cs => JArr (JStr <$> cs) | None => JNull end)]
  | Unsubscribe cs => [("channels"%string, JArr (JStr <$> cs))]
  | SetInterval iv => [("interval"%string, JStr iv)]
  | Ping i t => [("id"%string, int_json i); ("clientTimeMs"%string, int_json t)]
  | LatencyReport _ _ n t w p c =>
      [("rttMs"%string, JNum rtt); ("jitterMs"%string, JNum jitter); ("samples"%string, int_json n);
       ("clientTimeMs"%string, int_json t); ("window"%string, JStr w);
       ("missedPongs"%string, int_json p); ("cappedSamples"%string, int_json c)]
  | TierOverride t => [("tier"%string, JStr t)]
  end.

Definition frame_of (m : ClientMessage) (rtt jitter : JsonNumber) : Json :=
  JObj (frame_header m ++ payload_members m rtt jitter).

(** The literals of a report denote its values. *)
Definition literals_of (m : ClientMessage) (rtt jitter : JsonNumber) : Prop :=
  match m with
  | LatencyReport r j _ _ _ _ _ =>
      f64_of_decimal (jnNeg rtt) (jnMant rtt) (jnExp10 rtt) = r /\
      f64_of_decimal (jnNeg jitter) (jnMant jitter) (jnExp10 jitter) = j
  | _ => True
  end.

Lemma int_json_value z old : in_i64 z -> int_value old (int_json z) = Some z.
Proof.
  unfold int_value, int_json, signed, in_i64. intros Hz. cbn [jnInteger jnNeg jnMant].
  assert (E : (if z <? 0 then - Z.abs z else Z.abs z) = z) by (split_if; lia).
  rewrite E, (proj2 (Z.leb_le _ _)), (proj2 (Z.leb_le _ _)) by lia. done.
Qed.

Lemma float_json_value n old :
  f64_finite (f64_of_decimal (jnNeg n) (jnMant n) (jnExp10 n)) = true ->
  float_value old (JNum n) = Some (f64_of_decimal (jnNeg n) (jnMant n) (jnExp10 n)).
Proof. intros Hf. unfold float_value. cbv zeta. by rewrite Hf. Qed.

Lemma channels_field ms cs : assigned "channels" ms = [JArr (JStr <$> cs)] -> strings_field "channels" ms = Some (Some cs).
Proof. intros H. by apply (slice_field_one string_value "" "channels" ms JStr cs). Qed.
Lemma channels_null ms : assigned "channels" ms = [JNull] -> strings_field "channels" ms = Some None.
Proof. intros H. unfold strings_field, slice_field, assign. by rewrite H. Qed.

(** Assigning one of the listed members. *)
Lemma assign_one {A} f (zero a : A) field ms j :
  assigned field ms = [j] -> f zero j = Some a -> assign f zero field ms = Some a.
Proof. intros Hs Hf. unfold assign. rewrite Hs. exact Hf. Qed.

Ltac one_member :=
  erewrite assign_one;
    [|vm_compute; reflexivity|first [reflexivity|apply int_json_value; assumption
      |apply float_json_value; assumption]].

Lemma frame_header_decodes m rtt jitter :
  decode_header (frame_header m ++ payload_members m rtt jitter) =
  Some (mkHeader (MessageType_String (Type_of m)) Version "").
Proof. destruct m; reflexivity. Qed.

Lemma refuse_false code : refuse false code = inl tt.
Proof. done. Qed.

Lemma parseTierOrAuto_of v o :
  ParseTierOrAuto v = inl o -> TrimSpace (txt v) = txt v -> parseTierOrAuto v = inl o.
Proof. unfold parseTierOrAuto, ParseTierOrAuto. intros Ho Ht. by rewrite Ht in Ho. Qed.

(** Every well-formed message gets through.  The frame that carries a
    valid message of the current protocol version decodes to that message,
    with health samples rounded to the nearest double. *)
Theorem decode_frame m rtt jitter :
  valid_message m -> literals_of m rtt jitter ->
  (match m with TierOverride t => TrimSpace (txt t) = txt t | _ => True end) ->
  DecodeClientMessage (Some (frame_of m rtt jitter)) = inl m.
Proof.
  intros Hv Hl Ht. unfold DecodeClientMessage. cbn [mbind option_bind members frame_of].
  rewrite frame_header_decodes. cbn [hType hVersion].
  rewrite bool_decide_eq_false_2 by (destruct m; by vm_compute). change (Version <? Version) with false.
  unfold decode_payload. destruct m as [v p d|s iv cs|cs|iv|i t|r j n t w p c|t];
    cbn [Type_of MessageType_String]; simpl find_type; cbv iota.
  - reflexivity.
  - destruct Hv as (Hs & Hiv & Hcs). unfold decode_subscribe.
    repeat one_member.
    assert (Hch : strings_field "channels" (frame_header (Subscribe s iv cs) ++ payload_members (Subscribe s iv cs) rtt jitter) = Some cs)
      by (destruct cs as [cs|]; [by apply channels_field|by apply channels_null]).
    rewrite Hch. destruct cs as [cs|]; cbn [mbind option_bind unmarshal presult_bind];
      unfold Subscribe_validate; rewrite !bool_decide_eq_false_2, Hiv by (done || by intros ->);
      cbn [default] in *; apply valid_channels in Hcs; rewrite Hcs; reflexivity.
  - destruct Hv as (Hne & Hcs). unfold decode_unsubscribe. rewrite (channels_field _ cs) by done.
    cbn [mbind option_bind unmarshal presult_bind]. apply valid_channels in Hcs.
    change (default [] (Some cs)) with cs. cbv zeta. rewrite bool_decide_eq_false_2, Hcs by done. reflexivity.
  - unfold decode_set_interval. repeat one_member. cbn [mbind option_bind unmarshal presult_bind].
    simpl in Hv. by rewrite Hv.
  - destruct Hv. unfold decode_ping. repeat one_member. reflexivity.
  - destruct Hv as ((Fr & Lr & Ur) & (Fj & Lj & Uj) & Hn & Ht' & Hp & Hc). destruct Hl as [<- <-].
    assert (Hi : in_i64 n) by (unfold in_i64; lia).
    unfold decode_latency_report.
    repeat one_member. cbn [mbind option_bind unmarshal presult_bind].
    unfold LatencyReport_validate, f64_gtb. rewrite Lr, Ur, Lj, Uj.
    rewrite (proj2 (Z.ltb_ge n 0)), (proj2 (Z.ltb_ge 1000 n)) by lia. reflexivity.
  - destruct Hv as [o Ho]. unfold decode_tier_override. repeat one_member.
    cbn [mbind option_bind unmarshal presult_bind]. rewrite (parseTierOrAuto_of t o) by done. reflexivity.
Qed.

Definition report_frame : Json :=
  JObj [("type", JStr "latency_report"); ("version", int_json 1);
        ("rttMs", JNum (mkNumber false 1425 (-1) false)); ("jitterMs", JNum (mkNumber false 8 0 true));
        ("samples", int_json 10); ("clientTimeMs", int_json 1700000000000); ("window", JStr "20s");
        ("missedPongs", int_json 0); ("cappedSamples", int_json 0)]%string.

(** A report of 142.5 ms. *)
Lemma decode_frame_witness :
  DecodeClientMessage (Some report_frame) =
  inl (LatencyReport (f64_lit 285 2) (f64_of_Z 8) 10 1700000000000 "20s" 0 0).
Proof.
  assert (Hv : valid_message (LatencyReport (f64_lit 285 2) (f64_of_Z 8) 10 1700000000000 "20s" 0 0)).
  { unfold valid_message, plausible, in_i64. split_and!; try lia; by vm_compute. }
  apply (decode_frame (LatencyReport (f64_lit 285 2) (f64_of_Z 8) 10 1700000000000 "20s" 0 0)
    (mkNumber false 1425 (-1) false) (mkNumber false 8 0 true) Hv); [|exact I].
  split; vm_compute; reflexivity.
Defined.

(** ** Forward compatibility *)

Definition known_fields : list string :=
  ["type"; "version"; "requestId"; "clientVersion"; "platform"; "deviceId"; "symbol"; "interval";
   "channels"; "id"; "clientTimeMs"; "rttMs"; "jitterMs"; "samples"; "window"; "missedPongs";
   "cappedSamples"; "tier"]%string.

(** Unknown members are ignored.  Adding a member whose name is none of the
    protocol's, anywhere in a frame and with any value, changes nothing: a
    newer client can talk to this server. *)
Theorem unknown_member_ignored ms1 k v ms2 :
  Forall (fun f => same_name f k = false) known_fields ->
  DecodeClientMessage (Some (JObj (ms1 ++ (k, v) :: ms2))) = DecodeClientMessage (Some (JObj (ms1 ++ ms2))).
Proof.
  intros Hk. unfold known_fields in Hk. repeat (apply Forall_cons in Hk as [? Hk]).
  assert (Hh : decode_header (ms1 ++ (k, v) :: ms2) = decode_header (ms1 ++ ms2))
    by (unfold decode_header; by rewrite !assign_other).
  assert (Hp : forall type, decode_payload type (ms1 ++ (k, v) :: ms2) = decode_payload type (ms1 ++ ms2)).
  { intros type. unfold decode_payload. destruct (find_type client_types type) as [[]|]; try done;
      unfold decode_hello, decode_subscribe, decode_unsubscribe, decode_set_interval, decode_ping,
        decode_latency_report, decode_tier_override, strings_field, slice_field; by rewrite !assign_other by assumption. }
  unfold DecodeClientMessage. cbn [mbind option_bind members]. rewrite Hh.
  destruct (decode_header (ms1 ++ ms2)); [|done]. by rewrite Hp.
Qed.

Lemma unknown_member_ignored_witness :
  DecodeClientMessage (Some (JObj
    [("type", JStr "set_interval"); ("theme", JNull); ("interval", JStr "5m")]%string)) =
  inl (SetInterval "5m").
Proof.
  transitivity (DecodeClientMessage (Some (JObj [("type", JStr "set_interval"); ("interval", JStr "5m")]%string)));
    [|vm_compute; reflexivity].
  apply (unknown_member_ignored [("type", JStr "set_interval")]%string "theme" JNull).
  repeat constructor.
Defined.

(** The two readers of a tier text differ on spaces around AUTO. *)
Example auto_with_spaces :
  ParseTierOrAuto " auto " = inl None /\ parseTierOrAuto " auto " = inr (NewError CodeTierOverrideRejected).
Proof. split; vm_compute; reflexivity. Qed.
