(* ===== verification/Wire.v ===== *)
(** * Server frames: [internal/protocol/{server,envelope}.go]

    The payloads of the server's messages as records with the rendered texts,
    their constructors from domain values, and the envelope.  A frame is kept
    as the value that [json.Marshal] prints: printing fails only for a NaN or
    an infinity, which [Encode] checks. *)

From Stdlib Require Import Ascii.
From S2P Require Import Prelude Money Decimal GoTime Domain Float64 Json Protocol Coalesce.

(** ** Timestamps *)

(** The civil date of a day number (day 0 is 0001-01-01). *)
Definition civil_of_days (days : Z) : Z * Z * Z :=
  let z := days + 306 in
  let era := z / 146097 in
  let doe := z mod 146097 in
  let yoe := (doe - doe / 1460 + doe / 36524 - doe / 146096) / 365 in
  let doy := doe - (365 * yoe + yoe / 4 - yoe / 100) in
  let mp := (5 * doy + 2) / 153 in
  let d := doy - (153 * mp + 2) / 5 + 1 in
  let m := if mp <? 10 then mp + 3 else mp - 9 in
  (yoe + era * 400 + (if m <=? 2 then 1 else 0), m, d).

(** [n] in at least [w] digits. *)
Definition padded (w : Z) (n : Z) : text :=
  let s := FormatUint n in repeatc "0" (w - len s) ++ s.

Definition sec_of_day (t : Time) : Z := (ns t / Second) mod 86400.

(** The layout [2006-01-02T15:04:05.000Z]: fractions are truncated. *)
Definition FormatTime (t : Time) : text :=
  let t := tUTC t in
  let '(y, m, d) := civil_of_days (ns t / (86400 * Second)) in
  let s := sec_of_day t in
  padded 4 y ++ txt "-" ++ padded 2 m ++ txt "-" ++ padded 2 d ++ txt "T" ++
  padded 2 (s / 3600) ++ txt ":" ++ padded 2 (s / 60 mod 60) ++ txt ":" ++ padded 2 (s mod 60) ++
  txt "." ++ padded 3 (ns t / Millisecond mod 1000) ++ txt "Z".

(** ** Payloads *)

Definition LevelJSON : Type := text * text.

Definition Levels (sym : Symbol) (levels : list Level) : list LevelJSON :=
  map (fun l => (FormatPrice sym (lvPrice l), FormatQty sym (lvQuantity l))) levels.

Record TierThresholds := mkTierThresholds {
  wtFullMaxRTTMs : float64; wtFullMaxJitterMs : float64; wtMinimalMinRTTMs : float64;
  wtMinimalMinJitterMs : float64; wtDegradeStreak : Z; wtRecoverStreak : Z;
  wtReportHoldMs : Z; wtReportDegradeMs : Z }.

Record WelcomePayload := mkWelcome {
  wpSessionID : string; wpShortID : string; wpSymbol : string; wpEpoch : Z;
  wpEngineState : string; wpServerTime : text; wpProtocolMin : Z; wpProtocolMax : Z;
  wpIntervals : list string; wpChannels : list string; wpHeartbeatMs : Z;
  wpTierRates : list (string * float64); wpTierThresholds : TierThresholds }.

Record SubscribedPayload := mkSubscribed {
  spSymbol : string; spInterval : string; spChannels : list string; spEpoch : Z }.
Record PongPayload := mkPong { ppID : Z; ppClientTimeMs : Z; ppServerTimeMs : Z }.
Record MarketStatusPayload := mkStatusPayload {
  mpState : string; mpEpoch : Z; mpMessage : string; mpAt : text }.

Record OrderBookSnapshotPayload := mkSnapshotPayload {
  osSymbol : string; osEpoch : Z; osUpdateID : Z; osBids : list LevelJSON; osAsks : list LevelJSON;
  osServerTime : text }.
Record OrderBookDeltaPayload := mkDeltaPayload {
  odSymbol : string; odEpoch : Z; odFirstUpdateID : Z; odLastUpdateID : Z;
  odBids : list LevelJSON; odAsks : list LevelJSON }.

Record TradePayload := mkTradePayload {
  tpTradeID : Z; tpSymbol : string; tpTimestamp : text; tpPrice : text; tpQuantity : text;
  tpSide : string }.
Record TradeBatchPayload := mkTradeBatch {
  tbSymbol : string; tbTrades : list TradePayload; tbCompacted : bool; tbOmittedCount : Z }.

Record CandlePayload := mkCandlePayload {
  cpStartTime : text; cpOpen : text; cpHigh : text; cpLow : text; cpClose : text; cpVolume : text;
  cpTradeCount : Z; cpSourceSequence : Z; cpActive : bool }.
Record CandleUpdatePayload := mkCandleUpdate {
  cuSymbol : string; cuInterval : string; cuCandle : CandlePayload; cuSourceSequence : Z;
  cuActive : bool }.
Record CandleClosedPayload := mkCandleClosed {
  ccSymbol : string; ccInterval : string; ccCandle : CandlePayload; ccEpoch : Z }.

Record MarketSummaryPayload := mkSummaryPayload {
  sumSymbol : string; sumLast : text; sumOpen24h : text; sumHigh24h : text; sumLow24h : text;
  sumVolume24h : text; sumChange : text; sumChangeBasisPoints : Z; sumTrades24h : Z;
  sumUpdatedAt : text }.

Record HealthPayload := mkHealth {
  hpTier : string; hpOverride : string; hpReason : string; hpTargetRatePerSec : float64;
  hpEffectiveRatePerSec : float64; hpRTTMs : float64; hpJitterMs : float64;
  hpLastReportAgeMs : Z; hpUptimeMs : Z; hpBookEpoch : Z; hpBookUpdateID : Z;
  hpCoalescedCount : Z; hpSuppressedCount : Z; hpQueuedMessages : Z; hpDroppedMessages : Z }.

Inductive Payload :=
| PWelcome (p : WelcomePayload)
| PSubscribed (p : SubscribedPayload)
| PUnsubscribed (channels : list string)
| PPong (p : PongPayload)
| PPing (id : Z)
| PMarketStatus (p : MarketStatusPayload)
| PSnapshot (p : OrderBookSnapshotPayload)
| PDelta (p : OrderBookDeltaPayload)
| PTrade (p : TradePayload)
| PTradeBatch (p : TradeBatchPayload)
| PCandleUpdate (p : CandleUpdatePayload)
| PCandleClosed (p : CandleClosedPayload)
| PMarketSummary (p : MarketSummaryPayload)
| PHealth (p : HealthPayload)
| PError (code : ErrorCode) (fatal : bool)
| PGoodbye (reason : string).

(** ** Constructors *)

Definition TradePayloadFrom (sym : Symbol) (t : Trade) : TradePayload :=
  mkTradePayload (trID t) (trSymbol t) (FormatTime (trTimestamp t)) (FormatPrice sym (trPrice t))
    (FormatQty sym (trQuantity t)) (Side_String (trSide t)).

Definition CandlePayloadFrom (sym : Symbol) (c : Candle) (active : bool) : CandlePayload :=
  mkCandlePayload (FormatTime (cdStartTime c)) (FormatPrice sym (cdOpen c))
    (FormatPrice sym (cdHigh c)) (FormatPrice sym (cdLow c)) (FormatPrice sym (cdClose c))
    (FormatQty sym (cdVolume c)) (cdTradeCount c) (cdSourceSequence c) active.

Definition SummaryPayloadFrom (sym : Symbol) (s : MarketSummary) : MarketSummaryPayload :=
  mkSummaryPayload (smSymbol s) (FormatPrice sym (smLast s)) (FormatPrice sym (smOpen24h s))
    (FormatPrice sym (smHigh24h s)) (FormatPrice sym (smLow24h s)) (FormatQty sym (smVolume24h s))
    (FormatPrice sym (smChange s)) (smChangeBP s) (smTrades24h s) (FormatTime (smUpdatedAt s)).

Definition ErrorPayloadFrom (err : option ProtoError) : Payload :=
  match err with
  | None => PError CodeInternal false
  | Some e => PError (peCode e) (peFatal e)
  end.

Definition SnapshotPayloadFrom (sym : Symbol) (s : OrderBookSnapshot) : OrderBookSnapshotPayload :=
  mkSnapshotPayload (snSymbol s) (snEpoch s) (snUpdateID s) (Levels sym (snBids s))
    (Levels sym (snAsks s)) (FormatTime (snServerTime s)).

Definition DeltaPayloadFrom (sym : Symbol) (epoch first last : Z) (bids asks : list Level)
    : OrderBookDeltaPayload :=
  mkDeltaPayload (ID sym) epoch first last (Levels sym bids) (Levels sym asks).

Definition HealthInterval : Z := 500 * Millisecond.
Definition ServerHeartbeatInterval : Z := 30 * Second.
Definition ClientHeartbeatInterval : Z := 2 * Second.

(** ** Frames *)

Record Frame := mkFrame {
  frType : MessageType; frVersion : Z; frServerTime : text; frSeq : Z; frPayload : Payload }.

Definition payload_floats (p : Payload) : list float64 :=
  match p with
  | PWelcome w =>
      map snd (wpTierRates w) ++
      let t := wpTierThresholds w in
      [wtFullMaxRTTMs t; wtFullMaxJitterMs t; wtMinimalMinRTTMs t; wtMinimalMinJitterMs t]
  | PHealth h => [hpTargetRatePerSec h; hpEffectiveRatePerSec h; hpRTTMs h; hpJitterMs h]
  | _ => []
  end.

(** [None] is a marshalling error. *)
Definition Encode (t : MessageType) (seq : Z) (serverTime : Time) (payload : Payload)
    : option Frame :=
  if forallb f64_finite (payload_floats payload) then
    Some (mkFrame t Version (FormatTime serverTime) seq payload)
  else None.

(** ** The client can read the book back exactly *)

Definition symbol_ok (sym : Symbol) : Prop :=
  0 <= PriceDigits sym <= 18 /\ PriceScale sym = 10 ^ PriceDigits sym /\
  0 <= QtyDigits sym <= 18 /\ QtyScale sym = 10 ^ QtyDigits sym.

Definition level_in_range (l : Level) : Prop :=
  Z.abs (lvPrice l) <= maxSafeMagnitude /\ Z.abs (lvQuantity l) <= maxSafeMagnitude.

(** A client that parses the decimal strings. *)
Definition read_level (sym : Symbol) (j : LevelJSON) : option Level :=
  match ParsePrice sym (fst j), ParseQty sym (snd j) with
  | Some (Ok p), Some (Ok q) => Some (mkLevel p q)
  | _, _ => None
  end.

Lemma read_Levels sym ls :
  symbol_ok sym -> Forall level_in_range ls -> mapM (read_level sym) (Levels sym ls) = Some ls.
Proof.
  intros (Hp & Ep & Hq & Eq). unfold Levels. induction 1 as [|l ls [Hlp Hlq] _ IH]; [done|].
  cbn [map]. assert (Hr : read_level sym (FormatPrice sym (lvPrice l), FormatQty sym (lvQuantity l)) = Some l).
  { unfold read_level, ParsePrice, ParseQty, FormatPrice, FormatQty. cbn [fst snd].
    rewrite Ep, Eq, !parse_format_core by done. by destruct l. }
  cbn [mapM]. rewrite Hr. cbn [mbind option_bind]. by rewrite IH.
Qed.

Definition read_delta (sym : Symbol) (p : OrderBookDeltaPayload) : option BookDelta :=
  bids ← mapM (read_level sym) (odBids p);
  asks ← mapM (read_level sym) (odAsks p);
  Some (mkDelta (odEpoch p) (odFirstUpdateID p) (odLastUpdateID p) bids asks).

Definition read_snapshot (sym : Symbol) (p : OrderBookSnapshotPayload) : option (Z * Z * list Level * list Level) :=
  bids ← mapM (read_level sym) (osBids p);
  asks ← mapM (read_level sym) (osAsks p);
  Some (osEpoch p, osUpdateID p, bids, asks).

Lemma roster_symbol_ok sym : sym ∈ AllSymbols -> symbol_ok sym.
Proof.
  unfold AllSymbols, allSymbols. rewrite !elem_of_cons, elem_of_nil.
  unfold symbol_ok. intros Hs. repeat destruct Hs as [->|Hs]; done || (vm_compute; intuition congruence).
Qed.

(** Nothing of the book is lost on the wire.  For every market of the
    roster, a client that parses the decimal strings of a delta or a snapshot
    gets the very levels the session rendered, deletions (zero quantity)
    included, with the same epoch and update ids. *)
Theorem book_payloads_exact sym d s :
  sym ∈ AllSymbols -> Forall level_in_range (bdBids d ++ bdAsks d ++ snBids s ++ snAsks s) ->
  read_delta sym (DeltaPayloadFrom sym (bdEpoch d) (bdFirst d) (bdLast d) (bdBids d) (bdAsks d)) = Some d /\
  read_snapshot sym (SnapshotPayloadFrom sym s) = Some (snEpoch s, snUpdateID s, snBids s, snAsks s).
Proof.
  intros Hs Hf. apply roster_symbol_ok in Hs.
  apply Forall_app in Hf as [H1 Hf]. apply Forall_app in Hf as [H2 Hf]. apply Forall_app in Hf as [H3 H4].
  unfold read_delta, read_snapshot. cbn [odBids odAsks odEpoch odFirstUpdateID odLastUpdateID DeltaPayloadFrom
    osBids osAsks osEpoch osUpdateID SnapshotPayloadFrom].
  rewrite !read_Levels by done. split; [|done]. cbn [mbind option_bind]. by destruct d.
Qed.

Lemma book_payloads_exact_witness :
  read_delta BTCUSDT (DeltaPayloadFrom BTCUSDT 0 4 9 [mkLevel 6742135 0] [mkLevel 6742136 12000000])
  = Some (mkDelta 0 4 9 [mkLevel 6742135 0] [mkLevel 6742136 12000000]).
Proof.
  apply (book_payloads_exact BTCUSDT (mkDelta 0 4 9 [mkLevel 6742135 0] [mkLevel 6742136 12000000])
    (mkSnapshot "BTCUSDT" 0 3 [] [] zeroTime)).
  - apply list_elem_of_In. left. reflexivity.
  - repeat constructor; vm_compute; discriminate.
Defined.

Example level_json_example :
  Levels BTCUSDT [mkLevel 6742135 12000000; mkLevel 5 0] =
  [(txt "67421.35", txt "0.12000000"); (txt "0.05", txt "0.00000000")].
Proof. vm_compute. reflexivity. Qed.

Example FormatTime_examples :
  map FormatTime [unixNanos 0; unixNanos 1709251199999999999; unixNanos 1709251200000000000; zeroTime] =
  [txt "1970-01-01T00:00:00.000Z"; txt "2024-02-29T23:59:59.999Z"; txt "2024-03-01T00:00:00.000Z";
   txt "0001-01-01T00:00:00.000Z"].
Proof. vm_compute. reflexivity. Qed.
