(* ===== verification/Log.v ===== *)
(** * Structured logging: [internal/observability/logger.go], [logfields.go]

    A logger is a level, a sink and the attributes it was derived with; a call
    emits one line or nothing.  A line is the members of its JSON object in
    order, as [log/slog] writes them: the time, the level, the message, then the
    attributes, each passed through [replaceAttr]; how a value is printed is
    left to [slog].  The arguments of every call are key and value in turn, so
    they are attributes here. *)

From Stdlib Require Import Ascii.
From S2P Require Import Prelude Money Decimal GoTime Float64 Wire.

(** ** The vocabulary *)

Definition FieldService : string := "service".
Definition FieldVersion : string := "version".
Definition FieldComponent : string := "component".
Definition FieldSessionID : string := "sessionId".
Definition FieldShortID : string := "shortId".
Definition FieldCorrelationID : string := "correlationId".

Definition field_names : list string :=
  [FieldService; FieldVersion; FieldComponent; FieldSessionID; FieldShortID; FieldCorrelationID; "event"; "symbol";
   "interval"; "updateId"; "tradeId"; "seq"; "tier"; "fromTier"; "override"; "reason"; "streak"; "rttMs"; "jitterMs";
   "effectiveRate"; "targetRate"; "durationMs"; "count"; "dropped"; "coalesced"; "error"; "errorCode"; "fatal";
   "addr"; "path"; "method"; "status"; "bytes"; "seed"; "epoch"; "eventIndex"; "driver"; "queueDepth";
   "remoteAddr"; "clientVersion"; "platform"; "deviceId"; "tierReason"; "applied"; "batchSize"; "rows"; "gapSize";
   "attempt"; "force"; "schemaVersion"; "capacity"; "ws"; "timedOut"; "debugBuild"; "debugControls";
   "metricsDriver"; "uptime"; "kind"; "operation"; "detail"; "channels"; "previousInterval"].
Definition message_slugs : list string :=
  ["server_starting"; "listening"; "shutdown_started"; "shutdown_complete"; "warmup_complete";
   "metrics_store_ready"; "metrics_store_degraded"; "metrics_dropped"; "metrics_pruned"; "metrics_flush_slow";
   "config_loaded"; "ws_connected"; "ws_disconnected"; "ws_subscribe"; "ws_message_dropped";
   "ws_critical_message_dropped"; "ws_slow_consumer"; "ws_rate_limited"; "tier_transition"; "health_report";
   "health_watchdog"; "book_recovery"; "book_gap_detected"; "book_resync"; "protocol_error"; "malformed_frame";
   "unknown_message_type"; "validation_failed"; "engine_event"; "invariant_violation"; "candle_closed";
   "fault_injected"; "debug_control"; "cache_write_failed"; "engine_stopped"; "startup_failed";
   "engine_ended_early"; "http_shutdown_incomplete"; "metrics_close_failed"; "metrics_flush_incomplete";
   "debug_routes_enabled"; "http_request"; "http_panic"; "ws_session_ended"; "ws_upgrade_failed"; "client_hello";
   "welcome_before_warmup"; "encode_failed"].
Definition component_names : list string :=
  ["engine"; "market"; "session"; "tier"; "orderbook"; "candle"; "metrics"; "transport"; "config"; "debug"].

(** ** Levels *)

(** [slog.Level]. *)
Definition LevelDebug : Z := -4.
Definition LevelInfo : Z := 0.
Definition LevelWarn : Z := 4.
Definition LevelError : Z := 8.

(** [strings.ToLower]; outside ASCII no letter becomes one of those compared. *)
Definition to_lower (c : ascii) : ascii :=
  let n := N_of_ascii c in if ((65 <=? n) && (n <=? 90))%N then ascii_of_N (n + 32) else c.
Definition parseLevel (level : text) : Z :=
  let s := map to_lower level in
  if bool_decide (s = txt "debug") then LevelDebug
  else if bool_decide (s = txt "warn") then LevelWarn
  else if bool_decide (s = txt "error") then LevelError
  else LevelInfo.

(** [Level.String] of the four. *)
Definition level_name (level : Z) : string :=
  if level =? LevelDebug then "DEBUG" else if level =? LevelInfo then "INFO"
  else if level =? LevelWarn then "WARN" else "ERROR".

(** ** Attributes *)

Inductive Value := VString (s : string) | VNumber (z : Z) | VFloat (x : float64) | VBool (b : bool) | VClock (t : Time).
Definition Attr : Type := string * Value.
Definition TimeKey : string := "time".
Definition LevelKey : string := "level".
Definition MessageKey : string := "msg".

(** [None] is a panic: [Value.Time] of a value that is not a time. *)
Definition replaceAttr (a : Attr) : option Attr :=
  if bool_decide (a.1 = TimeKey) then
    match a.2 with
    | VClock t => Some (TimeKey, VString (String.string_of_list_ascii (FormatTime (tUTC t))))
    | _ => None
    end
  else Some a.

(** ** Loggers *)

Inductive Sink := Stdout | Stderr | SinkTo (id : nat).
Record Logger := mkLogger {
  lgSink : Sink; lgLevel : Z; lgAttrs : list Attr; lgVersion : string; lgDebug : bool }.

Definition With (l : Logger) (attrs : list Attr) : option Logger :=
  attrs ← mapM replaceAttr attrs;
  Some (mkLogger (lgSink l) (lgLevel l) (lgAttrs l ++ attrs) (lgVersion l) (lgDebug l)).

(** A nil writer means standard output. *)
Definition New (level : text) (version : string) (debugBuild : bool) (w : option Sink) : option Logger :=
  With (mkLogger (default Stdout w) (parseLevel level) [] version debugBuild)
    [(FieldService, VString "pulsetrade-backend"); (FieldVersion, VString version)].

Definition Component (l : Logger) (name : string) : option Logger := With l [(FieldComponent, VString name)].
Definition Session (l : Logger) (sessionID shortID : string) : option Logger :=
  With l [(FieldSessionID, VString sessionID); (FieldShortID, VString shortID)].
Definition WithCorrelation (l : Logger) (correlationID : string) : option Logger :=
  With l [(FieldCorrelationID, VString correlationID)].
Definition DebugEnabled (l : Logger) : bool := lgDebug l.

(** A call of [Debug], [Info], [Warn] or [Error]: the line for the sink, if the
    level is enabled. *)
Inductive Emitted := NotLogged | Logged (line : list Attr) | LogPanics.
Definition log (l : Logger) (level : Z) (msg : string) (attrs : list Attr) (now : Time) : Emitted :=
  if level <? lgLevel l then NotLogged
  else
    match mapM replaceAttr [(TimeKey, VClock now); (LevelKey, VString (level_name level)); (MessageKey, VString msg)],
          mapM replaceAttr attrs with
    | Some head, Some tail => Logged (head ++ lgAttrs l ++ tail)
    | _, _ => LogPanics
    end.

(** The logger of a session ([Session.logger]); a line of a session without a
    configured logger goes to standard output. *)
Definition session_logger (configured : option Logger) (id short : string) : option Logger :=
  base ← (match configured with Some l => Some l | None => New (txt "info") "dev" false None end);
  l ← Component base "session"; Session l id short.

(** ** Loggers in a context *)

(** The values a context holds under the logger's key, the innermost first; the
    outer [option] of a context is its nil. *)
Definition Context_ : Type := option (list (option Logger)).
(** [context.WithValue] panics on a nil parent. *)
Definition WithContext (ctx : Context_) (logger : option Logger) : option Context_ :=
  match ctx with None => None | Some values => Some (Some (logger :: values)) end.
Definition FromContext (ctx : Context_) (fallback : option Logger) : option Logger :=
  match ctx with
  | Some (Some l :: _) => Some l
  | _ => fallback
  end.

(** ** The vocabulary is one *)

(** No field, message or component is named twice, and no field takes the place
    of a member [slog] writes itself. *)
Lemma vocabulary_distinct :
  NoDup field_names /\ NoDup message_slugs /\ NoDup component_names /\
  (TimeKey ∉ field_names) /\ (LevelKey ∉ field_names) /\ (MessageKey ∉ field_names).
Proof. repeat split; apply (bool_decide_unpack _); vm_compute; exact I. Qed.

Definition of_vocabulary (attrs : list Attr) : Prop := Forall (fun a => a.1 ∈ field_names) attrs.

Lemma replace_vocabulary attrs : of_vocabulary attrs -> mapM replaceAttr attrs = Some attrs.
Proof.
  unfold of_vocabulary. induction 1 as [|a attrs Ha _ IH]; [done|]. cbn [mapM].
  assert (E : replaceAttr a = Some a).
  { unfold replaceAttr. rewrite bool_decide_eq_false_2; [done|]. intros E. rewrite E in Ha.
    by destruct vocabulary_distinct as (_ & _ & _ & Ht & _). }
  rewrite E. cbn [mbind option_bind]. by rewrite IH.
Qed.

(** ** Derived loggers and their lines *)

Lemma With_vocabulary l attrs :
  of_vocabulary attrs ->
  With l attrs = Some (mkLogger (lgSink l) (lgLevel l) (lgAttrs l ++ attrs) (lgVersion l) (lgDebug l)).
Proof. intros Ha. unfold With. by rewrite replace_vocabulary. Qed.

(** A logger derived in several steps. *)
Definition derive (l : option Logger) (steps : list (list Attr)) : option Logger :=
  fold_left (fun l attrs => l ← l; With l attrs) steps l.

Lemma derive_attrs l steps :
  Forall of_vocabulary steps ->
  derive (Some l) steps = Some (mkLogger (lgSink l) (lgLevel l) (lgAttrs l ++ concat steps) (lgVersion l) (lgDebug l)).
Proof.
  intros HF. revert l. induction HF as [|attrs steps Ha _ IH]; intros l; cbn [derive fold_left concat].
  { rewrite app_nil_r. by destruct l. }
  cbn [mbind option_bind]. rewrite With_vocabulary by done. fold (derive (Some (mkLogger (lgSink l) (lgLevel l) (lgAttrs l ++ attrs) (lgVersion l) (lgDebug l))) steps).
  rewrite IH. cbn [lgSink lgLevel lgAttrs lgVersion lgDebug]. by rewrite <- app_assoc.
Qed.

Definition service_attrs (version : string) : list Attr :=
  [(FieldService, VString "pulsetrade-backend"); (FieldVersion, VString version)].
Definition clock_text (now : Time) : Value := VString (String.string_of_list_ascii (FormatTime (tUTC now))).

(** A line is emitted exactly from the configured level on, never panics with
    the fields of the vocabulary, and holds the time in milliseconds, the level,
    the message, the service, and what the logger was derived with before what
    the call adds; deriving keeps the sink, the level and the debug flag.  When
    no field is given twice, no member of the line is. *)
Theorem log_line level version debug w steps severity msg attrs now :
  Forall of_vocabulary steps -> of_vocabulary attrs ->
  exists l, derive (New level version debug w) steps = Some l /\
    lgSink l = default Stdout w /\ lgVersion l = version /\ DebugEnabled l = debug /\
    let line := [(TimeKey, clock_text now); (LevelKey, VString (level_name severity)); (MessageKey, VString msg)] ++
                service_attrs version ++ concat steps ++ attrs in
    log l severity msg attrs now = (if severity <? parseLevel level then NotLogged else Logged line) /\
    (NoDup (map fst (service_attrs version ++ concat steps ++ attrs)) -> NoDup (map fst line)).
Proof.
  intros Hs Ha. eexists. cbv zeta. split; [by apply derive_attrs|]. split_and!; try done.
  - unfold log. cbn [lgLevel lgAttrs]. destruct (severity <? parseLevel level); [done|].
    rewrite (replace_vocabulary attrs) by done. cbn. done.
  - intros Hnd. set (names := map fst (service_attrs version ++ concat steps ++ attrs)) in *. rewrite map_app. fold names.
    assert (Hin : Forall (fun n => n ∈ field_names) names).
    { unfold names. apply Forall_map. rewrite !Forall_app. split_and!; [|by apply Forall_concat|done].
      repeat constructor; apply (bool_decide_unpack _); vm_compute; exact I. }
    rewrite Forall_forall in Hin. destruct vocabulary_distinct as (_ & _ & _ & Ht & Hl & Hm).
    cbn [map fst app]. rewrite !NoDup_cons, !not_elem_of_cons. split_and!; done || by intros ?%Hin.
Qed.

(** A level is one of four, whatever its case, and information by default. *)
Lemma parseLevel_cases level :
  parseLevel level = LevelDebug \/ parseLevel level = LevelInfo \/ parseLevel level = LevelWarn \/ parseLevel level = LevelError.
Proof. unfold parseLevel. repeat case_bool_decide; tauto. Qed.

(** The innermost logger of a context answers; the fallback is for a context
    without one. *)
Lemma FromContext_WithContext ctx l fallback :
  match WithContext (Some ctx) (Some l) with Some ctx' => FromContext ctx' fallback = Some l | None => False end.
Proof. done. Qed.

(** ** Concrete inputs *)

Example levels : map parseLevel [txt "DEBUG"; txt "Warn"; txt "error"; txt "trace"; []] =
  [LevelDebug; LevelWarn; LevelError; LevelInfo; LevelInfo].
Proof. reflexivity. Qed.

(** [DebugEnabled] answers for the build, not for the level. *)
Example debug_build_logs_no_debug : exists l, New (txt "info") "1.0.0" true None = Some l /\
  DebugEnabled l = true /\ log l LevelDebug "health_report" [] (unixNanos 0) = NotLogged.
Proof. eexists. split_and!; reflexivity. Qed.

(** A logger for nobody in particular: a nil logger in the context hides the
    one outside it. *)
Example nil_logger_hides l l' :
  FromContext (Some [None; Some l]) (Some l') = Some l'.
Proof. reflexivity. Qed.

Lemma log_line_witness :
  exists l, session_logger (New (txt "info") "1.0.0" false None) "sess_1" "ABC" = Some l /\
    log l LevelInfo "ws_connected" [("symbol", VString "BTC-USD")] (unixNanos 1709251199999999999) =
      Logged [("time", VString "2024-02-29T23:59:59.999Z"); ("level", VString "INFO"); ("msg", VString "ws_connected");
              ("service", VString "pulsetrade-backend"); ("version", VString "1.0.0"); ("component", VString "session");
              ("sessionId", VString "sess_1"); ("shortId", VString "ABC"); ("symbol", VString "BTC-USD")].
Proof.
  destruct (log_line (txt "info") "1.0.0" false None
    [[(FieldComponent, VString "session")]; [(FieldSessionID, VString "sess_1"); (FieldShortID, VString "ABC")]]
    LevelInfo "ws_connected" [("symbol", VString "BTC-USD")] (unixNanos 1709251199999999999)) as (l & Hd & _ & _ & _ & Hl & _).
  - repeat constructor; apply (bool_decide_unpack _); vm_compute; exact I.
  - repeat constructor; apply (bool_decide_unpack _); vm_compute; exact I.
  - exists l. split; [exact Hd|]. rewrite Hl. vm_compute. reflexivity.
Defined.
