(* ===== verification/Session.v ===== *)
(** * One connected client: [internal/delivery/session.go]

    The delivery loop is the single writer of a session's delivery state; the
    reader only answers pings and errors and queues commands.  Each handler is
    an action: a function from the environment and the session to the new
    session and the effects it has on the rest of the program (metrics,
    counters, bus subscriptions), in order.  [None] is a panic of an engine
    read.

    The environment gives what one handler reads from outside: the clock, the
    engines of the process by market id, and how many messages the writer
    takes from the outbound queue while a critical frame waits for room (zero
    when the two-second wait times out).  Log lines are not modelled, nor are
    bytes: the queue holds the frames that [json.Marshal] prints.  Handlers run
    one at a time; the sequence number and the queue position of frames sent
    at the same instant by the reader and the loop are those of that order. *)

From S2P Require Import Prelude Money Decimal GoTime Domain Float64 Rand Book Candles Bus Engine Registry.
From S2P Require Import Json Protocol Wire Tier Coalesce.

(** ** Rate limiting *)

Record rateLimiter := mkLimiter { rlLimit : Z; rlWindow : Time; rlCount : Z }.
Definition newRateLimiter (limit : Z) : rateLimiter := mkLimiter limit zeroTime 0.

Definition allow (r : rateLimiter) (now : Time) : rateLimiter * bool :=
  let r := if tIsZero (rlWindow r) || (Second <=? tSub now (rlWindow r))
           then mkLimiter (rlLimit r) now 0 else r in
  let r := mkLimiter (rlLimit r) (rlWindow r) (rlCount r + 1) in
  (r, rlCount r <=? rlLimit r).

(** ** State *)

Record FaultConfig := mkFaults {
  fcSkipBookDeltas : Z; fcDuplicateDelta : bool; fcReverseDeltas : bool; fcMalformedFrames : Z;
  fcWriteDelay : Z; fcWriteJitter : Z; fcHoldWrites : Z; fcSkipCandleClosed : bool }.
Definition noFaults : FaultConfig := mkFaults 0 false false 0 0 0 0 false.

Record deliveryWindow := mkDeliveryWindow {
  dwTier : DeliveryTier; dwCandleUpdates : Z; dwTradeMessages : Z; dwBookDeltas : Z;
  dwHealthMessages : Z; dwCoalesced : Z; dwSuppressed : Z; dwBytes : Z }.
Definition freshWindow (t : DeliveryTier) : deliveryWindow := mkDeliveryWindow t 0 0 0 0 0 0 0.

Record outbound := mkOutbound { obFrame : Frame; obCritical : bool }.

Record SessionConfig := mkSessionConfig {
  scID : string; scShortID : string; scRegistry : option (Registry.Registry (E := string));
  scOutboundCapacity : Z; scClientMsgPerSec : Z; scBookWindow : Z; scDebugControls : bool }.

(** What a subscription binds: the market and what is sent of it. *)
Record Binding := mkBinding {
  bnSymbol : Symbol; bnInterval : Interval; bnChannels : gset string; bnEngine : option string }.

(** The outbound queue, what the writer has taken from it, and the counters
    around it. *)
Record Output := mkOutput {
  ouQueue : list outbound; ouTaken : list outbound; ouDropped : Z; ouLastSeq : Z;
  ouProtocolErrors : Z }.

Record FaultState := mkFaultState {
  fsFaults : FaultConfig; fsLastDelta : option Frame; fsHeldDelta : option Frame }.

Record Accounting := mkAccounting {
  acWindow : deliveryWindow; acWindowStarted : Time; acEffectiveRate : Z; acLastReportAgeMs : Z;
  acConnectedAt : Time }.

Record Session (P : Type) := mkSession {
  seCfg : SessionConfig; seBinding : Binding; seTier : TierMachine P; seHealth : HealthTracker (P := P);
  seCoalescer : Coalescer; seOutput : Output; seFaults : FaultState; seAccounting : Accounting;
  seRetune : bool; seCloseReason : string; seDropped : bool }.
Arguments mkSession {P}. Arguments seCfg {P}. Arguments seBinding {P}. Arguments seTier {P}.
Arguments seHealth {P}. Arguments seCoalescer {P}. Arguments seOutput {P}. Arguments seFaults {P}.
Arguments seAccounting {P}. Arguments seRetune {P}. Arguments seCloseReason {P}. Arguments seDropped {P}.

(** ** Effects *)

Inductive SEffect :=
| EBusSubscribe (market : string) (name : string) (capacity : Z)
| EBusUnsubscribe (market : string)
| EOnHello (deviceID : string)
| ECount (name : string) (n : Z)
| EGauge (name : string) (v : Z)
| ERecHealthReport (rttMs jitterMs : float64) (ageMs : Z) (band : string)
| ERecLatency (seq : Z) (rttMs jitterMs : float64) (samples clientTimeMs : Z) (capped missed : bool)
| ERecTransition (t : TierTransition) (override : string)
| ERecWindow (started : Time) (w : deliveryWindow) (windowMs : Z) (tier : DeliveryTier) (target effective : float64)
| ERecBook (event : string) (epoch from to gap : Z)
| ERecProtocol (kind : string)
| ERecFault (fault : string).

Record Env (G : Type) := mkEnv {
  evNow : Time; evMarkets : gmap string (Engine G); evWait : Z -> nat }.
Arguments mkEnv {G}. Arguments evNow {G}. Arguments evMarkets {G}. Arguments evWait {G}.

Section Session.
Context {G : Type} `{RandSource G} {P : Type} `{Policy P}.

(** An action of the delivery loop. *)
Definition Act (A : Type) : Type := Env G -> Session P -> option (A * Session P * list SEffect).

#[global] Instance act_ret : MRet Act := fun A a _ s => Some (a, s, []).
#[global] Instance act_bind : MBind Act := fun A B f m ev s =>
  match m ev s with
  | None => None
  | Some (a, s, es) =>
      match f a ev s with
      | None => None
      | Some (b, s, es') => Some (b, s, es ++ es')
      end
  end.

Definition emit (e : SEffect) : Act unit := fun _ s => Some (tt, s, [e]).
Definition get : Act (Session P) := fun _ s => Some (s, s, []).
Definition now_ : Act Time := fun ev s => Some (evNow ev, s, []).
Definition modify (f : Session P -> Session P) : Act unit := fun _ s => Some (tt, f s, []).
Definition skip : Act unit := mret tt.
Definition when (c : bool) (a : Act unit) : Act unit := if c then a else skip.

(** ** Field updates *)

Definition with_binding (f : Binding -> Binding) (s : Session P) : Session P :=
  mkSession (seCfg s) (f (seBinding s)) (seTier s) (seHealth s) (seCoalescer s) (seOutput s)
    (seFaults s) (seAccounting s) (seRetune s) (seCloseReason s) (seDropped s).
Definition with_tier (m : TierMachine P) (s : Session P) : Session P :=
  mkSession (seCfg s) (seBinding s) m (seHealth s) (seCoalescer s) (seOutput s)
    (seFaults s) (seAccounting s) (seRetune s) (seCloseReason s) (seDropped s).
Definition with_health (h : HealthTracker) (s : Session P) : Session P :=
  mkSession (seCfg s) (seBinding s) (seTier s) h (seCoalescer s) (seOutput s)
    (seFaults s) (seAccounting s) (seRetune s) (seCloseReason s) (seDropped s).
Definition with_coalescer (c : Coalescer) (s : Session P) : Session P :=
  mkSession (seCfg s) (seBinding s) (seTier s) (seHealth s) c (seOutput s)
    (seFaults s) (seAccounting s) (seRetune s) (seCloseReason s) (seDropped s).
Definition with_output (f : Output -> Output) (s : Session P) : Session P :=
  mkSession (seCfg s) (seBinding s) (seTier s) (seHealth s) (seCoalescer s) (f (seOutput s))
    (seFaults s) (seAccounting s) (seRetune s) (seCloseReason s) (seDropped s).
Definition with_faults (f : FaultState -> FaultState) (s : Session P) : Session P :=
  mkSession (seCfg s) (seBinding s) (seTier s) (seHealth s) (seCoalescer s) (seOutput s)
    (f (seFaults s)) (seAccounting s) (seRetune s) (seCloseReason s) (seDropped s).
Definition with_accounting (f : Accounting -> Accounting) (s : Session P) : Session P :=
  mkSession (seCfg s) (seBinding s) (seTier s) (seHealth s) (seCoalescer s) (seOutput s)
    (seFaults s) (f (seAccounting s)) (seRetune s) (seCloseReason s) (seDropped s).
Definition with_retune (b : bool) (s : Session P) : Session P :=
  mkSession (seCfg s) (seBinding s) (seTier s) (seHealth s) (seCoalescer s) (seOutput s)
    (seFaults s) (seAccounting s) b (seCloseReason s) (seDropped s).
Definition with_close (reason : string) (dropped : bool) (s : Session P) : Session P :=
  mkSession (seCfg s) (seBinding s) (seTier s) (seHealth s) (seCoalescer s) (seOutput s)
    (seFaults s) (seAccounting s) (seRetune s) reason dropped.

(** ** Construction *)

Definition NewSession (cfg : SessionConfig) (sym : Symbol) (iv : option Interval)
    (channels : option (gset string)) (engine : option string) (policy : P) (now : Time)
    : Session P :=
  let cfg := mkSessionConfig (scID cfg) (scShortID cfg) (scRegistry cfg)
    (if scOutboundCapacity cfg <=? 0 then 256 else scOutboundCapacity cfg)
    (if scClientMsgPerSec cfg <=? 0 then 20 else scClientMsgPerSec cfg)
    (if scBookWindow cfg <? 10 then 15 else scBookWindow cfg) (scDebugControls cfg) in
  let channels := match channels with Some c => c | None => list_to_set DefaultChannels end in
  let m := NewTierMachine policy in
  mkSession cfg (mkBinding sym (default Interval1m iv) channels engine) m (NewHealthTracker policy)
    (NewCoalescer sym) (mkOutput [] [] 0 0 0) (mkFaultState noFaults None None)
    (mkAccounting (freshWindow (tmTier m)) now 0 0 now) false "unknown" false.

Definition Drop (reason : string) : Act unit := modify (with_close reason true).

(** ** Sending *)

(** Room on the outbound channel. *)
Definition has_space (s : Session P) : bool :=
  len (ouQueue (seOutput s)) <? scOutboundCapacity (seCfg s).

Definition push (msg : outbound) (o : Output) : Output :=
  mkOutput (ouQueue o ++ [msg]) (ouTaken o) (ouDropped o) (ouLastSeq o) (ouProtocolErrors o).
Definition take_out (n : nat) (o : Output) : Output :=
  mkOutput (drop n (ouQueue o)) (ouTaken o ++ take n (ouQueue o)) (ouDropped o) (ouLastSeq o)
    (ouProtocolErrors o).

(** A full queue drops a data frame; a critical one waits, and is lost only
    when the writer takes nothing for two seconds. *)
Definition enqueue (msg : outbound) : Act bool := fun ev s =>
  if has_space s then Some (true, with_output (push msg) s, [])
  else if obCritical msg then
    let n := evWait ev (frSeq (obFrame msg)) in
    if bool_decide (n = O) then Some (false, s, [])
    else Some (true, with_output (fun o => push msg (take_out n o)) s, [])
  else
    Some (false, with_output (fun o => mkOutput (ouQueue o) (ouTaken o) (i64 (ouDropped o + 1))
            (ouLastSeq o) (ouProtocolErrors o)) s, []).

Definition nextSeq : Act Z := fun _ s =>
  let n := u64 (ouLastSeq (seOutput s) + 1) in
  Some (n, with_output (fun o => mkOutput (ouQueue o) (ouTaken o) (ouDropped o) n
             (ouProtocolErrors o)) s, []).

(** The frame with the next sequence number; [None] when it does not encode. *)
Definition frame (kind : MessageType) (payload : Payload) : Act (option Frame) :=
  seq ← nextSeq; now ← now_; mret (Encode kind seq now payload).

Definition send (kind : MessageType) (payload : Payload) (critical : bool) : Act unit :=
  f ← frame kind payload;
  match f with
  | None => skip
  | Some f => _ ← enqueue (mkOutbound f critical); skip
  end.

Definition enqueueCritical (kind : MessageType) (payload : Payload) : Act bool :=
  f ← frame kind payload;
  match f with None => mret false | Some f => enqueue (mkOutbound f true) end.

Definition sendError (perr : ProtoError) : Act unit :=
  _ ← modify (with_output (fun o => mkOutput (ouQueue o) (ouTaken o) (ouDropped o) (ouLastSeq o)
        (i64 (ouProtocolErrors o + 1))));
  send TypeError (ErrorPayloadFrom (Some perr)) true.

(** ** Reading the market *)

(** The engine the session is bound to. *)
Definition engine_of (s : Session P) (ev : Env G) : option (Engine G) :=
  id ← bnEngine (seBinding s); evMarkets ev !! id.
Definition engine : Act (Engine G) := fun ev s => e ← engine_of s ev; Some (e, s, []).

(** A read of the engine that can panic. *)
Definition lift {A} (o : option A) : Act A := fun _ s => a ← o; Some (a, s, []).

Definition cut (n : Z) (levels : list Level) : list Level :=
  if n <? len levels then take (Z.to_nat n) levels else levels.

Definition sendSnapshot : Act unit :=
  e ← engine; s ← get; now ← now_;
  let snap := Engine_Book e now in
  let snap := mkSnapshot (snSymbol snap) (snEpoch snap) (snUpdateID snap)
                (cut (scBookWindow (seCfg s)) (snBids snap))
                (cut (scBookWindow (seCfg s)) (snAsks snap)) (snServerTime snap) in
  _ ← send TypeOrderBookSnapshot (PSnapshot (SnapshotPayloadFrom (bnSymbol (seBinding s)) snap)) true;
  _ ← modify (fun s => with_coalescer (SnapshotSent (seCoalescer s) (snEpoch snap) (snUpdateID snap)) s);
  emit (ERecBook "SNAPSHOT_APPLIED" (snEpoch snap) 0 (snUpdateID snap) 0).

Definition requestResync : Act unit :=
  _ ← emit (ERecProtocol "SLOW_CONSUMER");
  _ ← modify (fun s => with_coalescer (Coalescer_Reset (seCoalescer s)) s);
  sendSnapshot.

Definition candle_update (sym : Symbol) (c : Candle) : Payload :=
  PCandleUpdate (mkCandleUpdate (ID sym) (IntervalID (cdInterval c)) (CandlePayloadFrom sym c true)
    (cdSourceSequence c) true).

Definition sendCandleUpdate (c : Candle) : Act unit :=
  s ← get; send TypeCandleUpdate (candle_update (bnSymbol (seBinding s)) c) false.

Definition sendCandleClosed (c : Candle) : Act unit :=
  s ← get; e ← engine;
  let sym := bnSymbol (seBinding s) in
  ok ← enqueueCritical TypeCandleClosed
         (PCandleClosed (mkCandleClosed (ID sym) (IntervalID (cdInterval c))
            (CandlePayloadFrom sym c false) (enEpoch e)));
  when (negb ok) (_ ← emit (ERecProtocol "SLOW_CONSUMER"); requestResync).

Definition State_String (s : EngState) : string :=
  match s with
  | StateStarting => "STARTING" | StateWarming => "WARMING" | StateLive => "LIVE"
  | StatePaused => "PAUSED" | StateDegraded => "DEGRADED" | StateStopped => "STOPPED"
  end.

Definition sendMarketStatus (st : MarketStatus) : Act unit :=
  send TypeMarketStatus (PMarketStatus (mkStatusPayload (State_String (msState st)) (msEpoch st)
    (msMessage st) (FormatTime (msAt st)))) true.

Definition Override (s : Session P) : string :=
  match tmOverride (seTier s) with Some t => Tier_String t | None => "" end.

Definition sendHealth : Act unit :=
  e ← engine; s ← get; now ← now_;
  let health := Tracker_Snapshot (seHealth s) now in
  let '(coalesced, suppressed) := snd (Stats (seCoalescer s)) in
  _ ← modify (fun s => with_coalescer (fst (Stats (seCoalescer s))) s);
  send TypeHealth (PHealth (mkHealth (Tier_String (tmTier (seTier s))) (Override s)
    (Reason_String (tmReason (seTier s))) (TargetRate (tmPolicy (seTier s)) (tmTier (seTier s)))
    (f64_div (f64_of_Z (acEffectiveRate (seAccounting s))) (f64_of_Z 1000))
    (hsRTTMs health) (hsJitterMs health) (dMilliseconds (hsAge health))
    (dMilliseconds (tSub now (acConnectedAt (seAccounting s)))) (enEpoch e)
    (bkUpdateID (enBook e)) coalesced suppressed (len (ouQueue (seOutput s)))
    (ouDropped (seOutput s)))) false.

Definition sendPong (id clientTimeMs : Z) : Act unit :=
  now ← now_; send TypePong (PPong (mkPong id clientTimeMs (tUnixMilli now))) true.

Definition sendWelcome : Act bool :=
  e ← engine; s ← get; now ← now_;
  let p := tmPolicy (seTier s) in
  let t := pThresholds p in
  enqueueCritical TypeWelcome (PWelcome (mkWelcome (scID (seCfg s)) (scShortID (seCfg s))
    (ID (bnSymbol (seBinding s))) (enEpoch e) (State_String (enState e)) (FormatTime now)
    Version Version IntervalIDs Channels (Z.quot ClientHeartbeatInterval Millisecond)
    (map (fun t => (Tier_String t, TargetRate p t)) [TierFull; TierDegraded; TierMinimal])
    (mkTierThresholds (FullMaxRTTMs t) (FullMaxJitterMs t) (MinimalMinRTTMs t)
       (MinimalMinJitterMs t) (DegradeStreak t) (RecoverStreak t) (dMilliseconds (ReportHold t))
       (dMilliseconds (ReportDegrade t))))).

(** ** Faults *)

Definition set_fault (f : FaultConfig -> FaultConfig) (fs : FaultState) : FaultState :=
  mkFaultState (f (fsFaults fs)) (fsLastDelta fs) (fsHeldDelta fs).

Definition ApplyFaults (cfg : FaultConfig) (s : Session P) : Session P :=
  with_faults (set_fault (fun _ => cfg)) s.

(** [consumeBoolFault] and [faultsInt]: the fault is read and cleared. *)
Definition consumeBoolFault (read : FaultConfig -> bool) (clear : FaultConfig -> FaultConfig)
    : Act bool := fun _ s =>
  if read (fsFaults (seFaults s)) then Some (true, with_faults (set_fault clear) s, [])
  else Some (false, s, []).

Definition clear_skip (f : FaultConfig) : FaultConfig :=
  mkFaults 0 (fcDuplicateDelta f) (fcReverseDeltas f) (fcMalformedFrames f) (fcWriteDelay f)
    (fcWriteJitter f) (fcHoldWrites f) (fcSkipCandleClosed f).
Definition clear_duplicate (f : FaultConfig) : FaultConfig :=
  mkFaults (fcSkipBookDeltas f) false (fcReverseDeltas f) (fcMalformedFrames f) (fcWriteDelay f)
    (fcWriteJitter f) (fcHoldWrites f) (fcSkipCandleClosed f).
Definition clear_reverse (f : FaultConfig) : FaultConfig :=
  mkFaults (fcSkipBookDeltas f) (fcDuplicateDelta f) false (fcMalformedFrames f) (fcWriteDelay f)
    (fcWriteJitter f) (fcHoldWrites f) (fcSkipCandleClosed f).
Definition clear_close (f : FaultConfig) : FaultConfig :=
  mkFaults (fcSkipBookDeltas f) (fcDuplicateDelta f) (fcReverseDeltas f) (fcMalformedFrames f)
    (fcWriteDelay f) (fcWriteJitter f) (fcHoldWrites f) false.
Definition clear_hold (f : FaultConfig) : FaultConfig :=
  mkFaults (fcSkipBookDeltas f) (fcDuplicateDelta f) (fcReverseDeltas f) (fcMalformedFrames f)
    (fcWriteDelay f) (fcWriteJitter f) 0 (fcSkipCandleClosed f).
Definition dec_malformed (f : FaultConfig) : FaultConfig :=
  mkFaults (fcSkipBookDeltas f) (fcDuplicateDelta f) (fcReverseDeltas f) (i64 (fcMalformedFrames f - 1))
    (fcWriteDelay f) (fcWriteJitter f) (fcHoldWrites f) (fcSkipCandleClosed f).

Definition set_held (held : option Frame) (fs : FaultState) : FaultState :=
  mkFaultState (fsFaults fs) (fsLastDelta fs) held.
Definition set_last (last : option Frame) (fs : FaultState) : FaultState :=
  mkFaultState (fsFaults fs) last (fsHeldDelta fs).
End Session.
