(* ===== verification/SessionLoop.v ===== *)
(** * The session's handlers and loops: [internal/delivery/session.go]

    Events of the market, the periodic flushes, the client's commands, the
    reader and the writer, and the [select] of the delivery loop as a step on
    its inputs. *)

From S2P Require Import Prelude Money Decimal GoTime Domain Float64 Rand Book Candles Bus Engine Registry.
From S2P Require Import Json Protocol Wire Tier Coalesce Session.

Section Loop.
Context {G : Type} `{RandSource G} {P : Type} `{Policy P}.
Abbreviation Act := (Act (G := G) (P := P)).

Definition channel_on (c : string) (s : Session P) : bool :=
  bool_decide (c ∈ bnChannels (seBinding s)).

(** ** Market events *)

(** FULL holds every trade, DEGRADED twenty, MINIMAL one. *)
Definition tradeBatchLimit (s : Session P) : Z :=
  match tmTier (seTier s) with TierFull => 0 | TierDegraded => 20 | TierMinimal => 1 end.

Definition on_coalescer (f : Coalescer -> Coalescer) : Act unit :=
  modify (fun s => with_coalescer (f (seCoalescer s)) s).

Definition handleEvent (ev : Event) : Act unit :=
  match ev with
  | EventBookWindow w =>
      _ ← on_coalescer (fun c => OnBookWindow c (bwEpoch w) (bwUpdateID w) (bwBids w) (bwAsks w));
      s ← get;
      when (NeedsSnapshot (seCoalescer s)) sendSnapshot
  | EventCandleChanged c =>
      s ← get;
      when (bool_decide (cdInterval c = bnInterval (seBinding s))) (on_coalescer (fun co => OnCandle co c))
  | EventCandleClosed c =>
      s ← get;
      when (bool_decide (cdInterval c = bnInterval (seBinding s))) (
        skipped ← consumeBoolFault fcSkipCandleClosed clear_close;
        if skipped : bool then emit (ERecFault "skip_candle_closed") else sendCandleClosed c)
  | EventTrade t =>
      s ← get;
      when (channel_on ChannelTrades s) (on_coalescer (fun c => OnTrade c t (tradeBatchLimit s)))
  | EventMarketStatus st => sendMarketStatus st
  end.

(** ** Flushing *)

Definition take_delta : Act (option BookDelta) := fun _ s =>
  let '(c, d) := TakeBookDelta (seCoalescer s) in Some (d, with_coalescer c s, []).

(** The injected gap, before the delta is taken. *)
Definition flush_skip : Act unit :=
  s ← get;
  when (0 <? fcSkipBookDeltas (fsFaults (seFaults s))) (
    e ← engine;
    let '(c, gap) := InjectGap (seCoalescer s) in
    _ ← modify (with_coalescer c);
    _ ← emit (ERecFault "book_gap");
    emit (ERecBook "GAP_DETECTED" (enEpoch e) 0 (bkUpdateID (enBook e)) (i64 gap))).

Definition clear_skips : Act unit := modify (with_faults (set_fault clear_skip)).

(** A delta is held, sent before the held one, or sent; one that cannot be
    queued is replaced by a resynchronisation. *)
Definition send_delta (d : BookDelta) (f : Frame) : Act unit :=
  reverse ← consumeBoolFault fcReverseDeltas clear_reverse;
  if reverse : bool then
    _ ← modify (with_faults (set_held (Some f)));
    emit (ERecFault "out_of_order_delta")
  else
    s ← get;
    match fsHeldDelta (seFaults s) with
    | Some held =>
        _ ← modify (with_faults (set_held None));
        _ ← enqueue (mkOutbound f false);
        _ ← enqueue (mkOutbound held true);
        emit (ERecFault "out_of_order_delta")
    | None =>
        ok ← enqueue (mkOutbound f true);
        if ok : bool then
          _ ← on_coalescer (fun c => fst (Stats c));
          duplicate ← consumeBoolFault fcDuplicateDelta clear_duplicate;
          if duplicate : bool then
            _ ← emit (ERecFault "duplicate_delta"); _ ← enqueue (mkOutbound f true); skip
          else modify (with_faults (set_last (Some f)))
        else
          e ← engine;
          _ ← emit (ERecBook "RECOVERY_STARTED" (enEpoch e) (bdFirst d) (bdLast d) 0);
          requestResync
    end.

Definition flushBook : Act unit :=
  _ ← flush_skip;
  _ ← clear_skips;
  d ← take_delta;
  match d with
  | None => skip
  | Some d =>
      s ← get;
      f ← frame TypeOrderBookDelta (PDelta (DeltaPayloadFrom (bnSymbol (seBinding s)) (bdEpoch d)
            (bdFirst d) (bdLast d) (bdBids d) (bdAsks d)));
      match f with None => skip | Some f => send_delta d f end
  end.

Definition suppress (n : Z) : Act unit :=
  modify (with_accounting (fun a =>
    let w := acWindow a in
    mkAccounting (mkDeliveryWindow (dwTier w) (dwCandleUpdates w) (dwTradeMessages w) (dwBookDeltas w)
        (dwHealthMessages w) (dwCoalesced w) (i64 (dwSuppressed w + n)) (dwBytes w))
      (acWindowStarted a) (acEffectiveRate a) (acLastReportAgeMs a) (acConnectedAt a))).

Definition take_candle : Act (option Candle) := fun _ s =>
  let '(c, k) := TakeCandle (seCoalescer s) (bnInterval (seBinding s)) in
  Some (k, with_coalescer c s, []).

(** The loop takes the pending candle of the interval until there is none:
    after the first candle is taken nothing is pending. *)
Fixpoint flush_candles (fuel : nat) : Act unit :=
  match fuel with
  | O => skip
  | S fuel =>
      k ← take_candle;
      match k with
      | None => skip
      | Some c =>
          s ← get;
          f ← frame TypeCandleUpdate (candle_update (bnSymbol (seBinding s)) c);
          match f with
          | None => flush_candles fuel
          | Some f =>
              ok ← enqueue (mkOutbound f false);
              if ok : bool then flush_candles fuel
              else _ ← on_coalescer (fun co => OnCandle co c); suppress 1
          end
      end
  end.
Definition flushCandles : Act unit :=
  s ← get; when (channel_on ChannelCandles s) (flush_candles 2).

Definition take_trades : Act (list Trade * Z * bool) := fun _ s =>
  let '(c, r) := TakeTrades (seCoalescer s) in Some (r, with_coalescer c s, []).

(** FULL sends the trades one by one until the queue is full. *)
Fixpoint send_trades (ts : list Trade) : Act unit :=
  match ts with
  | [] => skip
  | t :: rest =>
      s ← get;
      f ← frame TypeTrade (PTrade (TradePayloadFrom (bnSymbol (seBinding s)) t));
      match f with
      | None => send_trades rest
      | Some f =>
          ok ← enqueue (mkOutbound f false);
          if ok : bool then send_trades rest else suppress (len ts)
      end
  end.

Definition flushTrades : Act unit :=
  s ← get;
  when (channel_on ChannelTrades s) (
    '(ts, omitted, ok) ← take_trades;
    when ok (
      s ← get;
      match tmTier (seTier s) with
      | TierFull => send_trades ts
      | _ =>
          let sym := bnSymbol (seBinding s) in
          f ← frame TypeTradeBatch (PTradeBatch (mkTradeBatch (ID sym)
                (map (TradePayloadFrom sym) ts) (0 <? omitted) omitted));
          match f with
          | None => skip
          | Some f =>
              ok ← enqueue (mkOutbound f false);
              when (negb ok) (suppress (len ts))
          end
      end)).

Definition flush : Act unit := _ ← flushBook; _ ← flushCandles; flushTrades.

Definition flushSummary : Act unit :=
  s ← get;
  when (channel_on ChannelSummary s) (
    e ← engine; now ← now_;
    summary ← lift (Engine_Summary e now);
    f ← frame TypeMarketSummary (PMarketSummary (SummaryPayloadFrom (bnSymbol (seBinding s)) summary));
    match f with
    | None => skip
    | Some f => _ ← enqueue (mkOutbound f false); skip
    end).

(** ** Commands *)

Definition resolveMarket (s : Session P) (id : string) : option (string * Symbol) :=
  match Lookup id with
  | Err _ => None
  | Ok sym =>
      match scRegistry (seCfg s) with
      | Some r => e ← Registry_Lookup (Some r) sym; Some (e, sym)
      | None =>
          e ← bnEngine (seBinding s);
          if bool_decide (e = ID sym) then Some (e, sym) else None
      end
  end.

(** The session moves to another market: a new subscription and a new
    coalescer. *)
Definition bindEngine (e : string) (sym : Symbol) : Act unit :=
  s ← get;
  _ ← match bnEngine (seBinding s) with Some old => emit (EBusUnsubscribe old) | None => skip end;
  _ ← modify (fun s => with_coalescer (NewCoalescer sym)
        (with_binding (fun b => mkBinding sym (bnInterval b) (bnChannels b) (Some e)) s));
  emit (EBusSubscribe e ("sess:" ++ scShortID (seCfg s)) (scOutboundCapacity (seCfg s))).

Definition channelList (channels : gset string) : list string :=
  filter (fun c => c ∈ channels) Channels.

(** What follows an accepted subscription. *)
Definition announce (sym : Symbol) (iv : Interval) : Act unit :=
  _ ← sendSnapshot;
  s ← get; e ← engine;
  _ ← send TypeSubscribed (PSubscribed (mkSubscribed (ID sym) (IntervalID iv)
        (channelList (bnChannels (seBinding s))) (enEpoch e))) false;
  _ ← match ActiveCandle e iv with Some active => sendCandleUpdate active | None => skip end;
  flushSummary.

Definition handleSubscribe (symbol interval : string) (channels : option (list string)) : Act unit :=
  s ← get;
  match resolveMarket s symbol with
  | None => sendError (NewError CodeUnsupportedSymbol)
  | Some (e, sym) =>
      match ParseInterval interval with
      | Err _ => sendError (NewError CodeUnsupportedInterval)
      | Ok iv =>
          if match channels with Some cs => negb (forallb ValidChannel cs) | None => false end
          then sendError (NewError CodeUnsupportedChannel)
          else
            let next b := match channels with
                          | Some cs => {[ChannelHealth]} ∪ list_to_set cs
                          | None => bnChannels b
                          end in
            _ ← modify (with_binding (fun b => mkBinding (bnSymbol b) iv (next b) (bnEngine b)));
            _ ← when (negb (bool_decide (Some e = bnEngine (seBinding s)))) (bindEngine e sym);
            announce sym iv
      end
  end.

(** The side effects of a transition; the buffered [retune] request holds one. *)
Definition onTierChanged (t : TierTransition) : Act unit :=
  s ← get;
  _ ← emit (ERecTransition t (Override s));
  _ ← emit (ECount "tier_transitions_total" 1);
  _ ← emit (EGauge ("gauge.tier." ++ Tier_String (ttTo t)) 1);
  _ ← modify (with_retune true);
  sendHealth.

Definition transition (step : TierMachine P -> TierMachine P * TierTransition) : Act TierTransition :=
  fun _ s => let '(m, t) := step (seTier s) in Some (t, with_tier m s, []).

Definition handleLatencyReport (rttMs jitterMs : float64) (samples clientTimeMs missedPongs capped : Z)
    : Act unit :=
  now ← now_;
  let rep := mkReport rttMs jitterMs samples clientTimeMs now in
  _ ← modify (fun s => with_health (Ingest (seHealth s) rep) s);
  s ← get;
  let snap := Tracker_Snapshot (seHealth s) now in
  _ ← emit (ERecHealthReport rttMs jitterMs (dMilliseconds (hsAge snap))
        (Band_String (Classify (tmPolicy (seTier s)) rttMs jitterMs)));
  _ ← emit (ERecLatency (hsTotalReports snap) rttMs jitterMs samples clientTimeMs (0 <? capped)
        (0 <? missedPongs));
  _ ← emit (ECount "health_reports_total" 1);
  _ ← when (0 <? missedPongs) (
        _ ← emit (ECount "missed_pongs_total" missedPongs); emit (ERecProtocol "MISSED_PONG"));
  t ← transition (fun m => Observe m rep now);
  when (ttChanged t) (onTierChanged t).

Definition handleTierOverride (tier : string) : Act unit :=
  s ← get; now ← now_;
  if negb (scDebugControls (seCfg s)) then sendError (NewError CodeDebugDisabled)
  else match ParseTierOrAuto tier with
       | inr _ => sendError (NewError CodeTierOverrideRejected)
       | inl forced =>
           t ← transition (fun m =>
                 match forced with None => ClearOverride m now | Some t => Force m t now end);
           if ttChanged t then onTierChanged t else sendHealth
       end.

Definition handleCommand (msg : ClientMessage) : Act unit :=
  match msg with
  | Hello _ _ deviceId => emit (EOnHello deviceId)
  | Subscribe symbol interval channels => handleSubscribe symbol interval channels
  | Unsubscribe channels =>
      _ ← modify (with_binding (fun b =>
            mkBinding (bnSymbol b) (bnInterval b) (bnChannels b ∖ list_to_set channels) (bnEngine b)));
      send TypeUnsubscribed (PUnsubscribed channels) false
  | SetInterval interval =>
      s ← get; handleSubscribe (ID (bnSymbol (seBinding s))) interval None
  | Ping _ _ => skip
  | LatencyReport r j n t _ missed capped => handleLatencyReport r j n t missed capped
  | TierOverride tier => handleTierOverride tier
  end.

(** ** The delivery window *)

Definition recordDeliveryWindow : Act unit :=
  s ← get; now ← now_;
  let a := seAccounting s in
  let elapsed := tSub now (acWindowStarted a) in
  if elapsed <=? 0 then skip else
  let w := acWindow a in
  let seconds := f64_add (f64_of_Z (Z.quot elapsed Second))
                   (f64_div (f64_of_Z (Z.rem elapsed Second)) (f64_of_Z Second)) in
  let effective := f64_div (f64_of_Z (dwCandleUpdates w)) seconds in
  let tier := tmTier (seTier s) in
  _ ← emit (ERecWindow (acWindowStarted a) w (dMilliseconds elapsed) tier (TargetRate (tmPolicy (seTier s)) tier) effective);
  modify (with_accounting (fun a =>
    mkAccounting (freshWindow tier) now (f64_to_int (f64_mul effective (f64_of_Z 1000)))
      (acLastReportAgeMs a) (acConnectedAt a))).

(** ** The loops *)

Definition watchdog : Act unit :=
  now ← now_; s ← get;
  t ← transition (fun m => OnMissingReports m (hsAge (Tracker_Snapshot (seHealth s) now)) now);
  _ ← when (ttChanged t) (onTierChanged t);
  modify (fun s => with_accounting (fun a =>
    mkAccounting (acWindow a) (acWindowStarted a) (acEffectiveRate a)
      (dMilliseconds (hsAge (Tracker_Snapshot (seHealth s) now))) (acConnectedAt a)) s).

Inductive LoopInput :=
| LCommand (msg : ClientMessage)
| LEvent (ev : Event)
| LFlush | LHealth | LWatchdog | LSummary | LKeepalive | LWindow | LRetune.

(** One round of the [select] of [deliveryLoop].  The retune request re-arms
    the flush ticker and is consumed. *)
Definition loop_step (i : LoopInput) : Act unit :=
  match i with
  | LCommand msg => handleCommand msg
  | LEvent ev => handleEvent ev
  | LFlush => flush
  | LHealth => sendHealth
  | LWatchdog => watchdog
  | LSummary => flushSummary
  | LKeepalive => now ← now_; send TypePing (PPing (tUnixMilli now)) false
  | LWindow => recordDeliveryWindow
  | LRetune => modify (with_retune false)
  end.

Definition kindForCode (code : ErrorCode) : string :=
  match code with
  | CodeMalformedFrame => "MALFORMED_FRAME" | CodeUnknownMessageType => "UNKNOWN_TYPE"
  | CodeRateLimited => "RATE_LIMITED" | _ => "VALIDATION_FAILED"
  end.
Definition counterForCode (code : ErrorCode) : string :=
  match code with
  | CodeMalformedFrame => "malformed_messages_total"
  | CodeUnknownMessageType => "unknown_messages_total"
  | CodeRateLimited => "rate_limited_total" | _ => "validation_failures_total"
  end.

Definition Code_String (c : ErrorCode) : string :=
  match c with
  | CodeMalformedFrame => "MALFORMED_FRAME" | CodeUnknownMessageType => "UNKNOWN_MESSAGE_TYPE"
  | CodeValidationFailed => "VALIDATION_FAILED" | CodeUnsupportedSymbol => "UNSUPPORTED_SYMBOL"
  | CodeUnsupportedInterval => "UNSUPPORTED_INTERVAL" | CodeUnsupportedChannel => "UNSUPPORTED_CHANNEL"
  | CodeRateLimited => "RATE_LIMITED" | CodeTierOverrideRejected => "TIER_OVERRIDE_REJECTED"
  | CodeDebugDisabled => "DEBUG_DISABLED" | CodeSubscriptionRequired => "SUBSCRIPTION_REQUIRED"
  | CodeSlowConsumer => "SLOW_CONSUMER" | CodeProtocolVersion => "PROTOCOL_VERSION_UNSUPPORTED"
  | CodeServerShutdown => "SERVER_SHUTDOWN" | CodeInternal => "INTERNAL"
  end.

Definition count_error : Act unit :=
  modify (with_output (fun o => mkOutput (ouQueue o) (ouTaken o) (ouDropped o) (ouLastSeq o)
    (i64 (ouProtocolErrors o + 1)))).

(** One round of [readLoop] on a received frame: the new limiter, and the
    command handed to the delivery loop if there is one. *)
Definition read_step (r : rateLimiter) (data : option Json) : Act (rateLimiter * option ClientMessage) :=
  now ← now_;
  let '(r, ok) := allow r now in
  if negb ok then
    _ ← emit (ECount "rate_limited_total" 1);
    _ ← emit (ERecProtocol "RATE_LIMITED");
    _ ← sendError (NewError CodeRateLimited);
    mret (r, None)
  else match DecodeClientMessage data with
  | inr perr =>
      _ ← count_error;
      _ ← emit (ERecProtocol (kindForCode (peCode perr)));
      _ ← emit (ECount (counterForCode (peCode perr)) 1);
      _ ← sendError perr;
      _ ← when (peFatal perr) (Drop (Code_String (peCode perr)));
      mret (r, None)
  | inl (Ping id t) => _ ← sendPong id t; mret (r, None)
  | inl msg => mret (r, Some msg)
  end.

(** [writeWithFaults] on a successful write: the frames written, [None] being
    the deliberately invalid one, and the window accounting. *)
Definition count_frame (w : deliveryWindow) (kind : MessageType) (bytes : Z) : deliveryWindow :=
  let '(c, t, b, h) := match kind with
    | TypeCandleUpdate => (1, 0, 0, 0)
    | TypeTrade | TypeTradeBatch => (0, 1, 0, 0)
    | TypeOrderBookDelta => (0, 0, 1, 0)
    | TypeHealth => (0, 0, 0, 1)
    | _ => (0, 0, 0, 0)
    end in
  mkDeliveryWindow (dwTier w) (i64 (dwCandleUpdates w + c)) (i64 (dwTradeMessages w + t))
    (i64 (dwBookDeltas w + b)) (i64 (dwHealthMessages w + h)) (dwCoalesced w) (dwSuppressed w)
    (i64 (dwBytes w + bytes)).

Definition writeWithFaults (msg : outbound) (bytes : Z) : Act (list (option Frame)) :=
  s ← get;
  let faults := fsFaults (seFaults s) in
  _ ← when (0 <? fcHoldWrites faults) (modify (with_faults (set_fault clear_hold)));
  _ ← when (0 <? fcMalformedFrames faults) (
        _ ← modify (with_faults (set_fault dec_malformed)); emit (ERecFault "malformed_frame"));
  _ ← modify (with_accounting (fun a =>
        mkAccounting (count_frame (acWindow a) (frType (obFrame msg)) bytes) (acWindowStarted a)
          (acEffectiveRate a) (acLastReportAgeMs a) (acConnectedAt a)));
  mret (if 0 <? fcMalformedFrames faults then [None; Some (obFrame msg)] else [Some (obFrame msg)]).
End Loop.
