(* ===== verification/SessionSpec.v ===== *)
(** * What a session promises its client

    The stream of a session is what the writer took followed by what waits in
    the outbound queue.  [follow] is a client that keeps the epoch and the last
    applied update id of that stream.  The proofs use Hoare triples over the
    session's actions. *)

From S2P Require Import Prelude Money Decimal GoTime Domain Float64 Rand Book Candles Bus Engine Registry.
From S2P Require Import Json Protocol ProtocolSpec Wire Tier TierSpec Coalesce Session SessionLoop EngineSpec.

(** ** The rate limiter *)

Fixpoint limit_run (r : rateLimiter) (ts : list Time) : rateLimiter * list bool :=
  match ts with
  | [] => (r, [])
  | t :: ts =>
      let '(r, ok) := allow r t in
      let '(r, oks) := limit_run r ts in (r, ok :: oks)
  end.

Definition accepted (oks : list bool) : Z := len (filter (fun b => b = true) oks).

Lemma accepted_cons b oks : accepted (b :: oks) = (if b then 1 else 0) + accepted oks.
Proof. unfold accepted, len. rewrite filter_cons. destruct b; case_decide; cbn [length]; try done; lia. Qed.

Lemma limit_run_app r ts us :
  limit_run r (ts ++ us) =
  let '(r1, o1) := limit_run r ts in let '(r2, o2) := limit_run r1 us in (r2, o1 ++ o2).
Proof.
  revert r. induction ts as [|t ts IH]; intros r; cbn [app limit_run].
  - by destruct (limit_run r us).
  - destruct (allow r t) as [r1 ok]. rewrite IH. destruct (limit_run r1 ts) as [r2 o1].
    by destruct (limit_run r2 us).
Qed.

(** A limiter that has seen a message counts it. *)
Definition limiter_ok (r : rateLimiter) : Prop :=
  (ns (rlWindow r) = 0 /\ rlCount r = 0) \/ (ns (rlWindow r) <> 0 /\ 1 <= rlCount r).

Lemma allow_cases r t :
  let '(r', ok) := allow r t in
  rlLimit r' = rlLimit r /\ ok = (rlCount r' <=? rlLimit r) /\
  ((ns (rlWindow r) = 0 \/ Second <= tSub t (rlWindow r)) /\ rlWindow r' = t /\ rlCount r' = 1 \/
   (ns (rlWindow r) <> 0 /\ tSub t (rlWindow r) < Second) /\ rlWindow r' = rlWindow r /\
   rlCount r' = rlCount r + 1).
Proof.
  unfold allow, tIsZero. cbv zeta. destruct ((ns (rlWindow r) =? 0) || _) eqn:E; cbn [rlLimit rlWindow rlCount].
  - split; [done|]. split; [done|]. left. apply orb_true_iff in E as [?|?]; bool_to_prop; auto.
  - split; [done|]. split; [done|]. right. bool_to_prop. auto.
Qed.

Lemma limit_run_ok r ts :
  Forall (fun t => 0 < ns t) ts -> limiter_ok r ->
  limiter_ok (fst (limit_run r ts)) /\ rlLimit (fst (limit_run r ts)) = rlLimit r.
Proof.
  intros Hts. revert r. induction Hts as [|t ts Ht _ IH]; intros r Hr; [done|]. cbn [limit_run].
  pose proof (allow_cases r t) as Hc. destruct (allow r t) as [r1 ok]. destruct Hc as (Hl & _ & Hc).
  assert (Hr1 : limiter_ok r1).
  { right. destruct Hc as [(_ & -> & ->)|((Hz & _) & -> & ->)]; [lia|]. destruct Hr as [[? _]|[_ ?]]; [done|lia]. }
  destruct (IH r1 Hr1) as [H1 H2]. destruct (limit_run r1 ts) as [r2 oks]. cbn [fst] in *.
  by rewrite H2, Hl.
Qed.

(** Within one window the count decides. *)
Lemma limit_same_window r ts :
  ns (rlWindow r) <> 0 -> Forall (fun t => tSub t (rlWindow r) < Second) ts ->
  accepted (snd (limit_run r ts)) <= Z.max 0 (rlLimit r - rlCount r).
Proof.
  intros Hz Hts. remember (rlWindow r) as w eqn:Ew. revert r Ew.
  induction Hts as [|t ts Ht _ IH]; intros r Ew; [unfold accepted, len; cbn; lia|].
  cbn [limit_run]. pose proof (allow_cases r t) as Hc. destruct (allow r t) as [r1 ok].
  destruct Hc as (Hl & -> & Hc). rewrite <- Ew in Hc.
  destruct Hc as [([?|?] & _)|(_ & Hw & Hn)]; [done|lia|].
  specialize (IH r1 (eq_sym Hw)). destruct (limit_run r1 ts) as [r2 oks]. cbn [snd] in *.
  rewrite accepted_cons, Hl in *. destruct (rlCount r1 <=? rlLimit r) eqn:E; bool_to_prop; lia.
Qed.

(** C38: The message limit is a real one.  Over any stretch of messages that
    arrive within one second, whatever came before, at most twice the limit
    less one are accepted: the windows are fixed, so two of them can meet
    inside the second, but only one can open there. *)
Theorem rate_limit_bound limit before ts t0 :
  1 <= limit -> Forall (fun t => 0 < ns t) (before ++ ts) ->
  Forall (fun t => ns t0 <= ns t < ns t0 + Second) ts ->
  accepted (snd (limit_run (fst (limit_run (newRateLimiter limit) before)) ts)) <= 2 * limit - 1.
Proof.
  intros Hlim Hpos Hts. apply Forall_app in Hpos as [Hb Hp].
  destruct (limit_run_ok (newRateLimiter limit) before Hb) as [Hr Hrl]; [by left|].
  cbn [newRateLimiter rlLimit] in Hrl. revert Hr Hrl.
  generalize (fst (limit_run (newRateLimiter limit) before)). clear Hb before.
  destruct Hts as [|t ts Ht Hts]; intros r Hr Hrl; [unfold accepted, len; cbn; lia|].
  apply Forall_cons in Hp as [Htp Hp].
  (* the bound for a limiter whose window is open: what is left of it, then at most one more window *)
  assert (Hgen : forall us r, Forall (fun t => ns t0 <= ns t < ns t0 + Second) us ->
    Forall (fun t => 0 < ns t) us -> rlLimit r = limit -> ns (rlWindow r) <> 0 -> 1 <= rlCount r ->
    accepted (snd (limit_run r us)) <= Z.max 0 (limit - rlCount r) + limit).
  { clear -Hlim. intros us. induction us as [|u us IH]; intros r Hu Hp Hl Hz Hc; [unfold accepted, len; cbn; lia|].
    apply Forall_cons in Hu as [Hu1 Hu]. apply Forall_cons in Hp as [Hp1 Hp]. cbn [limit_run].
    pose proof (allow_cases r u) as Hcase. destruct (allow r u) as [r1 ok].
    destruct Hcase as (Hl1 & -> & [(_ & Hw & Hn)|(_ & Hw & Hn)]).
    - pose proof (limit_same_window r1 us) as Hs. rewrite Hw in Hs. destruct (limit_run r1 us) as [r2 oks].
      cbn [snd] in *. rewrite accepted_cons, Hl. destruct (rlCount r1 <=? limit) eqn:E; bool_to_prop; [|lia].
      specialize (Hs ltac:(lia)). rewrite Hl1, Hl, Hn in Hs.
      assert (accepted oks <= Z.max 0 (limit - 1)); [|lia]. apply Hs.
      eapply Forall_impl; [exact Hu|]. intros v Hv. cbv beta in *.
      rewrite tSub_small by (unfold in_i64, Second in *; lia). unfold Second in *. lia.
    - specialize (IH r1 Hu Hp ltac:(congruence) ltac:(congruence) ltac:(lia)).
      destruct (limit_run r1 us) as [r2 oks]. cbn [snd] in *. rewrite accepted_cons, Hl.
      destruct (rlCount r1 <=? limit) eqn:E; bool_to_prop; lia. }
  destruct Hr as [[Hz Hc]|[Hz Hc]].
  - cbn [limit_run]. pose proof (allow_cases r t) as Hcase. destruct (allow r t) as [r1 ok].
    destruct Hcase as (Hl1 & -> & [(_ & Hw & Hn)|((? & _) & _)]); [|done].
    pose proof (limit_same_window r1 ts) as Hs. rewrite Hw in Hs. destruct (limit_run r1 ts) as [r2 oks].
    cbn [snd] in *. rewrite accepted_cons, Hrl, Hn. specialize (Hs ltac:(lia)). rewrite Hl1, Hrl, Hn in Hs.
    assert (accepted oks <= Z.max 0 (limit - 1)); [|destruct (1 <=? limit); lia]. apply Hs.
    eapply Forall_impl; [exact Hts|]. intros v Hv. cbv beta in *.
    rewrite tSub_small by (unfold in_i64, Second in *; lia). unfold Second in *. lia.
  - pose proof (Hgen (t :: ts) r ltac:(by constructor) ltac:(by constructor) Hrl Hz Hc). lia.
Qed.

Definition at_ms (n : Z) : Time := unixNanos (n * Millisecond).

(** The bound is reached: with a limit of two, three messages within a second. *)
Lemma rate_limit_bound_witness :
  let ts := [at_ms 1900; at_ms 2000; at_ms 2100; at_ms 2200] in
  accepted (snd (limit_run (fst (limit_run (newRateLimiter 2) [at_ms 1000])) ts)) = 3 /\ 3 <= 2 * 2 - 1.
Proof.
  cbv zeta. split; [vm_compute; reflexivity|].
  pose proof (rate_limit_bound 2 [at_ms 1000] [at_ms 1900; at_ms 2000; at_ms 2100; at_ms 2200] (at_ms 1900)
    ltac:(lia)) as Hw.
  transitivity (accepted (snd (limit_run (fst (limit_run (newRateLimiter 2) [at_ms 1000]))
    [at_ms 1900; at_ms 2000; at_ms 2100; at_ms 2200]))).
  - apply Z.eq_le_incl. vm_compute. reflexivity.
  - apply Hw; repeat constructor; vm_compute; congruence.
Defined.

(** ** The book part of the stream *)

Section Stream.
Context {G : Type} `{RandSource G} {P : Type} `{Policy P}.
Implicit Types s : Session P.

Definition stream s : list Frame := map obFrame (ouTaken (seOutput s) ++ ouQueue (seOutput s)).

(** A client's position (epoch, last applied update); [None] is a gap. *)
Definition follow (pos : option (Z * Z)) (f : Frame) : option (Z * Z) :=
  '(epoch, applied) ← pos;
  match frPayload f with
  | PSnapshot p => Some (osEpoch p, osUpdateID p)
  | PDelta p =>
      if negb (odEpoch p =? epoch) then None
      else if odLastUpdateID p <=? applied then Some (epoch, applied)
      else if applied + 1 <? odFirstUpdateID p then None
      else Some (epoch, odLastUpdateID p)
  | _ => Some (epoch, applied)
  end.
Definition follow_all (fs : list Frame) : option (Z * Z) := foldl follow (Some (0, 0)) fs.

Definition is_book (f : Frame) : bool :=
  match frPayload f with PSnapshot _ | PDelta _ => true | _ => false end.

(** No injected gap, no reversed pair. *)
Definition quiet s : Prop :=
  fcSkipBookDeltas (fsFaults (seFaults s)) = 0 /\ fcReverseDeltas (fsFaults (seFaults s)) = false /\
  fsHeldDelta (seFaults s) = None.

Definition bounded s : Prop :=
  1 <= scOutboundCapacity (seCfg s) /\ len (ouQueue (seOutput s)) <= scOutboundCapacity (seCfg s).

(** What always holds, and what holds while the client is in step with the
    coalescer. *)
Definition sound s : Prop :=
  quiet s /\ bounded s /\ is_Some (follow_all (stream s)) /\
  0 <= coClientApplied (seCoalescer s) /\ 0 <= coUpdateID (seCoalescer s).
Definition in_step s : Prop :=
  sound s /\ coNeedsSnapshot (seCoalescer s) = false /\
  follow_all (stream s) = Some (coEpoch (seCoalescer s), coClientApplied (seCoalescer s)).

(** ** Triples *)

Section Env.
Context (ev : Env G).

(** Update ids are [uint64], and the writer takes something while a critical
    frame waits. *)
Definition env_ok : Prop :=
  (forall id e, evMarkets ev !! id = Some e -> 0 <= bkUpdateID (enBook e)) /\
  (forall seq, evWait ev seq <> O).

Definition triple {A} (Pre : Session P -> Prop) (act : Act (G := G) A) (Post : A -> Session P -> Prop) : Prop :=
  forall s a s' es, Pre s -> act ev s = Some (a, s', es) -> Post a s'.

Lemma triple_bind {A B} (m : Act A) (f : A -> Act B) Pre Mid Post :
  triple Pre m Mid -> (forall a, triple (Mid a) (f a) Post) -> triple Pre (m ≫= f) Post.
Proof.
  intros Hm Hf s b s' es Hs. unfold mbind, act_bind. destruct (m ev s) as [[[a s1] es1]|] eqn:E1; [|done].
  destruct (f a ev s1) as [[[b' s2] es2]|] eqn:E2; [|done]. intros [= <- <- <-].
  eapply Hf; [|exact E2]. by eapply Hm.
Qed.

Lemma triple_ret {A} (a : A) (Pre : Session P -> Prop) : triple Pre (mret a) (fun _ => Pre).
Proof. intros s b s' es Hs [= <- <- <-]. done. Qed.
Lemma triple_skip (Pre : Session P -> Prop) : triple Pre skip (fun _ => Pre).
Proof. apply triple_ret. Qed.
Lemma triple_emit e (Pre : Session P -> Prop) : triple Pre (emit e) (fun _ => Pre).
Proof. intros s b s' es Hs [= <- <- <-]. done. Qed.
Lemma triple_get (Pre : Session P -> Prop) : triple Pre get (fun a s => Pre s /\ a = s).
Proof. intros s b s' es Hs [= <- <- <-]. done. Qed.
Lemma triple_get_any (Pre : Session P -> Prop) : triple Pre get (fun _ => Pre).
Proof. intros s b s' es Hs [= <- <- <-]. done. Qed.
Lemma triple_get_fact (Pre : Session P -> Prop) (phi : Session P -> Prop) :
  (forall s, Pre s -> phi s) -> triple Pre get (fun a s => Pre s /\ phi a).
Proof. intros Hf s b s' es Hs [= <- <- <-]. auto. Qed.
Lemma triple_now (Pre : Session P -> Prop) : triple Pre now_ (fun _ => Pre).
Proof. intros s b s' es Hs [= <- <- <-]. done. Qed.
Lemma triple_modify f (Pre Post : Session P -> Prop) :
  (forall s, Pre s -> Post (f s)) -> triple Pre (modify f) (fun _ => Post).
Proof. intros Hf s b s' es Hs [= <- <- <-]. auto. Qed.
Lemma triple_lift {A} (o : option A) (Pre : Session P -> Prop) : triple Pre (lift o) (fun _ => Pre).
Proof. intros s b s' es Hs. unfold lift. destruct o; [|done]. by intros [= <- <- <-]. Qed.
Lemma triple_engine (Pre : Session P -> Prop) :
  triple Pre engine (fun e s => Pre s /\ exists id, evMarkets ev !! id = Some e).
Proof.
  intros s b s' es Hs. unfold engine, engine_of. destruct (bnEngine _) as [id|]; simpl; [|done].
  destruct (evMarkets ev !! id) as [e|] eqn:E; [|done]. intros [= <- <- <-]. eauto.
Qed.
Lemma triple_when c (a : Act unit) (Pre : Session P -> Prop) Post :
  (c = true -> triple Pre a (fun _ => Post)) -> (c = false -> forall s, Pre s -> Post s) ->
  triple Pre (when c a) (fun _ => Post).
Proof.
  intros Ht Hf. unfold when. destruct c; [by apply Ht|]. intros s b s' es Hs [= <- <- <-]. auto.
Qed.
Lemma triple_conseq {A} (act : Act A) (Pre Pre' : Session P -> Prop) Post Post' :
  triple Pre' act Post' -> (forall s, Pre s -> Pre' s) -> (forall a s, Post' a s -> Post a s) ->
  triple Pre act Post.
Proof. intros Ht H1 H2 s a s' es Hs E. apply H2. eapply Ht; [by apply H1|exact E]. Qed.

Lemma triple_pure {A} (phi : Prop) (Pre : Session P -> Prop) (act : Act A) Post :
  (phi -> triple Pre act Post) -> triple (fun s => Pre s /\ phi) act Post.
Proof. intros Ht s a s' es [Hs Hp]. by apply Ht. Qed.

(** ** Invariants that do not look at the state a step changes *)

(** [Inv] depends only on the stream, the queue, the coalescer's position and
    the book faults. *)
Definition position s :=
  (coEpoch (seCoalescer s), coUpdateID (seCoalescer s), coClientApplied (seCoalescer s),
   coNeedsSnapshot (seCoalescer s)).

Definition core s := (seOutput s, position s, seFaults s, seCfg s).

Lemma sound_core s s' : core s' = core s -> sound s -> sound s'.
Proof.
  intros [= E1 E2 E3 E4 E5 E6 E7]. unfold sound, quiet, bounded, stream.
  by rewrite E1, E3, E4, E6, E7.
Qed.
Lemma in_step_core s s' : core s' = core s -> in_step s -> in_step s'.
Proof.
  intros Hc (Hs & Hn & Hf). pose proof Hc as [= E1 E2 E3 E4 E5 E6 E7].
  split; [by eapply sound_core|]. unfold stream in *. by rewrite E1, E2, E4, E5.
Qed.

(** Both invariants are preserved by the same steps: [either b]. *)
Definition either (b : bool) s : Prop := if b then in_step s else sound s.
Lemma either_core b s s' : core s' = core s -> either b s -> either b s'.
Proof. destruct b; [apply in_step_core|apply sound_core]. Qed.
Lemma either_sound b s : either b s -> sound s.
Proof. destruct b; [by intros [? _]|done]. Qed.

(** ** Sending frames that are not book frames *)

Lemma follow_other pos f : is_book f = false -> follow pos f = pos.
Proof. unfold follow, is_book. destruct pos as [[e a]|]; [|done]. simpl. by destruct (frPayload f). Qed.

Lemma follow_all_snoc fs f : follow_all (fs ++ [f]) = follow (follow_all fs) f.
Proof. unfold follow_all. by rewrite foldl_app. Qed.

(** A queued frame ends the stream, whether or not the queue had to drain. *)
Lemma stream_push m s : stream (with_output (push m) s) = stream s ++ [obFrame m].
Proof. unfold stream. cbn [with_output push seOutput ouQueue ouTaken]. by rewrite app_assoc, !map_app. Qed.
Lemma stream_drain n m s :
  stream (with_output (fun o => push m (take_out n o)) s) = stream s ++ [obFrame m].
Proof.
  unfold stream. cbn [with_output push take_out seOutput ouQueue ouTaken].
  by rewrite app_assoc, <- (app_assoc (ouTaken _)), take_drop, !map_app.
Qed.

(** The outcome of a send: queued at the end, or refused with everything but
    the drop counter unchanged; a critical frame is not refused. *)
Lemma enqueue_spec (Pre : Session P -> Prop) m :
  env_ok -> (forall s, Pre s -> bounded s) ->
  triple Pre (enqueue m) (fun ok s' => exists s, Pre s /\ bounded s' /\ (obCritical m = true -> ok = true) /\
    seFaults s' = seFaults s /\ seCfg s' = seCfg s /\ seCoalescer s' = seCoalescer s /\
    stream s' = if ok : bool then stream s ++ [obFrame m] else stream s).
Proof.
  intros [_ Hwait] Hb s a s' es Hs. destruct (Hb s Hs) as [Hc Hl]. unfold enqueue, has_space.
  destruct (len (ouQueue (seOutput s)) <? _) eqn:Esp; bool_to_prop.
  { intros [= <- <- <-]. exists s. split_and!; try done; [|apply stream_push].
    split; [done|]. cbn. unfold len in *. rewrite length_app. simpl. lia. }
  destruct (obCritical m) eqn:Em.
  - case_bool_decide as Ew; [by apply Hwait in Ew|]. intros [= <- <- <-]. exists s.
    split_and!; try done; [|apply stream_drain]. split; [done|]. cbn. unfold len in *.
    rewrite length_app, length_drop. simpl. lia.
  - intros [= <- <- <-]. exists s. split_and!; try done.
Qed.

Lemma frame_spec (b : bool) kind payload :
  triple (either b) (frame kind payload) (fun f s => either b s /\
    match f with Some f => frPayload f = payload /\ frType f = kind | None => True end).
Proof.
  intros s a s' es Hs. unfold frame, nextSeq, now_, mbind, act_bind, mret, act_ret.
  intros [= <- <- <-]. split.
  - destruct b; cbn in *; [|exact Hs]. exact Hs.
  - unfold Encode. by destruct (forallb _ _).
Qed.

Lemma enqueue_other b m :
  env_ok -> is_book (obFrame m) = false ->
  triple (either b) (enqueue m) (fun ok s => either b s /\ (obCritical m = true -> ok = true)).
Proof.
  intros Hok Hm. eapply triple_conseq;
    [apply (enqueue_spec (either b)); [done|intros s Hs; by apply either_sound in Hs as (_ & ? & _)]|done|].
  intros ok s' (s & Hs & Hb & Hc & E1 & E2 & E3 & E4). split; [|done].
  assert (Hf : follow_all (stream s') = follow_all (stream s))
    by (rewrite E4; destruct ok; [rewrite follow_all_snoc; by apply follow_other|done]).
  destruct b; cbn [either] in *; unfold in_step, sound, quiet in *;
    rewrite Hf, E1, E3; tauto.
Qed.

Lemma send_other b kind payload critical :
  env_ok -> is_book (mkFrame kind 0 [] 0 payload) = false ->
  triple (either b) (send kind payload critical) (fun _ => either b).
Proof.
  intros Hok Hp. unfold send. eapply triple_bind; [apply frame_spec|]. intros [f|]; apply triple_pure.
  - intros [Hf _]. eapply triple_bind; [|intros; apply triple_skip].
    eapply triple_conseq; [apply (enqueue_other b (mkOutbound f critical) Hok)| |].
    + unfold is_book in *. cbn [obFrame frPayload] in *. by rewrite Hf.
    + done.
    + by intros ? ? [? _].
  - intros _. apply triple_skip.
Qed.

(** ** Book frames *)

(** What a step sees that does not look at sequence numbers and counters. *)
Definition same_view s s' : Prop :=
  stream s' = stream s /\ ouQueue (seOutput s') = ouQueue (seOutput s) /\
  seFaults s' = seFaults s /\ seCfg s' = seCfg s /\ seCoalescer s' = seCoalescer s.

Lemma frame_view (Pre : Session P -> Prop) kind payload :
  (forall s s', Pre s -> same_view s s' -> Pre s') -> payload_floats payload = [] ->
  triple Pre (frame kind payload) (fun f s => Pre s /\ exists f', f = Some f' /\ frPayload f' = payload).
Proof.
  intros Hv Hp s a s' es Hs. unfold frame, nextSeq, now_, mbind, act_bind, mret, act_ret, Encode. rewrite Hp.
  cbn [forallb]. intros [= <- <- <-]. split; [|by eexists]. by eapply Hv.
Qed.

(** A critical book frame is queued. *)
Lemma send_book kind payload (Pre Post : Session P -> Prop) :
  env_ok -> payload_floats payload = [] ->
  (forall s s', Pre s -> same_view s s' -> Pre s') -> (forall s, Pre s -> bounded s) ->
  (forall s s' f, Pre s -> frPayload f = payload -> bounded s' -> seFaults s' = seFaults s ->
     seCoalescer s' = seCoalescer s -> stream s' = stream s ++ [f] -> Post s') ->
  triple Pre (send kind payload true) (fun _ => Post).
Proof.
  intros Hok Hp Hv Hb Hpost. unfold send. eapply triple_bind; [by apply frame_view|].
  intros f. apply triple_pure. intros (f' & -> & Hf). eapply triple_bind; [|intros; apply triple_skip].
  eapply triple_conseq; [apply (enqueue_spec Pre (mkOutbound f' true) Hok Hb)|done|].
  intros ok s' (s & Hs & Hb' & Hc & E1 & _ & E3 & E4). rewrite (Hc eq_refl) in E4. by eapply Hpost.
Qed.

Lemma sound_view s s' : sound s -> same_view s s' -> sound s'.
Proof.
  unfold sound, quiet, bounded. intros Hs (E1 & E2 & E3 & E4 & E5). by rewrite E1, E2, E3, E4, E5.
Qed.

Lemma follow_snapshot pos f sym snap :
  is_Some pos -> frPayload f = PSnapshot (SnapshotPayloadFrom sym snap) ->
  follow pos f = Some (snEpoch snap, snUpdateID snap).
Proof. intros [[e a] ->] Hf. unfold follow. simpl. by rewrite Hf. Qed.

Lemma sendSnapshot_spec : env_ok -> triple sound sendSnapshot (fun _ => in_step).
Proof.
  intros Hok. unfold sendSnapshot. eapply triple_bind; [apply triple_engine|]. intros e.
  apply triple_pure. intros [id He]. pose proof (proj1 Hok _ _ He) as Hid.
  eapply triple_bind; [apply triple_get_any|]. intros s0.
  eapply triple_bind; [apply triple_now|]. intros now. cbv zeta. set (snap := mkSnapshot _ _ _ _ _ _).
  eapply triple_bind with (Mid := fun _ s => sound s /\
    follow_all (stream s) = Some (snEpoch snap, snUpdateID snap)).
  - eapply (send_book _ _ sound); [done|done|apply sound_view|by intros s (_ & ? & _)|].
    intros s s' f (Hq & Hb & Hf & Ha & Hu) Hp Hb' E1 E3 E4.
    assert (Hfl : follow_all (stream s') = Some (snEpoch snap, snUpdateID snap))
      by (rewrite E4, follow_all_snoc; by eapply follow_snapshot).
    split; [|done]. unfold sound, quiet in *. rewrite E1, E3, Hfl.
    split_and!; try tauto; by eexists.
  - intros _. apply triple_bind with (Mid := fun _ => in_step); [|intros _; apply triple_emit].
    apply triple_modify.
    intros s [(Hq & Hb & Hf & _ & _) Hfl]. split; [|by split]. by split_and!.
Qed.

Lemma requestResync_spec : env_ok -> triple sound requestResync (fun _ => in_step).
Proof.
  intros Hok. unfold requestResync. apply triple_bind with (Mid := fun _ => sound); [apply triple_emit|].
  intros u. apply triple_bind with (Mid := fun _ => sound); [|intros v; by apply sendSnapshot_spec].
  apply triple_modify. intros s (Hq & Hb & Hf & _ & _). by split_and!.
Qed.

(** ** Steps that leave the book alone *)

Lemma either_modify b f :
  (forall s, core (f s) = core s) -> triple (either b) (modify f) (fun _ => either b).
Proof. intros Hf. apply triple_modify. intros s. by apply either_core. Qed.

Lemma either_coalescer b f :
  (forall c, (coEpoch (f c), coUpdateID (f c), coClientApplied (f c), coNeedsSnapshot (f c)) =
             (coEpoch c, coUpdateID c, coClientApplied c, coNeedsSnapshot c)) ->
  triple (either b) (on_coalescer f) (fun _ => either b).
Proof.
  intros Hf. apply triple_modify. intros s. apply either_core. unfold core, position.
  cbn [with_coalescer seCoalescer seOutput seFaults seCfg]. by rewrite Hf.
Qed.

Lemma OnCandle_position k c :
  (coEpoch (OnCandle c k), coUpdateID (OnCandle c k), coClientApplied (OnCandle c k),
   coNeedsSnapshot (OnCandle c k)) =
  (coEpoch c, coUpdateID c, coClientApplied c, coNeedsSnapshot c).
Proof. unfold OnCandle. destruct (_ !! _); [|done]. by destruct (superseded _ _). Qed.

Lemma OnTrade_position t n c :
  (coEpoch (OnTrade c t n), coUpdateID (OnTrade c t n), coClientApplied (OnTrade c t n),
   coNeedsSnapshot (OnTrade c t n)) =
  (coEpoch c, coUpdateID c, coClientApplied c, coNeedsSnapshot c).
Proof. unfold OnTrade. by destruct (_ && _). Qed.

Lemma consume_other b read clear :
  (forall f, fcSkipBookDeltas (clear f) = fcSkipBookDeltas f /\
             fcReverseDeltas (clear f) = fcReverseDeltas f) ->
  triple (either b) (consumeBoolFault read clear) (fun _ => either b).
Proof.
  intros Hc s a s' es Hs. unfold consumeBoolFault. destruct (read _); [|by intros [= <- <- <-]].
  intros [= <- <- <-]. destruct (Hc (fsFaults (seFaults s))) as [E1 E2].
  destruct b; cbn [either] in *; unfold in_step, sound, quiet in *;
    cbn [with_faults set_fault seFaults fsFaults fsHeldDelta] in *; rewrite E1, E2; exact Hs.
Qed.

Create HintDb session.
#[local] Hint Resolve triple_skip triple_emit triple_now triple_get_any triple_lift : session.

(** [walk] goes through a handler that keeps [either b]. *)
Ltac walk :=
  repeat match goal with
  | |- triple _ (_ ≫= _) _ => eapply triple_bind; [solve [eauto with session]|intros ?; cbv beta]
  | |- triple _ (when _ _) _ => apply triple_when; [intros _|by intros _]
  | |- triple _ (match ?x with _ => _ end) _ => destruct x
  | |- triple _ (let '(_, _) := ?x in _) _ => destruct x
  | |- triple _ skip _ => apply triple_skip
  end; try solve [eauto with session].

Lemma send_keeps b kind payload critical :
  env_ok -> is_book (mkFrame kind 0 [] 0 payload) = false ->
  triple (either b) (send kind payload critical) (fun _ => either b).
Proof. apply send_other. Qed.

Lemma enqueue_keeps b m :
  env_ok -> is_book (obFrame m) = false -> triple (either b) (enqueue m) (fun _ => either b).
Proof. intros Hok Hm. eapply triple_conseq; [by apply (enqueue_other b m)|done|by intros ? ? [? _]]. Qed.

Lemma engine_keeps b : triple (either b) engine (fun _ => either b).
Proof. eapply triple_conseq; [apply triple_engine|done|by intros ? ? [? _]]. Qed.
#[local] Hint Resolve engine_keeps : session.

Lemma stats_keeps b :
  triple (either b) (modify (fun s => with_coalescer (fst (Stats (seCoalescer s))) s)) (fun _ => either b).
Proof. by apply either_modify. Qed.
#[local] Hint Resolve stats_keeps : session.

Lemma sendHealth_keeps b : env_ok -> triple (either b) sendHealth (fun _ => either b).
Proof. intros Hok. unfold sendHealth. walk. by apply send_keeps. Qed.

Lemma transition_keeps b step : triple (either b) (transition step) (fun _ => either b).
Proof.
  intros s t s' es Hs. unfold transition. destruct (step (seTier s)) as [m t']. intros [= <- <- <-].
  by eapply either_core; [|exact Hs].
Qed.

Lemma binding_keeps b f : triple (either b) (modify (with_binding f)) (fun _ => either b).
Proof. by apply either_modify. Qed.
Lemma accounting_keeps b f : triple (either b) (modify (with_accounting f)) (fun _ => either b).
Proof. by apply either_modify. Qed.
Lemma retune_keeps b x : triple (either b) (modify (with_retune x)) (fun _ => either b).
Proof. by apply either_modify. Qed.
Lemma health_keeps b f : triple (either b) (modify (fun s => with_health (f (seHealth s)) s)) (fun _ => either b).
Proof. by apply either_modify. Qed.
Lemma suppress_keeps b n : triple (either b) (suppress n) (fun _ => either b).
Proof. apply accounting_keeps. Qed.
#[local] Hint Resolve transition_keeps binding_keeps accounting_keeps retune_keeps health_keeps
  suppress_keeps : session.

Lemma onTierChanged_keeps b t : env_ok -> triple (either b) (onTierChanged t) (fun _ => either b).
Proof. intros Hok. unfold onTierChanged. walk. by apply sendHealth_keeps. Qed.

Lemma errors_keeps b f :
  (forall o, (ouQueue (f o), ouTaken (f o)) = (ouQueue o, ouTaken o)) ->
  triple (either b) (modify (with_output f)) (fun _ => either b).
Proof.
  intros Hf. apply triple_modify. intros s Hs. pose proof (Hf (seOutput s)) as [= E1 E2].
  destruct b; cbn [either] in *; unfold in_step, sound, quiet, bounded, stream in *;
    cbn [with_output seOutput seFaults seCfg seCoalescer]; by rewrite E1, E2.
Qed.

Lemma sendError_keeps b e : env_ok -> triple (either b) (sendError e) (fun _ => either b).
Proof.
  intros Hok. unfold sendError. eapply triple_bind; [by apply errors_keeps|]. intros ?. by apply send_keeps.
Qed.

Lemma frame_other b kind payload (k : option Frame -> Act (G := G) unit) :
  is_book (mkFrame kind 0 [] 0 payload) = false ->
  triple (either b) (k None) (fun _ => either b) ->
  (forall f, is_book f = false -> triple (either b) (k (Some f)) (fun _ => either b)) ->
  triple (either b) (frame kind payload ≫= k) (fun _ => either b).
Proof.
  intros Hp Hn Hs. eapply triple_bind; [apply frame_spec|]. intros [f|]; apply triple_pure; [|done].
  intros [Hf _]. apply Hs. unfold is_book in *. cbn [frPayload] in Hp. by rewrite Hf.
Qed.

Lemma candle_keeps b f : triple (either b) (on_coalescer (fun c => OnCandle c f)) (fun _ => either b).
Proof. apply either_coalescer. intros c. apply OnCandle_position. Qed.
#[local] Hint Resolve candle_keeps : session.

Lemma take_candle_keeps b : triple (either b) take_candle (fun _ => either b).
Proof.
  intros s k s' es Hs. unfold take_candle, TakeCandle. destruct (_ !! _); intros [= <- <- <-];
    by eapply either_core; [|exact Hs].
Qed.
Lemma take_trades_keeps b : triple (either b) take_trades (fun _ => either b).
Proof.
  intros s k s' es Hs. unfold take_trades, TakeTrades. destruct (coTrades _); intros [= <- <- <-];
    by eapply either_core; [|exact Hs].
Qed.
#[local] Hint Resolve take_candle_keeps take_trades_keeps : session.

Lemma flushCandles_keeps b : env_ok -> triple (either b) flushCandles (fun _ => either b).
Proof.
  intros Hok. unfold flushCandles. walk. generalize 2%nat. induction n as [|n IH]; cbn [flush_candles]; [walk|].
  walk. apply frame_other; [done|exact IH|]. intros f Hf.
  eapply triple_bind; [by apply enqueue_keeps|]. intros [|]; [exact IH|]. walk.
Qed.

Lemma send_trades_keeps b ts : env_ok -> triple (either b) (send_trades ts) (fun _ => either b).
Proof.
  intros Hok. induction ts as [|t ts IH]; cbn [send_trades]; walk. apply frame_other; [done|exact IH|].
  intros f Hf. eapply triple_bind; [by apply enqueue_keeps|]. intros [|]; [exact IH|]. walk.
Qed.

Lemma flushTrades_keeps b : env_ok -> triple (either b) flushTrades (fun _ => either b).
Proof.
  intros Hok. unfold flushTrades. walk; [by apply send_trades_keeps|..];
    (apply frame_other; [done|walk|]; intros f Hf; eapply triple_bind; [by apply enqueue_keeps|];
     intros ok; walk).
Qed.

Lemma flushSummary_keeps b : env_ok -> triple (either b) flushSummary (fun _ => either b).
Proof.
  intros Hok. unfold flushSummary. walk. apply frame_other; [done|walk|]. intros f Hf.
  eapply triple_bind; [by apply enqueue_keeps|]. intros ?. walk.
Qed.

(** ** Book deltas *)

(** A delta taken and not yet queued: the client is one range behind. *)
Definition pending (d : BookDelta) s : Prop :=
  sound s /\ coNeedsSnapshot (seCoalescer s) = false /\
  bdEpoch d = coEpoch (seCoalescer s) /\ bdLast d = coClientApplied (seCoalescer s) /\
  exists a, follow_all (stream s) = Some (bdEpoch d, a) /\ a < bdLast d /\ bdFirst d <= a + 1.

Lemma pending_view d s s' : pending d s -> same_view s s' -> pending d s'.
Proof.
  unfold pending. intros (Hs & Hp) Hv. split; [by eapply sound_view|].
  destruct Hv as (E1 & _ & _ & _ & E5). by rewrite E1, E5.
Qed.

Lemma take_delta_spec :
  triple in_step take_delta (fun od s => match od with None => in_step s | Some d => pending d s end).
Proof.
  intros s od s' es (Hs & Hn & Hf). unfold take_delta, TakeBookDelta.
  rewrite Hn, orb_false_r. destruct (negb (coBookDirty (seCoalescer s))); [by intros [= <- <- <-]|].
  destruct (coUpdateID (seCoalescer s) <=? coClientApplied (seCoalescer s)) eqn:Eu;
    [intros [= <- <- <-]; by eapply (in_step_core s)|]. cbv zeta.
  destruct (_ && _); [intros [= <- <- <-]; by eapply (in_step_core s)|]. bool_to_prop.
  intros [= <- <- <-]. destruct Hs as (Hq & Hb & Hi & Ha & Hu).
  split; [by split_and!|]. split; [done|]. split; [done|]. split; [done|].
  exists (coClientApplied (seCoalescer s)). split; [exact Hf|]. cbn [bdLast bdFirst]. split; [lia|].
  unfold u64. pose proof (Z.mod_le (coClientApplied (seCoalescer s) + 1) two64). lia.
Qed.

Lemma follow_delta e a d sym f :
  bdEpoch d = e -> a < bdLast d -> bdFirst d <= a + 1 ->
  frPayload f = PDelta (DeltaPayloadFrom sym (bdEpoch d) (bdFirst d) (bdLast d) (bdBids d) (bdAsks d)) ->
  follow (Some (e, a)) f = Some (e, bdLast d) /\ follow (Some (e, bdLast d)) f = Some (e, bdLast d).
Proof.
  intros <- Hl Hf Hp. unfold follow. simpl. rewrite Hp. cbn [odEpoch odFirstUpdateID odLastUpdateID DeltaPayloadFrom].
  rewrite Z.eqb_refl. cbn [negb]. rewrite (proj2 (Z.leb_gt (bdLast d) a)) by lia.
  rewrite (proj2 (Z.ltb_ge (a + 1) _)) by lia. by rewrite Z.leb_refl.
Qed.

Lemma in_step_quiet s : in_step s -> quiet s.
Proof. by intros [[? _] _]. Qed.
Lemma pending_quiet d s : pending d s -> quiet s.
Proof. by intros [[? _] _]. Qed.

Lemma no_reverse (Pre : Session P -> Prop) :
  (forall s, Pre s -> quiet s) ->
  triple Pre (consumeBoolFault fcReverseDeltas clear_reverse) (fun x s => Pre s /\ x = false).
Proof.
  intros Hq s x s' es Hs. unfold consumeBoolFault. destruct (Hq s Hs) as (_ & -> & _).
  by intros [= <- <- <-].
Qed.

(** The delta is the last book frame of the stream: sending it again changes
    nothing for the client. *)
Definition repeatable (f : Frame) s : Prop :=
  in_step s /\ follow (follow_all (stream s)) f = follow_all (stream s).

Lemma repeatable_core f s s' : core s' = core s -> repeatable f s -> repeatable f s'.
Proof.
  intros Hc [Hs Hd]. split; [by eapply in_step_core|]. unfold stream in *.
  injection Hc as [= E _ _ _ _ _ _]. by rewrite E.
Qed.

Lemma queue_delta d sym f :
  env_ok ->
  frPayload f = PDelta (DeltaPayloadFrom sym (bdEpoch d) (bdFirst d) (bdLast d) (bdBids d) (bdAsks d)) ->
  triple (pending d) (enqueue (mkOutbound f true)) (fun ok s => repeatable f s /\ ok = true).
Proof.
  intros Hok Hp. eapply triple_conseq; [apply (enqueue_spec (pending d) (mkOutbound f true) Hok);
    by intros s ((_ & ? & _) & _)|done|].
  intros ok s' (s & (Hs & Hn & He & Hl & a & Hf & Hal & Hfa) & Hb & Hc & E1 & _ & E3 & E4).
  rewrite (Hc eq_refl) in *. cbn [obFrame] in E4.
  destruct (follow_delta _ a d sym f eq_refl Hal Hfa Hp) as [F1 F2].
  assert (Hfl : follow_all (stream s') = Some (bdEpoch d, bdLast d)).
  { rewrite E4, follow_all_snoc, Hf. exact F1. }
  split; [|done]. split; [|by rewrite Hfl, F2]. unfold in_step, sound, quiet in *.
  rewrite E1, E3, Hfl, He, Hl. split_and!; try tauto; by eexists.
Qed.

Lemma queue_duplicate f :
  env_ok -> triple (repeatable f) (enqueue (mkOutbound f true)) (fun _ => in_step).
Proof.
  intros Hok. eapply triple_conseq; [apply (enqueue_spec (repeatable f) (mkOutbound f true) Hok);
    by intros s [((_ & ? & _) & _) _]|done|].
  intros ok s' (s & [Hs Hd] & Hb & Hc & E1 & _ & E3 & E4). rewrite (Hc eq_refl) in E4. cbn [obFrame] in E4.
  assert (Hfl : follow_all (stream s') = follow_all (stream s)) by (rewrite E4, follow_all_snoc; exact Hd).
  unfold in_step, sound, quiet in *. rewrite Hfl, E1, E3. tauto.
Qed.

Lemma send_delta_spec d sym f :
  env_ok ->
  frPayload f = PDelta (DeltaPayloadFrom sym (bdEpoch d) (bdFirst d) (bdLast d) (bdBids d) (bdAsks d)) ->
  triple (pending d) (send_delta d f) (fun _ => in_step).
Proof.
  intros Hok Hp. unfold send_delta.
  eapply triple_bind; [apply no_reverse, pending_quiet|]. intros x. apply triple_pure. intros ->.
  eapply triple_bind; [apply (triple_get_fact _ (fun s => fsHeldDelta (seFaults s) = None));
    by intros s (_ & _ & ?)%pending_quiet|].
  intros s0. apply triple_pure. intros ->.
  eapply triple_bind; [by eapply queue_delta|]. intros ok. apply triple_pure. intros ->.
  apply triple_bind with (Mid := fun _ => repeatable f).
  { apply triple_modify. intros s. by apply repeatable_core. }
  intros u. apply triple_bind with (Mid := fun _ => repeatable f).
  { intros s x s' es Hs. unfold consumeBoolFault. destruct (fcDuplicateDelta _); by intros [= <- <- <-]. }
  intros [|].
  - eapply triple_bind; [apply triple_emit|]. intros v.
    eapply triple_bind; [by apply queue_duplicate|intros; apply triple_skip].
  - apply triple_modify. by intros s [Hs _].
Qed.

Lemma flushBook_spec : env_ok -> triple in_step flushBook (fun _ => in_step).
Proof.
  intros Hok. unfold flushBook, flush_skip.
  apply triple_bind with (Mid := fun _ => in_step).
  { eapply triple_bind; [apply (triple_get_fact _ (fun s => fcSkipBookDeltas (fsFaults (seFaults s)) = 0));
      by intros s (? & _)%in_step_quiet|].
    intros s0. apply triple_pure. intros ->. apply triple_skip. }
  intros u. apply triple_bind with (Mid := fun _ => in_step).
  { apply triple_modify. intros s Hs. destruct (in_step_quiet s Hs) as (E & _). unfold in_step, sound, quiet in *.
    cbn [clear_skip with_faults set_fault seFaults fsFaults fcSkipBookDeltas fcReverseDeltas fsHeldDelta]. tauto. }
  intros v. eapply triple_bind; [apply take_delta_spec|]. intros [d|]; [|apply triple_skip].
  eapply triple_bind; [apply triple_get_any|]. intros s0.
  eapply triple_bind; [apply (frame_view (pending d)); [apply pending_view|done]|].
  intros f. apply triple_pure. intros (f' & -> & Hf). by eapply send_delta_spec.
Qed.

(** ** The handlers *)

Lemma flush_spec : env_ok -> triple in_step flush (fun _ => in_step).
Proof.
  intros Hok. unfold flush. eapply triple_bind; [by apply flushBook_spec|]. intros ?.
  eapply triple_bind; [by apply (flushCandles_keeps true)|]. intros ?. by apply (flushTrades_keeps true).
Qed.

Lemma resync_keeps : env_ok -> triple in_step requestResync (fun _ => in_step).
Proof. intros Hok. eapply triple_conseq; [by apply requestResync_spec|by intros s [? _]|done]. Qed.

Lemma sendCandleClosed_spec c : env_ok -> triple in_step (sendCandleClosed c) (fun _ => in_step).
Proof.
  intros Hok. change in_step with (either true) at 1. unfold sendCandleClosed. walk.
  apply triple_bind with (Mid := fun _ => in_step).
  - unfold enqueueCritical. eapply triple_bind; [apply (frame_spec true)|]. intros [f|]; apply triple_pure.
    + intros [Hf _]. apply (enqueue_keeps true); [done|]. unfold is_book. cbn [obFrame]. by rewrite Hf.
    + intros _. apply (triple_ret false in_step).
  - intros ok. apply triple_when; [|done]. intros _. eapply triple_bind; [apply triple_emit|]. intros ?.
    by apply resync_keeps.
Qed.

Lemma handleEvent_spec e : env_ok -> triple in_step (handleEvent e) (fun _ => in_step).
Proof.
  intros Hok. destruct e as [t|w|c|c|st]; cbn [handleEvent].
  - change in_step with (either true). walk. apply either_coalescer. intros c. apply OnTrade_position.
  - apply triple_bind with (Mid := fun _ s => sound s /\ (coNeedsSnapshot (seCoalescer s) = false -> in_step s)).
    { apply triple_modify. intros s ((Hq & Hb & Hi & Ha & Hu) & Hn & Hf). unfold OnBookWindow.
      assert (Hmax : forall u, 0 <= u -> 0 <= (if u <? bwUpdateID w then bwUpdateID w else u))
        by (intros u; destruct (u <? bwUpdateID w) eqn:E; bool_to_prop; lia).
      destruct (bwEpoch w =? coEpoch (seCoalescer s)); cbv zeta.
      - assert (Hs : sound (with_coalescer (set_book (seCoalescer s)
          (replaceLevels (coBids (seCoalescer s)) (levelMap (bwBids w)))
          (replaceLevels (coAsks (seCoalescer s)) (levelMap (bwAsks w))) (coSentBids (seCoalescer s))
          (coSentAsks (seCoalescer s)) (coEpoch (seCoalescer s))
          (if coUpdateID (seCoalescer s) <? bwUpdateID w then bwUpdateID w else coUpdateID (seCoalescer s))
          (coClientApplied (seCoalescer s)) true (coNeedsSnapshot (seCoalescer s))) s))
          by (split_and!; try done; by apply Hmax).
        split; [exact Hs|]. intros _. by split.
      - split; [|done]. split_and!; try done. by apply Hmax. }
    intros u. eapply triple_bind; [apply triple_get|]. intros s0 s x s' es [[Hs Hn] ->].
    unfold when, NeedsSnapshot. destruct (coNeedsSnapshot (seCoalescer s)) eqn:E.
    + by apply sendSnapshot_spec.
    + intros [= <- <- <-]. by apply Hn.
  - change in_step with (either true). walk.
  - change in_step with (either true). walk.
    eapply triple_bind; [by apply consume_other|]. intros [|]; [walk|]. by apply sendCandleClosed_spec.
  - by apply (send_keeps true).
Qed.

Lemma announce_spec sym iv : env_ok -> triple sound (announce sym iv) (fun _ => in_step).
Proof.
  intros Hok. unfold announce. eapply triple_bind; [by apply sendSnapshot_spec|]. intros ?.
  change in_step with (either true). walk.
  eapply triple_bind; [by apply (send_keeps true)|]. intros ?.
  apply triple_bind with (Mid := fun _ => in_step).
  - match goal with |- triple _ (match ?x with _ => _ end) _ => destruct x end; [|apply triple_skip].
    unfold sendCandleUpdate. change in_step with (either true). walk. by apply (send_keeps true).
  - intros ?. by apply (flushSummary_keeps true).
Qed.

Lemma bindEngine_spec e sym : triple sound (bindEngine e sym) (fun _ => sound).
Proof.
  unfold bindEngine. eapply triple_bind; [apply triple_get_any|]. intros s0.
  apply triple_bind with (Mid := fun _ => sound).
  { destruct (bnEngine (seBinding s0)); [apply triple_emit|apply triple_skip]. }
  intros u. apply triple_bind with (Mid := fun _ => sound); [|intros; apply triple_emit].
  apply triple_modify. intros s (Hq & Hb & Hi & _). by split_and!.
Qed.

Lemma handleSubscribe_spec sy iv cs : env_ok -> triple in_step (handleSubscribe sy iv cs) (fun _ => in_step).
Proof.
  intros Hok. unfold handleSubscribe. eapply triple_bind; [apply triple_get_any|]. intros s0.
  destruct (resolveMarket s0 sy) as [[e sym]|]; [|by apply (sendError_keeps true)].
  destruct (ParseInterval iv) as [i|]; [|by apply (sendError_keeps true)].
  destruct (match cs with Some _ => _ | None => _ end); [by apply (sendError_keeps true)|]. cbv zeta.
  eapply triple_bind; [by apply (binding_keeps true)|]. intros ?.
  apply triple_bind with (Mid := fun _ => sound); [|intros; by apply announce_spec].
  apply triple_when; intros _; [|by intros s [? _]].
  eapply triple_conseq; [apply bindEngine_spec|by intros s [? _]|done].
Qed.

Lemma handleCommand_spec m : env_ok -> triple in_step (handleCommand m) (fun _ => in_step).
Proof.
  intros Hok. destruct m; cbn [handleCommand].
  - apply triple_emit.
  - by apply handleSubscribe_spec.
  - eapply triple_bind; [by apply (binding_keeps true)|]. intros ?. by apply (send_keeps true).
  - eapply triple_bind; [apply triple_get_any|]. intros ?. by apply handleSubscribe_spec.
  - apply triple_skip.
  - change in_step with (either true). unfold handleLatencyReport. cbv zeta. walk.
    apply triple_bind with (Mid := fun _ => either true); [by apply either_modify|]. intros ?. walk.
    apply triple_bind with (Mid := fun _ => either true); [walk|]. intros ?.
    walk. by apply onTierChanged_keeps.
  - change in_step with (either true). unfold handleTierOverride.
    walk; first [by apply sendError_keeps | by apply onTierChanged_keeps | by apply sendHealth_keeps].
Qed.

Lemma loop_step_spec i : env_ok -> triple in_step (loop_step i) (fun _ => in_step).
Proof.
  intros Hok. destruct i; cbn [loop_step].
  - by apply handleCommand_spec.
  - by apply handleEvent_spec.
  - by apply flush_spec.
  - by apply (sendHealth_keeps true).
  - change in_step with (either true). unfold watchdog. walk.
    apply triple_bind with (Mid := fun _ => either true); [walk; by apply onTierChanged_keeps|].
    intros ?. by apply either_modify.
  - by apply (flushSummary_keeps true).
  - change in_step with (either true). walk. by apply send_keeps.
  - change in_step with (either true). unfold recordDeliveryWindow. walk.
  - change in_step with (either true). walk.
Qed.
End Env.

(** ** A session over time *)

(** The inputs of the delivery loop, each with the environment it ran in.  A
    panic ends the run. *)
Fixpoint run s (steps : list (Env G * LoopInput)) : option (Session P) :=
  match steps with
  | [] => Some s
  | (ev, i) :: steps =>
      match loop_step i ev s with
      | Some (_, s', _) => run s' steps
      | None => None
      end
  end.

Lemma NewSession_in_step cfg sym iv cs e (p : P) now :
  in_step (NewSession cfg sym iv cs e p now).
Proof.
  split; [|done]. split_and!; try done; cbn; try lia.
  unfold bounded, len. cbn. destruct (scOutboundCapacity cfg <=? 0) eqn:E; bool_to_prop; lia.
Qed.

(** The book feed of a connection never has a gap.  Whatever commands,
    market events, flushes and ticks a session processes, in whatever order
    and with whatever markets, as long as the writer takes critical frames in
    time and no gap or reversal is injected: the outbound queue stays within
    its capacity, and a client that follows the frames in the order they were
    queued finds every delta contiguous with what it applied last, resyncs
    only through the snapshots it is sent, ignores a re-sent delta, and stands
    exactly where the coalescer believes it stands. *)
Theorem book_feed_contiguous cfg sym iv cs e (p : P) now steps s :
  Forall (fun st => env_ok (fst st)) steps ->
  run (NewSession cfg sym iv cs e p now) steps = Some s ->
  len (ouQueue (seOutput s)) <= scOutboundCapacity (seCfg s) /\
  coNeedsSnapshot (seCoalescer s) = false /\
  follow_all (stream s) = Some (coEpoch (seCoalescer s), coClientApplied (seCoalescer s)).
Proof.
  intros Hev Hrun. assert (Hs : in_step s).
  { revert Hrun. generalize (NewSession_in_step cfg sym iv cs e p now).
    generalize (NewSession cfg sym iv cs e p now). induction Hev as [|[ev i] steps Hok _ IH]; intros s0 Hs0;
      cbn [run]; [by intros [= <-]|].
    destruct (loop_step i ev s0) as [[[u s1] es]|] eqn:E; [|done]. apply IH.
    eapply loop_step_spec; eauto. }
  destruct Hs as ((_ & [_ Hb] & _) & Hn & Hf). by split_and!.
Qed.

(** ** Who may change the tier *)

Definition tier_inputs (i : LoopInput) : bool :=
  match i with
  | LCommand (LatencyReport _ _ _ _ _ _ _) | LCommand (TierOverride _) => true
  | _ => false
  end.

(** An action that leaves the tier machine and the health tracker alone. *)
Definition health_of s := (seTier s, seHealth s).
Definition keeps_health {A} (act : Act (G := G) (P := P) A) : Prop :=
  forall ev s a s' es, act ev s = Some (a, s', es) -> health_of s' = health_of s.

Lemma kh_bind {A B} (m : Act (P := P) A) (f : A -> Act B) :
  keeps_health m -> (forall a, keeps_health (f a)) -> keeps_health (m ≫= f).
Proof.
  intros Hm Hf ev s b s' es. unfold mbind, act_bind. destruct (m ev s) as [[[a s1] es1]|] eqn:E1; [|done].
  destruct (f a ev s1) as [[[b' s2] es2]|] eqn:E2; [|done]. intros [= <- <- <-].
  etransitivity; [by eapply Hf|by eapply Hm].
Qed.
Lemma kh_ret {A} (a : A) : keeps_health (mret a).
Proof. by intros ev s b s' es [= <- <- <-]. Qed.
Lemma kh_skip : keeps_health skip.
Proof. apply kh_ret. Qed.
Lemma kh_emit e : keeps_health (emit e).
Proof. by intros ev s b s' es [= <- <- <-]. Qed.
Lemma kh_get : keeps_health get.
Proof. by intros ev s b s' es [= <- <- <-]. Qed.
Lemma kh_now : keeps_health now_.
Proof. by intros ev s b s' es [= <- <- <-]. Qed.
Lemma kh_modify f : (forall s, health_of (f s) = health_of s) -> keeps_health (modify f).
Proof. by intros Hf ev s b s' es [= <- <- <-]. Qed.
Lemma kh_lift {A} (o : option A) : keeps_health (lift o).
Proof. intros ev s b s' es. unfold lift. destruct o; [|done]. by intros [= <- <- <-]. Qed.
Lemma kh_engine : keeps_health engine.
Proof. intros ev s b s' es. unfold engine. destruct (engine_of s ev); [|done]. by intros [= <- <- <-]. Qed.
Lemma kh_enqueue m : keeps_health (enqueue m).
Proof.
  intros ev s b s' es. unfold enqueue. destruct (has_space s); [by intros [= <- <- <-]|].
  destruct (obCritical m); [case_bool_decide|]; by intros [= <- <- <-].
Qed.
Lemma kh_nextSeq : keeps_health nextSeq.
Proof. by intros ev s b s' es [= <- <- <-]. Qed.
Lemma kh_fault r c : keeps_health (consumeBoolFault r c).
Proof. intros ev s b s' es. unfold consumeBoolFault. destruct (r _); by intros [= <- <- <-]. Qed.
Lemma kh_take_delta : keeps_health take_delta.
Proof. intros ev s b s' es. unfold take_delta. destruct (TakeBookDelta _). by intros [= <- <- <-]. Qed.
Lemma kh_take_candle : keeps_health take_candle.
Proof. intros ev s b s' es. unfold take_candle. destruct (TakeCandle _ _). by intros [= <- <- <-]. Qed.
Lemma kh_take_trades : keeps_health take_trades.
Proof. intros ev s b s' es. unfold take_trades. destruct (TakeTrades _). by intros [= <- <- <-]. Qed.

Create HintDb health.
#[local] Hint Resolve kh_skip kh_emit kh_get kh_now kh_lift kh_engine kh_enqueue kh_nextSeq kh_fault
  kh_take_delta kh_take_candle kh_take_trades kh_ret : health.

Ltac health_walk :=
  repeat match goal with
  | |- keeps_health (_ ≫= _) => apply kh_bind; [|intros ?]
  | |- keeps_health (modify _) => apply kh_modify; done
  | |- keeps_health (when ?c _) => unfold when; destruct c
  | |- keeps_health (match ?x with _ => _ end) => destruct x
  | |- keeps_health (let '(_, _) := ?x in _) => destruct x
  | |- keeps_health (on_coalescer _) => unfold on_coalescer
  end; try solve [eauto with health].

Lemma kh_frame k p : keeps_health (frame k p).
Proof. unfold frame. health_walk. Qed.
Lemma kh_send k p c : keeps_health (send k p c).
Proof. unfold send. apply kh_bind; [apply kh_frame|intros [f|]]; health_walk. Qed.
#[local] Hint Resolve kh_frame kh_send : health.
Lemma kh_sendError e : keeps_health (sendError e).
Proof. unfold sendError. health_walk. Qed.
Lemma kh_sendSnapshot : keeps_health sendSnapshot.
Proof. unfold sendSnapshot. health_walk. Qed.
#[local] Hint Resolve kh_sendError kh_sendSnapshot : health.
Lemma kh_requestResync : keeps_health requestResync.
Proof. unfold requestResync. health_walk. Qed.
#[local] Hint Resolve kh_requestResync : health.
Lemma kh_sendCandleClosed c : keeps_health (sendCandleClosed c).
Proof. unfold sendCandleClosed, enqueueCritical. health_walk. Qed.
Lemma kh_sendCandleUpdate c : keeps_health (sendCandleUpdate c).
Proof. unfold sendCandleUpdate. health_walk. Qed.
Lemma kh_flushSummary : keeps_health flushSummary.
Proof. unfold flushSummary. health_walk. Qed.
#[local] Hint Resolve kh_sendCandleClosed kh_sendCandleUpdate kh_flushSummary : health.
Lemma kh_sendHealth : keeps_health sendHealth.
Proof. unfold sendHealth. health_walk. Qed.
Lemma kh_handleEvent e : keeps_health (handleEvent e).
Proof. destruct e; cbn [handleEvent]; unfold sendMarketStatus; health_walk. Qed.
Lemma kh_send_delta d f : keeps_health (send_delta d f).
Proof. unfold send_delta. health_walk. Qed.
#[local] Hint Resolve kh_send_delta : health.
Lemma kh_flushBook : keeps_health flushBook.
Proof. unfold flushBook, flush_skip, clear_skips. health_walk. Qed.
Lemma kh_flushCandles : keeps_health flushCandles.
Proof.
  unfold flushCandles. health_walk. generalize 2%nat. induction n as [|n IH]; cbn [flush_candles];
    unfold suppress; health_walk; exact IH.
Qed.
Lemma kh_flushTrades : keeps_health flushTrades.
Proof.
  assert (Hs : forall ts, keeps_health (send_trades (G := G) (P := P) ts)).
  { induction ts as [|t ts IH]; cbn [send_trades]; unfold suppress; health_walk; exact IH. }
  unfold flushTrades, suppress. health_walk.
Qed.
#[local] Hint Resolve kh_flushBook kh_flushCandles kh_flushTrades : health.
Lemma kh_handleSubscribe sy iv cs : keeps_health (handleSubscribe sy iv cs).
Proof. unfold handleSubscribe, bindEngine, announce. health_walk. Qed.
#[local] Hint Resolve kh_handleSubscribe kh_sendHealth kh_handleEvent : health.

(** Every input but a health report, an override and the watchdog. *)
Lemma loop_step_keeps_health i :
  tier_inputs i = false -> i <> LWatchdog -> keeps_health (loop_step i).
Proof.
  intros Hi Hw. destruct i as [[]| | | | | | | |]; try done; cbn [loop_step handleCommand];
    unfold flush, recordDeliveryWindow; cbv zeta; health_walk.
Qed.

(** Only health reports and overrides move the tier of a connection that
    never reported.  Market events, flushes, subscriptions and the watchdog
    itself leave the tier machine as it was created: silence counts only from
    a first report on, so a client that never reports is served at FULL for
    as long as it stays. *)
Theorem never_reported_stays_full cfg sym iv cs e (p : P) now steps s :
  0 < ReportHold (pThresholds p) -> 0 < ReportDegrade (pThresholds p) ->
  Forall (fun st => tier_inputs (snd st) = false) steps ->
  run (NewSession cfg sym iv cs e p now) steps = Some s ->
  seTier s = NewTierMachine p /\ tmTier (seTier s) = TierFull /\ htHasReport (seHealth s) = false.
Proof.
  intros Hh Hd Hst Hrun.
  assert (Hs : health_of s = health_of (NewSession cfg sym iv cs e p now)).
  { revert Hrun. generalize (eq_refl (health_of (NewSession cfg sym iv cs e p now))).
    generalize (NewSession cfg sym iv cs e p now) at 1 3. induction Hst as [|[ev i] steps Hi _ IH]; intros s0 Hs0;
      cbn [run]; [by intros [= <-]|].
    destruct (loop_step i ev s0) as [[[u s1] es]|] eqn:E; [|done]. apply IH. rewrite <- Hs0.
    assert (Hw : i = LWatchdog \/ i <> LWatchdog) by (destruct i; (by left) || (by right)).
    destruct Hw as [->|Hne]; [|by eapply loop_step_keeps_health].
    injection Hs0 as [= Et Eh]. revert E. cbn [loop_step]. unfold watchdog, transition, mbind, act_bind, now_, get.
    unfold Tracker_Snapshot. rewrite Et, Eh. cbn [NewSession seHealth NewHealthTracker htHasReport hsAge seTier].
    unfold OnMissingReports, watchdog_target. cbn [NewTierMachine tmPolicy].
    rewrite (proj2 (Z.leb_gt _ 0)) by done. rewrite (proj2 (Z.leb_gt _ 0)) by done. cbn [andb still ttChanged].
    unfold when, skip, mret, act_ret, modify. intros [= <- <- <-]. unfold health_of. by rewrite <- Et. }
  injection Hs as [= -> ->]. done.
Qed.

(** ** Subscribing *)

Definition is_bus (e : SEffect) : bool :=
  match e with EBusSubscribe _ _ _ | EBusUnsubscribe _ => true | _ => false end.
Definition bus_effects (es : list SEffect) : list SEffect := List.filter is_bus es.

(** An action that neither rebinds the session nor touches the bus. *)
Definition keeps_binding {A} (act : Act (G := G) (P := P) A) : Prop :=
  forall ev s a s' es, act ev s = Some (a, s', es) ->
  seBinding s' = seBinding s /\ seCfg s' = seCfg s /\ bus_effects es = [].

Lemma kb_bind {A B} (m : Act (P := P) A) (f : A -> Act B) :
  keeps_binding m -> (forall a, keeps_binding (f a)) -> keeps_binding (m ≫= f).
Proof.
  intros Hm Hf ev s b s' es. unfold mbind, act_bind. destruct (m ev s) as [[[a s1] es1]|] eqn:E1; [|done].
  destruct (f a ev s1) as [[[b' s2] es2]|] eqn:E2; [|done]. intros [= <- <- <-].
  destruct (Hm _ _ _ _ _ E1) as (B1 & C1 & N1), (Hf _ _ _ _ _ _ E2) as (B2 & C2 & N2).
  unfold bus_effects in *. rewrite List.filter_app, N1, N2, B2, B1, C2, C1. done.
Qed.
Lemma kb_pure {A} (f : Env G -> Session P -> option A) :
  keeps_binding (fun ev s => a ← f ev s; Some (a, s, [])).
Proof. intros ev s a s' es. destruct (f ev s); simpl; [|done]. by intros [= <- <- <-]. Qed.
Lemma kb_emit e : is_bus e = false -> keeps_binding (emit e).
Proof. intros He ev s a s' es [= <- <- <-]. unfold bus_effects. simpl. by rewrite He. Qed.
Lemma kb_modify f : (forall s, (seBinding (f s), seCfg (f s)) = (seBinding s, seCfg s)) -> keeps_binding (modify f).
Proof. intros Hf ev s a s' es [= <- <- <-]. pose proof (Hf s) as [= -> ->]. done. Qed.
Lemma kb_engine : keeps_binding engine.
Proof. apply (kb_pure (fun ev s => engine_of s ev)). Qed.
Lemma kb_lift {A} (o : option A) : keeps_binding (lift o).
Proof. apply (kb_pure (fun _ _ => o)). Qed.
Lemma kb_get : keeps_binding get.
Proof. apply (kb_pure (fun _ s => Some s)). Qed.
Lemma kb_now : keeps_binding now_.
Proof. apply (kb_pure (fun ev _ => Some (evNow ev))). Qed.
Lemma kb_skip : keeps_binding skip.
Proof. apply (kb_pure (fun _ _ => Some tt)). Qed.
Lemma kb_enqueue m : keeps_binding (enqueue m).
Proof.
  intros ev s b s' es. unfold enqueue. destruct (has_space s); [by intros [= <- <- <-]|].
  destruct (obCritical m); [case_bool_decide|]; by intros [= <- <- <-].
Qed.
Lemma kb_frame k p : keeps_binding (frame k p).
Proof. by intros ev s b s' es [= <- <- <-]. Qed.
Lemma kb_send k p c : keeps_binding (send k p c).
Proof.
  unfold send. apply kb_bind; [apply kb_frame|]. intros [f|]; [|apply kb_skip].
  apply kb_bind; [apply kb_enqueue|]. intros ?. apply kb_skip.
Qed.
Lemma kb_sendSnapshot : keeps_binding sendSnapshot.
Proof.
  unfold sendSnapshot. repeat (apply kb_bind; [auto using kb_engine, kb_get, kb_now, kb_send|intros ?]).
  - by apply kb_modify.
  - by apply kb_emit.
Qed.
Lemma kb_flushSummary : keeps_binding flushSummary.
Proof.
  unfold flushSummary. apply kb_bind; [apply kb_get|]. intros s0. unfold when.
  destruct (channel_on _ _); [|apply kb_skip].
  repeat (apply kb_bind; [auto using kb_engine, kb_now, kb_lift, kb_frame|intros ?]).
  match goal with |- keeps_binding (match ?x with _ => _ end) => destruct x end; [|apply kb_skip].
  apply kb_bind; [apply kb_enqueue|]. intros ?. apply kb_skip.
Qed.
Lemma kb_announce sym iv : keeps_binding (announce sym iv).
Proof.
  unfold announce. apply kb_bind; [apply kb_sendSnapshot|intros ?].
  apply kb_bind; [apply kb_get|intros ?]. apply kb_bind; [apply kb_engine|intros e].
  apply kb_bind; [apply kb_send|intros ?]. apply kb_bind; [|intros ?; apply kb_flushSummary].
  destruct (ActiveCandle e iv); [|apply kb_skip].
  unfold sendCandleUpdate. apply kb_bind; [apply kb_get|]. intros ?. apply kb_send.
Qed.

Lemma act_inv {A B} (m : Act (G := G) (P := P) A) (f : A -> Act (G := G) B) ev s b s' es :
  (m ≫= f) ev s = Some (b, s', es) ->
  exists a s1 es1 es2, m ev s = Some (a, s1, es1) /\ f a ev s1 = Some (b, s', es2) /\ es = es1 ++ es2.
Proof.
  unfold mbind, act_bind. destruct (m ev s) as [[[a s1] es1]|]; [|done].
  destruct (f a ev s1) as [[[b' s2] es2]|] eqn:E2; [|done]. intros [= <- <- <-]. eauto 10.
Qed.

Lemma bindEngine_run e sym (ev : Env G) s u s' es :
  bindEngine e sym ev s = Some (u, s', es) ->
  seBinding s' = mkBinding sym (bnInterval (seBinding s)) (bnChannels (seBinding s)) (Some e) /\
  es = match bnEngine (seBinding s) with Some old => [EBusUnsubscribe old] | None => [] end ++
       [EBusSubscribe e ("sess:" ++ scShortID (seCfg s)) (scOutboundCapacity (seCfg s))].
Proof.
  unfold bindEngine, get, mbind, act_bind, modify, emit, skip, mret, act_ret.
  destruct (bnEngine (seBinding s)); intros [= <- <- <-]; done.
Qed.

(** Everything a send leaves alone. *)
Definition others s := (seBinding s, seTier s, seHealth s, seCoalescer s, seFaults s, seDropped s).

Lemma send_run k p c (ev : Env G) s u s' es :
  payload_floats p = [] -> send k p c ev s = Some (u, s', es) ->
  others s' = others s /\ es = [] /\
  (stream s' = stream s \/ exists f, stream s' = stream s ++ [f] /\ frPayload f = p).
Proof.
  intros Hp. unfold send, frame, nextSeq, now_, mbind, act_bind, mret, act_ret, Encode, enqueue, skip.
  rewrite Hp. cbn [forallb obCritical obFrame].
  match goal with |- context [has_space ?x] => destruct (has_space x) end.
  { intros [= <- <- <-]. split; [done|]. split; [done|]. right. eexists. split; [etransitivity; [apply stream_push|reflexivity]|done]. }
  destruct c; [|intros [= <- <- <-]; split_and!; [done..|by left]].
  case_bool_decide; intros [= <- <- <-]; (split; [done|]); (split; [done|]); [by left|right].
  eexists. split; [etransitivity; [apply stream_drain|reflexivity]|done].
Qed.

Lemma sendError_refuses e (ev : Env G) s u s' es :
  sendError e ev s = Some (u, s', es) ->
  others s' = others s /\ es = [] /\
  (stream s' = stream s \/ exists f, stream s' = stream s ++ [f] /\ frPayload f = PError (peCode e) (peFatal e)).
Proof.
  unfold sendError. intros Hrun. apply act_inv in Hrun as (u1 & s1 & es1 & es2 & [= <- <- <-] & Hrun & ->).
  by apply send_run in Hrun as (Ho & -> & Hs).
Qed.

(** The channels a subscription asks for, and the health channel always. *)
Definition requested (cs : option (list string)) (old : gset string) : gset string :=
  match cs with Some cs => {[ChannelHealth]} ∪ list_to_set cs | None => old end.

(** The code a subscription is refused with. *)
Definition refusal s (sy iv : string) (cs : option (list string)) : option ErrorCode :=
  match resolveMarket s sy with
  | None => Some CodeUnsupportedSymbol
  | Some _ =>
      if negb (known_interval iv) then Some CodeUnsupportedInterval
      else if negb (forallb ValidChannel (default [] cs)) then Some CodeUnsupportedChannel
      else None
  end.

(** C35: Subscribing is all or nothing.  A request for an unknown market,
    interval or channel changes nothing but the error it is answered with:
    binding, coalescer, tier and faults stay as they were.  An accepted one
    binds exactly the requested interval and channels (health is always on,
    and no list means no change), and moves the bus subscription exactly when
    the market is another one: the old mailbox is released before the new one
    is opened. *)
Theorem subscribe_all_or_nothing (ev : Env G) s sy iv cs u s' es :
  handleSubscribe sy iv cs ev s = Some (u, s', es) ->
  match refusal s sy iv cs with
  | Some code =>
      others s' = others s /\ es = [] /\
      (stream s' = stream s \/ exists f, stream s' = stream s ++ [f] /\ frPayload f = PError code false)
  | None =>
      exists e sym i, resolveMarket s sy = Some (e, sym) /\ ParseInterval iv = Ok i /\
        bnInterval (seBinding s') = i /\
        bnChannels (seBinding s') = requested cs (bnChannels (seBinding s)) /\
        if bool_decide (bnEngine (seBinding s) = Some e) then
          bnSymbol (seBinding s') = bnSymbol (seBinding s) /\ bnEngine (seBinding s') = Some e /\
          bus_effects es = []
        else
          bnSymbol (seBinding s') = sym /\ bnEngine (seBinding s') = Some e /\
          bus_effects es = match bnEngine (seBinding s) with Some old => [EBusUnsubscribe old] | None => [] end ++
            [EBusSubscribe e ("sess:" ++ scShortID (seCfg s)) (scOutboundCapacity (seCfg s))]
  end.
Proof.
  unfold handleSubscribe, refusal, known_interval. intros Hrun.
  apply act_inv in Hrun as (s0 & s1 & es1 & es2 & [= <- <- <-] & Hrun & ->). cbn [app].
  destruct (resolveMarket s sy) as [[e sym]|]; [|by apply sendError_refuses in Hrun].
  destruct (ParseInterval iv) as [i|]; [|by apply sendError_refuses in Hrun]. cbn [negb].
  assert (Hd : match cs with Some cs => negb (forallb ValidChannel cs) | None => false end =
               negb (forallb ValidChannel (default [] cs))) by by destruct cs.
  rewrite Hd in Hrun. destruct (negb (forallb ValidChannel (default [] cs))); [by apply sendError_refuses in Hrun|].
  cbv zeta in Hrun. exists e, sym, i. split; [done|]. split; [done|].
  apply act_inv in Hrun as (u1 & s1 & es1 & es3 & Hm & Hrun & ->). injection Hm as [= <- <- <-].
  apply act_inv in Hrun as (u2 & s2 & es4 & es5 & Hm & Hrun & ->).
  destruct (kb_announce sym i _ _ _ _ _ Hrun) as (B & _ & N).
  rewrite (bool_decide_ext (Some e = bnEngine (seBinding s)) (bnEngine (seBinding s) = Some e)) in Hm by done.
  unfold bus_effects in *. rewrite !List.filter_app, N, B. revert Hm. case_bool_decide as Eb; cbn [negb when].
  - intros [= <- <- <-]. by destruct cs.
  - intros Hm. apply bindEngine_run in Hm as [-> ->]. cbn [bnInterval bnChannels bnSymbol bnEngine].
    split; [done|]. split; [by destruct cs|]. split; [done|]. split; [done|].
    rewrite app_nil_r. cbn [with_binding seBinding bnEngine seCfg]. by destruct (bnEngine (seBinding s)).
Qed.

(** ** Reading frames *)

(** What a frame that is not handed on does to the session. *)
Definition fatal_close data : bool :=
  match DecodeClientMessage data with inr e => peFatal e | inl _ => false end.

(** The reader lets through only well-formed commands.  What
    [read_step] hands to the delivery loop is a decoded, valid message that is
    not a ping; the reader touches nothing but the outbound queue and the
    error counter; a frame over the rate limit is not even decoded; and the
    connection is closed exactly when a frame within the limit asks for a
    newer protocol version. *)
Theorem reader_filters r data (ev : Env G) s r' cmd s' es :
  read_step r data ev s = Some ((r', cmd), s', es) ->
  r' = fst (allow r (evNow ev)) /\
  (forall m, cmd = Some m -> snd (allow r (evNow ev)) = true /\ DecodeClientMessage data = inl m /\
     valid_message m /\ (forall i t, m <> Ping i t) /\ s' = s /\ es = []) /\
  (seBinding s', seTier s', seHealth s', seCoalescer s', seFaults s') =
    (seBinding s, seTier s, seHealth s, seCoalescer s, seFaults s) /\
  seDropped s' = seDropped s || (snd (allow r (evNow ev)) && fatal_close data).
Proof.
  unfold read_step, fatal_close. intros Hrun.
  apply act_inv in Hrun as (now & s1 & es1 & es2 & [= <- <- <-] & Hrun & ->). cbn [app].
  destruct (allow r (evNow ev)) as [r1 ok]. cbn [fst snd]. destruct ok; cbn [negb] in Hrun.
  - pose proof (decode_sound_core data) as Hd. destruct (DecodeClientMessage data) as [m|e].
    + rewrite orb_false_r. destruct Hd as [Hv _].
      destruct m; try (injection Hrun as [= <- <- <- <-]; split; [done|];
        split; [intros m' [= <-]; by split_and!|]; by split).
      apply act_inv in Hrun as (u & s1 & es3 & es4 & Hp & Hrun & ->). injection Hrun as [= <- <- <- <-].
      unfold sendPong in Hp. apply act_inv in Hp as (now & s2 & es5 & es6 & [= <- <- <-] & Hp & ->).
      apply send_run in Hp as ([= E1 E2 E3 E4 E5 E6] & _); [|done]. rewrite E6. split_and!; try done. congruence.
    + repeat (apply act_inv in Hrun as (? & ? & ? & ? & ? & Hrun & ->)).
      injection Hrun as [= <- <- <- <-]. split; [done|]. split; [done|].
      repeat match goal with
      | H : count_error _ _ = _ |- _ => injection H as [= <- <- <-]
      | H : emit _ _ _ = _ |- _ => injection H as [= <- <- <-]
      | H : sendError _ _ _ = _ |- _ => apply sendError_refuses in H as ([= E1 E2 E3 E4 E5 E6] & _)
      end.
      destruct (peFatal e);
        match goal with H : when _ _ _ _ = Some _ |- _ => injection H as [= <- <- <-] end;
        rewrite ?orb_true_r, ?orb_false_r;
        cbn [with_close seBinding seTier seHealth seCoalescer seFaults seDropped]; split; congruence.
  - repeat (apply act_inv in Hrun as (? & ? & ? & ? & ? & Hrun & ->)).
    injection Hrun as [= <- <- <- <-]. cbn [andb]. rewrite orb_false_r. split; [done|]. split; [done|].
    repeat match goal with
    | H : emit _ _ _ = _ |- _ => injection H as [= <- <- <-]
    | H : sendError _ _ _ = _ |- _ => apply sendError_refuses in H as ([= E1 E2 E3 E4 E5 E6] & _)
    end. split; congruence.
Qed.
End Stream.

(** ** A concrete session *)

Definition demo_markets : gmap string (Engine PCG) :=
  match demo_new with Ok e => {["BTCUSDT"%string := e]} | Err _ => ∅ end.
Definition demo_env (ms : Z) : Env PCG := mkEnv (at_ms ms) demo_markets (fun _ => 1%nat).
Definition demo_session : Session DefaultPolicy :=
  NewSession (mkSessionConfig "sess_0" "ABC123" None 4 20 15 false) BTCUSDT None None
    (Some "BTCUSDT"%string) doc_policy (at_ms 0).
Definition demo_window (u : Z) (q : Z) : Event :=
  EventBookWindow (mkWindow "BTCUSDT" 0 u [mkLevel 100 q; mkLevel 99 5] [mkLevel 102 3] (at_ms u) "").

(** A subscription, then windows and flushes on a queue of four frames. *)
Definition demo_steps : list (Env PCG * LoopInput) :=
  [(demo_env 1, LCommand (Subscribe "BTCUSDT" "5m" None)); (demo_env 2, LEvent (demo_window 8 4));
   (demo_env 3, LFlush); (demo_env 4, LEvent (demo_window 9 6)); (demo_env 5, LEvent (demo_window 10 7));
   (demo_env 20000, LWatchdog); (demo_env 20001, LFlush)].

Lemma demo_env_ok ms : env_ok (demo_env ms).
Proof.
  split; [|done]. intros id e. cbn [demo_env evMarkets]. unfold demo_markets.
  destruct demo_new as [e0|] eqn:E; [|by rewrite lookup_empty].
  intros [_ <-]%lookup_singleton_Some. vm_compute in E. injection E as <-. vm_compute. discriminate.
Qed.

Lemma demo_run_ends : exists s, run demo_session demo_steps = Some s /\ coClientApplied (seCoalescer s) = 10.
Proof.
  destruct (run demo_session demo_steps) as [s|] eqn:E; [|vm_compute in E; discriminate E].
  exists s. split; [done|]. vm_compute in E. injection E as <-. reflexivity.
Qed.

Lemma book_feed_contiguous_witness :
  exists s, run demo_session demo_steps = Some s /\
    follow_all (stream s) = Some (coEpoch (seCoalescer s), 10) /\ len (ouQueue (seOutput s)) <= 4.
Proof.
  destruct demo_run_ends as (s & E & H10). exists s. split; [exact E|].
  destruct (book_feed_contiguous (mkSessionConfig "sess_0" "ABC123" None 4 20 15 false) BTCUSDT None None
    (Some "BTCUSDT"%string) doc_policy (at_ms 0) demo_steps s) as (H1 & _ & H3).
  - repeat constructor; apply demo_env_ok.
  - exact E.
  - rewrite H3, H10. split; [reflexivity|].
    assert (Hc : scOutboundCapacity (seCfg s) = 4) by (vm_compute in E; injection E as <-; reflexivity).
    rewrite Hc in H1. exact H1.
Defined.

Lemma never_reported_stays_full_witness :
  exists s, run demo_session demo_steps = Some s /\ tmTier (seTier s) = TierFull.
Proof.
  destruct demo_run_ends as (s & E & _). exists s. split; [exact E|].
  apply (never_reported_stays_full (mkSessionConfig "sess_0" "ABC123" None 4 20 15 false) BTCUSDT None None
    (Some "BTCUSDT"%string) doc_policy (at_ms 0) demo_steps s); [vm_compute; reflexivity..| |exact E].
  repeat constructor.
Defined.

Lemma subscribe_all_or_nothing_witness :
  exists u s' es, handleSubscribe "BTCUSDT" "5m" (Some ["trades"%string]) (demo_env 1) demo_session = Some (u, s', es) /\
    bnInterval (seBinding s') = Interval5m /\ bus_effects es = [].
Proof.
  destruct (handleSubscribe "BTCUSDT" "5m" (Some ["trades"%string]) (demo_env 1) demo_session)
    as [[[u s'] es]|] eqn:E; [|vm_compute in E; discriminate E].
  exists u, s', es. split; [reflexivity|].
  pose proof (subscribe_all_or_nothing (demo_env 1) demo_session "BTCUSDT" "5m" (Some ["trades"%string]) u s' es E)
    as Hw.
  replace (refusal demo_session "BTCUSDT" "5m" (Some ["trades"%string])) with (@None ErrorCode) in Hw
    by (vm_compute; reflexivity).
  destruct Hw as (e & sym & i & Hr & Hi & H1 & _ & H2). vm_compute in Hi. injection Hi as <-.
  vm_compute in Hr. injection Hr as <- <-. split; [exact H1|].
  rewrite bool_decide_eq_true_2 in H2 by reflexivity. apply H2.
Defined.

Lemma reader_filters_witness :
  exists r' s' es, read_step (newRateLimiter 20) (Some report_frame) (demo_env 1) demo_session =
    Some ((r', Some (LatencyReport (f64_lit 285 2) (f64_of_Z 8) 10 1700000000000 "20s" 0 0)), s', es) /\
    s' = demo_session.
Proof.
  destruct (read_step (newRateLimiter 20) (Some report_frame) (demo_env 1) demo_session)
    as [[[[r' cmd] s'] es]|] eqn:E; [|vm_compute in E; discriminate E].
  assert (Hc : cmd = Some (LatencyReport (f64_lit 285 2) (f64_of_Z 8) 10 1700000000000 "20s" 0 0))
    by (vm_compute in E; injection E as _ <- _ _; vm_compute; reflexivity).
  exists r', s', es. rewrite Hc in *. split; [reflexivity|].
  destruct (reader_filters _ _ _ _ _ _ _ _ E) as (_ & Hm & _). destruct (Hm _ eq_refl) as (_ & _ & _ & _ & H5 & _).
  exact H5.
Defined.

(** Every rejected frame is counted twice, by the reader and by the answer. *)
Example malformed_counted_twice :
  match read_step (newRateLimiter 20) None (demo_env 1) demo_session with
  | Some (_, s', _) => ouProtocolErrors (seOutput s') = 2
  | None => False
  end.
Proof. vm_compute. reflexivity. Qed.
