(* ===== verification/Feed.v ===== *)
(** * Market feeds: [internal/exchange/synthetic] and [internal/exchange/replay]

    The bootstrap ladder, the deterministic trade generator, the synthetic
    provider that paces it, and the replay provider.  The transcendental
    functions of the [math] package are the fields of [MathFns]: nothing that
    is proved depends on their values, because the code clamps what it derives
    from them.  Blocking is not modelled: a step of a provider is the next
    event it sends. *)

From Stdlib Require Import SpecFloat.
From S2P Require Import Prelude Money GoTime Domain Float64 Rand Book Provider.

(** ** Floating-point helpers *)

(** [math.Exp], [math.Log], [math.Sin] and [math.Cos]. *)
Class MathFns := {
  mathExp : float64 -> float64; mathLog : float64 -> float64;
  mathSin : float64 -> float64; mathCos : float64 -> float64 }.

(** [math.Round]: half away from zero. *)
Definition f64_round (x : float64) : float64 :=
  match x with
  | S754_finite s m e =>
      if 0 <=? e then x
      else
        let q := (Zpos m + 2 ^ (- e - 1)) / 2 ^ (- e) in
        if q =? 0 then S754_zero s else f64_of_Z (if s then - q else q)
  | _ => x
  end.

Definition f64_sqrt (x : float64) : float64 := SFsqrt 53 1024 x.
Definition two_pi : float64 := f64_ldexp 7074237752028440 (-50).

(** A positive scaled quantity: the rounded value, at least one unit. *)
Definition at_least_one (x : float64) : Z :=
  let scaled := f64_to_int (f64_round x) in if scaled <? 1 then 1 else scaled.

(** ** The ladder *)

Record LadderConfig := mkLadder {
  lcLevels : Z; lcHalfSpreadTicks : Z; lcMinQuantity : float64; lcMaxQuantity : float64 }.

Definition DefaultLadderConfig (levels : Z) : LadderConfig :=
  mkLadder (if levels <? 20 then 100 else levels) 2 (f64_lit 2 100) (f64_of_Z 50).

Section Feed.
Context {G : Type} `{RandSource G} `{MathFns}.

Definition levelSize (sym : Symbol) (depth : Z) (cfg : LadderConfig) (g : G) : Z * G :=
  let base := f64_mul (lcMinQuantity cfg) (mathExp (f64_div (f64_of_Z depth) (f64_of_Z 25))) in
  let '(r, g) := rFloat64 g in
  let noise := mathExp (f64_mul (f64_sub (f64_mul r (f64_of_Z 2)) (f64_of_Z 1)) (f64_lit 6 10)) in
  let q := f64_mul base noise in
  let q := if f64_ltb q (lcMinQuantity cfg) then lcMinQuantity cfg else q in
  let q := if f64_ltb (lcMaxQuantity cfg) q then lcMaxQuantity cfg else q in
  (at_least_one (f64_mul q (f64_of_Z (QtyScale sym))), g).

(** The loop from level [i] on; [gap] is the distance reached so far. *)
Fixpoint ladder_levels (sym : Symbol) (cfg : LadderConfig) (bestBid bestAsk : Z) (n : nat)
    (i gap : Z) (g : G) : list Level * list Level * G :=
  match n with
  | O => ([], [], g)
  | S n =>
      let '(k, g) := IntN 2 g in
      let gap := gap + (1 + k) in
      let bp := i64 (bestBid - gap) in
      let ap := i64 (bestAsk + gap) in
      let bp := if bp <=? 0 then i64 (1 + (lcLevels cfg - i)) else bp in
      let '(bq, g) := levelSize sym i cfg g in
      let '(aq, g) := levelSize sym i cfg g in
      let '(bids, asks, g) := ladder_levels sym cfg bestBid bestAsk n (i + 1) gap g in
      (mkLevel bp bq :: bids, mkLevel ap aq :: asks, g)
  end.

Definition BuildLadder (sym : Symbol) (mid : Z) (cfg : LadderConfig) (g : G)
    : list Level * list Level * G :=
  let cfg := if lcLevels cfg <=? 0 then DefaultLadderConfig (lcLevels cfg) else cfg in
  let half := if lcHalfSpreadTicks cfg <? 1 then 1 else lcHalfSpreadTicks cfg in
  let bestBid := i64 (mid - half) in
  let bestAsk := i64 (mid + half) in
  let bestBid := if bestBid <=? 0 then 1 else bestBid in
  let bestAsk := if bestAsk <=? bestBid then i64 (bestBid + 1) else bestAsk in
  ladder_levels sym cfg bestBid bestAsk (Z.to_nat (lcLevels cfg)) 0 0 g.

(** ** The generator *)

Definition InitialTradeID : Z := 1000000.

(** The gaussian sampler shares the source of the generator. *)
Record Generator := mkGen {
  gnSymbol : Symbol; gnRng : G; gnSpare : option float64; gnAnchor : Z; gnLast : Z; gnDrift : Z;
  gnResidual : float64; gnBurstUntil : Z; gnBursting : bool; gnSide : Side; gnLastDelta : Z;
  gnNextTradeID : Z; gnBurstRate : float64 }.

Definition anchorPrice (sym : Symbol) : Z :=
  match SeedPrice (ID sym) with Some p => p | None => i64 (PriceScale sym * 100) end.

(** [rng] makes a source from two seeds. *)
Definition NewGenerator (rng : Z -> Z -> G) (sym : Symbol) (seed : Z) (burstRate : float64) : Generator :=
  let burstRate := if f64_leb burstRate (f64_of_Z 0) then f64_of_Z 4 else burstRate in
  let anchor := anchorPrice sym in
  mkGen sym (rng (u64 seed) (Z.lxor (u64 seed) 11400714819323198485)) None anchor anchor 0
    (f64_of_Z 0) 0 false SideBuy 0 InitialTradeID burstRate.

Definition with_rng (gn : Generator) (g : G) : Generator :=
  mkGen (gnSymbol gn) g (gnSpare gn) (gnAnchor gn) (gnLast gn) (gnDrift gn) (gnResidual gn)
    (gnBurstUntil gn) (gnBursting gn) (gnSide gn) (gnLastDelta gn) (gnNextTradeID gn) (gnBurstRate gn).
Definition with_spare (gn : Generator) (sp : option float64) : Generator :=
  mkGen (gnSymbol gn) (gnRng gn) sp (gnAnchor gn) (gnLast gn) (gnDrift gn) (gnResidual gn)
    (gnBurstUntil gn) (gnBursting gn) (gnSide gn) (gnLastDelta gn) (gnNextTradeID gn) (gnBurstRate gn).
Definition with_burst (gn : Generator) (until : Z) (bursting : bool) : Generator :=
  mkGen (gnSymbol gn) (gnRng gn) (gnSpare gn) (gnAnchor gn) (gnLast gn) (gnDrift gn) (gnResidual gn)
    until bursting (gnSide gn) (gnLastDelta gn) (gnNextTradeID gn) (gnBurstRate gn).
Definition with_walk (gn : Generator) (drift : Z) (residual : float64) : Generator :=
  mkGen (gnSymbol gn) (gnRng gn) (gnSpare gn) (gnAnchor gn) (gnLast gn) drift residual
    (gnBurstUntil gn) (gnBursting gn) (gnSide gn) (gnLastDelta gn) (gnNextTradeID gn) (gnBurstRate gn).
Definition with_move (gn : Generator) (last : Z) (side : Side) : Generator :=
  mkGen (gnSymbol gn) (gnRng gn) (gnSpare gn) (gnAnchor gn) last (gnDrift gn) (gnResidual gn)
    (gnBurstUntil gn) (gnBursting gn) side (gnLastDelta gn) (gnNextTradeID gn) (gnBurstRate gn).
Definition with_delta (gn : Generator) (d : Z) : Generator :=
  mkGen (gnSymbol gn) (gnRng gn) (gnSpare gn) (gnAnchor gn) (gnLast gn) (gnDrift gn) (gnResidual gn)
    (gnBurstUntil gn) (gnBursting gn) (gnSide gn) d (gnNextTradeID gn) (gnBurstRate gn).
Definition with_id (gn : Generator) (id : Z) : Generator :=
  mkGen (gnSymbol gn) (gnRng gn) (gnSpare gn) (gnAnchor gn) (gnLast gn) (gnDrift gn) (gnResidual gn)
    (gnBurstUntil gn) (gnBursting gn) (gnSide gn) (gnLastDelta gn) id (gnBurstRate gn).

Definition draw (gn : Generator) : float64 * Generator :=
  let '(r, g) := rFloat64 (gnRng gn) in (r, with_rng gn g).

(** Box-Muller with a cached spare value. *)
Definition gauss_next (gn : Generator) : float64 * Generator :=
  match gnSpare gn with
  | Some sp => (sp, with_spare gn None)
  | None =>
      let '(u1, gn) := draw gn in
      let u1 := if f64_ltb u1 (f64_lit 1 1000000000000) then f64_lit 1 1000000000000 else u1 in
      let '(u2, gn) := draw gn in
      let r := f64_sqrt (f64_mul (f64_of_Z (-2)) (mathLog u1)) in
      (f64_mul r (mathCos (f64_mul two_pi u2)),
       with_spare gn (Some (f64_mul r (mathSin (f64_mul two_pi u2)))))
  end.

Definition ForceBurst (gn : Generator) (now : Time) (d : Z) : Generator :=
  if d <=? 0 then with_burst gn 0 (gnBursting gn)
  else with_burst gn (tUnixNano (tAdd now d)) (gnBursting gn).

Definition stepVolatility (gn : Generator) (now : Time) : Generator :=
  let gn := if negb (gnBurstUntil gn =? 0) && (gnBurstUntil gn <=? tUnixNano now)
            then with_burst gn 0 false else gn in
  if negb (gnBurstUntil gn =? 0) then with_burst gn (gnBurstUntil gn) true
  else if gnBursting gn then
    let '(r, gn) := draw gn in
    if f64_ltb r (f64_lit 995 1000) then gn else with_burst gn (gnBurstUntil gn) false
  else
    let '(r, gn) := draw gn in
    if f64_ltb r (f64_lit 5 1000) then with_burst gn (gnBurstUntil gn) true else gn.

Definition deviation (anchor : Z) : Z := Z.quot (i64 (anchor * 1500)) 10000.
Definition clamp (gn : Generator) (p : Z) : Z :=
  let lo := i64 (gnAnchor gn - deviation (gnAnchor gn)) in
  let hi := i64 (gnAnchor gn + deviation (gnAnchor gn)) in
  if p <? lo then lo else if hi <? p then hi else p.

Definition sideForDelta (gn : Generator) (delta : Z) : Side * Generator :=
  if 0 <? delta then (SideBuy, with_delta gn 1)
  else if delta <? 0 then (SideSell, with_delta gn (-1))
  else
    let '(r, gn) := draw gn in
    let gn := if f64_ltb r (f64_lit 5 10) then with_delta gn (i64 (- gnLastDelta gn)) else gn in
    (if 0 <=? gnLastDelta gn then SideBuy else SideSell, gn).

Definition quantity (gn : Generator) : Z * Generator :=
  let '(z, gn) := gauss_next gn in
  let raw := f64_mul (f64_lit 5 100) (mathExp (f64_mul z (f64_lit 9 10))) in
  let raw := if f64_ltb raw (f64_lit 1 10000) then f64_lit 1 10000 else raw in
  let raw := if f64_ltb (f64_of_Z 5) raw then f64_of_Z 5 else raw in
  (at_least_one (f64_mul raw (f64_of_Z (QtyScale (gnSymbol gn)))), gn).

Definition reversion (gn : Generator) : Z :=
  Z.quot (i64 (i64 (gnDrift gn * 4095) + i64 (gnAnchor gn - gnLast gn))) 4096.

(** The walk: the price the step arrives at before it is clamped. *)
Definition walk (gn : Generator) : Z * Generator :=
  let sigma := f64_mul (f64_lit 1 100000) (f64_of_Z (gnAnchor gn)) in
  let sigma := if gnBursting gn then f64_mul sigma (gnBurstRate gn) else sigma in
  let drift := reversion gn in
  let '(z, gn) := gauss_next gn in
  let residual := f64_add (gnResidual gn) (f64_mul z sigma) in
  let gaussianStep := f64_to_int (f64_round residual) in
  let gn := with_walk gn drift (f64_sub residual (f64_of_Z gaussianStep)) in
  (i64 (gnLast gn + i64 (gaussianStep + Z.quot drift 64)), gn).

Definition Gen_Next (gn : Generator) (ts : Time) : Trade * Generator :=
  let gn := stepVolatility gn ts in
  let '(next, gn) := walk gn in
  let next := clamp gn next in
  let '(side, gn) := sideForDelta gn (i64 (next - gnLast gn)) in
  let gn := with_move gn next side in
  let '(q, gn) := quantity gn in
  (mkTrade (gnNextTradeID gn) (ID (gnSymbol gn)) (tUTC ts) next q side,
   with_id gn (u64 (gnNextTradeID gn + 1))).

(** ** The synthetic provider *)

Record SynConfig := mkSyn {
  sySymbol : Symbol; sySeed : Z; syTradesPerSecond : float64; syWarmupSpan : Z; syWarmupMaxEvents : Z;
  syVolatilityBurstRate : float64; syBookLevels : Z; syStreamBuffer : Z }.

Definition syn_withDefaults (c : SynConfig) : SynConfig :=
  mkSyn (sySymbol c) (sySeed c) (if f64_leb (syTradesPerSecond c) (f64_of_Z 0) then f64_of_Z 10 else syTradesPerSecond c)
    (if syWarmupSpan c <=? 0 then 720 * Hour else syWarmupSpan c)
    (if syWarmupMaxEvents c <=? 0 then 200000 else syWarmupMaxEvents c)
    (syVolatilityBurstRate c) (if syBookLevels c <=? 0 then 100 else syBookLevels c)
    (if syStreamBuffer c <=? 0 then 256 else syStreamBuffer c).

Definition WarmupStep (c : SynConfig) : Z :=
  let c := syn_withDefaults c in Z.quot (syWarmupSpan c) (syWarmupMaxEvents c).

Record SynProvider := mkSynP {
  spCfg : SynConfig; spGen : Generator; spPace : Pace; spPaused : bool; spVirtualAt : Time;
  spWarmupEnd : Time; spEmitted : Z; spStreaming : bool;
  spBoot : option (list Level * list Level); spLadderRNG : G }.

Definition NewSynthetic (rng : Z -> Z -> G) (cfg : SynConfig) (start : Time) : SynProvider :=
  let cfg := syn_withDefaults cfg in
  mkSynP cfg (NewGenerator rng (sySymbol cfg) (sySeed cfg) (syVolatilityBurstRate cfg)) PaceFast false
    (tAdd start (- syWarmupSpan cfg)) start 0 false None
    (rng (Z.lxor (u64 (sySeed cfg)) 25214903917) 2685821657736338717).

Definition syn_gen (p : SynProvider) (gn : Generator) : SynProvider :=
  mkSynP (spCfg p) gn (spPace p) (spPaused p) (spVirtualAt p) (spWarmupEnd p) (spEmitted p)
    (spStreaming p) (spBoot p) (spLadderRNG p).
Definition SetPace (p : SynProvider) (pace : Pace) : SynProvider :=
  mkSynP (spCfg p) (spGen p) pace (spPaused p) (spVirtualAt p) (spWarmupEnd p) (spEmitted p)
    (spStreaming p) (spBoot p) (spLadderRNG p).
Definition set_paused (p : SynProvider) (b : bool) : SynProvider :=
  mkSynP (spCfg p) (spGen p) (spPace p) b (spVirtualAt p) (spWarmupEnd p) (spEmitted p)
    (spStreaming p) (spBoot p) (spLadderRNG p).

Definition Syn_Snapshot (p : SynProvider) (symbol : string) (now : Time)
    : SynProvider * res OrderBookSnapshot :=
  let sym := gnSymbol (spGen p) in
  if negb (bool_decide (symbol = ID sym)) then (p, Err ErrSymbolMismatch)
  else
    let '(bids, asks, p) :=
      match spBoot p with
      | Some (bids, asks) => (bids, asks, p)
      | None =>
          let '(bids, asks, g) := BuildLadder sym (gnLast (spGen p))
                                    (DefaultLadderConfig (syBookLevels (spCfg p))) (spLadderRNG p) in
          (bids, asks, mkSynP (spCfg p) (spGen p) (spPace p) (spPaused p) (spVirtualAt p)
             (spWarmupEnd p) (spEmitted p) (spStreaming p) (Some (bids, asks)) g)
      end in
    (p, Ok (mkSnapshot (ID sym) 0 0 bids asks now)).

Definition Syn_Stream (p : SynProvider) (symbol : string) : SynProvider * option error :=
  if negb (bool_decide (symbol = ID (gnSymbol (spGen p)))) then (p, Some ErrSymbolMismatch)
  else if spStreaming p then (p, Some ErrAlreadyStreaming)
  else (mkSynP (spCfg p) (spGen p) (spPace p) (spPaused p) (spVirtualAt p) (spWarmupEnd p)
          (spEmitted p) true (spBoot p) (spLadderRNG p), None).

(** The jittered wait before a live event draws from the generator's source,
    once per round of [waitForTurn]. *)
Definition nextInterval (p : SynProvider) : Z * SynProvider :=
  let mean := f64_to_int (f64_div (f64_of_Z Second) (syTradesPerSecond (spCfg p))) in
  let mean := if mean <=? 0 then 100 * Millisecond else mean in
  let '(r, gn) := draw (spGen p) in
  let factor := f64_add (f64_lit 4 10) (f64_mul (f64_lit 12 10) r) in
  let d := f64_to_int (f64_mul (f64_of_Z mean) factor) in
  (if d <? Millisecond then Millisecond else d, syn_gen p gn).

(** [n] rounds of the wait in realtime mode; fast mode does not wait. *)
Fixpoint waits (n : nat) (p : SynProvider) : SynProvider :=
  match n with O => p | S n => waits n (snd (nextInterval p)) end.
Definition waitForTurn (p : SynProvider) (wakeups : nat) : SynProvider :=
  match spPace p with PaceFast => p | PaceRealtime => waits (S wakeups) p end.

Definition nextTimestamp (p : SynProvider) (now : Time) : Time * SynProvider :=
  match spPace p with
  | PaceFast =>
      if negb (tBefore (spVirtualAt p) (spWarmupEnd p)) then (spWarmupEnd p, p)
      else (spVirtualAt p,
            mkSynP (spCfg p) (spGen p) (spPace p) (spPaused p)
              (tAdd (spVirtualAt p) (WarmupStep (spCfg p))) (spWarmupEnd p) (spEmitted p)
              (spStreaming p) (spBoot p) (spLadderRNG p))
  | PaceRealtime => (now, p)
  end.

(** One round of [run]; [wakeups] is how often the wait was interrupted. *)
Definition syn_step (p : SynProvider) (wakeups : nat) (now : Time) : MarketEvent * SynProvider :=
  let p := waitForTurn p wakeups in
  let '(ts, p) := nextTimestamp p now in
  let '(t, gn) := Gen_Next (spGen p) ts in
  let p := syn_gen p gn in
  (TradeEvent t, mkSynP (spCfg p) (spGen p) (spPace p) (spPaused p) (spVirtualAt p) (spWarmupEnd p)
     (u64 (spEmitted p + 1)) (spStreaming p) (spBoot p) (spLadderRNG p)).

(** ** The replay provider *)

Record ReplayProvider := mkReplay {
  rpSymbol : Symbol; rpLoop : bool; rpEvents : list MarketEvent; rpPace : Pace; rpStreaming : bool;
  rpIndex : nat }.

Definition NewFromEvents (sym : Symbol) (events : list MarketEvent) (loop : bool) : ReplayProvider :=
  mkReplay sym loop events PaceFast false 0.

Fixpoint first_trade (events : list MarketEvent) : option Trade :=
  match events with
  | [] => None
  | TradeEvent t :: _ => Some t
  | _ :: events => first_trade events
  end.

Definition firstPrice (p : ReplayProvider) : Z :=
  match first_trade (rpEvents p) with
  | Some t => trPrice t
  | None => anchorPrice (rpSymbol p)
  end.

Definition Replay_Snapshot (rng : Z -> Z -> G) (p : ReplayProvider) (symbol : string) (now : Time)
    : res OrderBookSnapshot :=
  if negb (bool_decide (symbol = ID (rpSymbol p))) then Err ErrSymbolMismatch
  else
    let '(bids, asks, _) := BuildLadder (rpSymbol p) (firstPrice p) (DefaultLadderConfig 100)
                              (rng 24301 4660) in
    Ok (mkSnapshot symbol 1 1 bids asks now).

Definition trade_of (ev : MarketEvent) : option Trade :=
  match ev with TradeEvent t => Some t | _ => None end.

(** The loop from [upto - 1] down, while fewer than [limit] are collected. *)
Definition Replay_RecentTrades (p : ReplayProvider) (symbol : string) (limit : Z) : res (list Trade) :=
  if negb (bool_decide (symbol = ID (rpSymbol p))) then Err ErrSymbolMismatch
  else Ok (take (Z.to_nat limit) (omap trade_of (rev (take (rpIndex p) (rpEvents p))))).

Definition Replay_Stream (p : ReplayProvider) (symbol : string) : ReplayProvider * option error :=
  if negb (bool_decide (symbol = ID (rpSymbol p))) then (p, Some ErrSymbolMismatch)
  else if rpStreaming p then (p, Some ErrAlreadyStreaming)
  else (mkReplay (rpSymbol p) (rpLoop p) (rpEvents p) (rpPace p) true (rpIndex p), None).

(** The next event; the outer [None] is the panic of a looping empty fixture,
    the inner one the end of the stream. *)
Definition replay_step (p : ReplayProvider) : option (option (MarketEvent * ReplayProvider)) :=
  let wrapped := (length (rpEvents p) <=? rpIndex p)%nat in
  if wrapped && negb (rpLoop p) then Some None
  else
    let i := if wrapped then O else rpIndex p in
    ev ← rpEvents p !! i;
    Some (Some (ev, mkReplay (rpSymbol p) (rpLoop p) (rpEvents p) (rpPace p) (rpStreaming p) (S i))).

(** Levels of a fixture line; only bids are checked for negative quantities. *)
Fixpoint parseLevels (sym : Symbol) (raw : list (list Ascii.ascii * list Ascii.ascii)) (bid : bool)
    : option (res (list Level)) :=
  match raw with
  | [] => Some (Ok [])
  | (p, q) :: raw =>
      price ← ParsePrice sym p;
      match price with
      | Err e => Some (Err e)
      | Ok price =>
          qty ← ParseQty sym q;
          match qty with
          | Err e => Some (Err e)
          | Ok qty =>
              if bid && Qty.IsNegative qty then Some (Err ErrInvalidFixture)
              else
                rest ← parseLevels sym raw bid;
                match rest with
                | Ok rest => Some (Ok (mkLevel price qty :: rest))
                | Err e => Some (Err e)
                end
          end
      end
  end.
End Feed.
