(* ===== verification/FeedSpec.v ===== *)
(** * What the feeds promise

    The trades of a provider: prices within 15% of the anchor, consecutive
    identifiers, positive sizes, the side of the move; the warmup replays one
    fixed sequence whatever the clock does; the timeline is ordered; the
    bootstrap ladder is a well-formed book the engine can install. *)

From Stdlib Require Import SpecFloat.
From S2P Require Import Prelude Money GoTime Domain Float64 Rand Book BookFacts Provider Feed.

(** ** Sizes *)

Lemma at_least_one_range x : 1 <= at_least_one x <= MaxInt64.
Proof.
  unfold at_least_one. pose proof (f64_to_int_range (f64_round x)) as Hr.
  unfold in_i64 in Hr. cbv zeta. split_if; lia.
Qed.

Section FeedSpec.
Context {G : Type} `{RandLaws G} `{MathFns}.

(** ** The generator *)

(** What the helpers of [Gen_Next] leave alone. *)
Record same_market (gn gn' : Generator (G := G)) : Prop := {
  sm_symbol : gnSymbol gn' = gnSymbol gn; sm_anchor : gnAnchor gn' = gnAnchor gn;
  sm_last : gnLast gn' = gnLast gn; sm_id : gnNextTradeID gn' = gnNextTradeID gn }.

#[local] Instance same_market_trans : Transitive same_market.
Proof. intros a b c [] []. split; congruence. Qed.

Lemma draw_same gn : same_market gn (snd (draw gn)).
Proof. unfold draw. destruct (rFloat64 (gnRng gn)). by split. Qed.

Lemma gauss_same gn : same_market gn (snd (gauss_next gn)).
Proof.
  unfold gauss_next. destruct (gnSpare gn); [by split|].
  pose proof (draw_same gn) as Ha. destruct (draw gn) as [u1 ga]. cbn [snd] in Ha.
  cbv zeta. pose proof (draw_same ga) as Hb. destruct (draw ga) as [u2 gb]. cbn [snd] in Hb.
  transitivity ga; [done|]. transitivity gb; [done|by split].
Qed.

Lemma volatility_same gn now : same_market gn (stepVolatility gn now).
Proof.
  unfold stepVolatility. cbv zeta.
  set (gn1 := if negb (gnBurstUntil gn =? 0) && (gnBurstUntil gn <=? tUnixNano now) then _ else _).
  assert (HV : same_market gn gn1) by (unfold gn1; destruct (_ && _); by split).
  clearbody gn1. transitivity gn1; [done|]. destruct (negb (gnBurstUntil gn1 =? 0)); [by split|].
  pose proof (draw_same gn1) as Hd. destruct (draw gn1) as [r gn2]. cbn [snd] in Hd.
  destruct (gnBursting gn1), (f64_ltb r _); try done; transitivity gn2; try done; by split.
Qed.

Lemma walk_same gn : same_market gn (snd (walk gn)).
Proof.
  unfold walk. cbv zeta. pose proof (gauss_same gn) as Hg. destruct (gauss_next gn) as [z gn1].
  cbn [snd] in *. transitivity gn1; [done|by split].
Qed.

Lemma side_same gn d : same_market gn (snd (sideForDelta gn d)).
Proof.
  unfold sideForDelta. destruct (0 <? d); [by split|]. destruct (d <? 0); [by split|].
  pose proof (draw_same gn) as Hd. destruct (draw gn) as [r gn1]. cbn [snd] in *.
  transitivity gn1; [done|]. destruct (f64_ltb _ _); by split.
Qed.

Lemma quantity_same gn :
  same_market gn (snd (quantity gn)) /\ 1 <= fst (quantity gn) <= MaxInt64.
Proof.
  unfold quantity. pose proof (gauss_same gn) as Hg. destruct (gauss_next gn) as [z gn1].
  split; [done|apply at_least_one_range].
Qed.

(** The band: 1500 basis points around the anchor, and no overflow in it. *)
Definition band_ok (anchor : Z) : Prop := 0 < anchor <= MaxInt64 / 1500.
Definition in_band (anchor p : Z) : Prop := 85 * anchor <= 100 * p <= 115 * anchor.

Lemma deviation_spec anchor :
  band_ok anchor -> 0 <= deviation anchor /\ 100 * deviation anchor <= 15 * anchor.
Proof.
  unfold band_ok, deviation. change (MaxInt64 / 1500) with 6148914691236517. intros Ha. no_wrap.
  rewrite Z.quot_div_nonneg by lia. pose proof (Z.mul_div_le (anchor * 1500) 10000).
  pose proof (Z.div_pos (anchor * 1500) 10000). lia.
Qed.

Lemma clamp_in_band (gn : Generator (G := G)) p : band_ok (gnAnchor gn) -> in_band (gnAnchor gn) (clamp gn p).
Proof.
  intros Ha. pose proof (deviation_spec _ Ha). unfold band_ok in Ha.
  change (MaxInt64 / 1500) with 6148914691236517 in Ha. unfold clamp, in_band. cbv zeta. no_wrap.
  split_if; lia.
Qed.

Lemma side_of_move (gn : Generator (G := G)) d :
  (0 < d -> fst (sideForDelta gn d) = SideBuy) /\ (d < 0 -> fst (sideForDelta gn d) = SideSell).
Proof. unfold sideForDelta. destruct (Z.ltb_spec 0 d), (Z.ltb_spec d 0); split; simpl; lia || done. Qed.

(** The generator's invariant. *)
Record gen_ok (gn : Generator (G := G)) : Prop := {
  go_anchor : band_ok (gnAnchor gn);
  go_last : in_band (gnAnchor gn) (gnLast gn) }.

(** One trade, relative to the price before it. *)
Record trade_ok (sym : Symbol) (anchor prev id : Z) (ts : Time) (t : Trade) : Prop := {
  to_id : trID t = id; to_symbol : trSymbol t = ID sym; to_time : trTimestamp t = tUTC ts;
  to_band : in_band anchor (trPrice t); to_qty : 1 <= trQuantity t <= MaxInt64;
  to_buy : prev < trPrice t -> trSide t = SideBuy;
  to_sell : trPrice t < prev -> trSide t = SideSell }.

Lemma in_band_i64 a p : band_ok a -> in_band a p -> 0 < p <= 8 * (MaxInt64 / 1500).
Proof.
  unfold band_ok, in_band. change (MaxInt64 / 1500) with 6148914691236517. lia.
Qed.

Lemma Gen_Next_spec gn ts :
  gen_ok gn ->
  let '(t, gn') := Gen_Next gn ts in
  trade_ok (gnSymbol gn) (gnAnchor gn) (gnLast gn) (gnNextTradeID gn) ts t /\ gen_ok gn' /\
  gnSymbol gn' = gnSymbol gn /\ gnAnchor gn' = gnAnchor gn /\ gnLast gn' = trPrice t /\
  gnNextTradeID gn' = u64 (gnNextTradeID gn + 1).
Proof.
  intros [Ha Hl]. unfold Gen_Next.
  pose proof (volatility_same gn ts) as HV. set (g1 := stepVolatility gn ts) in *. cbv zeta.
  pose proof (walk_same g1) as HW. destruct (walk g1) as [p g2]. cbn [snd] in HW.
  assert (H12 : same_market gn g2) by by transitivity g1.
  destruct H12 as [Hs Hanc Hlast Hid].
  assert (Hb : in_band (gnAnchor gn) (clamp g2 p)).
  { rewrite <- Hanc. apply clamp_in_band. by rewrite Hanc. }
  set (q := clamp g2 p) in *.
  assert (Hd : i64 (q - gnLast g2) = q - gnLast gn).
  { rewrite Hlast. pose proof (in_band_i64 _ _ Ha Hb). pose proof (in_band_i64 _ _ Ha Hl).
    change (MaxInt64 / 1500) with 6148914691236517 in *. by no_wrap. }
  rewrite Hd. pose proof (side_of_move g2 (q - gnLast gn)) as [Hbuy Hsell].
  pose proof (side_same g2 (q - gnLast gn)) as [Hs3 Ha3 _ Hid3].
  destruct (sideForDelta g2 (q - gnLast gn)) as [side g3]. cbn [fst snd] in *.
  pose proof (quantity_same (with_move g3 q side)) as [[Hs4 Ha4 Hl4 Hid4] Hq].
  destruct (quantity (with_move g3 q side)) as [qt g4]. cbn [fst snd] in *. cbn in Hs4, Ha4, Hl4, Hid4.
  split; [|split; [|repeat split]]; cbn; try congruence.
  - split; cbn; try congruence; intros; [apply Hbuy|apply Hsell]; lia.
  - split; cbn; by rewrite ?Hl4, Ha4, Ha3, Hanc.
Qed.

Fixpoint gen_run (gn : Generator (G := G)) (tss : list Time) : list Trade * Generator :=
  match tss with
  | [] => ([], gn)
  | ts :: tss =>
      let '(t, gn) := Gen_Next gn ts in
      let '(l, gn) := gen_run gn tss in (t :: l, gn)
  end.

(** A run of trades from the price [prev] and the identifier [id]. *)
Fixpoint trades_ok (sym : Symbol) (anchor prev id : Z) (tss : list Time) (l : list Trade) : Prop :=
  match tss, l with
  | [], [] => True
  | ts :: tss, t :: l =>
      trade_ok sym anchor prev id ts t /\ trades_ok sym anchor (trPrice t) (u64 (id + 1)) tss l
  | _, _ => False
  end.

Lemma gen_run_spec tss gn :
  gen_ok gn ->
  trades_ok (gnSymbol gn) (gnAnchor gn) (gnLast gn) (gnNextTradeID gn) tss (fst (gen_run gn tss)) /\
  gen_ok (snd (gen_run gn tss)).
Proof.
  revert gn. induction tss as [|ts tss IH]; intros gn Hg; [by split|]. cbn [gen_run].
  pose proof (Gen_Next_spec gn ts Hg) as Hn. destruct (Gen_Next gn ts) as [t gn1].
  destruct Hn as (Ht & Hg1 & Hs & Ha & Hl & Hid). specialize (IH gn1 Hg1).
  destruct (gen_run gn1 tss) as [l gn2]. cbn [fst snd trades_ok] in *.
  rewrite Hs, Ha, Hl, Hid in IH. destruct IH as [IH Hok]. split; [by split|done].
Qed.

(** ** The provider as a sequence of operations *)

Inductive SynOp :=
| OpStep (wakeups : nat) (now : Time)
| OpPace (pace : Pace)
| OpPause (b : bool)
| OpBurst (now : Time) (d : Z)
| OpSnapshot (now : Time)
| OpStream.

Definition syn_op (p : SynProvider (G := G)) (op : SynOp) : list Trade * SynProvider :=
  match op with
  | OpStep w now =>
      let '(ev, p) := syn_step p w now in
      (match ev with TradeEvent t => [t] | _ => [] end, p)
  | OpPace pace => ([], SetPace p pace)
  | OpPause b => ([], set_paused p b)
  | OpBurst now d => ([], syn_gen p (ForceBurst (spGen p) now d))
  | OpSnapshot now => ([], fst (Syn_Snapshot p (ID (gnSymbol (spGen p))) now))
  | OpStream => ([], fst (Syn_Stream p (ID (gnSymbol (spGen p)))))
  end.

Fixpoint syn_run (p : SynProvider (G := G)) (ops : list SynOp) : list Trade * SynProvider :=
  match ops with
  | [] => ([], p)
  | op :: ops =>
      let '(l, p) := syn_op p op in
      let '(k, p) := syn_run p ops in (l ++ k, p)
  end.

(** What an operation that emits nothing leaves alone. *)
Record same_feed (p p' : SynProvider (G := G)) : Prop := {
  sf_market : same_market (spGen p) (spGen p'); sf_cfg : spCfg p' = spCfg p;
  sf_virtual : spVirtualAt p' = spVirtualAt p; sf_end : spWarmupEnd p' = spWarmupEnd p;
  sf_emitted : spEmitted p' = spEmitted p }.

#[local] Instance same_feed_trans : Transitive same_feed.
Proof. intros a b c [] []. split; [by etransitivity|congruence..]. Qed.
#[local] Instance same_market_refl : Reflexive same_market.
Proof. by split. Qed.
#[local] Instance same_feed_refl : Reflexive same_feed.
Proof. by split. Qed.

Lemma waits_same n (p : SynProvider (G := G)) : same_feed p (waits n p) /\ spPace (waits n p) = spPace p.
Proof.
  revert p. induction n as [|n IH]; intros p; cbn [waits]; [done|].
  assert (Hn : same_feed p (snd (nextInterval p)) /\ spPace (snd (nextInterval p)) = spPace p).
  { unfold nextInterval. cbv zeta. pose proof (draw_same (spGen p)) as Hd.
    destruct (draw (spGen p)) as [r gn]. by split; [split|]. }
  destruct Hn as [Hn Hp], (IH (snd (nextInterval p))) as [Hw Hwp].
  split; [by etransitivity|congruence].
Qed.

Lemma turn_same (p : SynProvider (G := G)) w : same_feed p (waitForTurn p w) /\ spPace (waitForTurn p w) = spPace p.
Proof.
  unfold waitForTurn. destruct (spPace p) eqn:E; [|done].
  destruct (waits_same (S w) p). split; [done|congruence].
Qed.

Lemma timestamp_gen (p : SynProvider (G := G)) now ts p' :
  nextTimestamp p now = (ts, p') ->
  spGen p' = spGen p /\ spCfg p' = spCfg p /\ spWarmupEnd p' = spWarmupEnd p /\
  spPace p' = spPace p /\ spEmitted p' = spEmitted p.
Proof.
  unfold nextTimestamp. destruct (spPace p) eqn:E; [by intros [= <- <-]|].
  destruct (negb (tBefore (spVirtualAt p) (spWarmupEnd p))); intros [= <- <-]; by rewrite ?E.
Qed.

Lemma silent_same p op :
  (forall w now, op <> OpStep w now) ->
  fst (syn_op p op) = [] /\ same_feed p (snd (syn_op p op)).
Proof.
  destruct op as [w now|pace|b|now d|now|]; intros Hno; [by destruct (Hno w now)|..];
    cbn [syn_op fst snd]; try done.
  - split; [done|]. split; try done. cbn. unfold ForceBurst. by destruct (d <=? 0).
  - split; [done|]. unfold Syn_Snapshot. cbv zeta. rewrite bool_decide_eq_true_2 by done. cbn [negb].
    destruct (spBoot p) as [[bids asks]|]; [done|].
    by destruct (BuildLadder _ _ _ _) as [[bids asks] g].
  - split; [done|]. unfold Syn_Stream. rewrite bool_decide_eq_true_2 by done. cbn [negb].
    by destruct (spStreaming p).
Qed.

Lemma step_spec p w now :
  gen_ok (spGen p) ->
  exists ts t p', syn_step p w now = (TradeEvent t, p') /\
    trade_ok (gnSymbol (spGen p)) (gnAnchor (spGen p)) (gnLast (spGen p)) (gnNextTradeID (spGen p)) ts t /\
    gen_ok (spGen p') /\ gnSymbol (spGen p') = gnSymbol (spGen p) /\
    gnAnchor (spGen p') = gnAnchor (spGen p) /\ gnLast (spGen p') = trPrice t /\
    gnNextTradeID (spGen p') = u64 (gnNextTradeID (spGen p) + 1) /\ spCfg p' = spCfg p.
Proof.
  intros Hg. unfold syn_step. cbv zeta. pose proof (turn_same p w) as [[Hm Hc _ _ _] _].
  set (q := waitForTurn p w) in *. clearbody q.
  destruct (nextTimestamp q now) as [ts q'] eqn:Ets.
  apply timestamp_gen in Ets as (Hgen & Hc' & _). rewrite Hgen. destruct Hm as [Hs Ha Hl Hi].
  assert (Hq : gen_ok (spGen q)) by (destruct Hg; split; congruence).
  pose proof (Gen_Next_spec (spGen q) ts Hq) as Hn. destruct (Gen_Next (spGen q) ts) as [t gn].
  rewrite Hs, Ha, Hl, Hi in Hn. destruct Hn as (? & ? & ? & ? & ? & ?).
  exists ts, t. eexists. split; [done|]. cbn. split_and!; done || congruence.
Qed.

(** The invariant of a provider for the market [sym] with anchor [a]. *)
Record syn_ok (sym : Symbol) (a : Z) (p : SynProvider (G := G)) : Prop := {
  so_gen : gen_ok (spGen p); so_symbol : gnSymbol (spGen p) = sym; so_anchor : gnAnchor (spGen p) = a }.

Lemma syn_run_spec ops sym a p :
  syn_ok sym a p ->
  syn_ok sym a (snd (syn_run p ops)) /\
  exists tss, trades_ok sym a (gnLast (spGen p)) (gnNextTradeID (spGen p)) tss (fst (syn_run p ops)).
Proof.
  revert p. induction ops as [|op ops IH]; intros p Hp; [by split; [|exists []]|].
  cbn [syn_run]. destruct (syn_op p op) as [l p1] eqn:Eop.
  assert (Hstep : syn_ok sym a p1 /\
    ((l = [] /\ gnLast (spGen p1) = gnLast (spGen p) /\ gnNextTradeID (spGen p1) = gnNextTradeID (spGen p)) \/
     exists ts t, l = [t] /\ trade_ok sym a (gnLast (spGen p)) (gnNextTradeID (spGen p)) ts t /\
       gnLast (spGen p1) = trPrice t /\ gnNextTradeID (spGen p1) = u64 (gnNextTradeID (spGen p) + 1))).
  { destruct Hp as [Hg Hs Ha]. pose proof (silent_same p op) as Hsil. destruct op as [w now| | | | |];
      [|destruct Hsil as [Hl [Hm _ _ _ _]]; [done|];
        rewrite Eop in Hl, Hm; cbn [fst snd] in Hl, Hm; destruct Hm as [? ? ? ?], Hg;
        split; [split; [split| |]; congruence|by left] ..].
    cbn [syn_op] in Eop. destruct (step_spec p w now Hg) as (ts & t & p' & E & Ht & Hg' & ? & ? & ? & ? & _).
    rewrite E in Eop. injection Eop as <- <-. rewrite Hs, Ha in Ht. split; [split; congruence|].
    right. by exists ts, t. }
  destruct Hstep as [Hp1 Hl]. specialize (IH p1 Hp1). destruct (syn_run p1 ops) as [k p2].
  cbn [fst snd] in *. destruct IH as [Hp2 [tss Hk]]. split; [done|].
  destruct Hl as [(-> & Hlast & Hid)|(ts & t & -> & Ht & Hlast & Hid)]; rewrite Hlast, Hid in Hk.
  - by exists tss.
  - by exists (ts :: tss).
Qed.

Context (rng : Z -> Z -> G).

Lemma NewSynthetic_ok cfg start :
  band_ok (anchorPrice (sySymbol cfg)) ->
  syn_ok (sySymbol cfg) (anchorPrice (sySymbol cfg)) (NewSynthetic rng cfg start).
Proof.
  intros Hb. split; [split|done|done]; cbn; [done|]. unfold in_band. unfold band_ok in Hb. lia.
Qed.

(** Every trade a synthetic provider emits, whatever operations (pacing,
    pausing, bursts, snapshots) are interleaved: consecutive identifiers from
    1000000, the market's symbol, a price within 15% of the anchor, a positive
    quantity, and the side of the price's move. *)
Theorem feed_trades cfg start ops :
  let sym := sySymbol cfg in
  band_ok (anchorPrice sym) ->
  exists tss, trades_ok sym (anchorPrice sym) (anchorPrice sym) InitialTradeID tss
    (fst (syn_run (NewSynthetic rng cfg start) ops)).
Proof. intros sym Hb. by apply (syn_run_spec ops _ _ _ (NewSynthetic_ok cfg start Hb)). Qed.

(** ** The timeline *)

Definition is_step (op : SynOp) : bool := match op with OpStep _ _ => true | _ => false end.
Definition not_pace (op : SynOp) : bool := match op with OpPace _ => false | _ => true end.
Definition not_burst (op : SynOp) : bool := match op with OpBurst _ _ => false | _ => true end.
Definition steps (ops : list SynOp) : nat := length (List.filter is_step ops).

(** The timestamp of warmup event [i]: a grid, clamped to the start of the
    live phase. *)
Definition warm_time (at_ end_ : Time) (step : Z) (i : nat) : Time :=
  let t := tAdd at_ (Z.of_nat i * step) in if tBefore t end_ then t else end_.
Definition warm_times (at_ end_ : Time) (step : Z) (n : nat) : list Time :=
  warm_time at_ end_ step <$> seq 0 n.

Lemma WarmupStep_nonneg c : 0 <= WarmupStep c.
Proof. unfold WarmupStep, syn_withDefaults, Hour. cbv zeta. simpl. apply Z.quot_pos; split_if; lia. Qed.

Lemma warm_times_cons at_ end_ step n :
  warm_times at_ end_ step (S n) = warm_time at_ end_ step 0 :: warm_times (tAdd at_ step) end_ step n.
Proof.
  unfold warm_times. cbn [seq fmap list_fmap]. f_equal. rewrite <- seq_shift.
  rewrite <- list_fmap_compose. apply list_fmap_ext. intros i x _. unfold warm_time, tAdd. simpl.
  by replace (ns at_ + Z.of_nat (S x) * step) with (ns at_ + step + Z.of_nat x * step) by lia.
Qed.

(** Past the end the grid no longer matters. *)
Lemma warm_times_end at_ end_ step n :
  0 <= step -> tBefore at_ end_ = false ->
  warm_times (tAdd at_ step) end_ step n = warm_times at_ end_ step n.
Proof.
  intros Hs Hb. apply list_fmap_ext. intros i x _. unfold warm_time, tAdd, tBefore in *. simpl in *.
  rewrite !(proj2 (Z.ltb_ge _ _)) by (bool_to_prop; lia). done.
Qed.

Lemma trade_time (gn : Generator (G := G)) ts : trTimestamp (fst (Gen_Next gn ts)) = tUTC ts.
Proof.
  unfold Gen_Next. cbv zeta. destruct (walk _) as [? ?]. destruct (sideForDelta _ _) as [? ?].
  by destruct (quantity _) as [? ?].
Qed.

(** The part of the provider the warmup depends on. *)
Record warm_state (p : SynProvider (G := G)) (gn : Generator (G := G)) (at_ end_ : Time) (cfg : SynConfig) : Prop := {
  ws_pace : spPace p = PaceFast; ws_gen : spGen p = gn; ws_at : spVirtualAt p = at_;
  ws_end : spWarmupEnd p = end_; ws_cfg : spCfg p = cfg }.

Lemma warm_step p gn at_ end_ cfg w now :
  warm_state p gn at_ end_ cfg ->
  let '(t, gn') := Gen_Next gn (warm_time at_ end_ (WarmupStep cfg) 0) in
  exists p', syn_step p w now = (TradeEvent t, p') /\
    warm_state p' gn' (if tBefore at_ end_ then tAdd at_ (WarmupStep cfg) else at_) end_ cfg.
Proof.
  intros [Hp <- <- <- <-]. unfold syn_step, waitForTurn, nextTimestamp, warm_time. rewrite Hp.
  replace (tAdd (spVirtualAt p) (Z.of_nat 0 * WarmupStep (spCfg p))) with (spVirtualAt p)
    by (unfold tAdd; rewrite Z.mul_0_l, Z.add_0_r; by destruct (spVirtualAt p)).
  cbv zeta. rewrite Hp. destruct (tBefore (spVirtualAt p) (spWarmupEnd p)) eqn:E; cbn [negb spGen];
    destruct (Gen_Next _ _) as [t gn]; eexists; (split; [done|]); by split.
Qed.

Lemma warm_silent p op gn at_ end_ cfg :
  is_step op = false -> not_pace op = true -> not_burst op = true ->
  warm_state p gn at_ end_ cfg -> warm_state (snd (syn_op p op)) gn at_ end_ cfg.
Proof.
  intros Hs Hp Hb [? ? ? ? ?]. destruct op; try done; cbn [syn_op snd].
  - unfold Syn_Snapshot. cbv zeta. rewrite bool_decide_eq_true_2 by done. cbn [negb].
    destruct (spBoot p) as [[bids asks]|]; [by split|].
    by destruct (BuildLadder _ _ _ _) as [[bids asks] g].
  - unfold Syn_Stream. rewrite bool_decide_eq_true_2 by done. cbn [negb].
    by destruct (spStreaming p); split.
Qed.

Lemma warm_run ops p gn at_ end_ cfg :
  forallb not_pace ops = true -> forallb not_burst ops = true ->
  warm_state p gn at_ end_ cfg ->
  fst (syn_run p ops) = fst (gen_run gn (warm_times at_ end_ (WarmupStep cfg) (steps ops))).
Proof.
  revert p gn at_. induction ops as [|op ops IH]; intros p gn at_ Hnp Hnb Hw; [done|].
  cbn [forallb] in Hnp, Hnb. apply andb_true_iff in Hnp as [Hp Hps], Hnb as [Hb Hbs].
  cbn [syn_run]. destruct (is_step op) eqn:Es.
  - destruct op as [w now| | | | |]; try done. cbn [syn_op]. unfold steps. cbn [List.filter is_step length].
    fold (steps ops). rewrite warm_times_cons. cbn [gen_run].
    pose proof (warm_step p gn at_ end_ cfg w now Hw) as Hstep.
    destruct (Gen_Next gn (warm_time at_ end_ (WarmupStep cfg) 0)) as [t gn'].
    destruct Hstep as (p' & -> & Hw'). specialize (IH p' gn' _ Hps Hbs Hw').
    destruct (syn_run p' ops) as [k p2]. cbn [fst] in *.
    assert (Ht : warm_times (tAdd at_ (WarmupStep cfg)) end_ (WarmupStep cfg) (steps ops)
      = warm_times (if tBefore at_ end_ then tAdd at_ (WarmupStep cfg) else at_) end_ (WarmupStep cfg) (steps ops)).
    { destruct (tBefore at_ end_) eqn:E; [done|]. apply warm_times_end; [apply WarmupStep_nonneg|done]. }
    rewrite Ht. destruct (gen_run gn' _) as [l gn2]. cbn [fst app] in *. by rewrite IH.
  - pose proof (warm_silent p op _ _ _ _ Es Hp Hb Hw) as Hw'.
    pose proof (silent_same p op ltac:(intros w now ->; done)) as [Hl _].
    destruct (syn_op p op) as [l p1]. cbn [fst snd] in *. subst l.
    unfold steps. cbn [List.filter]. rewrite Es. fold (steps ops).
    specialize (IH p1 gn at_ Hps Hbs Hw'). by destruct (syn_run p1 ops) as [k p2].
Qed.

(** C36: The warmup is a pure function of the seed and the event index: until
    the pace or a burst changes, the trades are the generator's sequence on the
    warmup grid, whatever the clock, the pauses and the snapshots in between. *)
Theorem warmup_replays cfg start ops :
  forallb not_pace ops = true -> forallb not_burst ops = true ->
  fst (syn_run (NewSynthetic rng cfg start) ops) =
  fst (gen_run (NewGenerator rng (sySymbol cfg) (sySeed cfg) (syVolatilityBurstRate cfg))
         (warm_times (tAdd start (- syWarmupSpan (syn_withDefaults cfg))) start
            (WarmupStep (syn_withDefaults cfg)) (steps ops))).
Proof. intros Hp Hb. by apply warm_run. Qed.

Definition times (l : list Trade) : list Time := trTimestamp <$> l.
Definition clocks (ops : list SynOp) : list Time :=
  omap (fun op => match op with OpStep _ now => Some now | _ => None end) ops.

(** Any operation but a change of pace, in the fast phase: at most one trade,
    at the next point of the grid. *)
Lemma warm_op_times p op gn at_ end_ cfg :
  not_pace op = true -> warm_state p gn at_ end_ cfg ->
  exists gn' at', warm_state (snd (syn_op p op)) gn' at' end_ cfg /\
  if is_step op
  then times (fst (syn_op p op)) = [tUTC (warm_time at_ end_ (WarmupStep cfg) 0)] /\
       at' = (if tBefore at_ end_ then tAdd at_ (WarmupStep cfg) else at_)
  else times (fst (syn_op p op)) = [] /\ at' = at_.
Proof.
  intros Hp Hw. destruct op as [w now|pace|b|now d|now|].
  - cbn [syn_op is_step]. pose proof (warm_step p gn at_ end_ cfg w now Hw) as Hs.
    pose proof (trade_time gn (warm_time at_ end_ (WarmupStep cfg) 0)) as Ht.
    destruct (Gen_Next gn (warm_time at_ end_ (WarmupStep cfg) 0)) as [t gn'].
    destruct Hs as (p' & -> & Hw'). exists gn'. eexists. split; [exact Hw'|]. cbn in *. by rewrite Ht.
  - done.
  - exists gn, at_. split; [by apply warm_silent|done].
  - destruct Hw. by exists (ForceBurst gn now d), at_; split; [split; cbn; congruence|].
  - exists gn, at_. split; [by apply warm_silent|done].
  - exists gn, at_. split; [by apply warm_silent|done].
Qed.

Lemma times_app l k : times (l ++ k) = times l ++ times k.
Proof. apply fmap_app. Qed.

Lemma warm_run_times ops p gn at_ end_ cfg :
  forallb not_pace ops = true -> warm_state p gn at_ end_ cfg ->
  times (fst (syn_run p ops)) = tUTC <$> warm_times at_ end_ (WarmupStep cfg) (steps ops).
Proof.
  revert p gn at_. induction ops as [|op ops IH]; intros p gn at_ Hnp Hw; [done|].
  cbn [forallb] in Hnp. apply andb_true_iff in Hnp as [Hp Hps]. cbn [syn_run].
  destruct (warm_op_times p op gn at_ end_ cfg Hp Hw) as (gn' & at' & Hw' & Hop).
  destruct (syn_op p op) as [l p1]. specialize (IH p1 gn' at' Hps Hw'). cbn [fst snd] in *.
  destruct (syn_run p1 ops) as [k p2]. cbn [fst] in *. rewrite times_app, IH. unfold steps. cbn [List.filter].
  destruct (is_step op); destruct Hop as [-> ->]; [|done]. cbn [length]. fold (steps ops).
  rewrite warm_times_cons, fmap_cons. cbn [app]. f_equal. destruct (tBefore at_ end_) eqn:E; [done|].
  by rewrite warm_times_end by (done || apply WarmupStep_nonneg).
Qed.

Lemma live_op p op :
  not_pace op = true -> spPace p = PaceRealtime ->
  spPace (snd (syn_op p op)) = PaceRealtime /\
  times (fst (syn_op p op)) = (match op with OpStep _ now => [tUTC now] | _ => [] end).
Proof.
  intros Hp Hl. destruct op as [w now|pace|b|now d|now|]; try done; cbn [syn_op fst snd].
  - unfold syn_step. cbv zeta. pose proof (turn_same p w) as [_ Hw]. rewrite Hl in Hw.
    unfold nextTimestamp. rewrite Hw. pose proof (trade_time (spGen (waitForTurn p w)) now) as Ht.
    destruct (Gen_Next _ now) as [t gn]. cbn in *. by rewrite Ht.
  - split; [|done]. unfold Syn_Snapshot. cbv zeta. rewrite bool_decide_eq_true_2 by done. cbn [negb].
    destruct (spBoot p) as [[bids asks]|]; [done|].
    by destruct (BuildLadder _ _ _ _) as [[bids asks] g].
  - split; [|done]. unfold Syn_Stream. rewrite bool_decide_eq_true_2 by done. cbn [negb].
    by destruct (spStreaming p).
Qed.

Lemma live_run_times ops p :
  forallb not_pace ops = true -> spPace p = PaceRealtime ->
  times (fst (syn_run p ops)) = tUTC <$> clocks ops.
Proof.
  revert p. induction ops as [|op ops IH]; intros p Hnp Hl; [done|].
  cbn [forallb] in Hnp. apply andb_true_iff in Hnp as [Hp Hps]. cbn [syn_run].
  destruct (live_op p op Hp Hl) as [Hl' Ht]. destruct (syn_op p op) as [l p1]. cbn [fst snd] in *.
  specialize (IH p1 Hps Hl'). destruct (syn_run p1 ops) as [k p2]. cbn [fst] in *.
  rewrite times_app, IH, Ht. by destruct op.
Qed.

Lemma syn_run_app ops1 ops2 p :
  fst (syn_run p (ops1 ++ ops2)) =
  fst (syn_run p ops1) ++ fst (syn_run (snd (syn_run p ops1)) ops2).
Proof.
  revert p. induction ops1 as [|op ops1 IH]; intros p; [done|]. cbn [app syn_run].
  destruct (syn_op p op) as [l p1]. specialize (IH p1).
  destruct (syn_run p1 (ops1 ++ ops2)) as [k p2], (syn_run p1 ops1) as [k1 p3]. cbn [fst snd] in *.
  by rewrite IH, app_assoc.
Qed.

Abbreviation no_earlier := (fun t u : Time => ns t <= ns u).

Lemma warm_times_sorted at_ end_ step n :
  0 <= step -> StronglySorted no_earlier (warm_times at_ end_ step n) /\
  Forall (fun t => ns t <= ns end_) (warm_times at_ end_ step n).
Proof.
  intros Hs. unfold warm_times. generalize 0%nat. induction n as [|n IH]; intros k; [by split; constructor|].
  cbn [seq fmap list_fmap]. destruct (IH (S k)) as [Hl Hf].
  assert (Hk : forall i, ns (warm_time at_ end_ step i) = Z.min (ns at_ + Z.of_nat i * step) (ns end_)).
  { intros i. unfold warm_time, tAdd, tBefore. cbv zeta. simpl. split_if; simpl; lia. }
  split; constructor; try done; [|rewrite Hk; lia].
  apply Forall_forall. intros t Ht. apply list_elem_of_fmap in Ht as (i & -> & Hi).
  apply elem_of_seq in Hi. rewrite !Hk. nia.
Qed.

(** The timeline of a feed that warms up and then goes live: the trades
    carry the warmup grid, clamped to the start, and then the clock, so when the
    clock does not run backwards no trade is earlier than one before it. *)
Theorem feed_timeline cfg start warm live :
  forallb not_pace warm = true -> forallb not_pace live = true ->
  StronglySorted no_earlier (start :: clocks live) ->
  let l := times (fst (syn_run (NewSynthetic rng cfg start)
                         (warm ++ OpPace PaceRealtime :: live))) in
  l = tUTC <$> warm_times (tAdd start (- syWarmupSpan (syn_withDefaults cfg))) start
                 (WarmupStep (syn_withDefaults cfg)) (steps warm) ++ clocks live /\
  StronglySorted no_earlier l.
Proof.
  intros Hw Hl [Hs Hst]%StronglySorted_inv. cbv zeta.
  rewrite syn_run_app, times_app, fmap_app. cbn [syn_run syn_op app].
  erewrite (warm_run_times warm) by (done || by split).
  set (p := snd _). pose proof (live_run_times live (SetPace p PaceRealtime) Hl eq_refl) as Hlv.
  destruct (syn_run (SetPace p PaceRealtime) live) as [k q]. cbn [fst] in *. rewrite Hlv.
  split; [done|]. rewrite <- fmap_app. set (ws := warm_times _ _ _ _).
  destruct (warm_times_sorted (tAdd start (- syWarmupSpan (syn_withDefaults cfg))) start
    (WarmupStep (syn_withDefaults cfg)) (steps warm) (WarmupStep_nonneg _)) as [Hws Hwe].
  fold ws in Hws, Hwe. apply (StronglySorted_fmap tUTC no_earlier); [done|].
  apply StronglySorted_app. split; [|done]. intros x y Hx Hy.
  rewrite Forall_forall in Hst, Hwe. specialize (Hwe x Hx). specialize (Hst y Hy). simpl in *. lia.
Qed.

End FeedSpec.

(** Every market of the roster has an anchor within the band's range. *)
Lemma roster_band : Forall (fun s => band_ok (anchorPrice s)) allSymbols.
Proof. by repeat (constructor; [by split; vm_compute|]). Qed.

(** ** Concrete runs

    Constant functions stand for those of [math]; the source is the program's. *)

Definition flat_math : MathFns :=
  {| mathExp := fun _ => f64_of_Z 1; mathLog := fun _ => f64_of_Z (-1);
     mathSin := fun _ => f64_of_Z 1; mathCos := fun _ => f64_of_Z (-1) |}.
#[local] Existing Instance flat_math.

Definition day0 : Time := unixNanos 1700000000000000000.
Definition defaults (sym : Symbol) (seed : Z) (burst : float64) : SynConfig := mkSyn sym seed (f64_of_Z 0) 0 0 burst 0 0.

Lemma feed_trades_witness :
  band_ok (anchorPrice BTCUSDT) /\
  exists tss, trades_ok BTCUSDT 6742135 6742135 InitialTradeID tss
    (fst (syn_run (NewSynthetic NewPCG (defaults BTCUSDT 42 (f64_of_Z 0)) day0)
            [OpStep 0 day0; OpBurst day0 Second; OpStep 0 day0; OpPace PaceRealtime; OpStep 1 day0])).
Proof.
  assert (Hb : band_ok (anchorPrice BTCUSDT)) by by split; vm_compute.
  split; [exact Hb|]. exact (feed_trades NewPCG (defaults BTCUSDT 42 (f64_of_Z 0)) day0 _ Hb).
Defined.

Lemma warmup_replays_witness :
  let ops := [OpStep 0 day0; OpSnapshot day0; OpPause true; OpStep 3 zeroTime] in
  forallb not_pace ops = true /\ forallb not_burst ops = true /\
  fst (syn_run (NewSynthetic NewPCG (defaults ETHUSDT 7 (f64_of_Z 4)) day0) ops) =
  fst (gen_run (NewGenerator NewPCG ETHUSDT 7 (f64_of_Z 4))
         (warm_times (tAdd day0 (- (720 * Hour))) day0 (WarmupStep (defaults ETHUSDT 7 (f64_of_Z 4))) 2)).
Proof.
  cbv zeta. split; [reflexivity|]. split; [reflexivity|].
  exact (warmup_replays NewPCG (defaults ETHUSDT 7 (f64_of_Z 4)) day0
    [OpStep 0 day0; OpSnapshot day0; OpPause true; OpStep 3 zeroTime] eq_refl eq_refl).
Defined.

Lemma feed_timeline_witness :
  let warm := [OpStep 0 day0; OpBurst day0 Second; OpStep 0 day0] in
  let live := [OpStep 0 (tAdd day0 5); OpSnapshot day0; OpStep 2 (tAdd day0 9)] in
  forallb not_pace warm = true /\ forallb not_pace live = true /\
  StronglySorted (fun t u => ns t <= ns u)
    (times (fst (syn_run (NewSynthetic NewPCG (defaults SOLUSDT 7 (f64_of_Z 4)) day0)
                   (warm ++ OpPace PaceRealtime :: live)))).
Proof.
  cbv zeta. split; [reflexivity|]. split; [reflexivity|].
  refine (proj2 (feed_timeline NewPCG (defaults SOLUSDT 7 (f64_of_Z 4)) day0
    [OpStep 0 day0; OpBurst day0 Second; OpStep 0 day0]
    [OpStep 0 (tAdd day0 5); OpSnapshot day0; OpStep 2 (tAdd day0 9)] eq_refl eq_refl _)).
  repeat constructor; vm_compute; discriminate.
Defined.
