(* ===== verification/LadderSpec.v ===== *)
(** * The bootstrap ladder

    [BuildLadder] yields a well-formed book when the mid price leaves room for
    its levels, the snapshot of a provider is that book on every call, and the
    engine's book installs it. *)

From S2P Require Import Prelude Money GoTime Domain Float64 Rand Book BookFacts Provider Feed FeedSpec.

(** A side of [n] levels strictly between [lo] and [hi], positive sizes. *)
Record side_ok (bid : bool) (n : nat) (lo hi : Z) (l : list Level) : Prop := {
  sd_length : length l = n; sd_ordered : ordered bid l;
  sd_range : Forall (fun p => lo < p < hi) (prices l);
  sd_qty : Forall (fun v => 1 <= lvQuantity v <= MaxInt64) l }.

Lemma side_ok_cons bid n lo hi lo' hi' l v :
  side_ok bid n lo' hi' l -> lo < lvPrice v < hi -> lo <= lo' -> hi' <= hi ->
  (if bid then hi' <= lvPrice v else lvPrice v <= lo') ->
  1 <= lvQuantity v <= MaxInt64 -> side_ok bid (S n) lo hi (v :: l).
Proof.
  intros [Hn Ho Hr Hq] Hv Hlo Hhi Hb Hqv. split; cbn [length]; [lia| | |by constructor].
  - apply ordered_cons. split; [|done]. eapply Forall_impl; [exact Hr|]. cbn beta.
    intros p Hp. destruct bid; simpl; lia.
  - constructor; [done|]. eapply Forall_impl; [exact Hr|]. cbn beta. lia.
Qed.

Section Ladder.
Context {G : Type} `{RandLaws G} `{MathFns}.

Lemma levelSize_range sym d cfg (g : G) : 1 <= fst (levelSize sym d cfg g) <= MaxInt64.
Proof.
  unfold levelSize. cbv zeta. destruct (rFloat64 g) as [r g']. apply at_least_one_range.
Qed.

Lemma ladder_levels_ok sym cfg bb ba n i gap (g : G) :
  0 <= gap -> 0 < bb - gap - 2 * Z.of_nat n -> ba + gap + 2 * Z.of_nat n < MaxInt64 ->
  bb <= MaxInt64 -> 0 <= ba ->
  let '(bids, asks, _) := ladder_levels sym cfg bb ba n i gap g in
  side_ok true n (bb - gap - 2 * Z.of_nat n - 1) (bb - gap) bids /\
  side_ok false n (ba + gap) (ba + gap + 2 * Z.of_nat n + 1) asks.
Proof.
  revert i gap g. induction n as [|n IH]; intros i gap g Hg Hlo Hhi Hbb Hba; cbn [ladder_levels].
  { split; split; try done; constructor. }
  pose proof (IntN_range 2 g ltac:(lia)) as Hk. destruct (IntN 2 g) as [k g1]. cbn [fst] in Hk. cbv zeta.
  assert (Hbp : i64 (bb - (gap + (1 + k))) = bb - (gap + (1 + k))) by (by no_wrap).
  assert (Hap : i64 (ba + (gap + (1 + k))) = ba + (gap + (1 + k))) by (by no_wrap).
  rewrite Hbp, Hap. rewrite (proj2 (Z.leb_gt (bb - (gap + (1 + k))) 0)) by lia.
  pose proof (levelSize_range sym i cfg g1) as Hq1. destruct (levelSize sym i cfg g1) as [bq g2].
  pose proof (levelSize_range sym i cfg g2) as Hq2. destruct (levelSize sym i cfg g2) as [aq g3].
  specialize (IH (i + 1) (gap + (1 + k)) g3 ltac:(lia) ltac:(lia) ltac:(lia) Hbb Hba).
  destruct (ladder_levels _ _ _ _ _ _ _ _) as [[bids asks] g4]. destruct IH as [Hb Ha].
  cbn [fst] in *. split; (eapply side_ok_cons; [eassumption|cbn [lvPrice lvQuantity]; lia..]).
Qed.

(** How deep the ladder of a configuration is. *)
Definition ladder_depth (cfg : SynConfig) : Z :=
  lcLevels (DefaultLadderConfig (syBookLevels (syn_withDefaults cfg))).

Record ladder_ok (n : Z) (bids asks : list Level) : Prop := {
  ld_bids : len bids = n; ld_asks : len asks = n;
  ld_bid_order : ordered true bids; ld_ask_order : ordered false asks;
  ld_uncrossed : uncrossed bids asks;
  ld_positive : Forall (fun p => 0 < p) (prices bids);
  ld_qty : Forall (fun v => 1 <= lvQuantity v <= MaxInt64) (bids ++ asks) }.

Lemma BuildLadder_ok sym mid cfg (g : G) :
  0 < lcLevels cfg -> 1 <= lcHalfSpreadTicks cfg ->
  lcHalfSpreadTicks cfg + 2 * lcLevels cfg < mid ->
  mid + lcHalfSpreadTicks cfg + 2 * lcLevels cfg < MaxInt64 ->
  let '(bids, asks, _) := BuildLadder sym mid cfg g in ladder_ok (lcLevels cfg) bids asks.
Proof.
  intros Hl Hh Hlo Hhi. unfold BuildLadder. rewrite (proj2 (Z.leb_gt _ _)) by lia. cbv zeta.
  rewrite (proj2 (Z.ltb_ge (lcHalfSpreadTicks cfg) 1)) by lia. no_wrap.
  rewrite (proj2 (Z.leb_gt (mid - lcHalfSpreadTicks cfg) 0)) by lia.
  rewrite (proj2 (Z.leb_gt (mid + lcHalfSpreadTicks cfg) _)) by lia.
  pose proof (ladder_levels_ok sym cfg (mid - lcHalfSpreadTicks cfg) (mid + lcHalfSpreadTicks cfg)
    (Z.to_nat (lcLevels cfg)) 0 0 g ltac:(lia) ltac:(lia) ltac:(lia) ltac:(lia) ltac:(lia)) as Hok.
  destruct (ladder_levels _ _ _ _ _ _ _ _) as [[bids asks] g']. destruct Hok as [[Hbn Hbo Hbr Hbq] [Han Hao Har Haq]].
  split; try done; try (unfold len; lia).
  - intros x y Hx Hy. rewrite Forall_forall in Hbr, Har. specialize (Hbr x Hx). specialize (Har y Hy). simpl in *. lia.
  - eapply Forall_impl; [exact Hbr|]. cbn beta. lia.
  - by apply Forall_app.
Qed.

(** ** Installation *)

Lemma ordered_trim bid l n : ordered bid l -> ordered bid (trimTo l n).
Proof. intros. unfold trimTo. split_if; [done|by apply ordered_take]. Qed.

Lemma trim_incl l n x : x ∈ prices (trimTo l n) -> x ∈ prices l.
Proof.
  unfold trimTo. split_if; [done|]. rewrite <- (take_drop (Z.to_nat n) l) at 2.
  unfold prices. rewrite fmap_app, elem_of_app. by left.
Qed.

Lemma install_ladder b epoch uid n bids asks :
  0 < n -> ladder_ok n bids asks ->
  exists b', Install b epoch uid bids asks = (b', None) /\ book_ordered b' /\
    bkEpoch b' = epoch /\ bkUpdateID b' = uid.
Proof.
  intros Hn [Hb Ha Hbo Hao Hu _ _]. unfold Install.
  destruct bids as [|bid bids]; [unfold len in Hb; simpl in Hb; lia|].
  destruct asks as [|ask asks]; [unfold len in Ha; simpl in Ha; lia|].
  assert (Hlt : lvPrice bid < lvPrice ask) by (apply Hu; by left).
  rewrite Cmp_ge, (proj2 (Z.leb_gt _ _)) by done. eexists. split; [done|]. split; [|done].
  split; cbn [bkBids bkAsks]; [by apply ordered_trim..|].
  intros x y Hx%trim_incl Hy%trim_incl. by apply Hu.
Qed.

(** ** The snapshot of a provider *)

Lemma waits_boot n (p : SynProvider (G := G)) : spBoot (waits n p) = spBoot p.
Proof.
  revert p. induction n as [|n IH]; intros p; cbn [waits]; [done|]. rewrite IH.
  unfold nextInterval. cbv zeta. by destruct (draw (spGen p)) as [r gn].
Qed.

Lemma step_boot (p : SynProvider (G := G)) w now : spBoot (snd (syn_step p w now)) = spBoot p.
Proof.
  unfold syn_step, waitForTurn, nextTimestamp. cbv zeta.
  destruct (spPace p) eqn:E.
  - pose proof (waits_boot (S w) p) as Hb. pose proof (waits_same (S w) p) as [_ Hp]. rewrite Hp, E.
    by destruct (Gen_Next _ _) as [t gn].
  - rewrite E. by destruct (negb _); destruct (Gen_Next _ _) as [t gn].
Qed.

(** The invariant: the market, the configuration, and the cached ladder. *)
Record boot_ok (sym : Symbol) (a : Z) (cfg : SynConfig) (p : SynProvider (G := G)) : Prop := {
  bt_ok : syn_ok sym a p; bt_cfg : spCfg p = syn_withDefaults cfg;
  bt_boot : forall bids asks, spBoot p = Some (bids, asks) -> ladder_ok (ladder_depth cfg) bids asks }.

(** There is room for the ladder below any price of the band. *)
Definition room (a : Z) (cfg : SynConfig) : Prop := 100 * (2 + 2 * ladder_depth cfg) < 85 * a.

Lemma depth_pos cfg : 20 <= ladder_depth cfg.
Proof. unfold ladder_depth, DefaultLadderConfig. cbn [lcLevels]. split_if; lia. Qed.

Lemma fresh_ladder sym a cfg p (g : G) :
  boot_ok sym a cfg p -> room a cfg ->
  let '(bids, asks, _) := BuildLadder sym (gnLast (spGen p))
                            (DefaultLadderConfig (syBookLevels (spCfg p))) g in
  ladder_ok (ladder_depth cfg) bids asks.
Proof.
  intros [[[Ha Hl] Hs <-] -> _] Hr. pose proof (depth_pos cfg). unfold room in Hr.
  unfold band_ok, in_band in *. change (MaxInt64 / 1500) with 6148914691236517 in *.
  apply BuildLadder_ok; fold (ladder_depth cfg); cbn [DefaultLadderConfig lcHalfSpreadTicks]; lia.
Qed.

Lemma snapshot_spec sym a cfg p now :
  boot_ok sym a cfg p -> room a cfg ->
  exists bids asks p', Syn_Snapshot p (ID sym) now = (p', Ok (mkSnapshot (ID sym) 0 0 bids asks now)) /\
    ladder_ok (ladder_depth cfg) bids asks /\ boot_ok sym a cfg p' /\ spBoot p' = Some (bids, asks).
Proof.
  intros Hb Hr. pose proof Hb as [[Hg Hs Ha] Hc Hboot]. unfold Syn_Snapshot. cbv zeta.
  rewrite Hs, bool_decide_eq_true_2 by done. cbn [negb].
  destruct (spBoot p) as [[bids asks]|] eqn:E.
  - exists bids, asks, p. split_and!; try done. by apply Hboot.
  - pose proof (fresh_ladder sym a cfg p (spLadderRNG p) Hb Hr) as Hl.
    destruct (BuildLadder _ _ _ _) as [[bids asks] g]. exists bids, asks. eexists. split; [done|].
    split; [done|]. split; [|done]. split; [by split|done|]. by intros ? ? [= <- <-].
Qed.

Lemma boot_step sym a cfg p op :
  boot_ok sym a cfg p -> room a cfg -> boot_ok sym a cfg (snd (syn_op p op)).
Proof.
  intros Hb Hr. pose proof Hb as [[Hg Hs Ha] Hc Hboot]. destruct op as [w now|pace|b|now d|now|].
  - cbn [syn_op]. destruct (step_spec p w now Hg) as (ts & t & p' & E & _ & Hg' & ? & ? & _ & _ & ?).
    pose proof (step_boot p w now) as Hsb. rewrite E in *. cbn [snd] in *.
    split; [split; congruence|congruence|]. by rewrite Hsb.
  - by split; [split|..].
  - by split; [split|..].
  - cbn [syn_op snd]. destruct Hg. split; [split; [split|..]|..]; cbn; unfold ForceBurst; by destruct (d <=? 0).
  - cbn [syn_op snd]. rewrite Hs.
    by destruct (snapshot_spec sym a cfg p now Hb Hr) as (bids & asks & p' & -> & _ & Hp & _).
  - cbn [syn_op snd]. unfold Syn_Stream. rewrite bool_decide_eq_true_2 by done. cbn [negb].
    destruct (spStreaming p); [done|]. by split; [split|..].
Qed.

Lemma boot_run sym a cfg ops p :
  boot_ok sym a cfg p -> room a cfg -> boot_ok sym a cfg (snd (syn_run p ops)).
Proof.
  revert p. induction ops as [|op ops IH]; intros p Hb Hr; [done|]. cbn [syn_run].
  pose proof (boot_step sym a cfg p op Hb Hr) as Hs. destruct (syn_op p op) as [l p1].
  specialize (IH p1 Hs Hr). by destruct (syn_run p1 ops) as [k p2].
Qed.

Lemma boot_kept ops (p : SynProvider (G := G)) x :
  spBoot p = Some x -> spBoot (snd (syn_run p ops)) = Some x.
Proof.
  revert p. induction ops as [|op ops IH]; intros p Hb; [done|]. cbn [syn_run].
  assert (Hs : spBoot (snd (syn_op p op)) = Some x).
  { destruct op as [w now|pace|b|now d|now|]; try done; cbn [syn_op].
    - pose proof (step_boot p w now) as Hk. destruct (syn_step p w now) as [ev p1]. cbn [snd] in *. congruence.
    - unfold Syn_Snapshot. cbv zeta. rewrite bool_decide_eq_true_2, Hb by done. by destruct x.
    - unfold Syn_Stream. rewrite bool_decide_eq_true_2 by done. by destruct (negb true), (spStreaming p). }
  destruct (syn_op p op) as [l p1]. specialize (IH p1 Hs). by destruct (syn_run p1 ops) as [k p2].
Qed.

Context (rng : Z -> Z -> G).

(** C37: The snapshot a provider bootstraps an engine with, at whatever point of
    the stream it is asked for: a ladder of the configured depth with bids
    strictly descending, asks strictly ascending, nothing crossed, positive
    prices and sizes; any book installs it and is then well ordered; and every
    later snapshot returns the same levels. *)
Theorem bootstrap_book cfg start ops now b :
  let sym := sySymbol cfg in
  band_ok (anchorPrice sym) -> room (anchorPrice sym) cfg ->
  exists p' bids asks,
    Syn_Snapshot (snd (syn_run (NewSynthetic rng cfg start) ops)) (ID sym) now =
      (p', Ok (mkSnapshot (ID sym) 0 0 bids asks now)) /\
    ladder_ok (ladder_depth cfg) bids asks /\
    (exists b', Install b 0 0 bids asks = (b', None) /\ book_ordered b') /\
    (forall ops' now', snd (Syn_Snapshot (snd (syn_run p' ops')) (ID sym) now') =
       Ok (mkSnapshot (ID sym) 0 0 bids asks now')).
Proof.
  intros sym Hb Hr.
  assert (H0' : boot_ok sym (anchorPrice sym) cfg (NewSynthetic rng cfg start))
    by (split; [by apply NewSynthetic_ok|done|done]).
  pose proof (boot_run _ _ _ ops _ H0' Hr) as Hp.
  destruct (snapshot_spec _ _ _ _ now Hp Hr) as (bids & asks & p' & E & Hl & Hp' & Hboot).
  exists p', bids, asks. split; [done|]. split; [done|]. split.
  { pose proof (depth_pos cfg).
    destruct (install_ladder b 0 0 (ladder_depth cfg) _ _ ltac:(lia) Hl) as (b' & ? & ? & _). by exists b'. }
  intros ops' now'. pose proof (boot_run _ _ _ ops' _ Hp' Hr) as [[_ Hs _] _ _].
  pose proof (boot_kept ops' p' _ Hboot) as Hk. unfold Syn_Snapshot. cbv zeta.
  by rewrite Hs, bool_decide_eq_true_2, Hk by done.
Qed.

End Ladder.

#[local] Existing Instance flat_math.

(** The default configuration has room on every market of the roster. *)
Lemma roster_room : Forall (fun s => room (anchorPrice s) (defaults s 42 (f64_of_Z 4))) allSymbols.
Proof. by repeat (constructor; [by vm_compute|]). Qed.

Lemma bootstrap_book_witness :
  exists p' bids asks,
    Syn_Snapshot (snd (syn_run (NewSynthetic NewPCG (defaults ADAUSDT 42 (f64_of_Z 4)) day0)
                         [OpStream; OpStep 0 day0])) (ID ADAUSDT) day0 =
      (p', Ok (mkSnapshot (ID ADAUSDT) 0 0 bids asks day0)) /\ ladder_ok 100 bids asks.
Proof.
  assert (Hb : band_ok (anchorPrice ADAUSDT)) by by split; vm_compute.
  assert (Hr : room (anchorPrice ADAUSDT) (defaults ADAUSDT 42 (f64_of_Z 4))) by by vm_compute.
  destruct (bootstrap_book NewPCG (defaults ADAUSDT 42 (f64_of_Z 4)) day0 [OpStream; OpStep 0 day0] day0
    (NewOrderBook ADAUSDT 100 15) Hb Hr) as (p' & bids & asks & E & Hl & _).
  exists p', bids, asks. exact (conj E Hl).
Defined.

(** Near zero the ladder breaks down: a mid of one unit gives a best bid above
    the best ask, which a book refuses to install. *)
Example small_mid_crosses :
  let '(bids, asks, _) := BuildLadder ADAUSDT 1 (DefaultLadderConfig 100) (NewPCG 1 2) in
  snd (Install (NewOrderBook ADAUSDT 100 15) 0 0 bids asks) = Some ErrCrossedBook.
Proof. vm_compute. reflexivity. Qed.
