(* ===== verification/Faults.v ===== *)
(** * Fault injection: [internal/exchange/faultinject]

    The decorator pulls events from the inner stream and applies the faults the
    schedule names for the position it has reached.  A stream is the list of
    the events the source sends before it closes; the result is the list the
    decorator sends.  Cancellation of the context is not modelled, and the clock
    of the audit trail is a function of the number of entries so far. *)

From S2P Require Import Prelude GoTime Domain Provider.

Inductive Kind := SkipBookDelta | DuplicateLast | ReversePair | DelayTrade | DropTrade.

#[global] Instance Kind_eq_dec : EqDecision Kind.
Proof. solve_decision. Defined.

Record Fault := mkFault { ftKind : Kind; ftAfter : Z; ftCount : Z; ftDelay : Z }.

(** The detail text of an audit entry. *)
Inductive Detail := DroppedBookDelta | DroppedTrade | ReEmitted | Reversed | Delayed (d : Z).

Record Apply := mkApply { apKind : Kind; apAt : Time; apEventType : string; apDetail : Detail }.

Section Decorator.
Context (schedule : list Fault) (clock : nat -> Time).

(** The decorator's fields, the source that remains, what was sent, and the
    variable [last] of the loop. *)
Record Deco := mkDeco {
  dcSeen : Z; dcApplied : list Apply; dcPending : list MarketEvent;
  dcSrc : list MarketEvent; dcOut : list MarketEvent; dcLast : option MarketEvent }.

Definition emit (d : Deco) (ev : MarketEvent) : Deco :=
  mkDeco (dcSeen d) (dcApplied d) (dcPending d) (dcSrc d) (dcOut d ++ [ev]) (dcLast d).
Definition set_last (d : Deco) (ev : MarketEvent) : Deco :=
  mkDeco (dcSeen d) (dcApplied d) (dcPending d) (dcSrc d) (dcOut d) (Some ev).

Definition note (d : Deco) (f : Fault) (ev : MarketEvent) (detail : Detail) : Deco :=
  mkDeco (dcSeen d)
    (dcApplied d ++ [mkApply (ftKind f) (clock (length (dcApplied d))) (EventType_String ev) detail])
    (dcPending d) (dcSrc d) (dcOut d) (dcLast d).

(** [None] is the end of the source. *)
Definition next (d : Deco) : option (MarketEvent * Deco) :=
  match dcPending d with
  | ev :: pending =>
      Some (ev, mkDeco (dcSeen d) (dcApplied d) pending (dcSrc d) (dcOut d) (dcLast d))
  | [] =>
      match dcSrc d with
      | [] => None
      | ev :: src => Some (ev, mkDeco (dcSeen d) (dcApplied d) [] src (dcOut d) (dcLast d))
      end
  end.

Definition advance (d : Deco) : Z * Deco :=
  let seen := i64 (dcSeen d + 1) in
  (seen, mkDeco seen (dcApplied d) (dcPending d) (dcSrc d) (dcOut d) (dcLast d)).

Definition applies (seen : Z) (f : Fault) : bool :=
  let count := if ftCount f <=? 0 then 1 else ftCount f in
  (ftAfter f <? seen) && (seen <=? i64 (ftAfter f + count)).
Definition faultsFor (seen : Z) : list Fault := List.filter (applies seen) schedule.

Definition is_delta (ev : MarketEvent) : bool :=
  match ev with BookDeltaEvent _ => true | _ => false end.
Definition is_trade (ev : MarketEvent) : bool :=
  match ev with TradeEvent _ => true | _ => false end.

(** One fault: the state and [skip]; the inner [None] leaves the goroutine. *)
Definition apply_fault (ev : MarketEvent) (f : Fault) (d : Deco) (skip : bool) : Deco * option bool :=
  match ftKind f with
  | SkipBookDelta =>
      if is_delta ev then (note d f ev DroppedBookDelta, Some true) else (d, Some skip)
  | DropTrade =>
      if is_trade ev then (note d f ev DroppedTrade, Some true) else (d, Some skip)
  | DuplicateLast =>
      match dcLast d with
      | Some last => (emit (note d f last ReEmitted) last, Some skip)
      | None => (d, Some skip)
      end
  | ReversePair =>
      match next d with
      | None => (d, None)
      | Some (nxt, d) => (set_last (emit (emit (note d f ev Reversed) nxt) ev) ev, Some skip)
      end
  | DelayTrade =>
      if is_trade ev then (note d f ev (Delayed (ftDelay f)), Some skip) else (d, Some skip)
  end.

Fixpoint apply_faults (ev : MarketEvent) (fs : list Fault) (d : Deco) (skip : bool) : Deco * option bool :=
  match fs with
  | [] => (d, Some skip)
  | f :: fs =>
      match apply_fault ev f d skip with
      | (d, None) => (d, None)
      | (d, Some skip) => apply_faults ev fs d skip
      end
  end.

(** One round of the loop; [None] when the goroutine is done. *)
Definition round (d : Deco) : Deco * bool :=
  match next d with
  | None => (d, false)
  | Some (ev, d) =>
      let '(seen, d) := advance d in
      match apply_faults ev (faultsFor seen) d false with
      | (d, None) => (d, false)
      | (d, Some true) => (d, true)
      | (d, Some false) => (set_last (emit d ev) ev, true)
      end
  end.

Fixpoint rounds (fuel : nat) (d : Deco) : option Deco :=
  match fuel with
  | O => None
  | S fuel => let '(d, more) := round d in if more then rounds fuel d else Some d
  end.

(** Every round consumes an event, so one more round than events is enough. *)
Definition stream (src : list MarketEvent) : option Deco :=
  rounds (S (length src)) (mkDeco 0 [] [] src [] None).

(** ** Termination *)

Definition remaining (d : Deco) : nat := length (dcPending d) + length (dcSrc d).

Lemma next_remaining d ev d' : next d = Some (ev, d') -> remaining d = S (remaining d').
Proof.
  unfold next, remaining. destruct (dcPending d) as [|p ps] eqn:E.
  - destruct (dcSrc d) as [|s ss]; [done|]. by intros [= _ <-].
  - intros [= _ <-]. done.
Qed.

Lemma apply_fault_remaining ev f d skip :
  (remaining (fst (apply_fault ev f d skip)) <= remaining d)%nat.
Proof.
  unfold apply_fault. destruct (ftKind f); try by case_match.
  destruct (next d) as [[nxt d']|] eqn:E; [|done]. apply next_remaining in E.
  cbn [fst]. unfold remaining in *. simpl. lia.
Qed.

Lemma apply_faults_remaining ev fs d skip :
  (remaining (fst (apply_faults ev fs d skip)) <= remaining d)%nat.
Proof.
  revert d skip. induction fs as [|f fs IH]; intros d skip; cbn [apply_faults]; [done|].
  pose proof (apply_fault_remaining ev f d skip) as Hf.
  destruct (apply_fault ev f d skip) as [d' [s|]]; cbn [fst] in *; [|done].
  specialize (IH d' s). lia.
Qed.

Lemma round_remaining d : snd (round d) = true -> (remaining (fst (round d)) < remaining d)%nat.
Proof.
  unfold round. destruct (next d) as [[ev d1]|] eqn:E; [|done]. apply next_remaining in E.
  cbn [advance]. set (d2 := mkDeco _ _ _ _ _ _).
  assert (H2 : remaining d2 = remaining d1) by done.
  pose proof (apply_faults_remaining ev (faultsFor (i64 (dcSeen d1 + 1))) d2 false) as Hf.
  destruct (apply_faults ev _ d2 false) as [d3 [[]|]]; cbn [fst snd] in *; intros; try done.
  - lia.
  - change (remaining (set_last (emit d3 ev) ev)) with (remaining d3). lia.
Qed.

Lemma rounds_enough fuel d : (remaining d < fuel)%nat -> is_Some (rounds fuel d).
Proof.
  revert d. induction fuel as [|fuel IH]; intros d Hr; [lia|]. cbn [rounds].
  pose proof (round_remaining d) as Hd. destruct (round d) as [d' []]; [|by eexists].
  apply IH. cbn [fst snd] in Hd. specialize (Hd eq_refl). lia.
Qed.
End Decorator.

(** ** What the consumer receives *)

(** The fault removes the event. *)
Definition drops (ev : MarketEvent) (f : Fault) : bool :=
  match ftKind f with
  | SkipBookDelta => is_delta ev | DropTrade => is_trade ev | _ => false
  end.
(** Faults that neither repeat nor reorder. *)
Definition in_place (f : Fault) : bool :=
  match ftKind f with DuplicateLast | ReversePair => false | _ => true end.

Definition kept (schedule : list Fault) (pos : Z) (ev : MarketEvent) : bool :=
  negb (existsb (fun f => applies pos f && drops ev f) schedule).

(** The events of a stream from position [pos] on that are kept. *)
Fixpoint keep (schedule : list Fault) (pos : Z) (src : list MarketEvent) : list MarketEvent :=
  match src with
  | [] => []
  | ev :: src =>
      (if kept schedule pos ev then [ev] else []) ++ keep schedule (pos + 1) src
  end.

Section Consumer.
Context (schedule : list Fault) (clock : nat -> Time).

Lemma in_place_faults ev fs d skip :
  forallb in_place fs = true ->
  exists applied, apply_faults clock ev fs d skip =
    (mkDeco (dcSeen d) applied (dcPending d) (dcSrc d) (dcOut d) (dcLast d),
     Some (skip || existsb (drops ev) fs)).
Proof.
  revert d skip. induction fs as [|f fs IH]; intros d skip Hi; cbn [apply_faults existsb].
  { exists (dcApplied d). rewrite orb_false_r. by destruct d. }
  cbn [forallb] in Hi. apply andb_true_iff in Hi as [Hf Hfs].
  assert (Hone : exists applied, apply_fault clock ev f d skip =
    (mkDeco (dcSeen d) applied (dcPending d) (dcSrc d) (dcOut d) (dcLast d), Some (skip || drops ev f))).
  { unfold apply_fault, drops. unfold in_place in Hf.
    destruct (ftKind f), (is_delta ev) eqn:?, (is_trade ev) eqn:?; try done; rewrite ?orb_true_r, ?orb_false_r;
      first [by exists (dcApplied d); destruct d | by eexists]. }
  destruct Hone as [ap ->]. destruct (IH (mkDeco (dcSeen d) ap (dcPending d) (dcSrc d) (dcOut d) (dcLast d))
    (skip || drops ev f) Hfs) as [ap' ->].
  exists ap'. cbn. by rewrite orb_assoc.
Qed.

Lemma existsb_filter {A} (p q : A -> bool) l :
  existsb q (List.filter p l) = existsb (fun x => p x && q x) l.
Proof.
  induction l as [|x l IH]; [done|]. simpl. destruct (p x); simpl; by rewrite IH.
Qed.

Lemma forallb_filter {A} (p q : A -> bool) l :
  (forall x, x ∈ l -> p x = true -> q x = true) -> forallb q (List.filter p l) = true.
Proof.
  induction l as [|x l IH]; intros Hq; [done|]. simpl.
  assert (IH' := IH (fun y Hy => Hq y (list_elem_of_further _ _ _ Hy))).
  destruct (p x) eqn:E; [|done]. simpl. by rewrite (Hq x (list_elem_of_here _ _) E), IH'.
Qed.

(** From a position on which only in-place faults apply, the rest of the
    stream is filtered. *)
Lemma rounds_keep src seen applied out last :
  0 <= seen -> seen + len src < MaxInt64 ->
  (forall f pos, f ∈ schedule -> seen < pos -> applies pos f = true -> in_place f = true) ->
  exists d, rounds schedule clock (S (length src)) (mkDeco seen applied [] src out last) = Some d /\
    dcOut d = out ++ keep schedule (seen + 1) src.
Proof.
  revert seen applied out last. induction src as [|ev src IH]; intros seen applied out last Hs Hl Hin.
  { eexists. split; [done|]. by rewrite app_nil_r. }
  unfold len in *. cbn [length] in Hl.
  change (rounds schedule clock (S (length (ev :: src)))) with
    (fun d => let '(d, more) := round schedule clock d in
              if more then rounds schedule clock (S (length src)) d else Some d).
  cbn beta. unfold round. cbn [next dcPending dcSrc advance dcSeen]. no_wrap.
  destruct (in_place_faults ev (faultsFor schedule (seen + 1))
    (mkDeco (seen + 1) applied [] src out last) false) as [ap E].
  { apply forallb_filter. intros f Hf Ha. apply (Hin f (seen + 1)); [done|lia|done]. }
  cbn [dcSeen dcApplied dcPending dcSrc dcOut dcLast next] in *. rewrite E. cbn [orb].
  unfold faultsFor. rewrite existsb_filter. cbn [keep]. unfold kept.
  assert (Hin' : forall f pos, f ∈ schedule -> seen + 1 < pos -> applies pos f = true -> in_place f = true)
    by (intros f pos Hf Hp; apply Hin; [done|lia]).
  destruct (existsb _ schedule); cbn [negb].
  - destruct (IH (seen + 1) ap out last ltac:(lia) ltac:(lia) Hin') as (d & Hr & Ho).
    exists d. by split.
  - destruct (IH (seen + 1) ap (out ++ [ev]) (Some ev) ltac:(lia) ltac:(lia) Hin') as (d & Hr & Ho).
    exists d. split; [done|]. by rewrite Ho, <- app_assoc.
Qed.

(** A schedule of drops and delays: the stream ends, and what the consumer
    receives is the source without exactly the events a drop of their type is
    scheduled for at their position; an empty schedule changes nothing. *)
Theorem drops_filter src :
  len src < MaxInt64 -> forallb in_place schedule = true ->
  (exists d, stream schedule clock src = Some d /\ dcOut d = keep schedule 1 src) /\
  (schedule = [] -> keep schedule 1 src = src).
Proof.
  intros Hl Hi. split.
  - apply (rounds_keep src 0 [] [] None); [lia|lia|]. intros f pos Hf _ _.
    rewrite forallb_forall in Hi. apply Hi. by apply list_elem_of_In.
  - intros ->. generalize 1. induction src as [|ev src IH]; intros pos; [done|]. cbn. f_equal.
    apply IH. unfold len in *. cbn [length] in *. lia.
Qed.
End Consumer.

Lemma rounds_mono schedule clock n d x :
  rounds schedule clock n d = Some x -> rounds schedule clock (S n) d = Some x.
Proof.
  revert d. induction n as [|n IH]; intros d Hr; [done|]. cbn [rounds] in Hr.
  change (rounds schedule clock (S (S n)) d) with
    (let '(d', more) := round schedule clock d in if more then rounds schedule clock (S n) d' else Some d').
  destruct (round schedule clock d) as [d' []]; [by apply IH|done].
Qed.

(** Past its positions a schedule keeps everything. *)
Lemma keep_quiet schedule pos src :
  (forall f p, f ∈ schedule -> pos <= p -> applies p f = false) -> keep schedule pos src = src.
Proof.
  revert pos. induction src as [|ev src IH]; intros pos Hq; [done|]. cbn [keep].
  rewrite IH by (intros f p Hf Hp; apply Hq; [done|lia]). unfold kept.
  destruct (existsb _ schedule) eqn:E; [|done]. apply existsb_exists in E as (f & Hf & Hd).
  by rewrite (Hq f pos) in Hd by (by apply list_elem_of_In || lia).
Qed.

(** [ReversePair] does not swap two events: the first of the pair is sent
    a second time after the swap, because [continue] only continues the loop
    over the faults. *)
Theorem reverse_pair_repeats clock delay a b rest :
  len rest < MaxInt64 - 2 ->
  exists d, stream [mkFault ReversePair 0 1 delay] clock (a :: b :: rest) = Some d /\
    dcOut d = [b; a; a] ++ rest.
Proof.
  intros Hl. set (sch := [mkFault ReversePair 0 1 delay]).
  assert (Hq : forall f p, f ∈ sch -> 1 < p -> applies p f = false).
  { intros f p Hf Hp. apply list_elem_of_singleton in Hf as ->. unfold applies.
    apply andb_false_iff. right. apply Z.leb_gt. exact Hp. }
  destruct (rounds_keep sch clock rest 1 [mkApply ReversePair (clock 0%nat) (EventType_String a) Reversed]
    [b; a; a] (Some a)) as (d & Hr & Ho); [lia|unfold len in *; lia| |].
  { intros f p Hf Hp Ha. by rewrite Hq in Ha. }
  exists d. split; [exact (rounds_mono _ _ _ _ _ Hr)|]. rewrite Ho.
  f_equal. apply keep_quiet. intros f p Hf Hp. apply Hq; [done|lia].
Qed.

(** ** Concrete streams *)

Definition beat (n : Z) : MarketEvent := HeartbeatEvent (unixNanos n).

Definition tick (id : Z) : MarketEvent :=
  TradeEvent (mkTrade id "BTCUSDT" (unixNanos id) 1 1 SideBuy).
Definition audit_clock (n : nat) : Time := unixNanos (Z.of_nat n).

Lemma drops_filter_witness :
  let sch := [mkFault DropTrade 1 2 0; mkFault DelayTrade 0 1 Second] in
  exists d, stream sch audit_clock [tick 1; beat 2; tick 3; tick 4] = Some d /\
    dcOut d = [tick 1; beat 2; tick 4].
Proof.
  exact (proj1 (drops_filter [mkFault DropTrade 1 2 0; mkFault DelayTrade 0 1 Second] audit_clock
    [tick 1; beat 2; tick 3; tick 4] eq_refl eq_refl)).
Defined.

Lemma reverse_pair_repeats_witness :
  exists d, stream [mkFault ReversePair 0 1 0] audit_clock [tick 1; tick 2; tick 3] = Some d /\
    dcOut d = [tick 2; tick 1; tick 1; tick 3].
Proof. exact (reverse_pair_repeats audit_clock 0 (tick 1) (tick 2) [tick 3] eq_refl). Defined.
