(* ===== verification/SessionId.v ===== *)
(** * Session identifiers: [newSessionID] in [internal/delivery/manager.go]

    Sixteen bytes, a 48-bit millisecond timestamp and ten random bytes, printed
    in Crockford's base 32.  What is proved: the loop prints the base-32 digits
    of the number the bytes spell, so identifiers made in different
    milliseconds sort, as strings, in the order of their making. *)

From S2P Require Import Prelude GoTime.
From Stdlib Require Import Ascii.

Definition crockford : string := "0123456789ABCDEFGHJKMNPQRSTVWXYZ".
(** [crockford[n & 0x1F]]. *)
Definition crock (n : Z) : ascii := default "0"%char (String.get (Z.to_nat (Z.land n 31)) crockford).

Definition byte (z : Z) : Z := z `mod` 256.
Definition u32 (z : Z) : Z := z `mod` 4294967296.

(** [binary.BigEndian.PutUint64]. *)
Definition big_endian (v : Z) : list Z :=
  map (fun i => byte (Z.shiftr v (8 * i))) [7; 6; 5; 4; 3; 2; 1; 0].

(** The sixteen bytes; [random] is what [rand.Read] filled in, [None] its
    failure. *)
Definition raw_id (now : Time) (random : option (list Z)) : list Z :=
  let ms := u64 (tUnixMilli now) in
  map (fun i => byte (Z.shiftr ms (8 * i))) [5; 4; 3; 2; 1; 0] ++
  match random with
  | Some r => r
  | None => [0; 0] ++ big_endian (u64 (tUnixNano now))
  end.

(** The inner loop; a byte adds eight bits to fewer than five, so at most two
    rounds print something. *)
Fixpoint drain (fuel : nat) (acc bits : Z) (out : list ascii) : Z * list ascii :=
  match fuel with
  | O => (bits, out)
  | S fuel =>
      if (5 <=? bits) && (len out <? 26) then
        let bits := bits - 5 in drain fuel acc bits (out ++ [crock (Z.shiftr acc bits)])
      else (bits, out)
  end.

Fixpoint encode_bytes (raw : list Z) (acc bits : Z) (out : list ascii) : Z * list ascii :=
  match raw with
  | [] => (acc, out)
  | b :: raw =>
      let acc := Z.lor (u32 (Z.shiftl acc 8)) b in
      let '(bits, out) := drain 3 acc (bits + 8) out in encode_bytes raw acc bits out
  end.

Definition encode_id (raw : list Z) : list ascii :=
  let '(acc, out) := encode_bytes raw 0 0 [] in
  out ++ repeat (crock acc) (26 - length out).

Definition newSessionID (now : Time) (random : option (list Z)) : string * string :=
  let raw := raw_id now random in
  ("sess_" +:+ String.string_of_list_ascii (take 25 (encode_id raw)),
   String.string_of_list_ascii (map (fun i => crock (nth (10 + i) raw 0)) (seq 0 6))).

(** ** Digits *)

(** The number the bytes spell. *)
Definition number (raw : list Z) : Z := fold_left (fun v b => v * 256 + b) raw 0.
Definition is_byte (b : Z) : Prop := 0 <= b < 256.

(** The [n] base-32 digits of [v]. *)
Fixpoint digits (n : nat) (v : Z) : list Z :=
  match n with O => [] | S n => digits n (v / 32) ++ [v `mod` 32] end.

Lemma length_digits n v : length (digits n v) = n.
Proof. revert v. induction n as [|n IH]; intros v; cbn; [done|]. rewrite length_app, IH. simpl. lia. Qed.

Lemma crock_mod n : crock n = crock (n `mod` 32).
Proof. unfold crock. change 31 with (Z.ones 5). rewrite !Z.land_ones by lia. by rewrite Z.mod_mod. Qed.

(** The accumulator keeps the low 32 bits. *)
Lemma shiftr_u32 v k : 0 <= v -> 0 <= k <= 27 -> Z.shiftr (u32 v) k `mod` 32 = (v / 2 ^ k) `mod` 32.
Proof.
  intros Hv Hk. unfold u32. rewrite Z.shiftr_div_pow2 by lia.
  change 4294967296 with (2 ^ 32). replace (2 ^ 32) with (2 ^ k * 2 ^ (32 - k)) by (rewrite <- Z.pow_add_r; [f_equal; lia|lia..]).
  pose proof (Z.pow_pos_nonneg 2 k). pose proof (Z.pow_pos_nonneg 2 (32 - k)).
  rewrite Z.rem_mul_r by lia. rewrite Z.add_comm, Z.mul_comm, Z.div_add_l by lia.
  rewrite (Z.div_small (v `mod` 2 ^ k)) by (apply Z.mod_pos_bound; lia). rewrite Z.add_0_r.
  replace (2 ^ (32 - k)) with (32 * 2 ^ (27 - k)) by (change 32 with (2 ^ 5) at 1; rewrite <- Z.pow_add_r; [f_equal; lia|lia..]).
  pose proof (Z.pow_pos_nonneg 2 (27 - k)).
  rewrite Z.rem_mul_r by lia. rewrite Z.mul_comm, Z.mod_add by lia. by rewrite Z.mod_mod.
Qed.

Lemma lor_disjoint w b : 0 <= w -> is_byte b -> Z.lor (w * 256) b = w * 256 + b.
Proof.
  unfold is_byte. intros Hw Hb.
  assert (Hl : Z.land (w * 256) b = 0).
  { apply Z.bits_inj'. intros n Hn. rewrite Z.land_spec, Z.bits_0.
    replace (w * 256) with (Z.shiftl w 8) by (rewrite Z.shiftl_mul_pow2; lia).
    rewrite Z.shiftl_spec by lia. destruct (Z.ltb_spec n 8) as [Hn8|Hn8].
    - by rewrite Z.testbit_neg_r by lia.
    - rewrite (Z.bits_above_log2 b n), andb_false_r; [done|lia|].
      destruct (decide (b = 0)) as [->|]; [simpl; lia|].
      assert (Z.log2 b < 8) by (apply Z.log2_lt_pow2; lia). lia. }
  rewrite <- Z.lxor_lor by done. symmetry. by apply Z.add_nocarry_lxor.
Qed.

Lemma lor_byte v b : 0 <= v -> is_byte b -> Z.lor (u32 (Z.shiftl (u32 v) 8)) b = u32 (v * 256 + b).
Proof.
  intros Hv Hb. unfold u32. rewrite Z.shiftl_mul_pow2 by lia. change (2 ^ 8) with 256.
  rewrite Z.mul_mod_idemp_l by lia. change 4294967296 with (16777216 * 256).
  rewrite Z.mul_mod_distr_r by lia. pose proof (Z.mod_pos_bound v 16777216).
  rewrite lor_disjoint by (done || lia). unfold is_byte in Hb.
  apply (Z.mod_unique_pos _ _ (v / 16777216)); [lia|]. pose proof (Z.div_mod v 16777216). lia.
Qed.

(** ** The loop prints the digits *)

Definition printed (n : nat) (v : Z) : list ascii := map crock (digits n v).

Lemma printed_snoc n v : printed (S n) v = printed n (v / 32) ++ [crock v].
Proof. unfold printed. cbn [digits]. rewrite map_app. cbn [map]. by rewrite (crock_mod v). Qed.

Lemma crock_shift v k : 0 <= v -> 0 <= k <= 27 -> crock (Z.shiftr (u32 v) k) = crock (v / 2 ^ k).
Proof. intros. by rewrite (crock_mod (Z.shiftr _ _)), shiftr_u32, (crock_mod (v / _)) by done. Qed.

(** Draining prints the digits above the bits it leaves. *)
Lemma drain_spec fuel v bits n :
  0 <= v -> 0 <= bits <= 12 -> bits < 5 * Z.of_nat fuel -> Z.of_nat n + bits / 5 <= 26 ->
  drain fuel (u32 v) bits (printed n (v / 2 ^ bits)) =
    (bits `mod` 5, printed (n + Z.to_nat (bits / 5)) (v / 2 ^ (bits `mod` 5))).
Proof.
  revert bits n. induction fuel as [|fuel IH]; intros bits n Hv Hb Hf Hn; [lia|]. cbn [drain].
  unfold len. unfold printed at 1. rewrite length_map, length_digits.
  destruct (Z.leb_spec 5 bits) as [H5|H5]; cbn [andb].
  - assert (Hd : bits / 5 = 1 + (bits - 5) / 5).
    { replace bits with (bits - 5 + 1 * 5) at 1 by lia. rewrite Z.div_add by lia. lia. }
    pose proof (Z.div_pos (bits - 5) 5 ltac:(lia) ltac:(lia)).
    rewrite (proj2 (Z.ltb_lt _ _)) by lia. cbv zeta. rewrite crock_shift by lia.
    assert (Hs : printed n (v / 2 ^ bits) ++ [crock (v / 2 ^ (bits - 5))] = printed (S n) (v / 2 ^ (bits - 5))).
    { rewrite printed_snoc, Z.div_div by lia. do 3 f_equal. change 32 with (2 ^ 5).
      rewrite <- Z.pow_add_r by lia. f_equal. lia. }
    assert (Hm : (bits - 5) `mod` 5 = bits `mod` 5).
    { pose proof (Z.div_mod bits 5). pose proof (Z.div_mod (bits - 5) 5). lia. }
    rewrite Hs, IH, Hm, Hd by lia. f_equal. f_equal. lia.
  - rewrite (Z.mod_small bits), (Z.div_small bits) by lia. by rewrite Nat.add_0_r.
Qed.

Lemma number_snoc raw b : number (raw ++ [b]) = number raw * 256 + b.
Proof. unfold number. by rewrite fold_left_app. Qed.

Lemma number_nonneg raw : Forall is_byte raw -> 0 <= number raw.
Proof.
  induction raw as [|b raw IH] using rev_ind; [done|]. intros [Hr Hb]%Forall_app.
  rewrite Forall_singleton in Hb. rewrite number_snoc. unfold is_byte in Hb. specialize (IH Hr). lia.
Qed.

Lemma encode_bytes_spec raw done_ bits n :
  Forall is_byte done_ -> Forall is_byte raw -> 0 <= bits < 5 ->
  8 * len done_ = 5 * Z.of_nat n + bits -> 8 * len done_ + 8 * len raw <= 130 ->
  encode_bytes raw (u32 (number done_)) bits (printed n (number done_ / 2 ^ bits)) =
    let v := number (done_ ++ raw) in
    (u32 v, printed (Z.to_nat (8 * len (done_ ++ raw) / 5)) (v / 2 ^ ((8 * len (done_ ++ raw)) `mod` 5))).
Proof.
  revert done_ bits n. induction raw as [|b raw IH]; intros d bits n Hd Hr Hb Hn Hl; cbn [encode_bytes].
  { cbv zeta. rewrite app_nil_r.
    assert (Hq : 8 * len d / 5 = Z.of_nat n) by (symmetry; apply (Z.div_unique_pos _ _ _ bits); lia).
    assert (Hm : (8 * len d) `mod` 5 = bits) by (symmetry; apply (Z.mod_unique_pos _ _ (Z.of_nat n)); lia).
    by rewrite Hq, Hm, Nat2Z.id. }
  apply Forall_cons in Hr as [Hby Hr]. pose proof (number_nonneg d Hd) as Hp.
  assert (Hd' : Forall is_byte (d ++ [b])) by (by apply Forall_app; split; [|constructor]).
  rewrite lor_byte, <- number_snoc by done. unfold len in *. cbn [length] in Hl.
  assert (Hpre : printed n (number d / 2 ^ bits) = printed n (number (d ++ [b]) / 2 ^ (bits + 8))).
  { f_equal. rewrite number_snoc. replace (bits + 8) with (8 + bits) by lia.
    rewrite Z.pow_add_r, <- Z.div_div by lia. f_equal. change (2 ^ 8) with 256.
    unfold is_byte in Hby. rewrite Z.div_add_l, Z.div_small by lia. lia. }
  pose proof (Z.div_lt_upper_bound (bits + 8) 5 3 ltac:(lia) ltac:(lia)).
  pose proof (Z.div_mod (bits + 8) 5 ltac:(lia)). pose proof (Z.mod_pos_bound (bits + 8) 5).
  rewrite Hpre, drain_spec by (apply number_nonneg || lia; done). 
  rewrite IH; cbv zeta; rewrite <- ?app_assoc; try done; rewrite ?length_app; cbn [length]; try lia.
Qed.

Lemma encode_id_spec raw :
  Forall is_byte raw -> length raw = 16%nat ->
  take 25 (encode_id raw) = printed 25 (number raw / 8).
Proof.
  intros Hr Hl. unfold encode_id.
  pose proof (encode_bytes_spec raw [] 0 0 ltac:(constructor) Hr ltac:(lia) eq_refl) as He.
  unfold len in He. cbn [app length] in He. rewrite Hl in He. specialize (He ltac:(lia)).
  change (u32 (number [])) with 0 in He. change (printed 0 _) with (@nil ascii) in He. rewrite He.
  cbv zeta. change (Z.to_nat (8 * Z.of_nat 16 / 5)) with 25%nat. change (2 ^ ((8 * Z.of_nat 16) `mod` 5)) with 8.
  rewrite take_app_le by (unfold printed; rewrite length_map, length_digits; lia).
  apply take_ge. unfold printed. rewrite length_map, length_digits. lia.
Qed.

(** ** Sorting *)

Fixpoint lex (l k : list ascii) : comparison :=
  match l, k with
  | [], [] => Eq
  | [], _ => Lt
  | _, [] => Gt
  | a :: l, b :: k => match Ascii.compare a b with Eq => lex l k | c => c end
  end.

Lemma string_compare l k :
  String.compare (String.string_of_list_ascii l) (String.string_of_list_ascii k) = lex l k.
Proof.
  revert k. induction l as [|a l IH]; intros [|b k]; try done. cbn.
  destruct (Ascii.compare a b); [apply IH|done|done].
Qed.

Lemma lex_snoc l k a b :
  length l = length k ->
  lex (l ++ [a]) (k ++ [b]) = match lex l k with Eq => Ascii.compare a b | c => c end.
Proof.
  revert k. induction l as [|x l IH]; intros [|y k]; try done; cbn.
  - intros _. by destruct (Ascii.compare a b).
  - intros [= Hl]. destruct (Ascii.compare x y); [by apply IH|done|done].
Qed.

Lemma ascii_compare_refl a : Ascii.compare a a = Eq.
Proof. unfold Ascii.compare. apply N.compare_refl. Qed.

Lemma lex_refl l : lex l l = Eq.
Proof. induction l as [|a l IH]; [done|]. cbn. by rewrite ascii_compare_refl. Qed.

(** The alphabet is in ASCII order. *)
Lemma crock_mono a b : 0 <= a < b -> b < 32 -> Ascii.compare (crock a) (crock b) = Lt.
Proof.
  intros Ha Hb.
  assert (Hall : forallb (fun x => forallb (fun y => negb (x <? y) ||
    match Ascii.compare (crock x) (crock y) with Lt => true | _ => false end) (seqZ 0 32)) (seqZ 0 32) = true)
    by (vm_compute; reflexivity).
  rewrite forallb_forall in Hall. specialize (Hall a). rewrite forallb_forall in Hall.
  specialize (Hall ltac:(apply list_elem_of_In, elem_of_seqZ; lia) b ltac:(apply list_elem_of_In, elem_of_seqZ; lia)).
  rewrite (proj2 (Z.ltb_lt a b)) in Hall by lia. cbn [negb orb] in Hall. by destruct (Ascii.compare _ _).
Qed.

Lemma printed_lt n v w : 0 <= v < w -> w < 32 ^ Z.of_nat n -> lex (printed n v) (printed n w) = Lt.
Proof.
  revert v w. induction n as [|n IH]; intros v w Hv Hw; [simpl in Hw; lia|].
  rewrite !printed_snoc, lex_snoc by (unfold printed; by rewrite !length_map, !length_digits).
  rewrite Nat2Z.inj_succ, Z.pow_succ_r in Hw by lia.
  pose proof (Z.div_mod v 32). pose proof (Z.div_mod w 32).
  pose proof (Z.mod_pos_bound v 32). pose proof (Z.mod_pos_bound w 32).
  destruct (Z.lt_trichotomy (v / 32) (w / 32)) as [Hlt|[Heq|Hgt]]; [| |lia].
  - rewrite IH; [done| |apply Z.div_lt_upper_bound; lia]. split; [apply Z.div_pos|]; lia.
  - rewrite Heq, lex_refl. rewrite (crock_mod v), (crock_mod w). apply crock_mono; lia.
Qed.

(** ** The theorem *)

Lemma byte_is_byte z : is_byte (byte z).
Proof. unfold is_byte, byte. apply Z.mod_pos_bound. lia. Qed.

Lemma map_byte_is_byte {A} (f : A -> Z) l : Forall is_byte (map (fun i => byte (f i)) l).
Proof. apply Forall_forall. intros x Hx. apply list_elem_of_In, in_map_iff in Hx as (i & <- & _). apply byte_is_byte. Qed.

(** What [rand.Read] promises: ten bytes, or an error. *)
Definition random_ok (random : option (list Z)) : Prop :=
  match random with Some r => length r = 10%nat /\ Forall is_byte r | None => True end.

Lemma number_app l k :
  Forall is_byte k -> number l * 256 ^ len k <= number (l ++ k) < (number l + 1) * 256 ^ len k.
Proof.
  induction k as [|b k IH] using rev_ind; intros Hk.
  { rewrite app_nil_r. change (256 ^ len []) with 1. lia. }
  apply Forall_app in Hk as [Hk Hb]. rewrite Forall_singleton in Hb. unfold is_byte in Hb.
  specialize (IH Hk). rewrite app_assoc, number_snoc. unfold len in *. rewrite length_app. cbn [length].
  rewrite Nat2Z.inj_add, Z.pow_add_r by lia. change (256 ^ Z.of_nat 1) with 256. nia.
Qed.

Lemma number_timestamp ms :
  0 <= ms < 2 ^ 48 -> number (map (fun i => byte (Z.shiftr ms (8 * i))) [5; 4; 3; 2; 1; 0]) = ms.
Proof.
  change (2 ^ 48) with 281474976710656. intros Hms. cbn [map]. unfold number, byte. cbn [fold_left].
  rewrite !Z.shiftr_div_pow2 by lia. change (2 ^ (8 * 0)) with 1. rewrite Z.div_1_r.
  change (2 ^ (8 * 1)) with 256. change (2 ^ (8 * 2)) with (256 * 256).
  change (2 ^ (8 * 3)) with (256 * 256 * 256). change (2 ^ (8 * 4)) with (256 * 256 * 256 * 256).
  change (2 ^ (8 * 5)) with (256 * 256 * 256 * 256 * 256). rewrite <- !Z.div_div by lia.
  set (q1 := ms / 256). set (q2 := q1 / 256). set (q3 := q2 / 256). set (q4 := q3 / 256). set (q5 := q4 / 256).
  pose proof (Z.div_mod ms 256). pose proof (Z.div_mod q1 256). pose proof (Z.div_mod q2 256).
  pose proof (Z.div_mod q3 256). pose proof (Z.div_mod q4 256).
  assert (H5 : q5 `mod` 256 = q5).
  { apply Z.mod_small. unfold q5, q4, q3, q2, q1. rewrite !Z.div_div by lia.
    split; [apply Z.div_pos; lia|apply Z.div_lt_upper_bound; lia]. }
  fold q1 in H. fold q2 in H0. fold q3 in H1. fold q4 in H2. fold q5 in H3. lia.
Qed.

Lemma raw_id_spec now random :
  random_ok random -> 0 <= tUnixMilli now < 2 ^ 48 ->
  length (raw_id now random) = 16%nat /\ Forall is_byte (raw_id now random) /\
  tUnixMilli now * 256 ^ 10 <= number (raw_id now random) < (tUnixMilli now + 1) * 256 ^ 10.
Proof.
  intros Hr Hms. unfold raw_id. cbv zeta.
  rewrite u64_small by (unfold in_u64; change (2 ^ 48) with 281474976710656 in Hms; lia).
  assert (Ht : exists tail, match random with Some r => r | None => [0; 0] ++ big_endian (u64 (tUnixNano now)) end = tail
    /\ length tail = 10%nat /\ Forall is_byte tail).
  { destruct random as [r|]; [exists r; by split|]. eexists. split; [done|]. split; [done|].
    apply Forall_app. split; [repeat constructor; done|apply map_byte_is_byte]. }
  destruct Ht as (tail & -> & Hl & Hb). split; [by rewrite length_app, Hl|]. split.
  - apply Forall_app. split; [apply map_byte_is_byte|done].
  - pose proof (number_app (map (fun i => byte (Z.shiftr (tUnixMilli now) (8 * i))) [5; 4; 3; 2; 1; 0]) tail Hb) as Hn.
    unfold len in Hn. by rewrite Hl, number_timestamp in Hn.
Qed.

(** Session identifiers sort by the millisecond they were made in: whatever
    the random bytes (and when the random source fails), the identifier of the
    earlier instant is the smaller string, and every identifier is [sess_] and
    25 characters. *)
Theorem session_ids_sort t1 t2 r1 r2 :
  random_ok r1 -> random_ok r2 -> 0 <= tUnixMilli t1 < tUnixMilli t2 -> tUnixMilli t2 < 2 ^ 48 ->
  String.compare (fst (newSessionID t1 r1)) (fst (newSessionID t2 r2)) = Lt /\
  String.length (fst (newSessionID t1 r1)) = 30%nat.
Proof.
  intros Hr1 Hr2 Ht H48.
  destruct (raw_id_spec t1 r1 Hr1 ltac:(lia)) as (Hl1 & Hb1 & Hn1).
  destruct (raw_id_spec t2 r2 Hr2 ltac:(lia)) as (Hl2 & Hb2 & Hn2).
  unfold newSessionID. cbn [fst]. rewrite !encode_id_spec by done.
  assert (Hlt : number (raw_id t1 r1) / 8 < number (raw_id t2 r2) / 8).
  { change (256 ^ 10) with (151115727451828646838272 * 8) in *.
    apply Z.le_lt_trans with ((tUnixMilli t1 + 1) * 151115727451828646838272 - 1).
    - enough (number (raw_id t1 r1) / 8 < (tUnixMilli t1 + 1) * 151115727451828646838272) by lia.
      apply Z.div_lt_upper_bound; lia.
    - apply Z.lt_le_trans with (tUnixMilli t2 * 151115727451828646838272); [lia|].
      apply Z.div_le_lower_bound; lia. }
  split.
  - change (lex (String.list_ascii_of_string "sess_") (String.list_ascii_of_string "sess_")) with Eq.
    transitivity (String.compare (String.string_of_list_ascii (printed 25 (number (raw_id t1 r1) / 8)))
                    (String.string_of_list_ascii (printed 25 (number (raw_id t2 r2) / 8)))); [done|].
    rewrite string_compare. apply printed_lt.
    + split; [apply Z.div_pos; [|lia]; by apply number_nonneg|done].
    + apply Z.div_lt_upper_bound; [lia|]. change (2 ^ 48) with 281474976710656 in H48.
      change (256 ^ 10) with 1208925819614629174706176 in *.
      change (8 * 32 ^ Z.of_nat 25) with 340282366920938463463374607431768211456. lia.
  - cbn. unfold printed. cbn. done.
Qed.

Lemma session_ids_sort_witness :
  let t1 := unixNanos 1700000000000000000 in let t2 := unixNanos 1700000000001000000 in
  String.compare (fst (newSessionID t1 (Some (repeat 255 10)))) (fst (newSessionID t2 None)) = Lt.
Proof.
  cbv zeta. refine (proj1 (session_ids_sort _ _ (Some (repeat 255 10)) None _ I _ _)).
  - split; [reflexivity|]. repeat constructor; done.
  - vm_compute. split; [discriminate|reflexivity].
  - vm_compute. reflexivity.
Defined.
