(* ===== verification/Manager.v ===== *)
(** * The set of connected sessions: [internal/delivery/manager.go]

    The sessions are shared pointers, so the manager's map holds the current
    state of each.  The default market's engine is resolved through the registry
    of [Registry]; sleeping until the sessions have gone ([CloseAll]) is not
    modelled. *)

From S2P Require Import Prelude Money GoTime Domain Float64 Registry Json Protocol Wire Tier Coalesce.
From S2P Require Import Rand Book Candles Bus Engine Session SessionId.

Record ManagerConfig := mkManagerConfig {
  mgRegistry : option (Registry.Registry (E := string)); mgDefaultSymbol : Symbol;
  mgPolicy : option DefaultPolicy; mgDefaultChannels : gset string;
  mgOutboundCapacity : Z; mgClientMsgPerSec : Z; mgBookWindow : Z; mgDebugControls : bool }.

Record Manager := mkManager {
  maCfg : ManagerConfig; maPolicy : DefaultPolicy; maSessions : gmap string (Session DefaultPolicy);
  maTotal : Z; maActive : Z; maReconnects : Z; maDeviceSeen : gset string }.

Definition fallback_policy : DefaultPolicy :=
  NewDefaultPolicy (mkThresholds (f64_of_Z 150) (f64_of_Z 50) (f64_of_Z 500) (f64_of_Z 150) 3 5
    (5 * Second) (10 * Second)) (f64_of_Z 10) (f64_of_Z 2) (f64_lit 5 10).

Definition NewManager (cfg : ManagerConfig) : Manager :=
  mkManager cfg (default fallback_policy (mgPolicy cfg)) ∅ 0 0 0 ∅.

Definition with_sessions (m : Manager) (s : gmap string (Session DefaultPolicy)) (total active : Z) : Manager :=
  mkManager (maCfg m) (maPolicy m) s total active (maReconnects m) (maDeviceSeen m).

(** The engine's identity is the symbol it was registered under. *)
Definition defaultEngine (m : Manager) : option string :=
  Registry_Lookup (mgRegistry (maCfg m)) (mgDefaultSymbol (maCfg m)).

(** [id] and [shortID] come from [newSessionID]; the session is returned to the
    caller, which runs it. *)
Definition Register (m : Manager) (now : Time) (random : option (list Z)) : Manager * Session DefaultPolicy :=
  let cfg := maCfg m in
  let '(id, shortID) := newSessionID now random in
  let channels := if bool_decide (mgDefaultChannels cfg = ∅) then list_to_set DefaultChannels
                  else mgDefaultChannels cfg in
  let session := NewSession
    (mkSessionConfig id shortID (mgRegistry cfg) (mgOutboundCapacity cfg) (mgClientMsgPerSec cfg)
       (mgBookWindow cfg) (mgDebugControls cfg))
    (mgDefaultSymbol cfg) (Some Interval1m) (Some channels) (defaultEngine m) (maPolicy m) now in
  (with_sessions m (<[id := session]> (maSessions m)) (i64 (maTotal m + 1)) (i64 (maActive m + 1)), session).

(** [Session.Drop] on the shared session: recorded here; the session is no longer
    in the map after [Unregister]. *)
Definition Unregister (m : Manager) (id : string) : Manager * option (Session DefaultPolicy) :=
  match maSessions m !! id with
  | None => (m, None)
  | Some s =>
      (with_sessions m (delete id (maSessions m)) (maTotal m) (i64 (maActive m - 1)),
       Some (with_close "unregistered" true s))
  end.

Definition Manager_Session (m : Manager) (id : string) : option (Session DefaultPolicy) := maSessions m !! id.
Definition Sessions (m : Manager) : list (Session DefaultPolicy) := (map_to_list (maSessions m)).*2.
Definition Manager_Count (m : Manager) : Z := Z.of_nat (size (maSessions m)).
Definition TotalSessions (m : Manager) : Z := maTotal m.
Definition Reconnects (m : Manager) : Z := maReconnects m.

Definition NotifyHello (m : Manager) (deviceID : string) : Manager :=
  if bool_decide (deviceID = "") then m
  else
    let seen := bool_decide (deviceID ∈ maDeviceSeen m) in
    mkManager (maCfg m) (maPolicy m) (maSessions m) (maTotal m) (maActive m)
      (if seen then i64 (maReconnects m + 1) else maReconnects m) ({[deviceID]} ∪ maDeviceSeen m).

Definition TierDistribution (m : Manager) : gmap string Z :=
  fold_left (fun out s => partial_alter (fun c => Some (i64 (default 0 c + 1))) (Tier_String (tmTier (seTier s))) out)
    (Sessions m)
    (<[Tier_String TierFull := 0]> (<[Tier_String TierDegraded := 0]> (<[Tier_String TierMinimal := 0]> ∅))).

(** A change of one live session by whoever holds its pointer. *)
Definition update_session (m : Manager) (id : string)
    (f : Session DefaultPolicy -> Session DefaultPolicy) : Manager :=
  with_sessions m (alter f id (maSessions m)) (maTotal m) (maActive m).

Definition Manager_Drop (m : Manager) (id reason : string) : Manager * bool :=
  match Manager_Session m id with
  | None => (m, false)
  | Some _ => (update_session m id (with_close reason true), true)
  end.
Definition Manager_ApplyFaults (m : Manager) (id : string) (cfg : FaultConfig) : Manager * bool :=
  match Manager_Session m id with
  | None => (m, false)
  | Some _ => (update_session m id (ApplyFaults cfg), true)
  end.
Definition CloseAll (m : Manager) (reason : string) : Manager :=
  with_sessions m (with_close reason true <$> maSessions m) (maTotal m) (maActive m).

(** ** Histories of a manager *)

Inductive MOp :=
| MRegister (now : Time) (random : option (list Z))
| MUnregister (id : string)
| MHello (deviceID : string)
| MDrop (id reason : string)
| MFaults (id : string) (cfg : FaultConfig)
| MCloseAll (reason : string)
| MRun (id : string) (f : Session DefaultPolicy -> Session DefaultPolicy).

Definition m_op (m : Manager) (op : MOp) : Manager :=
  match op with
  | MRegister now random => fst (Register m now random)
  | MUnregister id => fst (Unregister m id)
  | MHello d => NotifyHello m d
  | MDrop id reason => fst (Manager_Drop m id reason)
  | MFaults id cfg => fst (Manager_ApplyFaults m id cfg)
  | MCloseAll reason => CloseAll m reason
  | MRun id f => update_session m id f
  end.
Definition m_run (m : Manager) (ops : list MOp) : Manager := fold_left m_op ops m.

(** No identifier is issued while a session holds it. *)
Fixpoint ids_fresh (m : Manager) (ops : list MOp) : Prop :=
  match ops with
  | [] => True
  | op :: ops =>
      (match op with
       | MRegister now random => maSessions m !! fst (newSessionID now random) = None
       | _ => True
       end) /\ ids_fresh (m_op m op) ops
  end.

Definition registrations (ops : list MOp) : Z :=
  len (List.filter (fun op => match op with MRegister _ _ => true | _ => false end) ops).
Definition hellos (ops : list MOp) : list string :=
  omap (fun op => match op with
                  | MHello d => if bool_decide (d = "") then None else Some d | _ => None end) ops.

(** The state of the counters after [n] registrations and the hellos [hs]. *)
Record counters_ok (m : Manager) (n : Z) (hs : list string) : Prop := {
  co_total : maTotal m = n; co_active : maActive m = Z.of_nat (size (maSessions m));
  co_seen : maDeviceSeen m = list_to_set hs;
  co_reconnects : maReconnects m + Z.of_nat (size (maDeviceSeen m)) = len hs;
  co_reconnects_pos : 0 <= maReconnects m;
  co_bound : Z.of_nat (size (maSessions m)) <= n }.

Lemma size_alter {A} (f : A -> A) i (m : gmap string A) : size (alter f i m) = size m.
Proof. by rewrite <- !(size_dom (D := gset string)), dom_alter_L. Qed.

(** Operations that leave the number of sessions and the counters alone. *)
Lemma counters_sessions m n hs s :
  size s = size (maSessions m) -> counters_ok m n hs ->
  counters_ok (with_sessions m s (maTotal m) (maActive m)) n hs.
Proof. intros Hs []. split; cbn; congruence || rewrite Hs; done. Qed.

Lemma counters_hello m n hs d :
  counters_ok m n hs -> len hs < MaxInt64 ->
  counters_ok (NotifyHello m d) n (hs ++ hellos [MHello d]).
Proof.
  intros [Ht Ha Hs Hr Hp Hb] Hh. unfold NotifyHello, hellos. cbn [omap list_omap].
  case_bool_decide; [by rewrite app_nil_r|].
  assert (Hl : len (hs ++ [d]) = len hs + 1) by (unfold len; rewrite length_app; simpl; lia).
  assert (Hset : {[d]} ∪ maDeviceSeen m = list_to_set (hs ++ [d])) by (rewrite Hs, list_to_set_app_L; cbn; by rewrite union_empty_r_L, union_comm_L).
  case_bool_decide as Hd; split; cbn; try done; try (by rewrite Hl; no_wrap; lia).
  - rewrite Hl, subseteq_union_1_L by (by apply singleton_subseteq_l). no_wrap. lia.
  - no_wrap. lia.
  - rewrite Hl, size_union, size_singleton by (by apply disjoint_singleton_l). lia.
Qed.

Lemma counters_step m n hs op :
  counters_ok m n hs -> 0 <= n < MaxInt64 -> len hs < MaxInt64 ->
  match op with
  | MRegister now random => maSessions m !! fst (newSessionID now random) = None
  | _ => True
  end ->
  counters_ok (m_op m op) (n + registrations [op]) (hs ++ hellos [op]).
Proof.
  intros Hc Hn Hh Hf. destruct op as [now random|id|d|id reason|id cfg|reason|id f];
    cbn [m_op]; try (change (hellos [_]) with (@nil string); rewrite app_nil_r);
    try (change (registrations [_]) with 0; rewrite Z.add_0_r).
  - change (registrations [_]) with 1. destruct Hc as [Ht Ha Hs Hr Hp Hb]. unfold Register.
    destruct (newSessionID now random) as [id shortID]. cbn [fst] in *.
    split; cbn; try done; rewrite ?map_size_insert_None by done; no_wrap; lia.
  - unfold Unregister. destruct (maSessions m !! id) as [s|] eqn:E; [|done].
    destruct Hc as [Ht Ha Hs Hr Hp Hb]. cbn [fst].
    assert (Hpos : size (maSessions m) <> 0%nat).
    { intros Hz%map_size_empty_inv. by rewrite Hz, lookup_empty in E. }
    split; cbn; try done; rewrite map_size_delete_Some by done; no_wrap; lia.
  - by apply counters_hello.
  - unfold Manager_Drop. destruct (Manager_Session m id); [|done].
    apply counters_sessions; [apply size_alter|done].
  - unfold Manager_ApplyFaults. destruct (Manager_Session m id); [|done].
    apply counters_sessions; [apply size_alter|done].
  - apply counters_sessions; [apply map_size_fmap|done].
  - apply counters_sessions; [apply size_alter|done].
Qed.

Lemma counters_run ops m n hs :
  counters_ok m n hs -> ids_fresh m ops -> 0 <= n ->
  n + len ops < MaxInt64 -> len hs + len ops < MaxInt64 ->
  counters_ok (m_run m ops) (n + registrations ops) (hs ++ hellos ops).
Proof.
  revert m n hs. induction ops as [|op ops IH]; intros m n hs Hc Hf Hn Hl Hh.
  { change (registrations []) with 0. by rewrite Z.add_0_r, app_nil_r. }
  destruct Hf as [Hop Hf]. unfold len in Hl, Hh. cbn [length] in Hl, Hh.
  assert (Hreg : registrations (op :: ops) = registrations [op] + registrations ops).
  { unfold registrations, len. cbn [List.filter]. destruct op; cbn [length]; lia. }
  assert (H1 : 0 <= registrations [op] <= 1) by (unfold registrations, len; destruct op; cbn; lia).
  assert (Hhel : hellos (op :: ops) = hellos [op] ++ hellos ops).
  { unfold hellos. by rewrite <- (omap_app _ [op] ops). }
  assert (H2 : len (hellos [op]) <= 1) by (unfold hellos, len; destruct op; cbn; try case_bool_decide; simpl; lia).
  rewrite Hreg, Hhel, Z.add_assoc, app_assoc. unfold m_run. cbn [fold_left].
  apply IH; [apply counters_step; [done|lia|unfold len; lia|done]|done|lia|unfold len in *; lia|].
  unfold len in *. rewrite length_app. lia.
Qed.

(** ** The tier distribution *)

Lemma distribution_fold (l : list (Session DefaultPolicy)) (out : gmap string Z) t n :
  out !! Tier_String t = Some n -> 0 <= n -> n + len l < MaxInt64 ->
  fold_left (fun out s => partial_alter (fun c => Some (i64 (default 0 c + 1)))
               (Tier_String (tmTier (seTier s))) out) l out !! Tier_String t =
  Some (n + len (filter (fun s => tmTier (seTier s) = t) l)).
Proof.
  revert out n. induction l as [|s l IH]; intros out n Hn Hp Hl; cbn [fold_left].
  { rewrite Hn. unfold len. simpl. f_equal. lia. }
  unfold len in Hl. cbn [length] in Hl. rewrite filter_cons. case_decide as Ht.
  - rewrite (IH _ (n + 1)); [unfold len; cbn [length]; f_equal; lia| |lia|unfold len; lia].
    subst t. rewrite lookup_partial_alter_eq, Hn. cbn. by no_wrap.
  - apply IH; [|done|unfold len; lia]. rewrite lookup_partial_alter_ne; [done|].
    intros E. apply Ht. destruct (tmTier (seTier s)), t; done.
Qed.

(** The books of the manager: after any history in which no identifier is
    issued twice at the same time, the active counter is the number of connected
    sessions, the total is the number of registrations and never less than it,
    the installations seen are those of the hello frames, every further hello of
    a known one is counted as a reconnect, and the tier distribution counts each
    session under its tier. *)
Theorem manager_counters cfg ops :
  ids_fresh (NewManager cfg) ops -> len ops < MaxInt64 ->
  let m := m_run (NewManager cfg) ops in
  maActive m = Manager_Count m /\ TotalSessions m = registrations ops /\
  Manager_Count m <= TotalSessions m /\ maDeviceSeen m = list_to_set (hellos ops) /\
  Reconnects m = len (hellos ops) - Z.of_nat (size (maDeviceSeen m)) /\
  (forall t, TierDistribution m !! Tier_String t =
     Some (len (filter (fun s => tmTier (seTier s) = t) (Sessions m)))).
Proof.
  intros Hf Hl m.
  assert (H0 : counters_ok (NewManager cfg) 0 []) by by split.
  pose proof (counters_run ops _ _ _ H0 Hf ltac:(lia) ltac:(lia) ltac:(unfold len in *; simpl; lia)) as [Ht Ha Hs Hr Hp Hb].
  fold m in Ht, Ha, Hs, Hr, Hp, Hb. rewrite Z.add_0_l in *. cbn [app] in *.
  unfold Manager_Count, TotalSessions, Reconnects. split_and!; try done; try lia.
  intros t. unfold TierDistribution. rewrite (distribution_fold _ _ t 0); [done|by destruct t|lia|].
  unfold Sessions, len. rewrite length_fmap, length_map_to_list.
  enough (registrations ops <= len ops) by (unfold len in *; lia).
  unfold registrations, len. apply inj_le. clear. induction ops as [|op ops IH]; [done|].
  cbn [List.filter length]. destruct op; cbn [length]; lia.
Qed.

Definition demo_manager : ManagerConfig := mkManagerConfig None BTCUSDT None ∅ 256 20 15 false.
Definition demo_history : list MOp :=
  [MRegister (unixNanos 1700000000000000000) (Some (repeat 7 10)); MHello "a";
   MRegister (unixNanos 1700000001000000000) None; MHello "a"; MHello "";
   MUnregister (fst (newSessionID (unixNanos 1700000000000000000) (Some (repeat 7 10))))].

Lemma manager_counters_witness :
  ids_fresh (NewManager demo_manager) demo_history /\
  maActive (m_run (NewManager demo_manager) demo_history) =
    Manager_Count (m_run (NewManager demo_manager) demo_history) /\
  Reconnects (m_run (NewManager demo_manager) demo_history) = 1.
Proof.
  assert (Hf : ids_fresh (NewManager demo_manager) demo_history) by (vm_compute; repeat split).
  split; [exact Hf|].
  pose proof (manager_counters demo_manager demo_history Hf eq_refl) as (Ha & _ & _ & _ & Hr & _).
  split; [exact Ha|]. rewrite Hr. vm_compute. reflexivity.
Defined.
