(* ===== verification/Websocket.v ===== *)
(** * The WebSocket endpoint: [internal/transport/websocket/handler.go]

    The defaults of the endpoint, its rule on origins, the bracket of
    registration and unregistration around a session, and the calls of each
    operation of [conn] on the socket, whose frames and deadlines belong to
    [gorilla/websocket].  A read runs beside the goroutine that closes the socket
    when the context ends: its runs are the interleavings of the two. *)

From S2P Require Import Prelude Money GoTime Decimal Domain Float64 Registry Json Protocol Wire Tier Coalesce.
From S2P Require Import Rand Book Candles Bus Engine Session SessionId Manager.

Record WsConfig := mkWsConfig {
  wsPath : string; wsReadLimit : Z; wsWriteTimeout : Z; wsReadTimeout : Z; wsPongTimeout : Z }.

(** [NewHandler]. *)
Definition NewHandler (c : WsConfig) : WsConfig :=
  mkWsConfig (if bool_decide (wsPath c = "") then "/ws" else wsPath c)
    (if wsReadLimit c <=? 0 then 16 * 1024 else wsReadLimit c)
    (if wsWriteTimeout c <=? 0 then 5 * Second else wsWriteTimeout c)
    (if wsReadTimeout c <=? 0 then 90 * Second else wsReadTimeout c)
    (if wsPongTimeout c <=? 0 then 120 * Second else wsPongTimeout c).

(** Without a rule of its own the endpoint takes every origin. *)
Definition CheckOrigin {Req : Type} (allowed : option (Req -> bool)) : Req -> bool := default (fun _ => true) allowed.
(** [Upgrade]: a refused origin fails before the handshake is looked at. *)
Definition Upgrade {Req : Type} (allowed : option (Req -> bool)) (handshake : Req -> bool) (r : Req) : bool :=
  CheckOrigin allowed r && handshake r.

(** ** The socket *)

Inductive SocketCall :=
| SetReadLimit (n : Z) | SetReadDeadline (t : Time) | SetWriteDeadline (t : Time)
| ReadFrame | WriteText (frame : text) | WriteClose | CloseSocket.

(** The calls of one operation up to the first that fails; [ok] is the socket's
    answer to each. *)
Fixpoint calls (ok : SocketCall -> bool) (l : list SocketCall) : list SocketCall * bool :=
  match l with
  | [] => ([], true)
  | c :: l => if ok c then let '(done, r) := calls ok l in (c :: done, r) else ([c], false)
  end.

(** [cancelled] is whether the context has already ended. *)
Definition WriteMessage (c : WsConfig) (ok : SocketCall -> bool) (cancelled : bool) (now : Time) (data : text)
    : list SocketCall * bool :=
  if cancelled then ([], false) else calls ok [SetWriteDeadline (tAdd now (wsWriteTimeout c)); WriteText data].

(** The deadline's own error is ignored. *)
Definition ReadMessage (c : WsConfig) (ok : SocketCall -> bool) (cancelled : bool) (now : Time) : list SocketCall * bool :=
  if cancelled then ([], false)
  else ([SetReadDeadline (tAdd now (wsReadTimeout c)); ReadFrame], ok ReadFrame).

Definition Conn_Close (ok : SocketCall -> bool) (now : Time) : list SocketCall * bool :=
  ([SetWriteDeadline (tAdd now (200 * Millisecond)); WriteClose; CloseSocket], ok CloseSocket).

(** ** A read and the goroutine beside it *)

(** The goroutine waits for the context or for the read to return; [rgClosed]
    says that it has closed the socket. *)
Inductive ReadError := ContextEnded | SocketFailed.
Record Reading := mkReading {
  rgEnded : bool; rgWatching : bool; rgClosed : bool; rgResult : option (text + ReadError) }.
Definition reading : Reading := mkReading false true false None.

(** The context ends; the socket answers, with a frame or an error; the
    goroutine's [select] fires, and [close] is its choice when both of its
    channels are ready. *)
Inductive ReadStep := ContextEnds | SocketReturns (frame : option text) | Watcher (close : bool).
Definition read_step (r : Reading) (st : ReadStep) : option Reading :=
  match st with
  | ContextEnds => Some (mkReading true (rgWatching r) (rgClosed r) (rgResult r))
  | SocketReturns frame =>
      match rgResult r with
      | Some _ => None
      | None => Some (mkReading (rgEnded r) (rgWatching r) (rgClosed r)
                        (Some (match frame with
                               | Some data => inl data
                               | None => inr (if rgEnded r then ContextEnded else SocketFailed)
                               end)))
      end
  | Watcher close =>
      if negb (rgWatching r) then None
      else if close then
        if rgEnded r then Some (mkReading true false true (rgResult r)) else None
      else match rgResult r with
           | Some _ => Some (mkReading (rgEnded r) false (rgClosed r) (rgResult r))
           | None => None
           end
  end.
Fixpoint read_steps (r : Reading) (sts : list ReadStep) : option Reading :=
  match sts with [] => Some r | st :: sts => r ← read_step r st; read_steps r sts end.

(** ** One connection *)

(** How [Session.Run] ended, and the lines of the endpoint. *)
Inductive RunEnd := RunFine | RunCanceled | RunFailed.
Inductive WsLine := WsUpgradeFailed | WsSessionEnded (id : string).

(** [during] is what happens to the manager while the session runs. *)
Definition ServeHTTP (c : WsConfig) (m : Manager) (upgraded : bool) (now : Time) (random : option (list Z))
    (during : list MOp) (ended : RunEnd) : Manager * list SocketCall * list WsLine :=
  if negb upgraded then (m, [], [WsUpgradeFailed])
  else
    let '(m, session) := Register m now random in
    let m := m_run m during in
    (fst (Unregister m (scID (seCfg session))),
     [SetReadLimit (wsReadLimit c); SetReadDeadline (tAdd now (wsPongTimeout c))],
     match ended with RunFailed => [WsSessionEnded (scID (seCfg session))] | _ => [] end).
(** The pong handler. *)
Definition on_pong (c : WsConfig) (now : Time) : SocketCall := SetReadDeadline (tAdd now (wsPongTimeout c)).

(** ** What holds of a connection *)

(** Whatever happened meanwhile, no connection leaves its session behind. *)
Lemma ServeHTTP_cleans c m now random during ended :
  let id := scID (seCfg (snd (Register m now random))) in
  maSessions (fst (fst (ServeHTTP c m true now random during ended))) !! id = None.
Proof.
  unfold ServeHTTP. cbn [negb]. destruct (Register m now random) as [m1 session]. cbn [snd fst].
  unfold Unregister. destruct (maSessions (m_run m1 during) !! scID (seCfg session)) eqn:E; [|done].
  cbn. apply lookup_delete_eq.
Qed.

(** A refused origin registers nothing. *)
Lemma refused_origin {Req} (rule : Req -> bool) handshake req c m now random during ended :
  rule req = false ->
  ServeHTTP c m (Upgrade (Some rule) handshake req) now random during ended = (m, [], [WsUpgradeFailed]).
Proof. intros E. unfold Upgrade, CheckOrigin. cbn. by rewrite E. Qed.

Record read_ok (r : Reading) : Prop := {
  ro_closed : rgClosed r = true -> rgEnded r = true /\ rgWatching r = false;
  ro_watching : rgWatching r = false -> rgClosed r = true \/ is_Some (rgResult r);
  ro_error : rgResult r = Some (inr ContextEnded) -> rgEnded r = true }.
Lemma read_step_ok r st r' : read_ok r -> read_step r st = Some r' -> read_ok r'.
Proof.
  intros [Hc Hw He]. destruct r as [e w c res]. cbn in *. destruct st as [|frame|close]; cbn.
  - intros [= <-]. split; cbn; [intros H; by destruct (Hc H)|done|done].
  - destruct res; [done|]. intros [= <-]. split; cbn; [done|eauto|]. destruct frame; [done|]. by destruct e.
  - destruct w; [|done]. cbn. destruct close; [destruct e; [|done]|destruct res; [|done]]; intros [= <-]; split; cbn; naive_solver.
Qed.

(** A blocked read cannot outlive its context, and leaves no goroutine behind:
    in every state a read reaches, the goroutine has closed the socket only if
    the context ended; while the read is pending, an ended context means that the
    socket is closed or that the goroutine can close it now; and once the read
    has returned, the goroutine is over or can end now. *)
Theorem read_ends sts r :
  read_steps reading sts = Some r ->
  (rgClosed r = true -> rgEnded r = true) /\
  (rgResult r = None -> rgEnded r = true ->
   rgClosed r = true \/ exists r', read_step r (Watcher true) = Some r' /\ rgClosed r' = true) /\
  (is_Some (rgResult r) -> rgWatching r = false \/
   exists r', read_step r (Watcher false) = Some r' /\ rgWatching r' = false /\ rgResult r' = rgResult r) /\
  (rgResult r = Some (inr ContextEnded) -> rgEnded r = true).
Proof.
  assert (H0 : read_ok reading) by by split.
  revert H0. generalize reading. induction sts as [|st sts IH]; intros r0 H0; cbn [read_steps].
  - intros [= <-]. destruct H0 as [Hc Hw He], r0 as [e w c res]. cbn in *. split_and!; [by intros [? _]%Hc| | |done].
    + intros -> ->. destruct c; [by left|]. right. destruct w; [by eexists|]. by destruct (Hw eq_refl) as [|[? ?]].
    + intros [x ->]. destruct w; [right|by left]. by eexists.
  - destruct (read_step r0 st) as [r1|] eqn:E; [|done]. cbn [mbind option_bind]. apply IH. by eapply read_step_ok.
Qed.

Lemma NewHandler_positive c :
  let c' := NewHandler c in
  0 < wsReadLimit c' /\ 0 < wsWriteTimeout c' /\ 0 < wsReadTimeout c' /\ 0 < wsPongTimeout c' /\ wsPath c' <> "".
Proof.
  cbn. unfold Second. repeat split; try (split_if; lia). case_bool_decide; done.
Qed.
