(* ===== verification/Metrics.v ===== *)
(** * The metrics records and their queue: [internal/metrics], [internal/observability]

    The telemetry rows, the tagged record the producers enqueue, the batch a
    driver writes, and the bounded drop-oldest queue between them.  The one-slot
    wake-up channel of the queue has no reader in the store (see [MetricsWriter])
    and is a flag here. *)

From S2P Require Import Prelude GoTime Decimal Domain Float64.

(** ** Telemetry rows ([telemetry.go]) *)

Record EngineEventRow := mkEngineEvent {
  eeEvent : string; eeEpoch : Z; eeEventIndex : Z; eeUpdateID : Z; eeTradeID : Z;
  eeDetail : string; eeDurationMs : Z; eeAt : Time }.
Record LatencySample := mkLatency {
  lsSessionID : string; lsSeq : Z; lsRTTMs : float64; lsJitterMs : float64; lsSamples : Z;
  lsClientTimeMs : Z; lsServerTime : Time; lsCapped : bool; lsMissedPong : bool }.
Record HealthReportRow := mkHealthRow {
  hwSessionID : string; hwReceivedAt : Time; hwRTTMs : float64; hwJitterMs : float64;
  hwAgeSinceLastMs : Z; hwBand : string }.
Record TierTransitionRow := mkTierRow {
  twSessionID : string; twAt : Time; twFrom : string; twTo : string; twReason : string;
  twRTTMs : float64; twJitterMs : float64; twStreak : Z; twOverride : string }.
Record DeliveryWindowRow := mkWindowRow {
  wwSessionID : string; wwWindowStart : Time; wwWindowMs : Z; wwTier : string;
  wwTargetRate : float64; wwEffectiveRate : float64; wwCandleUpdates : Z; wwTradeMessages : Z;
  wwBookDeltas : Z; wwHealthMessages : Z; wwCoalesced : Z; wwSuppressed : Z; wwBytesSent : Z }.
Record BookSyncEvent := mkBookRow {
  bwAt : Time; bwSessionID : string; bwScope : string; bwEvent : string; bwEpoch : Z;
  bwFromUpdateID : Z; bwToUpdateID : Z; bwGapSize : Z; bwDurationMs : Z; bwAttempt : Z }.
Record ProtocolEventRow := mkProtocolRow {
  pwAt : Time; pwSessionID : string; pwKind : string; pwDetail : string; pwCount : Z }.
Record SessionRow := mkSessionRow {
  srSessionID : string; srDeviceID : string; srClientVersion : string; srPlatform : string;
  srRemoteAddr : string; srSymbol : string; srInterval : string; srConnectedAt : Time;
  srDisconnectedAt : option Time; srDisconnectReason : string; srInitialTier : string;
  srFinalTier : string; srOverrideTier : string; srUptimeMs : Z; srMessagesSent : Z;
  srMessagesReceived : Z; srBytesSent : Z; srProtocolErrors : Z }.
Record FaultInjectionRow := mkFaultRow {
  fwAt : Time; fwSessionID : string; fwFault : string; fwParameters : string; fwApplied : bool }.

(** ** Store-side rows ([repository.go]) *)

Record SessionWrite := mkSessionWrite { swRow : SessionRow; swEnd : bool }.
Record CandleCloseRow := mkCloseRow {
  ccSymbol : string; ccInterval : string; ccStartTime : Time; ccOpen : text; ccHigh : text;
  ccLow : text; ccClose : text; ccVolume : text; ccTradeCount : Z; ccClosedAt : Time; ccEpoch : Z }.

(** A tagged struct with exactly one pointer set. *)
Inductive record :=
| RLatency (v : LatencySample) | RHealth (v : HealthReportRow) | RTier (v : TierTransitionRow)
| RDelivery (v : DeliveryWindowRow) | RBook (v : BookSyncEvent) | RProtocol (v : ProtocolEventRow)
| RSession (v : SessionWrite) | REngine (v : EngineEventRow) | RCandle (v : CandleCloseRow)
| RFault (v : FaultInjectionRow).

Record Batch := mkBatch {
  btLatency : list LatencySample; btHealth : list HealthReportRow; btTiers : list TierTransitionRow;
  btDelivery : list DeliveryWindowRow; btBookEvents : list BookSyncEvent;
  btProtocol : list ProtocolEventRow; btSessions : list SessionWrite;
  btEngineEvts : list EngineEventRow; btCandleClose : list CandleCloseRow;
  btFaults : list FaultInjectionRow }.
Definition emptyBatch : Batch := mkBatch [] [] [] [] [] [] [] [] [] [].

Definition Batch_Len (b : Batch) : Z :=
  len (btLatency b) + len (btHealth b) + len (btTiers b) + len (btDelivery b) +
  len (btBookEvents b) + len (btProtocol b) + len (btSessions b) + len (btEngineEvts b) +
  len (btCandleClose b) + len (btFaults b).

Definition batch_add (b : Batch) (r : record) : Batch :=
  let '(mkBatch l h t d k p s e c f) := b in
  match r with
  | RLatency v => mkBatch (l ++ [v]) h t d k p s e c f
  | RHealth v => mkBatch l (h ++ [v]) t d k p s e c f
  | RTier v => mkBatch l h (t ++ [v]) d k p s e c f
  | RDelivery v => mkBatch l h t (d ++ [v]) k p s e c f
  | RBook v => mkBatch l h t d (k ++ [v]) p s e c f
  | RProtocol v => mkBatch l h t d k (p ++ [v]) s e c f
  | RSession v => mkBatch l h t d k p (s ++ [v]) e c f
  | REngine v => mkBatch l h t d k p s (e ++ [v]) c f
  | RCandle v => mkBatch l h t d k p s e (c ++ [v]) f
  | RFault v => mkBatch l h t d k p s e c (f ++ [v])
  end.
Definition toBatch (records : list record) : Batch := fold_left batch_add records emptyBatch.

(** ** The queue ([queue.go]) *)

(** A slot of the ring; [None] is the zero record. *)
Record recordQueue := mkQueue { rqBuf : list (option record); rqHead : Z; rqCount : Z; rqSignal : bool }.

Definition newRecordQueue (capacity : Z) : recordQueue :=
  let capacity := if capacity <? 1 then 1 else capacity in
  mkQueue (replicate (Z.to_nat capacity) None) 0 0 false.

Definition set_slot (i : Z) (v : option record) (q : list (option record)) : list (option record) :=
  <[Z.to_nat i := v]> q.

(** The result is false when the oldest record was discarded. *)
Definition push (q : recordQueue) (r : record) : recordQueue * bool :=
  let cap := len (rqBuf q) in
  let dropped := rqCount q =? cap in
  let q := if dropped
           then mkQueue (set_slot (rqHead q) None (rqBuf q)) (Z.rem (rqHead q + 1) cap) (rqCount q - 1) (rqSignal q)
           else q in
  (mkQueue (set_slot (Z.rem (rqHead q + rqCount q) cap) (Some r) (rqBuf q)) (rqHead q) (rqCount q + 1) true,
   negb dropped).

Fixpoint drain_slots (n : nat) (q : recordQueue) : recordQueue * list (option record) :=
  match n with
  | O => (q, [])
  | S n =>
      let v := rqBuf q !! Z.to_nat (rqHead q) in
      let q := mkQueue (set_slot (rqHead q) None (rqBuf q)) (Z.rem (rqHead q + 1) (len (rqBuf q)))
                 (rqCount q - 1) (rqSignal q) in
      let '(q, out) := drain_slots n q in (q, mjoin v :: out)
  end.

(** Boxed records; the consumer's type assertion keeps the non-empty ones. *)
Definition Drain (q : recordQueue) (max : Z) : recordQueue * list (option record) :=
  if (rqCount q =? 0) || (max <=? 0) then (q, [])
  else drain_slots (Z.to_nat (if rqCount q <? max then rqCount q else max)) q.

Definition Depth (q : recordQueue) : Z := rqCount q.

(** [encoding.go]: a batch of what [Drain] returned. *)
Definition ToBatch (records : list (option record)) : Batch := toBatch (omap (fun x => x) records).

(** ** The queue refines a bounded list *)

(** The slice read cyclically from [head]. *)
Record queue_rep (q : recordQueue) (l : list record) : Prop := {
  qr_head : 0 <= rqHead q < len (rqBuf q);
  qr_count : rqCount q = len l;
  qr_le : len l <= len (rqBuf q);
  qr_get : forall i, (i < length l)%nat ->
    rqBuf q !! Z.to_nat (Z.rem (rqHead q + Z.of_nat i) (len (rqBuf q))) = Some (l !! i) }.

Lemma rem_once a n : 0 <= a < 2 * n -> Z.rem a n = if a <? n then a else a - n.
Proof.
  intros Ha. rewrite Z.rem_mod_nonneg by lia. split_if; [by apply Z.mod_small; lia|].
  symmetry. apply (Z.mod_unique_pos _ _ 1); lia.
Qed.

Lemma newRecordQueue_rep capacity :
  queue_rep (newRecordQueue capacity) [] /\ len (rqBuf (newRecordQueue capacity)) = Z.max 1 capacity.
Proof.
  unfold newRecordQueue, len. cbn [rqBuf].
  assert (Hl : Z.of_nat (length (replicate (Z.to_nat (if capacity <? 1 then 1 else capacity)) (@None record)))
    = Z.max 1 capacity) by (rewrite length_replicate; split_if; lia).
  split; [|done]. split; cbn [rqHead rqCount rqBuf]; unfold len; rewrite ?Hl; cbn [length]; lia.
Qed.

Lemma queue_rep_snoc buf head l r sg :
  queue_rep (mkQueue buf head (len l) sg) l -> len l < len buf ->
  queue_rep (mkQueue (set_slot (Z.rem (head + len l) (len buf)) (Some r) buf) head (len l + 1) true) (l ++ [r]).
Proof.
  intros [Hh _ _ Hg] Hlt. cbn [rqHead rqBuf] in *. unfold set_slot, len in *.
  split; cbn [rqHead rqCount rqBuf]; unfold len; rewrite ?length_insert, ?length_app; cbn [length]; try lia.
  intros i Hi. rewrite rem_once by lia. rewrite rem_once by lia.
  destruct (decide (i = length l)) as [->|Hne].
  - rewrite list_lookup_insert_eq by (split_if; lia). by rewrite lookup_app_r, Nat.sub_diag by lia.
  - rewrite list_lookup_insert_ne by (split_if; lia). rewrite lookup_app_l by lia.
    rewrite <- Hg by lia. by rewrite rem_once by lia.
Qed.

Lemma queue_rep_tail buf head x l sg :
  queue_rep (mkQueue buf head (len (x :: l)) sg) (x :: l) ->
  queue_rep (mkQueue (set_slot head None buf) (Z.rem (head + 1) (len buf)) (len (x :: l) - 1) sg) l /\
  buf !! Z.to_nat head = Some (Some x).
Proof.
  intros [Hh _ Hle Hg]. cbn [rqHead rqBuf] in *. unfold set_slot, len in *. cbn [length] in *.
  split.
  - split; cbn [rqHead rqCount rqBuf]; unfold len; rewrite ?length_insert; try lia.
    + rewrite rem_once by lia. split_if; lia.
    + intros i Hi. specialize (Hg (S i) ltac:(lia)). rewrite rem_once in Hg by lia.
      rewrite (rem_once (head + 1)), rem_once by (split_if; lia).
      rewrite list_lookup_insert_ne by (split_if; lia).
      change ((x :: l) !! S i) with (l !! i) in Hg.
      rewrite <- Hg. f_equal. split_if; lia.
  - specialize (Hg 0%nat ltac:(lia)). rewrite rem_once in Hg by lia.
    rewrite (proj2 (Z.ltb_lt _ _)) in Hg by lia. by rewrite Z.add_0_r in Hg.
Qed.

Lemma queue_eta q l : queue_rep q l -> q = mkQueue (rqBuf q) (rqHead q) (len l) (rqSignal q).
Proof. intros [_ Hc _ _]. destruct q. cbn in *. by subst. Qed.

(** Pushing keeps the newest [capacity] records. *)
Lemma push_rep q l r :
  queue_rep q l ->
  let '(q', ok) := push q r in
  queue_rep q' (lastn (length (rqBuf q)) (l ++ [r])) /\ length (rqBuf q') = length (rqBuf q) /\
  ok = (len l <? len (rqBuf q)).
Proof.
  intros Hq. rewrite (queue_eta _ _ Hq) in Hq |- *. destruct Hq as [Hh Hc Hle Hg].
  set (buf := rqBuf q) in *. set (head := rqHead q) in *. set (sg := rqSignal q) in *. clearbody buf head sg. clear q.
  cbn [rqHead rqBuf rqCount] in *. unfold push. cbn [rqHead rqBuf rqCount rqSignal].
  destruct (Z.eqb_spec (len l) (len buf)) as [Hfull|Hpart].
  - destruct l as [|x l]; [unfold len in *; simpl in *; lia|].
    destruct (queue_rep_tail buf head x l sg) as [Hr _]; [by split|].
    cbn [rqHead rqBuf rqCount rqSignal]. replace (len (x :: l) - 1) with (len l) in * by (unfold len; simpl; lia).
    assert (Hb : len (set_slot head None buf) = len buf) by (unfold len, set_slot; by rewrite length_insert).
    pose proof (queue_rep_snoc _ _ _ r _ Hr) as Hs. rewrite Hb in Hs.
    split; [|split; [unfold set_slot; by rewrite !length_insert|cbn [negb]; symmetry; apply Z.ltb_ge; lia]].
    replace (lastn (length buf) ((x :: l) ++ [r])) with (l ++ [r]).
    + apply Hs. unfold len in *. cbn [length] in *. lia.
    + unfold lastn. rewrite length_app. unfold len in Hfull. cbn [length] in *.
      replace (S (length l) + 1 - length buf)%nat with 1%nat by lia. done.
  - rewrite lastn_all by (unfold len in *; rewrite length_app; simpl; lia).
    split; [|split; [unfold set_slot; by rewrite length_insert|cbn [negb]; symmetry; apply Z.ltb_lt; lia]].
    apply (queue_rep_snoc _ _ _ r sg); [by split|lia].
Qed.

Lemma drain_slots_rep n q l :
  queue_rep q l -> (n <= length l)%nat ->
  let '(q', out) := drain_slots n q in
  queue_rep q' (drop n l) /\ length (rqBuf q') = length (rqBuf q) /\ out = Some <$> take n l.
Proof.
  revert q l. induction n as [|n IH]; intros q l Hq Hn; cbn [drain_slots].
  { rewrite drop_0, take_0. done. }
  destruct l as [|x l]; [simpl in Hn; lia|]. pose proof (qr_count _ _ Hq) as Hc.
  rewrite (queue_eta _ _ Hq) in Hq. destruct (queue_rep_tail _ _ _ _ _ Hq) as [Hr Hx].
  rewrite Hx, Hc. cbn [length] in Hn. specialize (IH _ l Hr ltac:(lia)).
  destruct (drain_slots n _) as [q' out]. cbn [rqBuf] in IH. unfold set_slot in IH. rewrite length_insert in IH.
  destruct IH as (? & ? & ->). done.
Qed.

(** Draining takes the oldest records, in order. *)
Lemma Drain_rep q l max :
  queue_rep q l ->
  let '(q', out) := Drain q max in
  queue_rep q' (drop (Z.to_nat max) l) /\ length (rqBuf q') = length (rqBuf q) /\
  out = Some <$> take (Z.to_nat max) l.
Proof.
  intros Hq. pose proof (qr_count _ _ Hq) as Hc. unfold Drain.
  destruct (Z.eqb_spec (rqCount q) 0) as [H0|H0]; cbn [orb].
  { destruct l; [|unfold len in *; simpl in *; lia]. by rewrite drop_nil, take_nil. }
  destruct (Z.leb_spec max 0); cbn [orb].
  { replace (Z.to_nat max) with 0%nat by lia. done. }
  pose proof (drain_slots_rep (Z.to_nat (if rqCount q <? max then rqCount q else max)) q l Hq) as Hd.
  unfold len in *. destruct (drain_slots _ q) as [q' out].
  destruct (Z.ltb_spec (rqCount q) max).
  - specialize (Hd ltac:(lia)). replace (Z.to_nat (rqCount q)) with (length l) in Hd by lia.
    rewrite drop_all, take_ge in Hd by lia. rewrite drop_ge, take_ge by lia. done.
  - apply Hd. lia.
Qed.
