(* ===== verification/MetricsStore.v ===== *)
(** * The metrics store and its writer: [recorder.go], [writer.go]

    Producers enqueue without blocking; one goroutine moves records from the
    queue to its pending list and commits them in batches to the driver.  The
    driver is the class [Repository].  The store runs as a sequence of steps:
    producers run between any two queue operations of the writer, so the
    functions that pull more than once take the records that arrive before each
    pull.  Readings of the clock are arguments; log lines are not modelled,
    except that a dropped record reports whether it warned. *)

From Stdlib Require Import Ascii.
From S2P Require Import Prelude Money GoTime Decimal Domain Float64 Metrics.

(** ** Configuration *)

Record MetricsConfig := mkMetricsConfig {
  mcEnabled : bool; mcDriver : text; mcDSN : text; mcQueueCapacity : Z; mcBatchSize : Z;
  mcFlushInterval : Z; mcRetentionEnabled : bool; mcRetentionLatency : Z; mcRetentionEvents : Z;
  mcRetentionSessions : Z; mcPruneInterval : Z; mcPruneBatch : Z }.

Definition DriverSQLite : text := txt "sqlite".
Definition DriverMemory : text := txt "memory".

Definition pos_or (v def : Z) : Z := if v <=? 0 then def else v.

Definition mc_withDefaults (c : MetricsConfig) : MetricsConfig :=
  mkMetricsConfig (mcEnabled c)
    (match TrimSpace (mcDriver c) with [] => DriverSQLite | _ => mcDriver c end) (mcDSN c)
    (pos_or (mcQueueCapacity c) 4096) (pos_or (mcBatchSize c) 128)
    (pos_or (mcFlushInterval c) (250 * Millisecond)) (mcRetentionEnabled c)
    (pos_or (mcRetentionLatency c) (24 * Hour)) (pos_or (mcRetentionEvents c) (7 * 24 * Hour))
    (pos_or (mcRetentionSessions c) (90 * 24 * Hour)) (pos_or (mcPruneInterval c) (10 * Minute))
    (pos_or (mcPruneBatch c) 5000).

(** The two errors of [validate]. *)
Inductive ConfigError := ErrNoDatabasePath | ErrUnknownDriver.

Definition mc_validate (c : MetricsConfig) : option ConfigError :=
  if negb (mcEnabled c) then None
  else if bool_decide (mcDriver c = DriverSQLite) then
    match TrimSpace (mcDSN c) with [] => Some ErrNoDatabasePath | _ => None end
  else if bool_decide (mcDriver c = DriverMemory) then None
  else Some ErrUnknownDriver.

(** ** The driver *)

Record Retention := mkRetention {
  rtEnabled : bool; rtLatency : Z; rtEvents : Z; rtSessions : Z }.

(** A database error; only whether there is one matters. *)
Inductive DriverError := DriverFailed.

Record WriterOptions := mkWriterOptions {
  woBatchSize : Z; woFlushInterval : Z; woRetryBackoff : Z; woRetention : Retention;
  woPruneInterval : Z; woPruneBatch : Z; woCheckpointInterval : Z }.

(** [PruneForStore] is optional: [None] for a driver that does not prune.
    [ProvideOptions] is [ConfigureWriter] followed by [WriterOptions], the
    identity for a driver without them. *)
Class Repository (R : Type) := {
  WriteBatch : R -> Batch -> R * option DriverError;
  PruneForStore : option (R -> Time -> Retention -> Z -> R * Z * option DriverError);
  ProvideOptions : WriterOptions -> WriterOptions }.
#[export] Hint Mode Repository ! : typeclass_instances.

Definition wo_withDefaults (o : WriterOptions) : WriterOptions :=
  mkWriterOptions (pos_or (woBatchSize o) 128) (pos_or (woFlushInterval o) (250 * Millisecond))
    (pos_or (woRetryBackoff o) (50 * Millisecond)) (woRetention o)
    (pos_or (woPruneInterval o) (10 * Minute)) (pos_or (woPruneBatch o) 5000)
    (pos_or (woCheckpointInterval o) (5 * Minute)).

Definition maxDrainPerBatch : Z := 10000.

(** ** State *)

Record Counters := mkCounters {
  ctDropped : Z; ctWriteFailures : Z; ctRowsWritten : Z; ctPruned : Z; ctLastFlushMs : Z;
  ctLastWarnUnix : Z }.

(** The store together with its writer: [stPending] and [stLastErr] are the
    writer's, [stWriteErr] is the store's degraded flag. *)
Record Store (R : Type) := mkStore {
  stCfg : MetricsConfig; stOpts : WriterOptions; stRepo : R; stQueue : recordQueue;
  stPending : list record; stLastErr : option DriverError; stWriteErr : option DriverError;
  stCounters : Counters; stClosed : bool }.
Arguments mkStore {R}. Arguments stCfg {R}. Arguments stOpts {R}. Arguments stRepo {R}.
Arguments stQueue {R}. Arguments stPending {R}. Arguments stLastErr {R}. Arguments stWriteErr {R}.
Arguments stCounters {R}. Arguments stClosed {R}.

Section Store.
Context {R : Type} `{Repository R}.
Implicit Types s : Store R.

Definition set_queue s (q : recordQueue) : Store R :=
  mkStore (stCfg s) (stOpts s) (stRepo s) q (stPending s) (stLastErr s) (stWriteErr s) (stCounters s) (stClosed s).
Definition set_pending s (p : list record) : Store R :=
  mkStore (stCfg s) (stOpts s) (stRepo s) (stQueue s) p (stLastErr s) (stWriteErr s) (stCounters s) (stClosed s).
Definition set_repo s (r : R) : Store R :=
  mkStore (stCfg s) (stOpts s) r (stQueue s) (stPending s) (stLastErr s) (stWriteErr s) (stCounters s) (stClosed s).
Definition set_write_err s (e : option DriverError) : Store R :=
  mkStore (stCfg s) (stOpts s) (stRepo s) (stQueue s) (stPending s) (stLastErr s) e (stCounters s) (stClosed s).
Definition set_last_err s (e : option DriverError) : Store R :=
  mkStore (stCfg s) (stOpts s) (stRepo s) (stQueue s) (stPending s) e (stWriteErr s) (stCounters s) (stClosed s).
Definition count s (f : Counters -> Counters) : Store R :=
  mkStore (stCfg s) (stOpts s) (stRepo s) (stQueue s) (stPending s) (stLastErr s) (stWriteErr s)
    (f (stCounters s)) (stClosed s).
Definition set_closed s (b : bool) : Store R :=
  mkStore (stCfg s) (stOpts s) (stRepo s) (stQueue s) (stPending s) (stLastErr s) (stWriteErr s) (stCounters s) b.

(** [Open] with the repository the driver factory returned. *)
Definition retention_of (c : MetricsConfig) : Retention :=
  mkRetention (mcRetentionEnabled c) (mcRetentionLatency c) (mcRetentionEvents c) (mcRetentionSessions c).
Definition startWriter (c : MetricsConfig) : WriterOptions :=
  wo_withDefaults (ProvideOptions (R := R) (mkWriterOptions (mcBatchSize c) (mcFlushInterval c) 0 (retention_of c)
    (mcPruneInterval c) (mcPruneBatch c) 0)).
Definition Open (cfg : MetricsConfig) (repo : R) : Store R + ConfigError :=
  let cfg := mc_withDefaults cfg in
  match mc_validate cfg with
  | Some e => inr e
  | None => inl (mkStore cfg (startWriter cfg) repo (newRecordQueue (mcQueueCapacity cfg)) [] None None
                   (mkCounters 0 0 0 0 0 0) false)
  end.

(** ** Producers *)

(** Whether the drop was logged: at most once a minute. *)
Definition noteDrop s (now : Time) : Store R * bool :=
  let warn := let last := ctLastWarnUnix (stCounters s) in
              negb (negb (last =? 0) && (i64 (tUnix now - last) <? 60)) in
  (count s (fun c => mkCounters (i64 (ctDropped c + 1)) (ctWriteFailures c) (ctRowsWritten c) (ctPruned c)
     (ctLastFlushMs c) (if warn then tUnix now else ctLastWarnUnix c)), warn).

Definition enqueue s (r : record) (now : Time) : Store R * bool :=
  if negb (mcEnabled (stCfg s)) then (s, false)
  else if stClosed s then noteDrop s now
  else
    let '(q, ok) := push (stQueue s) r in
    let s := set_queue s q in
    if ok : bool then (s, false) else noteDrop s now.

Definition enqueue_all s (rs : list record) (now : Time) : Store R :=
  fold_left (fun s r => fst (enqueue s r now)) rs s.

(** [RecordEngineEvent] stamps an event without a time. *)
Definition engine_row (v : EngineEventRow) (now : Time) : EngineEventRow :=
  if tIsZero (eeAt v)
  then mkEngineEvent (eeEvent v) (eeEpoch v) (eeEventIndex v) (eeUpdateID v) (eeTradeID v) (eeDetail v)
         (eeDurationMs v) (tUTC now)
  else v.

(** [%d]. *)
Definition format_int (v : Z) : text := if v <? 0 then "-"%char :: FormatUint (- v) else FormatUint v.

Definition candle_row (c : Candle) (now : Time) : CandleCloseRow :=
  let row o h l cl v := mkCloseRow (cdSymbol c) (IntervalID (cdInterval c)) (cdStartTime c) o h l cl v
                          (cdTradeCount c) (tUTC now) 0 in
  match Lookup (cdSymbol c) with
  | Ok sym => row (FormatPrice sym (cdOpen c)) (FormatPrice sym (cdHigh c)) (FormatPrice sym (cdLow c))
                (FormatPrice sym (cdClose c)) (FormatQty sym (cdVolume c))
  | Err _ => row (format_int (cdOpen c)) (format_int (cdHigh c)) (format_int (cdLow c))
               (format_int (cdClose c)) (format_int (cdVolume c))
  end.

(** The eleven methods of [Recorder]. *)
Inductive RecordCall :=
| RecordLatency (v : LatencySample) | RecordHealthReport (v : HealthReportRow)
| RecordTierTransition (v : TierTransitionRow) | RecordDeliveryWindow (v : DeliveryWindowRow)
| RecordBookEvent (v : BookSyncEvent) | RecordProtocolEvent (v : ProtocolEventRow)
| RecordSessionStart (v : SessionRow) | RecordSessionEnd (v : SessionRow)
| RecordFaultInjection (v : FaultInjectionRow) | RecordEngineEvent (v : EngineEventRow)
| RecordCandleClose (c : Candle).

Definition record_of (call : RecordCall) (now : Time) : record :=
  match call with
  | RecordLatency v => RLatency v | RecordHealthReport v => RHealth v
  | RecordTierTransition v => RTier v | RecordDeliveryWindow v => RDelivery v
  | RecordBookEvent v => RBook v | RecordProtocolEvent v => RProtocol v
  | RecordSessionStart v => RSession (mkSessionWrite v false)
  | RecordSessionEnd v => RSession (mkSessionWrite v true)
  | RecordFaultInjection v => RFault v
  | RecordEngineEvent v => REngine (engine_row v now)
  | RecordCandleClose c => RCandle (candle_row c now)
  end.
Definition Record_ s (call : RecordCall) (now : Time) : Store R :=
  fst (enqueue s (record_of call now) now).

(** ** The writer *)

Definition pull s : Store R * Z :=
  let '(q, records) := Drain (stQueue s) maxDrainPerBatch in
  let s := set_queue s q in
  (set_pending s (stPending s ++ omap (fun x => x) records), len records).

Definition takePending s (n : Z) : Store R * Batch :=
  if (n <=? 0) || (len (stPending s) =? 0) then (s, emptyBatch)
  else
    let n := if len (stPending s) <? n then len (stPending s) else n in
    (set_pending s (drop (Z.to_nat n) (stPending s)), toBatch (take (Z.to_nat n) (stPending s))).

(** [succeeded]: the callback of [startWriter]. *)
Definition succeeded s (b : Batch) : Store R :=
  set_write_err (count s (fun c => mkCounters (ctDropped c) (ctWriteFailures c)
    (i64 (ctRowsWritten c + Batch_Len b)) (ctPruned c) (ctLastFlushMs c) (ctLastWarnUnix c))) None.

Definition commit s (b : Batch) : Store R * option DriverError :=
  let '(repo, err) := WriteBatch (stRepo s) b in
  let s := set_repo s repo in
  match err with
  | None => (succeeded s b, None)
  | Some _ =>
      let '(repo, err) := WriteBatch (stRepo s) b in
      let s := set_repo s repo in
      match err with
      | None => (succeeded s b, None)
      | Some e =>
          let s := set_last_err s (Some e) in
          let s := count s (fun c => mkCounters (ctDropped c) (i64 (ctWriteFailures c + 1)) (ctRowsWritten c)
                     (ctPruned c) (ctLastFlushMs c) (ctLastWarnUnix c)) in
          (set_write_err s (Some e), Some e)
      end
  end.

(** The inner loop of [drain]: a batch size of one or more takes at most as
    many rounds as records are pending. *)
Fixpoint commit_full (fuel : nat) s (written : Z) (failure : option DriverError)
    : Store R * Z * option DriverError :=
  match fuel with
  | O => (s, written, failure)
  | S fuel =>
      if woBatchSize (stOpts s) <=? len (stPending s) then
        let '(s, b) := takePending s (woBatchSize (stOpts s)) in
        let '(s, err) := commit s b in
        commit_full fuel s (written + Batch_Len b) (match err with Some e => Some e | None => failure end)
      else (s, written, failure)
  end.

(** What happens around a drain: the records that arrive before its [k]-th
    pull, whether its context has expired after it, and the time. *)
Record Surroundings := mkSurroundings {
  snArrivals : nat -> list record; snExpired : nat -> bool; snNow : Time; snElapsedMs : Z }.

Fixpoint drain_loop (fuel : nat) (w : Surroundings) (all : bool) (k : nat) s (written : Z)
    (failure : option DriverError) : option (Store R * option DriverError) :=
  match fuel with
  | O => None
  | S fuel =>
      if maxDrainPerBatch <=? written then Some (s, failure)
      else
        let '(s, written, failure) := commit_full (length (stPending s)) s written failure in
        if negb all then Some (s, failure)
        else
          let s := enqueue_all s (snArrivals w k) (snNow w) in
          let '(s, pulled) := pull s in
          if (pulled =? 0) && (len (stPending s) <? woBatchSize (stOpts s)) then Some (s, failure)
          else drain_loop fuel w all (S k) s (if snExpired w k then maxDrainPerBatch else written) failure
  end.

(** Rounds after which the budget of [maxDrainPerBatch] rows is spent. *)
Definition drain_rounds s : nat := Z.to_nat (maxDrainPerBatch + woBatchSize (stOpts s) + 2).

Definition commit_rest s (failure : option DriverError) : Store R * option DriverError :=
  if 0 <? len (stPending s) then
    let '(s, b) := takePending s (len (stPending s)) in
    let '(s, err) := commit s b in
    (s, match err with Some e => Some e | None => failure end)
  else (s, failure).

Definition flush_done s (ms : Z) : Store R :=
  count s (fun c => mkCounters (ctDropped c) (ctWriteFailures c) (ctRowsWritten c) (ctPruned c) ms
                      (ctLastWarnUnix c)).

Definition drain s (w : Surroundings) (all : bool) : option (Store R * option DriverError) :=
  '(s, failure) ← drain_loop (drain_rounds s) w all 0 s 0 None;
  let '(s, failure) := commit_rest s failure in
  Some (flush_done s (snElapsedMs w), failure).

Definition prune s (now : Time) : Store R :=
  match PruneForStore with
  | None => s
  | Some f =>
      let '(repo, total, err) := f (stRepo s) now (woRetention (stOpts s)) (woPruneBatch (stOpts s)) in
      let s := set_repo s repo in
      match err with
      | Some _ => s
      | None =>
          if total =? 0 then s
          else count s (fun c => mkCounters (ctDropped c) (ctWriteFailures c) (ctRowsWritten c)
                          (i64 (ctPruned c + total)) (ctLastFlushMs c) (ctLastWarnUnix c))
      end
  end.

(** The final drain; the deadline is [snExpired]. *)
Fixpoint finish_loop (fuel : nat) (w : Surroundings) (k : nat) s (written : Z) : option (Store R) :=
  match fuel with
  | O => None
  | S fuel =>
      if maxDrainPerBatch <=? written then Some s
      else
        let s := enqueue_all s (snArrivals w k) (snNow w) in
        let '(s, _) := pull s in
        if (len (stPending s) =? 0) && (Depth (stQueue s) =? 0) then Some s
        else
          let '(s, b) := takePending s (len (stPending s)) in
          if Batch_Len b =? 0 then Some s
          else
            let written := written + Batch_Len b in
            let '(s, err) := commit s b in
            match err with
            | Some _ => Some s
            | None => if snExpired w k then Some s else finish_loop fuel w (S k) s written
            end
  end.
Definition finish s (w : Surroundings) : option (Store R) :=
  finish_loop (S (Z.to_nat maxDrainPerBatch)) w 0 s 0.

(** Why the loop of [start] woke up; it never waits for the queue's signal. *)
Inductive Wake :=
| WakeStop | WakeFlush | WakeTimer | WakePrune | WakeCheckpoint.

(** One round of [start]; [early] is a flush request already waiting.  The
    flag is false when the goroutine ends. *)
Definition start_round s (w : Surroundings) (early : bool) (wake : Wake) : option (Store R * bool) :=
  let '(s, _) := pull s in
  if early then '(s, _) ← drain s w true; Some (s, true)
  else if woBatchSize (stOpts s) <=? len (stPending s) then '(s, _) ← drain s w false; Some (s, true)
  else
    match wake with
    | WakeStop => s ← finish s w; Some (s, false)
    | WakeFlush => '(s, _) ← drain s w true; Some (s, true)
    | WakeTimer => '(s, _) ← drain s w false; Some (s, true)
    | WakePrune => Some (prune s (tUTC (snNow w)), true)
    | WakeCheckpoint => Some (s, true)
    end.

(** [Close] marks the store closed before its last flush. *)
Definition close_mark s : Store R := set_closed s true.

(** ** Health *)

Inductive Status := StatusOK | StatusDegraded | StatusDisabled.

Record Health := mkHealth {
  hlDriver : text; hlStatus : Status; hlQueueDepth : Z; hlCapacity : Z; hlDroppedTotal : Z;
  hlWriteFailures : Z; hlRowsWritten : Z; hlLastFlushMs : Z; hlSchemaVersion : Z }.

Definition driverNameOrDisabled (driver : text) : text :=
  match TrimSpace driver with [] => DriverMemory | _ => driver end.

(** A disabled store has neither queue nor repository. *)
Definition Store_Health s (schemaVersion : Z) : Health :=
  let c := stCounters s in
  if negb (mcEnabled (stCfg s)) then
    mkHealth (driverNameOrDisabled (mcDriver (stCfg s))) StatusDisabled 0 0 (ctDropped c)
      (ctWriteFailures c) (ctRowsWritten c) (ctLastFlushMs c) 0
  else
    mkHealth (mcDriver (stCfg s)) (match stWriteErr s with Some _ => StatusDegraded | None => StatusOK end)
      (Depth (stQueue s)) (mcQueueCapacity (stCfg s)) (ctDropped c) (ctWriteFailures c) (ctRowsWritten c)
      (ctLastFlushMs c) schemaVersion.
End Store.
