(* ===== verification/MetricsSpec.v ===== *)
(** * No metrics record is lost silently

    The accounting of the store: every record a producer hands over is written,
    in a batch that failed twice, counted as dropped, pending, or queued; what
    reaches the driver is in the order of arrival.  A drain terminates, and
    takes everything that was waiting when it began.

    The driver is wrapped in [Audited], which logs every call and its result:
    the theorems hold for any driver and read off its log what it was given. *)

From S2P Require Import Prelude Money GoTime Decimal Domain Float64 Metrics MetricsStore.

(** ** Batches *)

Lemma batch_add_len b r : Batch_Len (batch_add b r) = Batch_Len b + 1.
Proof.
  destruct b as [b1 b2 b3 b4 b5 b6 b7 b8 b9 b10], r; unfold Batch_Len, len; cbn [batch_add btLatency btHealth btTiers btDelivery btBookEvents
    btProtocol btSessions btEngineEvts btCandleClose btFaults]; rewrite length_app; cbn [length]; lia.
Qed.

Lemma toBatch_len rs : Batch_Len (toBatch rs) = len rs.
Proof.
  unfold toBatch. enough (forall b, Batch_Len (fold_left batch_add rs b) = Batch_Len b + len rs) as ->
    by (by unfold Batch_Len, len).
  induction rs as [|r rs IH]; intros b; cbn [fold_left]; [unfold len; simpl; lia|].
  rewrite IH, batch_add_len. unfold len. cbn [length]. lia.
Qed.

(** A batch keeps the order of each table: [toBatch] of the records is their
    projection to the tables. *)
Definition latency_of (r : record) : option LatencySample := match r with RLatency v => Some v | _ => None end.
Definition session_of (r : record) : option SessionWrite := match r with RSession v => Some v | _ => None end.
Definition tier_of (r : record) : option TierTransitionRow := match r with RTier v => Some v | _ => None end.
Definition delivery_of (r : record) : option DeliveryWindowRow := match r with RDelivery v => Some v | _ => None end.
Definition engine_of (r : record) : option EngineEventRow := match r with REngine v => Some v | _ => None end.
Definition health_of (r : record) : option HealthReportRow := match r with RHealth v => Some v | _ => None end.
Definition book_of (r : record) : option BookSyncEvent := match r with RBook v => Some v | _ => None end.
Definition protocol_of (r : record) : option ProtocolEventRow := match r with RProtocol v => Some v | _ => None end.
Definition candle_of (r : record) : option CandleCloseRow := match r with RCandle v => Some v | _ => None end.
Definition fault_of (r : record) : option FaultInjectionRow := match r with RFault v => Some v | _ => None end.

Lemma toBatch_table {A} (table : Batch -> list A) (sel : record -> option A) rs :
  table emptyBatch = [] -> (forall b r, table (batch_add b r) = table b ++ option_list (sel r)) ->
  table (toBatch rs) = omap sel rs.
Proof.
  intros He Ha. unfold toBatch. enough (forall b, table (fold_left batch_add rs b) = table b ++ omap sel rs) as ->
    by (by rewrite He).
  induction rs as [|r rs IH]; intros b; cbn [fold_left omap list_omap]; [by rewrite app_nil_r|].
  rewrite IH, Ha, <- app_assoc. by destruct (sel r).
Qed.
Lemma toBatch_tables rs :
  (btLatency (toBatch rs) = omap latency_of rs /\ btSessions (toBatch rs) = omap session_of rs /\
   btTiers (toBatch rs) = omap tier_of rs /\ btDelivery (toBatch rs) = omap delivery_of rs /\
   btEngineEvts (toBatch rs) = omap engine_of rs) /\
  btHealth (toBatch rs) = omap health_of rs /\ btBookEvents (toBatch rs) = omap book_of rs /\
  btProtocol (toBatch rs) = omap protocol_of rs /\ btCandleClose (toBatch rs) = omap candle_of rs /\
  btFaults (toBatch rs) = omap fault_of rs.
Proof.
  split_and!; apply toBatch_table; try done; intros [b1 b2 b3 b4 b5 b6 b7 b8 b9 b10] [];
    cbn; by rewrite ?app_nil_r.
Qed.

(** ** The audited driver *)

Record Audited (R : Type) := mkAudited { auInner : R; auLog : list (Batch * option DriverError) }.
Arguments mkAudited {R}. Arguments auInner {R}. Arguments auLog {R}.

#[global] Instance audited {R} `{Repository R} : Repository (Audited R) := {
  WriteBatch a b :=
    let '(r, e) := WriteBatch (auInner a) b in (mkAudited r (auLog a ++ [(b, e)]), e);
  PruneForStore :=
    match PruneForStore with
    | None => None
    | Some f => Some (fun a now ret n =>
        let '(r, total, e) := f (auInner a) now ret n in (mkAudited r (auLog a), total, e))
    end;
  ProvideOptions := ProvideOptions (R := R) }.

(** The chunks of records handed to the driver, in order, and whether they were
    written: at once, at the retry, or not at all. *)
Inductive history : list (Batch * option DriverError) -> list (list record * bool) -> Prop :=
| history_nil : history [] []
| history_ok log ch rs :
    history log ch -> history (log ++ [(toBatch rs, None)]) (ch ++ [(rs, true)])
| history_retry log ch rs e :
    history log ch ->
    history (log ++ [(toBatch rs, Some e); (toBatch rs, None)]) (ch ++ [(rs, true)])
| history_lost log ch rs e e' :
    history log ch ->
    history (log ++ [(toBatch rs, Some e); (toBatch rs, Some e')]) (ch ++ [(rs, false)]).

Definition chunk_records (ch : list (list record * bool)) : list record := concat (map fst ch).
Definition rows_of (ok : bool) (ch : list (list record * bool)) : list record :=
  chunk_records (List.filter (fun c => Bool.eqb (snd c) ok) ch).
Definition failed_batches (ch : list (list record * bool)) : Z :=
  len (List.filter (fun c => Bool.eqb (snd c) false) ch).

Lemma chunk_records_snoc ch rs ok : chunk_records (ch ++ [(rs, ok)]) = chunk_records ch ++ rs.
Proof. unfold chunk_records. rewrite map_app, concat_app. simpl. by rewrite app_nil_r. Qed.

Lemma rows_of_snoc o ch rs ok :
  rows_of o (ch ++ [(rs, ok)]) = rows_of o ch ++ (if Bool.eqb ok o then rs else []).
Proof.
  unfold rows_of. rewrite List.filter_app. cbn [List.filter snd].
  destruct (Bool.eqb ok o); [apply chunk_records_snoc|by rewrite !app_nil_r].
Qed.

Lemma failed_batches_snoc ch rs ok :
  failed_batches (ch ++ [(rs, ok)]) = failed_batches ch + (if ok then 0 else 1).
Proof.
  unfold failed_batches, len. rewrite List.filter_app, length_app. destruct ok; simpl; lia.
Qed.

(** Every record handed over is in a written or in a failed chunk. *)
Lemma rows_split ch : len (chunk_records ch) = len (rows_of true ch) + len (rows_of false ch).
Proof.
  induction ch as [|[rs ok] ch IH] using rev_ind; [done|].
  rewrite chunk_records_snoc, !rows_of_snoc. unfold len in *. rewrite !length_app, Nat2Z.inj_add, IH.
  destruct ok; simpl; lia.
Qed.

Lemma omap_Some {A} (l : list A) : omap (fun x => x) (Some <$> l) = l.
Proof. induction l as [|x l IH]; [done|]. cbn. by f_equal. Qed.

Lemma pull_spec {R} (s : Store R) l :
  queue_rep (stQueue s) l ->
  stPending (fst (pull s)) = stPending s ++ take (Z.to_nat maxDrainPerBatch) l /\
  snd (pull s) = len (take (Z.to_nat maxDrainPerBatch) l) /\
  queue_rep (stQueue (fst (pull s))) (drop (Z.to_nat maxDrainPerBatch) l) /\
  length (rqBuf (stQueue (fst (pull s)))) = length (rqBuf (stQueue s)).
Proof.
  intros Hq. unfold pull. pose proof (Drain_rep _ _ maxDrainPerBatch Hq) as Hd.
  destruct (Drain (stQueue s) maxDrainPerBatch) as [q out]. destruct Hd as (Hq' & Hcap & ->).
  cbn [fst snd set_pending set_queue stPending stQueue]. rewrite omap_Some.
  split; [done|]. split; [|done]. unfold len. by rewrite length_fmap.
Qed.

Section Accounting.
Context {R : Type} `{Repository R}.
Implicit Types s : Store (Audited R).

(** The configuration never changes; [P] is a property of the driver that its
    operations keep. *)
Context (C : MetricsConfig) (P : Audited R -> Prop).
Hypothesis P_write : forall a b, P a -> P (fst (WriteBatch a b)).
Hypothesis P_prune : forall f a now n,
  PruneForStore = Some f -> P a -> P (fst (fst (f a now (woRetention (startWriter (R := R) C)) n))).

(** The books: [offers] is everything producers handed over so far, [l] what
    the queue holds, [d] the number of dropped records. *)
Record accounted s (offers : list record) (ch : list (list record * bool)) (l : list record) (d : Z) : Prop := {
  ac_cfg : mcEnabled (stCfg s) = true /\ stCfg s = C; ac_batch : 1 <= woBatchSize (stOpts s);
  ac_queue : queue_rep (stQueue s) l; ac_cap : len (rqBuf (stQueue s)) = mcQueueCapacity (stCfg s);
  ac_log : history (auLog (stRepo s)) ch; ac_repo : P (stRepo s);
  ac_order : (chunk_records ch ++ stPending s ++ l) `sublist_of` offers;
  ac_count : len offers = d + len (chunk_records ch) + len (stPending s) + len l;
  ac_dropped : ctDropped (stCounters s) = i64 d; ac_nonneg : 0 <= d;
  ac_rows : ctRowsWritten (stCounters s) = i64 (len (rows_of true ch));
  ac_failures : ctWriteFailures (stCounters s) = i64 (failed_batches ch);
  ac_opts : stOpts s = startWriter (R := R) C }.

Lemma len_snoc {A} (l : list A) x : len (l ++ [x]) = len l + 1.
Proof. unfold len. rewrite length_app. simpl. lia. Qed.
Lemma len_app {A} (l k : list A) : len (l ++ k) = len l + len k.
Proof. unfold len. rewrite length_app. lia. Qed.

Lemma acc_drop s offers ch l d r now :
  accounted s offers ch l d -> accounted (fst (noteDrop s now)) (offers ++ [r]) ch l (d + 1).
Proof.
  intros [? ? ? ? ? ? Ho Hc Hd ? ? ?]. unfold noteDrop. split; cbn; try done; try lia.
  - by apply sublist_inserts_r.
  - rewrite len_snoc. lia.
  - by rewrite Hd, i64_add_l.
Qed.

Lemma acc_enqueue s offers ch l d r now :
  accounted s offers ch l d ->
  exists l' d', accounted (fst (enqueue s r now)) (offers ++ [r]) ch l' d'.
Proof.
  intros Ha. unfold enqueue. rewrite (proj1 (ac_cfg _ _ _ _ _ Ha)). cbn [negb].
  destruct (stClosed s); [exists l, (d + 1); by apply acc_drop|].
  pose proof (push_rep (stQueue s) l r (ac_queue _ _ _ _ _ Ha)) as Hp.
  destruct (push (stQueue s) r) as [q ok]. destruct Hp as (Hq & Hcap & Hok).
  destruct Ha as [He Hb Hql Hqc Hh HP Ho Hc Hd Hn Hr Hf].
  assert (Hsub : (chunk_records ch ++ stPending s ++ lastn (length (rqBuf (stQueue s))) (l ++ [r]))
    `sublist_of` offers ++ [r]).
  { transitivity ((chunk_records ch ++ stPending s ++ l) ++ [r]); [|by apply sublist_app].
    rewrite <- !app_assoc. do 2 (apply sublist_app; [done|]). apply sublist_drop. }
  pose proof (qr_le _ _ Hql) as Hle. unfold len in Hle.
  assert (Hlen : len (lastn (length (rqBuf (stQueue s))) (l ++ [r])) = len l + (if ok then 1 else 0)).
  { unfold len. rewrite length_lastn, length_app. cbn [length]. subst ok. unfold len.
    destruct (Z.ltb_spec (Z.of_nat (length l)) (Z.of_nat (length (rqBuf (stQueue s))))); lia. }
  destruct ok; cbn [fst].
  - exists (lastn (length (rqBuf (stQueue s))) (l ++ [r])), d.
    split; cbn; try done; [by unfold len in *; rewrite Hcap|]. rewrite len_snoc, Hlen. lia.
  - exists (lastn (length (rqBuf (stQueue s))) (l ++ [r])), (d + 1).
    unfold noteDrop. split; cbn; try done; try lia;
      [by unfold len in *; rewrite Hcap|rewrite len_snoc, Hlen; lia|by rewrite Hd, i64_add_l].
Qed.

Lemma acc_enqueue_all s offers ch l d rs now :
  accounted s offers ch l d ->
  exists l' d', accounted (enqueue_all s rs now) (offers ++ rs) ch l' d'.
Proof.
  revert s offers l d. induction rs as [|r rs IH]; intros s offers l d Ha.
  { exists l, d. by rewrite app_nil_r. }
  destruct (acc_enqueue s offers ch l d r now Ha) as (l1 & d1 & H1).
  destruct (IH _ _ _ _ H1) as (l2 & d2 & H2). exists l2, d2. by rewrite <- app_assoc in H2.
Qed.

Lemma acc_pull s offers ch l d :
  accounted s offers ch l d ->
  accounted (fst (pull s)) offers ch (drop (Z.to_nat maxDrainPerBatch) l) d.
Proof.
  intros Ha. destruct (pull_spec s l (ac_queue _ _ _ _ _ Ha)) as (Hp & _ & Hq & Hcap).
  assert (Hsame : stCfg (fst (pull s)) = stCfg s /\ stOpts (fst (pull s)) = stOpts s /\
    stRepo (fst (pull s)) = stRepo s /\ stCounters (fst (pull s)) = stCounters s)
    by (unfold pull; by destruct (Drain _ _)).
  destruct Hsame as (E1 & E2 & E3 & E4), Ha as [? ? ? ? ? ? Ho Hc ? ? ? ?].
  split; rewrite ?E1, ?E2, ?E3, ?E4, ?Hp; try done.
  - unfold len in *. by rewrite Hcap.
  - by rewrite <- app_assoc, take_drop.
  - rewrite len_app, <- (take_drop (Z.to_nat maxDrainPerBatch) l) in *. rewrite len_app in Hc.
    rewrite take_drop in *. lia.
Qed.

(** Committing the first [n] pending records. *)
Lemma acc_commit s offers ch l d n :
  accounted s offers ch l d -> 0 < n <= len (stPending s) ->
  let '(s1, b) := takePending s n in
  let '(s2, err) := commit s1 b in
  Batch_Len b = n /\ stPending s2 = drop (Z.to_nat n) (stPending s) /\
  stOpts s2 = stOpts s /\ stCfg s2 = stCfg s /\ stQueue s2 = stQueue s /\
  exists ok, accounted s2 offers (ch ++ [(take (Z.to_nat n) (stPending s), ok)]) l d /\
             (err = None <-> ok = true).
Proof.
  intros [He Hb Hq Hqc Hh HP Ho Hc Hd Hn Hr Hf] Hrange. unfold takePending.
  rewrite (proj2 (Z.leb_gt n 0)), (proj2 (Z.eqb_neq (len (stPending s)) 0)) by lia. cbn [orb].
  rewrite (proj2 (Z.ltb_ge _ _)) by lia. set (rs := take (Z.to_nat n) (stPending s)).
  assert (Hrs : len rs = n) by (unfold rs, len in *; rewrite length_take; lia).
  assert (Hpend : stPending s = rs ++ drop (Z.to_nat n) (stPending s)) by (unfold rs; by rewrite take_drop).
  assert (Hacc : forall repo s2 ok,
    stCfg s2 = stCfg s -> stOpts s2 = stOpts s -> stQueue s2 = stQueue s ->
    stPending s2 = drop (Z.to_nat n) (stPending s) -> stRepo s2 = repo ->
    history (auLog repo) (ch ++ [(rs, ok)]) -> P repo ->
    ctDropped (stCounters s2) = ctDropped (stCounters s) ->
    ctRowsWritten (stCounters s2) = i64 (ctRowsWritten (stCounters s) + (if ok then len rs else 0)) ->
    ctWriteFailures (stCounters s2) = i64 (ctWriteFailures (stCounters s) + (if ok then 0 else 1)) ->
    accounted s2 offers (ch ++ [(rs, ok)]) l d).
  { intros repo s2 ok E1 E2 E3 E4 E5 Hlog HP' Ed Er Ef.
    split; rewrite ?E1, ?E2, ?E3, ?E4, ?E5, ?Ed, ?Er, ?Ef; try done.
    - rewrite chunk_records_snoc, <- app_assoc. by rewrite (app_assoc rs), <- Hpend.
    - rewrite chunk_records_snoc, len_app, Hc, Hpend at 1. rewrite len_app. lia.
    - rewrite Hr, i64_add_l, rows_of_snoc, len_app. by destruct ok.
    - by rewrite Hf, i64_add_l, failed_batches_snoc. }
  pose proof (P_write (stRepo s) (toBatch rs) HP) as HP1.
  unfold commit. cbn [WriteBatch audited set_pending stRepo] in *.
  destruct (WriteBatch (auInner (stRepo s)) (toBatch rs)) as [r1 [e1|]]; cbn [fst] in HP1.
  - pose proof (P_write _ (toBatch rs) HP1) as HP2. cbn [WriteBatch audited set_repo stRepo auInner auLog] in *.
    destruct (WriteBatch r1 (toBatch rs)) as [r2 [e2|]]; cbn [fst] in HP2.
    + split_and!; try done; [by rewrite toBatch_len|]. exists false. split; [|done].
      eapply Hacc; try done; cbn; [|by rewrite Z.add_0_r, Hr, i64_i64].
      rewrite <- app_assoc. by constructor.
    + split_and!; try done; [by rewrite toBatch_len|]. exists true. split; [|done].
      eapply Hacc; try done; cbn; [|by rewrite toBatch_len|by rewrite Z.add_0_r, Hf, i64_i64].
      rewrite <- app_assoc. by econstructor.
  - split_and!; try done; [by rewrite toBatch_len|]. exists true. split; [|done].
    eapply Hacc; try done; cbn; [|by rewrite toBatch_len|by rewrite Z.add_0_r, Hf, i64_i64].
    by constructor.
Qed.

(** What the writer does next changes the chunks and the pending list only. *)
Lemma acc_commit_full fuel s offers ch l d written failure :
  accounted s offers ch l d ->
  let '(s', written', _) := commit_full fuel s written failure in
  stOpts s' = stOpts s /\ stCfg s' = stCfg s /\ stQueue s' = stQueue s /\
  (exists ch', accounted s' offers ch' l d) /\
  written' + len (stPending s') = written + len (stPending s) /\ written <= written' /\
  ((length (stPending s) <= fuel)%nat -> len (stPending s') < woBatchSize (stOpts s)).
Proof.
  revert s ch written failure. induction fuel as [|fuel IH]; intros s ch written failure Ha; cbn [commit_full].
  { pose proof (ac_batch _ _ _ _ _ Ha). split_and!; try done; [by exists ch|]. unfold len. lia. }
  pose proof (ac_batch _ _ _ _ _ Ha) as Hb.
  destruct (Z.leb_spec (woBatchSize (stOpts s)) (len (stPending s))) as [Hle|Hlt].
  - pose proof (acc_commit s offers ch l d (woBatchSize (stOpts s)) Ha ltac:(lia)) as Hc.
    destruct (takePending s (woBatchSize (stOpts s))) as [s1 b]. destruct (commit s1 b) as [s2 err].
    destruct Hc as (Hbl & Hp & Ho & Hcf & Hq & ok & Ha2 & _).
    specialize (IH s2 _ (written + Batch_Len b) (match err with Some e => Some e | None => failure end) Ha2).
    destruct (commit_full fuel s2 _ _) as [[s' w'] f']. destruct IH as (IO & IC & IQ & IA & IL & IW & IF).
    assert (Hlen : len (stPending s2) = len (stPending s) - woBatchSize (stOpts s))
      by (rewrite Hp; unfold len in *; rewrite length_drop; lia).
    rewrite IO, IC, IQ, Ho, Hcf, Hq. split_and!; try done; try lia. rewrite <- Ho. intros Hf. apply IF.
    unfold len in *. lia.
  - split_and!; try done; by exists ch.
Qed.

Definition arrivals (w : Surroundings) (k n : nat) : list record := concat (map (snArrivals w) (seq k n)).

Lemma arrivals_S w k n : arrivals w k (S n) = snArrivals w k ++ arrivals w (S k) n.
Proof. done. Qed.

Lemma enqueue_opts s r now :
  stOpts (fst (enqueue s r now)) = stOpts s /\ stPending (fst (enqueue s r now)) = stPending s /\
  stCfg (fst (enqueue s r now)) = stCfg s.
Proof.
  unfold enqueue. destruct (negb _); [done|]. destruct (stClosed s); [done|].
  by destruct (push (stQueue s) r) as [q []].
Qed.

Lemma enqueue_all_opts s rs now :
  stOpts (enqueue_all s rs now) = stOpts s /\ stPending (enqueue_all s rs now) = stPending s /\
  stCfg (enqueue_all s rs now) = stCfg s.
Proof.
  revert s. induction rs as [|r rs IH]; intros s; [done|]. unfold enqueue_all. cbn [fold_left].
  fold (enqueue_all (fst (enqueue s r now)) rs now).
  destruct (enqueue_opts s r now) as (Ho & Hp & Hc), (IH (fst (enqueue s r now))) as (-> & -> & ->). done.
Qed.

Lemma pull_opts s : stOpts (fst (pull s)) = stOpts s /\ stCfg (fst (pull s)) = stCfg s.
Proof. unfold pull. by destruct (Drain _ _). Qed.

(** The loop of [drain] keeps the books, and stops: every round that does not
    end it takes at least one record, and fewer than a batch is carried over
    unwritten. *)
Lemma acc_drain_loop fuel w all k s offers ch l d written failure :
  accounted s offers ch l d -> 0 <= written -> (0 < fuel)%nat ->
  (written < maxDrainPerBatch ->
   (Z.to_nat (maxDrainPerBatch + woBatchSize (stOpts s) - written - len (stPending s)) + 1 < fuel)%nat) ->
  exists s' failure' n, drain_loop fuel w all k s written failure = Some (s', failure') /\
    stOpts s' = stOpts s /\
    exists ch' l' d', accounted s' (offers ++ arrivals w k n) ch' l' d' /\
      (all = true -> written < maxDrainPerBatch \/ l = [] -> mcQueueCapacity (stCfg s) <= maxDrainPerBatch ->
       l' `sublist_of` arrivals w k n) /\ stCfg s' = stCfg s.
Proof.
  revert k s offers ch l d written failure.
  induction fuel as [|fuel IH]; intros k s offers ch l d written failure Ha Hw H0f Hf; [lia|]. cbn [drain_loop].
  destruct (Z.leb_spec maxDrainPerBatch written) as [Hmax|Hmax].
  { exists s, failure, 0%nat. split_and!; try done. exists ch, l, d. unfold arrivals. cbn. rewrite app_nil_r.
    split_and!; try done. intros _ [?| ->] _; [lia|done]. }
  pose proof (acc_commit_full (length (stPending s)) s offers ch l d written failure Ha) as Hc.
  destruct (commit_full _ s written failure) as [[s1 w1] f1].
  destruct Hc as (Ho1 & Hcf1 & Hq1 & [ch1 Ha1] & Hsum & Hle & Hp1). specialize (Hp1 (le_n _)).
  destruct all; cbn [negb];
    [|exists s1, f1, 0%nat; split_and!; try done; exists ch1, l, d; unfold arrivals; cbn; by rewrite app_nil_r].
  destruct (acc_enqueue_all s1 offers ch1 l d (snArrivals w k) (snNow w) Ha1) as (l2 & d2 & Ha2).
  destruct (enqueue_all_opts s1 (snArrivals w k) (snNow w)) as (Ho2 & Hpe2 & Hcf2).
  set (s2 := enqueue_all s1 (snArrivals w k) (snNow w)) in *.
  pose proof (acc_pull s2 _ _ _ _ Ha2) as Ha3. destruct (pull_opts s2) as [Ho3 Hcf3].
  assert (Hempty : mcQueueCapacity (stCfg s) <= maxDrainPerBatch -> drop (Z.to_nat maxDrainPerBatch) l2 = []).
  { intros Hcap. apply drop_ge. pose proof (qr_le _ _ (ac_queue _ _ _ _ _ Ha2)) as Hle2.
    rewrite (ac_cap _ _ _ _ _ Ha2), Hcf2, Hcf1 in Hle2. unfold len in Hle2. lia. }
  destruct (pull_spec s2 l2 (ac_queue _ _ _ _ _ Ha2)) as (Hp3 & Hn3 & _).
  destruct (pull s2) as [s3 pulled]. cbn [fst snd] in *.
  assert (Hopts : stOpts s3 = stOpts s) by congruence.
  destruct ((pulled =? 0) && (len (stPending s3) <? woBatchSize (stOpts s3))) eqn:Estop.
  { exists s3, f1, 1%nat. split_and!; try done. do 3 eexists. rewrite arrivals_S. unfold arrivals. cbn.
    rewrite app_nil_r. split_and!; [done| |congruence]. intros _ _ Hcap. rewrite Hempty by done. apply sublist_nil_l. }
  assert (Hpos : 0 < pulled).
  { destruct (Z.eqb_spec pulled 0) as [->|]; [|rewrite Hn3 in *; unfold len in *; lia].
    cbn [andb] in Estop. apply Z.ltb_ge in Estop. rewrite Hopts, Hp3, Hpe2 in Estop.
    assert (take (Z.to_nat maxDrainPerBatch) l2 = []) as E by (apply length_zero_iff_nil; unfold len in *; lia).
    rewrite E, app_nil_r in Estop. lia. }
  assert (Hlen3 : len (stPending s3) = len (stPending s1) + pulled) by (rewrite Hp3, Hpe2, len_app; lia).
  destruct (IH (S k) s3 _ _ _ _ (if snExpired w k then maxDrainPerBatch else w1) f1 Ha3) as
    (s' & f' & n & E & Ho' & ch' & l' & d' & Ha' & Hlate & Hcf').
  { destruct (snExpired w k); unfold maxDrainPerBatch; lia. }
  { lia. }
  { rewrite Hopts. specialize (Hf Hmax). destruct (snExpired w k); [lia|]. intros Hw1. lia. }
  exists s', f', (S n). split; [done|]. split; [congruence|]. exists ch', l', d'.
  rewrite arrivals_S, app_assoc. split_and!; [done| |congruence]. intros _ _ Hcap.
  apply sublist_inserts_l, Hlate; [done| |congruence]. right. by apply Hempty.
Qed.

Lemma acc_commit_rest s offers ch l d failure :
  accounted s offers ch l d ->
  let '(s', _) := commit_rest s failure in
  stPending s' = [] /\ stOpts s' = stOpts s /\ stCfg s' = stCfg s /\ stQueue s' = stQueue s /\
  exists ch', accounted s' offers ch' l d.
Proof.
  intros Ha. unfold commit_rest. destruct (Z.ltb_spec 0 (len (stPending s))) as [Hlt|Hle].
  - pose proof (acc_commit s offers ch l d (len (stPending s)) Ha ltac:(lia)) as Hc.
    destruct (takePending s _) as [s1 b]. destruct (commit s1 b) as [s2 err].
    destruct Hc as (_ & Hp & Ho & Hcf & Hq & ok & Ha2 & _). split_and!; [|done|done|done|eauto].
    rewrite Hp. apply drop_ge. unfold len. lia.
  - split_and!; [|done|done|done|eauto]. apply length_zero_iff_nil. unfold len in Hle. lia.
Qed.

Lemma acc_flush_done s offers ch l d ms :
  accounted s offers ch l d -> accounted (flush_done s ms) offers ch l d.
Proof. intros []. by split. Qed.

Lemma acc_drain s w all offers ch l d :
  accounted s offers ch l d ->
  exists s' failure n, drain s w all = Some (s', failure) /\ stPending s' = [] /\
    exists ch' l' d', accounted s' (offers ++ arrivals w 0 n) ch' l' d' /\
      (all = true -> mcQueueCapacity (stCfg s) <= maxDrainPerBatch -> l' `sublist_of` arrivals w 0 n).
Proof.
  intros Ha. unfold drain.
  destruct (acc_drain_loop (drain_rounds s) w all 0 s offers ch l d 0 None Ha ltac:(lia))
    as (s1 & f1 & n & -> & Ho & ch1 & l1 & d1 & Ha1 & Hlate & _).
  { unfold drain_rounds, maxDrainPerBatch. pose proof (ac_batch _ _ _ _ _ Ha). lia. }
  { unfold drain_rounds, maxDrainPerBatch, len. pose proof (ac_batch _ _ _ _ _ Ha). lia. }
  cbn [mbind option_bind]. pose proof (acc_commit_rest s1 _ _ _ _ f1 Ha1) as Hr.
  destruct (commit_rest s1 f1) as [s2 f2]. destruct Hr as (Hp & _ & _ & _ & ch2 & Ha2).
  exists (flush_done s2 (snElapsedMs w)), f2, n. split; [done|]. split; [done|].
  exists ch2, l1, d1. split; [by apply acc_flush_done|]. intros Hall Hcap. apply Hlate; [done| |done].
  left. unfold maxDrainPerBatch. lia.
Qed.

Lemma acc_finish_loop fuel w k s offers ch l d written :
  accounted s offers ch l d -> 0 <= written -> (Z.to_nat (maxDrainPerBatch - written) < fuel)%nat ->
  exists s' n, finish_loop fuel w k s written = Some s' /\
    exists ch' l' d', accounted s' (offers ++ arrivals w k n) ch' l' d'.
Proof.
  revert k s offers ch l d written. induction fuel as [|fuel IH]; intros k s offers ch l d written Ha Hw Hf; [lia|].
  cbn [finish_loop]. destruct (Z.leb_spec maxDrainPerBatch written).
  { exists s, 0%nat. split; [done|]. unfold arrivals. cbn. rewrite app_nil_r. eauto. }
  destruct (acc_enqueue_all s offers ch l d (snArrivals w k) (snNow w) Ha) as (l1 & d1 & Ha1).
  pose proof (acc_pull _ _ _ _ _ Ha1) as Ha2. destruct (pull _) as [s2 pulled]. cbn [fst] in Ha2.
  assert (Hone : arrivals w k 1 = snArrivals w k) by (unfold arrivals; cbn; by rewrite app_nil_r).
  destruct (_ && _); [exists s2, 1%nat; rewrite Hone; eauto 6|].
  destruct (Z.ltb_spec 0 (len (stPending s2))) as [Hlt|Hle].
  - pose proof (acc_commit s2 _ _ _ _ (len (stPending s2)) Ha2 ltac:(lia)) as Hc.
    destruct (takePending s2 _) as [s3 b]. destruct (commit s3 b) as [s4 err].
    destruct Hc as (Hbl & _ & _ & _ & _ & ok & Ha4 & _). rewrite (proj2 (Z.eqb_neq _ _)) by lia.
    destruct err; [exists s4, 1%nat; rewrite Hone; eauto 6|].
    destruct (snExpired w k); [exists s4, 1%nat; rewrite Hone; eauto 6|].
    destruct (IH (S k) s4 _ _ _ _ (written + Batch_Len b) Ha4) as (s' & n & -> & ch' & l' & d' & Ha').
    { lia. } { unfold maxDrainPerBatch in *. lia. }
    exists s', (S n). split; [done|]. rewrite arrivals_S, app_assoc. eauto.
  - unfold takePending. rewrite (proj2 (Z.leb_le _ _)) by done. cbn [orb].
    change (Batch_Len emptyBatch =? 0) with true. exists s2, 1%nat. rewrite Hone. eauto 6.
Qed.

Lemma acc_prune s offers ch l d now : accounted s offers ch l d -> accounted (prune s now) offers ch l d.
Proof.
  intros Ha. unfold prune. destruct (@PruneForStore (Audited R) audited) as [f|] eqn:E; [|done].
  assert (Hlog : auLog (fst (fst (f (stRepo s) now (woRetention (stOpts s)) (woPruneBatch (stOpts s)))))
    = auLog (stRepo s)).
  { cbn in E. destruct (@PruneForStore R H) as [g|]; [|done]. injection E as <-.
    by destruct (g _ _ _ _) as [[? ?] ?]. }
  pose proof (P_prune f (stRepo s) now (woPruneBatch (stOpts s)) eq_refl) as Hp.
  rewrite <- (ac_opts _ _ _ _ _ Ha) in Hp.
  destruct (f _ _ _ _) as [[r total] [e|]]; cbn [fst] in *; destruct Ha; specialize (Hp ltac:(done));
    [split; cbn; rewrite ?Hlog; done|]. destruct (total =? 0); split; cbn; rewrite ?Hlog; done.
Qed.

(** One round of the writer always ends, and keeps the books. *)
Lemma acc_round s w early wake offers ch l d :
  accounted s offers ch l d ->
  exists s' more n, start_round s w early wake = Some (s', more) /\
    exists ch' l' d', accounted s' (offers ++ arrivals w 0 n) ch' l' d'.
Proof.
  intros Ha. unfold start_round. pose proof (acc_pull _ _ _ _ _ Ha) as Hp.
  destruct (pull s) as [s1 pulled]. cbn [fst] in Hp.
  assert (Hdrain : forall all, exists s' more n,
    ('(s, _) ← drain s1 w all; Some (s, true)) = Some (s', more) /\
    exists ch' l' d', accounted s' (offers ++ arrivals w 0 n) ch' l' d').
  { intros all. destruct (acc_drain s1 w all _ _ _ _ Hp) as (s' & f & n & -> & _ & ch' & l' & d' & Hacc & _).
    exists s', true, n. eauto 6. }
  destruct early; [apply Hdrain|]. destruct (_ <=? _); [apply Hdrain|].
  destruct wake; try apply Hdrain.
  - unfold finish.
    destruct (acc_finish_loop (S (Z.to_nat maxDrainPerBatch)) w 0 s1 _ _ _ _ 0 Hp) as (s' & n & -> & Hacc).
    { lia. } { lia. }
    by exists s', false, n.
  - exists (prune s1 (tUTC (snNow w))), true, 0%nat. split; [done|]. unfold arrivals. cbn.
    rewrite app_nil_r. do 3 eexists. by apply acc_prune.
  - exists s1, true, 0%nat. split; [done|]. unfold arrivals. cbn. rewrite app_nil_r. eauto.
Qed.

(** ** Histories of a store *)

(** A producer's call, one round of the writer with what happens around it, or
    the start of [Close]. *)
Inductive MStep :=
| MRecord (call : RecordCall) (now : Time)
| MRound (w : Surroundings) (early : bool) (wake : Wake)
| MClose.

Definition m_step s (st : MStep) : option (Store (Audited R)) :=
  match st with
  | MRecord call now => Some (Record_ s call now)
  | MRound w early wake => fst <$> start_round s w early wake
  | MClose => Some (close_mark s)
  end.
Fixpoint m_run s (steps : list MStep) : option (Store (Audited R)) :=
  match steps with [] => Some s | st :: steps => s ← m_step s st; m_run s steps end.

(** What the producers offered in the course of the steps; a round sees the
    arrivals before each of its [n] pulls. *)
Inductive offered : list MStep -> list record -> Prop :=
| offered_nil : offered [] []
| offered_record call now steps rs :
    offered steps rs -> offered (MRecord call now :: steps) (record_of call now :: rs)
| offered_round w early wake n steps rs :
    offered steps rs -> offered (MRound w early wake :: steps) (arrivals w 0 n ++ rs)
| offered_close steps rs : offered steps rs -> offered (MClose :: steps) rs.

Lemma acc_open cfg (r0 : R) s0 :
  Open cfg (mkAudited r0 []) = inl s0 -> mcEnabled cfg = true -> C = stCfg s0 -> P (mkAudited r0 []) ->
  accounted s0 [] [] [] 0.
Proof.
  unfold Open. destruct (mc_validate _); [done|]. intros [= <-] He HC HP.
  destruct (newRecordQueue_rep (mcQueueCapacity (mc_withDefaults cfg))) as [Hq Hc].
  assert (Hcap : len (rqBuf (newRecordQueue (mcQueueCapacity (mc_withDefaults cfg)))) = mcQueueCapacity (mc_withDefaults cfg))
    by (rewrite Hc; cbn; unfold pos_or; split_if; lia).
  split; try done; [cbn; unfold pos_or; split_if; lia|apply history_nil|by rewrite HC].
Qed.

Lemma acc_run steps s offers ch l d :
  accounted s offers ch l d ->
  exists s' rs ch' l' d', m_run s steps = Some s' /\ offered steps rs /\
    accounted s' (offers ++ rs) ch' l' d'.
Proof.
  revert s offers ch l d. induction steps as [|st steps IH]; intros s offers ch l d Ha.
  { exists s, [], ch, l, d. split_and!; [done|constructor|by rewrite app_nil_r]. }
  cbn [m_run]. destruct st as [call now|w early wake|]; cbn [m_step].
  - destruct (acc_enqueue s offers ch l d (record_of call now) now Ha) as (l1 & d1 & H1).
    destruct (IH _ _ _ _ _ H1) as (s' & rs & ch' & l' & d' & E & Hof & Ha').
    exists s', (record_of call now :: rs), ch', l', d'. split_and!; [done|by constructor|].
    by rewrite <- app_assoc in Ha'.
  - destruct (acc_round s w early wake offers ch l d Ha) as (s1 & more & n & -> & ch1 & l1 & d1 & H1).
    destruct (IH _ _ _ _ _ H1) as (s' & rs & ch' & l' & d' & E & Hof & Ha').
    exists s', (arrivals w 0 n ++ rs), ch', l', d'. split_and!; [done|by constructor|by rewrite app_assoc].
  - destruct (IH (close_mark s) offers ch l d) as (s' & rs & ch' & l' & d' & E & Hof & Ha').
    { destruct Ha. by split. }
    exists s', rs, ch', l', d'. split_and!; [done|by constructor|done].
Qed.

End Accounting.

Section Theorems.
Context {R : Type} `{Repository R}.

(** C14: No metrics record is lost silently.  Whatever producers record and the
    writer does, in whatever interleaving and with whatever driver, every step
    returns, and the books balance: each record offered so far is written, was
    in a batch the driver refused twice, was counted as dropped, is pending or
    is queued; the driver was handed, in order of arrival and with at most one
    retry per batch, a subsequence of what was offered; the row counter counts
    the rows written and the failure counter the batches given up. *)
Theorem metrics_accounting cfg (r0 : R) s0 steps :
  Open cfg (mkAudited r0 []) = inl s0 -> mcEnabled cfg = true ->
  exists s offers ch queued d,
    m_run s0 steps = Some s /\ offered steps offers /\
    history (auLog (stRepo s)) ch /\ queue_rep (stQueue s) queued /\
    (chunk_records ch ++ stPending s ++ queued) `sublist_of` offers /\
    len offers = d + len (rows_of true ch) + len (rows_of false ch) + len (stPending s) + len queued /\
    ctDropped (stCounters s) = i64 d /\ 0 <= d /\
    ctRowsWritten (stCounters s) = i64 (len (rows_of true ch)) /\
    ctWriteFailures (stCounters s) = i64 (failed_batches ch).
Proof.
  intros Ho He. destruct (acc_run (stCfg s0) (fun _ => True) ltac:(done) ltac:(done) steps s0 _ _ _ _
    (acc_open (stCfg s0) (fun _ => True) cfg r0 s0 Ho He eq_refl I)) as
    (s & rs & ch & l & d & Hr & Hof & [_ _ ? _ ? _ ? Hc ? ? ? ?]).
  exists s, rs, ch, l, d. cbn [app] in *. rewrite rows_split in Hc. split_and!; try done. lia.
Qed.

(** A flush terminates and leaves nothing behind.  From any state the store
    can reach, with a queue of at most 10000 slots, a flush returns, whatever
    the driver answers, when its context expires and however many records keep
    arriving; afterwards nothing is pending, what is queued arrived during the
    flush, and every other record is written, counted as dropped or in a batch
    counted as failed. *)
Theorem flush_terminates cfg (r0 : R) s0 steps s w :
  Open cfg (mkAudited r0 []) = inl s0 -> mcEnabled cfg = true ->
  mcQueueCapacity (stCfg s0) <= maxDrainPerBatch -> m_run s0 steps = Some s ->
  exists s' failure n offers ch queued d,
    drain s w true = Some (s', failure) /\ stPending s' = [] /\
    queue_rep (stQueue s') queued /\ queued `sublist_of` arrivals w 0 n /\
    offered steps offers /\ history (auLog (stRepo s')) ch /\
    len (offers ++ arrivals w 0 n) = d + len (rows_of true ch) + len (rows_of false ch) + len queued /\
    ctDropped (stCounters s') = i64 d /\ ctWriteFailures (stCounters s') = i64 (failed_batches ch).
Proof.
  intros Ho He Hcap Hrun. pose proof (acc_open (stCfg s0) (fun _ => True) cfg r0 s0 Ho He eq_refl I) as H0'.
  destruct (acc_run (stCfg s0) (fun _ => True) ltac:(done) ltac:(done) steps s0 _ _ _ _ H0') as (s1 & rs & ch & l & d & Hr & Hof & Ha).
  rewrite Hrun in Hr. injection Hr as <-. destruct (acc_drain (stCfg s0) (fun _ => True) ltac:(done) s w true _ _ _ _ Ha) as
    (s' & f & n & E & Hp & ch' & l' & d' & Ha' & Hlate).
  exists s', f, n, rs, ch', l', d'.
  rewrite (proj2 (ac_cfg _ _ _ _ _ _ _ Ha)) in Hlate. specialize (Hlate eq_refl Hcap). destruct Ha' as [_ _ ? _ ? _ ? Hc ? ? ? ?].
  cbn [app] in *. rewrite rows_split, Hp in Hc. split_and!; try done. unfold len in *. simpl in Hc. lia.
Qed.
End Theorems.

(** ** A concrete driver

    It counts its calls and refuses the calls 0, 1, 3, 4, 6, 7, ...: every first
    batch is lost, every second one needs its retry. *)

Record Flaky := mkFlaky { fkCalls : Z }.
#[local] Instance flaky : Repository Flaky := {
  WriteBatch d _ := (mkFlaky (fkCalls d + 1), if fkCalls d `mod` 3 =? 2 then None else Some DriverFailed);
  PruneForStore := None; ProvideOptions o := o }.

Definition demo_metrics : MetricsConfig :=
  mkMetricsConfig true DriverMemory [] 2 0 0 false 0 0 0 0 0.
Definition demo_event (n : Z) : RecordCall :=
  RecordProtocolEvent (mkProtocolRow (unixNanos n) "sess_1" "MALFORMED_FRAME" "" 1).
Definition quiet : Surroundings := mkSurroundings (fun _ => []) (fun _ => false) (unixNanos 0) 3.
Lemma arrivals_quiet k n : arrivals quiet k n = [].
Proof. unfold arrivals. revert k. induction n as [|n IH]; intros k; [done|]. cbn. apply IH. Qed.
(** When nothing arrives during a round, the steps say what was offered. *)
Definition quiet_step (st : MStep) : bool := match st with MRound _ _ _ => false | _ => true end.
Definition step_record (st : MStep) : option record :=
  match st with MRecord call now => Some (record_of call now) | _ => None end.
Lemma offered_quiet steps offers :
  Forall (fun st => quiet_step st = true \/ exists early wake, st = MRound quiet early wake) steps ->
  offered steps offers -> offers = omap step_record steps.
Proof.
  intros HF Ho. induction Ho as [|call now steps rs _ IH|w early wake n steps rs _ IH|steps rs _ IH]; [done|..];
    apply Forall_cons in HF as [Hst HF]; specialize (IH HF); [by rewrite IH| |done].
  destruct Hst as [[=]|(? & ? & [= -> _ _])]. by rewrite arrivals_quiet.
Qed.

Definition demo_steps : list MStep :=
  [MRecord (demo_event 1) (unixNanos 1); MRecord (demo_event 2) (unixNanos 2);
   MRecord (demo_event 3) (unixNanos 3); MRound quiet false WakeTimer;
   MRecord (demo_event 4) (unixNanos 4); MRound quiet false WakeTimer].

Lemma metrics_accounting_witness :
  exists s0, Open demo_metrics (mkAudited (mkFlaky 0) []) = inl s0 /\
  exists s offers, m_run s0 demo_steps = Some s /\ offered demo_steps offers /\
    ctDropped (stCounters s) = 1 /\ ctWriteFailures (stCounters s) = 1.
Proof.
  eexists. split; [reflexivity|].
  destruct (metrics_accounting demo_metrics (mkFlaky 0) _ demo_steps eq_refl eq_refl)
    as (s & offers & _ & _ & _ & E & Ho & _).
  exists s, offers. split; [exact E|]. split; [exact Ho|].
  vm_compute in E. injection E as <-. split; reflexivity.
Defined.

Lemma flush_terminates_witness :
  exists s0, Open demo_metrics (mkAudited (mkFlaky 0) []) = inl s0 /\
  exists s, m_run s0 [MRecord (demo_event 1) (unixNanos 1)] = Some s /\
  exists s' failure, drain s quiet true = Some (s', failure) /\ stPending s' = [].
Proof.
  eexists. split; [reflexivity|]. eexists. split; [reflexivity|].
  destruct (flush_terminates demo_metrics (mkFlaky 0) _ [MRecord (demo_event 1) (unixNanos 1)] _ quiet
    eq_refl eq_refl ltac:(vm_compute; discriminate) eq_refl) as (s' & f & _ & _ & _ & _ & _ & E & Hp & _).
  exists s', f. split; [exact E|exact Hp].
Defined.
