(* ===== verification/StableSort.v ===== *)
(** * Stable sorting by a strict order: [sort.SliceStable], [sort.Float64s]

    Insertion after the elements that are not greater.  [Order] is what the
    callers promise about the comparison: it is asymmetric and its complement
    is transitive (a strict weak order). *)

From S2P Require Import Prelude.

Section Sort.
Context {A : Type} (less : A -> A -> bool).

Fixpoint insert_after (x : A) (l : list A) : list A :=
  match l with
  | [] => [x]
  | y :: l => if less x y then x :: y :: l else y :: insert_after x l
  end.
Definition stable_sort (l : list A) : list A := fold_left (fun acc x => insert_after x acc) l [].

Definition not_after (x y : A) : Prop := less y x = false.

Lemma insert_after_perm x l : insert_after x l ≡ₚ x :: l.
Proof.
  induction l as [|y l IH]; cbn [insert_after]; [done|]. destruct (less x y); [done|].
  rewrite IH. constructor.
Qed.

Lemma stable_sort_perm l : stable_sort l ≡ₚ l.
Proof.
  unfold stable_sort. enough (forall acc, fold_left (fun acc x => insert_after x acc) l acc ≡ₚ acc ++ l) as ->
    by done.
  induction l as [|x l IH]; intros acc; cbn [fold_left]; [by rewrite app_nil_r|].
  rewrite IH, insert_after_perm. by rewrite <- Permutation_middle.
Qed.

Lemma length_stable_sort l : length (stable_sort l) = length l.
Proof. apply Permutation_length, stable_sort_perm. Qed.
End Sort.

(** A strict weak order. *)
Class Order {A} (less : A -> A -> bool) : Prop := {
  order_asym : forall x y, less x y = true -> less y x = false;
  order_trans : forall x y z, less y x = false -> less z y = false -> less z x = false }.

(** Comparison through a key. *)
Lemma order_key {A} (key : A -> Z) : Order (fun x y => key x <? key y).
Proof. split; intros; rewrite ?Z.ltb_lt, ?Z.ltb_ge in *; lia. Qed.
Lemma order_key_desc {A} (key : A -> Z) : Order (fun x y => key y <? key x).
Proof. split; intros; rewrite ?Z.ltb_lt, ?Z.ltb_ge in *; lia. Qed.

Section Sorted.
Context {A : Type} (less : A -> A -> bool) `{Order A less}.

#[local] Instance not_after_trans : Transitive (not_after less).
Proof. intros x y z. unfold not_after. apply order_trans. Qed.

Lemma insert_after_sorted x l :
  StronglySorted (not_after less) l -> StronglySorted (not_after less) (insert_after less x l).
Proof.
  induction l as [|y l IH]; intros Hl; cbn [insert_after]; [repeat constructor|].
  apply StronglySorted_inv in Hl as [Hl Hy]. destruct (less x y) eqn:E.
  - constructor; [by constructor|]. assert (Hxy : not_after less x y) by by apply order_asym.
    constructor; [done|]. eapply Forall_impl; [exact Hy|]. intros z Hz. by transitivity y.
  - constructor; [by apply IH|]. rewrite (insert_after_perm less x l). by constructor.
Qed.

Lemma stable_sort_sorted l : StronglySorted (not_after less) (stable_sort less l).
Proof.
  unfold stable_sort. enough (forall acc, StronglySorted (not_after less) acc ->
    StronglySorted (not_after less) (fold_left (fun acc x => insert_after less x acc) l acc)) as Hs
    by (apply Hs; constructor).
  induction l as [|x l IH]; intros acc Hacc; [done|]. by apply IH, insert_after_sorted.
Qed.

(** Elements that the order does not separate keep their order: a property of
    which no two elements are ordered selects the same sublist. *)
Lemma insert_after_filter (p : A -> bool) x l :
  StronglySorted (not_after less) l ->
  (forall y, p y = true -> p x = true -> less x y = false) ->
  List.filter p (insert_after less x l) = List.filter p l ++ (if p x then [x] else []).
Proof.
  intros Hl Hp. induction l as [|y l IH]; cbn [insert_after List.filter]; [done|].
  apply StronglySorted_inv in Hl as [Hl Hy]. destruct (less x y) eqn:E; cbn [List.filter].
  - destruct (p x) eqn:Ex; [|by rewrite app_nil_r]. destruct (p y) eqn:Ey; [by rewrite Hp in E|].
    assert (Hnone : List.filter p l = []).
    { destruct (List.filter p l) as [|z k] eqn:Ef; [done|].
      assert (Hz : In z l /\ p z = true) by (apply filter_In; rewrite Ef; by left). destruct Hz as [Hin Hpz].
      rewrite Forall_forall in Hy. specialize (Hy z (proj2 (list_elem_of_In _ _) Hin)).
      assert (less x y = false) as E' by (apply (order_trans y z x); [exact Hy|by apply Hp]). congruence. }
    by rewrite Hnone.
  - rewrite IH by done. by destruct (p y).
Qed.

Lemma stable_sort_filter (p : A -> bool) l :
  (forall x y, p x = true -> p y = true -> less x y = false) ->
  List.filter p (stable_sort less l) = List.filter p l.
Proof.
  intros Hp. unfold stable_sort.
  enough (forall acc, StronglySorted (not_after less) acc ->
    List.filter p (fold_left (fun acc x => insert_after less x acc) l acc)
    = List.filter p acc ++ List.filter p l) as Hs by (apply Hs; constructor).
  induction l as [|x l IH]; intros acc Hacc; cbn [fold_left List.filter]; [by rewrite app_nil_r|].
  rewrite IH by by apply insert_after_sorted. rewrite insert_after_filter; [|done|eauto].
  rewrite <- app_assoc. by destruct (p x).
Qed.
End Sorted.
