(* ===== verification/MetricsQuery.v ===== *)
(** * Reading the metrics back: [query.go] and the aggregates of [repository.go]

    Percentiles and buckets of latency samples, the bounds on what a query may
    ask for, and the five reads of [Querier] over the interface of a driver. *)

From Stdlib Require Import SpecFloat.
From S2P Require Import Prelude Money GoTime Decimal Domain Float64 Metrics MetricsStore StableSort.

(** ** Aggregates *)

(** [sort.Float64s]: NaN first. *)
Definition is_nan (x : float64) : bool := match x with S754_nan => true | _ => false end.
Definition float_less (x y : float64) : bool := f64_ltb x y || (is_nan x && negb (is_nan y)).
Definition Float64s (l : list float64) : list float64 := stable_sort float_less l.

Record latencyAggregate := mkAggregate {
  laValues : list float64; laJitter : list float64; laSum : float64; laJitSum : float64;
  laMin : float64; laMax : float64 }.
Definition noSamples : latencyAggregate :=
  mkAggregate [] [] (f64_of_Z 0) (f64_of_Z 0) (f64_of_Z 0) (f64_of_Z 0).

Definition la_add (a : latencyAggregate) (rtt jitterMs : float64) : latencyAggregate :=
  let '(mn, mx) :=
    match laValues a with
    | [] => (rtt, rtt)
    | _ => (if f64_ltb rtt (laMin a) then rtt else laMin a, if f64_ltb (laMax a) rtt then rtt else laMax a)
    end in
  mkAggregate (laValues a ++ [rtt]) (laJitter a ++ [jitterMs]) (f64_add (laSum a) rtt)
    (f64_add (laJitSum a) jitterMs) mn mx.
Definition la_count (a : latencyAggregate) : Z := len (laValues a).
Definition la_avg (a : latencyAggregate) : float64 :=
  match laValues a with [] => f64_of_Z 0 | l => f64_div (laSum a) (f64_of_Z (len l)) end.
Definition la_avgJitter (a : latencyAggregate) : float64 :=
  match laJitter a with [] => f64_of_Z 0 | l => f64_div (laJitSum a) (f64_of_Z (len l)) end.

(** Nearest rank; the index is in range. *)
Definition la_p95 (a : latencyAggregate) : float64 :=
  match laValues a with
  | [] => f64_of_Z 0
  | l =>
      let sorted := Float64s l in
      let rank := Z.quot (95 * len sorted + 99) 100 in
      let rank := if rank <? 1 then 1 else rank in
      default (f64_of_Z 0) (sorted !! Z.to_nat (rank - 1))
  end.

Definition aggregate (samples : list LatencySample) : latencyAggregate :=
  fold_left (fun a s => la_add a (lsRTTMs s) (lsJitterMs s)) samples noSamples.

Record RTTStats := mkRTTStats {
  rsSamples : Z; rsMinMs : float64; rsAvgMs : float64; rsP95Ms : float64; rsMaxMs : float64 }.
Definition rttStats (samples : list LatencySample) : RTTStats :=
  match samples with
  | [] => mkRTTStats 0 (f64_of_Z 0) (f64_of_Z 0) (f64_of_Z 0) (f64_of_Z 0)
  | _ => let a := aggregate samples in mkRTTStats (la_count a) (laMin a) (la_avg a) (la_p95 a) (laMax a)
  end.

Definition meanJitter (samples : list LatencySample) : float64 :=
  match samples with
  | [] => f64_of_Z 0
  | _ => f64_div (fold_left (fun sum s => f64_add sum (lsJitterMs s)) samples (f64_of_Z 0))
           (f64_of_Z (len samples))
  end.

(** ** Buckets *)

Record LatencyBucket := mkLatencyBucket {
  lbStart : Time; lbEnd : Time; lbCount : Z; lbMinMs : float64; lbAvgMs : float64; lbP95Ms : float64;
  lbMaxMs : float64; lbAvgJitterMs : float64 }.

(** The key of a sample: the instant its bucket starts (all keys are UTC). *)
Definition bucket_key (start : Time) (bucket : Z) (s : LatencySample) : Z :=
  let offset := tSub (tUTC (lsServerTime s)) start in
  let offset := if offset <? 0 then 0 else offset in
  ns (tAdd start (i64 (Z.quot offset bucket * bucket))).

Definition add_sample (start : Time) (bucket : Z) (m : gmap Z latencyAggregate) (s : LatencySample)
    : gmap Z latencyAggregate :=
  let k := bucket_key start bucket s in
  <[k := la_add (default noSamples (m !! k)) (lsRTTMs s) (lsJitterMs s)]> m.

Definition bucket_of (bucket : Z) (k : Z) (a : latencyAggregate) : LatencyBucket :=
  mkLatencyBucket (mkTime k UTC) (tAdd (mkTime k UTC) bucket) (la_count a) (laMin a) (la_avg a) (la_p95 a)
    (laMax a) (la_avgJitter a).

Definition bucketLatency (samples : list LatencySample) (from : Time) (bucket : Z) : list LatencyBucket :=
  if (bucket <=? 0) || (len samples =? 0) then []
  else
    let start := tTruncate (tUTC from) bucket in
    let byStart := fold_left (add_sample start bucket) samples ∅ in
    let starts := stable_sort Z.ltb (map fst (map_to_list byStart)) in
    omap (fun k => bucket_of bucket k <$> byStart !! k) starts.

(** ** Bounds *)

Definition maxQueryRows : Z := 1000.
Definition maxQueryRange : Z := 24 * Hour.
Definition defaultBucketSize : Z := 5 * Second.
Definition maxLatencySamples : Z := 200000.
Definition defaultQueryWindow : Z := 15 * Minute.

Definition limitOr (limit def max : Z) : Z :=
  if limit <=? 0 then def else if max <? limit then max else limit.

Definition clampRange (from to now : Time) : Time * Time :=
  let to := if tIsZero to then tUTC now else to in
  let from := if tIsZero from then tAdd to (- maxQueryRange) else from in
  let from := if maxQueryRange <? tSub to from then tAdd to (- maxQueryRange) else from in
  (tUTC from, tUTC to).

(** ** The driver's reads *)

Record SummaryStats := mkSummaryStats {
  ssTotalSessions : Z; ssActiveSessions : Z; ssTierDistribution : gmap string Z; ssLatencySamples : Z;
  ssDeliveryWindows : Z; ssCandleCloses : Z; ssTierTransitions : Z; ssEngineEvents : Z; ssReconnects : Z;
  ssMalformedMessages : Z; ssDuplicateDeltas : Z; ssStaleDeltas : Z; ssOutOfOrderTrades : Z;
  ssBookRecoveries : Z; ssBookGapsDetected : Z }.
Record EngineEventCounters := mkEngineCounters { ecTotal : Z; ecInvariantViolations : Z }.
Record LatencyQuery := mkLatencyQuery { lqSessionID : string; lqFrom : Time; lqTo : Time; lqLimit : Z }.

Class QueryRepository (R : Type) := {
  rpSummaryStats : R -> Time -> Time -> SummaryStats + DriverError;
  rpLatencySamples : R -> LatencyQuery -> list LatencySample + DriverError;
  rpEngineEventCounters : R -> Time -> Time -> EngineEventCounters + DriverError;
  rpTierTransitions : R -> Time -> Time -> Z -> list TierTransitionRow + DriverError;
  rpSessions : R -> Z -> list SessionRow + DriverError;
  rpDeliveryWindows : R -> string -> Time -> Time -> Z -> list DeliveryWindowRow + DriverError }.
#[export] Hint Mode QueryRepository ! : typeclass_instances.

(** ** The summary *)

Record MetricsSummary := mkMetricsSummary {
  msGeneratedAt : Time; msUptimeMs : Z; msActiveSessions : Z; msTotalSessions : Z;
  msTierDistribution : gmap string Z; msRTT : RTTStats; msJitterMs : float64; msReconnects : Z;
  msBookRecoveries : Z; msBookGapsDetected : Z; msMalformedMessages : Z; msDuplicateDeltas : Z;
  msStaleDeltas : Z; msOutOfOrderTrades : Z; msTierTransitions : Z; msCandlesClosed : Z;
  msCandleInvariantViolations : Z; msLatencySamples : Z; msDeliveryWindows : Z;
  msCounters : gmap string Z }.

Definition emptyRTT : RTTStats := mkRTTStats 0 (f64_of_Z 0) (f64_of_Z 0) (f64_of_Z 0) (f64_of_Z 0).
Definition emptySummary (now : Time) : MetricsSummary :=
  mkMetricsSummary (tUTC now) 0 0 0 ∅ emptyRTT (f64_of_Z 0) 0 0 0 0 0 0 0 0 0 0 0 0 ∅.

Section Querier.
Context {R : Type} `{QueryRepository R}.
Implicit Types s : Store R.

Definition summary_counters (c : Counters) (st : SummaryStats) (ec : EngineEventCounters) : gmap string Z :=
  <["metrics_dropped_total" := ctDropped c]> (<["metrics_write_failures_total" := ctWriteFailures c]>
  (<["metrics_rows_written_total" := ctRowsWritten c]> (<["metrics_pruned_rows_total" := ctPruned c]>
  (<["engine_events_total" := ecTotal ec]> (<["tier_transitions_total" := ssTierTransitions st]>
  (<["malformed_messages_total" := ssMalformedMessages st]> (<["candles_closed_total" := ssCandleCloses st]>
  (<["orderbook_recoveries_total" := ssBookRecoveries st]> (<["orderbook_gaps_total" := ssBookGapsDetected st]> ∅))))))))).

(** [now] is read once here; [opened] is when the store was opened. *)
Definition Summary s (window : Z) (now opened : Time) : MetricsSummary * option DriverError :=
  let out := emptySummary now in
  if negb (mcEnabled (stCfg s)) then (out, None)
  else
    let window := if window <=? 0 then defaultQueryWindow else window in
    let now := tUTC now in
    let from := tAdd now (- window) in
    match rpSummaryStats (stRepo s) from now with
    | inr e => (out, Some e)
    | inl st =>
        match rpEngineEventCounters (stRepo s) from now with
        | inr e => (out, Some e)
        | inl ec =>
            match rpLatencySamples (stRepo s) (mkLatencyQuery "" from now maxLatencySamples) with
            | inr e => (out, Some e)
            | inl samples =>
                (mkMetricsSummary now (dMilliseconds (tSub now opened)) (ssActiveSessions st)
                   (ssTotalSessions st) (ssTierDistribution st) (rttStats samples) (meanJitter samples)
                   (ssReconnects st) (ssBookRecoveries st) (ssBookGapsDetected st) (ssMalformedMessages st)
                   (ssDuplicateDeltas st) (ssStaleDeltas st) (ssOutOfOrderTrades st) (ssTierTransitions st)
                   (ssCandleCloses st) (ecInvariantViolations ec) (ssLatencySamples st)
                   (ssDeliveryWindows st) (summary_counters (stCounters s) st ec), None)
            end
        end
    end.

Definition LatencyBuckets s (sessionID : string) (from to : Time) (bucket : Z) (now : Time)
    : list LatencyBucket + DriverError :=
  if negb (mcEnabled (stCfg s)) then inl []
  else
    let bucket := if bucket <=? 0 then defaultBucketSize else bucket in
    let '(from, to) := clampRange from to now in
    if negb (tAfter to from) then inl []
    else
      match rpLatencySamples (stRepo s) (mkLatencyQuery sessionID from to maxLatencySamples) with
      | inr e => inr e
      | inl samples => inl (bucketLatency samples from bucket)
      end.

(** The range of the list queries. *)
Definition list_range (from to now : Time) : Time * Time :=
  if tIsZero from && tIsZero to then (tAdd (tUTC now) (- maxQueryRange), tUTC now)
  else clampRange from to now.

Definition Q_TierTransitions s (from to : Time) (limit : Z) (now : Time)
    : list TierTransitionRow + DriverError :=
  if negb (mcEnabled (stCfg s)) then inl []
  else let '(from, to) := list_range from to now in
       rpTierTransitions (stRepo s) from to (limitOr limit 100 maxQueryRows).

Definition Q_Sessions s (limit : Z) : list SessionRow + DriverError :=
  if negb (mcEnabled (stCfg s)) then inl []
  else rpSessions (stRepo s) (limitOr limit 100 maxQueryRows).

Definition Q_DeliveryWindows s (sessionID : string) (from to : Time) (limit : Z) (now : Time)
    : list DeliveryWindowRow + DriverError :=
  if negb (mcEnabled (stCfg s)) then inl []
  else let '(from, to) := list_range from to now in
       rpDeliveryWindows (stRepo s) sessionID from to (limitOr limit 100 maxQueryRows).
End Querier.
