(* ===== verification/MemoryRepo.v ===== *)
(** * The in-memory metrics driver: [internal/metrics/memory]

    Rows in insertion order, sessions by id with the order of their first
    appearance.  It never fails, and discharges both driver interfaces. *)

From S2P Require Import Prelude Money GoTime Decimal Domain Float64 Metrics MetricsStore StableSort MetricsQuery.

Record MemRepo := mkMemRepo {
  mrLatency : list LatencySample; mrHealth : list HealthReportRow; mrTiers : list TierTransitionRow;
  mrDelivery : list DeliveryWindowRow; mrBookEvents : list BookSyncEvent;
  mrProtocol : list ProtocolEventRow; mrEngineEvts : list EngineEventRow;
  mrCandleClose : list CandleCloseRow; mrFaults : list FaultInjectionRow;
  mrSessions : gmap string SessionRow; mrSessionAt : list string }.

Definition NewRepository : MemRepo := mkMemRepo [] [] [] [] [] [] [] [] [] ∅ [].
Definition Mem_Close (r : MemRepo) : MemRepo := NewRepository.

Definition with_sessions (r : MemRepo) (m : gmap string SessionRow) (at_ : list string) : MemRepo :=
  mkMemRepo (mrLatency r) (mrHealth r) (mrTiers r) (mrDelivery r) (mrBookEvents r) (mrProtocol r)
    (mrEngineEvts r) (mrCandleClose r) (mrFaults r) m at_.

Definition putSession (r : MemRepo) (row : SessionRow) : MemRepo :=
  let at_ := match mrSessions r !! srSessionID row with
             | Some _ => mrSessionAt r
             | None => mrSessionAt r ++ [srSessionID row] end in
  with_sessions r (<[srSessionID row := row]> (mrSessions r)) at_.

(** The closing half of a row: identity columns stay. *)
Definition nonempty_or (v old : string) : string := if bool_decide (v = "") then old else v.
Definition close_row (old row : SessionRow) : SessionRow :=
  mkSessionRow (srSessionID old) (srDeviceID old) (srClientVersion old) (srPlatform old) (srRemoteAddr old)
    (srSymbol old) (srInterval old) (srConnectedAt old)
    (match srDisconnectedAt row with Some t => Some t | None => srDisconnectedAt old end)
    (nonempty_or (srDisconnectReason row) (srDisconnectReason old)) (srInitialTier old)
    (nonempty_or (srFinalTier row) (srFinalTier old)) (nonempty_or (srOverrideTier row) (srOverrideTier old))
    (srUptimeMs row) (srMessagesSent row) (srMessagesReceived row) (srBytesSent row) (srProtocolErrors row).

Definition endSession (r : MemRepo) (row : SessionRow) : MemRepo :=
  match mrSessions r !! srSessionID row with
  | None => r
  | Some old => with_sessions r (<[srSessionID row := close_row old row]> (mrSessions r)) (mrSessionAt r)
  end.

Definition write_session (r : MemRepo) (w : SessionWrite) : MemRepo :=
  if swEnd w then endSession r (swRow w) else putSession r (swRow w).

Definition Mem_WriteBatch (r : MemRepo) (b : Batch) : MemRepo :=
  let r := mkMemRepo (mrLatency r ++ btLatency b) (mrHealth r ++ btHealth b) (mrTiers r ++ btTiers b)
    (mrDelivery r ++ btDelivery b) (mrBookEvents r ++ btBookEvents b) (mrProtocol r ++ btProtocol b)
    (mrEngineEvts r ++ btEngineEvts b) (mrCandleClose r ++ btCandleClose b) (mrFaults r ++ btFaults b)
    (mrSessions r) (mrSessionAt r) in
  fold_left write_session (btSessions b) r.

(** [WriterOptions] turns retention off. *)
Definition Mem_WriterOptions (opts : WriterOptions) : WriterOptions :=
  mkWriterOptions (woBatchSize opts) (woFlushInterval opts) (woRetryBackoff opts) (mkRetention false 0 0 0)
    (woPruneInterval opts) (woPruneBatch opts) (woCheckpointInterval opts).

(** Never fails; no pruning. *)
#[global] Instance mem_repository : Repository MemRepo := {
  WriteBatch r b := (Mem_WriteBatch r b, None); PruneForStore := None;
  ProvideOptions := Mem_WriterOptions }.

(** ** Reads *)

Definition inWindow (at_ from to : Time) : bool :=
  if tIsZero at_ then false
  else if negb (tIsZero from) && tBefore at_ from then false
  else if negb (tIsZero to) && tAfter at_ to then false
  else true.

Definition countOrOne (v : Z) : Z := if v <=? 0 then 1 else v.

Definition cap {A} (limit : Z) (l : list A) : list A :=
  if (0 <? limit) && (limit <? len l) then take (Z.to_nat limit) l else l.

(** Ascending and descending order of a timestamp. *)
Definition by_time {A} (at_ : A -> Time) (x y : A) : bool := tBefore (at_ x) (at_ y).
Definition by_time_desc {A} (at_ : A -> Time) (x y : A) : bool := tAfter (at_ x) (at_ y).

Definition Mem_LatencySamples (r : MemRepo) (q : LatencyQuery) : list LatencySample :=
  let out := List.filter (fun s =>
    (bool_decide (lqSessionID q = "") || bool_decide (lsSessionID s = lqSessionID q)) &&
    inWindow (lsServerTime s) (lqFrom q) (lqTo q)) (mrLatency r) in
  cap (lqLimit q) (stable_sort (by_time lsServerTime) out).

Definition Mem_TierTransitions (r : MemRepo) (from to : Time) (limit : Z) : list TierTransitionRow :=
  cap limit (stable_sort (by_time_desc twAt) (List.filter (fun t => inWindow (twAt t) from to) (mrTiers r))).

(** [sessionAt] lists ids of the map. *)
Definition session_rows (r : MemRepo) : list SessionRow := omap (fun id => mrSessions r !! id) (mrSessionAt r).
Definition Mem_Sessions (r : MemRepo) (limit : Z) : list SessionRow :=
  cap limit (stable_sort (by_time_desc srConnectedAt) (session_rows r)).

Definition Mem_DeliveryWindows (r : MemRepo) (sessionID : string) (from to : Time) (limit : Z)
    : list DeliveryWindowRow :=
  cap limit (stable_sort (by_time_desc wwWindowStart) (List.filter (fun w =>
    (bool_decide (sessionID = "") || bool_decide (wwSessionID w = sessionID)) &&
    inWindow (wwWindowStart w) from to) (mrDelivery r))).

Definition Mem_EngineEventCounters (r : MemRepo) (from to : Time) : EngineEventCounters :=
  let l := List.filter (fun e => inWindow (eeAt e) from to) (mrEngineEvts r) in
  mkEngineCounters (len l)
    (len (List.filter (fun e => bool_decide (eeEvent e = "INVARIANT_VIOLATION")) l)).

Definition count_kind (kind : string) (l : list ProtocolEventRow) : Z :=
  fold_left (fun n p => if bool_decide (pwKind p = kind) then i64 (n + countOrOne (pwCount p)) else n) l 0.
Definition count_book (event : string) (l : list BookSyncEvent) : Z :=
  len (List.filter (fun b => bool_decide (bwEvent b = event)) l).

Definition tally (m : gmap string Z) (row : SessionRow) : gmap string Z :=
  let bump tier := <[tier := i64 (default 0 (m !! tier) + 1)]> m in
  if negb (bool_decide (srFinalTier row = "")) then bump (srFinalTier row)
  else if negb (bool_decide (srInitialTier row = "")) then bump (srInitialTier row)
  else m.

Definition Mem_SummaryStats (r : MemRepo) (from to : Time) : SummaryStats :=
  let within {A} (at_ : A -> Time) (l : list A) := List.filter (fun x => inWindow (at_ x) from to) l in
  let rows := session_rows r in
  let protocol := within pwAt (mrProtocol r) in
  let books := within bwAt (mrBookEvents r) in
  mkSummaryStats (len (mrSessionAt r))
    (len (List.filter (fun s => match srDisconnectedAt s with None => true | Some _ => false end) rows))
    (fold_left tally rows ∅) (len (mrLatency r)) (len (mrDelivery r))
    (len (within ccClosedAt (mrCandleClose r))) (len (within twAt (mrTiers r)))
    (len (within eeAt (mrEngineEvts r)))
    (len (List.filter (fun s => bool_decide (srDisconnectReason s = "client_reconnect")
                                || bool_decide (srDisconnectReason s = "reconnect")) rows))
    (count_kind "MALFORMED_FRAME" protocol) (count_kind "DUPLICATE_DELTA" protocol)
    (count_kind "STALE_DELTA" protocol) (count_kind "OUT_OF_ORDER_TRADE" protocol)
    (count_book "RECOVERY_STARTED" books) (count_book "GAP_DETECTED" books).

#[global] Instance mem_queries : QueryRepository MemRepo := {
  rpSummaryStats r from to := inl (Mem_SummaryStats r from to);
  rpLatencySamples r q := inl (Mem_LatencySamples r q);
  rpEngineEventCounters r from to := inl (Mem_EngineEventCounters r from to);
  rpTierTransitions r from to limit := inl (Mem_TierTransitions r from to limit);
  rpSessions r limit := inl (Mem_Sessions r limit);
  rpDeliveryWindows r id from to limit := inl (Mem_DeliveryWindows r id from to limit) }.
