(* ===== verification/MetricsQuerySpec.v ===== *)
(** * What the metrics queries return

    The percentile is the nearest rank; the buckets partition the samples of the
    window, each with the statistics of its own samples; the bounds on a query
    hold whatever the caller asked for. *)

From Stdlib Require Import SpecFloat.
From S2P Require Import Prelude Money GoTime Decimal Domain Float64 Metrics MetricsStore StableSort MetricsQuery.

(** ** The order of [float64] values *)

(** NaN, negative infinity, negative, zero, positive, infinity; then exponent
    and mantissa. *)
Definition f64_key (x : float64) : Z * Z * Z :=
  match x with
  | S754_nan => (0, 0, 0)
  | S754_infinity true => (1, 0, 0)
  | S754_finite true m e => (2, - e, - Zpos m)
  | S754_zero _ => (3, 0, 0)
  | S754_finite false m e => (4, e, Zpos m)
  | S754_infinity false => (5, 0, 0)
  end.
Definition lex_less (a b : Z * Z * Z) : bool :=
  let '(a1, a2, a3) := a in
  let '(b1, b2, b3) := b in
  (a1 <? b1) || ((a1 =? b1) && ((a2 <? b2) || ((a2 =? b2) && (a3 <? b3)))).

Lemma float_less_key x y : float_less x y = lex_less (f64_key x) (f64_key y).
Proof.
  unfold float_less, f64_ltb, SFltb.
  destruct x as [[]|[]| |[] m e], y as [[]|[]| |[] m' e']; try reflexivity;
    cbn [SFcompare is_nan f64_key lex_less negb andb orb]; rewrite ?orb_false_r; cbn [Z.ltb Z.eqb orb andb Z.compare].
  - change (Pos.compare_cont Eq m m') with (Pos.compare m m').
    destruct (Z.compare_spec e e'), (Pos.compare_spec m m'); cbn [CompOpp]; symmetry;
      repeat match goal with |- context [?a <? ?b] => destruct (Z.ltb_spec a b) end;
      repeat match goal with |- context [?a =? ?b] => destruct (Z.eqb_spec a b) end; cbn [andb orb]; try done; try lia.
  - change (Pos.compare_cont Eq m m') with (Pos.compare m m').
    destruct (Z.compare_spec e e'), (Pos.compare_spec m m'); symmetry;
      repeat match goal with |- context [?a <? ?b] => destruct (Z.ltb_spec a b) end;
      repeat match goal with |- context [?a =? ?b] => destruct (Z.eqb_spec a b) end; cbn [andb orb]; try done; try lia.
Qed.

#[global] Instance float_less_order : Order float_less.
Proof.
  split.
  - intros x y. rewrite !float_less_key. destruct (f64_key x) as [[a1 a2] a3], (f64_key y) as [[b1 b2] b3].
    cbn. lia.
  - intros x y z. rewrite !float_less_key.
    destruct (f64_key x) as [[a1 a2] a3], (f64_key y) as [[b1 b2] b3], (f64_key z) as [[c1 c2] c3]. cbn. lia.
Qed.

(** Without NaN the order is the comparison of Go. *)
Lemma float_less_ltb x y : is_nan x = false -> float_less x y = f64_ltb x y.
Proof. intros Hx. unfold float_less. by rewrite Hx, orb_false_r. Qed.

Lemma f64_ltb_nan_l x y : is_nan x = true -> f64_ltb x y = false.
Proof. by destruct x. Qed.

(** ** Ranks in a sorted list *)

Section Rank.
Context {A : Type} (less : A -> A -> bool) `{Order A less}.

Lemma order_irrefl x : less x x = false.
Proof. destruct (less x x) eqn:E; [|done]. by pose proof (order_asym _ _ E) as <-. Qed.

(** In a sorted list the element at [i] has at most [i] smaller ones, and more
    than [i] that are not greater. *)
Lemma sorted_rank l i x :
  StronglySorted (not_after less) l -> l !! i = Some x ->
  (length (List.filter (fun y => less y x) l) <= i)%nat /\
  (i < length (List.filter (fun y => negb (less x y)) l))%nat.
Proof.
  revert i. induction l as [|y l IH]; intros i Hl Hi; [done|].
  apply StronglySorted_inv in Hl as [Hl Hy]. destruct i as [|i]; cbn in Hi.
  - injection Hi as ->. cbn [List.filter]. rewrite order_irrefl. cbn [negb length]. split; [|lia].
    enough (List.filter (fun z => less z x) l = []) as -> by done.
    clear -Hy. induction Hy as [|z l Hz _ IHl]; [done|]. cbn [List.filter]. by rewrite Hz.
  - destruct (IH i Hl Hi) as [H1 H2]. cbn [List.filter].
    assert (Hyx : less x y = false).
    { rewrite Forall_forall in Hy. apply (Hy x). by eapply list_elem_of_lookup_2. }
    rewrite Hyx. cbn [negb length]. split; [destruct (less y x); cbn [length]; lia|lia].
Qed.
End Rank.

Lemma filter_length_perm {A} (p : A -> bool) (l k : list A) :
  l ≡ₚ k -> length (List.filter p l) = length (List.filter p k).
Proof.
  induction 1 as [|x l k _ IH|x y l|]; cbn [List.filter]; try congruence.
  - destruct (p x); cbn [length]; congruence.
  - by destruct (p x), (p y).
Qed.

Definition how_many {A} (p : A -> bool) (l : list A) : Z := len (List.filter p l).

(** ** Aggregates *)

Lemma aggregate_snoc samples s :
  aggregate (samples ++ [s]) = la_add (aggregate samples) (lsRTTMs s) (lsJitterMs s).
Proof. unfold aggregate. by rewrite fold_left_app. Qed.

Lemma laValues_add a r j : laValues (la_add a r j) = laValues a ++ [r].
Proof. unfold la_add. by destruct (laValues a). Qed.

Lemma aggregate_values samples : laValues (aggregate samples) = map lsRTTMs samples.
Proof.
  induction samples as [|s samples IH] using rev_ind; [done|].
  by rewrite aggregate_snoc, laValues_add, IH, map_app.
Qed.

(** Minimum and maximum, when there is no NaN. *)
Definition clean (l : list float64) : Prop := Forall (fun x => is_nan x = false) l.

Lemma aggregate_extremes samples :
  clean (map lsRTTMs samples) -> samples <> [] ->
  let a := aggregate samples in
  laMin a ∈ map lsRTTMs samples /\ laMax a ∈ map lsRTTMs samples /\
  Forall (fun v => f64_ltb v (laMin a) = false /\ f64_ltb (laMax a) v = false) (map lsRTTMs samples).
Proof.
  induction samples as [|s samples IH] using rev_ind; [done|]. intros Hc _. cbv zeta.
  rewrite aggregate_snoc, map_app in *. unfold clean in Hc. rewrite Forall_app in Hc. destruct Hc as [Hc Hs].
  cbn [map] in *. rewrite Forall_singleton in Hs. unfold la_add. rewrite aggregate_values.
  set (r := lsRTTMs s) in *. set (vs := map lsRTTMs samples) in *.
  destruct samples as [|s0 rest].
  { cbn. split_and!; try (by left). constructor; [|done].
    rewrite <- !float_less_ltb by done. by rewrite order_irrefl by apply _. }
  specialize (IH Hc ltac:(done)). cbv zeta in IH. set (a := aggregate (s0 :: rest)) in *.
  destruct IH as (Hmin & Hmax & Hall). assert (Hvs : exists v0 vs', vs = v0 :: vs') by (by do 2 eexists).
  destruct Hvs as (v0 & vs' & Evs). rewrite Evs. cbn [laMin laMax]. rewrite <- Evs. clear Evs v0 vs'.
  assert (Hn : forall v, v ∈ vs -> is_nan v = false) by (intros v Hv; unfold clean in Hc; rewrite Forall_forall in Hc; by apply Hc).
  rewrite Forall_forall in Hall.
  assert (Hlt : forall x y z, is_nan x = false -> is_nan y = false -> is_nan z = false ->
    f64_ltb y x = false -> f64_ltb z y = false -> f64_ltb z x = false).
  { intros x y z Hx Hy Hz. rewrite <- !float_less_ltb by done. apply order_trans. }
  assert (Has : forall x y, is_nan x = false -> is_nan y = false -> f64_ltb x y = true -> f64_ltb y x = false).
  { intros x y Hx Hy. rewrite <- !float_less_ltb by done. apply order_asym. }
  assert (Hrr : f64_ltb r r = false).
  { rewrite <- float_less_ltb by done. apply order_irrefl, _. }
  split_and!.
  - apply elem_of_app. destruct (f64_ltb r (laMin a)); [right; left|by left].
  - apply elem_of_app. destruct (f64_ltb (laMax a) r); [right; left|by left].
  - apply Forall_app. split.
    + apply Forall_forall. intros v Hv. destruct (Hall v Hv) as [H1 H2]. split.
      * destruct (f64_ltb r (laMin a)) eqn:E; [|done]. apply (Hlt r (laMin a) v); auto.
      * destruct (f64_ltb (laMax a) r) eqn:E; [|done]. apply (Hlt v (laMax a) r); auto.
    + rewrite Forall_singleton. split.
      * by destruct (f64_ltb r (laMin a)) eqn:E.
      * by destruct (f64_ltb (laMax a) r) eqn:E.
Qed.

Lemma la_p95_spec a :
  laValues a <> [] ->
  la_p95 a ∈ laValues a /\
  100 * how_many (fun v => float_less v (la_p95 a)) (laValues a) < 95 * len (laValues a) /\
  95 * len (laValues a) <= 100 * how_many (fun v => negb (float_less (la_p95 a) v)) (laValues a).
Proof.
  intros Hne. unfold la_p95. destruct (laValues a) as [|v0 vs0] eqn:E; [done|]. rewrite <- E. clear Hne.
  set (l := laValues a) in *. assert (Hpos : 1 <= len l) by (rewrite E; unfold len; cbn [length]; lia). clear E v0 vs0.
  pose proof (stable_sort_perm float_less l) as Hperm. fold (Float64s l) in Hperm.
  assert (Hlen : len (Float64s l) = len l) by (unfold len; by rewrite Hperm).
  rewrite Hlen. set (rank := Z.quot (95 * len l + 99) 100).
  assert (Hrank : 95 * len l <= 100 * rank < 95 * len l + 100 /\ 1 <= rank <= len l).
  { unfold rank. rewrite Z.quot_div_nonneg by lia. pose proof (Z.div_mod (95 * len l + 99) 100).
    pose proof (Z.mod_pos_bound (95 * len l + 99) 100). lia. }
  rewrite (proj2 (Z.ltb_ge rank 1)) by lia.
  destruct (lookup_lt_is_Some_2 (Float64s l) (Z.to_nat (rank - 1))) as [p Hp]; [unfold len in *; lia|].
  rewrite Hp. cbn [default from_option id].
  destruct (sorted_rank float_less (Float64s l) _ p (stable_sort_sorted float_less l) Hp) as [H1 H2].
  rewrite (filter_length_perm _ _ _ Hperm) in H1. rewrite (filter_length_perm _ _ _ Hperm) in H2. unfold how_many. split_and!.
  - rewrite <- Hperm. by eapply list_elem_of_lookup_2.
  - unfold len in *. lia.
  - unfold len in *. lia.
Qed.

(** The round-trip statistics of the summary describe the samples: the
    count is theirs; the minimum and the maximum are observed and no sample is
    outside them; the reported 95th percentile is the nearest rank: an observed
    value with fewer than 95% of the samples below it and at least 95% not
    above it. *)
Theorem rttStats_correct samples :
  samples <> [] -> clean (map lsRTTMs samples) ->
  let st := rttStats samples in
  let rtts := map lsRTTMs samples in
  rsSamples st = len samples /\
  rsMinMs st ∈ rtts /\ rsP95Ms st ∈ rtts /\ rsMaxMs st ∈ rtts /\
  Forall (fun v => f64_ltb v (rsMinMs st) = false /\ f64_ltb (rsMaxMs st) v = false) rtts /\
  100 * how_many (fun v => f64_ltb v (rsP95Ms st)) rtts < 95 * len rtts /\
  95 * len rtts <= 100 * how_many (fun v => negb (f64_ltb (rsP95Ms st) v)) rtts.
Proof.
  intros Hne Hc. cbv zeta. destruct (aggregate_extremes samples Hc Hne) as (H1 & H2 & H3).
  pose proof (la_p95_spec (aggregate samples)) as Hp. rewrite aggregate_values in Hp.
  destruct Hp as (H4 & H5 & H6); [by destruct samples|].
  replace (rttStats samples) with (mkRTTStats (la_count (aggregate samples)) (laMin (aggregate samples))
    (la_avg (aggregate samples)) (la_p95 (aggregate samples)) (laMax (aggregate samples)))
    by (unfold rttStats; by destruct samples). cbn [rsSamples rsMinMs rsP95Ms rsMaxMs].
  assert (Hp : is_nan (la_p95 (aggregate samples)) = false)
    by (unfold clean in Hc; rewrite Forall_forall in Hc; by apply Hc).
  split_and!; try done.
  - unfold la_count, len. by rewrite aggregate_values, length_map.
  - unfold how_many in *. erewrite filter_ext_in; [exact H5|]. cbn. intros v Hv.
    unfold clean in Hc. rewrite Forall_forall in Hc. rewrite float_less_ltb; [done|]. apply Hc. by apply list_elem_of_In.
  - unfold how_many in *. erewrite filter_ext_in; [exact H6|]. cbn. intros v Hv. by rewrite float_less_ltb.
Qed.

(** ** Buckets *)

Section Buckets.
Context (start : Time) (bucket : Z) (Hb : 0 < bucket).

(** The samples of the bucket that starts at [k]. *)
Definition with_key (k : Z) (samples : list LatencySample) : list LatencySample :=
  List.filter (fun s => bucket_key start bucket s =? k) samples.
Definition within (lo hi : Time) (samples : list LatencySample) : list LatencySample :=
  List.filter (fun s => (ns lo <=? ns (lsServerTime s)) && (ns (lsServerTime s) <? ns hi)) samples.

Lemma add_samples_lookup samples k :
  fold_left (add_sample start bucket) samples ∅ !! k =
  match with_key k samples with [] => None | l => Some (aggregate l) end.
Proof.
  induction samples as [|s samples IH] using rev_ind; [done|].
  rewrite fold_left_app. cbn [fold_left]. unfold with_key in *. unfold add_sample at 1. rewrite List.filter_app.
  cbn [List.filter]. destruct (Z.eqb_spec (bucket_key start bucket s) k) as [<-|Hne].
  - rewrite lookup_insert_eq, IH. destruct (List.filter _ samples) as [|s0 l]; [done|].
    cbn [app]. f_equal. by rewrite app_comm_cons, aggregate_snoc.
  - rewrite lookup_insert_ne, IH by done. by rewrite app_nil_r.
Qed.

(** A sample of the window is in the bucket its time is in. *)
Lemma bucket_key_truncate s :
  (bucket | ns start) -> ns start <= ns (lsServerTime s) -> in_i64 (ns (lsServerTime s) - ns start) ->
  bucket_key start bucket s = ns (tTruncate (lsServerTime s) bucket).
Proof.
  intros Hdiv Hle Hr. unfold bucket_key. rewrite tSub_small by done. cbn [tUTC ns].
  rewrite (proj2 (Z.ltb_ge _ _)) by lia. set (off := ns (lsServerTime s) - ns start) in *.
  rewrite Z.quot_div_nonneg by lia. pose proof (Z.div_mod off bucket ltac:(lia)).
  pose proof (Z.mod_pos_bound off bucket Hb). pose proof (Z.div_pos off bucket ltac:(lia) Hb).
  assert (0 <= off / bucket * bucket) by nia. rewrite i64_small by (unfold in_i64 in *; lia).
  cbn [tAdd ns]. symmetry. apply tTruncate_unique; [done| |lia].
  apply Z.divide_add_r; [done|]. by exists (off / bucket).
Qed.

Definition in_window (samples : list LatencySample) : Prop :=
  Forall (fun s => ns start <= ns (lsServerTime s) /\ in_i64 (ns (lsServerTime s) - ns start)) samples.

Lemma with_key_within k samples :
  (bucket | ns start) -> (bucket | k) -> in_window samples ->
  with_key k samples = within (mkTime k UTC) (mkTime (k + bucket) UTC) samples.
Proof.
  intros Hd Hk Hw. apply filter_ext_in. intros s Hs. apply list_elem_of_In in Hs.
  unfold in_window in Hw. rewrite Forall_forall in Hw. destruct (Hw s Hs) as [Hle Hr].
  rewrite bucket_key_truncate by done. cbn [ns].
  pose proof (tTruncate_spec (lsServerTime s) bucket Hb) as [Ht _].
  destruct (Z.eqb_spec (ns (tTruncate (lsServerTime s) bucket)) k) as [<-|Hne]; [lia|].
  destruct (Z.leb_spec k (ns (lsServerTime s))), (Z.ltb_spec (ns (lsServerTime s)) (k + bucket)); try done.
  destruct Hne. by apply tTruncate_unique.
Qed.

Lemma with_key_divides k samples : (bucket | ns start) -> in_window samples -> with_key k samples <> [] -> (bucket | k).
Proof.
  intros Hd Hw Hne. unfold with_key in Hne. destruct (List.filter _ samples) as [|s l] eqn:E; [done|].
  assert (Hs : In s samples /\ (bucket_key start bucket s =? k) = true)
    by (apply (filter_In (fun s => bucket_key start bucket s =? k)); rewrite E; by left).
  destruct Hs as [Hin Hk]. apply Z.eqb_eq in Hk as <-. apply list_elem_of_In in Hin.
  unfold in_window in Hw. rewrite Forall_forall in Hw. destruct (Hw s Hin).
  rewrite bucket_key_truncate by done. by apply tTruncate_spec.
Qed.

Lemma fold_jitter samples :
  laJitter (aggregate samples) = map lsJitterMs samples /\
  laJitSum (aggregate samples) = fold_left (fun sum s => f64_add sum (lsJitterMs s)) samples (f64_of_Z 0).
Proof.
  induction samples as [|s samples [IH1 IH2]] using rev_ind; [done|].
  rewrite aggregate_snoc, fold_left_app, map_app. cbn [fold_left]. unfold la_add.
  destruct (laValues (aggregate samples)); cbn [laJitter laJitSum]; by rewrite IH1, IH2.
Qed.

Lemma bucket_of_stats k samples :
  samples <> [] ->
  let b := bucket_of bucket k (aggregate samples) in
  rttStats samples = mkRTTStats (lbCount b) (lbMinMs b) (lbAvgMs b) (lbP95Ms b) (lbMaxMs b) /\
  lbAvgJitterMs b = meanJitter samples.
Proof.
  intros Hne. cbn. split; [unfold rttStats; by destruct samples|].
  unfold la_avgJitter, meanJitter. destruct (fold_jitter samples) as [-> ->].
  destruct samples; [done|]. unfold len. cbn [map length]. by rewrite length_map.
Qed.
End Buckets.

(** Ascending and without repetition is strictly ascending. *)
Lemma sorted_strict l : NoDup l -> StronglySorted (not_after Z.ltb) l -> StronglySorted Z.lt l.
Proof.
  induction 2 as [|x l _ IH Hx]; constructor; inversion_clear H; [by apply IH|].
  rewrite Forall_forall in *. intros y Hy. specialize (Hx y Hy). unfold not_after in Hx. bool_to_prop.
  assert (x <> y) by (intros ->; done). lia.
Qed.

Lemma omap_sorted {A B} (R : A -> A -> Prop) (S : B -> B -> Prop) (f : A -> option B) l :
  (forall x y a b, x ∈ l -> y ∈ l -> R x y -> f x = Some a -> f y = Some b -> S a b) ->
  StronglySorted R l -> StronglySorted S (omap f l).
Proof.
  intros Hf Hl. induction Hl as [|x l Hl IH Hx]; [constructor|]. cbn.
  assert (Hrec : StronglySorted S (omap f l)).
  { apply IH. intros y z a b Hy Hz. by apply Hf; right. }
  destruct (f x) as [a|] eqn:E; [|done]. constructor; [done|]. apply Forall_forall. intros b Hb.
  apply list_elem_of_omap in Hb as (y & Hy & Ey). rewrite Forall_forall in Hx.
  eapply (Hf x y a b); [by left|by right|by apply Hx|done|done].
Qed.

(** The keys in use, in ascending order. *)
Lemma starts_keys start bucket samples :
  let starts := stable_sort Z.ltb (map fst (map_to_list (fold_left (add_sample start bucket) samples ∅))) in
  (forall k, k ∈ starts <-> with_key start bucket k samples <> []) /\ StronglySorted Z.lt starts.
Proof.
  cbv zeta. set (m := fold_left _ samples ∅).
  pose proof (fun k => add_samples_lookup start bucket samples k) as Hm. fold m in Hm.
  assert (Hperm : stable_sort Z.ltb (map fst (map_to_list m)) ≡ₚ map fst (map_to_list m)) by apply stable_sort_perm.
  split.
  - intros k. rewrite Hperm. split.
    + intros Hk. apply list_elem_of_fmap in Hk as ([k' a] & -> & Hk). apply elem_of_map_to_list in Hk.
      rewrite Hm in Hk. by destruct (with_key _ _ _ _).
    + intros Hk. apply list_elem_of_fmap. destruct (with_key start bucket k samples) as [|s l] eqn:E; [done|].
      exists (k, aggregate (s :: l)). split; [done|]. apply elem_of_map_to_list. by rewrite Hm, E.
  - apply sorted_strict; [rewrite Hperm; apply NoDup_fst_map_to_list|].
    apply stable_sort_sorted. apply (order_key (fun z : Z => z)).
Qed.

(** For samples of a range of at most 24 hours that starts at [from]: the buckets
    are aligned, disjoint and ascending; every sample lies in one of them; each
    reports exactly the statistics of the samples inside it. *)
Lemma bucketLatency_partition samples from bucket :
  0 < bucket <= MaxInt64 - maxQueryRange ->
  Forall (fun s => ns from <= ns (lsServerTime s) <= ns from + maxQueryRange) samples ->
  let bs := bucketLatency samples from bucket in
  StronglySorted (fun b b' => ns (lbEnd b) <= ns (lbStart b')) bs /\
  (forall s, s ∈ samples -> exists b, b ∈ bs /\ s ∈ within (lbStart b) (lbEnd b) samples) /\
  (forall b, b ∈ bs ->
    let inside := within (lbStart b) (lbEnd b) samples in
    inside <> [] /\ ns (lbEnd b) = ns (lbStart b) + bucket /\ (bucket | ns (lbStart b)) /\
    rttStats inside = mkRTTStats (lbCount b) (lbMinMs b) (lbAvgMs b) (lbP95Ms b) (lbMaxMs b) /\
    lbAvgJitterMs b = meanJitter inside).
Proof.
  intros [Hb Hmax] Hw. cbv zeta. unfold bucketLatency. rewrite (proj2 (Z.leb_gt bucket 0)) by done. cbn [orb].
  destruct (Z.eqb_spec (len samples) 0) as [H0|H0].
  { destruct samples; [|unfold len in H0; cbn in H0; lia]. split_and!; [constructor|..]; intros x Hx; inversion Hx. }
  set (start := tTruncate (tUTC from) bucket).
  destruct (tTruncate_spec (tUTC from) bucket Hb) as [Ht Hdiv]. fold start in Ht, Hdiv. cbn [tUTC ns] in Ht.
  assert (Hin : in_window start samples).
  { eapply Forall_impl; [exact Hw|]. intros s Hs. unfold in_i64, maxQueryRange, Hour in *. cbv beta in Hs. lia. }
  set (m := fold_left (add_sample start bucket) samples ∅).
  pose proof (fun k => add_samples_lookup start bucket samples k) as Hm. fold m in Hm.
  set (starts := stable_sort Z.ltb (map fst (map_to_list m))).
  destruct (starts_keys start bucket samples) as [Helem Hsorted]. fold m starts in Helem, Hsorted.
  assert (Hkey : forall k, k ∈ starts -> exists l, l <> [] /\ (bucket | k) /\ m !! k = Some (aggregate l) /\
    l = within (mkTime k UTC) (mkTime (k + bucket) UTC) samples).
  { intros k Hk. apply Helem in Hk. pose proof (with_key_divides start bucket Hb k samples Hdiv Hin Hk) as Hkd.
    exists (with_key start bucket k samples). split_and!; try done; [|by apply with_key_within].
    rewrite Hm. by destruct (with_key start bucket k samples). }
  split_and!.
  - eapply omap_sorted; [|exact Hsorted]. cbv beta. intros x y a b Hx Hy Hlt Ha Hbb.
    destruct (Hkey x Hx) as (lx & _ & [qx ->] & Ex & _), (Hkey y Hy) as (ly & _ & [qy ->] & Ey & _).
    rewrite Ex in Ha. rewrite Ey in Hbb. cbn in Ha, Hbb. injection Ha as <-. injection Hbb as <-.
    apply (Z.mul_lt_mono_pos_r bucket) in Hlt; [|done]. cbn. nia.
  - intros s Hs. set (k := bucket_key start bucket s).
    assert (Hk : s ∈ with_key start bucket k samples).
    { apply list_elem_of_In, filter_In. split; [by apply list_elem_of_In|]. apply Z.eqb_refl. }
    assert (Hks : k ∈ starts) by (apply Helem; intros E; rewrite E in Hk; inversion Hk).
    destruct (Hkey k Hks) as (l & _ & Hkd & El & Ew). exists (bucket_of bucket k (aggregate l)). split.
    + apply list_elem_of_omap. exists k. split; [done|]. by rewrite El.
    + change (s ∈ within (mkTime k UTC) (mkTime (k + bucket) UTC) samples). by rewrite <- (with_key_within start bucket Hb k samples Hdiv Hkd Hin).
  - intros b Hbs. apply list_elem_of_omap in Hbs as (k & Hks & Eb).
    destruct (Hkey k Hks) as (l & Hne & Hkd & El & Ew). rewrite El in Eb. cbn in Eb. injection Eb as <-.
    destruct (bucket_of_stats bucket k l Hne) as [H1 H2].
    change (lbStart (bucket_of bucket k (aggregate l))) with (mkTime k UTC).
    change (lbEnd (bucket_of bucket k (aggregate l))) with (mkTime (k + bucket) UTC). by rewrite <- Ew.
Qed.

(** ** The interface of the readers *)

(** The rows a latency query is about. *)
Definition matches (q : LatencyQuery) (s : LatencySample) : bool :=
  (bool_decide (lqSessionID q = "") || bool_decide (lsSessionID s = lqSessionID q)) &&
  negb (tIsZero (lsServerTime s)) &&
  (tIsZero (lqFrom q) || (ns (lqFrom q) <=? ns (lsServerTime s))) &&
  (tIsZero (lqTo q) || (ns (lsServerTime s) <=? ns (lqTo q))).

(** What a driver promises about its latency rows [content]: an answer holds
    matching rows only, at most [Limit] of them, in order of time, and all of
    them when they are within the limit. *)
Class LatencyReader (R : Type) `{QueryRepository R} (content : R -> list LatencySample) : Prop := {
  lr_sound (r : R) q out : rpLatencySamples r q = inl out -> out ⊆+ List.filter (matches q) (content r);
  lr_limit (r : R) q out : rpLatencySamples r q = inl out -> 0 < lqLimit q -> len out <= lqLimit q;
  lr_sorted (r : R) q out : rpLatencySamples r q = inl out ->
    StronglySorted (fun s s' => ns (lsServerTime s) <= ns (lsServerTime s')) out;
  lr_complete (r : R) q out : rpLatencySamples r q = inl out ->
    len (List.filter (matches q) (content r)) <= lqLimit q ->
    out ≡ₚ List.filter (matches q) (content r) }.

(** ** Bounds *)

Lemma limitOr_range limit def max : 1 <= def <= max -> 1 <= limitOr limit def max <= max.
Proof. intros Hd. unfold limitOr. split_if; lia. Qed.

Lemma clampRange_span from to now lo hi :
  clampRange from to now = (lo, hi) -> ns hi - ns lo <= maxQueryRange.
Proof.
  unfold clampRange. set (t := if tIsZero to then tUTC now else to).
  set (f := if tIsZero from then _ else _). intros [= <- <-]. unfold tSub.
  assert (maxQueryRange = 86400000000000) by reflexivity. cbn [tUTC ns].
  destruct (Z.ltb_spec MaxInt64 (ns t - ns f)); [|destruct (Z.ltb_spec (ns t - ns f) MinInt64)];
    case Z.ltb_spec; cbn [tAdd ns]; lia.
Qed.

Section Queries.
Context {R : Type} (content : R -> list LatencySample) `{LatencyReader R content}.

(** C32: A latency query answers with an exact partition.  For any driver that
    keeps its promise about latency rows: when the store answers, the range it
    read is at most 24 hours long; the buckets are aligned to the bucket size,
    disjoint and ascending; each reports exactly the count, minimum, average,
    percentile, maximum and mean jitter of the rows inside it, of which there
    is at least one; and when the matching rows are within the row limit, they
    are all there, each in a bucket. *)
Theorem latency_buckets_partition (s : Store R) id from to bucket now lo hi bs :
  mcEnabled (stCfg s) = true -> 0 < bucket <= MaxInt64 - maxQueryRange ->
  clampRange from to now = (lo, hi) -> 0 < ns lo < ns hi ->
  LatencyBuckets s id from to bucket now = inl bs ->
  let rows := List.filter (matches (mkLatencyQuery id lo hi maxLatencySamples)) (content (stRepo s)) in
  ns hi - ns lo <= maxQueryRange /\
  exists read, read ⊆+ rows /\ (len rows <= maxLatencySamples -> read ≡ₚ rows) /\
    StronglySorted (fun b b' => ns (lbEnd b) <= ns (lbStart b')) bs /\
    (forall r, r ∈ read -> exists b, b ∈ bs /\ r ∈ within (lbStart b) (lbEnd b) read) /\
    (forall b, b ∈ bs ->
      let inside := within (lbStart b) (lbEnd b) read in
      inside <> [] /\ ns (lbEnd b) = ns (lbStart b) + bucket /\ (bucket | ns (lbStart b)) /\
      rttStats inside = mkRTTStats (lbCount b) (lbMinMs b) (lbAvgMs b) (lbP95Ms b) (lbMaxMs b) /\
      lbAvgJitterMs b = meanJitter inside).
Proof.
  intros He Hb Hclamp Hlohi. unfold LatencyBuckets. rewrite He, Hclamp. cbn [negb].
  rewrite (proj2 (Z.leb_gt bucket 0)) by lia. unfold tAfter. rewrite (proj2 (Z.ltb_lt _ _)) by lia. cbn [negb].
  set (q := mkLatencyQuery id lo hi maxLatencySamples). intros Hres. cbv zeta.
  split; [by eapply clampRange_span|]. destruct (rpLatencySamples (stRepo s) q) as [read|e] eqn:E; [|done].
  injection Hres as <-. exists read. pose proof (lr_sound _ _ _ E) as Hsound.
  split; [done|]. split; [by apply (lr_complete _ _ _ E)|].
  apply bucketLatency_partition; [done|]. pose proof (clampRange_span _ _ _ _ _ Hclamp) as Hspan.
  apply Forall_forall. intros r Hr. assert (Hin : r ∈ List.filter (matches q) (content (stRepo s)))
    by (by eapply elem_of_submseteq). apply list_elem_of_In, filter_In in Hin as [_ Hm].
  unfold matches, q, tIsZero in Hm. cbn [lqFrom lqTo] in Hm. lia.
Qed.
End Queries.

(** ** Concrete inputs *)

Definition demo_latency (n ms : Z) : LatencySample :=
  mkLatency "a" n (f64_of_Z ms) (f64_of_Z 1) 1 0 (unixNanos (n * Second)) false false.
Definition demo_samples : list LatencySample :=
  [demo_latency 3 40; demo_latency 1 25; demo_latency 8 90; demo_latency 4 31].

Lemma rttStats_correct_witness :
  demo_samples <> [] /\ clean (map lsRTTMs demo_samples) /\
  rsP95Ms (rttStats demo_samples) ∈ map lsRTTMs demo_samples.
Proof.
  assert (Hc : clean (map lsRTTMs demo_samples)) by (repeat constructor).
  assert (Hne : demo_samples <> []) by discriminate.
  split; [exact Hne|]. split; [exact Hc|].
  destruct (rttStats_correct demo_samples Hne Hc) as (_ & _ & H & _). exact H.
Defined.
