(* ===== verification/MemorySpec.v ===== *)
(** * The in-memory driver keeps its promises

    It discharges the interface of the latency readers; its sessions are the
    per-session outcome of the writes; and a store over it never loses a batch,
    so what can be read back is what was recorded. *)

From S2P Require Import Prelude Money GoTime Decimal Domain Float64 Metrics MetricsStore MetricsSpec StableSort MetricsQuery MetricsQuerySpec MemoryRepo.

(** ** Reads *)

#[global] Instance by_time_order {A} (at_ : A -> Time) : Order (by_time at_).
Proof. apply (order_key (fun x => ns (at_ x))). Qed.
#[global] Instance by_time_desc_order {A} (at_ : A -> Time) : Order (by_time_desc at_).
Proof. apply (order_key_desc (fun x => ns (at_ x))). Qed.

Lemma StronglySorted_take {A} (R : A -> A -> Prop) n l : StronglySorted R l -> StronglySorted R (take n l).
Proof.
  intros Hl. revert n. induction Hl as [|x l _ IH Hx]; intros [|n]; try constructor; [apply IH|].
  by apply Forall_take.
Qed.
Lemma StronglySorted_impl {A} (R S : A -> A -> Prop) l :
  (forall x y, R x y -> S x y) -> StronglySorted R l -> StronglySorted S l.
Proof.
  intros Hi. induction 1 as [|x l _ IH Hx]; constructor; [done|]. eapply Forall_impl; [exact Hx|]. by apply Hi.
Qed.

Lemma cap_take {A} n (l : list A) : exists k, cap n l = take k l.
Proof. unfold cap. destruct (_ && _); [by eexists|]. exists (length l). by rewrite firstn_all. Qed.
Lemma cap_le {A} n (l : list A) : 0 < n -> len (cap n l) <= n.
Proof.
  intros Hn. unfold cap. rewrite (proj2 (Z.ltb_lt 0 n)) by done. cbn [andb].
  destruct (Z.ltb_spec n (len l)); [|done]. unfold len in *. rewrite length_take. lia.
Qed.
Lemma cap_all {A} n (l : list A) : len l <= n -> cap n l = l.
Proof. intros Hn. unfold cap. rewrite (proj2 (Z.ltb_ge n (len l))) by done. by rewrite andb_false_r. Qed.

Lemma mem_filter_matches r q :
  List.filter (fun s =>
    (bool_decide (lqSessionID q = "") || bool_decide (lsSessionID s = lqSessionID q)) &&
    inWindow (lsServerTime s) (lqFrom q) (lqTo q)) (mrLatency r) = List.filter (matches q) (mrLatency r).
Proof.
  apply filter_ext. intros s. unfold matches, inWindow, tIsZero, tBefore, tAfter.
  destruct (_ || bool_decide _); [|done]. cbn [andb].
  destruct (Z.eqb_spec (ns (lsServerTime s)) 0), (Z.eqb_spec (ns (lqFrom q)) 0), (Z.eqb_spec (ns (lqTo q)) 0),
    (Z.ltb_spec (ns (lsServerTime s)) (ns (lqFrom q))), (Z.ltb_spec (ns (lqTo q)) (ns (lsServerTime s))),
    (Z.leb_spec (ns (lqFrom q)) (ns (lsServerTime s))), (Z.leb_spec (ns (lsServerTime s)) (ns (lqTo q)));
    cbn; done || lia.
Qed.

#[global] Instance mem_latency_reader : LatencyReader MemRepo mrLatency.
Proof.
  assert (Hq : forall r q out, rpLatencySamples r q = inl out ->
    out = cap (lqLimit q) (stable_sort (by_time lsServerTime) (List.filter (matches q) (mrLatency r)))).
  { intros r q out [= <-]. unfold Mem_LatencySamples. by rewrite mem_filter_matches. }
  split; intros r q out ->%Hq.
  - transitivity (stable_sort (by_time lsServerTime) (List.filter (matches q) (mrLatency r)));
      [|apply Permutation_submseteq, stable_sort_perm].
    destruct (cap_take (lqLimit q) (stable_sort (by_time lsServerTime) (List.filter (matches q) (mrLatency r))))
      as [k ->]. apply sublist_submseteq, sublist_take.
  - apply cap_le.
  - destruct (cap_take (lqLimit q) (stable_sort (by_time lsServerTime) (List.filter (matches q) (mrLatency r))))
      as [k ->]. apply StronglySorted_take. eapply StronglySorted_impl, stable_sort_sorted, _.
    intros x y. unfold not_after, by_time, tBefore. lia.
  - intros Hl. rewrite cap_all; [apply stable_sort_perm|]. unfold len in *. by rewrite length_stable_sort.
Qed.

(** ** Sessions *)

(** One session seen alone: the writes of its own id, in order. *)
Definition session_step (cur : option SessionRow) (w : SessionWrite) : option SessionRow :=
  if swEnd w then (fun old => close_row old (swRow w)) <$> cur else Some (swRow w).
Definition writes_of (id : string) (ws : list SessionWrite) : list SessionWrite :=
  List.filter (fun w => bool_decide (srSessionID (swRow w) = id)) ws.
Definition session_outcome (id : string) (ws : list SessionWrite) : option SessionRow :=
  fold_left session_step (writes_of id ws) None.

Lemma write_session_lookup r w id :
  mrSessions (write_session r w) !! id =
  if bool_decide (srSessionID (swRow w) = id) then session_step (mrSessions r !! id) w else mrSessions r !! id.
Proof.
  unfold write_session, session_step. destruct (swEnd w).
  - unfold endSession. case_bool_decide as E.
    + subst id. destruct (mrSessions r !! _) eqn:El; cbn; [by rewrite lookup_insert_eq|done].
    + destruct (mrSessions r !! srSessionID (swRow w)); cbn; [by rewrite lookup_insert_ne|done].
  - cbn [putSession with_sessions mrSessions]. case_bool_decide as E; subst; [by rewrite lookup_insert_eq|by rewrite lookup_insert_ne].
Qed.

Lemma write_sessions_lookup ws r id :
  mrSessions (fold_left write_session ws r) !! id = fold_left session_step (writes_of id ws) (mrSessions r !! id).
Proof.
  revert r. induction ws as [|w ws IH]; intros r; [done|]. cbn [fold_left writes_of List.filter].
  rewrite IH, write_session_lookup. by case_bool_decide.
Qed.

(** The listing order holds every session once. *)
Definition sessions_listed (r : MemRepo) : Prop :=
  NoDup (mrSessionAt r) /\ forall id, id ∈ mrSessionAt r <-> is_Some (mrSessions r !! id).

Lemma write_session_listed r w : sessions_listed r -> sessions_listed (write_session r w).
Proof.
  intros [Hn He]. unfold write_session, endSession, putSession. set (k := srSessionID (swRow w)).
  destruct (swEnd w), (mrSessions r !! k) as [old|] eqn:E; try done; unfold sessions_listed, with_sessions;
    cbn [mrSessionAt mrSessions].
  1,2: split; [done|]; intros id; rewrite He; destruct (decide (k = id)) as [<-|];
    [rewrite lookup_insert_eq, E; done|by rewrite lookup_insert_ne].
  split.
  - apply NoDup_app. split_and!; [done| |apply NoDup_singleton].
    intros x Hx Hk. apply list_elem_of_singleton in Hk as ->. apply He in Hx as [? Hx]. fold k in Hx. congruence.
  - intros id. rewrite elem_of_app, list_elem_of_singleton, He. fold k. destruct (decide (k = id)) as [<-|Hne].
    + rewrite lookup_insert_eq. split; [done|auto].
    + rewrite lookup_insert_ne by done. split; [|auto]. intros [?|<-]; done.
Qed.

Lemma write_sessions_listed ws r : sessions_listed r -> sessions_listed (fold_left write_session ws r).
Proof. revert r. induction ws as [|w ws IH]; intros r Hr; [done|]. by apply IH, write_session_listed. Qed.

(** Writing sessions leaves the other tables alone. *)
Definition events (r : MemRepo) : MemRepo :=
  mkMemRepo (mrLatency r) (mrHealth r) (mrTiers r) (mrDelivery r) (mrBookEvents r) (mrProtocol r) (mrEngineEvts r)
    (mrCandleClose r) (mrFaults r) ∅ [].
Lemma write_sessions_events ws r : events (fold_left write_session ws r) = events r.
Proof.
  revert r. induction ws as [|w ws IH]; intros r; [done|]. cbn [fold_left]. rewrite IH.
  unfold write_session, endSession. destruct (swEnd w); [|done]. by destruct (mrSessions r !! _).
Qed.

(** ** The content of the driver *)

(** The tables of events hold exactly the records [rs], in order. *)
Record holds_events (m : MemRepo) (rs : list record) : Prop := {
  he_latency : mrLatency m = omap latency_of rs; he_health : mrHealth m = omap health_of rs;
  he_tiers : mrTiers m = omap tier_of rs; he_delivery : mrDelivery m = omap delivery_of rs;
  he_book : mrBookEvents m = omap book_of rs; he_protocol : mrProtocol m = omap protocol_of rs;
  he_engine : mrEngineEvts m = omap engine_of rs; he_candle : mrCandleClose m = omap candle_of rs;
  he_fault : mrFaults m = omap fault_of rs }.

Lemma holds_events_same m m' rs : events m = events m' -> holds_events m' rs -> holds_events m rs.
Proof. intros E [? ? ? ? ? ? ? ? ?]. destruct m, m'. cbn in *. injection E as -> -> -> -> -> -> -> -> ->. by split. Qed.
Lemma holds_events_write m rs new : holds_events m rs -> holds_events (Mem_WriteBatch m (toBatch new)) (rs ++ new).
Proof.
  intros [? ? ? ? ? ? ? ? ?]. eapply holds_events_same; [apply write_sessions_events|].
  destruct (toBatch_tables new) as ((? & _ & ? & ? & ?) & ? & ? & ? & ? & ?).
  split; cbn [mrLatency mrHealth mrTiers mrDelivery mrBookEvents mrProtocol mrEngineEvts mrCandleClose mrFaults];
    rewrite omap_app; by f_equal.
Qed.

(** So do all of them. *)
Record holds (r : MemRepo) (rs : list record) : Prop := {
  hd_events : holds_events r rs;
  hd_sessions : forall id, mrSessions r !! id = session_outcome id (omap session_of rs);
  hd_listed : sessions_listed r }.

Lemma holds_new : holds NewRepository [].
Proof. split; [done|done|]. split; [constructor|]. intros id. split; [intros H; inversion H|intros [? H]; done]. Qed.

Lemma holds_write r rs new : holds r rs -> holds (Mem_WriteBatch r (toBatch new)) (rs ++ new).
Proof.
  intros [Hl Hs Hd]. split; [by apply holds_events_write|..];
    destruct (toBatch_tables new) as ((_ & Es & _) & _); unfold Mem_WriteBatch; rewrite Es.
  - intros id. rewrite write_sessions_lookup. cbn [mrSessions]. rewrite Hs, omap_app.
    unfold session_outcome, writes_of. by rewrite List.filter_app, fold_left_app.
  - by apply write_sessions_listed.
Qed.

(** Invariant of the audited driver: every call succeeded, and the driver holds
    what it was given. *)
Definition faithful (a : Audited MemRepo) : Prop :=
  Forall (fun c => c.2 = None) (auLog a) /\
  forall ch, history (auLog a) ch -> holds (auInner a) (rows_of true ch).

Lemma history_snoc_inv log c ch :
  history (log ++ [c]) ch -> Forall (fun c => c.2 = None) (log ++ [c]) ->
  exists ch' rs, ch = ch' ++ [(rs, true)] /\ history log ch' /\ c = (toBatch rs, None).
Proof.
  remember (log ++ [c]) as full. intros Hh Hall. destruct Hh as [|l ch rs Hh|l ch rs e Hh|l ch rs e e' Hh].
  - by destruct log.
  - apply app_inj_tail in Heqfull as [-> <-]. eauto.
  - apply Forall_app in Hall as [_ Hall]. by inversion Hall.
  - apply Forall_app in Hall as [_ Hall]. by inversion Hall.
Qed.

Lemma faithful_new : faithful (mkAudited NewRepository []).
Proof.
  split; [constructor|]. intros ch Hh. cbn in Hh. inversion Hh; try by destruct log. apply holds_new.
Qed.

Lemma faithful_write a b : faithful a -> faithful (fst (WriteBatch a b)).
Proof.
  intros [Hall Hh]. cbn [WriteBatch audited mem_repository fst auInner auLog].
  assert (Hall' : Forall (fun c : Batch * option DriverError => c.2 = None) (auLog a ++ [(b, None)]))
    by (apply Forall_app; split; [done|by constructor]).
  split; [exact Hall'|]. intros ch Hch. cbn [auLog] in Hch.
  destruct (history_snoc_inv _ _ _ Hch Hall') as (ch' & rs & -> & Hch' & [= ->]).
  rewrite rows_of_snoc. cbn [Bool.eqb]. by apply holds_write, Hh.
Qed.

Lemma faithful_no_failures log ch :
  history log ch -> Forall (fun c => c.2 = None) log -> failed_batches ch = 0 /\ rows_of false ch = [].
Proof.
  induction 1 as [|log ch rs _ IH|log ch rs e _ IH|log ch rs e e' _ IH]; intros Hall; [done|..];
    apply Forall_app in Hall as [Hall Hlast].
  - destruct (IH Hall) as [E1 E2]. by rewrite failed_batches_snoc, rows_of_snoc, E1, E2.
  - by inversion Hlast.
  - by inversion Hlast.
Qed.

Lemma sublist_length_eq {A} (l k : list A) : l `sublist_of` k -> length l = length k -> l = k.
Proof.
  induction 1 as [|x l k Hs IH|x l k Hs IH]; cbn [length]; intros E; [done|f_equal; apply IH; lia|].
  apply sublist_length in Hs. lia.
Qed.

(** A store over the driver, at any time: every chunk was written, and what is
    short of the offers was dropped. *)
Lemma memory_run cfg s0 steps :
  Open cfg (mkAudited NewRepository []) = inl s0 -> mcEnabled cfg = true ->
  exists s offers written queued d,
    m_run s0 steps = Some s /\ offered steps offers /\ queue_rep (stQueue s) queued /\
    holds (auInner (stRepo s)) written /\
    ctWriteFailures (stCounters s) = 0 /\ ctRowsWritten (stCounters s) = i64 (len written) /\
    (written ++ stPending s ++ queued) `sublist_of` offers /\
    len offers = d + len (written ++ stPending s ++ queued) /\ ctDropped (stCounters s) = i64 d.
Proof.
  intros Ho He.
  destruct (acc_run (stCfg s0) faithful faithful_write ltac:(done) steps s0 _ _ _ _
    (acc_open (stCfg s0) faithful cfg NewRepository s0 Ho He eq_refl faithful_new)) as
    (s & rs & ch & l & d & Hr & Hof & [_ _ Hq _ Hh [Hall Hholds] Hsub Hc Hd _ Hrw Hwf]).
  destruct (faithful_no_failures _ _ Hh Hall) as [E1 E2]. pose proof (Hholds ch Hh) as Hdb.
  rewrite E1 in Hwf. cbn [app] in *. pose proof (rows_split ch) as Hsplit. rewrite E2 in Hsplit.
  assert (Hrows : chunk_records ch = rows_of true ch).
  { unfold rows_of, failed_batches in *. f_equal. symmetry. clear -E1. unfold len in E1.
    induction ch as [|[x []] ch IH]; [done| |]; cbn [List.filter snd Bool.eqb length] in *; [|lia].
    by rewrite IH. }
  rewrite Hrows in *. exists s, rs, (rows_of true ch), l, d.
  assert (Hlen : len rs = d + len (rows_of true ch ++ stPending s ++ l)) by (rewrite !len_app; lia).
  by split_and!.
Qed.
Lemma nothing_dropped (offers kept : list record) d :
  kept `sublist_of` offers -> len offers = d + len kept -> d = 0 -> kept = offers.
Proof. intros Hs Hl ->. apply sublist_length_eq; [done|]. unfold len in Hl. lia. Qed.

(** C31: A store over the in-memory driver records faithfully.  Whatever is
    recorded and in whatever interleaving with the writer: no batch fails; each of
    the nine tables of events (latency, health, tiers, delivery, book, protocol,
    engine, candles, faults) holds exactly the rows of its kind of the written
    records, in order of arrival; each session's row is the outcome of its own writes alone, and
    every session is listed once; written, pending and queued records are, in
    this order, a subsequence of what was offered, short by the drops counted,
    and exactly what was offered when nothing was dropped. *)
Theorem memory_store_faithful cfg s0 steps :
  Open cfg (mkAudited NewRepository []) = inl s0 -> mcEnabled cfg = true ->
  exists s offers written queued d,
    m_run s0 steps = Some s /\ offered steps offers /\ queue_rep (stQueue s) queued /\
    let db := auInner (stRepo s) in
    ctWriteFailures (stCounters s) = 0 /\ ctRowsWritten (stCounters s) = i64 (len written) /\
    holds_events db written /\
    (forall id, mrSessions db !! id = session_outcome id (omap session_of written)) /\
    NoDup (mrSessionAt db) /\ (forall id, id ∈ mrSessionAt db <-> is_Some (mrSessions db !! id)) /\
    (written ++ stPending s ++ queued) `sublist_of` offers /\
    len offers = d + len (written ++ stPending s ++ queued) /\ ctDropped (stCounters s) = i64 d /\
    (d = 0 -> written ++ stPending s ++ queued = offers).
Proof.
  intros Ho He. destruct (memory_run cfg s0 steps Ho He) as (s & rs & written & q & d & Hr & Hof & Hq & [Hl Hs [Hnd Hli]] & Hf & Hw & Hsub & Hlen & Hd).
  exists s, rs, written, q, d. cbv zeta. split_and!; try done. by apply nothing_dropped.
Qed.

(** ** Concrete inputs *)

Definition demo_row (id reason : string) : SessionRow :=
  mkSessionRow id "dev" "1" "ios" "" "BTC" "1m" (unixNanos 1) None reason "FULL" "" "" 0 0 0 0 0.
Definition demo_writes : list MStep :=
  [MRecord (RecordSessionStart (demo_row "a" "")) (unixNanos 1);
   MRecord (RecordLatency (demo_latency 1 40)) (unixNanos 2);
   MRound quiet false WakeTimer;
   MRecord (RecordSessionEnd (demo_row "a" "client_closed")) (unixNanos 3);
   MRound quiet false WakeTimer].

Lemma memory_store_faithful_witness :
  exists s0, Open demo_metrics (mkAudited NewRepository []) = inl s0 /\
  exists s, m_run s0 demo_writes = Some s /\ ctWriteFailures (stCounters s) = 0 /\
    srDisconnectReason <$> mrSessions (auInner (stRepo s)) !! "a" = Some "client_closed".
Proof.
  eexists. split; [reflexivity|].
  destruct (memory_store_faithful demo_metrics _ demo_writes eq_refl eq_refl)
    as (s & _ & _ & _ & _ & E & _ & _ & Hf & _).
  exists s. split; [exact E|]. split; [exact Hf|]. vm_compute in E. injection E as <-. reflexivity.
Defined.

Definition demo_read_store : Store MemRepo :=
  mkStore demo_metrics (startWriter (R := MemRepo) demo_metrics) (Mem_WriteBatch NewRepository (toBatch (map RLatency demo_samples)))
    (newRecordQueue 2) [] None None (mkCounters 0 0 0 0 0 0) false.

Lemma latency_buckets_partition_witness :
  exists bs, LatencyBuckets demo_read_store "" (unixNanos 0) (unixNanos (20 * Second)) (5 * Second) (unixNanos 0) = inl bs /\
    map lbCount bs = [3; 1] /\
    StronglySorted (fun b b' => ns (lbEnd b) <= ns (lbStart b')) bs.
Proof.
  eexists. split; [reflexivity|]. split; [vm_compute; reflexivity|].
  edestruct (latency_buckets_partition mrLatency demo_read_store "" (unixNanos 0) (unixNanos (20 * Second))
    (5 * Second) (unixNanos 0)) as (_ & read & _ & _ & Hs & _);
    [reflexivity|split; [reflexivity|vm_compute; discriminate]|reflexivity|split; reflexivity|reflexivity|exact Hs].
Defined.
