(* ===== verification/Strconv.v ===== *)
(** * Parsing of numbers, booleans and durations

    The parts of [strconv] and [time] with which the configuration and the HTTP
    handlers read text: [Atoi], [ParseBool], [ParseFloat], [ParseDuration].
    [None] is an error; which one is never inspected. *)

From Stdlib Require Import Ascii SpecFloat.
From S2P Require Import Prelude Money Decimal GoTime Float64 Json.

(** ** Integers and booleans *)

(** [strconv.Atoi] and [ParseInt(s, 10, 64)]. *)
Definition Atoi (s : text) : option Z :=
  let '(neg, ds) := split_sign s in
  if bool_decide (ds = []) || negb (forallb is_digit ds) then None
  else
    let v := signed neg (dec_value ds) in
    if (MinInt64 <=? v) && (v <=? MaxInt64) then Some v else None.

Definition is_one_of (ws : list string) (s : text) : bool := existsb (fun w => bool_decide (txt w = s)) ws.
Definition ParseBool (s : text) : option bool :=
  if is_one_of ["1"; "t"; "T"; "TRUE"; "true"; "True"] s then Some true
  else if is_one_of ["0"; "f"; "F"; "FALSE"; "false"; "False"] s then Some false
  else None.

(** ** Floating point *)

Definition lower (c : ascii) : ascii :=
  let n := N_of_ascii c in if ((65 <=? n) && (n <=? 90))%N then ascii_of_N (n + 32) else c.

(** The value of a digit in base 10 or 16. *)
Definition digit_of (hex : bool) (c : ascii) : option Z :=
  if is_digit c then Some (digit_val c)
  else
    let n := N_of_ascii (lower c) in
    if hex && ((97 <=? n) && (n <=? 102))%N then Some (Z.of_N n - 87) else None.

(** The mantissa of [readFloat]: digits, at most one point, underscores skipped.
    The result is the mantissa, the digits after the point, whether there was a
    digit, a point or an underscore, and the rest. *)
Record mantissa := mkMantissa {
  maValue : Z; maFrac : Z; maDigits : bool; maPoint : bool; maUnder : bool; maRest : text }.
Fixpoint read_mantissa (hex : bool) (a : mantissa) (s : text) : mantissa :=
  let stop := mkMantissa (maValue a) (maFrac a) (maDigits a) (maPoint a) (maUnder a) s in
  match s with
  | [] => stop
  | c :: r =>
      if Ascii.eqb c "_" then
        read_mantissa hex (mkMantissa (maValue a) (maFrac a) (maDigits a) (maPoint a) true r) r
      else if Ascii.eqb c "." then
        if maPoint a then stop
        else read_mantissa hex (mkMantissa (maValue a) (maFrac a) (maDigits a) true (maUnder a) r) r
      else match digit_of hex c with
           | Some d =>
               read_mantissa hex (mkMantissa (maValue a * (if hex then 16 else 10) + d)
                 (maFrac a + (if maPoint a then 1 else 0)) true (maPoint a) (maUnder a) r) r
           | None => stop
           end
  end.

(** The digits of an exponent; its size is capped, underscores are skipped. *)
Fixpoint read_exponent (e : Z) (under : bool) (s : text) : Z * bool * text :=
  match s with
  | c :: r =>
      if Ascii.eqb c "_" then read_exponent e true r
      else if is_digit c then read_exponent (if e <? 10000 then e * 10 + digit_val c else e) under r
      else (e, under, s)
  | [] => (e, under, s)
  end.

(** [underscoreOK] after the sign and the base prefix: an underscore stands
    between digits; [prev] is the previous character, a digit counting as ["0"],
    as does the base prefix. *)
Fixpoint underscores_ok (hex : bool) (prev : ascii) (s : text) : bool :=
  match s with
  | [] => negb (Ascii.eqb prev "_")
  | c :: r =>
      if is_digit c || (hex && match digit_of true c with Some _ => true | None => false end)
      then underscores_ok hex "0" r
      else if Ascii.eqb c "_" then Ascii.eqb prev "0" && underscores_ok hex "_" r
      else negb (Ascii.eqb prev "_") && underscores_ok hex "!" r
  end.

(** A value that rounds to infinity is an error. *)
Definition in_range (x : float64) : option float64 := if f64_finite x then Some x else None.

(** [inf], [infinity] and [nan] in any case; only the infinities take a sign. *)
Definition special (s : text) : option float64 :=
  let '(neg, r) := split_sign s in
  let r := map lower r in
  if is_one_of ["inf"; "infinity"] r then Some (S754_infinity neg)
  else if is_one_of ["nan"] (map lower s) then Some S754_nan
  else None.

Definition readFloat (s : text) : option float64 :=
  let '(neg, s) := split_sign s in
  let hex_rest := match s with
                  | z :: x :: r => if Ascii.eqb z "0" && Ascii.eqb (lower x) "x" then Some r else None
                  | _ => None
                  end in
  let hex := match hex_rest with Some _ => true | None => false end in
  let body := default s hex_rest in
  let a := read_mantissa hex (mkMantissa 0 0 false false false body) body in
  if negb (maDigits a) then None
  else
    let exponent :=
      match maRest a with
      | c :: r =>
          if Ascii.eqb (lower c) (if hex then "p" else "e")%char then
            let '(eneg, r) := split_sign r in
            match r with
            | d :: _ => if is_digit d then
                          let '(e, under, rest) := read_exponent 0 (maUnder a) r in
                          Some (signed eneg e, under, rest)
                        else None
            | [] => None
            end
          else if hex then None else Some (0, maUnder a, maRest a)
      | [] => if hex then None else Some (0, maUnder a, [])
      end in
    match exponent with
    | None => None
    | Some (e, under, rest) =>
        if negb (bool_decide (rest = [])) then None
        else if under && negb (underscores_ok hex (if hex then "0" else "^")%char body) then None
        else if hex then
          in_range (binary_normalize 53 1024 (signed neg (maValue a)) (e - 4 * maFrac a) neg)
        else in_range (f64_of_decimal neg (maValue a) (e - maFrac a))
    end.

Definition ParseFloat (s : text) : option float64 :=
  match special s with Some x => Some x | None => readFloat s end.

(** ** Durations *)

Definition unitMap : list (text * Z) :=
  [(txt "ns", Nanosecond); (txt "us", Microsecond);
   (map ascii_of_N [194; 181; 115]%N, Microsecond); (map ascii_of_N [206; 188; 115]%N, Microsecond);
   (txt "ms", Millisecond); (txt "s", Second); (txt "m", Minute); (txt "h", Hour)].
Definition unit_of (u : text) : option Z :=
  match List.find (fun p => bool_decide (fst p = u)) unitMap with Some (_, v) => Some v | None => None end.

(** [leadingInt]: an error once the value exceeds [2^63]. *)
Fixpoint leadingInt (x : Z) (s : text) : option (Z * text) :=
  match s with
  | c :: r =>
      if is_digit c then
        if two63 / 10 <? x then None
        else
          let x := x * 10 + digit_val c in
          if two63 <? x then None else leadingInt x r
      else Some (x, s)
  | [] => Some (x, s)
  end.

(** [leadingFraction]: excess digits are dropped. *)
Fixpoint leadingFraction (x : Z) (scale : float64) (overflow : bool) (s : text) : Z * float64 * text :=
  match s with
  | c :: r =>
      if is_digit c then
        if overflow || (MaxInt64 / 10 <? x) then leadingFraction x scale true r
        else
          let y := x * 10 + digit_val c in
          if two63 <? y then leadingFraction x scale true r
          else leadingFraction y (f64_mul scale (f64_of_Z 10)) false r
      else (x, scale, s)
  | [] => (x, scale, s)
  end.

(** The characters of a unit: up to a digit or a point. *)
Fixpoint take_unit (s : text) : text * text :=
  match s with
  | c :: r => if Ascii.eqb c "." || is_digit c then ([], s) else let '(u, r) := take_unit r in (c :: u, r)
  | [] => ([], [])
  end.

(** One number with its unit. *)
Definition duration_part (s : text) : option (Z * text) :=
  match s with
  | [] => None
  | c :: _ =>
      if negb (Ascii.eqb c "." || is_digit c) then None
      else
        '(v, r) ← leadingInt 0 s;
        let pre := negb (len s =? len r) in
        let '(f, scale, post, r) :=
          match r with
          | p :: r' =>
              if Ascii.eqb p "." then
                let '(f, scale, r'') := leadingFraction 0 (f64_of_Z 1) false r' in
                (f, scale, negb (len r' =? len r''), r'')
              else (0, f64_of_Z 1, false, r)
          | [] => (0, f64_of_Z 1, false, r)
          end in
        if negb pre && negb post then None
        else
          let '(u, r) := take_unit r in
          unit ← unit_of u;
          if two63 / unit <? v then None
          else
            let v := v * unit in
            let v := if 0 <? f then v + f64_to_int (f64_mul (f64_of_Z f) (f64_div (f64_of_Z unit) scale)) else v in
            if two63 <? v then None else Some (v, r)
  end.

(** Every part consumes a character, so the length is enough fuel. *)
Fixpoint duration_parts (fuel : nat) (d : Z) (s : text) : option Z :=
  match fuel with
  | O => None
  | S fuel =>
      match s with
      | [] => Some d
      | _ =>
          '(v, r) ← duration_part s;
          let d := u64 (d + v) in
          if two63 <? d then None else duration_parts fuel d r
      end
  end.

Definition ParseDuration (s : text) : option Z :=
  let '(neg, s) := split_sign s in
  if bool_decide (s = txt "0") then Some 0
  else if bool_decide (s = []) then None
  else
    d ← duration_parts (S (length s)) 0 s;
    if neg : bool then Some (i64 (- d))
    else if MaxInt64 <? d then None else Some d.

Example ParseDuration_examples :
  map (fun s => ParseDuration (txt s)) ["250ms"; "1h30m"; "-1.5h"; "5"; "0"; ".5s"; "1.0000000001h"; "2562048h"; "3s "] =
  [Some (250 * Millisecond); Some (90 * Minute); Some (- (90 * Minute)); None; Some 0; Some (500 * Millisecond);
   Some (Hour + 360); None; None].
Proof. vm_compute. reflexivity. Qed.

Example ParseFloat_examples :
  map (fun s => ParseFloat (txt s)) ["0.5"; "-3e2"; "1_000"; "0x1p-2"; "Inf"; "nan"; "1e999"; "_1"; "1e"; ".5"; "."; "-nan"] =
  [Some (f64_lit 1 2); Some (f64_of_Z (-300)); Some (f64_of_Z 1000); Some (f64_lit 1 4); Some (S754_infinity false);
   Some S754_nan; None; None; None; Some (f64_lit 1 2); None; None].
Proof. vm_compute. reflexivity. Qed.

Example Atoi_examples :
  map (fun s => Atoi (txt s)) ["12"; "-7"; "+3"; ""; "-"; "1_0"; "9223372036854775808"; "-9223372036854775808"] =
  [Some 12; Some (-7); Some 3; None; None; None; None; Some (-9223372036854775808)].
Proof. vm_compute. reflexivity. Qed.
