(* ===== verification/Config.v ===== *)
(** * Configuration: [internal/config/config.go]

    The environment is a map from names to texts; a dotenv file is the list of
    lines its scanner yields, [None] when it cannot be opened.  [Load] returns the
    configuration or what the error joins: the names whose values do not parse,
    or the checks that fail. *)

From Stdlib Require Import Ascii.
From S2P Require Import Prelude Money GoTime Decimal Float64 Json Strconv StableSort.

Record Config := mkConfig {
  cfGeneratorSeed : Z; cfSymbol : text; cfTradesPerSecond : float64; cfBookRefreshHz : float64;
  cfBookLevels : Z; cfBookDeltaWindow : Z; cfHistoryLimitMax : Z; cfWarmupSpan : Z; cfWarmupMaxEvents : Z;
  cfVolatilityBurstRate : float64; cfRecentTradesCap : Z; cfHTTPAddr : text; cfWSPath : text;
  cfWSReadLimitBytes : Z; cfWSClientMsgPerSec : Z; cfHTTPReadTimeout : Z; cfHTTPWriteTimeout : Z;
  cfShutdownGrace : Z; cfTierFullMaxRTTMs : float64; cfTierFullMaxJitterMs : float64;
  cfTierMinimalMinRTTMs : float64; cfTierMinimalMinJitterMs : float64; cfTierRateFullPerSec : float64;
  cfTierRateDegradedPerSec : float64; cfTierRateMinimalPerSec : float64; cfTierDegradeStreak : Z;
  cfTierRecoverStreak : Z; cfHealthReportHold : Z; cfHealthReportDegrade : Z; cfHealthWatchdog : Z;
  cfSessionOutboundCap : Z; cfSessionWriteTimeout : Z; cfMaxSessionSubscriptions : Z; cfMetricsEnabled : bool;
  cfMetricsDriver : text; cfMetricsDBPath : text; cfMetricsQueueCapacity : Z; cfMetricsBatchSize : Z;
  cfMetricsFlushInterval : Z; cfMetricsRetentionEnabled : bool; cfMetricsRetentionLatency : Z;
  cfMetricsRetentionEvents : Z; cfMetricsRetentionSessions : Z; cfMetricsPruneInterval : Z;
  cfMetricsPruneBatch : Z; cfEnableDebugControls : bool; cfDebugBuild : bool; cfLogLevel : text }.

Definition envKeys : list string :=
  ["GENERATOR_SEED"; "SYMBOL"; "TRADES_PER_SECOND"; "BOOK_REFRESH_HZ"; "BOOK_LEVELS"; "BOOK_DELTA_WINDOW";
   "HISTORY_LIMIT_MAX"; "WARMUP_SPAN"; "WARMUP_MAX_EVENTS"; "VOLATILITY_BURST_RATE"; "RECENT_TRADES_CAPACITY";
   "HTTP_ADDR"; "WS_PATH"; "WS_READ_LIMIT_BYTES"; "WS_CLIENT_MSG_PER_SEC"; "HTTP_READ_TIMEOUT";
   "HTTP_WRITE_TIMEOUT"; "SHUTDOWN_GRACE"; "TIER_FULL_MAX_RTT_MS"; "TIER_FULL_MAX_JITTER_MS";
   "TIER_MINIMAL_MIN_RTT_MS"; "TIER_MINIMAL_MIN_JITTER_MS"; "TIER_RATE_FULL_PER_SEC";
   "TIER_RATE_DEGRADED_PER_SEC"; "TIER_RATE_MINIMAL_PER_SEC"; "TIER_DEGRADE_STREAK"; "TIER_RECOVER_STREAK";
   "HEALTH_REPORT_HOLD"; "HEALTH_REPORT_DEGRADE"; "HEALTH_WATCHDOG_INTERVAL"; "SESSION_OUTBOUND_CAPACITY";
   "SESSION_WRITE_TIMEOUT"; "MAX_SESSION_SUBSCRIPTIONS"; "METRICS_ENABLED"; "METRICS_DRIVER";
   "METRICS_DB_PATH"; "METRICS_QUEUE_CAPACITY"; "METRICS_BATCH_SIZE"; "METRICS_FLUSH_INTERVAL";
   "METRICS_RETENTION_ENABLED"; "METRICS_RETENTION_LATENCY"; "METRICS_RETENTION_EVENTS";
   "METRICS_RETENTION_SESSIONS"; "METRICS_PRUNE_INTERVAL"; "METRICS_PRUNE_BATCH"; "ENABLE_DEBUG_CONTROLS";
   "DEBUG_BUILD"; "LOG_LEVEL"].

(** [sort.Strings]: bytewise order. *)
Definition string_less (x y : string) : bool :=
  match String.compare x y with Lt => true | _ => false end.
Definition EnvKeys : list string := stable_sort string_less envKeys.

Definition Default : Config :=
  mkConfig 20260917 (txt "BTCUSDT") (f64_of_Z 10) (f64_of_Z 10) 100 15 500 (720 * Hour) 1000000 (f64_of_Z 4) 200
    (txt "0.0.0.0:8080") (txt "/ws") (16 * 1024) 20 (10 * Second) (15 * Second) (5 * Second) (f64_of_Z 150)
    (f64_of_Z 50) (f64_of_Z 500) (f64_of_Z 150) (f64_of_Z 10) (f64_of_Z 2) (f64_lit 5 10) 3 5 (5 * Second)
    (10 * Second) (250 * Millisecond) 256 (5 * Second) 8 true (txt "sqlite") (txt "./data/pulsetrade.db")
    4096 128 (250 * Millisecond) true (24 * Hour) (168 * Hour) (2160 * Hour) (10 * Minute) 5000 true true
    (txt "info").

(** ** Reading values *)

Abbreviation Env := (gmap string text).

(** The reader: the trimmed values, and the names that failed so far. *)
Definition Reader (A : Type) : Type := Env -> list string -> A * list string.
#[global] Instance reader_ret : MRet Reader := fun A a values errs => (a, errs).
#[global] Instance reader_bind : MBind Reader := fun A B f m values errs =>
  let '(a, errs) := m values errs in f a values errs.

Definition r_str (key : string) (def : text) : Reader text := fun values errs =>
  (default def (values !! key), errs).
(** The other readers differ in the parser only. *)
Definition parsed {A} (parse : text -> option A) (key : string) (def : A) : Reader A := fun values errs =>
  match values !! key with
  | None => (def, errs)
  | Some v => match parse v with Some a => (a, errs) | None => (def, errs ++ [key]) end
  end.
Definition r_int : string -> Z -> Reader Z := parsed Atoi.
Definition r_int64 : string -> Z -> Reader Z := parsed Atoi.
Definition r_float : string -> float64 -> Reader float64 := parsed ParseFloat.
Definition r_boolean : string -> bool -> Reader bool := parsed ParseBool.
Definition r_duration : string -> Z -> Reader Z := parsed ParseDuration.

(** ** The dotenv file *)

Definition cut_at (c : ascii) (s : text) : option (text * text) :=
  i ← index_byte c s; Some (take i s, drop (S i) s).

(** [strings.Trim] with the two quote characters. *)
Definition quotes : list text := [[ascii_of_N 34]; [ascii_of_N 39]].
Definition trim_quotes (s : text) : text :=
  let s := trim_left (length s) quotes s in rev (trim_left (length s) quotes (rev s)).

(** [os.Setenv] refuses an empty name, a name with [=] or NUL, a value with NUL. *)
Definition has_byte (c : ascii) (s : text) : bool := existsb (Ascii.eqb c) s.
Definition setenv_ok (key value : text) : bool :=
  negb (bool_decide (key = [])) && negb (has_byte "=" key) && negb (has_byte "000" key) &&
  negb (has_byte "000" value).

Fixpoint loadDotEnv (env : Env) (lines : list text) (override : bool) : Env :=
  match lines with
  | [] => env
  | raw :: lines =>
      let line := TrimSpace raw in
      if bool_decide (line = []) || match strip_prefix (txt "#") line with Some _ => true | None => false end
      then loadDotEnv env lines override
      else
        match cut_at "=" line with
        | None => loadDotEnv env lines override
        | Some (key, value) =>
            let key := TrimSpace key in
            let value := trim_quotes (TrimSpace value) in
            let name := String.string_of_list_ascii key in
            if match env !! name with Some _ => negb override | None => false end
            then loadDotEnv env lines override
            else if setenv_ok key value then loadDotEnv (<[name := value]> env) lines override
            else env
        end
  end.

(** ** Checks *)

Definition require (cond : bool) (message : string) : list string := if cond then [] else [message].

(** [x > 0], [x <= n]. *)
Definition pos (x : float64) : bool := f64_ltb (f64_of_Z 0) x.
Definition at_most (n : Z) (x : float64) : bool := f64_leb x (f64_of_Z n).
Definition gt (x y : float64) : bool := f64_ltb y x.
Definition is_empty (s : text) : bool := bool_decide (s = []).

(** Each check is named by the head of its message. *)
Definition Validate (c : Config) : list string :=
  require (negb (is_empty (cfSymbol c))) "SYMBOL" ++
  require (pos (cfTradesPerSecond c) && at_most 200 (cfTradesPerSecond c)) "TRADES_PER_SECOND" ++
  require (pos (cfBookRefreshHz c) && at_most 100 (cfBookRefreshHz c)) "BOOK_REFRESH_HZ" ++
  require (15 <=? cfBookLevels c) "BOOK_LEVELS" ++
  require (10 <=? cfBookDeltaWindow c) "BOOK_DELTA_WINDOW" ++
  require (cfBookDeltaWindow c <? cfBookLevels c) "BOOK_DELTA_WINDOW < BOOK_LEVELS" ++
  require ((0 <? cfHistoryLimitMax c) && (cfHistoryLimitMax c <=? 1000)) "HISTORY_LIMIT_MAX" ++
  require (0 <? cfWarmupSpan c) "WARMUP_SPAN" ++
  require (0 <? cfWarmupMaxEvents c) "WARMUP_MAX_EVENTS" ++
  require (50 <=? cfRecentTradesCap c) "RECENT_TRADES_CAPACITY" ++
  require (negb (is_empty (cfHTTPAddr c))) "HTTP_ADDR" ++
  require (match cfWSPath c with a :: _ => Ascii.eqb a "/" | [] => false end) "WS_PATH" ++
  require (1024 <=? cfWSReadLimitBytes c) "WS_READ_LIMIT_BYTES" ++
  require (0 <? cfWSClientMsgPerSec c) "WS_CLIENT_MSG_PER_SEC" ++
  require ((0 <? cfHTTPReadTimeout c) && (0 <? cfHTTPWriteTimeout c)) "HTTP timeouts" ++
  require (0 <? cfShutdownGrace c) "SHUTDOWN_GRACE" ++
  require (pos (cfTierFullMaxRTTMs c)) "TIER_FULL_MAX_RTT_MS" ++
  require (gt (cfTierMinimalMinRTTMs c) (cfTierFullMaxRTTMs c)) "TIER_MINIMAL_MIN_RTT_MS" ++
  require (gt (cfTierMinimalMinJitterMs c) (cfTierFullMaxJitterMs c)) "TIER_MINIMAL_MIN_JITTER_MS" ++
  require (pos (cfTierRateFullPerSec c) && pos (cfTierRateDegradedPerSec c) && pos (cfTierRateMinimalPerSec c))
    "tier target rates positive" ++
  require (gt (cfTierRateFullPerSec c) (cfTierRateDegradedPerSec c) &&
           gt (cfTierRateDegradedPerSec c) (cfTierRateMinimalPerSec c)) "tier target rates decreasing" ++
  require (1 <=? cfTierDegradeStreak c) "TIER_DEGRADE_STREAK" ++
  require (1 <=? cfTierRecoverStreak c) "TIER_RECOVER_STREAK" ++
  require (0 <? cfHealthReportHold c) "HEALTH_REPORT_HOLD" ++
  require (cfHealthReportHold c <? cfHealthReportDegrade c) "HEALTH_REPORT_DEGRADE" ++
  require (0 <? cfHealthWatchdog c) "HEALTH_WATCHDOG_INTERVAL" ++
  require (16 <=? cfSessionOutboundCap c) "SESSION_OUTBOUND_CAPACITY" ++
  require (0 <? cfSessionWriteTimeout c) "SESSION_WRITE_TIMEOUT" ++
  require (1 <=? cfMaxSessionSubscriptions c) "MAX_SESSION_SUBSCRIPTIONS" ++
  require (is_one_of ["sqlite"; "memory"] (cfMetricsDriver c)) "METRICS_DRIVER" ++
  (if cfMetricsEnabled c then
     require (negb (is_empty (cfMetricsDBPath c)) || is_one_of ["memory"] (cfMetricsDriver c)) "METRICS_DB_PATH" ++
     require (64 <=? cfMetricsQueueCapacity c) "METRICS_QUEUE_CAPACITY" ++
     require (1 <=? cfMetricsBatchSize c) "METRICS_BATCH_SIZE" ++
     require (0 <? cfMetricsFlushInterval c) "METRICS_FLUSH_INTERVAL" ++
     require (1 <=? cfMetricsPruneBatch c) "METRICS_PRUNE_BATCH"
   else []) ++
  require (is_one_of ["debug"; "info"; "warn"; "error"] (cfLogLevel c)) "LOG_LEVEL".

Definition DebugControlsActive (c : Config) : bool := cfDebugBuild c && cfEnableDebugControls c.

(** ** Load *)

Definition read_config (cfg : Config) (debugBuild : bool) : Reader Config :=
  vGeneratorSeed ← r_int64 "GENERATOR_SEED" (cfGeneratorSeed cfg);
  vSymbol ← r_str "SYMBOL" (cfSymbol cfg);
  vTradesPerSecond ← r_float "TRADES_PER_SECOND" (cfTradesPerSecond cfg);
  vBookRefreshHz ← r_float "BOOK_REFRESH_HZ" (cfBookRefreshHz cfg);
  vBookLevels ← r_int "BOOK_LEVELS" (cfBookLevels cfg);
  vBookDeltaWindow ← r_int "BOOK_DELTA_WINDOW" (cfBookDeltaWindow cfg);
  vHistoryLimitMax ← r_int "HISTORY_LIMIT_MAX" (cfHistoryLimitMax cfg);
  vWarmupSpan ← r_duration "WARMUP_SPAN" (cfWarmupSpan cfg);
  vWarmupMaxEvents ← r_int "WARMUP_MAX_EVENTS" (cfWarmupMaxEvents cfg);
  vVolatilityBurstRate ← r_float "VOLATILITY_BURST_RATE" (cfVolatilityBurstRate cfg);
  vRecentTradesCap ← r_int "RECENT_TRADES_CAPACITY" (cfRecentTradesCap cfg);
  vHTTPAddr ← r_str "HTTP_ADDR" (cfHTTPAddr cfg);
  vWSPath ← r_str "WS_PATH" (cfWSPath cfg);
  vWSReadLimitBytes ← r_int64 "WS_READ_LIMIT_BYTES" (cfWSReadLimitBytes cfg);
  vWSClientMsgPerSec ← r_int "WS_CLIENT_MSG_PER_SEC" (cfWSClientMsgPerSec cfg);
  vHTTPReadTimeout ← r_duration "HTTP_READ_TIMEOUT" (cfHTTPReadTimeout cfg);
  vHTTPWriteTimeout ← r_duration "HTTP_WRITE_TIMEOUT" (cfHTTPWriteTimeout cfg);
  vShutdownGrace ← r_duration "SHUTDOWN_GRACE" (cfShutdownGrace cfg);
  vTierFullMaxRTTMs ← r_float "TIER_FULL_MAX_RTT_MS" (cfTierFullMaxRTTMs cfg);
  vTierFullMaxJitterMs ← r_float "TIER_FULL_MAX_JITTER_MS" (cfTierFullMaxJitterMs cfg);
  vTierMinimalMinRTTMs ← r_float "TIER_MINIMAL_MIN_RTT_MS" (cfTierMinimalMinRTTMs cfg);
  vTierMinimalMinJitterMs ← r_float "TIER_MINIMAL_MIN_JITTER_MS" (cfTierMinimalMinJitterMs cfg);
  vTierRateFullPerSec ← r_float "TIER_RATE_FULL_PER_SEC" (cfTierRateFullPerSec cfg);
  vTierRateDegradedPerSec ← r_float "TIER_RATE_DEGRADED_PER_SEC" (cfTierRateDegradedPerSec cfg);
  vTierRateMinimalPerSec ← r_float "TIER_RATE_MINIMAL_PER_SEC" (cfTierRateMinimalPerSec cfg);
  vTierDegradeStreak ← r_int "TIER_DEGRADE_STREAK" (cfTierDegradeStreak cfg);
  vTierRecoverStreak ← r_int "TIER_RECOVER_STREAK" (cfTierRecoverStreak cfg);
  vHealthReportHold ← r_duration "HEALTH_REPORT_HOLD" (cfHealthReportHold cfg);
  vHealthReportDegrade ← r_duration "HEALTH_REPORT_DEGRADE" (cfHealthReportDegrade cfg);
  vHealthWatchdog ← r_duration "HEALTH_WATCHDOG_INTERVAL" (cfHealthWatchdog cfg);
  vSessionOutboundCap ← r_int "SESSION_OUTBOUND_CAPACITY" (cfSessionOutboundCap cfg);
  vSessionWriteTimeout ← r_duration "SESSION_WRITE_TIMEOUT" (cfSessionWriteTimeout cfg);
  vMaxSessionSubscriptions ← r_int "MAX_SESSION_SUBSCRIPTIONS" (cfMaxSessionSubscriptions cfg);
  vMetricsEnabled ← r_boolean "METRICS_ENABLED" (cfMetricsEnabled cfg);
  vMetricsDriver ← r_str "METRICS_DRIVER" (cfMetricsDriver cfg);
  vMetricsDBPath ← r_str "METRICS_DB_PATH" (cfMetricsDBPath cfg);
  vMetricsQueueCapacity ← r_int "METRICS_QUEUE_CAPACITY" (cfMetricsQueueCapacity cfg);
  vMetricsBatchSize ← r_int "METRICS_BATCH_SIZE" (cfMetricsBatchSize cfg);
  vMetricsFlushInterval ← r_duration "METRICS_FLUSH_INTERVAL" (cfMetricsFlushInterval cfg);
  vMetricsRetentionEnabled ← r_boolean "METRICS_RETENTION_ENABLED" (cfMetricsRetentionEnabled cfg);
  vMetricsRetentionLatency ← r_duration "METRICS_RETENTION_LATENCY" (cfMetricsRetentionLatency cfg);
  vMetricsRetentionEvents ← r_duration "METRICS_RETENTION_EVENTS" (cfMetricsRetentionEvents cfg);
  vMetricsRetentionSessions ← r_duration "METRICS_RETENTION_SESSIONS" (cfMetricsRetentionSessions cfg);
  vMetricsPruneInterval ← r_duration "METRICS_PRUNE_INTERVAL" (cfMetricsPruneInterval cfg);
  vMetricsPruneBatch ← r_int "METRICS_PRUNE_BATCH" (cfMetricsPruneBatch cfg);
  vEnableDebugControls ← r_boolean "ENABLE_DEBUG_CONTROLS" (cfEnableDebugControls cfg);
  vLogLevel ← r_str "LOG_LEVEL" (cfLogLevel cfg);
  mret (mkConfig vGeneratorSeed vSymbol vTradesPerSecond vBookRefreshHz vBookLevels vBookDeltaWindow vHistoryLimitMax
    vWarmupSpan vWarmupMaxEvents vVolatilityBurstRate vRecentTradesCap vHTTPAddr vWSPath vWSReadLimitBytes
    vWSClientMsgPerSec vHTTPReadTimeout vHTTPWriteTimeout vShutdownGrace vTierFullMaxRTTMs
    vTierFullMaxJitterMs vTierMinimalMinRTTMs vTierMinimalMinJitterMs vTierRateFullPerSec
    vTierRateDegradedPerSec vTierRateMinimalPerSec vTierDegradeStreak vTierRecoverStreak vHealthReportHold
    vHealthReportDegrade vHealthWatchdog vSessionOutboundCap vSessionWriteTimeout vMaxSessionSubscriptions
    vMetricsEnabled vMetricsDriver vMetricsDBPath vMetricsQueueCapacity vMetricsBatchSize
    vMetricsFlushInterval vMetricsRetentionEnabled vMetricsRetentionLatency vMetricsRetentionEvents
    vMetricsRetentionSessions vMetricsPruneInterval vMetricsPruneBatch vEnableDebugControls debugBuild
    vLogLevel).

Inductive LoadError :=
| ErrUnparsed (keys : list string)
| ErrChecks (rules : list string).

(** The environment after the dotenv file, and the build flag, which is read
    before. *)
Definition debug_build (env : Env) (def : bool) : bool :=
  match env !! "DEBUG_BUILD" with
  | Some v => default def (ParseBool (TrimSpace v))
  | None => def
  end.
Definition load_values (env : Env) : Env :=
  list_to_map (omap (fun k => (fun v => (k, TrimSpace v)) <$> env !! k) envKeys).

Definition effective_env (env : Env) (debugBuild : bool) (dotenv : option (list text)) : Env :=
  if debugBuild then match dotenv with Some ls => loadDotEnv env ls false | None => env end else env.

Definition Load (env : Env) (dotenv : option (list text)) : Config + LoadError :=
  let cfg := Default in
  let debugBuild := debug_build env (cfDebugBuild cfg) in
  let env := effective_env env debugBuild dotenv in
  let '(cfg, errs) := read_config cfg debugBuild (load_values env) [] in
  match errs with
  | _ :: _ => inr (ErrUnparsed errs)
  | [] => match Validate cfg with [] => inl cfg | rules => inr (ErrChecks rules) end
  end.

Example Load_defaults : Load ∅ None = inl Default.
Proof. vm_compute. reflexivity. Qed.
