(* ===== verification/Startup.v ===== *)
(** * Startup: the configuration handed to the components ([cmd/server/main.go])

    What [main] and [run] build from a loaded configuration, what they log on the
    way, and the exit code; the steps of [run] are in [Lifecycle]. *)

From S2P Require Import Prelude Money GoTime Decimal Domain Float64 Config.
From S2P Require Tier Feed Engine MetricsStore Registry Manager Websocket Log.

(** One engine per market of the roster. *)
Definition engine_config (cfg : Config) (sym : Symbol) : Engine.Config :=
  Engine.mkConfig sym (DerivedSeed (cfGeneratorSeed cfg) (ID sym)) (cfBookLevels cfg) (cfBookDeltaWindow cfg)
    (cfBookRefreshHz cfg) (cfWarmupMaxEvents cfg) (cfRecentTradesCap cfg) (cfHistoryLimitMax cfg)
    (cfVolatilityBurstRate cfg) (cfSessionOutboundCap cfg).
Definition engine_configs (cfg : Config) : list Engine.Config := map (engine_config cfg) AllSymbols.

(** [buildProvider] without the replay fixture and without faults; the stream
    buffer is left to its default. *)
Definition buildProvider (cfg : Config) (symbol : Symbol) (seed : Z) : Feed.SynConfig :=
  Feed.mkSyn symbol seed (cfTradesPerSecond cfg) (cfWarmupSpan cfg) (cfWarmupMaxEvents cfg) (cfVolatilityBurstRate cfg)
    (cfBookLevels cfg) 0.

Definition buildPolicy (cfg : Config) : Tier.DefaultPolicy :=
  Tier.NewDefaultPolicy
    (Tier.mkThresholds (cfTierFullMaxRTTMs cfg) (cfTierFullMaxJitterMs cfg) (cfTierMinimalMinRTTMs cfg)
       (cfTierMinimalMinJitterMs cfg) (cfTierDegradeStreak cfg) (cfTierRecoverStreak cfg)
       (cfHealthReportHold cfg) (cfHealthReportDegrade cfg))
    (cfTierRateFullPerSec cfg) (cfTierRateDegradedPerSec cfg) (cfTierRateMinimalPerSec cfg).

Definition metricsConfig (cfg : Config) : MetricsStore.MetricsConfig :=
  MetricsStore.mkMetricsConfig (cfMetricsEnabled cfg) (cfMetricsDriver cfg) (cfMetricsDBPath cfg)
    (cfMetricsQueueCapacity cfg) (cfMetricsBatchSize cfg) (cfMetricsFlushInterval cfg)
    (cfMetricsRetentionEnabled cfg) (cfMetricsRetentionLatency cfg) (cfMetricsRetentionEvents cfg)
    (cfMetricsRetentionSessions cfg) (cfMetricsPruneInterval cfg) (cfMetricsPruneBatch cfg).

(** The delivery manager over the registry of the running engines. *)
Definition manager_config (cfg : Config) (registry : Registry.Registry (E := string)) (symbol : Symbol) : Manager.ManagerConfig :=
  Manager.mkManagerConfig (Some registry) symbol (Some (buildPolicy cfg)) ∅ (cfSessionOutboundCap cfg)
    (cfWSClientMsgPerSec cfg) (cfBookDeltaWindow cfg) (DebugControlsActive cfg).

(** The WebSocket endpoint: no rule on origins, no read timeouts of its own. *)
Definition ws_config (cfg : Config) : Websocket.WsConfig :=
  Websocket.mkWsConfig (String.string_of_list_ascii (cfWSPath cfg)) (cfWSReadLimitBytes cfg)
    (cfSessionWriteTimeout cfg) 0 0.

(** ** The log of the way up *)

Definition version : string := "1.0.0".
Definition run_logger (cfg : Config) : option Log.Logger := Log.New (cfLogLevel cfg) version (cfDebugBuild cfg) (Some Log.Stdout).
Definition config_loaded (cfg : Config) : list Log.Attr :=
  [("debugBuild", Log.VBool (cfDebugBuild cfg)); ("debugControls", Log.VBool (DebugControlsActive cfg));
   ("metricsDriver", Log.VString (String.string_of_list_ascii (cfMetricsDriver cfg)))]%string.
(** Logged once the symbol of the configuration is known. *)
Definition server_starting (cfg : Config) (symbol : Symbol) : list Log.Attr :=
  [("seed", Log.VNumber (cfGeneratorSeed cfg)); ("symbol", Log.VString (ID symbol))]%string.

(** [main]: the exit code, and the last line of a run that failed, with the
    text of its error, on the error stream. *)
Definition main_exit (failure : option string) (now : Time) : Z * Log.Emitted :=
  match failure with
  | None => (0, Log.NotLogged)
  | Some err =>
      (1, match Log.New (txt "error") version false (Some Log.Stderr) with
          | Some l => Log.log l Log.LevelError "startup_failed" [("error", Log.VString err); ("fatal", Log.VBool true)]%string now
          | None => Log.LogPanics
          end)
  end.

(** A run that failed says so, whatever level is configured. *)
Lemma failure_logged err now :
  main_exit (Some err) now =
    (1, Log.Logged ([(Log.TimeKey, Log.clock_text now); (Log.LevelKey, Log.VString "ERROR");
                     (Log.MessageKey, Log.VString "startup_failed")] ++
                    Log.service_attrs version ++ [("error"%string, Log.VString err); ("fatal"%string, Log.VBool true)])).
Proof. reflexivity. Qed.

(** The interval of the refresh ticker of [Engine.Run]; [time.NewTicker] panics
    when it is not positive. *)
Definition refreshEvery (c : Engine.Config) : Z := f64_to_int (f64_div (f64_of_Z Second) (Engine.cfBookRefreshHz c)).

(** ** Waiting for the warmup *)

Inductive WarmupWait := Warm (polls : nat) | TimedOut | Cancelled.

(** Poll [k] finds each engine warm or not, before the deadline or not, and the
    context still open or not.  A poll is followed by a pause of 20 ms and the
    budget is ten seconds, so 501 polls are enough. *)
Fixpoint waitForWarmup (fuel k : nat) (warm : nat -> list bool) (expired cancelled : nat -> bool) : option WarmupWait :=
  match fuel with
  | O => None
  | S fuel =>
      if expired k then Some TimedOut
      else if forallb (fun b => b) (warm k) then Some (Warm k)
      else if cancelled k then Some Cancelled
      else waitForWarmup fuel (S k) warm expired cancelled
  end.

(** The server starts in any case: the deadline ends the wait. *)
Lemma waitForWarmup_ends n warm expired cancelled :
  expired n = true -> exists r, waitForWarmup (S n) 0 warm expired cancelled = Some r.
Proof.
  intros Hn. enough (forall fuel k, (k <= n < k + fuel)%nat -> exists r, waitForWarmup fuel k warm expired cancelled = Some r)
    as Hw by (apply Hw; lia).
  induction fuel as [|fuel IH]; intros k Hk; [lia|]. cbn [waitForWarmup].
  destruct (decide (k = n)) as [->|Hne]; [rewrite Hn; eauto|].
  destruct (expired k); [eauto|]. destruct (forallb _ _); [eauto|]. destruct (cancelled k); [eauto|]. apply IH. lia.
Qed.
