(* ===== verification/ConfigSpec.v ===== *)
(** * What a loaded configuration guarantees

    Every malformed value is reported, an exported variable always wins over the
    file, and a configuration that loads is taken over by the components: their
    own defaults replace no value that is validated, and five that are not when
    these are zero or negative. *)

From Stdlib Require Import Ascii SpecFloat.
From S2P Require Import Prelude Money GoTime Decimal Domain Float64 Json Rand Strconv StableSort Metrics MetricsStore Config Startup.
From S2P Require Tier Feed Engine FeedSpec LadderSpec Websocket Log.

(** ** Which names are reported *)

(** What each name is parsed as. *)
Inductive kind := KInt | KFloat | KBool | KDuration.
Definition is_some {A} (o : option A) : bool := match o with Some _ => true | None => false end.
Definition parses (k : kind) (v : text) : bool :=
  match k with
  | KInt => is_some (Atoi v) | KFloat => is_some (ParseFloat v) | KBool => is_some (ParseBool v)
  | KDuration => is_some (ParseDuration v)
  end.

Definition table : list (string * kind) :=
  [("GENERATOR_SEED", KInt); ("TRADES_PER_SECOND", KFloat); ("BOOK_REFRESH_HZ", KFloat); ("BOOK_LEVELS", KInt);
   ("BOOK_DELTA_WINDOW", KInt); ("HISTORY_LIMIT_MAX", KInt); ("WARMUP_SPAN", KDuration);
   ("WARMUP_MAX_EVENTS", KInt); ("VOLATILITY_BURST_RATE", KFloat); ("RECENT_TRADES_CAPACITY", KInt);
   ("WS_READ_LIMIT_BYTES", KInt); ("WS_CLIENT_MSG_PER_SEC", KInt); ("HTTP_READ_TIMEOUT", KDuration);
   ("HTTP_WRITE_TIMEOUT", KDuration); ("SHUTDOWN_GRACE", KDuration); ("TIER_FULL_MAX_RTT_MS", KFloat);
   ("TIER_FULL_MAX_JITTER_MS", KFloat); ("TIER_MINIMAL_MIN_RTT_MS", KFloat);
   ("TIER_MINIMAL_MIN_JITTER_MS", KFloat); ("TIER_RATE_FULL_PER_SEC", KFloat);
   ("TIER_RATE_DEGRADED_PER_SEC", KFloat); ("TIER_RATE_MINIMAL_PER_SEC", KFloat); ("TIER_DEGRADE_STREAK", KInt);
   ("TIER_RECOVER_STREAK", KInt); ("HEALTH_REPORT_HOLD", KDuration); ("HEALTH_REPORT_DEGRADE", KDuration);
   ("HEALTH_WATCHDOG_INTERVAL", KDuration); ("SESSION_OUTBOUND_CAPACITY", KInt);
   ("SESSION_WRITE_TIMEOUT", KDuration); ("MAX_SESSION_SUBSCRIPTIONS", KInt); ("METRICS_ENABLED", KBool);
   ("METRICS_QUEUE_CAPACITY", KInt); ("METRICS_BATCH_SIZE", KInt); ("METRICS_FLUSH_INTERVAL", KDuration);
   ("METRICS_RETENTION_ENABLED", KBool); ("METRICS_RETENTION_LATENCY", KDuration);
   ("METRICS_RETENTION_EVENTS", KDuration); ("METRICS_RETENTION_SESSIONS", KDuration);
   ("METRICS_PRUNE_INTERVAL", KDuration); ("METRICS_PRUNE_BATCH", KInt); ("ENABLE_DEBUG_CONTROLS", KBool)].

Definition malformed (values : Env) (e : string * kind) : bool :=
  match values !! e.1 with Some v => negb (parses e.2 v) | None => false end.

(** A reader that reports the malformed names of a list of entries. *)
Definition reports {A} (values : Env) (m : Reader A) (entries : list (string * kind)) : Prop :=
  forall errs, snd (m values errs) = errs ++ (List.filter (malformed values) entries).*1.

Lemma reports_ret {A} values (a : A) : reports values (mret a) [].
Proof. intros errs. cbn. by rewrite app_nil_r. Qed.

Lemma reports_bind {A B} values (m : Reader A) (f : A -> Reader B) l1 l2 :
  reports values m l1 -> (forall a, reports values (f a) l2) -> reports values (m ≫= f) (l1 ++ l2).
Proof.
  intros Hm Hf errs. unfold mbind, reader_bind. specialize (Hm errs). destruct (m values errs) as [a e]. cbn in Hm.
  by rewrite Hf, Hm, List.filter_app, fmap_app, app_assoc.
Qed.

Lemma reports_str {B} values key def (f : text -> Reader B) l :
  (forall a, reports values (f a) l) -> reports values (r_str key def ≫= f) l.
Proof. intros Hf errs. by apply Hf. Qed.

Lemma reports_parsed {A} values (parse : text -> option A) k key def :
  (forall v, is_some (parse v) = parses k v) -> reports values (parsed parse key def) [(key, k)].
Proof.
  intros Hp errs. unfold parsed. cbn [List.filter]. unfold malformed. cbn [fst snd].
  destruct (values !! key) as [v|]; cbn [negb]; [|by rewrite app_nil_r].
  rewrite <- Hp. destruct (parse v); cbn; [by rewrite app_nil_r|done].
Qed.

Lemma reports_int values key def : reports values (r_int key def) [(key, KInt)].
Proof. by apply reports_parsed. Qed.
Lemma reports_int64 values key def : reports values (r_int64 key def) [(key, KInt)].
Proof. by apply reports_parsed. Qed.
Lemma reports_float values key def : reports values (r_float key def) [(key, KFloat)].
Proof. by apply reports_parsed. Qed.
Lemma reports_boolean values key def : reports values (r_boolean key def) [(key, KBool)].
Proof. by apply reports_parsed. Qed.
Lemma reports_duration values key def : reports values (r_duration key def) [(key, KDuration)].
Proof. by apply reports_parsed. Qed.

(** One reader of the sequence: the head of the table is its entry. *)
Ltac read_next :=
  first [ apply reports_str; intro
        | match goal with |- reports _ _ (?e :: ?l) => change (e :: l) with ([e] ++ l) end;
          apply reports_bind; [first [ apply reports_int | apply reports_int64 | apply reports_float
                                     | apply reports_boolean | apply reports_duration ]|intro]
        | apply reports_ret ].

Lemma read_config_reports cfg b values : reports values (read_config cfg b) table.
Proof. unfold read_config, table. repeat read_next. Qed.

(** The table and the texts are all the names but the build flag. *)
Example table_complete :
  stable_sort string_less ("DEBUG_BUILD" :: table.*1 ++
    ["SYMBOL"; "HTTP_ADDR"; "WS_PATH"; "METRICS_DRIVER"; "METRICS_DB_PATH"; "LOG_LEVEL"]) = EnvKeys.
Proof. vm_compute. reflexivity. Qed.

(** ** The dotenv file *)

Lemma loadDotEnv_keeps env lines k v : env !! k = Some v -> loadDotEnv env lines false !! k = Some v.
Proof.
  revert env. induction lines as [|raw lines IH]; intros env Hk; cbn [loadDotEnv]; [done|].
  destruct (_ || _); [by apply IH|]. destruct (cut_at _ _) as [[key value]|]; [|by apply IH].
  set (name := String.string_of_list_ascii (TrimSpace key)). destruct (env !! name) eqn:E; cbn [negb]; [by apply IH|].
  destruct (setenv_ok _ _); [|done]. apply IH. rewrite lookup_insert_ne; [done|]. intros <-. congruence.
Qed.

Lemma effective_env_keeps env b dotenv k v : env !! k = Some v -> effective_env env b dotenv !! k = Some v.
Proof. intros Hk. unfold effective_env. destruct b, dotenv; try done. by apply loadDotEnv_keeps. Qed.

Lemma effective_env_false env dotenv : effective_env env false dotenv = env.
Proof. done. Qed.

Lemma envKeys_nodup : NoDup envKeys.
Proof. apply (bool_decide_unpack _). vm_compute. exact I. Qed.

Lemma load_values_lookup env k : load_values env !! k = if bool_decide (k ∈ envKeys) then TrimSpace <$> env !! k else None.
Proof.
  unfold load_values. pose proof envKeys_nodup as Hn. revert Hn. generalize envKeys as ks.
  induction ks as [|k' ks IH]; intros Hn; [done|]. apply NoDup_cons in Hn as [Hk' Hn]. specialize (IH Hn).
  destruct (decide (k = k')) as [<-|Hne].
  - rewrite (bool_decide_eq_true_2 (k ∈ k :: ks)) by by left. rewrite (bool_decide_eq_false_2 (k ∈ ks)) in IH by done.
    cbn [omap list_omap]. destruct (env !! k); cbn; [by rewrite lookup_insert_eq|exact IH].
  - replace (bool_decide (k ∈ k' :: ks)) with (bool_decide (k ∈ ks)).
    + rewrite <- IH. cbn. destruct (env !! k'); cbn; [by rewrite lookup_insert_ne|done].
    + apply bool_decide_ext. rewrite elem_of_cons. split; [by right|by intros [?|?]].
Qed.

(** ** What each field is read from *)

(** The value of a name: its text as the parser reads it, or the default. *)
Definition text_of (values : Env) (key : string) (def : text) : text := default def (values !! key).
Definition value_of {A} (values : Env) (parse : text -> option A) (key : string) (def : A) : A :=
  default def (values !! key ≫= parse).

Definition config_of (values : Env) (cfg : Config) (b : bool) : Config :=
  mkConfig
    (value_of values Atoi "GENERATOR_SEED" (cfGeneratorSeed cfg))
    (text_of values "SYMBOL" (cfSymbol cfg))
    (value_of values ParseFloat "TRADES_PER_SECOND" (cfTradesPerSecond cfg))
    (value_of values ParseFloat "BOOK_REFRESH_HZ" (cfBookRefreshHz cfg))
    (value_of values Atoi "BOOK_LEVELS" (cfBookLevels cfg))
    (value_of values Atoi "BOOK_DELTA_WINDOW" (cfBookDeltaWindow cfg))
    (value_of values Atoi "HISTORY_LIMIT_MAX" (cfHistoryLimitMax cfg))
    (value_of values ParseDuration "WARMUP_SPAN" (cfWarmupSpan cfg))
    (value_of values Atoi "WARMUP_MAX_EVENTS" (cfWarmupMaxEvents cfg))
    (value_of values ParseFloat "VOLATILITY_BURST_RATE" (cfVolatilityBurstRate cfg))
    (value_of values Atoi "RECENT_TRADES_CAPACITY" (cfRecentTradesCap cfg))
    (text_of values "HTTP_ADDR" (cfHTTPAddr cfg))
    (text_of values "WS_PATH" (cfWSPath cfg))
    (value_of values Atoi "WS_READ_LIMIT_BYTES" (cfWSReadLimitBytes cfg))
    (value_of values Atoi "WS_CLIENT_MSG_PER_SEC" (cfWSClientMsgPerSec cfg))
    (value_of values ParseDuration "HTTP_READ_TIMEOUT" (cfHTTPReadTimeout cfg))
    (value_of values ParseDuration "HTTP_WRITE_TIMEOUT" (cfHTTPWriteTimeout cfg))
    (value_of values ParseDuration "SHUTDOWN_GRACE" (cfShutdownGrace cfg))
    (value_of values ParseFloat "TIER_FULL_MAX_RTT_MS" (cfTierFullMaxRTTMs cfg))
    (value_of values ParseFloat "TIER_FULL_MAX_JITTER_MS" (cfTierFullMaxJitterMs cfg))
    (value_of values ParseFloat "TIER_MINIMAL_MIN_RTT_MS" (cfTierMinimalMinRTTMs cfg))
    (value_of values ParseFloat "TIER_MINIMAL_MIN_JITTER_MS" (cfTierMinimalMinJitterMs cfg))
    (value_of values ParseFloat "TIER_RATE_FULL_PER_SEC" (cfTierRateFullPerSec cfg))
    (value_of values ParseFloat "TIER_RATE_DEGRADED_PER_SEC" (cfTierRateDegradedPerSec cfg))
    (value_of values ParseFloat "TIER_RATE_MINIMAL_PER_SEC" (cfTierRateMinimalPerSec cfg))
    (value_of values Atoi "TIER_DEGRADE_STREAK" (cfTierDegradeStreak cfg))
    (value_of values Atoi "TIER_RECOVER_STREAK" (cfTierRecoverStreak cfg))
    (value_of values ParseDuration "HEALTH_REPORT_HOLD" (cfHealthReportHold cfg))
    (value_of values ParseDuration "HEALTH_REPORT_DEGRADE" (cfHealthReportDegrade cfg))
    (value_of values ParseDuration "HEALTH_WATCHDOG_INTERVAL" (cfHealthWatchdog cfg))
    (value_of values Atoi "SESSION_OUTBOUND_CAPACITY" (cfSessionOutboundCap cfg))
    (value_of values ParseDuration "SESSION_WRITE_TIMEOUT" (cfSessionWriteTimeout cfg))
    (value_of values Atoi "MAX_SESSION_SUBSCRIPTIONS" (cfMaxSessionSubscriptions cfg))
    (value_of values ParseBool "METRICS_ENABLED" (cfMetricsEnabled cfg))
    (text_of values "METRICS_DRIVER" (cfMetricsDriver cfg))
    (text_of values "METRICS_DB_PATH" (cfMetricsDBPath cfg))
    (value_of values Atoi "METRICS_QUEUE_CAPACITY" (cfMetricsQueueCapacity cfg))
    (value_of values Atoi "METRICS_BATCH_SIZE" (cfMetricsBatchSize cfg))
    (value_of values ParseDuration "METRICS_FLUSH_INTERVAL" (cfMetricsFlushInterval cfg))
    (value_of values ParseBool "METRICS_RETENTION_ENABLED" (cfMetricsRetentionEnabled cfg))
    (value_of values ParseDuration "METRICS_RETENTION_LATENCY" (cfMetricsRetentionLatency cfg))
    (value_of values ParseDuration "METRICS_RETENTION_EVENTS" (cfMetricsRetentionEvents cfg))
    (value_of values ParseDuration "METRICS_RETENTION_SESSIONS" (cfMetricsRetentionSessions cfg))
    (value_of values ParseDuration "METRICS_PRUNE_INTERVAL" (cfMetricsPruneInterval cfg))
    (value_of values Atoi "METRICS_PRUNE_BATCH" (cfMetricsPruneBatch cfg))
    (value_of values ParseBool "ENABLE_DEBUG_CONTROLS" (cfEnableDebugControls cfg))
    b
    (text_of values "LOG_LEVEL" (cfLogLevel cfg)).

Lemma bind_str {B} values key def (f : text -> Reader B) errs r :
  (forall e, fst (f (text_of values key def) values e) = r) -> fst ((r_str key def ≫= f) values errs) = r.
Proof. intros Hf. apply Hf. Qed.
Lemma bind_parsed {A B} values parse key (def : A) (f : A -> Reader B) errs r :
  (forall e, fst (f (value_of values parse key def) values e) = r) ->
  fst ((parsed parse key def ≫= f) values errs) = r.
Proof.
  intros Hf. unfold value_of in Hf. cbv [mbind reader_bind parsed]. destruct (values !! key) as [v|]; [|apply Hf].
  cbn in Hf. destruct (parse v); apply Hf.
Qed.

Lemma read_config_value cfg b values errs : fst (read_config cfg b values errs) = config_of values cfg b.
Proof.
  unfold read_config, r_int, r_int64, r_float, r_boolean, r_duration.
  repeat (first [apply bind_str | apply bind_parsed]; intros ?). reflexivity.
Qed.

#[local] Opaque read_config table.

Definition load_result (r : Config * list string) : Config + LoadError :=
  let '(cfg, errs) := r in
  match errs with
  | _ :: _ => inr (ErrUnparsed errs)
  | [] => match Validate cfg with [] => inl cfg | rules => inr (ErrChecks rules) end
  end.
Lemma Load_unfold env dotenv :
  Load env dotenv =
  load_result (read_config Default (debug_build env true)
    (load_values (effective_env env (debug_build env true) dotenv)) []).
Proof. reflexivity. Qed.

Lemma load_result_reports b values :
  let bad := (List.filter (malformed values) table).*1 in
  match load_result (read_config Default b values []) with
  | inr (ErrUnparsed keys) => keys = bad /\ bad <> []
  | inr (ErrChecks rules) => bad = [] /\ rules <> []
  | inl cfg => bad = [] /\ Validate cfg = [] /\ cfg = config_of values Default b
  end.
Proof.
  cbv zeta. pose proof (read_config_reports Default b values []) as Hr.
  pose proof (read_config_value Default b values []) as Hb.
  rewrite app_nil_l in Hr. destruct (read_config Default b values []) as [cfg errs]. cbn [fst snd] in Hr, Hb. subst errs.
  generalize (List.filter (malformed values) table).*1 as bad. intros [|k bad]; cbn [load_result]; [|done].
  destruct (Validate cfg) eqn:Ev; [done|split; [done|discriminate]].
Qed.

(** Configuration errors are complete, and the environment wins.  Loading
    fails to parse exactly when a recognised name has a malformed value, and
    then reports all such names, in order; otherwise it returns the
    configuration, each field read from its own variable or left at its default,
    or reports every check that fails.  A variable that is set
    keeps its value whatever the dotenv file holds; without a debug build the
    file is not read; and the build flag is the environment's own. *)
Theorem Load_reports env dotenv :
  let debugBuild := debug_build env true in
  let values := load_values (effective_env env debugBuild dotenv) in
  let bad := (List.filter (malformed values) table).*1 in
  match Load env dotenv with
  | inr (ErrUnparsed keys) => keys = bad /\ bad <> []
  | inr (ErrChecks rules) => bad = [] /\ rules <> []
  | inl cfg => bad = [] /\ Validate cfg = [] /\ cfg = config_of values Default debugBuild
  end /\
  (forall k v, k ∈ envKeys -> env !! k = Some v -> values !! k = Some (TrimSpace v)) /\
  (debugBuild = false -> Load env dotenv = Load env None).
Proof.
  cbv zeta. split; [|split].
  - rewrite Load_unfold. apply load_result_reports.
  - intros k v Hk Hv. rewrite load_values_lookup, bool_decide_eq_true_2 by done.
    by rewrite (effective_env_keeps _ _ _ _ _ Hv).
  - intros Hf. by rewrite !Load_unfold, Hf, !effective_env_false.
Qed.

(** ** Trimmed values stay as they are *)





(** ** Validated configurations *)










(** The configuration the store works with: what a duration of zero or less
    stands for is the store's choice. *)
Definition store_config (c : Config) : MetricsConfig :=
  mkMetricsConfig true (cfMetricsDriver c) (cfMetricsDBPath c) (cfMetricsQueueCapacity c) (cfMetricsBatchSize c)
    (cfMetricsFlushInterval c) (cfMetricsRetentionEnabled c)
    (if cfMetricsRetentionLatency c <=? 0 then 24 * Hour else cfMetricsRetentionLatency c)
    (if cfMetricsRetentionEvents c <=? 0 then 7 * 24 * Hour else cfMetricsRetentionEvents c)
    (if cfMetricsRetentionSessions c <=? 0 then 90 * 24 * Hour else cfMetricsRetentionSessions c)
    (if cfMetricsPruneInterval c <=? 0 then 10 * Minute else cfMetricsPruneInterval c) (cfMetricsPruneBatch c).



Section Ready.
Context {R : Type} `{Repository R}.

End Ready.

(** ** Concrete inputs *)

Definition demo_file : list text := map txt ["# local"; "BOOK_LEVELS=60"; "LOG_LEVEL = 'debug'"].

#[local] Instance no_driver : Repository unit := {
  WriteBatch u _ := (u, None); PruneForStore := None; ProvideOptions o := o }.



(** An exported name wins over the file, the file sets the others, and every
    malformed value is reported. *)
Definition bad_env : Env := <["BOOK_LEVELS" := txt "many"]> (<["WARMUP_SPAN" := txt "1 day"]> ∅).
Lemma Load_reports_witness :
  Load bad_env (Some demo_file) = inr (ErrUnparsed ["BOOK_LEVELS"; "WARMUP_SPAN"]) /\
  load_values (effective_env bad_env true (Some demo_file)) !! "BOOK_LEVELS" = Some (txt "many").
Proof.
  split; [vm_compute; reflexivity|].
  destruct (Load_reports bad_env (Some demo_file)) as (_ & Hwins & _).
  apply (Hwins "BOOK_LEVELS" (txt "many")); [|reflexivity].
  apply (bool_decide_unpack _). vm_compute. exact I.
Defined.

(** Values the checks let through: a streak that the capped counters cannot
    reach, a refresh rate whose ticker interval leaves the range, a burst rate
    that is not a number. *)
Example unchecked_values :
  let env := list_to_map [("TIER_DEGRADE_STREAK", txt "17"); ("BOOK_REFRESH_HZ", txt "1e-10");
                          ("VOLATILITY_BURST_RATE", txt "NaN")] : Env in
  match Load env None with
  | inl cfg => Tier.streak_cap < cfTierDegradeStreak cfg /\ refreshEvery (engine_config cfg BTCUSDT) = MinInt64 /\
               cfVolatilityBurstRate cfg = S754_nan
  | inr _ => False
  end.
Proof. vm_compute. split; [reflexivity|]. split; reflexivity. Qed.

(** Zeros that load and are replaced. *)
Example replaced_values :
  let env := list_to_map [("METRICS_RETENTION_LATENCY", txt "0s"); ("METRICS_PRUNE_INTERVAL", txt "0s");
                          ("VOLATILITY_BURST_RATE", txt "0")] : Env in
  match Load env None with
  | inl cfg => cfMetricsRetentionLatency cfg = 0 /\ mcRetentionLatency (store_config cfg) = 24 * Hour /\
               mcPruneInterval (store_config cfg) = 10 * Minute /\
               Feed.gnBurstRate (Feed.spGen (Feed.NewSynthetic NewPCG (buildProvider cfg BTCUSDT 1) zeroTime)) = f64_of_Z 4
  | inr _ => False
  end.
Proof. vm_compute. split_and!; reflexivity. Qed.

(** The build flag of the file is ignored. *)
Example dotenv_build_flag_ignored :
  match Load ∅ (Some [txt "DEBUG_BUILD=false"]) with
  | inl cfg => DebugControlsActive cfg = true
  | inr _ => False
  end.
Proof. vm_compute. reflexivity. Qed.
