(* ===== verification/TimeTextSpec.v ===== *)
(** * Rendered timestamps: exact to the millisecond, ordered as text

    Wire timestamps and the timestamp columns of the metrics database share one
    layout.  A rendered timestamp reads back as the instant truncated to its
    millisecond, by either parser; and comparing two rendered timestamps byte by
    byte compares the instants, which is what the windowed queries and the prune
    cutoff of the database rely on. *)

From Stdlib Require Import Ascii.
From S2P Require Import Prelude Money Decimal GoTime Wire TimeText.

(** ** Padded numbers *)

Lemma length_format_digits k fuel n :
  (0 < fuel)%nat -> 0 <= n < 10 ^ Z.of_nat (S k) -> (length (format_digits fuel n) <= S k)%nat.
Proof.
  revert k n. induction fuel as [|fuel IH]; [lia|]. intros k n _ Hn. cbn [format_digits].
  destruct (Z.ltb_spec n 10); [cbn; lia|]. rewrite length_app. cbn [length].
  destruct k as [|k]; [cbn in Hn; lia|]. destruct fuel as [|fuel]; [cbn; lia|].
  enough (length (format_digits (S fuel) (n / 10)) <= S k)%nat by lia. apply IH; [lia|].
  rewrite Nat2Z.inj_succ, Z.pow_succ_r in Hn by lia. split; [apply Z.div_pos; lia|apply Z.div_lt_upper_bound; lia].
Qed.

Definition digits_of (k : nat) (n : Z) (s : text) : Prop :=
  length s = k /\ forallb is_digit s = true /\ dec_value s = n.

Lemma padded_spec k n : (0 < k < 19)%nat -> 0 <= n < 10 ^ Z.of_nat k -> digits_of k n (padded (Z.of_nat k) n).
Proof.
  intros Hk Hn. destruct k as [|k]; [lia|].
  assert (Hu : in_u64 n).
  { unfold in_u64. pose proof (Z.pow_le_mono_r 10 (Z.of_nat (S k)) 18 ltac:(lia) ltac:(lia)).
    change (10 ^ 18) with 1000000000000000000 in *. lia. }
  destruct (FormatUint_spec n Hu) as (Hv & Hd & _).
  pose proof (length_format_digits k 20 n ltac:(lia) Hn) as Hl. fold (FormatUint n) in Hl.
  unfold digits_of, padded. destruct (repeat_zero_spec (Z.of_nat (S k) - len (FormatUint n))) as [Hz1 Hz2].
  rewrite length_app, forallb_app, dec_value_app, Hd, Hz1, Hz2, Hv.
  unfold repeatc, len. rewrite length_replicate. split_and!; [lia|done|lia].
Qed.

(** ** Order of texts *)

(** Go's [<] on strings. *)
Fixpoint text_ltb (a b : text) : bool :=
  match a, b with
  | _, [] => false
  | [], _ :: _ => true
  | x :: a, y :: b =>
      (N_of_ascii x <? N_of_ascii y)%N || ((N_of_ascii x =? N_of_ascii y)%N && text_ltb a b)
  end.

Lemma text_ltb_irrefl a : text_ltb a a = false.
Proof. induction a as [|x a IH]; [done|]. cbn. rewrite IH, andb_false_r, orb_false_r. apply N.ltb_irrefl. Qed.

Lemma N_of_ascii_inj x y : N_of_ascii x = N_of_ascii y -> x = y.
Proof. intros E. by rewrite <- (ascii_N_embedding x), <- (ascii_N_embedding y), E. Qed.

Lemma text_ltb_app a b s t :
  length a = length b ->
  text_ltb (a ++ s) (b ++ t) = text_ltb a b || (bool_decide (a = b) && text_ltb s t).
Proof.
  revert b. induction a as [|x a IH]; intros [|y b] Hl; try done. cbn [app text_ltb]. injection Hl as Hl.
  rewrite IH by done. destruct (N.eqb_spec (N_of_ascii x) (N_of_ascii y)) as [E|E]; cbn [andb].
  - apply N_of_ascii_inj in E as <-. rewrite N.ltb_irrefl. cbn [orb]. f_equal. f_equal.
    apply bool_decide_ext. split; congruence.
  - rewrite !orb_false_r, bool_decide_eq_false_2 by congruence. by rewrite orb_false_r.
Qed.

(** Digit strings of one length compare as numbers, and are equal when the
    numbers are. *)
Lemma digits_compare k n m a b :
  digits_of k n a -> digits_of k m b ->
  text_ltb a b = (n <? m) /\ bool_decide (a = b) = (n =? m).
Proof.
  intros (Ha & Hda & <-) (Hb & Hdb & <-). subst k. revert b Hb Hdb.
  induction a as [|x a IH] using rev_ind; intros b Hb Hdb.
  { by destruct b. }
  destruct b as [|y b _] using rev_ind; [rewrite length_app in Hb; cbn in Hb; lia|].
  rewrite !length_app in Hb. cbn [length] in Hb. rewrite forallb_app, andb_true_iff in Hda, Hdb.
  destruct Hda as [Hda Hx], Hdb as [Hdb Hy]. destruct (IH Hda b ltac:(lia) Hdb) as [IH1 IH2].
  cbn [forallb] in Hx, Hy. rewrite andb_true_r in Hx, Hy.
  pose proof (digit_val_range _ Hx) as Rx. pose proof (digit_val_range _ Hy) as Ry.
  rewrite text_ltb_app by lia. rewrite IH1, IH2, !dec_value_snoc.
  assert (Hxy : text_ltb [x] [y] = (digit_val x <? digit_val y)).
  { cbn. rewrite andb_false_r, orb_false_r. unfold digit_val. apply eq_true_iff_eq. rewrite N.ltb_lt, Z.ltb_lt. lia. }
  rewrite Hxy. split; [lia|].
  assert (Heq : bool_decide (a ++ [x] = b ++ [y]) = bool_decide (a = b) && (digit_val x =? digit_val y)).
  { apply eq_true_iff_eq. rewrite andb_true_iff, !bool_decide_eq_true, Z.eqb_eq. split.
    - intros E. by apply app_inj_tail in E as [-> ->].
    - intros [-> E]. f_equal. f_equal. apply N_of_ascii_inj. unfold digit_val in E. lia. }
  rewrite Heq, IH2. lia.
Qed.

(** ** The calendar *)

Lemma year_of_era doe :
  0 <= doe < 146097 ->
  let yoe := (doe - doe / 1460 + doe / 36524 - doe / 146096) / 365 in
  let doy := doe - (365 * yoe + yoe / 4 - yoe / 100) in
  0 <= yoe <= 399 /\ 0 <= doy <= 365.
Proof. intros H. cbv zeta. Z.div_mod_to_equations. lia. Qed.

(** The last day of a year that starts in March exists in leap years only. *)
Lemma leap_day doe :
  0 <= doe < 146097 ->
  let yoe := (doe - doe / 1460 + doe / 36524 - doe / 146096) / 365 in
  let doy := doe - (365 * yoe + yoe / 4 - yoe / 100) in
  doy = 365 -> (yoe + 1) mod 4 = 0 /\ ((yoe + 1) mod 100 <> 0 \/ (yoe + 1) mod 400 = 0).
Proof. intros H. cbv zeta. Z.div_mod_to_equations. lia. Qed.

Definition valid_date (y m d : Z) : Prop := 1 <= m <= 12 /\ 1 <= d <= daysIn m y.

(** A day within a March-based year. *)
Lemma month_day yoe era doy :
  0 <= yoe <= 399 -> 0 <= doy <= 365 ->
  (doy = 365 -> (yoe + 1) mod 4 = 0 /\ ((yoe + 1) mod 100 <> 0 \/ (yoe + 1) mod 400 = 0)) ->
  let mp := (5 * doy + 2) / 153 in
  let d := doy - (153 * mp + 2) / 5 + 1 in
  let m := if mp <? 10 then mp + 3 else mp - 9 in
  let y := yoe + era * 400 + (if m <=? 2 then 1 else 0) in
  valid_date y m d /\ days_of_civil y m d = era * 146097 + (365 * yoe + yoe / 4 - yoe / 100 + doy) - 306.
Proof.
  intros Hy Hd Hleap. cbv zeta. set (mp := (5 * doy + 2) / 153).
  assert (Hmp : 153 * mp <= 5 * doy + 2 < 153 * mp + 153 /\ 0 <= mp <= 11)
    by (unfold mp; Z.div_mod_to_equations; lia).
  clearbody mp. destruct Hmp as [Hmp Hr].
  assert (Hlow : 0 <= doy - (153 * mp + 2) / 5) by (Z.div_mod_to_equations; lia).
  set (m := if mp <? 10 then mp + 3 else mp - 9).
  assert (Hm : 1 <= m <= 12 /\ (m <=? 2) = (10 <=? mp) /\ (if 2 <? m then m - 3 else m + 9) = mp)
    by (unfold m; split_if; lia). destruct Hm as (Hm & Hm2 & Hinv).
  set (y := yoe + era * 400 + (if m <=? 2 then 1 else 0)). split.
  - split; [done|]. split; [lia|]. unfold daysIn.
    assert (Hfeb : m = 2 -> is_leap y = true \/ doy <= 364).
    { intros E. destruct (decide (doy = 365)) as [E5|]; [left|right; lia]. destruct (Hleap E5) as [H4 H100].
      assert (Ey : y = (yoe + 1) + era * 400) by (unfold y; rewrite (proj2 (Z.leb_le m 2)) by lia; lia).
      unfold is_leap. rewrite Ey. rewrite (Z.mod_add _ era 400) by lia.
      replace (yoe + 1 + era * 400) with (yoe + 1 + era * 100 * 4) at 1 by lia. rewrite Z.mod_add by lia.
      replace (yoe + 1 + era * 400) with (yoe + 1 + era * 4 * 100) by lia. rewrite Z.mod_add by lia. lia. }
    clearbody y. unfold m in *. clear m Hm Hm2 Hinv.
    destruct (Z.eqb_spec (if mp <? 10 then mp + 3 else mp - 9) 2) as [E2|E2].
    + destruct (Hfeb E2) as [->|Hf]; [|destruct (is_leap y)]; clear Hfeb Hleap; revert E2; split_if; intros;
        Z.div_mod_to_equations; lia.
    + clear Hfeb Hleap. revert E2. split_if; intros; Z.div_mod_to_equations; lia.
  - unfold days_of_civil. rewrite Hinv. unfold y.
    replace (yoe + era * 400 + (if m <=? 2 then 1 else 0) - (if m <=? 2 then 1 else 0)) with (yoe + era * 400) by lia.
    clear -Hy. Z.div_mod_to_equations. lia.
Qed.

Lemma civil_spec n :
  let '(y, m, d) := civil_of_days n in valid_date y m d /\ days_of_civil y m d = n.
Proof.
  unfold civil_of_days. set (z := n + 306). set (era := z / 146097). set (doe := z mod 146097).
  assert (Hdoe : 0 <= doe < 146097) by (apply Z.mod_pos_bound; lia).
  assert (Hz : z = era * 146097 + doe) by (unfold era, doe; pose proof (Z.div_mod z 146097); lia).
  destruct (year_of_era doe Hdoe) as [Hy Hd]. pose proof (leap_day doe Hdoe) as Hleap. cbv zeta in *.
  set (yoe := (doe - doe / 1460 + doe / 36524 - doe / 146096) / 365) in *.
  set (doy := doe - (365 * yoe + yoe / 4 - yoe / 100)) in *.
  destruct (month_day yoe era doy Hy Hd Hleap) as [Hv Hn]. cbv zeta in Hv, Hn.
  split; [exact Hv|]. rewrite Hn. unfold doy. unfold z in Hz. lia.
Qed.

(** Numbers compared from the left. *)
Fixpoint lexZ (a b : list Z) : bool :=
  match a, b with
  | x :: a, y :: b => (x <? y) || ((x =? y) && lexZ a b)
  | _, _ => false
  end.

(** The first day of the month with index [k], counting all months. *)
Definition month_start (k : Z) : Z := days_of_civil (k / 12) (k mod 12 + 1) 1.

Lemma month_start_next k : month_start (k + 1) = month_start k + daysIn (k mod 12 + 1) (k / 12).
Proof.
  unfold month_start. set (y := k / 12). set (r := k mod 12).
  assert (Hk : k = 12 * y + r /\ 0 <= r < 12) by (unfold y, r; pose proof (Z.div_mod k 12); pose proof (Z.mod_pos_bound k 12); lia).
  assert (Hnext : (k + 1) / 12 = y + (if r =? 11 then 1 else 0) /\ (k + 1) mod 12 = if r =? 11 then 0 else r + 1)
    by (clear -Hk; destruct (Z.eqb_spec r 11); Z.div_mod_to_equations; lia).
  destruct Hnext as [-> ->]. destruct Hk as [_ Hr]. clearbody y r. clear k.
  assert (Hcase : r = 0 \/ r = 1 \/ r = 2 \/ r = 3 \/ r = 4 \/ r = 5 \/ r = 6 \/ r = 7 \/ r = 8 \/ r = 9 \/ r = 10 \/
    r = 11) by lia. unfold daysIn, days_of_civil. clear Hr.
  repeat (destruct Hcase as [->|Hcase]); try subst r;
    repeat match goal with |- context [if ?b then _ else _] =>
      match b with
      | is_leap _ => fail 1
      | _ => let v := eval vm_compute in b in
             match v with true => idtac | false => idtac end; change b with v; cbv iota
      end
    end; unfold is_leap; try (Z.div_mod_to_equations; lia).
  destruct (Z.eqb_spec (y mod 4) 0), (Z.eqb_spec (y mod 100) 0), (Z.eqb_spec (y mod 400) 0); cbn [negb orb andb];
    Z.div_mod_to_equations; lia.
Qed.

Lemma daysIn_pos m y : 28 <= daysIn m y.
Proof. unfold daysIn. destruct (is_leap y); split_if; lia. Qed.

Lemma month_start_mono k j : k < j -> month_start k + daysIn (k mod 12 + 1) (k / 12) <= month_start j.
Proof.
  intros Hkj. rewrite <- month_start_next. remember (Z.to_nat (j - (k + 1))) as n eqn:Hn.
  revert j Hkj Hn. induction n as [|n IH]; intros j Hkj Hn; [replace j with (k + 1) by lia; lia|].
  specialize (IH (j - 1) ltac:(lia) ltac:(lia)). pose proof (month_start_next (j - 1)) as Hnext.
  pose proof (daysIn_pos ((j - 1) mod 12 + 1) ((j - 1) / 12)). replace (j - 1 + 1) with j in Hnext by lia. lia.
Qed.

Definition month_index (y m : Z) : Z := 12 * y + (m - 1).

Lemma month_index_parts y m : 1 <= m <= 12 -> month_index y m / 12 = y /\ month_index y m mod 12 + 1 = m.
Proof. intros Hm. unfold month_index. Z.div_mod_to_equations. lia. Qed.

Lemma days_month y m d :
  1 <= m <= 12 -> days_of_civil y m d = month_start (month_index y m) + d - 1.
Proof.
  intros Hm. unfold month_start. destruct (month_index_parts y m Hm) as [-> ->]. unfold days_of_civil. lia.
Qed.

(** Dates are ordered as their years, months and days. *)
Lemma date_order y m d y' m' d' :
  valid_date y m d -> valid_date y' m' d' ->
  (days_of_civil y m d <? days_of_civil y' m' d') = lexZ [y; m; d] [y'; m'; d'] /\
  (days_of_civil y m d = days_of_civil y' m' d' -> y = y' /\ m = m' /\ d = d').
Proof.
  intros [Hm Hd] [Hm' Hd']. rewrite !days_month by done. cbn [lexZ]. rewrite andb_false_r, orb_false_r.
  destruct (month_index_parts y m Hm) as [E1 E2], (month_index_parts y' m' Hm') as [E1' E2'].
  pose proof (month_start_mono (month_index y m) (month_index y' m')) as H1.
  pose proof (month_start_mono (month_index y' m') (month_index y m)) as H2.
  rewrite E1, E2 in H1. rewrite E1', E2' in H2.
  destruct (Z.lt_trichotomy (month_index y m) (month_index y' m')) as [Hlt|[Heq|Hgt]].
  - specialize (H1 Hlt). unfold month_index in Hlt. split; [|lia]. rewrite (proj2 (Z.ltb_lt _ _)) by lia. lia.
  - assert (y = y' /\ m = m') as [-> ->] by (unfold month_index in Heq; lia). split; [|lia]. lia.
  - specialize (H2 Hgt). unfold month_index in Hgt. split; [|lia]. rewrite (proj2 (Z.ltb_ge _ _)) by lia. lia.
Qed.

(** ** Rendering *)

(** The layout: field widths and what follows each field. *)
Definition layout : list (nat * ascii) :=
  [(4%nat, "-"); (2%nat, "-"); (2%nat, "T"); (2%nat, ":"); (2%nat, ":"); (2%nat, "."); (3%nat, "Z")]%char.
Fixpoint render (sk : list (nat * ascii)) (vs : list Z) : text :=
  match sk, vs with
  | (k, c) :: sk, v :: vs => padded (Z.of_nat k) v ++ c :: render sk vs
  | _, _ => []
  end.
Definition fits (e : nat * ascii) (v : Z) : Prop := (0 < e.1 < 19)%nat /\ 0 <= v < 10 ^ Z.of_nat e.1.

Lemma render_less sk vs ws :
  Forall2 fits sk vs -> Forall2 fits sk ws -> text_ltb (render sk vs) (render sk ws) = lexZ vs ws.
Proof.
  intros Hv. revert ws. induction Hv as [|[k c] v sk vs [Hk Hv] _ IH]; intros ws Hw; inversion Hw as [|? w ? ws' [_ Hw1] Hw2]; subst; [done|].
  cbn [fst] in *. cbn [render lexZ]. pose proof (padded_spec k v Hk Hv) as Hpv. pose proof (padded_spec k w Hk Hw1) as Hpw.
  destruct (digits_compare k v w _ _ Hpv Hpw) as [E1 E2].
  rewrite text_ltb_app by (by rewrite (proj1 Hpv), (proj1 Hpw)). rewrite E1, E2. f_equal. f_equal.
  cbn [text_ltb]. rewrite N.ltb_irrefl, N.eqb_refl. by apply IH.
Qed.

(** The instant in milliseconds since the zero time, and its parts. *)
Definition millis (t : Time) : Z := ns t / Millisecond.
Definition day_of (t : Time) : Z := ns t / (86400 * Second).
Definition time_fields (t : Time) : list Z :=
  [sec_of_day t / 3600; sec_of_day t / 60 mod 60; sec_of_day t mod 60; ns t / Millisecond mod 1000].
Definition date_fields (t : Time) : list Z := let '(y, m, d) := civil_of_days (day_of t) in [y; m; d].

Lemma FormatTime_render t : FormatTime t = render layout (date_fields t ++ time_fields t).
Proof.
  unfold FormatTime, date_fields, day_of. cbn [tUTC ns]. destruct (civil_of_days _) as [[y m] d].
  cbn [app render layout time_fields]. unfold sec_of_day. cbn [tUTC ns]. reflexivity.
Qed.

Lemma time_fields_spec t :
  let h := sec_of_day t / 3600 in
  let mi := sec_of_day t / 60 mod 60 in
  let s := sec_of_day t mod 60 in
  let ms := ns t / Millisecond mod 1000 in
  (0 <= h < 24 /\ 0 <= mi < 60 /\ 0 <= s < 60 /\ 0 <= ms < 1000) /\
  millis t = ((day_of t * 86400 + h * 3600 + mi * 60 + s) * 1000 + ms).
Proof.
  cbv zeta. unfold millis, day_of, sec_of_day, Millisecond, Second. Z.div_mod_to_equations. lia.
Qed.

(** Years 1 to 9999. *)
Definition representable (t : Time) : Prop := 0 <= ns t < 3652059 * 86400 * Second.

Lemma year_range t :
  representable t -> let '(y, m, d) := civil_of_days (day_of t) in valid_date y m d /\ 1 <= y <= 9999.
Proof.
  intros Ht. assert (Hday : 0 <= day_of t < 3652059).
  { unfold representable, day_of, Second in *. Z.div_mod_to_equations. lia. }
  pose proof (civil_spec (day_of t)) as Hc. destruct (civil_of_days (day_of t)) as [[y m] d]. destruct Hc as [Hv Hn].
  split; [done|]. assert (V1 : valid_date 1 1 1) by (unfold valid_date, daysIn; cbn; lia).
  assert (V2 : valid_date 10000 1 1) by (unfold valid_date, daysIn; cbn; lia).
  destruct (date_order y m d 1 1 1 Hv V1) as [H1 _]. destruct (date_order y m d 10000 1 1 Hv V2) as [H2 _].
  rewrite Hn in H1, H2. change (days_of_civil 1 1 1) with 0 in H1. change (days_of_civil 10000 1 1) with 3652059 in H2.
  cbn [lexZ] in H1, H2. destruct Hv as [? [? _]]. lia.
Qed.

Lemma fields_fit t : representable t -> Forall2 fits layout (date_fields t ++ time_fields t).
Proof.
  intros Ht. pose proof (year_range t Ht) as Hy. destruct (time_fields_spec t) as [Htm _]. unfold date_fields.
  destruct (civil_of_days (day_of t)) as [[y m] d]. destruct Hy as [[Hm Hd] Hy].
  assert (d <= 31) by (unfold daysIn in Hd; destruct (is_leap y); revert Hd; split_if; lia).
  cbn [app time_fields layout]. repeat (apply Forall2_cons; split); try apply Forall2_nil; try done; unfold fits; cbn [fst];
    (split; [lia|]); (change (10 ^ Z.of_nat 4) with 10000 || change (10 ^ Z.of_nat 2) with 100 || change (10 ^ Z.of_nat 3) with 1000); lia.
Qed.

Lemma lexZ_app a b a' b' :
  length a = length a' -> lexZ (a ++ b) (a' ++ b') = lexZ a a' || (bool_decide (a = a') && lexZ b b').
Proof.
  revert a'. induction a as [|x a IH]; intros [|y a'] Hl; try done. cbn [app lexZ]. injection Hl as Hl. rewrite IH by done.
  destruct (Z.eqb_spec x y) as [<-|Hne]; cbn [andb].
  - rewrite Z.ltb_irrefl. cbn [orb]. f_equal. f_equal. apply bool_decide_ext. split; congruence.
  - rewrite !orb_false_r, bool_decide_eq_false_2 by congruence. by rewrite orb_false_r.
Qed.

Lemma FormatTime_less t u :
  representable t -> representable u -> text_ltb (FormatTime t) (FormatTime u) = (millis t <? millis u).
Proof.
  intros Ht Hu. rewrite !FormatTime_render, render_less by by apply fields_fit.
    rewrite lexZ_app by (unfold date_fields; by destruct (civil_of_days (day_of t)) as [[? ?] ?], (civil_of_days (day_of u)) as [[? ?] ?]).
    destruct (time_fields_spec t) as [Ht1 ->], (time_fields_spec u) as [Hu1 ->]. unfold date_fields.
    pose proof (year_range t Ht) as Hty. pose proof (year_range u Hu) as Huy.
    pose proof (civil_spec (day_of t)) as Htd. pose proof (civil_spec (day_of u)) as Hud.
    destruct (civil_of_days (day_of t)) as [[y m] d], (civil_of_days (day_of u)) as [[y' m'] d'].
    destruct Htd as [Hv Hn], Hud as [Hv' Hn']. destruct (date_order y m d y' m' d' Hv Hv') as [Ho He].
    rewrite <- Ho, Hn, Hn'. rewrite Hn, Hn' in He.
    assert (Hdate : bool_decide ([y; m; d] = [y'; m'; d']) = (day_of t =? day_of u)).
    { apply eq_true_iff_eq. rewrite bool_decide_eq_true, Z.eqb_eq. split.
      - intros [= -> -> ->]. congruence.
      - intros E. destruct (He E) as (-> & -> & ->). done. }
    rewrite Hdate. cbn [lexZ time_fields]. rewrite andb_false_r, orb_false_r. lia.
Qed.

(** Rendered timestamps are ordered as time.  For instants of the years 1 to
    9999, comparing the texts byte by byte is comparing the instants at
    millisecond precision: two instants render equal exactly when they share
    their millisecond, and an indexed comparison of columns is chronological. *)
Theorem FormatTime_order t u :
  representable t -> representable u ->
  text_ltb (FormatTime t) (FormatTime u) = (millis t <? millis u) /\
  (FormatTime t = FormatTime u <-> millis t = millis u).
Proof.
  intros Ht Hu.
  pose proof FormatTime_less as Hless.
  split; [by apply Hless|]. split.
  - intros E. pose proof (Hless t u Ht Hu) as H1. pose proof (Hless u t Hu Ht) as H2.
    rewrite E in H1. rewrite E in H2. rewrite text_ltb_irrefl in H1, H2. lia.
  - intros E. rewrite !FormatTime_render. destruct (time_fields_spec t) as [Ht1 Et], (time_fields_spec u) as [Hu1 Eu].
    assert (Hd : day_of t = day_of u) by lia. unfold date_fields. rewrite Hd. f_equal. f_equal.
    unfold time_fields. f_equal; [|f_equal; [|f_equal; [|f_equal]]]; lia.
Qed.

(** ** Reading back *)

Lemma getnum_two fixed n s r : digits_of 2 n s -> getnum fixed (s ++ r) = Some (n, r).
Proof.
  intros (Hl & Hd & <-). destruct s as [|a [|b [|? ?]]]; try done. cbn in Hd. rewrite andb_true_r, andb_true_iff in Hd.
  destruct Hd as [Ha Hb]. cbn. by rewrite Ha, Hb.
Qed.
Lemma get_year_four n s r : digits_of 4 n s -> get_year (s ++ r) = Some (n, r).
Proof.
  intros (Hl & Hd & <-). destruct s as [|a [|b [|c [|d [|? ?]]]]]; try done. cbn [app get_year]. by rewrite Hd.
Qed.
Lemma ranged_in lo hi v (r : text) : lo <= v <= hi -> ranged lo hi (Some (v, r)) = Some (v, r).
Proof. intros Hv. cbn. rewrite (proj2 (Z.leb_le lo v)), (proj2 (Z.leb_le v hi)) by lia. done. Qed.
Lemma lit_same c r : lit c (c :: r) = Some r.
Proof. cbn. by rewrite Ascii.eqb_refl. Qed.

Lemma read_clock_render y m d h mi s r :
  0 <= y < 10000 -> 1 <= m <= 12 -> 0 <= d < 100 -> 0 <= h < 24 -> 0 <= mi < 60 -> 0 <= s < 60 ->
  read_clock (padded 4 y ++ "-"%char :: padded 2 m ++ "-"%char :: padded 2 d ++ "T"%char ::
              padded 2 h ++ ":"%char :: padded 2 mi ++ ":"%char :: padded 2 s ++ r) = Some (mkClock y m d h mi s, r).
Proof.
  intros Hy Hm Hd Hh Hmi Hs. unfold read_clock.
  assert (H2 : forall n, 0 <= n < 100 -> digits_of 2 n (padded 2 n)) by (intros n Hn; by apply (padded_spec 2); lia || done).
  assert (H4 : digits_of 4 y (padded 4 y)) by (apply (padded_spec 4); lia || done).
  rewrite (get_year_four y _ _ H4). cbn [mbind option_bind]. rewrite lit_same. cbn [mbind option_bind].
  rewrite (getnum_two _ m _ _ (H2 m ltac:(lia))), ranged_in by lia. cbn [mbind option_bind]. rewrite lit_same. cbn [mbind option_bind].
  rewrite (getnum_two _ d _ _ (H2 d ltac:(lia))). cbn [mbind option_bind]. rewrite lit_same. cbn [mbind option_bind].
  rewrite (getnum_two _ h _ _ (H2 h ltac:(lia))), ranged_in by lia. cbn [mbind option_bind]. rewrite lit_same. cbn [mbind option_bind].
  rewrite (getnum_two _ mi _ _ (H2 mi ltac:(lia))), ranged_in by lia. cbn [mbind option_bind]. rewrite lit_same. cbn [mbind option_bind].
  rewrite (getnum_two _ s _ _ (H2 s ltac:(lia))), ranged_in by lia. done.
Qed.

(** The milliseconds and the zone, by both parsers. *)
Lemma read_fraction_millis ms :
  0 <= ms < 1000 ->
  read_fraction ("."%char :: padded 3 ms ++ ["Z"%char]) = (ms * 1000000, ["Z"%char]) /\
  read_millis ("."%char :: padded 3 ms ++ ["Z"%char]) = Some (ms * 1000000, ["Z"%char]).
Proof.
  intros Hms. destruct (padded_spec 3 ms) as (Hl & Hd & Hv); [lia|done|]. change (Z.of_nat 3) with 3 in *.
  destruct (padded 3 ms) as [|a [|b [|c [|? ?]]]]; try done. cbn [forallb] in Hd. rewrite andb_true_r in Hd.
  apply andb_true_iff in Hd as [Ha [Hb Hc]%andb_true_iff].
  assert (Hz : is_digit "Z" = false) by done.
  split.
  - cbn [app read_fraction]. rewrite Ha. change (Ascii.eqb "." "." || Ascii.eqb "." ",") with true. cbn [andb span_digits].
    rewrite Ha, Hb, Hc, Hz. cbn [span_digits]. unfold nanoseconds. cbn [take length]. rewrite Hv. f_equal.
  - cbn [app read_millis]. change (Ascii.eqb "." "." || Ascii.eqb "." ",") with true. cbv iota.
    assert (Hsign : split_sign [a; b; c] = (false, [a; b; c])).
    { unfold split_sign. destruct (Ascii.eqb_spec a "-") as [->|]; [done|]. by destruct (Ascii.eqb_spec a "+") as [->|]. }
    rewrite Hsign. cbn [forallb negb andb]. rewrite Ha, Hb, Hc, Hv. done.
Qed.

Lemma instant_millis t y m d h mi s ms :
  valid_date y m d -> days_of_civil y m d = day_of t ->
  millis t = (day_of t * 86400 + h * 3600 + mi * 60 + s) * 1000 + ms ->
  instant (mkClock y m d h mi s) (ms * 1000000) 0 = Some (mkTime (millis t * Millisecond) UTC).
Proof.
  intros [Hm Hd] Hn Ht. unfold instant. cbn [ckDay ckMonth ckYear ckHour ckMin ckSec].
  rewrite (proj2 (Z.leb_le 1 d)), (proj2 (Z.leb_le d _)) by lia. cbn [andb]. rewrite Hn, Ht. unfold Second, Millisecond.
  f_equal. f_equal. lia.
Qed.

(** A rendered timestamp parses to its millisecond. *)
Lemma FormatTime_millis t :
  representable t ->
  ParseTime (FormatTime t) = Some (mkTime (millis t * Millisecond) UTC) /\
  ParseWire (FormatTime t) = Some (mkTime (millis t * Millisecond) UTC).
Proof.
  intros Ht. rewrite FormatTime_render. pose proof (year_range t Ht) as Hy.
  destruct (time_fields_spec t) as [(Hh & Hmi & Hs & Hms) Hmillis]. pose proof (civil_spec (day_of t)) as Hc.
  unfold date_fields, time_fields. destruct (civil_of_days (day_of t)) as [[y m] d].
  destruct Hy as [_ Hy], Hc as [Hv Hn]. pose proof Hv as [Hm Hd].
  assert (d <= 31) by (unfold daysIn in Hd; destruct (is_leap y); revert Hd; split_if; lia).
  set (h := sec_of_day t / 3600) in *. set (mi := sec_of_day t / 60 mod 60) in *. set (s := sec_of_day t mod 60) in *.
  set (ms := ns t / Millisecond mod 1000) in *. cbn [app layout render]. change (Z.of_nat 4) with 4.
  change (Z.of_nat 2) with 2. change (Z.of_nat 3) with 3.
  pose proof (read_clock_render y m d h mi s ("."%char :: padded 3 ms ++ ["Z"%char])) as Hr.
  destruct (read_fraction_millis ms Hms) as [Hf Hf']. unfold ParseTime, ParseRFC3339, ParseWire.
  rewrite Hr by lia. cbn [mbind option_bind]. rewrite Hf, Hf'. cbn [mbind option_bind].
  split; by apply instant_millis.
Qed.

(** A rendered timestamp reads back exactly.  For instants of the years 1 to
    9999, parsing a rendered timestamp, as RFC 3339 or with the fixed layout,
    gives the instant truncated to its millisecond, in UTC. *)
Theorem FormatTime_roundtrip t :
  representable t ->
  ParseTime (FormatTime t) = Some (mkTime (millis t * Millisecond) UTC) /\
  ParseWire (FormatTime t) = Some (mkTime (millis t * Millisecond) UTC).
Proof. exact (FormatTime_millis t). Qed.

(** ** Concrete inputs *)

Lemma FormatTime_order_witness :
  representable (unixNanos 0) /\ representable (unixNanos 1709251200000000000) /\
  text_ltb (FormatTime (unixNanos 0)) (FormatTime (unixNanos 1709251200000000000)) = true.
Proof.
  assert (H1 : representable (unixNanos 0)) by (split; [vm_compute; discriminate|reflexivity]).
  assert (H2 : representable (unixNanos 1709251200000000000)) by (split; [vm_compute; discriminate|reflexivity]).
  split; [exact H1|]. split; [exact H2|].
  destruct (FormatTime_order _ _ H1 H2) as [E _]. rewrite E. reflexivity.
Defined.

Lemma FormatTime_roundtrip_witness :
  representable (unixNanos 1709251199999999999) /\
  ParseTime (txt "2024-02-29T23:59:59.999Z") = Some (unixNanos 1709251199999000000).
Proof.
  assert (H1 : representable (unixNanos 1709251199999999999)) by (split; [vm_compute; discriminate|reflexivity]).
  split; [exact H1|]. destruct (FormatTime_roundtrip _ H1) as [E _]. exact E.
Defined.
