(* ===== verification/JsonText.v ===== *)
(** * JSON text: [json.Unmarshal] and [json.Marshal] between bytes and trees

    The grammar, the string escapes and the limit on nesting of
    [encoding/json], as far as the frames and the fixtures use them.  Text is
    bytes: a string keeps its UTF-8, and a byte that is none becomes U+FFFD in
    both directions. *)

From Stdlib Require Import Ascii.
From S2P Require Import Prelude Money Decimal GoTime Float64 Json TimeText.

(** ** UTF-8 *)

Abbreviation code := N_of_ascii.
Definition byte_in (lo hi : N) (s : text) : bool :=
  match s with c :: _ => ((lo <=? code c) && (code c <=? hi))%N | [] => false end.

(** The length of the encoding at the head, 0 when it is not valid. *)
Definition utf8_len (s : text) : nat :=
  match s with
  | [] => 0
  | c :: s1 =>
      let b := code c in
      if (b <? 128)%N then 1
      else if byte_in 194 223 s then if byte_in 128 191 s1 then 2 else 0
      else if byte_in 224 239 s then
        let lo := (if b =? 224 then 160 else 128)%N in
        let hi := (if b =? 237 then 159 else 191)%N in
        if byte_in lo hi s1 && byte_in 128 191 (tl s1) then 3 else 0
      else if byte_in 240 244 s then
        let lo := (if b =? 240 then 144 else 128)%N in
        let hi := (if b =? 244 then 143 else 191)%N in
        if byte_in lo hi s1 && byte_in 128 191 (tl s1) && byte_in 128 191 (tl (tl s1)) then 4 else 0
      else 0
  end.

Definition bytes (l : list N) : text := map ascii_of_N l.
Definition RuneError : N := 65533.

Definition encode_rune (r : N) : text :=
  bytes (if r <? 128 then [r]
         else if r <? 2048 then [192 + r / 64; 128 + r mod 64]
         else if r <? 65536 then [224 + r / 4096; 128 + r / 64 mod 64; 128 + r mod 64]
         else [240 + r / 262144; 128 + r / 4096 mod 64; 128 + r / 64 mod 64; 128 + r mod 64])%N.

(** [strings.ToValidUTF8] with U+FFFD for every bad byte; [skip] is what is
    left of the encoding under way. *)
Fixpoint sanitize (skip : nat) (s : text) : text :=
  match s with
  | [] => []
  | c :: s1 =>
      match skip with
      | S k => c :: sanitize k s1
      | O => match utf8_len s with
             | O => encode_rune RuneError ++ sanitize 0 s1
             | S k => c :: sanitize k s1
             end
      end
  end.
Definition valid_utf8 (s : text) : bool := bool_decide (sanitize 0 s = s).

(** ** Strings *)

Definition quote : ascii := "034".
Definition backslash : ascii := "\".

Definition hex_digit (c : ascii) : option N :=
  if byte_in 48 57 [c] then Some (code c - 48)%N
  else if byte_in 97 102 [c] then Some (code c - 87)%N
  else if byte_in 65 70 [c] then Some (code c - 55)%N else None.
Definition getu4 (a b c d : ascii) : option N :=
  a ← hex_digit a; b ← hex_digit b; c ← hex_digit c; d ← hex_digit d;
  Some (((a * 16 + b) * 16 + c) * 16 + d)%N.

(** The characters after a backslash, and what they stand for. *)
Definition escapes : list (ascii * ascii) :=
  [(quote, quote); (backslash, backslash); ("/", "/"); ("b", "008"); ("f", "012"); ("n", "010"); ("r", "013"); ("t", "009")]%char.
Definition unescape (c : ascii) : option ascii := snd <$> List.find (fun e => Ascii.eqb (fst e) c) escapes.

(** What is between the quotes, unchanged, and what follows. *)
Fixpoint scan_string (s : text) : option (text * text) :=
  match s with
  | [] => None
  | c :: s1 =>
      if Ascii.eqb c quote then Some ([], s1)
      else if Ascii.eqb c backslash then
        match s1 with
        | [] => None
        | e :: s2 =>
            if Ascii.eqb e "u" then
              match s2 with
              | a :: b :: x :: y :: s3 =>
                  _ ← getu4 a b x y; '(raw, r) ← scan_string s3; Some (c :: e :: a :: b :: x :: y :: raw, r)
              | _ => None
              end
            else _ ← unescape e; '(raw, r) ← scan_string s2; Some (c :: e :: raw, r)
        end
      else if (code c <? 32)%N then None
      else '(raw, r) ← scan_string s1; Some (c :: raw, r)
  end.

Definition surrogate (r : N) : bool := ((55296 <=? r) && (r <? 57344))%N.
(** [utf16.DecodeRune]; [None] is U+FFFD. *)
Definition decode_pair (r1 r2 : N) : option N :=
  if ((55296 <=? r1) && (r1 <? 56320) && (56320 <=? r2) && (r2 <? 57344))%N
  then Some ((r1 - 55296) * 1024 + (r2 - 56320) + 65536)%N else None.

(** [unquoteBytes] on what [scan_string] accepted. *)
Fixpoint unquote (skip : nat) (s : text) : text :=
  match s with
  | [] => []
  | c :: s1 =>
      match skip with
      | S k => c :: unquote k s1
      | O =>
          if Ascii.eqb c backslash then
            match s1 with
            | [] => []
            | e :: s2 =>
                if Ascii.eqb e "u" then
                  match s2 with
                  | a :: b :: x :: y :: s3 =>
                      let r1 := default RuneError (getu4 a b x y) in
                      if surrogate r1 then
                        match s3 with
                        | c' :: e' :: a' :: b' :: x' :: y' :: s4 =>
                            match (if Ascii.eqb c' backslash && Ascii.eqb e' "u"
                                   then r2 ← getu4 a' b' x' y'; decode_pair r1 r2 else None) with
                            | Some r => encode_rune r ++ unquote 0 s4
                            | None => encode_rune RuneError ++ unquote 0 s3
                            end
                        | _ => encode_rune RuneError ++ unquote 0 s3
                        end
                      else encode_rune r1 ++ unquote 0 s3
                  | _ => []
                  end
                else option_list (unescape e) ++ unquote 0 s2
            end
          else
            match utf8_len s with
            | O => encode_rune RuneError ++ unquote 0 s1
            | S k => c :: unquote k s1
            end
      end
  end.

Definition parse_string (s : text) : option (string * text) :=
  '(raw, r) ← scan_string s; Some (String.string_of_list_ascii (unquote 0 raw), r).

(** [appendString] with HTML escaping, which is what [json.Marshal] does. *)
Definition hex_char (n : N) : ascii := ascii_of_N (if n <? 10 then 48 + n else 87 + n)%N.
Definition escape_byte (c : ascii) : text :=
  match List.find (fun e => Ascii.eqb (snd e) c && negb (Ascii.eqb c "/")) escapes with
  | Some e => [backslash; fst e]
  | None =>
      if (code c <? 32)%N || existsb (Ascii.eqb c) ["<"; ">"; "&"]%char
      then txt "\u00" ++ [hex_char (code c / 16); hex_char (code c mod 16)] else [c]
  end.
Definition line_separator (s : text) : option N :=
  match s with
  | a :: b :: c :: _ =>
      if ((code a =? 226) && (code b =? 128) && ((code c =? 168) || (code c =? 169)))%N
      then Some (code c - 160)%N else None
  | _ => None
  end.
Fixpoint escape (skip : nat) (s : text) : text :=
  match s with
  | [] => []
  | c :: s1 =>
      match skip with
      | S k => c :: escape k s1
      | O =>
          match line_separator s, s1 with
          | Some n, _ :: _ :: s3 => txt "\u202" ++ [hex_char n] ++ escape 0 s3
          | _, _ =>
              match utf8_len s with
              | O => txt "\ufffd" ++ escape 0 s1
              | S O => escape_byte c ++ escape 0 s1
              | S k => c :: escape k s1
              end
          end
      end
  end.
Definition render_string (s : string) : text := quote :: escape 0 (txt s) ++ [quote].

(** ** Values *)

Definition is_ws (c : ascii) : bool := existsb (Ascii.eqb c) [" "; "009"; "013"; "010"]%char.
Fixpoint skip_ws (s : text) : text :=
  match s with c :: s1 => if is_ws c then skip_ws s1 else s | [] => [] end.

(** The integer part: one zero, or digits that start with another. *)
Definition int_part (s : text) : option (text * text) :=
  let '(ds, r) := span_digits s in
  match ds with
  | [] => None
  | c :: ds' => if Ascii.eqb c "0" && negb (bool_decide (ds' = [])) then None else Some (ds, r)
  end.
(** Digits, at least one. *)
Definition some_digits (s : text) : option (text * text) :=
  let '(ds, r) := span_digits s in if bool_decide (ds = []) then None else Some (ds, r).
Definition frac_part (s : text) : option (text * text) :=
  match s with c :: s1 => if Ascii.eqb c "." then some_digits s1 else Some ([], s) | [] => Some ([], s) end.
Definition exp_part (s : text) : option (option Z * text) :=
  match s with
  | c :: s1 =>
      if Ascii.eqb c "e" || Ascii.eqb c "E" then
        let '(neg, s2) := match s1 with
                          | g :: r => if Ascii.eqb g "-" then (true, r) else if Ascii.eqb g "+" then (false, r) else (false, s1)
                          | [] => (false, s1)
                          end in
        '(ds, r) ← some_digits s2; Some (Some (signed neg (dec_value ds)), r)
      else Some (None, s)
  | [] => Some (None, s)
  end.
Definition parse_number (s : text) : option (JsonNumber * text) :=
  let '(neg, s) := match s with c :: r => if Ascii.eqb c "-" then (true, r) else (false, s) | [] => (false, s) end in
  '(ip, s) ← int_part s;
  '(fp, s) ← frac_part s;
  '(e, s) ← exp_part s;
  Some (mkNumber neg (dec_value (ip ++ fp)) (default 0 e - len fp)
          (bool_decide (fp = []) && bool_decide (e = None)), s).

Definition parse_literal (s : text) : option (Json * text) :=
  match strip_prefix (txt "true") s, strip_prefix (txt "false") s, strip_prefix (txt "null") s with
  | Some r, _, _ => Some (JBool true, r)
  | _, Some r, _ => Some (JBool false, r)
  | _, _, Some r => Some (JNull, r)
  | _, _, _ => '(n, r) ← parse_number s; Some (JNum n, r)
  end.

(** [depth] is how many more arrays and objects may be opened. *)
Fixpoint parse_value (fuel : nat) (depth : Z) (s : text) {struct fuel} : option (Json * text) :=
  match fuel with
  | O => None
  | S fuel =>
      match skip_ws s with
      | [] => None
      | c :: s1 =>
          if Ascii.eqb c quote then '(str, r) ← parse_string s1; Some (JStr str, r)
          else if Ascii.eqb c "[" then
            if depth <=? 0 then None
            else match skip_ws s1 with
                 | [] => None
                 | c1 :: r => if Ascii.eqb c1 "]" then Some (JArr [], r)
                              else '(l, r) ← parse_elements fuel (depth - 1) s1; Some (JArr l, r)
                 end
          else if Ascii.eqb c "{" then
            if depth <=? 0 then None
            else match skip_ws s1 with
                 | [] => None
                 | c1 :: r => if Ascii.eqb c1 "}" then Some (JObj [], r)
                              else '(ms, r) ← parse_members fuel (depth - 1) s1; Some (JObj ms, r)
                 end
          else parse_literal (c :: s1)
      end
  end
with parse_elements (fuel : nat) (depth : Z) (s : text) {struct fuel} : option (list Json * text) :=
  match fuel with
  | O => None
  | S fuel =>
      '(j, s1) ← parse_value fuel depth s;
      match skip_ws s1 with
      | c :: s2 =>
          if Ascii.eqb c "," then '(js, r) ← parse_elements fuel depth s2; Some (j :: js, r)
          else if Ascii.eqb c "]" then Some ([j], s2) else None
      | [] => None
      end
  end
with parse_members (fuel : nat) (depth : Z) (s : text) {struct fuel} : option (list (string * Json) * text) :=
  match fuel with
  | O => None
  | S fuel =>
      match skip_ws s with
      | q :: s0 =>
          if negb (Ascii.eqb q quote) then None else
          '(key, s1) ← parse_string s0;
          match skip_ws s1 with
          | c :: s2 =>
              if negb (Ascii.eqb c ":") then None else
              '(j, s3) ← parse_value fuel depth s2;
              match skip_ws s3 with
              | d :: s4 =>
                  if Ascii.eqb d "," then '(ms, r) ← parse_members fuel depth s4; Some ((key, j) :: ms, r)
                  else if Ascii.eqb d "}" then Some ([(key, j)], s4) else None
              | [] => None
              end
          | [] => None
          end
      | [] => None
      end
  end.

Definition maxNestingDepth : Z := 10000.
Definition fuel_for (s : text) : nat := S (2 * length s).

(** The syntax check of [json.Unmarshal]: one value and nothing but space
    around it. *)
Definition parse_json (s : text) : option Json :=
  '(j, r) ← parse_value (fuel_for s) maxNestingDepth s;
  if bool_decide (skip_ws r = []) then Some j else None.

(** ** Printing *)

Definition render_number (n : JsonNumber) : text :=
  (if jnNeg n then txt "-" else []) ++ FormatUint (jnMant n) ++
  (if jnInteger n then [] else txt "e" ++ (if jnExp10 n <? 0 then txt "-" else []) ++ FormatUint (Z.abs (jnExp10 n))).

Fixpoint commas (l : list text) : text :=
  match l with [] => [] | [s] => s | s :: l => s ++ txt "," ++ commas l end.

Fixpoint Marshal (j : Json) : text :=
  match j with
  | JNull => txt "null"
  | JBool b => if b then txt "true" else txt "false"
  | JNum n => render_number n
  | JStr s => render_string s
  | JArr l => txt "[" ++ commas (map Marshal l) ++ txt "]"
  | JObj ms => txt "{" ++ commas (map (fun m => render_string (fst m) ++ txt ":" ++ Marshal (snd m)) ms) ++ txt "}"
  end.

Example parse_json_ex :
  parse_json ([" "; "{"]%char ++ render_string "a" ++ txt " : [ 1.50e1, -0,null ] }")
  = Some (JObj [("a"%string, JArr [JNum (mkNumber false 150 (-1) false); JNum (mkNumber true 0 0 true); JNull])]).
Proof. vm_compute. reflexivity. Qed.
Example parse_json_bad : parse_json (txt "[01]") = None /\ parse_json (txt "[1,]") = None /\ parse_json (txt "1 2") = None.
Proof. by vm_compute. Qed.
Example parse_json_surrogates :
  parse_json (quote :: txt "\ud83d\ude00\ud83d\u0041" ++ [quote]) =
  Some (JStr (String.string_of_list_ascii (bytes [240; 159; 152; 128; 239; 191; 189; 65]%N))).
Proof. vm_compute. reflexivity. Qed.
