(* ===== verification/JsonTextSpec.v ===== *)
(** * JSON text: printing and parsing are inverse

    What [json.Marshal] prints of a tree, [json.Unmarshal] reads back. *)

From Stdlib Require Import Ascii.
From S2P Require Import Prelude Money Decimal GoTime Float64 Json TimeText JsonText.

(** ** Strings *)

Ltac every_byte c := destruct c as [[] [] [] [] [] [] [] []]; try discriminate; reflexivity.

Lemma scan_plain c t : (code c <? 32)%N = false -> Ascii.eqb c quote = false -> Ascii.eqb c backslash = false ->
  scan_string (c :: t) = ('(raw, r) ← scan_string t; Some (c :: raw, r)).
Proof. intros Hc Hq Hb. cbn [scan_string]. by rewrite Hq, Hb, Hc. Qed.

Definition high (c : ascii) : Prop := (code c <? 128)%N = false.

Lemma scan_high c t : high c -> scan_string (c :: t) = ('(raw, r) ← scan_string t; Some (c :: raw, r)).
Proof. unfold high. intros Hc. apply scan_plain; every_byte c. Qed.

Lemma scan_escape_byte c t : (code c <? 128)%N = true ->
  scan_string (escape_byte c ++ t) = ('(raw, r) ← scan_string t; Some (escape_byte c ++ raw, r)).
Proof. intros Hc. every_byte c. Qed.

Lemma unquote_escape_byte c t : (code c <? 128)%N = true -> unquote 0 (escape_byte c ++ t) = c :: unquote 0 t.
Proof. intros Hc. every_byte c. Qed.

Lemma byte_in_high lo hi c t : byte_in lo hi (c :: t) = true -> (128 <= lo)%N -> high c.
Proof. unfold byte_in, high. rewrite andb_true_iff, !N.leb_le, N.ltb_ge. lia. Qed.

Lemma byte_in_cons lo hi s : byte_in lo hi s = true -> (128 <= lo)%N ->
  exists c t, s = c :: t /\ high c /\ forall t', byte_in lo hi (c :: t') = true.
Proof. destruct s as [|c t]; [done|]. intros H Hlo. exists c, t. by split_and!; [|eapply byte_in_high|]. Qed.

(** The bytes after the first one of an encoding are high, and the length does
    not depend on what follows. *)
Lemma utf8_len_spec c s k : utf8_len (c :: s) = S k ->
  (k <= length s)%nat /\ Forall high (take k s) /\ (forall t, utf8_len (c :: take k s ++ t) = S k) /\
  ((code c <? 128)%N = true /\ k = O \/ high c /\ (0 < k)%nat).
Proof.
  unfold utf8_len. destruct (code c <? 128)%N eqn:Ha.
  { intros [= <-]. split_and!; [lia|constructor|by intros t; rewrite ?Ha|by left]. }
  cbn [byte_in]. destruct (_ && _) eqn:E1.
  { destruct (byte_in 128 191 s) eqn:B1; [|done]. intros [= <-].
    destruct (byte_in_cons _ _ _ B1) as (b1 & t1 & -> & H1 & _); [lia|].
    cbn [take app]. split_and!; [cbn; lia|by repeat constructor|intros t|right; split; [done|lia]].
    exact (eq_trans (f_equal (fun b : bool => if b then 2%nat else 0%nat) B1) eq_refl). }
  clear E1. destruct (_ && _) eqn:E2.
  { cbv zeta. set (lo := if (code c =? 224)%N then 160%N else 128%N). set (hi := if (code c =? 237)%N then _ else _).
    destruct (byte_in lo hi s && _) eqn:B; [|done]. intros [= <-]. apply andb_true_iff in B as [B1 B2].
    destruct (byte_in_cons _ _ _ B1) as (b1 & t1 & -> & H1 & B1'); [subst lo; case_match; lia|]. cbn [tl] in *.
    destruct (byte_in_cons _ _ _ B2) as (b2 & t2 & -> & H2 & B2'); [lia|]. cbn [take app].
    split_and!; [cbn; lia|by repeat constructor|intros t|right; split; [done|lia]].
    cbn [tl]. by rewrite B1', B2'. }
  clear E2. destruct (_ && _) eqn:E3; [|done].
  cbv zeta. set (lo := if (code c =? 240)%N then 144%N else 128%N). set (hi := if (code c =? 244)%N then _ else _).
  destruct (byte_in lo hi s && _ && _) eqn:B; [|done]. intros [= <-].
  apply andb_true_iff in B as [[B1 B2]%andb_true_iff B3].
  destruct (byte_in_cons _ _ _ B1) as (b1 & t1 & -> & H1 & B1'); [subst lo; case_match; lia|]. cbn [tl] in *.
  destruct (byte_in_cons _ _ _ B2) as (b2 & t2 & -> & H2 & B2'); [lia|]. cbn [tl] in *.
  destruct (byte_in_cons _ _ _ B3) as (b3 & t3 & -> & H3 & B3'); [lia|]. cbn [take app].
  split_and!; [cbn; lia|by repeat constructor|intros t|right; split; [done|lia]].
  cbn [tl]. by rewrite B1', B2', B3'.
Qed.

Lemma escape_skip k s : (k <= length s)%nat -> escape k s = take k s ++ escape 0 (drop k s).
Proof.
  revert s. induction k as [|k IH]; intros [|c s] Hk; try done.
  cbn [escape take drop app]. rewrite IH by (cbn in Hk; lia). done.
Qed.
Lemma sanitize_skip k s : (k <= length s)%nat -> sanitize k s = take k s ++ sanitize 0 (drop k s).
Proof.
  revert s. induction k as [|k IH]; intros [|c s] Hk; try done.
  cbn [sanitize take drop app]. rewrite IH by (cbn in Hk; lia). done.
Qed.
Lemma unquote_skip u t : unquote (length u) (u ++ t) = u ++ unquote 0 t.
Proof. induction u as [|c u IH]; [done|]. cbn [unquote length app]. by rewrite IH. Qed.

(** A string cut into the pieces that [escape] treats one by one. *)
Inductive Pieces : text -> text -> text -> Prop :=
| PNil : Pieces [] [] []
| PAscii c s e o : (code c <? 128)%N = true -> Pieces s e o -> Pieces (c :: s) (escape_byte c ++ e) (c :: o)
| PBad c s e o : Pieces s e o -> Pieces (c :: s) (txt "\ufffd" ++ e) (encode_rune RuneError ++ o)
| PSep n s e o : (n = 168 \/ n = 169)%N -> Pieces s e o ->
    Pieces (bytes [226; 128; n]%N ++ s) (txt "\u202" ++ [hex_char (n - 160)] ++ e) (bytes [226; 128; n]%N ++ o)
| PRun c u s e o : high c -> Forall high u -> (forall t, utf8_len (c :: u ++ t) = S (length u)) -> Pieces s e o ->
    Pieces (c :: u ++ s) (c :: u ++ e) (c :: u ++ o).

Lemma line_separator_spec s n : line_separator s = Some n ->
  exists b s', (b = 168 \/ b = 169)%N /\ n = (b - 160)%N /\ s = bytes [226; 128; b]%N ++ s'.
Proof.
  destruct s as [|a [|b [|c s]]]; try done. unfold line_separator.
  destruct (_ && _) eqn:E; [|done]. intros [= <-].
  apply andb_true_iff in E as [[Ha Hb]%andb_true_iff Hc%orb_true_iff].
  rewrite !N.eqb_eq in *. exists (code c), s. split_and!; [done..|].
  unfold bytes. cbn [map app]. by rewrite <- Ha, <- Hb, !ascii_N_embedding.
Qed.

Lemma pieces s : Pieces s (escape 0 s) (sanitize 0 s).
Proof.
  induction s as [s IH] using (induction_ltof1 _ (@length ascii)). unfold ltof in IH.
  destruct s as [|c s]; [constructor|].
  destruct (line_separator (c :: s)) as [n|] eqn:E.
  { destruct (line_separator_spec _ _ E) as (b & s' & Hb & -> & Heq).
    assert (Hs : Pieces s' (escape 0 s') (sanitize 0 s')) by (apply IH; rewrite Heq; cbn; lia).
    assert (E1 : escape 0 (c :: s) = txt "\u202" ++ [hex_char (b - 160)] ++ escape 0 s').
    { rewrite Heq. by destruct Hb as [-> | ->]. }
    assert (E2 : sanitize 0 (c :: s) = bytes [226; 128; b]%N ++ sanitize 0 s').
    { rewrite Heq. by destruct Hb as [-> | ->]. }
    rewrite E1, E2, Heq. by apply PSep. }
  cbn [escape sanitize]. rewrite E. destruct (utf8_len (c :: s)) as [|k] eqn:Hk.
  { apply PBad, IH. cbn. lia. }
  destruct (utf8_len_spec _ _ _ Hk) as (Hlen & Hhigh & Ht & Hcase).
  destruct k as [|k].
  { destruct Hcase as [[Hc _]|[_ ?]]; [|lia]. apply PAscii; [done|]. apply IH. cbn. lia. }
  destruct Hcase as [[_ ?]|[Hc _]]; [done|].
  rewrite (escape_skip (S k)), (sanitize_skip (S k)) by lia.
  pose proof (length_take s (S k)) as Hlt. rewrite (Nat.min_l (S k)) in Hlt by lia.
  rewrite <- (take_drop (S k) s) at 1. apply PRun; [done|done|by rewrite Hlt|].
  apply IH. rewrite length_drop. cbn. lia.
Qed.

Lemma scan_highs u t : Forall high u -> scan_string (u ++ t) = ('(raw, r) ← scan_string t; Some (u ++ raw, r)).
Proof.
  induction 1 as [|c u Hc _ IH]; cbn [app]; [by destruct (scan_string t) as [[? ?]|]|].
  rewrite scan_high, IH by done. by destruct (scan_string t) as [[? ?]|].
Qed.

Lemma scan_pieces s e o r : Pieces s e o -> scan_string (e ++ quote :: r) = Some (e, r).
Proof.
  induction 1 as [|c s e o Hc _ IH|c s e o _ IH|n s e o Hn _ IH|c u s e o Hc Hu _ _ IH].
  - reflexivity.
  - by rewrite <- app_assoc, scan_escape_byte, IH.
  - rewrite <- app_assoc. change (scan_string (txt "\ufffd" ++ e ++ quote :: r))
      with ('(raw, r) ← scan_string (e ++ quote :: r); Some (txt "\ufffd" ++ raw, r)). by rewrite IH.
  - rewrite <- !app_assoc. destruct Hn as [-> | ->].
    + change (scan_string _) with ('(raw, r) ← scan_string (e ++ quote :: r); Some (txt "\u2028" ++ raw, r)). by rewrite IH.
    + change (scan_string _) with ('(raw, r) ← scan_string (e ++ quote :: r); Some (txt "\u2029" ++ raw, r)). by rewrite IH.
  - rewrite <- app_comm_cons, <- app_assoc, scan_high, scan_highs, IH by done. done.
Qed.

Lemma unquote_pieces s e o : Pieces s e o -> unquote 0 e = o.
Proof.
  induction 1 as [|c s e o Hc _ IH|c s e o _ IH|n s e o Hn _ IH|c u s e o Hc Hu Ht _ IH].
  - reflexivity.
  - by rewrite unquote_escape_byte, IH.
  - rewrite <- IH. reflexivity.
  - rewrite <- IH. by destruct Hn as [-> | ->].
  - cbn [unquote]. rewrite Ht, unquote_skip, IH.
    replace (Ascii.eqb c backslash) with false; [done|]. revert Hc. unfold high. clear. intros Hc. every_byte c.
Qed.

(** A string is printed and read back; bytes that are no UTF-8 come back as
    U+FFFD. *)
Lemma parse_render_string s r :
  parse_string (tl (render_string s) ++ r) = Some (String.string_of_list_ascii (sanitize 0 (txt s)), r).
Proof.
  unfold render_string, parse_string. cbn [tl]. rewrite <- app_assoc. cbn [app].
  rewrite (scan_pieces _ _ _ r (pieces (txt s))). cbn [mbind option_bind].
  by rewrite (unquote_pieces _ _ _ (pieces (txt s))).
Qed.

(** ** Numbers *)

(** What may follow a value: the end, space, or a delimiter. *)
Definition ends (c : ascii) : bool := is_ws c || existsb (Ascii.eqb c) [","; "]"; "}"]%char.
Definition stops (r : text) : Prop := match r with [] => True | c :: _ => ends c = true end.

Lemma ends_no_digit c : ends c = true -> is_digit c = false.
Proof. intros H. every_byte c. Qed.
Lemma digit_cases (P : ascii -> Prop) c : is_digit c = true -> (forall d, 0 <= d < 10 -> P (digit_char d)) -> P c.
Proof.
  intros Hc H. pose proof (digit_val_range c Hc) as Hr.
  replace c with (digit_char (digit_val c)); [by apply H|].
  unfold digit_char, digit_val. rewrite <- (ascii_N_embedding c) at 2. f_equal. lia.
Qed.

Definition no_digit (r : text) : Prop := match r with [] => True | c :: _ => is_digit c = false end.
Lemma span_digits_app ds r : forallb is_digit ds = true -> no_digit r -> span_digits (ds ++ r) = (ds, r).
Proof.
  intros Hd Hr. induction ds as [|c ds IH]; cbn [app].
  - destruct r as [|c r]; [done|]. cbn [span_digits]. cbn in Hr. by rewrite Hr.
  - cbn in Hd. apply andb_true_iff in Hd as [Hc Hd]. cbn [span_digits]. by rewrite Hc, IH.
Qed.

Lemma format_digits_head fuel n : 0 < n < 10 ^ Z.of_nat fuel ->
  exists c t, format_digits fuel n = c :: t /\ c <> "0"%char.
Proof.
  revert n. induction fuel as [|fuel IH]; intros n Hn; [cbn in Hn; lia|]. cbn [format_digits].
  destruct (n <? 10) eqn:E; bool_to_prop.
  - exists (digit_char n), []. split; [done|]. intros Heq.
    apply (f_equal digit_val) in Heq. rewrite digit_char_val in Heq by lia. by change (n = 0) in Heq; lia.
  - destruct (IH (n / 10)) as (c & t & -> & Hc).
    + rewrite Nat2Z.inj_succ, Z.pow_succ_r in Hn by lia. split; [apply Z.div_str_pos; lia|].
      apply Z.div_lt_upper_bound; lia.
    + by exists c, (t ++ [digit_char (n mod 10)]).
Qed.

Lemma int_part_spec n r : in_u64 n -> no_digit r -> int_part (FormatUint n ++ r) = Some (FormatUint n, r).
Proof.
  intros Hn Hr. destruct (FormatUint_spec n Hn) as (Hv & Hd & Hne). unfold int_part.
  rewrite span_digits_app by done. destruct (decide (n = 0)) as [->|Hz]; [done|].
  unfold in_u64 in Hn. destruct (format_digits_head 20 n) as (c & t & E & Hc); [cbn; lia|].
  unfold FormatUint in *. rewrite E in *. by rewrite (proj2 (Ascii.eqb_neq _ _) Hc).
Qed.

Lemma some_digits_spec n r : in_u64 n -> no_digit r -> some_digits (FormatUint n ++ r) = Some (FormatUint n, r).
Proof.
  intros Hn Hr. destruct (FormatUint_spec n Hn) as (Hv & Hd & Hne). unfold some_digits.
  rewrite span_digits_app by done. by rewrite bool_decide_eq_false_2.
Qed.

Lemma digits_head (s : text) : forallb is_digit s = true -> s <> [] -> exists d t, s = digit_char d :: t /\ 0 <= d < 10.
Proof.
  destruct s as [|c s]; [done|]. cbn [forallb]. intros [Hc _]%andb_true_iff _.
  pattern c. apply (digit_cases _ c Hc). intros d Hd. by exists d, s.
Qed.

Definition number_ok (n : JsonNumber) : Prop :=
  in_u64 (jnMant n) /\ (if jnInteger n then jnExp10 n = 0 else in_u64 (Z.abs (jnExp10 n))).

Definition number_start (c : ascii) : bool := is_digit c || Ascii.eqb c "-".

Lemma stops_no_digit r : stops r -> no_digit r.
Proof. destruct r as [|c r]; [done|]. apply ends_no_digit. Qed.
Lemma stops_frac r : stops r -> frac_part r = Some ([], r).
Proof. destruct r as [|c r]; [done|]. cbn [stops frac_part]. intros H. every_byte c. Qed.
Lemma stops_exp r : stops r -> exp_part r = Some (None, r).
Proof. destruct r as [|c r]; [done|]. cbn [stops exp_part]. intros H. every_byte c. Qed.

Lemma digit_no_sign s : forallb is_digit s = true -> s <> [] -> exists c t, s = c :: t /\ is_digit c = true /\
  Ascii.eqb c "-" = false /\ Ascii.eqb c "+" = false.
Proof.
  destruct s as [|c s]; [done|]. cbn [forallb]. intros [Hc _]%andb_true_iff _. exists c, s.
  split; [done|]. split; [done|]. split; every_byte c.
Qed.

Lemma exp_part_spec e r : in_u64 (Z.abs e) -> stops r ->
  exp_part ((txt "e" ++ (if e <? 0 then txt "-" else []) ++ FormatUint (Z.abs e)) ++ r) = Some (Some e, r).
Proof.
  intros He Hr. destruct (FormatUint_spec _ He) as (Hv & Hd & Hne).
  pose proof (some_digits_spec _ _ He (stops_no_digit _ Hr)) as Hs. rewrite <- !app_assoc.
  destruct (digit_no_sign _ Hd Hne) as (c & t & E & _ & Hm & Hp).
  change (txt "e") with ["e"%char]. cbn [app exp_part].
  change (Ascii.eqb "e" "e" || Ascii.eqb "e" "E") with true. cbv iota.
  destruct (e <? 0) eqn:Eneg; bool_to_prop.
  - change (txt "-") with ["-"%char]. cbn [app]. change (Ascii.eqb "-" "-") with true. cbv iota.
    rewrite Hs. cbn [mbind option_bind]. rewrite Hv. unfold signed. do 3 f_equal. lia.
  - cbn [app]. rewrite E in Hs |- *. cbn [app] in Hs |- *. rewrite Hm, Hp. rewrite Hs. cbn [mbind option_bind].
    rewrite <- E, Hv. unfold signed. do 3 f_equal. lia.
Qed.

Lemma parse_number_spec n r : number_ok n -> stops r -> parse_number (render_number n ++ r) = Some (n, r).
Proof.
  destruct n as [neg m e int]. unfold number_ok, render_number. cbn [jnMant jnInteger jnExp10 jnNeg].
  intros [Hm He] Hr. destruct (FormatUint_spec m Hm) as (Hv & Hd & Hne).
  destruct (digit_no_sign _ Hd Hne) as (c & t & E & _ & Hsign & _).
  set (tail := if int then [] else _). unfold parse_number.
  assert (Hneg : (match ((if neg then txt "-" else []) ++ FormatUint m ++ tail) ++ r with
    | c :: r0 => if Ascii.eqb c "-" then (true, r0) else (false, ((if neg then txt "-" else []) ++ FormatUint m ++ tail) ++ r)
    | [] => (false, ((if neg then txt "-" else []) ++ FormatUint m ++ tail) ++ r) end) = (neg, FormatUint m ++ tail ++ r)).
  { destruct neg; cbn [app]; rewrite <- ?app_assoc; [reflexivity|]. rewrite E. cbn [app]. by rewrite Hsign. }
  rewrite Hneg, int_part_spec; [|done|].
  2:{ subst tail. destruct int; [by apply stops_no_digit|reflexivity]. }
  cbn [mbind option_bind]. subst tail. destruct int; cbn [app].
  - rewrite stops_frac by done. cbn [mbind option_bind]. rewrite stops_exp by done. cbn [mbind option_bind].
    rewrite app_nil_r, Hv. subst e. reflexivity.
  - change (frac_part _) with (Some ([] : text, (txt "e" ++ (if e <? 0 then txt "-" else []) ++ FormatUint (Z.abs e)) ++ r)).
    cbn [mbind option_bind]. rewrite exp_part_spec by done. cbn [mbind option_bind].
    rewrite app_nil_r, Hv. cbn [default length]. unfold len. do 3 f_equal. cbn. lia.
Qed.

Lemma render_number_head n : number_ok n -> exists c t, render_number n = c :: t /\ number_start c = true.
Proof.
  intros [Hm _]. destruct (FormatUint_spec _ Hm) as (_ & Hd & Hne).
  destruct (digit_no_sign _ Hd Hne) as (c & t & E & Hc & _). unfold render_number. destruct (jnNeg n).
  - by eexists _, _.
  - rewrite E. eexists c, _. split; [done|]. unfold number_start. by rewrite Hc.
Qed.

Lemma parse_literal_number n r : number_ok n -> stops r -> parse_literal (render_number n ++ r) = Some (JNum n, r).
Proof.
  intros Hn Hr. pose proof (parse_number_spec n r Hn Hr) as Hp. destruct (render_number_head n Hn) as (c & t & E & Hc).
  unfold parse_literal. rewrite Hp, E. cbn [app mbind option_bind]. clear - Hc. unfold number_start in Hc. every_byte c.
Qed.

(** ** Values *)

Section induction.
  Context (P : Json -> Prop) (Hnull : P JNull) (Hbool : forall b, P (JBool b)) (Hnum : forall n, P (JNum n))
    (Hstr : forall s, P (JStr s)) (Harr : forall l, Forall P l -> P (JArr l))
    (Hobj : forall ms, Forall (fun m => P (snd m)) ms -> P (JObj ms)).
Fixpoint json_tree_ind (j : Json) : P j :=
    match j with
    | JNull => Hnull
    | JBool b => Hbool b
    | JNum n => Hnum n
    | JStr s => Hstr s
    | JArr l => Harr l ((fix go l : Forall P l := match l with
                                                 | [] => Forall_nil_2 P
                                                 | j :: l => Forall_cons_2 P j l (json_tree_ind j) (go l)
                                                 end) l)
    | JObj ms => Hobj ms ((fix go ms : Forall (fun m => P (snd m)) ms := match ms with
                             | [] => Forall_nil_2 _
                             | m :: ms => Forall_cons_2 _ m ms (json_tree_ind (snd m)) (go ms)
                             end) ms)
    end.
End induction.

(** The trees that can be printed and read back: valid strings and numbers of
    64 bits. *)
Inductive Printable : Json -> Prop :=
| PrNull : Printable JNull
| PrBool b : Printable (JBool b)
| PrNum n : number_ok n -> Printable (JNum n)
| PrStr s : valid_utf8 (txt s) = true -> Printable (JStr s)
| PrArr l : Forall Printable l -> Printable (JArr l)
| PrObj ms : Forall (fun m => valid_utf8 (txt (fst m)) = true /\ Printable (snd m)) ms -> Printable (JObj ms).

Fixpoint nesting (j : Json) : Z :=
  match j with
  | JArr l => 1 + foldr Z.max 0 (map nesting l)
  | JObj ms => 1 + foldr Z.max 0 (map (fun m => nesting (snd m)) ms)
  | _ => 0
  end.

Lemma foldr_max_le {A} (f : A -> Z) l d : foldr Z.max 0 (map f l) <= d -> Forall (fun x => f x <= d) l.
Proof. induction l as [|x l IH]; cbn; constructor; [lia|]. apply IH. lia. Qed.

Definition json_start (c : ascii) : bool :=
  negb (is_ws c) && negb (Ascii.eqb c "]") && negb (Ascii.eqb c "}").
Lemma number_json_start c : number_start c = true -> json_start c = true.
Proof. intros H. every_byte c. Qed.

Lemma render_head j : Printable j -> exists c t, Marshal j = c :: t /\ json_start c = true.
Proof.
  intros [| [] |n Hn|s _|l _|ms _]; try by eexists _, _.
  destruct (render_number_head n Hn) as (c & t & E & Hc). exists c, t. split; [done|]. by apply number_json_start.
Qed.

Lemma skip_ws_start c t : json_start c = true -> skip_ws (c :: t) = c :: t.
Proof. unfold json_start. cbn [skip_ws]. by destruct (is_ws c). Qed.

Lemma parse_string_render s r : valid_utf8 (txt s) = true ->
  exists t, render_string s ++ r = quote :: t /\ parse_string t = Some (s, r).
Proof.
  intros Hs. exists (tl (render_string s) ++ r). split; [done|]. rewrite parse_render_string.
  apply bool_decide_eq_true in Hs. unfold txt in *. by rewrite Hs, String.string_of_list_ascii_of_string.
Qed.

(** What the parser does with a printed value, given enough fuel. *)
Definition reads (j : Json) : Prop := forall fuel d r, stops r -> nesting j <= d ->
  (2 * length (Marshal j) + 1 <= fuel)%nat -> parse_value fuel d (Marshal j ++ r) = Some (j, r).

Lemma commas_cons s l : l <> [] -> commas (s :: l) = s ++ txt "," ++ commas l.
Proof. by destruct l. Qed.

Lemma parse_elements_render l : l <> [] -> Forall reads l -> forall fuel d r, Forall (fun j => nesting j <= d) l ->
  (2 * length (commas (map Marshal l)) + 2 <= fuel)%nat ->
  parse_elements fuel d (commas (map Marshal l) ++ txt "]" ++ r) = Some (l, r).
Proof.
  intros Hne Hl. induction Hl as [|j l Hj Hl IH]; [done|]. clear Hne. intros fuel d r Hd Hf.
  apply Forall_cons in Hd as [Hdj Hd]. destruct fuel as [|fuel]; [lia|]. cbn [parse_elements].
  destruct (decide (l = [])) as [->|Hne].
  - cbn [map commas] in *. rewrite Hj by (done || lia). reflexivity.
  - assert (Hm : map Marshal l <> []) by by destruct l. cbn [map] in *. rewrite commas_cons in * by done.
    rewrite !length_app in Hf. change (length (txt ",")) with 1%nat in Hf. rewrite <- !app_assoc.
    rewrite Hj by (done || lia). cbn [mbind option_bind]. change (skip_ws (txt "," ++ ?t)) with (txt "," ++ t).
    change (txt ",") with [","%char]. cbn [app]. change (Ascii.eqb "," ",") with true. cbv iota.
    rewrite IH by (done || lia). reflexivity.
Qed.

Definition render_member (m : string * Json) : text := render_string (fst m) ++ txt ":" ++ Marshal (snd m).

Lemma parse_members_render ms : ms <> [] ->
  Forall (fun m => valid_utf8 (txt (fst m)) = true /\ reads (snd m)) ms ->
  forall fuel d r, Forall (fun m => nesting (snd m) <= d) ms ->
  (2 * length (commas (map render_member ms)) + 2 <= fuel)%nat ->
  parse_members fuel d (commas (map render_member ms) ++ txt "}" ++ r) = Some (ms, r).
Proof.
  intros Hne Hl. induction Hl as [|[k j] ms [Hk Hj] Hl IH]; [done|]. clear Hne. intros fuel d r Hd Hf.
  apply Forall_cons in Hd as [Hdj Hd]. destruct fuel as [|fuel]; [lia|]. cbn [fst snd] in *.
  assert (Hstep : forall tail rest, (2 * length (render_member (k, j)) <= fuel)%nat -> stops tail ->
    match skip_ws tail with
    | e :: s4 => if Ascii.eqb e "," then '(ms, r) ← parse_members fuel d s4; Some ((k, j) :: ms, r)
                 else if Ascii.eqb e "}" then Some ([(k, j)], s4) else None
    | [] => None
    end = rest -> parse_members (S fuel) d (render_member (k, j) ++ tail) = rest).
  { intros tail rest Hlen Hst Hrest. unfold render_member in *. cbn [fst snd] in *. rewrite <- !app_assoc.
    destruct (parse_string_render k (txt ":" ++ Marshal j ++ tail) Hk) as (t & Ht & Hp). rewrite Ht. cbn [parse_members].
    change (skip_ws (quote :: t)) with (quote :: t). change (Ascii.eqb quote quote) with true. cbv iota. cbn [negb].
    rewrite Hp. cbn [mbind option_bind]. change (txt ":") with [":"%char]. cbn [app].
    change (skip_ws (":"%char :: ?u)) with (":"%char :: u). change (Ascii.eqb ":" ":") with true. cbn [negb].
    rewrite !length_app in Hlen. change (length (txt ":")) with 1%nat in Hlen. rewrite Hj by (done || lia).
    cbn [mbind option_bind]. exact Hrest. }
  destruct (decide (ms = [])) as [->|Hne].
  - cbn [map commas] in *. apply Hstep; [lia|done|reflexivity].
  - assert (Hm : map render_member ms <> []) by by destruct ms. cbn [map] in *. rewrite commas_cons in * by done.
    rewrite !length_app in Hf. change (length (txt ",")) with 1%nat in Hf. rewrite <- !app_assoc.
    apply Hstep; [lia|done|]. change (skip_ws (txt "," ++ ?t)) with ([","%char] ++ t).
    cbn [app]. change (Ascii.eqb "," ",") with true. cbv iota. rewrite IH by (done || lia). reflexivity.
Qed.

(** What an opening bracket leads to. *)
Lemma parse_open_array fuel d s : parse_value (S fuel) d ("["%char :: s) =
  if d <=? 0 then None
  else match skip_ws s with
       | [] => None
       | c1 :: r => if Ascii.eqb c1 "]" then Some (JArr [], r)
                    else '(l, r) ← parse_elements fuel (d - 1) s; Some (JArr l, r)
       end.
Proof. reflexivity. Qed.
Lemma parse_open_object fuel d s : parse_value (S fuel) d ("{"%char :: s) =
  if d <=? 0 then None
  else match skip_ws s with
       | [] => None
       | c1 :: r => if Ascii.eqb c1 "}" then Some (JObj [], r)
                    else '(ms, r) ← parse_members fuel (d - 1) s; Some (JObj ms, r)
       end.
Proof. reflexivity. Qed.

Lemma foldr_max_nonneg l : 0 <= foldr Z.max 0 l.
Proof. induction l; cbn; lia. Qed.
Lemma commas_head s l c t : s = c :: t -> exists t', commas (s :: l) = c :: t'.
Proof. intros ->. destruct l; cbn [commas]; by eexists. Qed.
Lemma json_start_open c (A : Type) (x z : A) : json_start c = true -> (if Ascii.eqb c "]" then x else z) = z.
Proof. intros H. every_byte c. Qed.

Lemma array_read l fuel d r : Forall Printable l -> Forall reads l -> nesting (JArr l) <= d ->
  (2 * length (Marshal (JArr l)) + 1 <= S fuel)%nat -> parse_value (S fuel) d (Marshal (JArr l) ++ r) = Some (JArr l, r).
Proof.
  cbn [Marshal nesting]. intros Hl Hr Hd Hf. pose proof (foldr_max_nonneg (map nesting l)).
  rewrite <- !app_assoc. change (txt "[" ++ ?u) with ("["%char :: u). rewrite parse_open_array.
  replace (d <=? 0) with false by lia. rewrite !length_app in Hf.
  change (length (txt "[")) with 1%nat in Hf. change (length (txt "]")) with 1%nat in Hf.
  destruct l as [|j l]; [reflexivity|]. rewrite parse_elements_render;
    [|done|done|apply foldr_max_le; lia|lia].
  apply Forall_cons in Hl as [Hj _]. destruct (render_head j Hj) as (c & t & E & Hc). cbn [map].
  destruct (commas_head _ (map Marshal l) _ _ E) as [t' ->]. cbn [app]. rewrite skip_ws_start by done.
  by apply json_start_open.
Qed.

Lemma object_read ms fuel d r : Forall (fun m => valid_utf8 (txt (fst m)) = true /\ reads (snd m)) ms ->
  nesting (JObj ms) <= d -> (2 * length (Marshal (JObj ms)) + 1 <= S fuel)%nat ->
  parse_value (S fuel) d (Marshal (JObj ms) ++ r) = Some (JObj ms, r).
Proof.
  cbn [Marshal nesting]. fold render_member. intros Hr Hd Hf. pose proof (foldr_max_nonneg (map (fun m => nesting (snd m)) ms)).
  rewrite <- !app_assoc. change (txt "{" ++ ?u) with ("{"%char :: u). rewrite parse_open_object.
  replace (d <=? 0) with false by lia. rewrite !length_app in Hf.
  change (length (txt "{")) with 1%nat in Hf. change (length (txt "}")) with 1%nat in Hf.
  change (map (fun m => render_string (fst m) ++ txt ":" ++ Marshal (snd m)) ms) with (map render_member ms) in *.
  destruct ms as [|m ms]; [reflexivity|]. rewrite parse_members_render;
    [|done|done|apply (foldr_max_le (fun m => nesting (snd m))); lia|lia].
  cbn [map]. assert (E : render_member m = quote :: tl (render_member m)) by done.
  destruct (commas_head _ (map render_member ms) _ _ E) as [t' ->]. reflexivity.
Qed.

Lemma parse_value_render j : Printable j -> reads j.
Proof.
  induction j as [|b|n|s|l IH|ms IH] using json_tree_ind; intros Hp fuel d r Hr Hd Hf; (destruct fuel as [|fuel]; [lia|]).
  - reflexivity.
  - by destruct b.
  - inversion Hp as [| |? Hn| | |]; subst. cbn [Marshal] in *.
    pose proof (parse_literal_number n r Hn Hr) as Hl. destruct (render_number_head n Hn) as (c & t & E & Hc).
    rewrite E in Hl |- *. cbn [app] in Hl |- *. cbn [parse_value]. rewrite skip_ws_start by by apply number_json_start.
    rewrite Hl. clear - Hc. unfold number_start in Hc. every_byte c.
  - inversion Hp as [| | |? Hs| |]; subst. cbn [Marshal].
    destruct (parse_string_render s r Hs) as (t & Ht & E). rewrite Ht. cbn [parse_value].
    change (skip_ws (quote :: t)) with (quote :: t). change (Ascii.eqb quote quote) with true. cbv iota. by rewrite E.
  - inversion Hp as [| | | |? Hl|]; subst. apply array_read; [done| |done|done].
    apply Forall_forall. intros j Hj. rewrite Forall_forall in IH, Hl. by apply IH, Hl.
  - inversion Hp as [| | | | |? Hl]; subst. apply object_read; [|done|done].
    apply Forall_forall. intros m Hm. rewrite Forall_forall in IH, Hl. destruct (Hl m Hm). split; [done|]. by apply IH.
Qed.

(** Whatever [json.Marshal] prints of a tree of valid strings and numbers that
    is not nested too deep, [json.Unmarshal] reads back as it was. *)
Lemma parse_json_Marshal j : Printable j -> nesting j <= maxNestingDepth -> parse_json (Marshal j) = Some j.
Proof.
  intros Hp Hd. unfold parse_json. rewrite <- (app_nil_r (Marshal j)) at 2.
  rewrite (parse_value_render j Hp) by (done || (unfold fuel_for; lia)). reflexivity.
Qed.

(** ** The fuel is enough *)

(** A reader that leaves less than it was given. *)
Definition consumes {A} (f : text -> option (A * text)) : Prop :=
  forall s a r, f s = Some (a, r) -> (length r < length s)%nat.

Lemma skip_ws_length s : (length (skip_ws s) <= length s)%nat.
Proof. induction s as [|c s IH]; cbn [skip_ws]; [done|]. destruct (is_ws c); cbn [length]; lia. Qed.

Lemma scan_string_consumes : consumes scan_string.
Proof.
  intros s. induction s as [s IH] using (induction_ltof1 _ (@length ascii)). unfold ltof in IH. intros a r.
  destruct s as [|c s1]; [done|]. cbn [scan_string].
  destruct (Ascii.eqb c quote); [intros [= <- <-]; cbn; lia|].
  assert (Hrec : forall s' (k : text -> text), (length s' < length (c :: s1))%nat ->
    ('(raw, r) ← scan_string s'; Some (k raw, r)) = Some (a, r) -> (length r < length (c :: s1))%nat).
  { intros s' k Hs' H. destruct (scan_string s') as [[raw r']|] eqn:E; [|done]. cbn in H. simplify_eq.
    specialize (IH _ Hs' _ _ E). lia. }
  destruct (Ascii.eqb c backslash).
  - destruct s1 as [|e s2]; [done|]. destruct (Ascii.eqb e "u").
    + destruct s2 as [|x1 [|x2 [|x3 [|x4 s3]]]]; try done. destruct (getu4 x1 x2 x3 x4); [|done]. cbn [mbind option_bind].
      apply (Hrec s3 (fun raw => c :: e :: x1 :: x2 :: x3 :: x4 :: raw)). cbn. lia.
    + destruct (unescape e); [|done]. cbn [mbind option_bind]. apply (Hrec s2 (fun raw => c :: e :: raw)). cbn. lia.
  - destruct (_ <? _)%N; [done|]. apply (Hrec s1 (cons c)). cbn. lia.
Qed.

Lemma parse_string_consumes : consumes parse_string.
Proof.
  intros s a r. unfold parse_string. destruct (scan_string s) as [[raw r']|] eqn:E; [|done]. cbn. intros [= _ <-].
  by apply scan_string_consumes in E.
Qed.

Lemma span_digits_length s ds r : span_digits s = (ds, r) -> (length ds + length r = length s)%nat.
Proof.
  revert ds r. induction s as [|c s IH]; intros ds r; cbn [span_digits]; [by intros [= <- <-]|].
  destruct (is_digit c); [|by intros [= <- <-]]. destruct (span_digits s) as [ds' r'] eqn:E. intros [= <- <-].
  specialize (IH _ _ eq_refl). cbn. lia.
Qed.

Lemma some_digits_consumes : consumes some_digits.
Proof.
  intros s a r. unfold some_digits. destruct (span_digits s) as [ds r'] eqn:E. apply span_digits_length in E.
  case_bool_decide as Hd; [done|]. intros [= <- <-]. destruct ds; [done|]. cbn in E. lia.
Qed.
Lemma int_part_consumes : consumes int_part.
Proof.
  intros s a r. unfold int_part. destruct (span_digits s) as [[|c ds] r'] eqn:E; [done|]. apply span_digits_length in E.
  destruct (_ && _); [done|]. intros [= <- <-]. cbn in E. lia.
Qed.
Lemma frac_part_length s a r : frac_part s = Some (a, r) -> (length r <= length s)%nat.
Proof.
  destruct s as [|c s]; cbn [frac_part]; [by intros [= _ <-]|]. destruct (Ascii.eqb c "."); [|by intros [= _ <-]].
  intros H%some_digits_consumes. cbn. lia.
Qed.
Lemma exp_part_length s a r : exp_part s = Some (a, r) -> (length r <= length s)%nat.
Proof.
  destruct s as [|c s]; cbn [exp_part]; [by intros [= _ <-]|]. destruct (_ || _); [|by intros [= _ <-]].
  assert (Hs : forall b s', (length s' <= length s)%nat ->
    ('(ds, r) ← some_digits s'; Some (Some (signed b (dec_value ds)), r)) = Some (a, r) -> (length r <= length (c :: s))%nat).
  { intros b s' Hs' H. destruct (some_digits s') as [[ds r']|] eqn:E; [|done]. apply some_digits_consumes in E.
    cbn in H. simplify_eq. cbn. lia. }
  destruct s as [|g s']; [by apply (Hs false)|].
  destruct (Ascii.eqb g "-"); [apply (Hs true s'); cbn; lia|]. destruct (Ascii.eqb g "+"); [apply (Hs false s'); cbn; lia|].
  by apply (Hs false).
Qed.

Lemma parse_number_consumes : consumes parse_number.
Proof.
  intros s a r. unfold parse_number.
  assert (Hs : forall b s', (length s' <= length s)%nat ->
    ('(ip, s) ← int_part s'; '(fp, s) ← frac_part s; '(e, s) ← exp_part s;
     Some (mkNumber b (dec_value (ip ++ fp)) (default 0 e - len fp) (bool_decide (fp = []) && bool_decide (e = None)), s))
    = Some (a, r) -> (length r < length s)%nat).
  { intros b s' Hs'. destruct (int_part s') as [[ip s1]|] eqn:E1; [|done]. apply int_part_consumes in E1. cbn [mbind option_bind].
    destruct (frac_part s1) as [[fp s2]|] eqn:E2; [|done]. apply frac_part_length in E2. cbn [mbind option_bind].
    destruct (exp_part s2) as [[e s3]|] eqn:E3; [|done]. apply exp_part_length in E3. cbn [mbind option_bind].
    intros [= _ <-]. lia. }
  destruct s as [|c s']; [by apply (Hs false)|].
  destruct (Ascii.eqb c "-"); [apply (Hs true s'); cbn; lia|by apply (Hs false)].
Qed.

Lemma strip_prefix_length p s r : strip_prefix p s = Some r -> (length r + length p = length s)%nat.
Proof.
  revert s. induction p as [|c p IH]; intros [|d s]; cbn [strip_prefix]; try done; try (intros [= <-]; cbn; lia).
  destruct (Ascii.eqb c d); [|done]. intros H%IH. cbn. lia.
Qed.
Lemma parse_literal_consumes : consumes parse_literal.
Proof.
  intros s a r. unfold parse_literal.
  destruct (strip_prefix (txt "true") s) as [r1|] eqn:E1; [apply strip_prefix_length in E1; cbn in E1; intros [= _ <-]; lia|].
  destruct (strip_prefix (txt "false") s) as [r1|] eqn:E2; [apply strip_prefix_length in E2; cbn in E2; intros [= _ <-]; lia|].
  destruct (strip_prefix (txt "null") s) as [r1|] eqn:E3; [apply strip_prefix_length in E3; cbn in E3; intros [= _ <-]; lia|].
  destruct (parse_number s) as [[n r1]|] eqn:E; [|done]. cbn. intros [= _ <-]. by apply parse_number_consumes in E.
Qed.


Lemma parse_consumes fuel :
  (forall d, consumes (parse_value fuel d)) /\ (forall d, consumes (parse_elements fuel d)) /\
  (forall d, consumes (parse_members fuel d)).
Proof.
  induction fuel as [|fuel (IHv & IHe & IHm)]; [by split_and!|]. split_and!; intros d s a r.
  - cbn [parse_value]. pose proof (skip_ws_length s). destruct (skip_ws s) as [|c s1]; [done|]. cbn [length] in *.
    pose proof (skip_ws_length s1) as Hs1. destruct (Ascii.eqb c quote).
    { destruct (parse_string s1) as [[str r']|] eqn:E; [|done]. apply parse_string_consumes in E. cbn. intros [= _ <-]. lia. }
    destruct (Ascii.eqb c "[").
    { destruct (d <=? 0); [done|]. destruct (skip_ws s1) as [|c1 s2]; [done|]. cbn [length] in Hs1.
      destruct (Ascii.eqb c1 "]"); [intros [= _ <-]; lia|].
      destruct (parse_elements _ _ _) as [[l r']|] eqn:E; [|done]. apply IHe in E. cbn. intros [= _ <-]. lia. }
    destruct (Ascii.eqb c "{").
    { destruct (d <=? 0); [done|]. destruct (skip_ws s1) as [|c1 s2]; [done|]. cbn [length] in Hs1.
      destruct (Ascii.eqb c1 "}"); [intros [= _ <-]; lia|].
      destruct (parse_members _ _ _) as [[l r']|] eqn:E; [|done]. apply IHm in E. cbn. intros [= _ <-]. lia. }
    intros E%parse_literal_consumes. cbn in E. lia.
  - cbn [parse_elements]. destruct (parse_value fuel d s) as [[j s1]|] eqn:E; [|done]. apply IHv in E. cbn [mbind option_bind].
    pose proof (skip_ws_length s1). destruct (skip_ws s1) as [|c s2]; [done|]. cbn [length] in *.
    destruct (Ascii.eqb c ",").
    { destruct (parse_elements _ _ _) as [[l r']|] eqn:E2; [|done]. apply IHe in E2. cbn. intros [= _ <-]. lia. }
    destruct (Ascii.eqb c "]"); [|done]. intros [= _ <-]. lia.
  - cbn [parse_members]. pose proof (skip_ws_length s). destruct (skip_ws s) as [|q s0]; [done|]. cbn [length] in *.
    destruct (negb _); [done|]. destruct (parse_string s0) as [[k s1]|] eqn:E; [|done]. apply parse_string_consumes in E.
    cbn [mbind option_bind]. pose proof (skip_ws_length s1). destruct (skip_ws s1) as [|c s2]; [done|]. cbn [length] in *.
    destruct (negb _); [done|]. destruct (parse_value fuel d s2) as [[j s3]|] eqn:E2; [|done]. apply IHv in E2.
    cbn [mbind option_bind]. pose proof (skip_ws_length s3). destruct (skip_ws s3) as [|e s4]; [done|]. cbn [length] in *.
    destruct (Ascii.eqb e ",").
    { destruct (parse_members _ _ _) as [[l r']|] eqn:E3; [|done]. apply IHm in E3. cbn. intros [= _ <-]. lia. }
    destruct (Ascii.eqb e "}"); [|done]. intros [= _ <-]. lia.
Qed.

(** More fuel than twice the length of the text changes nothing, so the parser
    never stops for want of it. *)
Lemma parse_fuel fuel :
  (forall fuel' d s, (2 * length s + 1 <= fuel)%nat -> (2 * length s + 1 <= fuel')%nat ->
     parse_value fuel d s = parse_value fuel' d s) /\
  (forall fuel' d s, (2 * length s + 2 <= fuel)%nat -> (2 * length s + 2 <= fuel')%nat ->
     parse_elements fuel d s = parse_elements fuel' d s) /\
  (forall fuel' d s, (2 * length s + 2 <= fuel)%nat -> (2 * length s + 2 <= fuel')%nat ->
     parse_members fuel d s = parse_members fuel' d s).
Proof.
  induction fuel as [|fuel (IHv & IHe & IHm)]; [split_and!; intros; lia|].
  split_and!; intros [|fuel'] d s Hf Hf'; try lia.
  - cbn [parse_value]. pose proof (skip_ws_length s). destruct (skip_ws s) as [|c s1]; [done|]. cbn [length] in *.
    rewrite (IHe fuel'), (IHm fuel') by lia. done.
  - cbn [parse_elements]. rewrite (IHv fuel') by lia. destruct (parse_value fuel' d s) as [[j s1]|] eqn:E; [|done].
    apply parse_consumes in E. cbn [mbind option_bind]. pose proof (skip_ws_length s1).
    destruct (skip_ws s1) as [|c s2]; [done|]. cbn [length] in *. by rewrite (IHe fuel') by lia.
  - cbn [parse_members]. pose proof (skip_ws_length s). destruct (skip_ws s) as [|q s0]; [done|]. cbn [length] in *.
    destruct (negb _); [done|]. destruct (parse_string s0) as [[k s1]|] eqn:E; [|done]. apply parse_string_consumes in E.
    cbn [mbind option_bind]. pose proof (skip_ws_length s1). destruct (skip_ws s1) as [|c s2]; [done|]. cbn [length] in *.
    rewrite (IHv fuel') by lia. destruct (negb _); [done|].
    destruct (parse_value fuel' d s2) as [[j s3]|] eqn:E2; [|done]. apply parse_consumes in E2.
    cbn [mbind option_bind]. pose proof (skip_ws_length s3). destruct (skip_ws s3) as [|e s4]; [done|]. cbn [length] in *.
    by rewrite (IHm fuel') by lia.
Qed.

Lemma parse_json_fuel s fuel : (fuel_for s <= fuel)%nat ->
  parse_json s = ('(j, r) ← parse_value fuel maxNestingDepth s; if bool_decide (skip_ws r = []) then Some j else None).
Proof.
  intros Hf. unfold parse_json. rewrite (proj1 (parse_fuel _) fuel); [done|unfold fuel_for; lia|].
  unfold fuel_for in Hf. lia.
Qed.
