(* ===== verification/FrameSpec.v ===== *)
(** * Client frames as bytes

    [DecodeClientMessage] is given the bytes of a frame; this file puts the
    reader of [JsonText] under the decoder of [Protocol]. *)

From Stdlib Require Import Ascii.
From S2P Require Import Prelude Money Decimal GoTime Domain Float64 Json Protocol ProtocolSpec JsonText JsonTextSpec.

Definition DecodeClientBytes (data : text) : presult ClientMessage := DecodeClientMessage (parse_json data).

(** The text a client sends, with the literals of a health report. *)
Definition frame_text (m : ClientMessage) (rtt jitter : JsonNumber) : text := Marshal (frame_of m rtt jitter).

(** The strings of a message. *)
Definition message_strings (m : ClientMessage) : list string :=
  match m with
  | Hello v p d => [v; p; d]
  | Subscribe s iv cs => s :: iv :: default [] cs
  | Unsubscribe cs => cs
  | SetInterval iv => [iv]
  | Ping _ _ => []
  | LatencyReport _ _ _ _ w _ _ => [w]
  | TierOverride t => [t]
  end.

Lemma printable_int z : in_i64 z -> Printable (int_json z).
Proof. unfold in_i64. intros Hz. constructor. split; cbn; [unfold in_u64; lia|done]. Qed.

Lemma printable_strings cs : Forall (fun s => valid_utf8 (txt s) = true) cs -> Printable (JArr (JStr <$> cs)).
Proof. intros H. constructor. apply Forall_fmap. eapply Forall_impl; [exact H|]. intros s Hs. by constructor. Qed.
Lemma nesting_strings cs : nesting (JArr (JStr <$> cs)) = 1.
Proof. cbn [nesting]. assert (foldr Z.max 0 (map nesting (JStr <$> cs)) = 0) as ->; [|done]. induction cs; [done|]. cbn. by rewrite IHcs. Qed.

(** A member whose value is known to be printable and shallow. *)
Definition good_member (m : string * Json) : Prop :=
  valid_utf8 (txt (fst m)) = true /\ Printable (snd m) /\ nesting (snd m) <= 1.
Lemma good_members ms : Forall good_member ms -> Printable (JObj ms) /\ nesting (JObj ms) <= 2.
Proof.
  intros H. split.
  - constructor. eapply Forall_impl; [exact H|]. by intros m (? & ? & _).
  - cbn [nesting]. assert (foldr Z.max 0 (map (fun m => nesting (snd m)) ms) <= 1); [|lia].
    induction H as [|m ms (_ & _ & Hm) _ IH]; cbn; lia.
Qed.

Lemma good_string k s : valid_utf8 (txt k) = true -> valid_utf8 (txt s) = true -> good_member (k, JStr s).
Proof. intros Hk Hs. split_and!; [done|by constructor|done]. Qed.
Lemma good_int k z : valid_utf8 (txt k) = true -> in_i64 z -> good_member (k, int_json z).
Proof. intros Hk Hz. split_and!; [done|by apply printable_int|done]. Qed.
Lemma good_number k n : valid_utf8 (txt k) = true -> number_ok n -> good_member (k, JNum n).
Proof. intros Hk Hn. split_and!; [done|by constructor|done]. Qed.
Lemma good_strings k cs : valid_utf8 (txt k) = true -> Forall (fun s => valid_utf8 (txt s) = true) cs ->
  good_member (k, JArr (JStr <$> cs)).
Proof. intros Hk Hc. split_and!; [done|by apply printable_strings|]. cbn [snd]. by rewrite nesting_strings. Qed.

Create HintDb frames.
#[export] Hint Resolve good_string good_int good_number good_strings : frames.

Lemma frame_members m rtt jitter :
  valid_message m -> Forall (fun s => valid_utf8 (txt s) = true) (message_strings m) -> number_ok rtt -> number_ok jitter ->
  Forall good_member (frame_header m ++ payload_members m rtt jitter).
Proof.
  intros Hv Hs Hr Hj. apply Forall_app. split.
  { repeat apply Forall_cons_2; [| |constructor].
    - apply good_string; [done|by destruct m].
    - apply good_int; [done|]. unfold in_i64, Version. lia. }
  destruct m as [v p d|s iv cs|cs|iv|i t|r j n t w p c|t]; cbn [message_strings payload_members valid_message] in *;
    repeat (apply Forall_cons in Hs as [? Hs]); destruct_and?.
  - by repeat apply Forall_cons_2; eauto with frames.
  - repeat apply Forall_cons_2; eauto with frames. destruct cs as [cs|]; [by apply good_strings|].
    split_and!; [done|constructor|done].
  - by repeat apply Forall_cons_2; eauto with frames.
  - by repeat apply Forall_cons_2; eauto with frames.
  - by repeat apply Forall_cons_2; eauto with frames.
  - by repeat apply Forall_cons_2; try (apply good_int; [done|]); eauto with frames; unfold in_i64; lia.
  - by repeat apply Forall_cons_2; eauto with frames.
Qed.

(** C21: Every well-formed frame gets through, byte for byte.  The JSON text of
    a valid message of the current protocol version, whatever its strings
    contain of valid UTF-8, decodes to that message: the escapes of the printer
    are undone by the reader, the members are found by name, the integers keep
    their value and the health samples are rounded to the nearest double. *)
Theorem frame_text_decodes m rtt jitter :
  valid_message m -> literals_of m rtt jitter ->
  (match m with TierOverride t => TrimSpace (txt t) = txt t | _ => True end) ->
  Forall (fun s => valid_utf8 (txt s) = true) (message_strings m) -> number_ok rtt -> number_ok jitter ->
  DecodeClientBytes (frame_text m rtt jitter) = inl m.
Proof.
  intros Hv Hl Ht Hs Hr Hj. destruct (good_members _ (frame_members m rtt jitter Hv Hs Hr Hj)) as [Hp Hn].
  unfold DecodeClientBytes, frame_text. rewrite parse_json_Marshal; [by apply decode_frame|done|].
  unfold frame_of, maxNestingDepth. lia.
Qed.

(** A greeting whose version holds a quote, a line break and a letter of two bytes. *)
Definition odd_version : string := String.string_of_list_ascii ([quote; "010"]%char ++ bytes [195; 169]%N).

Lemma frame_text_decodes_witness :
  DecodeClientBytes (frame_text (Hello odd_version "ios" "d-1") (mkNumber false 0 0 true) (mkNumber false 0 0 true)) =
  inl (Hello odd_version "ios" "d-1").
Proof.
  apply (frame_text_decodes (Hello odd_version "ios" "d-1") (mkNumber false 0 0 true) (mkNumber false 0 0 true));
    try exact I.
  - repeat apply Forall_cons_2; [..|constructor]; vm_compute; reflexivity.
  - split; [unfold in_u64; cbn; lia|reflexivity].
  - split; [unfold in_u64; cbn; lia|reflexivity].
Defined.
