(* ===== verification/Fixture.v ===== *)
(** * Replay fixtures: the file side of [internal/exchange/replay/provider.go]

    A fixture is a text of JSON lines; [Load] turns it into the events the
    replay provider plays.  The file is what the operating system gives: no
    file, or the bytes read and whether the reading failed after them. *)

From Stdlib Require Import Ascii.
From S2P Require Import Prelude Money Decimal GoTime Domain Float64 Json JsonText TimeText Book Provider Feed.

(** ** Lines *)

(** The token limit of the scanner: a line of this length does not fit. *)
Definition maxTokenSize : Z := 1048576.
Definition newline : ascii := "010".

Definition dropCR (s : text) : text :=
  match rev s with c :: r => if Ascii.eqb c "013" then rev r else s | [] => s end.

(** [bufio.Scanner] over lines; the flag is [ErrTooLong], which ends it.
    [cur] is the line under way, backwards. *)
Fixpoint scan_lines (cur data : text) : list text * bool :=
  match data with
  | [] =>
      if bool_decide (cur = []) then ([], false)
      else if maxTokenSize <=? len cur then ([], true) else ([dropCR (rev cur)], false)
  | c :: data =>
      if Ascii.eqb c newline then
        if maxTokenSize <=? len cur then ([], true)
        else let '(lines, long) := scan_lines [] data in (dropCR (rev cur) :: lines, long)
      else scan_lines (c :: cur) data
  end.

(** ** Records *)

Record fixtureLine := mkLine {
  flType : string; flTradeID : Z; flTimestamp : string; flPrice : string; flQuantity : string; flSide : string;
  flEpoch : Z; flFirstUpdate : Z; flLastUpdate : Z; flBids : list (string * string); flAsks : list (string * string) }.

Definition decode_line (ms : list (string * Json)) : option fixtureLine :=
  type ← assign string_value "" "type" ms;
  id ← assign uint_value 0 "tradeId" ms;
  ts ← assign string_value "" "timestamp" ms;
  price ← assign string_value "" "price" ms;
  qty ← assign string_value "" "quantity" ms;
  side ← assign string_value "" "side" ms;
  epoch ← assign uint_value 0 "epoch" ms;
  first ← assign uint_value 0 "firstUpdateId" ms;
  last ← assign uint_value 0 "lastUpdateId" ms;
  bids ← levels_field "bids" ms;
  asks ← levels_field "asks" ms;
  Some (mkLine type id ts price qty side epoch first last bids asks).

Inductive LineError := BadJson | BadTimestamp | BadField (e : error) | UnknownType.
(** Every one of them is an [ErrInvalidFixture]; lines count from one. *)
Inductive FixtureError := FixtureUnreadable | FixtureLine (n : Z) (e : LineError) | FixtureScan | FixtureEmpty.

(** A result, or an error; [None] is a panic. *)
Abbreviation outcome E A := (option (A + E)).
Definition checked {A B} (o : option (res A)) (k : A -> outcome LineError B) : outcome LineError B :=
  r ← o; match r with Ok a => k a | Err e => Some (inr (BadField e)) end.

Definition pair_texts (l : list (string * string)) : list (text * text) := map (fun p => (txt (fst p), txt (snd p))) l.

Definition toEvent (sym : Symbol) (r : fixtureLine) : outcome LineError MarketEvent :=
  match ParseRFC3339 (txt (flTimestamp r)) with
  | None => Some (inr BadTimestamp)
  | Some ts =>
      if bool_decide (flType r = "trade"%string) then
        checked (ParsePrice sym (txt (flPrice r))) (fun price =>
        checked (ParseQty sym (txt (flQuantity r))) (fun qty =>
        checked (Some (if bool_decide (flSide r = ""%string) then Ok SideBuy else ParseSide (flSide r))) (fun side =>
        Some (inl (TradeEvent (mkTrade (flTradeID r) (ID sym) (tUTC ts) price qty side))))))
      else if bool_decide (flType r = "book_delta"%string) || bool_decide (flType r = "order_book_delta"%string) then
        checked (parseLevels sym (pair_texts (flBids r)) true) (fun bids =>
        checked (parseLevels sym (pair_texts (flAsks r)) false) (fun asks =>
        Some (inl (BookDeltaEvent (mkDelta (ID sym) (flEpoch r) (flFirstUpdate r) (flLastUpdate r) bids asks (tUTC ts))))))
      else Some (inr UnknownType)
  end.

(** ** The file *)

(** Blank lines and comments are skipped. *)
Definition skipped (line : text) : bool :=
  bool_decide (line = []) || match strip_prefix (txt "//") line with Some _ => true | None => false end.

Definition line_event (sym : Symbol) (line : text) : outcome LineError MarketEvent :=
  match (ms ← parse_json line ≫= members; decode_line ms) with
  | None => Some (inr BadJson)
  | Some r => toEvent sym r
  end.

(** [n] lines were read before these. *)
Fixpoint load_lines (sym : Symbol) (n : Z) (lines : list text) : outcome FixtureError (list MarketEvent) :=
  match lines with
  | [] => Some (inl [])
  | line :: lines =>
      let line := TrimSpace line in
      if skipped line then load_lines sym (n + 1) lines
      else
        ev ← line_event sym line;
        match ev with
        | inr e => Some (inr (FixtureLine (n + 1) e))
        | inl ev =>
            rest ← load_lines sym (n + 1) lines;
            match rest with
            | inl evs => Some (inl (ev :: evs))
            | inr e => Some (inr e)
            end
        end
  end.

Definition Load (sym : Symbol) (file : option (text * bool)) : outcome FixtureError (list MarketEvent) :=
  match file with
  | None => Some (inr FixtureUnreadable)
  | Some (data, failed) =>
      let '(lines, long) := scan_lines [] data in
      events ← load_lines sym 0 lines;
      match events with
      | inr e => Some (inr e)
      | inl evs =>
          if long || failed then Some (inr FixtureScan)
          else if bool_decide (evs = []) then Some (inr FixtureEmpty) else Some (inl evs)
      end
  end.

(** [New]: the provider of a file. *)
Definition NewReplay (sym : Symbol) (loop : bool) (file : option (text * bool)) : outcome FixtureError ReplayProvider :=
  r ← Load sym file;
  Some (match r with inl evs => inl (NewFromEvents sym evs loop) | inr e => inr e end).
