(* ===== verification/FixtureSpec.v ===== *)
(** * Replay fixtures: reading back what was recorded

    A recording printed as JSON lines loads as the events it was made of, and
    what [Load] makes of any other file is what it makes of its lines. *)

From Stdlib Require Import Ascii.
From S2P Require Import Prelude Money Decimal GoTime Domain Float64 Json JsonText JsonTextSpec Wire TimeText TimeTextSpec Book Provider Feed Fixture.

(** ** Printable text *)

Definition plain_char (c : ascii) : bool := ((32 <=? code c) && (code c <? 128))%N.
Definition plain (s : text) : Prop := forallb plain_char s = true.

Lemma plain_app a b : plain a -> plain b -> plain (a ++ b).
Proof. unfold plain. intros Ha Hb. by rewrite forallb_app, Ha, Hb. Qed.
Lemma plain_digits s : forallb is_digit s = true -> plain s.
Proof.
  unfold plain. intros H. apply forallb_forall. intros c Hc. rewrite forallb_forall in H. specialize (H c Hc). every_byte c.
Qed.
Lemma plain_utf8 s : plain s -> valid_utf8 s = true.
Proof.
  intros H. apply bool_decide_eq_true_2. induction s as [|c s IH]; [done|].
  apply andb_true_iff in H as [Hc H]. cbn [sanitize utf8_len]. apply andb_true_iff in Hc as [_ ->].
  f_equal. by apply IH.
Qed.

Lemma format_digits_plain fuel n : 0 <= n -> plain (format_digits fuel n).
Proof.
  revert n. induction fuel as [|fuel IH]; intros n Hn; [done|]. cbn [format_digits].
  destruct (n <? 10) eqn:E; bool_to_prop.
  - apply plain_digits. cbn. by rewrite digit_char_is_digit by lia.
  - apply plain_app; [apply IH, Z.div_pos; lia|]. apply plain_digits. cbn [forallb].
    rewrite digit_char_is_digit; [done|]. apply Z.mod_pos_bound. lia.
Qed.
Lemma repeatc_plain n : plain (repeatc "0" n).
Proof. unfold repeatc. induction (Z.to_nat n); [done|]. by cbn. Qed.
Lemma padded_plain w n : 0 <= n -> plain (padded w n).
Proof. intros Hn. apply plain_app; [apply repeatc_plain|by apply format_digits_plain]. Qed.

Lemma FormatTime_plain t : representable t -> plain (FormatTime t).
Proof.
  intros Ht. pose proof (year_range t Ht) as Hy. unfold representable in Ht. unfold FormatTime, date_fields, day_of in *. cbv zeta.
  change (ns (tUTC t)) with (ns t). pose proof (civil_spec (ns t / (86400 * Second))) as Hc.
  destruct (civil_of_days _) as [[y m] d].
  assert (0 <= ns t / Millisecond mod 1000) by (apply Z.mod_pos_bound; lia).
  assert (Hs : 0 <= sec_of_day (tUTC t)) by (apply Z.mod_pos_bound; lia).
  destruct Hy as [(Hm & Hd) Hy]. repeat first [apply padded_plain|apply plain_app]; try done; try lia;
    first [apply Z.div_pos; lia|apply Z.mod_pos_bound; lia].
Qed.

Lemma FormatScaled_plain v d : 0 <= d -> in_i64 v -> plain (FormatScaled v d).
Proof.
  intros Hd Hv. destruct (FormatScaled_shape v d Hd Hv) as (ip & fp & -> & _ & Hip & Hfp & _).
  apply plain_app; [by destruct (v <? 0)|]. apply plain_app; [by apply plain_digits|].
  unfold point_tail. case_bool_decide; [done|]. change ("."%char :: fp) with (txt "." ++ fp).
  apply plain_app; [done|by apply plain_digits].
Qed.

(** What is printed has no control character, so a line holds it. *)
Definition no_control (s : text) : Prop := forallb (fun c => (32 <=? code c)%N) s = true.
Lemma no_control_app a b : no_control a -> no_control b -> no_control (a ++ b).
Proof. unfold no_control. intros Ha Hb. by rewrite forallb_app, Ha, Hb. Qed.
Lemma no_control_plain s : plain s -> no_control s.
Proof.
  unfold plain, no_control. rewrite !forallb_forall. intros H c Hc. specialize (H c Hc). by apply andb_true_iff in H as [? _].
Qed.
Lemma high_no_control c : high c -> (32 <=? code c)%N = true.
Proof. unfold high. rewrite N.ltb_ge, N.leb_le. lia. Qed.

Lemma escape_byte_plain c : (code c <? 128)%N = true -> plain (escape_byte c).
Proof. intros H. every_byte c. Qed.

Lemma pieces_no_control s e o : Pieces s e o -> no_control e.
Proof.
  induction 1 as [|c s e o Hc _ IH|c s e o _ IH|n s e o Hn _ IH|c u s e o Hc Hu _ _ IH]; [done| | | |].
  - apply no_control_app; [|done]. by apply no_control_plain, escape_byte_plain.
  - by apply no_control_app.
  - apply no_control_app; [done|]. apply no_control_app; [|done]. by destruct Hn as [-> | ->].
  - unfold no_control. cbn [forallb]. rewrite high_no_control by done. cbn [andb]. apply no_control_app; [|done].
    apply forallb_forall. intros d Hd. apply high_no_control. rewrite Forall_forall in Hu. by apply Hu, list_elem_of_In.
Qed.
Lemma render_string_no_control s : no_control (render_string s).
Proof.
  unfold render_string. change (quote :: ?t) with ([quote] ++ t). apply no_control_app; [done|].
  apply no_control_app; [|done]. apply (pieces_no_control _ _ _ (pieces (txt s))).
Qed.

Lemma FormatUint_plain n : 0 <= n -> plain (FormatUint n).
Proof. apply format_digits_plain. Qed.

Lemma commas_no_control l : Forall no_control l -> no_control (commas l).
Proof.
  induction 1 as [|s l Hs Hl IH]; [done|]. destruct l as [|s' l]; [done|].
  rewrite commas_cons by done. apply no_control_app; [done|]. by apply no_control_app.
Qed.

Lemma render_no_control j : Printable j -> no_control (Marshal j).
Proof.
  induction j as [|b|n|s|l IH|ms IH] using json_tree_ind; intros Hp; [done|by destruct b| | | |]; cbn [Marshal].
  - inversion Hp as [| |? [Hm _]| | |]; subst. unfold render_number, in_u64 in *. apply no_control_plain.
    repeat first [apply FormatUint_plain; lia|apply plain_app]; [by destruct (jnNeg n)|]. destruct (jnInteger n); [done|].
    apply plain_app; [done|]. apply plain_app; [by destruct (jnExp10 n <? 0)|apply FormatUint_plain; lia].
  - apply render_string_no_control.
  - inversion Hp as [| | | |? Hl|]; subst. apply no_control_app; [done|]. apply no_control_app; [|done].
    apply commas_no_control. apply Forall_forall. intros x Hx. apply list_elem_of_In, in_map_iff in Hx as (j & <- & Hj).
    apply list_elem_of_In in Hj. rewrite Forall_forall in IH, Hl. by apply IH, Hl.
  - inversion Hp as [| | | | |? Hl]; subst. apply no_control_app; [done|]. apply no_control_app; [|done].
    apply commas_no_control. apply Forall_forall. intros x Hx. apply list_elem_of_In, in_map_iff in Hx as (m & <- & Hm).
    apply list_elem_of_In in Hm. rewrite Forall_forall in IH, Hl. apply no_control_app; [apply render_string_no_control|].
    apply no_control_app; [done|]. by apply IH, Hl.
Qed.

(** ** Lines *)

Lemma scan_line l cur data : Forall (fun c => c <> newline) l ->
  scan_lines cur (l ++ newline :: data) =
  if maxTokenSize <=? len (rev l ++ cur) then ([], true)
  else let '(lines, long) := scan_lines [] data in (dropCR (rev (rev l ++ cur)) :: lines, long).
Proof.
  revert cur. induction l as [|c l IH]; intros cur Hl; [reflexivity|]. apply Forall_cons in Hl as [Hc Hl].
  cbn [app scan_lines]. rewrite (proj2 (Ascii.eqb_neq _ _) Hc), IH by done. cbn [rev]. by rewrite <- app_assoc.
Qed.

(** A line that the scanner gives back as it was written. *)
Definition fits_line (l : text) : Prop := no_control l /\ len l < maxTokenSize.

Lemma no_control_newline l : no_control l -> Forall (fun c => c <> newline) l.
Proof.
  unfold no_control. rewrite forallb_forall, Forall_forall. intros H c Hc ->.
  apply list_elem_of_In, H in Hc. done.
Qed.
Lemma no_control_dropCR l : no_control l -> dropCR l = l.
Proof.
  unfold no_control, dropCR. rewrite forallb_forall. intros H. destruct (rev l) as [|c r] eqn:E; [done|].
  destruct (Ascii.eqb c "013") eqn:Ec; [|done]. apply Ascii.eqb_eq in Ec as ->. exfalso.
  assert (Hin : In ("013"%char) l) by (apply in_rev; rewrite E; by left). by specialize (H _ Hin).
Qed.

Lemma scan_file lines : Forall fits_line lines ->
  scan_lines [] (concat (map (fun l => l ++ [newline]) lines)) = (lines, false).
Proof.
  induction 1 as [|l lines [Hc Hl] _ IH]; [done|]. cbn [map concat]. rewrite <- app_assoc. cbn [app].
  rewrite scan_line by by apply no_control_newline. rewrite app_nil_r, rev_involutive, IH.
  unfold len in *. rewrite length_rev, (proj2 (Z.leb_gt _ _)) by done. by rewrite no_control_dropCR.
Qed.

(** ** What a line says *)

Definition str (t : text) : string := String.string_of_list_ascii t.
Lemma txt_str t : txt (str t) = t.
Proof. apply String.list_ascii_of_string_of_list_ascii. Qed.

Definition uint_json (n : Z) : Json := JNum (mkNumber false n 0 true).
Definition level_json (l : LevelJSON) : Json := JArr [JStr (str (fst l)); JStr (str (snd l))].

(** An event as the members of its line. *)
Definition record (sym : Symbol) (ev : MarketEvent) : list (string * Json) :=
  match ev with
  | TradeEvent t =>
      [("type", JStr "trade"); ("tradeId", uint_json (trID t)); ("timestamp", JStr (str (FormatTime (trTimestamp t))));
       ("price", JStr (str (FormatPrice sym (trPrice t)))); ("quantity", JStr (str (FormatQty sym (trQuantity t))));
       ("side", JStr (Side_String (trSide t)))]
  | BookDeltaEvent d =>
      [("type", JStr "book_delta"); ("timestamp", JStr (str (FormatTime (bdTimestamp d)))); ("epoch", uint_json (bdEpoch d));
       ("firstUpdateId", uint_json (bdFirst d)); ("lastUpdateId", uint_json (bdLast d));
       ("bids", JArr (map level_json (Levels sym (bdBids d)))); ("asks", JArr (map level_json (Levels sym (bdAsks d))))]
  | _ => []
  end%string.
Definition write_line (sym : Symbol) (ev : MarketEvent) : text := Marshal (JObj (record sym ev)).
Definition write_fixture (sym : Symbol) (evs : list MarketEvent) : text :=
  concat (map (fun l => l ++ [newline]) (map (write_line sym) evs)).

(** What a fixture can hold: trades and deltas of the market, at whole
    milliseconds, with values the parser accepts. *)
Definition whole_millis (t : Time) : Prop := representable t /\ loc t = UTC /\ ns t mod Millisecond = 0.
Definition recordable (sym : Symbol) (ev : MarketEvent) : Prop :=
  match ev with
  | TradeEvent t =>
      trSymbol t = ID sym /\ in_u64 (trID t) /\ whole_millis (trTimestamp t) /\
      Z.abs (trPrice t) <= maxSafeMagnitude /\ Z.abs (trQuantity t) <= maxSafeMagnitude /\ trSide t <> SideUnknown
  | BookDeltaEvent d =>
      bdSymbol d = ID sym /\ in_u64 (bdEpoch d) /\ in_u64 (bdFirst d) /\ in_u64 (bdLast d) /\ whole_millis (bdTimestamp d) /\
      Forall level_in_range (bdBids d) /\ Forall level_in_range (bdAsks d) /\
      Forall (fun l => 0 <= lvQuantity l) (bdBids d)
  | _ => False
  end.

(** The kernel should not compute with the renderings of variables. *)
#[local] Opaque FormatTime ParseRFC3339 FormatScaled ParseScaled.

Lemma timestamp_reads t : whole_millis t -> ParseRFC3339 (FormatTime t) = Some t.
Proof.
  intros (Ht & Hl & Hm). destruct (FormatTime_millis t Ht) as [E _]. unfold ParseTime in E. rewrite E.
  unfold millis. destruct t as [n l]. cbn [ns loc] in *. subst l. do 2 f_equal. unfold Millisecond in *.
  pose proof (Z.div_mod n 1000000). lia.
Qed.

Lemma price_reads sym v : symbol_ok sym -> Z.abs v <= maxSafeMagnitude -> ParsePrice sym (FormatPrice sym v) = Some (Ok v).
Proof. intros (? & E & _) ?. unfold ParsePrice, FormatPrice. rewrite E. by apply parse_format_core. Qed.
Lemma qty_reads sym v : symbol_ok sym -> Z.abs v <= maxSafeMagnitude -> ParseQty sym (FormatQty sym v) = Some (Ok v).
Proof. intros (_ & _ & ? & E) ?. unfold ParseQty, FormatQty. rewrite E. by apply parse_format_core. Qed.

Lemma parseLevels_reads sym ls bid : symbol_ok sym -> Forall level_in_range ls ->
  (bid = true -> Forall (fun l => 0 <= lvQuantity l) ls) -> parseLevels sym (Levels sym ls) bid = Some (Ok ls).
Proof.
  intros Hs Hl Hb. induction Hl as [|[p q] ls [Hp Hq] Hl IH]; [done|]. cbn [Levels map parseLevels lvPrice lvQuantity] in *.
  rewrite price_reads by done. cbn [mbind option_bind]. rewrite qty_reads by done. cbn [mbind option_bind].
  assert (bid && Qty.IsNegative q = false) as ->.
  { destruct bid; [|done]. specialize (Hb eq_refl). apply Forall_cons in Hb as [Hq0 _]. cbn in *.
    unfold Qty.IsNegative. lia. }
  unfold Levels in IH. rewrite IH; [done|]. intros E. by specialize (Hb E) as [_ ?]%Forall_cons.
Qed.

(** ** A recorded line is printable, and decodes to its event *)

Lemma printable_str t : plain t -> Printable (JStr (str t)).
Proof. intros H. constructor. rewrite txt_str. by apply plain_utf8. Qed.
Lemma printable_uint n : in_u64 n -> Printable (uint_json n).
Proof. intros H. by constructor. Qed.
Lemma uint_json_value n old : in_u64 n -> uint_value old (uint_json n) = Some n.
Proof. unfold in_u64. intros H. unfold uint_value, uint_json. cbn [jnInteger jnNeg jnMant]. by rewrite (proj2 (Z.ltb_lt _ _)) by lia. Qed.

Lemma scaled_plain sym v : symbol_ok sym -> Z.abs v <= maxSafeMagnitude ->
  plain (FormatPrice sym v) /\ plain (FormatQty sym v).
Proof.
  intros (Hp & _ & Hq & _) Hv. change maxSafeMagnitude with 9007199254740992 in Hv.
  split; apply FormatScaled_plain; unfold in_i64; lia.
Qed.

Lemma printable_levels sym ls : symbol_ok sym -> Forall level_in_range ls ->
  Printable (JArr (map level_json (Levels sym ls))) /\ nesting (JArr (map level_json (Levels sym ls))) <= 2.
Proof.
  intros Hs Hl. split.
  - constructor. apply Forall_forall. intros j Hj. apply list_elem_of_In, in_map_iff in Hj as (l & <- & Hin).
    apply in_map_iff in Hin as (lv & <- & Hin). apply list_elem_of_In in Hin. rewrite Forall_forall in Hl.
    destruct (Hl lv Hin) as [Hp Hq]. constructor.
    repeat apply Forall_cons_2; [| |constructor]; apply printable_str; by apply scaled_plain.
  - cbn [nesting]. assert (foldr Z.max 0 (map nesting (map level_json (Levels sym ls))) <= 1); [|lia].
    clear. induction ls as [|l ls IH]; [done|]; cbn [Levels map nesting level_json foldr fst snd] in *; fold (Levels sym ls) in *; lia.
Qed.

Lemma recordable_printable sym ev : symbol_ok sym -> recordable sym ev ->
  Printable (JObj (record sym ev)) /\ nesting (JObj (record sym ev)) <= maxNestingDepth.
Proof.
  intros Hs Hr. destruct ev as [t|d|?|? ? ?]; try done; cbn [recordable record] in *.
  - destruct Hr as (_ & Hid & [Ht _] & Hp & Hq & _). split; [|done].
    destruct (scaled_plain sym (trPrice t) Hs Hp) as [Pp _], (scaled_plain sym (trQuantity t) Hs Hq) as [_ Pq].
    constructor. repeat apply Forall_cons_2; [..|constructor]; (split; [done|]); cbn [snd]; try by apply printable_uint.
    + by constructor.
    + by apply printable_str, FormatTime_plain.
    + by apply printable_str.
    + by apply printable_str.
    + constructor. by destruct (trSide t).
  - destruct Hr as (_ & He & Hf & Hla & [Ht _] & Hb & Ha & _).
    destruct (printable_levels sym (bdBids d) Hs Hb) as [Pb Nb], (printable_levels sym (bdAsks d) Hs Ha) as [Pa Na]. split.
    + constructor. repeat apply Forall_cons_2; [..|constructor]; (split; [done|]); cbn [snd]; try by apply printable_uint.
      * by constructor.
      * by apply printable_str, FormatTime_plain.
      * done.
      * done.
    + cbn [nesting map foldr snd uint_json] in *. unfold maxNestingDepth. lia.
Qed.

(** Reading one member of a record. *)
Lemma read_member {A} f (zero a : A) field ms j :
  assigned field ms = [j] -> f zero j = Some a -> assign f zero field ms = Some a.
Proof. intros Hs Hf. unfold assign. rewrite Hs. exact Hf. Qed.

Lemma levels_read field ms ls : assigned field ms = [JArr (map level_json ls)] ->
  levels_field field ms = Some (map (fun l => (str (fst l), str (snd l))) ls).
Proof.
  intros H. unfold levels_field.
  rewrite (slice_field_one pair_value (""%string, ""%string) field ms (fun p => JArr [JStr (fst p); JStr (snd p)])
    (map (fun l => (str (fst l), str (snd l))) ls)); [done| |by intros [? ?] _].
  by rewrite H, map_map.
Qed.
Lemma levels_absent field ms : assigned field ms = [] -> levels_field field ms = Some [].
Proof. intros H. unfold levels_field, slice_field, assign. by rewrite H. Qed.

Lemma pair_texts_levels ls : pair_texts (map (fun l => (str (fst l), str (snd l))) ls) = ls.
Proof.
  unfold pair_texts. rewrite map_map. rewrite <- (map_id ls) at 2. apply map_ext. intros [p q]. cbn [fst snd].
  by rewrite !txt_str.
Qed.

Ltac member field :=
  erewrite (read_member _ _ _ field); [|vm_compute; reflexivity|first [reflexivity|by apply uint_json_value]];
  cbn [mbind option_bind].
(** A field that no member is assigned to. *)
Lemma absent {A} f (zero : A) field ms : assigned field ms = [] -> assign f zero field ms = Some zero.
Proof. intros H. unfold assign. by rewrite H. Qed.
Ltac missing field := rewrite (absent _ _ field) by (vm_compute; reflexivity); cbn [mbind option_bind].

Lemma decode_trade id ts price qty side : in_u64 id ->
  decode_line [("type", JStr "trade"); ("tradeId", uint_json id); ("timestamp", JStr ts);
    ("price", JStr price); ("quantity", JStr qty); ("side", JStr side)]%string =
  Some (mkLine "trade" id ts price qty side 0 0 0 [] []).
Proof.
  intros Hid. unfold decode_line.
  member "type"%string. member "tradeId"%string. member "timestamp"%string. member "price"%string.
  member "quantity"%string. member "side"%string.
  missing "epoch"%string. missing "firstUpdateId"%string. missing "lastUpdateId"%string.
  rewrite !levels_absent by (vm_compute; reflexivity). reflexivity.
Qed.

Lemma decode_delta ts epoch first last bids asks : in_u64 epoch -> in_u64 first -> in_u64 last ->
  decode_line [("type", JStr "book_delta"); ("timestamp", JStr ts); ("epoch", uint_json epoch);
    ("firstUpdateId", uint_json first); ("lastUpdateId", uint_json last);
    ("bids", JArr (map level_json bids)); ("asks", JArr (map level_json asks))]%string =
  Some (mkLine "book_delta" 0 ts "" "" "" epoch first last
    (map (fun l => (str (fst l), str (snd l))) bids) (map (fun l => (str (fst l), str (snd l))) asks)).
Proof.
  intros He Hf Hl. unfold decode_line.
  member "type"%string. missing "tradeId"%string. member "timestamp"%string. missing "price"%string.
  missing "quantity"%string. missing "side"%string. member "epoch"%string. member "firstUpdateId"%string.
  member "lastUpdateId"%string. rewrite (levels_read "bids" _ bids), (levels_read "asks" _ asks) by (vm_compute; reflexivity).
  reflexivity.
Qed.

(** ** Loading a recording *)

Lemma trim_braces s : TrimSpace ("{"%char :: s ++ ["}"%char]) = "{"%char :: s ++ ["}"%char].
Proof.
  unfold TrimSpace. change (trim_left (length ("{"%char :: s ++ ["}"%char])) space_runes ("{"%char :: s ++ ["}"%char]))
    with ("{"%char :: s ++ ["}"%char]).
  rewrite app_comm_cons, rev_app_distr. cbn [rev app].
  change (trim_left (length ("}"%char :: ?r)) (map (@rev ascii) space_runes) ("}"%char :: ?r)) with ("}"%char :: r).
  cbn [rev]. by rewrite rev_app_distr, rev_involutive.
Qed.
Lemma write_line_braces sym ev : exists s, write_line sym ev = "{"%char :: s ++ ["}"%char].
Proof. unfold write_line. cbn [Marshal]. by eexists. Qed.

Lemma write_line_event sym ev : symbol_ok sym -> recordable sym ev -> line_event sym (write_line sym ev) = Some (inl ev).
Proof.
  intros Hs Hr. destruct (recordable_printable sym ev Hs Hr) as [Hp Hn]. unfold line_event, write_line.
  rewrite parse_json_Marshal by done. cbn [mbind option_bind members].
  destruct ev as [t|d|?|? ? ?]; try done; cbn [recordable] in Hr.
  - destruct Hr as (Hsym & Hid & Ht & Hpr & Hq & Hside). cbn [record]. rewrite decode_trade by done. unfold toEvent.
    cbn [flType flTimestamp flPrice flQuantity flSide flTradeID]. rewrite !txt_str, timestamp_reads by done.
    rewrite bool_decide_eq_true_2 by done. rewrite price_reads, qty_reads by done. unfold checked at 1 2. cbn [mbind option_bind].
    destruct Ht as (_ & Hl & _). destruct t as [id sy [n l] p q []]; cbn in *; subst; done.
  - destruct Hr as (Hsym & He & Hf & Hla & Ht & Hb & Ha & Hpos). cbn [record]. rewrite decode_delta by done. unfold toEvent.
    cbn [flType flTimestamp flBids flAsks flEpoch flFirstUpdate flLastUpdate]. rewrite txt_str, timestamp_reads by done.
    rewrite bool_decide_eq_false_2, bool_decide_eq_true_2 by done. cbn [orb]. rewrite !pair_texts_levels.
    rewrite !parseLevels_reads by done. cbn [checked mbind option_bind].
    destruct Ht as (_ & Hl & _). destruct d as [sy e f la b a [n l]]; cbn in *; subst; done.
Qed.

Lemma load_written sym n evs : symbol_ok sym -> Forall (recordable sym) evs ->
  load_lines sym n (map (write_line sym) evs) = Some (inl evs).
Proof.
  intros Hs. revert n. induction evs as [|ev evs IH]; intros n Hr; [done|]. apply Forall_cons in Hr as [Hev Hr].
  cbn [map load_lines]. destruct (write_line_braces sym ev) as [s E]. pose proof (write_line_event sym ev Hs Hev) as Hl.
  rewrite E in *. rewrite trim_braces. change (skipped ("{"%char :: ?t)) with false. cbv iota.
  rewrite Hl. cbn [mbind option_bind]. rewrite (IH (n + 1) Hr). reflexivity.
Qed.

(** C27: A recording survives the fixture file.  The events of a market, written
    one JSON object a line, load as exactly those events, in order: no trade, no
    level, no deletion and no update range is lost between the bytes of the
    file and the provider. *)
Theorem fixture_roundtrip sym evs :
  symbol_ok sym -> Forall (recordable sym) evs -> Forall (fun ev => len (write_line sym ev) < maxTokenSize) evs ->
  evs <> [] -> Load sym (Some (write_fixture sym evs, false)) = Some (inl evs).
Proof.
  intros Hs Hr Hlen Hne. unfold Load, write_fixture. rewrite scan_file.
  - rewrite load_written by done. cbn [mbind option_bind orb]. by rewrite bool_decide_eq_false_2.
  - apply Forall_fmap. apply Forall_forall. intros ev Hev. rewrite Forall_forall in Hr, Hlen. split; [|by apply Hlen].
    apply render_no_control. by apply (recordable_printable sym ev Hs), Hr.
Qed.

(** ** Any file *)

#[local] Transparent FormatTime ParseRFC3339 FormatScaled ParseScaled.

Lemma ParseScaled_total s scale digits : scale <> 0 -> exists r, ParseScaled s scale digits = Some r.
Proof.
  intros Hs. unfold ParseScaled. rewrite (proj2 (Z.eqb_neq _ _) Hs).
  repeat (case_match; try by eexists).
Qed.

Lemma parseLevels_total sym raw bid : symbol_ok sym -> exists r, parseLevels sym raw bid = Some r.
Proof.
  intros (Hp & Ep & Hq & Eq). assert (PriceScale sym <> 0) by (rewrite Ep; pose proof (Z.pow_pos_nonneg 10 (PriceDigits sym)); lia).
  assert (QtyScale sym <> 0) by (rewrite Eq; pose proof (Z.pow_pos_nonneg 10 (QtyDigits sym)); lia).
  induction raw as [|[p q] raw [r IH]]; cbn [parseLevels]; [by eexists|].
  unfold ParsePrice, ParseQty. destruct (ParseScaled_total p (PriceScale sym) (PriceDigits sym)) as [[price|e] ->]; [done| |by eexists].
  cbn [mbind option_bind]. destruct (ParseScaled_total q (QtyScale sym) (QtyDigits sym)) as [[qty|e] ->]; [done| |by eexists].
  cbn [mbind option_bind]. destruct (_ && _); [by eexists|]. rewrite IH. cbn [mbind option_bind]. destruct r; by eexists.
Qed.

(** An event a fixture can hold, whatever its values. *)
Definition of_market (sym : Symbol) (ev : MarketEvent) : Prop :=
  match ev with
  | TradeEvent t => trSymbol t = ID sym /\ loc (trTimestamp t) = UTC /\ trSide t <> SideUnknown
  | BookDeltaEvent d => bdSymbol d = ID sym /\ loc (bdTimestamp d) = UTC /\ Forall (fun l => 0 <= lvQuantity l) (bdBids d)
  | _ => False
  end.

Lemma parseLevels_bids sym raw ls : parseLevels sym raw true = Some (Ok ls) -> Forall (fun l => 0 <= lvQuantity l) ls.
Proof.
  revert ls. induction raw as [|[p q] raw IH]; intros ls; cbn [parseLevels]; [intros [= <-]; constructor|].
  destruct (ParsePrice sym p) as [[price|?]|]; cbn [mbind option_bind]; try done.
  destruct (ParseQty sym q) as [[qty|?]|]; cbn [mbind option_bind]; try done.
  destruct (Qty.IsNegative qty) eqn:E; [done|]. cbn [andb].
  destruct (parseLevels sym raw true) as [[rest|?]|]; cbn [mbind option_bind]; try done. intros [= <-].
  constructor; [|by apply IH]. unfold Qty.IsNegative in E. cbn. lia.
Qed.

Lemma toEvent_sound sym r : symbol_ok sym -> exists o, toEvent sym r = Some o /\
  match o with inl ev => of_market sym ev | inr _ => True end.
Proof.
  intros Hs. unfold toEvent. destruct (ParseRFC3339 _) as [ts|]; [|by eexists]. unfold checked.
  assert (PriceScale sym <> 0) by (destruct Hs as (? & -> & _); pose proof (Z.pow_pos_nonneg 10 (PriceDigits sym)); lia).
  assert (QtyScale sym <> 0) by (destruct Hs as (_ & _ & ? & ->); pose proof (Z.pow_pos_nonneg 10 (QtyDigits sym)); lia).
  case_bool_decide.
  { unfold ParsePrice, ParseQty. destruct (ParseScaled_total (txt (flPrice r)) (PriceScale sym) (PriceDigits sym)) as [[p|?] ->]; [done| |by eexists].
    cbn [mbind option_bind].
    destruct (ParseScaled_total (txt (flQuantity r)) (QtyScale sym) (QtyDigits sym)) as [[q|?] ->]; [done| |by eexists].
    cbn [mbind option_bind]. unfold ParseSide.
    repeat (case_bool_decide; [by eexists; split; [done|split_and!]|]). by eexists. }
  destruct (_ || _); [|by eexists].
  destruct (parseLevels_total sym (pair_texts (flBids r)) true Hs) as [[bids|?] Hb]; rewrite Hb; cbn [mbind option_bind]; [|by eexists].
  destruct (parseLevels_total sym (pair_texts (flAsks r)) false Hs) as [[asks|?] ->]; cbn [mbind option_bind]; [|by eexists].
  eexists. split; [done|]. split_and!; [done..|]. by eapply parseLevels_bids.
Qed.

Lemma line_event_sound sym line : symbol_ok sym -> exists o, line_event sym line = Some o /\
  match o with inl ev => of_market sym ev | inr _ => True end.
Proof. intros Hs. unfold line_event. destruct (_ ≫= _); [by apply toEvent_sound|by eexists]. Qed.

(** The lines that count, trimmed. *)
Definition meaningful (lines : list text) : list text := List.filter (fun l => negb (skipped l)) (map TrimSpace lines).
Definition decodes (sym : Symbol) (line : text) (ev : MarketEvent) : Prop := line_event sym line = Some (inl ev) /\ of_market sym ev.

Lemma load_lines_spec sym n lines : symbol_ok sym -> exists o, load_lines sym n lines = Some o /\
  match o with
  | inl evs => Forall2 (decodes sym) (meaningful lines) evs
  | inr (FixtureLine k e) => exists before line after evs, lines = before ++ line :: after /\ k = n + len before + 1 /\
      skipped (TrimSpace line) = false /\ line_event sym (TrimSpace line) = Some (inr e) /\
      Forall2 (decodes sym) (meaningful before) evs
  | inr _ => False
  end.
Proof.
  intros Hs. revert n. induction lines as [|l lines IH]; intros n; [exists (inl []); split; [done|constructor]|]. cbn [load_lines]. cbv zeta.
  destruct (IH (n + 1)) as (o & E & Ho). unfold meaningful. cbn [map List.filter].
  destruct (skipped (TrimSpace l)) eqn:Hsk; cbn [negb].
  - exists o. split; [done|]. destruct o as [evs|[|k e| |]]; try done.
    destruct Ho as (before & line & after & evs & -> & -> & H). exists (l :: before), line, after, evs.
    split; [done|]. split; [unfold len; cbn; lia|]. unfold meaningful in *. cbn [map List.filter]. rewrite Hsk. exact H.
  - destruct (line_event_sound sym (TrimSpace l) Hs) as (r & Hr & Hm). rewrite Hr. cbn [mbind option_bind].
    destruct r as [ev|e].
    + rewrite E. cbn [mbind option_bind]. destruct o as [evs|[|k e| |]]; try done; (eexists; split; [done|]).
      * by constructor.
      * destruct Ho as (before & line & after & evs & -> & -> & H1 & H2 & H3). exists (l :: before), line, after, (ev :: evs).
        split; [done|]. split; [unfold len; cbn; lia|]. split_and!; [done..|].
        unfold meaningful in *. cbn [map List.filter]. rewrite Hsk. by constructor.
    + eexists. split; [done|]. exists [], l, lines, []. split_and!; try done. unfold len. cbn. lia.
Qed.

(** A fixture loads completely or not at all, and the report names the
    line.  With a symbol of the roster [Load] never panics; when it succeeds
    every line that is neither blank nor a comment became one well-formed
    event of the market, in order; otherwise the error tells an unreadable
    file, a line too long or a read that failed after good lines, a file with
    nothing in it, or the number of the first line that does not decode. *)
Theorem Load_spec sym file :
  symbol_ok sym -> exists o, Load sym file = Some o /\
  match o, file with
  | inr FixtureUnreadable, file => file = None
  | _, None => False
  | inl evs, Some (data, failed) =>
      evs <> [] /\ failed = false /\ snd (scan_lines [] data) = false /\
      Forall2 (decodes sym) (meaningful (fst (scan_lines [] data))) evs
  | inr (FixtureLine n e), Some (data, _) => exists before line after evs,
      fst (scan_lines [] data) = before ++ line :: after /\ n = len before + 1 /\
      skipped (TrimSpace line) = false /\ line_event sym (TrimSpace line) = Some (inr e) /\
      Forall2 (decodes sym) (meaningful before) evs
  | inr FixtureScan, Some (data, failed) =>
      snd (scan_lines [] data) = true \/ failed = true
  | inr FixtureEmpty, Some (data, failed) =>
      meaningful (fst (scan_lines [] data)) = [] /\ failed = false
  end.
Proof.
  intros Hs. unfold Load. destruct file as [[data failed]|]; [|by eexists].
  destruct (scan_lines [] data) as [lines long]. destruct (load_lines_spec sym 0 lines Hs) as (o & -> & Ho).
  cbn [mbind option_bind fst snd]. destruct o as [evs|[|k e| |]]; try done.
  - destruct long; [by eexists; split; [done|left]|]. destruct failed; [by eexists; split; [done|right]|]. cbn [orb].
    case_bool_decide as He; (eexists; split; [done|]); [|by split_and!].
    subst evs. by apply Forall2_nil_inv_r in Ho.
  - eexists. split; [done|]. exact Ho.
Qed.

(** ** Concrete files *)

Definition recorded_trade : MarketEvent :=
  TradeEvent (mkTrade 1001 "BTCUSDT" (unixNanos 1789648801500000000) 6742135 18400000 SideSell).
Definition recorded_delta : MarketEvent :=
  BookDeltaEvent (mkDelta "BTCUSDT" 1 2 3 [mkLevel 6742090 38000000; mkLevel 6742020 0] [mkLevel 6742110 22000000]
    (unixNanos 1789648804100000000)).

Lemma fixture_roundtrip_witness :
  Load BTCUSDT (Some (write_fixture BTCUSDT [recorded_trade; recorded_delta], false)) =
  Some (inl [recorded_trade; recorded_delta]).
Proof.
  assert (Hs : symbol_ok BTCUSDT) by (unfold symbol_ok; cbn; lia).
  apply (fixture_roundtrip BTCUSDT [recorded_trade; recorded_delta] Hs); [| |done].
  - repeat apply Forall_cons_2; [..|constructor]; cbn [recordable recorded_trade recorded_delta];
      unfold whole_millis, representable, level_in_range, in_u64; split_and!; try done;
      repeat apply Forall_cons_2; try apply Forall_nil_2; try split; first [done|by apply (bool_decide_unpack _); vm_compute].
  - repeat apply Forall_cons_2; [..|constructor]; apply Z.ltb_lt; vm_compute; reflexivity.
Defined.

(** A comment, a trade without a side, and a line that is cut off. *)
Definition broken_fixture : text :=
  txt "// recorded" ++ [newline] ++
  Marshal (JObj [("type", JStr "trade"); ("timestamp", JStr "2026-09-17T12:40:01Z"); ("price", JStr "1.5"); ("quantity", JStr "2")]%string) ++
  [newline] ++ txt "{" ++ [newline].

Lemma Load_spec_witness :
  Load BTCUSDT (Some (broken_fixture, false)) = Some (inr (FixtureLine 3 BadJson)) /\
  exists before line after, fst (scan_lines [] broken_fixture) = before ++ line :: after /\ 3 = len before + 1 /\
    line_event BTCUSDT (TrimSpace line) = Some (inr BadJson).
Proof.
  assert (Hs : symbol_ok BTCUSDT) by (unfold symbol_ok; cbn; lia).
  assert (E : Load BTCUSDT (Some (broken_fixture, false)) = Some (inr (FixtureLine 3 BadJson))) by (vm_compute; reflexivity).
  split; [exact E|]. destruct (Load_spec BTCUSDT (Some (broken_fixture, false)) Hs) as (o & Eo & Ho).
  rewrite E in Eo. injection Eo as <-. destruct Ho as (before & line & after & evs & H1 & H2 & _ & H3 & _).
  exists before, line, after. exact (conj H1 (conj H2 H3)).
Defined.
