(* ===== verification/Probe.v ===== *)
(** * The command-line probe: [cmd/wsprobe/main.go]

    A second, independent client of the feed: it keeps the book as the texts it
    receives, counts what breaks the sequence, and ends with a verdict.  The
    state of a run and the handling of a frame are modelled, from its bytes; the
    socket, the flags and the printing are not.  [Display] is the reference its
    book is proved against, in prices and quantities. *)

From Stdlib Require Import Ascii.
From stdpp Require Import strings.
From S2P Require Import Prelude Money Decimal GoTime Domain Float64 StableSort Json Protocol JsonText JsonTextSpec Wire TimeText TimeTextSpec Coalesce CoalesceSpec FixtureSpec.
From S2P Require FrameSpec.

Abbreviation TextSide := (gmap string string).

Record frameStats := mkStats {
  fsByType : gmap string Z; fsApplied : Z; fsGaps : Z; fsStale : Z; fsFrames : Z;
  fsLastTier : string; fsLastRate : float64; fsLastRTT : float64; fsCandles : Z; fsTrades : Z;
  fsBids : TextSide; fsAsks : TextSide; fsParseErr : Z }.

Definition newStats : frameStats := mkStats ∅ 0 0 0 0 "" (f64_of_Z 0) (f64_of_Z 0) 0 0 ∅ ∅ 0.

Definition parse_failed (s : frameStats) : frameStats :=
  mkStats (fsByType s) (fsApplied s) (fsGaps s) (fsStale s) (fsFrames s) (fsLastTier s) (fsLastRate s) (fsLastRTT s)
    (fsCandles s) (fsTrades s) (fsBids s) (fsAsks s) (fsParseErr s + 1).
Definition set_book (s : frameStats) (applied : Z) (bids asks : TextSide) : frameStats :=
  mkStats (fsByType s) applied (fsGaps s) (fsStale s) (fsFrames s) (fsLastTier s) (fsLastRate s) (fsLastRTT s)
    (fsCandles s) (fsTrades s) bids asks (fsParseErr s).
Definition count_book (s : frameStats) (gap stale : Z) : frameStats :=
  mkStats (fsByType s) (fsApplied s) (fsGaps s + gap) (fsStale s + stale) (fsFrames s) (fsLastTier s) (fsLastRate s)
    (fsLastRTT s) (fsCandles s) (fsTrades s) (fsBids s) (fsAsks s) (fsParseErr s).
Definition count_flow (s : frameStats) (candle trade : Z) : frameStats :=
  mkStats (fsByType s) (fsApplied s) (fsGaps s) (fsStale s) (fsFrames s) (fsLastTier s) (fsLastRate s) (fsLastRTT s)
    (fsCandles s + candle) (fsTrades s + trade) (fsBids s) (fsAsks s) (fsParseErr s).
Definition set_health (s : frameStats) (tier : string) (rate rtt : float64) : frameStats :=
  mkStats (fsByType s) (fsApplied s) (fsGaps s) (fsStale s) (fsFrames s) tier rate rtt
    (fsCandles s) (fsTrades s) (fsBids s) (fsAsks s) (fsParseErr s).
(** Every frame is counted first, under its type. *)
Definition seen (s : frameStats) (type : string) : frameStats :=
  mkStats (<[type := default 0 (fsByType s !! type) + 1]> (fsByType s)) (fsApplied s) (fsGaps s) (fsStale s)
    (fsFrames s + 1) (fsLastTier s) (fsLastRate s) (fsLastRTT s) (fsCandles s) (fsTrades s) (fsBids s) (fsAsks s)
    (fsParseErr s).

(** ** The book of the probe *)

(** Comparison of Go strings, byte by byte. *)
Definition text_lt (a b : string) : bool := match String.compare a b with Lt => true | _ => false end.

Definition windowSize : nat := 15.
Definition trimToWindow (book : TextSide) (descending : bool) : TextSide :=
  if (size book <=? windowSize)%nat then book
  else
    let prices := stable_sort (fun a b => if descending then text_lt b a else text_lt a b) (map fst (map_to_list book)) in
    foldl (fun book price => delete price book) book (drop windowSize prices).

Definition apply_level (book : TextSide) (l : string * string) : TextSide :=
  if bool_decide (snd l = "0"%string) || bool_decide (snd l = "0.00000000"%string)
  then delete (fst l) book else <[fst l := snd l]> book.
Definition applyLevels (book : TextSide) (levels : list (string * string)) : TextSide := foldl apply_level book levels.

Definition installLevels (levels : list (string * string)) : TextSide :=
  foldl (fun book l => <[fst l := snd l]> book) ∅ levels.

(** The code ranges over a map, in an order Go leaves open; as long as no price
    is the empty text, the order makes no difference. *)
Definition bestPrice (book : TextSide) (highest : bool) : string :=
  let best := foldl (fun best price =>
    if bool_decide (best = ""%string) then price
    else if (highest && text_lt best price) || (negb highest && text_lt price best) then price else best)
    ""%string (map fst (map_to_list book)) in
  if bool_decide (best = ""%string) then "n/a" else best.

(** ** Frames *)

(** [json.Unmarshal] of a payload: an absent one is not valid JSON. *)
Definition payload_members (env : Envelope) : option (list (string * Json)) := enPayload env ≫= members.

Definition decode_snapshot (ms : list (string * Json)) : option (Z * list (string * string) * list (string * string)) :=
  _ ← assign uint_value 0 "epoch" ms;
  id ← assign uint_value 0 "updateId" ms;
  bids ← levels_field "bids" ms;
  asks ← levels_field "asks" ms;
  Some (id, bids, asks).
Definition decode_delta (ms : list (string * Json)) : option (Z * Z * list (string * string) * list (string * string)) :=
  _ ← assign uint_value 0 "epoch" ms;
  first ← assign uint_value 0 "firstUpdateId" ms;
  last ← assign uint_value 0 "lastUpdateId" ms;
  bids ← levels_field "bids" ms;
  asks ← levels_field "asks" ms;
  Some (first, last, bids, asks).
Definition decode_health (ms : list (string * Json)) : option (string * float64 * float64) :=
  tier ← assign string_value "" "tier" ms;
  rate ← assign float_value (f64_of_Z 0) "effectiveRatePerSec" ms;
  rtt ← assign float_value (f64_of_Z 0) "rttMs" ms;
  Some (tier, rate, rtt).

Definition on_snapshot (s : frameStats) (p : option (Z * list (string * string) * list (string * string))) : frameStats :=
  match p with
  | None => parse_failed s
  | Some (id, bids, asks) => set_book s id (installLevels bids) (installLevels asks)
  end.
Definition on_delta (s : frameStats) (p : option (Z * Z * list (string * string) * list (string * string))) : frameStats :=
  match p with
  | None => parse_failed s
  | Some (first, last, bids, asks) =>
      if last <=? fsApplied s then count_book s 0 1
      else if u64 (fsApplied s + 1) <? first then count_book s 1 0
      else set_book s last (trimToWindow (applyLevels (fsBids s) bids) true) (trimToWindow (applyLevels (fsAsks s) asks) false)
  end.

Definition type_is (type name : string) : bool := bool_decide (type = name).
Definition observe (s : frameStats) (env : Envelope) : frameStats :=
  let s := seen s (enType env) in
  let type := enType env in
  if type_is type "order_book_snapshot" then on_snapshot s (payload_members env ≫= decode_snapshot)
  else if type_is type "order_book_delta" then on_delta s (payload_members env ≫= decode_delta)
  else if type_is type "trade" || type_is type "trade_batch" then count_flow s 0 1
  else if type_is type "candle_update" || type_is type "candle_closed" then count_flow s 1 0
  else if type_is type "health" then
    match payload_members env ≫= decode_health with
    | None => parse_failed s
    | Some (tier, rate, rtt) => set_health s tier rate rtt
    end
  else s.

(** The reading goroutine on one message. *)
Definition receive (s : frameStats) (data : text) : frameStats :=
  match (ms ← parse_json data ≫= members; decode_envelope ms) with
  | None => parse_failed s
  | Some env => observe s env
  end.

(** ** The verdict *)

Inductive Problem :=
| SequenceGaps (n : Z) | UnparsableFrames (n : Z) | NoSnapshot | NoDeltas | NoCandles | NoHealth | NoTier.
Definition issue (b : bool) (p : Problem) : list Problem := if b then [p] else [].
Definition type_count (s : frameStats) (type : string) : Z := default 0 (fsByType s !! type).
Definition problems (s : frameStats) : list Problem :=
  issue (0 <? fsGaps s) (SequenceGaps (fsGaps s)) ++
  issue (0 <? fsParseErr s) (UnparsableFrames (fsParseErr s)) ++
  issue (type_count s "order_book_snapshot" =? 0) NoSnapshot ++
  issue (type_count s "order_book_delta" =? 0) NoDeltas ++
  issue (fsCandles s =? 0) NoCandles ++
  issue (type_count s "health" =? 0) NoHealth ++
  issue (bool_decide (fsLastTier s = ""%string)) NoTier.
Definition verdict (s : frameStats) : Z := match problems s with [] => 0 | _ => 1 end.

(** ** What the probe sends *)

(** [json.Marshal] of a map prints its keys in order. *)
Definition hello_message : Json :=
  JObj [("clientVersion", JStr "wsprobe/1.0"); ("deviceId", JStr "wsprobe"); ("platform", JStr "cli"); ("type", JStr "hello")]%string.
Definition subscribe_message (symbol interval : string) : Json :=
  JObj [("channels", JArr (map JStr ["order_book"; "trades"; "candles"; "summary"; "health"]%string));
        ("interval", JStr interval); ("symbol", JStr symbol); ("type", JStr "subscribe")]%string.
Definition int_literal (z : Z) : Json := JNum (mkNumber (z <? 0) (Z.abs z) 0 true).
Definition ping_message (id now : Z) : Json :=
  JObj [("clientTimeMs", int_literal now); ("id", int_literal id); ("type", JStr "ping")]%string.
Definition report_message (rtt jitter : JsonNumber) (now : Z) : Json :=
  JObj [("clientTimeMs", int_literal now); ("jitterMs", JNum jitter); ("rttMs", JNum rtt); ("samples", int_literal 10);
        ("type", JStr "latency_report"); ("window", JStr "rolling-10")]%string.

(** ** The run *)

(** The reader goroutine, the health goroutine and the main loop share the
    statistics and the connection; [prExpired] says that the context of the run
    has ended, [prSent] is what [send] was called with, in order. *)
Inductive Complaint := ReadComplaint | WriteComplaint.
Record ProbeRun := mkRun {
  prStats : frameStats; prReading : bool; prExpired : bool; prPings : Z; prSent : list Json;
  prComplaints : list Complaint; prExit : option Z }.

(** What one of the goroutines does next: [PMessage] and [PReadError] are
    [ReadMessage] returning, [PTick] is the health ticker with the two clocks it
    reads and whether its two writes fail. *)
Inductive ProbeInput :=
| PMessage (data : text) | PReadError | PTick (pingAt reportAt : Z) (pingFails reportFails : bool)
| PDeadline | PExit.

(** [main] up to its loop: a failed dial exits with 2. *)
Definition main_start (dialled : bool) (symbol interval : string) (hello_fails subscribe_fails : bool) : ProbeRun + Z :=
  if negb dialled then inr 2
  else inl (mkRun newStats true false 0 [hello_message; subscribe_message symbol interval]
              ((if hello_fails then [WriteComplaint] else []) ++ (if subscribe_fails then [WriteComplaint] else [])) None).

Definition run_step (rtt jitter : JsonNumber) (p : ProbeRun) (i : ProbeInput) : option ProbeRun :=
  match prExit p, i with
  | Some _, _ => None
  | None, PMessage data =>
      if prReading p then
        Some (mkRun (receive (prStats p) data) true (prExpired p) (prPings p) (prSent p) (prComplaints p) None)
      else None
  | None, PReadError =>
      if prReading p then
        Some (mkRun (prStats p) false (prExpired p) (prPings p) (prSent p)
                (prComplaints p ++ (if prExpired p then [] else [ReadComplaint])) None)
      else None
  | None, PTick pingAt reportAt pingFails reportFails =>
      let id := i64 (prPings p + 1) in
      Some (mkRun (prStats p) (prReading p) (prExpired p) id
              (prSent p ++ [ping_message id pingAt; report_message rtt jitter reportAt])
              (prComplaints p ++ (if pingFails then [WriteComplaint] else []) ++ (if reportFails then [WriteComplaint] else []))
              None)
  | None, PDeadline => Some (mkRun (prStats p) (prReading p) true (prPings p) (prSent p) (prComplaints p) None)
  | None, PExit =>
      if prExpired p && negb (prReading p) then
        Some (mkRun (prStats p) false true (prPings p) (prSent p) (prComplaints p) (Some (verdict (prStats p))))
      else None
  end.
Fixpoint run_probe (rtt jitter : JsonNumber) (p : ProbeRun) (inputs : list ProbeInput) : option ProbeRun :=
  match inputs with [] => Some p | i :: inputs => p ← run_step rtt jitter p i; run_probe rtt jitter p inputs end.

(** ** A run judges every frame it read *)

Definition message_of (i : ProbeInput) : option text := match i with PMessage data => Some data | _ => None end.

(** The exit code is the verdict on all the messages read, in order, up to the
    end of the connection; nothing is sent twice, and every report follows its
    ping. *)
Theorem run_verdict rtt jitter p inputs p' :
  prExit p = None -> run_probe rtt jitter p inputs = Some p' ->
  prStats p' = foldl receive (prStats p) (omap message_of inputs) /\
  (prExit p' = None \/ (prExit p' = Some (verdict (prStats p')) /\ prExpired p' = true /\ prReading p' = false)) /\
  exists ticks, prSent p' = prSent p ++ concat ticks /\
    Forall (fun t => exists id a b, t = [ping_message id a; report_message rtt jitter b]) ticks.
Proof.
  revert p. induction inputs as [|i inputs IH]; intros p He; cbn [run_probe omap list_omap].
  { intros [= <-]. split_and!; [done|by left|exists []]. by rewrite app_nil_r. }
  destruct (run_step rtt jitter p i) as [q|] eqn:E; [|done]. cbn [mbind option_bind]. intros Hr.
  unfold run_step in E. rewrite He in E.
  destruct i; cbn [message_of]; try (destruct (prReading p) eqn:Erd; [|done]); try (injection E as <-; refine (IH _ _ Hr); reflexivity).
  - injection E as <-. refine (_ (IH _ _ Hr)); [|reflexivity]. intros (Hs & Hx & ticks & Hsent & HF). cbn [prStats prSent] in *. split_and!; [done|done|].
    exists ([ping_message (i64 (prPings p + 1)) pingAt; report_message rtt jitter reportAt] :: ticks).
    split; [by rewrite Hsent, <- app_assoc|]. constructor; [by eexists _, _, _|done].
  - destruct (prExpired p && negb (prReading p)) eqn:Ex; [|done]. injection E as <-. apply andb_prop in Ex as [_ Ex].
    destruct inputs as [|i inputs]; [|done]. cbn in Hr. injection Hr as <-. cbn [prStats prExit prSent omap list_omap foldl].
    split_and!; [done|right; by split_and!|exists []; by rewrite app_nil_r].
Qed.

(** ** Frames as bytes *)

(** The members of the two book payloads, in the order of their structs. *)
Definition snapshot_json (p : OrderBookSnapshotPayload) : Json :=
  JObj [("symbol", JStr (osSymbol p)); ("epoch", uint_json (osEpoch p)); ("updateId", uint_json (osUpdateID p));
        ("bids", JArr (map level_json (osBids p))); ("asks", JArr (map level_json (osAsks p)));
        ("serverTime", JStr (str (osServerTime p)))]%string.
Definition delta_json (p : OrderBookDeltaPayload) : Json :=
  JObj [("symbol", JStr (odSymbol p)); ("epoch", uint_json (odEpoch p)); ("firstUpdateId", uint_json (odFirstUpdateID p));
        ("lastUpdateId", uint_json (odLastUpdateID p)); ("bids", JArr (map level_json (odBids p)));
        ("asks", JArr (map level_json (odAsks p)))]%string.

(** [Encode]: the envelope around a payload. *)
Definition frame_bytes (type : string) (seq : Z) (t : Time) (payload : Json) : text :=
  Marshal (JObj [("type", JStr type); ("version", uint_json Version); ("serverTime", JStr (str (FormatTime t)));
                 ("seq", uint_json seq); ("payload", payload)]%string).

(** What a frame needs to be printable. *)
Definition encodable (type : string) (seq : Z) (t : Time) (payload : Json) : Prop :=
  valid_utf8 (txt type) = true /\ in_u64 seq /\ representable t /\ Printable payload /\ nesting payload <= 9000.

(** The kernel should not compute with the renderings of variables. *)
#[local] Opaque FormatTime FormatScaled parse_json Marshal.

Lemma decode_frame_envelope type version ts seq payload :
  in_u64 version -> version <= MaxInt64 -> in_u64 seq ->
  decode_envelope [("type", JStr type); ("version", uint_json version); ("serverTime", JStr ts);
                   ("seq", uint_json seq); ("payload", payload)]%string =
  Some (mkEnvelope type version ts seq (Some payload)).
Proof.
  intros Hv Hm Hs. unfold decode_envelope.
  rewrite (read_member string_value "" type "type" _ (JStr type)) by (vm_compute; reflexivity || done).
  rewrite (read_member int_value 0 version "version" _ (uint_json version)); [|vm_compute; reflexivity|].
  2:{ unfold int_value, uint_json, signed, in_u64 in *. cbn [jnInteger jnNeg jnMant]. cbv zeta.
      rewrite (proj2 (Z.leb_le MinInt64 version)), (proj2 (Z.leb_le version MaxInt64)) by lia. done. }
  rewrite (read_member string_value "" ts "serverTime" _ (JStr ts)) by (vm_compute; reflexivity || done).
  rewrite (read_member uint_value 0 seq "seq" _ (uint_json seq)); [|vm_compute; reflexivity|by apply uint_json_value].
  cbn [mbind option_bind]. do 2 f_equal.
Qed.

Lemma receive_frame s type seq t payload : encodable type seq t payload ->
  receive s (frame_bytes type seq t payload) = observe s (mkEnvelope type Version (str (FormatTime t)) seq (Some payload)).
Proof.
  intros (Hty & Hs & Ht & Hp & Hn). unfold receive, frame_bytes. rewrite parse_json_Marshal.
  - cbn [mbind option_bind members]. rewrite decode_frame_envelope; [done|split; by vm_compute|by vm_compute|done].
  - constructor. repeat apply Forall_cons_2; [..|constructor]; (split; [done|]); cbn [snd].
    + by constructor.
    + by apply printable_uint.
    + by apply printable_str, FormatTime_plain.
    + by apply printable_uint.
    + done.
  - cbn [nesting map foldr snd uint_json]. unfold maxNestingDepth. lia.
Qed.

(** The texts of levels, as the probe reads them. *)
Definition level_texts (ls : list LevelJSON) : list (string * string) := map (fun l => (str (fst l), str (snd l))) ls.

Lemma decode_snapshot_json p : in_u64 (osEpoch p) -> in_u64 (osUpdateID p) ->
  members (snapshot_json p) ≫= decode_snapshot = Some (osUpdateID p, level_texts (osBids p), level_texts (osAsks p)).
Proof.
  destruct p as [sym e u b a ts]. cbn [osEpoch osUpdateID osBids osAsks]. intros He Hu.
  cbn [mbind option_bind members snapshot_json osSymbol osEpoch osUpdateID osBids osAsks osServerTime]. unfold decode_snapshot.
  rewrite (read_member uint_value 0 e "epoch" _ (uint_json e)); [|vm_compute; reflexivity|by apply uint_json_value].
  rewrite (read_member uint_value 0 u "updateId" _ (uint_json u)); [|vm_compute; reflexivity|by apply uint_json_value].
  rewrite (levels_read "bids" _ b), (levels_read "asks" _ a) by (vm_compute; reflexivity). done.
Qed.

Lemma decode_delta_json p : in_u64 (odEpoch p) -> in_u64 (odFirstUpdateID p) -> in_u64 (odLastUpdateID p) ->
  members (delta_json p) ≫= Probe.decode_delta =
  Some (odFirstUpdateID p, odLastUpdateID p, level_texts (odBids p), level_texts (odAsks p)).
Proof.
  destruct p as [sym e f l b a]. cbn [odEpoch odFirstUpdateID odLastUpdateID odBids odAsks]. intros He Hf Hl.
  cbn [mbind option_bind members delta_json odSymbol odEpoch odFirstUpdateID odLastUpdateID odBids odAsks]. unfold Probe.decode_delta.
  rewrite (read_member uint_value 0 e "epoch" _ (uint_json e)); [|vm_compute; reflexivity|by apply uint_json_value].
  rewrite (read_member uint_value 0 f "firstUpdateId" _ (uint_json f)); [|vm_compute; reflexivity|by apply uint_json_value].
  rewrite (read_member uint_value 0 l "lastUpdateId" _ (uint_json l)); [|vm_compute; reflexivity|by apply uint_json_value].
  rewrite (levels_read "bids" _ b), (levels_read "asks" _ a) by (vm_compute; reflexivity). done.
Qed.

(** ** The order of the texts, and what trimming keeps *)

Lemma text_lt_txt a b : text_lt a b = text_ltb (txt a) (txt b).
Proof.
  unfold text_lt. revert b. induction a as [|x a IH]; intros [|y b]; try done.
  change (txt (String x a)) with (x :: txt a). change (txt (String y b)) with (y :: txt b).
  cbn [String.compare text_ltb]. rewrite <- IH. unfold Ascii.compare.
  destruct (N.compare_spec (N_of_ascii x) (N_of_ascii y)) as [E|E|E].
  - rewrite E, N.ltb_irrefl, N.eqb_refl. done.
  - by rewrite (proj2 (N.ltb_lt _ _)).
  - rewrite (proj2 (N.ltb_ge _ _)) by lia. by rewrite (proj2 (N.eqb_neq _ _)) by lia.
Qed.

Lemma text_lt_total a b : text_lt a b = false -> text_lt b a = false -> a = b.
Proof.
  unfold text_lt. rewrite (String.compare_antisym b a). intros H1 H2. apply String.compare_eq_iff.
  by destruct (String.compare a b).
Qed.

#[local] Instance text_order : Order text_lt.
Proof.
  assert (H : forall a b c, text_ltb b a = false -> text_ltb c b = false -> text_ltb c a = false).
  { induction a as [|x a IH]; intros [|y b] [|z c]; try done. cbn [text_ltb]. rewrite !orb_false_iff, !N.ltb_ge.
    intros [H1 H2] [H3 H4]. split; [lia|]. destruct (N.eqb_spec (N_of_ascii z) (N_of_ascii x)); [|done].
    assert (N_of_ascii z = N_of_ascii y) as E1 by lia.
    assert (N_of_ascii y = N_of_ascii x) as E2 by lia. rewrite E2, N.eqb_refl in H2. rewrite E1, N.eqb_refl in H4. by apply (IH b). }
  split; intros *; rewrite !text_lt_txt; [|apply H].
  intros H1. destruct (text_ltb (txt y) (txt x)) eqn:H2; [|done]. exfalso. revert H1 H2.
  generalize (txt x), (txt y). clear. induction l as [|c a IH]; intros [|d b]; try done. cbn [text_ltb].
  rewrite !orb_true_iff, !andb_true_iff, !N.ltb_lt, !N.eqb_eq. intros [?|[? ?]] [?|[? ?]]; try lia. by apply (IH b).
Qed.

(** [a] comes before [b] on a side. *)
Definition ahead {A} (lt : A -> A -> bool) (descending : bool) (a b : A) : bool := if descending then lt b a else lt a b.

#[local] Instance ahead_order {A} (lt : A -> A -> bool) descending : Order lt -> Order (ahead lt descending).
Proof. intros [H1 H2]. split; destruct descending; cbn; [intros; by apply H1..| |intros; by eapply H2]. intros; by eapply H2. Qed.

Definition in_front {A} (before : A -> A -> bool) (l : list A) (x : A) : nat := length (filter (fun y => before y x = true) l).

Lemma filter_everything {A} (P : A -> Prop) `{forall x, Decision (P x)} l : Forall P l -> filter P l = l.
Proof. induction 1; [done|]. rewrite filter_cons_True by done. by f_equal. Qed.
Lemma filter_nothing {A} (P : A -> Prop) `{forall x, Decision (P x)} l : Forall (fun x => ~ P x) l -> filter P l = [].
Proof. induction 1; [done|]. by rewrite filter_cons_False. Qed.

Lemma filter_iff_in {A} (P Q : A -> Prop) `{forall x, Decision (P x), forall x, Decision (Q x)} (l : list A) :
  (forall x, x ∈ l -> P x <-> Q x) -> filter P l = filter Q l.
Proof.
  induction l as [|x l IH]; intros Hl; [done|]. rewrite !filter_cons, IH by (intros; apply Hl; by right).
  specialize (Hl x ltac:(left)). repeat case_decide; tauto.
Qed.

(** After a sort by a total order, what is past the first [n] are the elements
    with at least [n] in front of them. *)
Lemma past_the_window {A} (less : A -> A -> bool) `{Order A less} l n x :
  (forall x y, less x y = false -> less y x = false -> x = y) -> NoDup l ->
  x ∈ drop n (stable_sort less l) <-> x ∈ l /\ (n <= in_front less l x)%nat.
Proof.
  intros Htotal Hnd. pose proof (stable_sort_perm less l) as Hp. pose proof (stable_sort_sorted less l) as Hs.
  set (s := stable_sort less l) in *. clearbody s. unfold in_front. rewrite <- Hp in Hnd. rewrite <- Hp. clear l Hp.
  assert (Hirr : forall x, less x x = false) by (intros y; destruct (less y y) eqn:E; [by rewrite (order_asym _ _ E) in E|done]).
  assert (Hx : forall s1 s2, s = s1 ++ x :: s2 -> length (filter (fun y => less y x = true) s) = length s1).
  { intros s1 s2 ->. apply StronglySorted_app in Hs as (Hlt & _ & Hs2). apply StronglySorted_inv in Hs2 as [_ Hs2].
    apply NoDup_app in Hnd as (_ & Hnd & _). rewrite filter_app, length_app, filter_cons_False by by rewrite Hirr.
    rewrite (filter_everything _ s1), (filter_nothing _ s2).
    - cbn. lia.
    - eapply Forall_impl; [exact Hs2|]. unfold not_after. intros y ->. done.
    - apply Forall_forall. intros y Hy. specialize (Hlt y x Hy ltac:(left)). unfold not_after in Hlt.
      destruct (less y x) eqn:E; [done|]. pose proof (Htotal y x E Hlt) as ->. by destruct (Hnd x Hy); left. }
  split.
  - intros Hin. assert (x ∈ s) as Hxs by (by eapply subseteq_drop). split; [done|].
    destruct (list_elem_of_split _ _ Hxs) as (s1 & s2 & E). rewrite (Hx s1 s2 E). destruct (decide (n <= length s1)%nat); [done|]. exfalso.
    rewrite E, drop_app_ge in Hin by lia. subst s. apply NoDup_app in Hnd as (_ & _ & Hnd). apply NoDup_cons in Hnd as [Hn _].
    destruct (n - length s1)%nat as [|k] eqn:Ek; [lia|]. cbn [drop] in Hin. by apply Hn, (subseteq_drop k).
  - intros [Hxs Hn]. destruct (list_elem_of_split _ _ Hxs) as (s1 & s2 & E). rewrite (Hx s1 s2 E) in Hn. rewrite E, drop_app_le by done.
    apply elem_of_app. right. by left.
Qed.

Lemma foldl_delete {A} (l : list string) (t : gmap string A) k :
  foldl (fun book price => delete price book) t l !! k = if decide (k ∈ l) then None else t !! k.
Proof.
  revert t. induction l as [|p l IH]; intros t; cbn [foldl]; [by rewrite decide_False by apply not_elem_of_nil|].
  rewrite IH. destruct (decide (k ∈ l)) as [Hk|Hk]; [by rewrite decide_True by by right|].
  destruct (decide (k = p)) as [->|Hne]; [by rewrite lookup_delete_eq, decide_True by left|].
  rewrite lookup_delete_ne, decide_False; [done|by intros [?|?]%elem_of_cons|done].
Qed.

Lemma trim_lookup t descending k :
  trimToWindow t descending !! k =
  if decide (in_front (ahead text_lt descending) (map_to_list t).*1 k < windowSize)%nat then t !! k else None.
Proof.
  set (prices := (map_to_list t).*1).
  assert (Hnd : NoDup prices) by apply NoDup_fst_map_to_list.
  assert (E : trimToWindow t descending =
    foldl (fun book price => delete price book) t (drop windowSize (stable_sort (ahead text_lt descending) prices))).
  { unfold trimToWindow. change (map fst (map_to_list t)) with prices.
    change (fun a b : string => if descending then text_lt b a else text_lt a b) with (ahead text_lt descending).
    destruct (Nat.leb_spec (size t) windowSize) as [Hle|]; [|done].
    rewrite drop_ge; [done|]. rewrite length_stable_sort. unfold prices. rewrite length_fmap. by rewrite length_map_to_list. }
  rewrite E, foldl_delete. clear E.
  assert (Hp : k ∈ drop windowSize (stable_sort (ahead text_lt descending) prices) <->
    k ∈ prices /\ (windowSize <= in_front (ahead text_lt descending) prices k)%nat).
  { apply past_the_window; [apply _| |done]. destruct descending; cbn; intros; [symmetry|]; by apply text_lt_total. }
  destruct (decide (k ∈ drop _ _)) as [Hk|Hk]; rewrite Hp in Hk.
  - by rewrite decide_False by lia.
  - case_decide as Hc; [done|]. destruct (t !! k) as [v|] eqn:Et; [|done]. destruct Hk. split; [|lia].
    unfold prices. apply list_elem_of_fmap. exists (k, v). by rewrite elem_of_map_to_list.
Qed.

(** ** The book a probe keeps *)

(** A side that keeps the [windowSize] levels that come first. *)
Definition keep (before : Z -> Z -> bool) (m : gmap Z Z) : gmap Z Z :=
  filter (fun kv => (in_front before (map_to_list m).*1 kv.1 < windowSize)%nat) m.

Lemma keep_lookup before m p :
  keep before m !! p = if decide (in_front before (map_to_list m).*1 p < windowSize)%nat then m !! p else None.
Proof.
  unfold keep. apply option_eq. intros q. rewrite map_lookup_filter_Some. cbn [fst]. case_decide; naive_solver.
Qed.

Lemma keep_ext before before' m :
  (forall p q, is_Some (m !! p) -> is_Some (m !! q) -> before p q = before' p q) -> keep before m = keep before' m.
Proof.
  intros H. apply map_eq. intros p. rewrite !keep_lookup. destruct (m !! p) as [x|] eqn:E; [|by repeat case_decide].
  enough (in_front before (map_to_list m).*1 p = in_front before' (map_to_list m).*1 p) as -> by done.
  unfold in_front. f_equal. apply filter_iff_in. intros q Hq. rewrite (H q p); [done| |by eexists].
  apply list_elem_of_fmap in Hq as ([q' y] & -> & Hq). apply elem_of_map_to_list in Hq. by eexists.
Qed.

Lemma keep_small before m : (forall p, before p p = false) -> (size m <= windowSize)%nat -> keep before m = m.
Proof.
  intros Hirr Hsz. apply map_eq. intros p. rewrite keep_lookup. case_decide as Hd; [done|]. destruct (m !! p) as [x|] eqn:E; [|done].
  exfalso. apply Hd. assert (Hp : p ∈ (map_to_list m).*1).
  { apply list_elem_of_fmap. exists (p, x). by rewrite elem_of_map_to_list. }
  pose proof (length_filter_lt (fun y => before y p = true) _ p Hp ltac:(cbv beta; by rewrite Hirr)) as Hlt.
  rewrite length_fmap, length_map_to_list in Hlt. unfold in_front. lia.
Qed.

(** A side after a delta: where the window differs from what the server holds
    the client to have, the window; everywhere else what was there. *)
Definition patch (book told window : gmap Z Z) : gmap Z Z :=
  filter (fun kv => told !! kv.1 <> Some kv.2) window ∪ filter (fun kv => told !! kv.1 = window !! kv.1) book.

Lemma patch_lookup book told window p :
  patch book told window !! p = if decide (told !! p = window !! p) then book !! p else window !! p.
Proof.
  unfold patch. apply option_eq. intros q. rewrite lookup_union_Some_raw, map_lookup_filter_None, !map_lookup_filter_Some. cbn [fst snd].
  case_decide as H; destruct (window !! p) as [w|] eqn:Ew; rewrite ?H; naive_solver.
Qed.

(** That is what applying the levels of a diff does. *)
Lemma set_levels_patch current sent side ls : keyed current -> ls ≡ₚ diffLevels current sent ->
  set_levels side ls = patch side (quantities sent) (quantities current).
Proof.
  intros Hk Hp. apply set_levels_target.
  - intros l Hl. rewrite Hp in Hl. apply diffLevels_spec in Hl; [|done]. rewrite patch_lookup. unfold quantities. rewrite !lookup_fmap.
    destruct Hl as [[Hc Hs]|(Hc & [l' Hs] & ->)].
    + destruct (Hk _ _ Hc) as [_ Hq]. rewrite Hc in *. cbn [fmap option_fmap option_map] in *. rewrite decide_False by done.
      by rewrite (proj2 (Z.eqb_neq _ _)) by lia.
    + by rewrite Hc, Hs.
  - intros p Hnot. rewrite patch_lookup. case_decide as Hd; [done|]. exfalso. unfold quantities in Hd. rewrite !lookup_fmap in Hd.
    destruct (current !! p) as [l|] eqn:Hc.
    + destruct (Hk _ _ Hc) as [<- _]. apply (Hnot l); [|done]. rewrite Hp. apply diffLevels_spec; [done|]. left. by rewrite Hc.
    + apply (Hnot (mkLevel p 0)); [|done]. rewrite Hp. apply diffLevels_spec; [done|]. right. cbn [lvPrice lvQuantity].
      split; [done|]. split; [|done]. by destruct (sent !! p); [eexists|].
Qed.

Lemma diff_none current sent : keyed current -> diffLevels current sent = [] <-> quantities sent = quantities current.
Proof.
  intros Hk. split.
  - intros E. pose proof (set_levels_patch current sent (quantities sent) [] Hk ltac:(by rewrite E)) as H. rewrite H at 1.
    apply map_eq. intros p. rewrite patch_lookup. by case_decide.
  - intros E. destruct (diffLevels current sent) as [|l ls] eqn:Ed; [done|]. exfalso.
    assert (Hl : l ∈ diffLevels current sent) by (rewrite Ed; by left). apply diffLevels_spec in Hl; [|done].
    apply (f_equal (lookup (lvPrice l))) in E. unfold quantities in E. rewrite !lookup_fmap in E.
    destruct Hl as [[Hc Hs]|(Hc & [l' Hs] & _)]; rewrite Hc in E; [by apply Hs|by rewrite Hs in E].
Qed.

(** What is on the probe's display, in prices and quantities: its book, what the
    session holds it to show, the newest window and its number. *)
Record Display := mkDisplay {
  dpBook : ClientBook; dpTold : gmap Z Z * gmap Z Z; dpWindow : gmap Z Z * gmap Z Z; dpNewest : Z }.

Definition trimmed (lt : Z -> Z -> bool) (cl : ClientBook) : ClientBook :=
  mkClient (clEpoch cl) (clApplied cl) (keep (ahead lt true) (clBids cl)) (keep (ahead lt false) (clAsks cl)).

Definition display_step (lt : Z -> Z -> bool) (v : Display) (e : book_event) : Display :=
  let cl := dpBook v in
  match e with
  | Published u bids asks =>
      mkDisplay cl (dpTold v) (quantities (levelMap bids), quantities (levelMap asks)) (Z.max (dpNewest v) u)
  | Flushed =>
      if (dpNewest v <=? clApplied cl) || bool_decide (dpTold v = dpWindow v) then v
      else mkDisplay (trimmed lt (mkClient (clEpoch cl) (dpNewest v)
                        (patch (clBids cl) (fst (dpTold v)) (fst (dpWindow v)))
                        (patch (clAsks cl) (snd (dpTold v)) (snd (dpWindow v)))))
             (dpWindow v) (dpWindow v) (dpNewest v)
  end.

(** A snapshot of the engine, sent while the coalescer holds a window of its own. *)
Definition display_start (c : Coalescer) (epoch u : Z) (bids asks : list Level) : Display :=
  let window := (quantities (coBids c), quantities (coAsks c)) in
  mkDisplay (client_install epoch u bids asks) window window u.

(** ** The text image of a side *)

Section Image.
Context (sym : Symbol) (Hsym : symbol_ok sym).

Definition price_text (p : Z) : string := str (FormatPrice sym p).
Definition qty_text (q : Z) : string := str (FormatQty sym q).
Definition in_range (v : Z) : Prop := Z.abs v <= maxSafeMagnitude.

Lemma price_text_inj p q : in_range p -> in_range q -> price_text p = price_text q -> p = q.
Proof using Hsym.
  intros Hp Hq E. apply (f_equal txt) in E. unfold price_text in E. rewrite !txt_str in E.
  pose proof (price_reads sym p Hsym Hp) as E1. rewrite E, (price_reads sym q Hsym Hq) in E1. by injection E1.
Qed.
Lemma qty_text_inj p q : in_range p -> in_range q -> qty_text p = qty_text q -> p = q.
Proof using Hsym.
  intros Hp Hq E. apply (f_equal txt) in E. unfold qty_text in E. rewrite !txt_str in E.
  pose proof (qty_reads sym p Hsym Hp) as E1. rewrite E, (qty_reads sym q Hsym Hq) in E1. by injection E1.
Qed.

(** The probe's side [t] shows exactly the levels of [m]. *)
Record image (m : gmap Z Z) (t : TextSide) : Prop := {
  im_range : forall p q, m !! p = Some q -> in_range p;
  im_lookup : forall p, in_range p -> t !! price_text p = qty_text <$> m !! p;
  im_only : forall k v, t !! k = Some v -> exists p, in_range p /\ k = price_text p }.

Lemma image_empty : image ∅ ∅.
Proof. split; intros *; rewrite ?lookup_empty; done. Qed.

Lemma image_insert m t p q : in_range p -> image m t -> image (<[p := q]> m) (<[price_text p := qty_text q]> t).
Proof using Hsym.
  intros Hp [Hr Hl Ho]. split.
  - intros p' q'. destruct (decide (p' = p)) as [->|Hne]; [done|]. rewrite lookup_insert_ne by done. apply Hr.
  - intros p' Hp'. destruct (decide (p' = p)) as [->|Hne]; [by rewrite !lookup_insert_eq|].
    rewrite !lookup_insert_ne; [by apply Hl|done|]. intros E. by apply price_text_inj in E.
  - intros k v. destruct (decide (k = price_text p)) as [->|Hne]; [by exists p|]. rewrite lookup_insert_ne by done. apply Ho.
Qed.

Lemma image_delete m t p : in_range p -> image m t -> image (delete p m) (delete (price_text p) t).
Proof using Hsym.
  intros Hp [Hr Hl Ho]. split.
  - intros p' q' [_ H]%lookup_delete_Some. by eapply Hr.
  - intros p' Hp'. destruct (decide (p' = p)) as [->|Hne]; [by rewrite !lookup_delete_eq|].
    rewrite !lookup_delete_ne; [by apply Hl|done|]. intros E. by apply price_text_inj in E.
  - intros k v [_ H]%lookup_delete_Some. by eapply Ho.
Qed.

(** Prices in the order of their texts. *)
Definition text_rank (p q : Z) : bool := text_lt (price_text p) (price_text q).

Lemma image_keys m t : image m t -> (map_to_list t).*1 ≡ₚ price_text <$> (map_to_list m).*1.
Proof using Hsym.
  intros [Hr Hl Ho]. apply NoDup_Permutation.
  - apply NoDup_fst_map_to_list.
  - assert (Hnd : NoDup (map_to_list m).*1) by apply NoDup_fst_map_to_list.
    assert (Hf : Forall in_range (map_to_list m).*1).
    { apply Forall_forall. intros p Hp. apply list_elem_of_fmap in Hp as ([p' q] & -> & Hq). apply elem_of_map_to_list in Hq. by eapply Hr. }
    revert Hnd. induction Hf as [|p l Hp Hf IH]; [constructor|]. intros [Hn Hnd]%NoDup_cons. constructor; [|by apply IH].
    intros (q & E & Hq)%list_elem_of_fmap. rewrite Forall_forall in Hf. apply price_text_inj in E; [by subst|done|by apply Hf].
  - intros k. rewrite !list_elem_of_fmap. split.
    + intros ([k' v] & -> & Hk). apply elem_of_map_to_list in Hk. cbn [fst]. destruct (Ho k' v Hk) as (p & Hp & ->). exists p. split; [done|].
      rewrite Hl in Hk by done. destruct (m !! p) as [q|] eqn:E; [|done]. apply list_elem_of_fmap. exists (p, q). by rewrite elem_of_map_to_list.
    + intros (p & -> & Hp). apply list_elem_of_fmap in Hp as ([p' q] & -> & Hp). apply elem_of_map_to_list in Hp. cbn [fst].
      exists (price_text p', qty_text q). split; [done|]. apply elem_of_map_to_list. rewrite Hl by (by eapply Hr). by rewrite Hp.
Qed.

Lemma image_in_front m t d p : image m t ->
  in_front (ahead text_lt d) (map_to_list t).*1 (price_text p) = in_front (ahead text_rank d) (map_to_list m).*1 p.
Proof using Hsym.
  intros Hi. unfold in_front. rewrite (image_keys m t Hi). generalize (map_to_list m).*1. induction l as [|q l IH]; [done|].
  rewrite fmap_cons. assert (E : ahead text_lt d (price_text q) (price_text p) = ahead text_rank d q p) by by destruct d.
  destruct (decide (ahead text_rank d q p = true)) as [H|H].
  - rewrite !filter_cons_True by congruence. cbn [length]. by rewrite IH.
  - rewrite !filter_cons_False by congruence. by rewrite IH.
Qed.

(** Trimming by the texts keeps the image of the levels whose texts come first. *)
Lemma image_trim m t d : image m t -> image (keep (ahead text_rank d) m) (trimToWindow t d).
Proof using Hsym.
  intros Hi. pose proof Hi as [Hr Hl Ho]. split.
  - intros p q. rewrite keep_lookup. case_decide; [|done]. apply Hr.
  - intros p Hp. rewrite trim_lookup, keep_lookup, (image_in_front m t d p Hi). case_decide; [by apply Hl|done].
  - intros k v. rewrite trim_lookup. case_decide; [|done]. apply Ho.
Qed.

Lemma text_rank_irrefl d p : ahead text_rank d p p = false.
Proof using. unfold ahead, text_rank. destruct d; rewrite text_lt_txt; apply text_ltb_irrefl. Qed.

Context (Hdigits : QtyDigits sym = 8).

Lemma zero_text : qty_text 0 = "0.00000000"%string.
Proof using Hdigits. unfold qty_text, FormatQty. by rewrite Hdigits. Qed.

(** A quantity is a deletion to the probe exactly when it is zero. *)
Lemma deletion_text q : in_range q ->
  bool_decide (qty_text q = "0"%string) || bool_decide (qty_text q = "0.00000000"%string) = (q =? 0).
Proof using Hsym Hdigits.
  intros Hq. destruct (q =? 0) eqn:E; bool_to_prop.
  - subst q. rewrite zero_text. done.
  - rewrite !bool_decide_eq_false_2; [done| |].
    + rewrite <- zero_text. intros H. apply E, qty_text_inj; [done|by vm_compute|done].
    + intros H. apply (f_equal txt) in H. unfold qty_text in H. rewrite txt_str in H.
      pose proof (qty_reads sym q Hsym Hq) as E1. rewrite H in E1. unfold ParseQty in E1.
      destruct Hsym as (_ & _ & _ & Hs). rewrite Hs, Hdigits in E1. vm_compute in E1. congruence.
Qed.

Lemma image_level m t l : level_in_range l -> image m t ->
  image (set_level m l) (apply_level t (price_text (lvPrice l), qty_text (lvQuantity l))).
Proof using Hsym Hdigits.
  intros [Hp Hq] Hi. unfold set_level, apply_level. cbn [fst snd]. rewrite deletion_text by done.
  destruct (lvQuantity l =? 0); [by apply image_delete|by apply image_insert].
Qed.
Lemma image_levels ls m t : Forall level_in_range ls -> image m t ->
  image (set_levels m ls) (applyLevels t (level_texts (Levels sym ls))).
Proof using Hsym Hdigits.
  intros Hl. revert m t. induction Hl as [|l ls Hl _ IH]; intros m t Hi; [done|].
  unfold set_levels, applyLevels in *. cbn [fold_left Levels map level_texts foldl]. apply IH. by apply image_level.
Qed.

Lemma image_install ls : Forall level_in_range ls -> image (quantities (levelMap ls)) (installLevels (level_texts (Levels sym ls))).
Proof using Hsym.
  intros Hl. unfold quantities, levelMap, installLevels.
  enough (forall (m : LevelMap) t, image (lvQuantity <$> m) t -> image (lvQuantity <$> fold_left (fun out l => <[lvPrice l := l]> out) ls m)
    (foldl (fun book l => <[fst l := snd l]> book) t (level_texts (Levels sym ls)))) as H.
  { apply H. rewrite fmap_empty. apply image_empty. }
  induction Hl as [|l ls [Hp _] _ IH]; intros m t Hi; [done|]. cbn [fold_left foldl Levels map level_texts fst snd]. apply IH.
  rewrite fmap_insert. by apply image_insert.
Qed.

(** ** One delta *)

(** The probe is where the client is, and counted nothing wrong. *)
Record tracks (cl : ClientBook) (s : frameStats) : Prop := {
  tr_applied : fsApplied s = clApplied cl;
  tr_clean : fsGaps s = 0 /\ fsStale s = 0;
  tr_bids : image (clBids cl) (fsBids s);
  tr_asks : image (clAsks cl) (fsAsks s) }.

(** A delta that arrives: its numbers fit, its levels are in range, and the
    client that takes it then trims its book. *)
Record deliverable (cl : ClientBook) (d : BookDelta) (cl' : ClientBook) : Prop := {
  dv_applies : exists cl1, client_apply cl d = Applied cl1 /\ cl' = trimmed text_rank cl1;
  dv_ids : in_u64 (bdEpoch d) /\ in_u64 (bdFirst d) /\ in_u64 (bdLast d) /\ 0 <= clApplied cl;
  dv_levels : Forall level_in_range (bdBids d) /\ Forall level_in_range (bdAsks d) }.

Definition delta_payload (d : BookDelta) : Json :=
  delta_json (DeltaPayloadFrom sym (bdEpoch d) (bdFirst d) (bdLast d) (bdBids d) (bdAsks d)).

Lemma tracks_seen cl s type : tracks cl s -> tracks cl (seen s type).
Proof using. intros [H1 H2 H3 H4]. by split. Qed.

Lemma tracks_delta cl d cl' s : deliverable cl d cl' -> tracks cl s ->
  tracks cl' (on_delta s (members (delta_payload d) ≫= decode_delta)).
Proof using Hsym Hdigits.
  intros [(cl1 & Ha & ->) (He & Hf & Hl & Hpos) [Hb Hk]] [T1 [T2 T3] T4 T5]. unfold delta_payload. rewrite decode_delta_json by done.
  cbn [odFirstUpdateID odLastUpdateID odBids odAsks DeltaPayloadFrom on_delta].
  unfold client_apply in Ha. destruct (negb _); [done|]. rewrite T1.
  destruct (bdLast d <=? clApplied cl) eqn:E1; [done|]. destruct (clApplied cl + 1 <? bdFirst d) eqn:E2; [done|]. bool_to_prop.
  injection Ha as <-.
  assert (u64 (clApplied cl + 1) = clApplied cl + 1) as -> by (apply u64_small; unfold in_u64 in *; lia).
  rewrite (proj2 (Z.ltb_ge _ _)) by lia.
  pose proof (image_levels _ _ _ Hb T4) as Ib. pose proof (image_levels _ _ _ Hk T5) as Ia.
  split; cbn [fsApplied fsGaps fsStale fsBids fsAsks set_book trimmed clApplied clBids clAsks]; [done|done| |].
  - by apply image_trim.
  - by apply image_trim.
Qed.

(** ** A stream *)

(** A message of the server, with its sequence number and time: a delta, or a
    frame of a type that is not the book's. *)
Inductive Message := MDelta (d : BookDelta) | MOther (type : string) (payload : Json).
Definition Stamped : Type := (Z * Time) * Message.
Definition message_bytes (m : Stamped) : text :=
  let '((seq, t), m) := m in
  match m with
  | MDelta d => frame_bytes "order_book_delta" seq t (delta_payload d)
  | MOther type payload => frame_bytes type seq t payload
  end.
Definition delta_of (m : Stamped) : option BookDelta := match snd m with MDelta d => Some d | MOther _ _ => None end.
Definition good_message (m : Stamped) : Prop :=
  in_u64 (fst (fst m)) /\ representable (snd (fst m)) /\
  match snd m with
  | MDelta _ => True
  | MOther type payload => valid_utf8 (txt type) = true /\ Printable payload /\ nesting payload <= 9000 /\
      type <> "order_book_snapshot"%string /\ type <> "order_book_delta"%string
  end.

Context (Hid : valid_utf8 (txt (ID sym)) = true).

Lemma delta_printable d : in_u64 (bdEpoch d) -> in_u64 (bdFirst d) -> in_u64 (bdLast d) ->
  Forall level_in_range (bdBids d) -> Forall level_in_range (bdAsks d) ->
  Printable (delta_payload d) /\ nesting (delta_payload d) <= 9000.
Proof using Hsym Hid.
  intros He Hf Hl Hb Ha. destruct (printable_levels sym (bdBids d) Hsym Hb) as [Pb Nb], (printable_levels sym (bdAsks d) Hsym Ha) as [Pa Na].
  split.
  - constructor. repeat apply Forall_cons_2; [..|constructor]; (split; [done|]); cbn [snd]; try by apply printable_uint.
    + by constructor.
    + exact Pb.
    + exact Pa.
  - unfold delta_payload, delta_json. cbn [nesting map foldr snd uint_json odBids odAsks DeltaPayloadFrom] in *. lia.
Qed.

Lemma tracks_other cl s type seq t payload : type <> "order_book_snapshot"%string -> type <> "order_book_delta"%string ->
  tracks cl s -> tracks cl (observe s (mkEnvelope type Version (str (FormatTime t)) seq (Some payload))).
Proof using.
  intros H1 H2 Ht. unfold observe. cbn [enType]. cbv zeta. unfold type_is. rewrite (bool_decide_eq_false_2 _ H1), (bool_decide_eq_false_2 _ H2).
  apply (tracks_seen _ _ type) in Ht. destruct Ht as [A [B C] D E].
  repeat case_match; by split.
Qed.

(** The client takes the deltas one after the other. *)
Inductive Follows : ClientBook -> list BookDelta -> ClientBook -> Prop :=
| FNil cl : Follows cl [] cl
| FCons cl d cl1 ds cl' : deliverable cl d cl1 -> Follows cl1 ds cl' -> Follows cl (d :: ds) cl'.

Lemma tracks_stream ms cl cl' s : Forall good_message ms -> Follows cl (omap delta_of ms) cl' -> tracks cl s ->
  tracks cl' (foldl receive s (map message_bytes ms)).
Proof using Hsym Hdigits Hid.
  intros Hm. revert cl s. induction Hm as [|[[seq t] m] ms (Hseq & Ht & Hgood) _ IH]; intros cl s Hf Htr.
  { by inversion Hf; subst. }
  cbn [map foldl fst snd] in *. destruct m as [d|type payload].
  - change (omap delta_of ((seq, t, MDelta d) :: ms)) with (d :: omap delta_of ms) in Hf.
    inversion Hf as [|? ? cl1 ? ? Hd Hrest]; subst. apply (IH cl1); [done|]. cbn [message_bytes].
    pose proof Hd as [_ (He & Hfi & Hl & _) [Hb Ha]]. destruct (delta_printable d He Hfi Hl Hb Ha) as [Pd Nd].
    rewrite receive_frame by (split_and!; done). unfold observe. cbn [enType enPayload]. cbv zeta.
    change (type_is "order_book_delta" "order_book_snapshot") with false. change (type_is "order_book_delta" "order_book_delta") with true.
    cbv iota. unfold payload_members. cbn [enPayload mbind option_bind].
    apply (tracks_delta cl d cl1); [done|]. by apply tracks_seen.
  - change (omap delta_of ((seq, t, MOther type payload) :: ms)) with (omap delta_of ms) in Hf.
    apply (IH cl); [done|]. cbn [message_bytes]. destruct Hgood as (Hu & Hp & Hn & H1 & H2).
    rewrite receive_frame by (split_and!; done). by apply tracks_other.
Qed.
End Image.

(** ** The coalescer's deltas reach the probe *)

(** The deltas that the flushes of a run emit. *)
Fixpoint emitted (c : Coalescer) (es : list book_event) : list BookDelta :=
  match es with
  | [] => []
  | Published u bids asks :: es => emitted (OnBookWindow c (coEpoch c) u bids asks) es
  | Flushed :: es => let '(c', od) := TakeBookDelta c in option_list od ++ emitted c' es
  end.

(** Levels the parser of prices takes, indexed by their prices. *)
Definition ranged (m : LevelMap) : Prop := map_Forall (fun p l => lvPrice l = p /\ level_in_range l) m.
(** A window of the engine: positive quantities and numbers of their width. *)
Definition event_ok (e : book_event) : Prop :=
  match e with
  | Published u bids asks => in_u64 u /\ positive_levels bids /\ positive_levels asks /\ Forall level_in_range (bids ++ asks)
  | Flushed => True
  end.

(** The coalescer behind a display. *)
Record behind (c : Coalescer) (v : Display) : Prop := {
  bh_window : window_ok c;
  bh_ranged : ranged (coBids c) /\ ranged (coAsks c) /\ ranged (coSentBids c) /\ ranged (coSentAsks c);
  bh_shown : dpWindow v = (quantities (coBids c), quantities (coAsks c));
  bh_told : dpTold v = (quantities (coSentBids c), quantities (coSentAsks c));
  bh_numbers : dpNewest v = coUpdateID c /\ clApplied (dpBook v) = coClientApplied c;
  bh_epoch : clEpoch (dpBook v) = coEpoch c /\ in_u64 (coEpoch c);
  bh_live : coNeedsSnapshot c = false;
  bh_clean : coBookDirty c = false -> dpNewest v <= clApplied (dpBook v) \/ dpTold v = dpWindow v }.

Lemma levelMap_ranged ls : Forall level_in_range ls -> ranged (levelMap ls).
Proof.
  intros Hl. unfold levelMap. generalize (map_Forall_empty (fun p l => lvPrice l = p /\ level_in_range l)).
  generalize (∅ : LevelMap). induction Hl as [|l ls Hl _ IH]; intros m Hm; [done|]. cbn [fold_left]. apply IH. by apply map_Forall_insert_2.
Qed.

Lemma diff_in_range current sent d : ranged current -> ranged sent ->
  Forall level_in_range (sortLevels (diffLevels current sent) d).
Proof.
  intros Hc Hs. apply Forall_forall. intros l Hl. rewrite sortLevels_perm in Hl. unfold diffLevels in Hl.
  apply elem_of_app in Hl as [Hl|Hl]; apply list_elem_of_omap in Hl as ([p l'] & Hin & Hl); apply elem_of_map_to_list in Hin.
  - destruct (Hc _ _ Hin) as [_ Hr]. destruct (sent !! p); [case_match|]; by simplify_eq.
  - destruct (Hs _ _ Hin) as [<- [Hp _]]. destruct (current !! lvPrice l'); simplify_eq. split; [done|by vm_compute].
Qed.

(** Any window of the epoch, newer or not. *)
Lemma OnBookWindow_same c u bids asks :
  OnBookWindow c (coEpoch c) u bids asks =
  Coalesce.set_book c (levelMap bids) (levelMap asks) (coSentBids c) (coSentAsks c) (coEpoch c) (Z.max (coUpdateID c) u)
    (coClientApplied c) true (coNeedsSnapshot c).
Proof.
  unfold OnBookWindow. rewrite Z.eqb_refl, !replaceLevels_eq. cbv zeta. f_equal. destruct (Z.ltb_spec (coUpdateID c) u); lia.
Qed.

Lemma publish_behind lt c v u bids asks : behind c v -> event_ok (Published u bids asks) ->
  behind (OnBookWindow c (coEpoch c) u bids asks) (display_step lt v (Published u bids asks)).
Proof.
  intros [[_ _ [Hu1 Hu2]] (_ & _ & R3 & R4) _ Ht [H1 H2] He Hl _] (Hu & Pb & Pa & [Rb Ra]%Forall_app).
  rewrite OnBookWindow_same. split; cbn; try done.
  - split; cbn; [by apply levelMap_keyed|by apply levelMap_keyed|]. unfold in_u64 in *. lia.
  - split_and!; [by apply levelMap_ranged|by apply levelMap_ranged|done|done].
  - by rewrite H1.
Qed.

Lemma behind_clean c v : behind c v -> dpNewest v <= clApplied (dpBook v) \/ dpTold v = dpWindow v -> behind (clean c) v.
Proof. intros [[? ? ?] ? ? ? ? ? ? ?] ?. by split. Qed.

(** A flush moves the display as the delta it emits moves the client. *)
Lemma flush_behind sym c v : behind c v ->
  let v' := display_step (text_rank sym) v Flushed in
  behind (fst (TakeBookDelta c)) v' /\
  match snd (TakeBookDelta c) with
  | Some d => deliverable sym (dpBook v) d (dpBook v')
  | None => v' = v
  end.
Proof.
  intros Hb. pose proof Hb as [[Kb Ka [Hu1 Hu2]] (R1 & R2 & R3 & R4) Hw Ht [H1 H2] [He1 He2] Hl Hcl]. cbv zeta. cbn [display_step].
  unfold TakeBookDelta. rewrite Hl, orb_false_r. destruct (coBookDirty c) eqn:Ed; cbn [negb].
  2:{ cbn [fst snd]. assert ((dpNewest v <=? clApplied (dpBook v)) || bool_decide (dpTold v = dpWindow v) = true) as ->; [|done].
      apply orb_true_iff. rewrite Z.leb_le, bool_decide_eq_true. auto. }
  rewrite H1, H2. destruct (Z.leb_spec (coUpdateID c) (coClientApplied c)) as [Hle|Hlt]; cbn [orb fst snd].
  { split; [|done]. apply behind_clean; [done|]. left. lia. }
  pose proof (diff_none (coBids c) (coSentBids c) Kb) as Db. pose proof (diff_none (coAsks c) (coSentAsks c) Ka) as Da.
  case_bool_decide as Hsame; rewrite Ht, Hw in Hsame.
  { injection Hsame as E1 E2. rewrite (proj2 Db E1), (proj2 Da E2). cbn [len length Z.of_nat Z.eqb andb fst snd]. split; [|done].
    apply behind_clean; [done|]. right. congruence. }
  cbv zeta. destruct ((len (diffLevels (coBids c) (coSentBids c)) =? 0) && (len (diffLevels (coAsks c) (coSentAsks c)) =? 0)) eqn:En.
  { exfalso. bool_to_prop. apply Hsame. f_equal; [apply Db|apply Da]; apply nil_length_inv; unfold len in *; lia. }
  cbn [fst snd]. rewrite !replaceLevels_eq, Hw, Ht. cbn [fst snd]. split.
  - split; cbn; try done. by left; lia.
  - split; cbn [bdEpoch bdFirst bdLast bdBids bdAsks].
    + eexists. split; [|reflexivity]. unfold client_apply. cbn [bdEpoch bdFirst bdLast bdBids bdAsks].
      rewrite u64_small by (unfold in_u64 in *; lia). rewrite He1, Z.eqb_refl, H2. cbn [negb].
      rewrite (proj2 (Z.leb_gt _ _)), (proj2 (Z.ltb_ge _ _)) by lia.
      rewrite (set_levels_patch (coBids c) (coSentBids c)), (set_levels_patch (coAsks c) (coSentAsks c)); [done|done|apply sortLevels_perm|done|apply sortLevels_perm].
    + rewrite H2, u64_small by (unfold in_u64 in *; lia). cbn [Coalesce.set_book coEpoch]. unfold in_u64 in *. split_and!; lia.
    + split; by apply diff_in_range.
Qed.

Lemma emitted_behind sym es c v : behind c v -> Forall event_ok es ->
  Follows sym (dpBook v) (emitted c es) (dpBook (foldl (display_step (text_rank sym)) v es)).
Proof.
  intros Hb Hes. revert c v Hb. induction Hes as [|e es He _ IH]; intros c v Hb; [constructor|]. cbn [foldl].
  destruct e as [u bids asks|]; cbn [emitted].
  - pose proof (IH _ _ (publish_behind (text_rank sym) c v u bids asks Hb He)) as H. exact H.
  - destruct (flush_behind sym c v Hb) as [Hb' Hd]. cbv zeta in *. destruct (TakeBookDelta c) as [c' [d|]]; cbn [fst snd option_list app] in *.
    + econstructor; [exact Hd|]. by apply IH.
    + rewrite Hd in Hb' |- *. by apply IH.
Qed.

Lemma SnapshotSent_behind c epoch u bids asks : window_ok c -> ranged (coBids c) -> ranged (coAsks c) -> in_u64 epoch -> in_u64 u ->
  behind (SnapshotSent c epoch u) (display_start c epoch u bids asks).
Proof.
  intros [Kb Ka _] Rb Ra He Hu. unfold SnapshotSent. rewrite !replaceLevels_eq. split; cbn; try done. by left; lia.
Qed.

(** ** When the order of the texts is the order of the prices *)

(** Prices written with [w] characters. *)
Definition wide (sym : Symbol) (w : nat) (p : Z) : Prop := 0 <= p /\ in_range p /\ String.length (price_text sym p) = w.

Lemma length_text s : String.length s = length (txt s).
Proof. induction s as [|x s IH]; [done|]. change (txt (String x s)) with (x :: txt s). cbn [String.length length]. by rewrite IH. Qed.

Lemma scaled_order d p q : 0 <= d -> 0 <= p -> 0 <= q -> in_i64 p -> in_i64 q ->
  length (FormatScaled p d) = length (FormatScaled q d) -> text_ltb (FormatScaled p d) (FormatScaled q d) = (p <? q).
Proof.
  intros Hd Hp Hq Rp Rq.
  destruct (FormatScaled_shape p d Hd Rp) as (ip & fp & -> & _ & Dip & Dfp & Lfp & Vip & Vfp).
  destruct (FormatScaled_shape q d Hd Rq) as (iq & fq & -> & _ & Diq & Dfq & Lfq & Viq & Vfq).
  rewrite (proj2 (Z.ltb_ge p 0)), (proj2 (Z.ltb_ge q 0)) by done. cbn [app]. rewrite !length_app.
  assert (Lt : length (point_tail fp) = length (point_tail fq)).
  { unfold point_tail. destruct fp, fq; cbn in *; lia. }
  rewrite Lt. intros Hl. assert (Li : length ip = length iq) by lia.
  rewrite text_ltb_app by done. rewrite Z.abs_eq in Vip, Vfp, Viq, Vfq by done.
  destruct (digits_compare (length ip) (p / 10 ^ d) (q / 10 ^ d) ip iq) as [-> ->]; [done|by split_and!|].
  destruct (digits_compare (length fp) (p `mod` 10 ^ d) (q `mod` 10 ^ d) fp fq) as [Ef _]; [done|split_and!; [lia|done|done]|].
  assert (text_ltb (point_tail fp) (point_tail fq) = (p `mod` 10 ^ d <? q `mod` 10 ^ d)) as ->.
  { rewrite <- Ef. unfold point_tail. destruct fp as [|x fp], fq as [|y fq]; cbn [length] in *; try lia; [done|].
    rewrite !bool_decide_eq_false_2 by done. cbn [text_ltb]. by rewrite N.ltb_irrefl, N.eqb_refl. }
  assert (0 < 10 ^ d) as Hk by (apply Z.pow_pos_nonneg; lia).
  pose proof (Z.div_mod p (10 ^ d)) as E1. pose proof (Z.div_mod q (10 ^ d)) as E2.
  pose proof (Z.mod_pos_bound p (10 ^ d) Hk). pose proof (Z.mod_pos_bound q (10 ^ d) Hk).
  apply eq_true_iff_eq. rewrite orb_true_iff, andb_true_iff, Z.eqb_eq, !Z.ltb_lt. nia.
Qed.

Lemma text_rank_wide sym w p q : symbol_ok sym -> wide sym w p -> wide sym w q -> text_rank sym p q = (p <? q).
Proof.
  intros (Hd & _) (Hp & Rp & Lp) (Hq & Rq & Lq). unfold text_rank. rewrite text_lt_txt. rewrite length_text in Lp, Lq.
  unfold price_text, FormatPrice in *. rewrite !txt_str in *. unfold in_range in *. change maxSafeMagnitude with 9007199254740992 in *.
  apply scaled_order; try done; try lia; unfold in_i64; lia.
Qed.

Definition wide_side (sym : Symbol) (w : nat) (m : gmap Z Z) : Prop := forall p, is_Some (m !! p) -> wide sym w p.
Definition wide_levels (sym : Symbol) (w : nat) (ls : list Level) : Prop := Forall (fun l => wide sym w (lvPrice l)) ls.
Definition wide_event (sym : Symbol) (wb wa : nat) (e : book_event) : Prop :=
  match e with Published _ bids asks => wide_levels sym wb bids /\ wide_levels sym wa asks | Flushed => True end.
Record wide_display (sym : Symbol) (wb wa : nat) (v : Display) : Prop := {
  wd_bids : wide_side sym wb (clBids (dpBook v));
  wd_asks : wide_side sym wa (clAsks (dpBook v));
  wd_window : dpTold v = dpWindow v \/ (wide_side sym wb (fst (dpWindow v)) /\ wide_side sym wa (snd (dpWindow v))) }.

Lemma levelMap_wide sym w ls : wide_levels sym w ls -> wide_side sym w (quantities (levelMap ls)).
Proof.
  intros Hl p. unfold quantities. rewrite lookup_fmap, fmap_is_Some. revert p. unfold levelMap.
  enough (forall m : LevelMap, (forall p, is_Some (m !! p) -> wide sym w p) -> forall p,
    is_Some (fold_left (fun out l => <[lvPrice l := l]> out) ls m !! p) -> wide sym w p) as H.
  { apply H. intros p. rewrite lookup_empty. by intros [? ?]. }
  induction Hl as [|l ls Hl _ IH]; intros m Hm; [done|]. cbn [fold_left]. apply IH. intros p.
  destruct (decide (lvPrice l = p)) as [<-|Hne]; [done|]. rewrite lookup_insert_ne by done. apply Hm.
Qed.

Lemma keep_wide sym w before m : wide_side sym w m -> wide_side sym w (keep before m).
Proof. intros Hm p. rewrite keep_lookup. case_decide; [apply Hm|]. by intros [? ?]. Qed.

Lemma patch_wide sym w book told window : wide_side sym w book -> wide_side sym w window -> wide_side sym w (patch book told window).
Proof. intros H1 H2 p. rewrite patch_lookup. case_decide; [apply H1|apply H2]. Qed.

Lemma keep_numeric sym w d m : symbol_ok sym -> wide_side sym w m -> keep (ahead (text_rank sym) d) m = keep (ahead Z.ltb d) m.
Proof.
  intros Hs Hm. apply keep_ext. intros p q Hp Hq. destruct d; cbn [ahead]; by rewrite (text_rank_wide sym w) by auto.
Qed.

Lemma display_step_wide sym wb wa v e : symbol_ok sym -> wide_event sym wb wa e -> wide_display sym wb wa v ->
  display_step (text_rank sym) v e = display_step Z.ltb v e /\ wide_display sym wb wa (display_step Z.ltb v e).
Proof.
  intros Hs He [Wb Wa Ww]. destruct e as [u bids asks|]; cbn [display_step].
  - split; [done|]. destruct He as [Hb Ha]. split; [done|done|]. right. split; by apply levelMap_wide.
  - destruct (_ <=? _); [done|]. cbn [orb]. case_bool_decide as Hd; [done|]. destruct Ww as [?|[W1 W2]]; [done|].
    pose proof (patch_wide sym wb _ (fst (dpTold v)) _ Wb W1) as Pb. pose proof (patch_wide sym wa _ (snd (dpTold v)) _ Wa W2) as Pa.
    unfold trimmed. cbn [clEpoch clApplied clBids clAsks]. rewrite (keep_numeric sym wb), (keep_numeric sym wa) by done.
    split; [done|]. split; cbn [dpBook dpTold dpWindow clBids clAsks]; [by apply keep_wide|by apply keep_wide|by left].
Qed.

Lemma display_wide sym wb wa es v : symbol_ok sym -> Forall (wide_event sym wb wa) es -> wide_display sym wb wa v ->
  foldl (display_step (text_rank sym)) v es = foldl (display_step Z.ltb) v es.
Proof.
  intros Hs Hes. revert v. induction Hes as [|e es He _ IH]; intros v Hv; [done|]. cbn [foldl].
  destruct (display_step_wide sym wb wa v e Hs He Hv) as [-> Hv']. by apply IH.
Qed.

(** ** When the snapshot is the coalescer's window *)

Definition small_event (e : book_event) : Prop :=
  match e with Published _ bids asks => (length bids <= windowSize /\ length asks <= windowSize)%nat | Flushed => True end.

(** The session knows the whole of the display, and nothing of the window is
    past what the probe keeps. *)
Record known (v : Display) : Prop := {
  kn_told : dpTold v = (clBids (dpBook v), clAsks (dpBook v));
  kn_behind : dpNewest v <= clApplied (dpBook v) -> dpWindow v = dpTold v;
  kn_small : (size (fst (dpWindow v)) <= windowSize /\ size (snd (dpWindow v)) <= windowSize)%nat }.

Lemma quantities_small ls : (length ls <= windowSize)%nat -> (size (quantities (levelMap ls)) <= windowSize)%nat.
Proof.
  intros Hl. unfold quantities. rewrite map_size_fmap. unfold levelMap.
  enough (forall m : LevelMap, size (fold_left (fun out l => <[lvPrice l := l]> out) ls m) <= size m + length ls)%nat as H.
  { specialize (H ∅). rewrite map_size_empty in H. lia. }
  clear Hl. induction ls as [|l ls IH]; intros m; cbn [fold_left length]; [lia|]. specialize (IH (<[lvPrice l := l]> m)).
  rewrite map_size_insert in IH. destruct (m !! lvPrice l); unfold id in *; lia.
Qed.

Lemma patch_known told window : patch told told window = window.
Proof. apply map_eq. intros p. rewrite patch_lookup. by case_decide. Qed.

Lemma publish_known lt v u bids asks : known v -> dpNewest v < u -> clApplied (dpBook v) <= dpNewest v -> small_event (Published u bids asks) ->
  known (display_step lt v (Published u bids asks)).
Proof.
  intros [Ht _ _] Hu Ha [Hb Hk]. split; cbn [display_step dpBook dpTold dpWindow dpNewest fst snd]; [done|lia|].
  split; by apply quantities_small.
Qed.

Lemma flush_known sym v : known v ->
  let v' := display_step (text_rank sym) v Flushed in
  known v' /\ (clBids (dpBook v'), clAsks (dpBook v')) = dpWindow v /\ dpWindow v' = dpWindow v /\ dpNewest v' = dpNewest v /\
  (clApplied (dpBook v) <= dpNewest v -> clApplied (dpBook v') <= dpNewest v').
Proof.
  intros Hk. pose proof Hk as [Ht Hb [S1 S2]]. cbv zeta. cbn [display_step].
  destruct (Z.leb_spec (dpNewest v) (clApplied (dpBook v))) as [Hle|Hlt]; cbn [orb].
  { split_and!; try done. by rewrite Hb, Ht by lia. }
  case_bool_decide as Hd.
  { split_and!; try done. by rewrite <- Hd, Ht. }
  rewrite Ht. cbn [fst snd]. rewrite !patch_known. unfold trimmed. cbn [clEpoch clApplied clBids clAsks].
  rewrite !keep_small by (done || apply text_rank_irrefl).
  destruct (dpWindow v) as [wb wa]. by split_and!.
Qed.

Lemma known_run sym es v w : known v -> clApplied (dpBook v) <= dpNewest v -> dpWindow v = (quantities (fst w), quantities (snd w)) ->
  increasing (dpNewest v) es -> Forall small_event es ->
  let v' := foldl (display_step (text_rank sym)) v es in
  known v' /\ dpWindow v' = (quantities (fst (last_window w es)), quantities (snd (last_window w es))).
Proof.
  intros Hk Ha Hw Hi Hs. cbv zeta. revert v w Hk Ha Hw Hi. induction Hs as [|e es He _ IH]; intros v w Hk Ha Hw Hi; [done|].
  destruct e as [u bids asks|]; cbn [foldl last_window].
  - destruct Hi as (Hu & _ & _ & _ & Hi). apply IH.
    + by apply publish_known.
    + cbn [display_step dpBook dpNewest]. lia.
    + done.
    + cbn [display_step dpNewest]. by rewrite Z.max_r by lia.
  - destruct (flush_known sym v Hk) as (Hk' & _ & Ew & En & Ha'). cbv zeta in *. apply IH; [done|by apply Ha'|congruence|].
    rewrite En. exact Hi.
Qed.

(** ** From the engine's windows to the probe's book *)

Lemma roster_probe sym : sym ∈ AllSymbols -> symbol_ok sym /\ QtyDigits sym = 8 /\ valid_utf8 (txt (ID sym)) = true.
Proof.
  intros H. split; [by apply roster_symbol_ok|]. unfold AllSymbols, allSymbols in H. rewrite !elem_of_cons, elem_of_nil in H.
  repeat destruct H as [->|H]; done.
Qed.

(** The snapshot a session sends of a market. *)
Definition snapshot_bytes (sym : Symbol) (seq : Z) (t : Time) (snap : OrderBookSnapshot) : text :=
  frame_bytes "order_book_snapshot" seq t (snapshot_json (SnapshotPayloadFrom sym snap)).

Lemma snapshot_received sym s seq t epoch u bids asks at_ :
  sym ∈ AllSymbols -> in_u64 seq -> representable t -> representable at_ -> in_u64 epoch -> in_u64 u ->
  Forall level_in_range bids -> Forall level_in_range asks -> fsGaps s = 0 -> fsStale s = 0 ->
  tracks sym (client_install epoch u bids asks)
    (receive s (snapshot_bytes sym seq t (mkSnapshot (ID sym) epoch u bids asks at_))).
Proof.
  intros Hr Hs Ht Hat He Hu Hb Ha Hg Hst. destruct (roster_probe sym Hr) as (Hsym & Hd & Hid). unfold snapshot_bytes.
  destruct (printable_levels sym bids Hsym Hb) as [Pb Nb], (printable_levels sym asks Hsym Ha) as [Pa Na].
  rewrite receive_frame.
  - unfold observe. cbn [enType enPayload]. cbv zeta. change (type_is "order_book_snapshot" "order_book_snapshot") with true.
    cbv iota. unfold payload_members. cbn [enPayload]. change (Some ?j ≫= members) with (members j).
    rewrite decode_snapshot_json by done.
    cbn [on_snapshot]. split; cbn; [done|done|by apply image_install|by apply image_install].
  - split_and!; [done|done|done| |].
    + constructor. repeat apply Forall_cons_2; [..|constructor]; (split; [done|]); cbn [snd]; try by apply printable_uint.
      * by constructor.
      * exact Pb.
      * exact Pa.
      * by apply printable_str, FormatTime_plain.
    + unfold snapshot_json. cbn [nesting map foldr snd uint_json osBids osAsks SnapshotPayloadFrom snBids snAsks] in *. lia.
Qed.

(** C4: What the probe shows is what it was sent, kept to fifteen levels a side.
    Start from any snapshot of a session, the first or a later one, and from any
    window its coalescer holds at that moment, the one of the snapshot or not.
    However the engine publishes windows, newer than the snapshot or not, the
    session flushes them, and other frames come in between: the probe, reading
    the bytes of the frames with rules of its own, counts no gap and no stale
    delta, and its sides are the texts of [display_step]'s: a flush that has
    something new to tell writes the window over the levels whose quantity
    changed since the last one, keeps every other level, also one that the
    window does not have, and then keeps the fifteen levels whose price texts
    come first.  When the prices of a side are written with one number of
    characters, the fifteen kept are the highest bids and the lowest asks; and
    when the snapshot shows the window the coalescer held, the windows are
    newer and have at most fifteen levels a side, the probe ends, after a last
    flush, with exactly the last published window. *)
Theorem probe_shows_window sym c s0 epoch u bids asks at_ seq t es ms :
  sym ∈ AllSymbols -> window_ok c -> ranged (coBids c) -> ranged (coAsks c) ->
  in_u64 epoch -> in_u64 u -> in_u64 seq -> representable t -> representable at_ ->
  Forall level_in_range (bids ++ asks) -> Forall event_ok es -> fsGaps s0 = 0 -> fsStale s0 = 0 ->
  Forall good_message ms -> omap delta_of ms = emitted (SnapshotSent c epoch u) es ->
  let s := foldl receive s0
             (snapshot_bytes sym seq t (mkSnapshot (ID sym) epoch u bids asks at_) :: map (message_bytes sym) ms) in
  let start := display_start c epoch u bids asks in
  let shown := dpBook (foldl (display_step (text_rank sym)) start es) in
  (fsApplied s = clApplied shown /\ fsGaps s = 0 /\ fsStale s = 0 /\
   image sym (clBids shown) (fsBids s) /\ image sym (clAsks shown) (fsAsks s)) /\
  (forall wb wa, wide_levels sym wb bids -> wide_levels sym wa asks -> Forall (wide_event sym wb wa) es ->
   shown = dpBook (foldl (display_step Z.ltb) start es)) /\
  (forall es', es = es' ++ [Flushed] ->
   quantities (coBids c) = quantities (levelMap bids) -> quantities (coAsks c) = quantities (levelMap asks) ->
   (length bids <= windowSize)%nat -> (length asks <= windowSize)%nat -> Forall small_event es -> increasing u es ->
   image sym (quantities (fst (last_window (levelMap bids, levelMap asks) es))) (fsBids s) /\
   image sym (quantities (snd (last_window (levelMap bids, levelMap asks) es))) (fsAsks s)).
Proof.
  intros Hr Hw Rb Ra He Hu Hs Ht Hat [Lb La]%Forall_app Hes Hg Hst Hm Hds. cbv zeta. cbn [foldl].
  destruct (roster_probe sym Hr) as (Hsym & Hd & Hid).
  pose proof (emitted_behind sym es _ _ (SnapshotSent_behind c epoch u bids asks Hw Rb Ra He Hu) Hes) as Hf. rewrite <- Hds in Hf.
  pose proof (snapshot_received sym s0 seq t epoch u bids asks at_ Hr Hs Ht Hat He Hu Lb La Hg Hst) as T0.
  destruct (tracks_stream sym Hsym Hd Hid ms _ _ _ Hm Hf T0) as [Ta [Tg Ts] Ib Ia].
  split; [by split_and!|]. split.
  - intros wb wa Wb Wa We. f_equal. apply (display_wide sym wb wa); [done|done|].
    split; [by apply levelMap_wide|by apply levelMap_wide|by left].
  - intros es' -> Eb Ea Sb Sa Hsm Hi. rewrite foldl_app in Ib, Ia. cbn [foldl] in Ib, Ia. apply Forall_app in Hsm as [Hsm _].
    assert (Hi' : increasing u es' /\ last_window (levelMap bids, levelMap asks) (es' ++ [Flushed]) =
                  last_window (levelMap bids, levelMap asks) es').
    { clear -Hi. generalize (levelMap bids, levelMap asks). revert u Hi. induction es' as [|[] es IH]; cbn; intros u' Hi w; [done| |by apply IH].
      destruct_and!. edestruct IH as [? E]; [done|]. rewrite E. by split_and!. }
    destruct Hi' as [Hi' ->].
    assert (Hk : known (display_start c epoch u bids asks)).
    { split; cbn; rewrite ?Eb, ?Ea; [done|done|]. split; by apply quantities_small. }
    destruct (known_run sym es' _ (levelMap bids, levelMap asks) Hk ltac:(cbn; lia) ltac:(cbn; by rewrite Eb, Ea) Hi' Hsm) as [Hk' Ew].
    cbv zeta in *. destruct (flush_known sym _ Hk') as (_ & E & _). cbv zeta in E. rewrite Ew in E. injection E as E1 E2.
    by rewrite <- E1, <- E2.
Qed.

(** ** Concrete runs *)

#[local] Transparent FormatTime FormatScaled parse_json Marshal.

Definition probe_time : Time := unixNanos 1789648801500000000.
Definition first_bids : list Level := [lv 100 5; lv 99 7].
Definition first_asks : list Level := [lv 101 4; lv 103 6].
Definition next_bids : list Level := [lv 101 6; lv 100 5].
Definition next_asks : list Level := [lv 103 6].
Definition probe_events : list book_event := [Published 2 next_bids next_asks; Flushed].
Definition probe_snapshot : text :=
  snapshot_bytes BTCUSDT 1 probe_time (mkSnapshot "BTCUSDT" 0 1 first_bids first_asks probe_time).
(** A trade in between, then the delta of the flush: a new bid, and a bid and an
    ask that are gone. *)
Definition probe_messages : list Stamped :=
  [((2, probe_time), MOther "trade" JNull);
   ((3, probe_time), MDelta (mkDelta 0 2 2 [lv 101 6; lv 99 0] [lv 101 0]))].
(** The same after a resync, which empties the coalescer: the delta is the whole
    window, and nothing is deleted. *)
Definition resync_messages : list Stamped :=
  [((2, probe_time), MDelta (mkDelta 0 2 2 [lv 101 6; lv 100 5] [lv 103 6]))].

Lemma c_window_ok : window_ok c_window /\ window_ok (Coalescer_Reset c_window).
Proof.
  split; [|split; [apply map_Forall_empty|apply map_Forall_empty|split; by vm_compute]].
  split; [apply (levelMap_keyed first_bids)|apply (levelMap_keyed first_asks)|]; [by repeat constructor..|split; by vm_compute].
Qed.

Lemma c_window_ranged : ranged (coBids c_window) /\ ranged (coAsks c_window).
Proof. split; [apply (levelMap_ranged first_bids)|apply (levelMap_ranged first_asks)]; by repeat constructor; vm_compute. Qed.

(** From a snapshot of the coalescer's window the probe shows the newest one,
    ranked by number; after a resync a bid that is gone stays on its book. *)
Lemma probe_shows_window_witness :
  (let s := foldl receive newStats (probe_snapshot :: map (message_bytes BTCUSDT) probe_messages) in
   fsGaps s = 0 /\ image BTCUSDT (quantities (levelMap next_bids)) (fsBids s) /\
   image BTCUSDT (quantities (levelMap next_asks)) (fsAsks s)) /\
  (let s := foldl receive newStats (probe_snapshot :: map (message_bytes BTCUSDT) resync_messages) in
   fsApplied s = 2 /\ fsBids s !! "1.01"%string = Some "0.00000006"%string /\ fsBids s !! "0.99"%string = Some "0.00000007"%string).
Proof.
  assert (Ht : representable probe_time) by (split; [vm_compute; discriminate|reflexivity]).
  assert (Hu : forall z, bool_decide (in_u64 z) = true -> in_u64 z) by (intros z H; by apply bool_decide_eq_true in H).
  assert (Hl : Forall level_in_range (first_bids ++ first_asks)) by by repeat constructor; vm_compute.
  assert (He : Forall event_ok probe_events).
  { apply Forall_cons_2; [|by repeat constructor]. split; [by apply Hu; vm_compute|]. split; [by repeat constructor|].
    split; [by repeat constructor|]. by repeat constructor; vm_compute. }
  assert (Hm : Forall good_message probe_messages /\ Forall good_message resync_messages).
  { split; repeat apply Forall_cons_2; try apply Forall_nil_2; (split; [by apply Hu; vm_compute|]); (split; [exact Ht|]); try exact I.
    split_and!; try (vm_compute; congruence); constructor. }
  assert (Hr : BTCUSDT ∈ AllSymbols) by (apply list_elem_of_In; left; reflexivity).
  destruct c_window_ok as [Hw1 Hw2], c_window_ranged as [Rb Ra], Hm as [Hm1 Hm2]. split; cbv zeta.
  - destruct (probe_shows_window BTCUSDT c_window newStats 0 1 first_bids first_asks probe_time 1 probe_time probe_events probe_messages
      Hr Hw1 Rb Ra (Hu 0 eq_refl) (Hu 1 eq_refl) (Hu 1 eq_refl) Ht Ht Hl He eq_refl eq_refl Hm1 ltac:(vm_compute; reflexivity))
      as ((_ & Hg & _) & _ & Hx).
    split; [exact Hg|]. apply (Hx [Published 2 next_bids next_asks]).
    + reflexivity.
    + vm_compute. reflexivity.
    + vm_compute. reflexivity.
    + vm_compute. lia.
    + vm_compute. lia.
    + apply Forall_cons_2; [split; vm_compute; lia|by repeat constructor].
    + cbn. unfold in_u64. split_and!; try lia; by repeat constructor.
  - destruct (probe_shows_window BTCUSDT (Coalescer_Reset c_window) newStats 0 1 first_bids first_asks probe_time 1 probe_time probe_events
      resync_messages Hr Hw2 (map_Forall_empty _) (map_Forall_empty _) (Hu 0 eq_refl) (Hu 1 eq_refl) (Hu 1 eq_refl) Ht Ht Hl He eq_refl eq_refl
      Hm2 ltac:(vm_compute; reflexivity)) as ((Ha & _ & _ & Hi & _) & Hwide & _).
    assert (Hn : Forall (wide_levels BTCUSDT 4) [first_bids; first_asks; next_bids; next_asks])
      by (repeat apply Forall_cons_2; try apply Forall_nil_2; (split_and!; [vm_compute; discriminate|vm_compute; discriminate|vm_compute; reflexivity])).
    rewrite !Forall_cons in Hn. destruct Hn as (N1 & N2 & N3 & N4 & _).
    rewrite (Hwide 4%nat 4%nat N1 N2) in Ha, Hi by (apply Forall_cons_2; [by split|by repeat constructor]).
    split; [exact Ha|]. split.
    + pose proof (im_lookup _ _ _ Hi 101 ltac:(by vm_compute)) as H. exact H.
    + pose proof (im_lookup _ _ _ Hi 99 ltac:(by vm_compute)) as H. exact H.
Defined.

(** The server takes every message of the probe. *)
Example probe_messages_accepted :
  FrameSpec.DecodeClientBytes (Marshal hello_message) = inl (Hello "wsprobe/1.0" "cli" "wsprobe") /\
  FrameSpec.DecodeClientBytes (Marshal (subscribe_message "BTCUSDT" "1m")) =
    inl (Subscribe "BTCUSDT" "1m" (Some ["order_book"; "trades"; "candles"; "summary"; "health"]%string)) /\
  FrameSpec.DecodeClientBytes (Marshal (ping_message 1 1789648801500)) = inl (Ping 1 1789648801500) /\
  FrameSpec.DecodeClientBytes (Marshal (report_message (mkNumber false 74 0 true) (mkNumber false 12 0 true) 1789648801500)) =
    inl (LatencyReport (f64_of_Z 74) (f64_of_Z 12) 10 1789648801500 "rolling-10" 0 0).
Proof. vm_compute. split_and!; reflexivity. Qed.

(** The window is trimmed by the order of the texts, so where the prices gain a
    digit the probe throws away the best ask, and reports the worst as best. *)
Definition ask_side (n : nat) : TextSide :=
  list_to_map (map (fun i => (price_text BTCUSDT (9999999 + Z.of_nat i), "1.00000000"%string)) (seq 0 n)).
Example trim_drops_best_ask :
  bestPrice (ask_side 15) false = "100000.00"%string /\ ask_side 16 !! "99999.99"%string = Some "1.00000000"%string /\
  trimToWindow (ask_side 16) false !! "99999.99"%string = None.
Proof. vm_compute. split_and!; reflexivity. Qed.
