(* ===== verification/Sqlite.v ===== *)
(** * The SQLite metrics driver: [internal/metrics/sqlite/{repository,prune}.go]

    What the driver sends to the database and what it reads back.  The database
    is the class [Database]: transactions and statements are [modernc.org/sqlite]
    and [database/sql], not code of this repository.  A statement is the content
    of its text: the table, the columns and how many tuples it inserts; the
    bound values travel beside it. *)

From Stdlib Require Import Ascii.
From S2P Require Import Prelude Money GoTime Decimal Domain Float64 Wire TimeText Metrics MetricsStore.

(** ** Values *)

Inductive SqlValue :=
| VNull | VInt (z : Z) | VReal (x : float64) | VText (s : text).

Definition encodeTime (t : Time) : text := if tIsZero t then [] else FormatTime t.
Definition encodeTimePtr (t : option Time) : SqlValue :=
  match t with
  | Some t => if tIsZero t then VNull else VText (FormatTime t)
  | None => VNull
  end.
Definition decodeTime (s : text) : Time :=
  match s with
  | [] => zeroTime
  | _ => match ParseWire s with
         | Some t => t
         | None => default zeroTime (ParseRFC3339 s)
         end
  end.
Definition nullableText (v : string) : SqlValue := if bool_decide (v = "") then VNull else VText (txt v).
Definition boolToInt (v : bool) : Z := if v then 1 else 0.
Definition intToBool (v : Z) : bool := negb (v =? 0).

Definition VStr (v : string) : SqlValue := VText (txt v).
Definition VTime (t : Time) : SqlValue := VText (encodeTime t).

(** ** Statements *)

Inductive Statement :=
| SInsert (replace : bool) (table : string) (columns : list string) (tuples : Z)
| SEndSession
| SDelete (table column : string).

Inductive SqlError := ErrStatement | ErrDatabaseClosed | ErrBegin | ErrCommit.

(** [D] is the database, [T] an open transaction.  [dbDelete] runs one DELETE
    outside a transaction and returns the rows affected; [None] is an error. *)
Class Transaction (T : Type) := { txExec : T -> Statement -> list SqlValue -> T * bool }.
Class Database (D T : Type) := {
  dbBegin : D -> option T;
  txCommit : T -> D * bool;
  txRollback : T -> D }.
Class Deletion (D : Type) := { dbDelete : D -> Statement -> text -> Z -> D * option Z }.
#[export] Hint Mode Deletion ! : typeclass_instances.
#[export] Hint Mode Transaction ! : typeclass_instances.

(** Statements that stop at the first error. *)
Definition andThen {T} (m k : T -> T * option SqlError) : T -> T * option SqlError := fun tx =>
  let '(tx, e) := m tx in match e with Some _ => (tx, e) | None => k tx end.
Definition nothing {T} : T -> T * option SqlError := fun tx => (tx, None).

(** ** Bulk inserts *)

Definition maxRowsPerStatement : Z := 500.

(** A multi-row insert: its text before VALUES, and the values of each row. *)
Record bulkInsert := mkBulk {
  biReplace : bool; biTable : string; biColumns : list string; biRows : list (list SqlValue) }.

Definition expandInsert (b : bulkInsert) (count : Z) : Statement :=
  SInsert (biReplace b) (biTable b) (biColumns b) count.

(** The tables of the schema. *)
Definition knownTables : list string :=
  ["sessions"; "latency_samples"; "health_reports"; "tier_transitions"; "delivery_windows"; "book_sync_events";
   "protocol_events"; "engine_events"; "candle_closes"; "fault_injections"; "schema_migrations"].

(** ** The text of a statement, each run of white space written as one space *)

Fixpoint join_texts (sep : text) (l : list text) : text :=
  match l with [] => [] | [x] => x | x :: l => x ++ sep ++ join_texts sep l end.
Definition insert_prefix (replace : bool) (table : string) (columns : list string) : text :=
  txt (if replace then "INSERT OR REPLACE INTO " else "INSERT INTO ") ++ txt table ++ txt " (" ++
  join_texts (txt ", ") (map txt columns) ++ txt ")".
Definition tuple_text (columns : Z) : text :=
  txt "(?" ++ concat (replicate (Z.to_nat (columns - 1)) (txt ",?")) ++ txt ")".
Definition statement_text (st : Statement) : text :=
  match st with
  | SInsert replace t cols count =>
      insert_prefix replace t cols ++ txt " VALUES " ++
      join_texts (txt ",") (replicate (Z.to_nat count) (tuple_text (len cols)))
  | SEndSession =>
      txt "UPDATE sessions SET disconnected_at = ?, disconnect_reason = ?, final_tier = ?, override_tier = ?, " ++
      txt "uptime_ms = ?, messages_sent = ?, messages_received = ?, bytes_sent = ?, protocol_errors = ? " ++
      txt "WHERE session_id = ?"
  | SDelete t c =>
      txt "DELETE FROM " ++ txt t ++ txt " WHERE rowid IN (SELECT rowid FROM " ++ txt t ++ txt " WHERE " ++ txt c ++
      txt " IS NOT NULL AND " ++ txt c ++ txt " <> '' AND " ++ txt c ++ txt " < ? LIMIT ?)"
  end.

(** The table named by the error of an insert. *)
Fixpoint cut_prefix (marker s : text) : option text :=
  match marker, s with
  | [], _ => Some s
  | a :: marker, b :: s => if Ascii.eqb a b then cut_prefix marker s else None
  | _ :: _, [] => None
  end.
Fixpoint until_space_or_paren (s : text) : text :=
  match s with
  | [] => []
  | c :: s => if Ascii.eqb c " " || Ascii.eqb c "(" then [] else c :: until_space_or_paren s
  end.
Definition insertTable (prefix : text) : text :=
  match cut_prefix (txt "INSERT INTO ") prefix with
  | None => txt "unknown"
  | Some rest => until_space_or_paren rest
  end.

(** Runs of white space become one space, and 90 bytes are enough. *)
Definition sql_space (c : ascii) : bool := existsb (Ascii.eqb c) [" "; "009"; "010"; "011"; "012"; "013"]%char.
Fixpoint fields (cur : text) (s : text) : list text :=
  match s with
  | [] => match cur with [] => [] | _ => [cur] end
  | c :: s => if sql_space c then match cur with [] => fields [] s | _ => cur :: fields [] s end
              else fields (cur ++ [c]) s
  end.
Definition summariseSQL (query : text) : text :=
  let query := join_texts [" "%char] (fields [] query) in
  if 90 <? len query then take 90 query ++ txt "..." else query.

Definition per_chunk (columns : Z) : Z :=
  let perChunk := maxRowsPerStatement in
  let perChunk := if 0 <? columns then
                    let limit := Z.quot 30000 columns in if limit <? perChunk then limit else perChunk
                  else perChunk in
  if perChunk <? 1 then 1 else perChunk.

Section Driver.
Context {D T : Type} `{Transaction T} `{Database D T} `{Deletion D}.

Definition exec (st : Statement) (args : list SqlValue) : T -> T * option SqlError := fun tx =>
  let '(tx, ok) := txExec tx st args in (tx, if ok : bool then None else Some ErrStatement).

(** Each chunk takes a row at least, so the number of rows is enough fuel. *)
Fixpoint insert_chunks (fuel : nat) (b : bulkInsert) (perChunk start : Z) : T -> T * option SqlError :=
  match fuel with
  | O => nothing
  | S fuel =>
      let rows := len (biRows b) in
      if start <? rows then
        let count := if rows <? start + perChunk then rows - start else perChunk in
        andThen (exec (expandInsert b count)
                   (concat (take (Z.to_nat count) (drop (Z.to_nat start) (biRows b)))))
          (insert_chunks fuel b perChunk (start + perChunk))
      else nothing
  end.
Definition writeBatchInTx (b : bulkInsert) : T -> T * option SqlError :=
  if len (biRows b) =? 0 then nothing
  else insert_chunks (length (biRows b)) b (per_chunk (len (biColumns b))) 0.

(** ** Rows *)

Definition sessionArgs (row : SessionRow) : list SqlValue :=
  [VStr (srSessionID row); VStr (srDeviceID row); VStr (srClientVersion row); VStr (srPlatform row);
   VStr (srRemoteAddr row); VStr (srSymbol row); VStr (srInterval row); VTime (srConnectedAt row);
   encodeTimePtr (srDisconnectedAt row); VStr (srDisconnectReason row); VStr (srInitialTier row);
   VStr (srFinalTier row); VStr (srOverrideTier row); VInt (srUptimeMs row); VInt (srMessagesSent row);
   VInt (srMessagesReceived row); VInt (srBytesSent row); VInt (srProtocolErrors row)].
Definition session_insert (rows : list SessionRow) : bulkInsert :=
  mkBulk false "sessions"
    ["session_id"; "device_id"; "client_version"; "platform"; "remote_addr"; "symbol"; "interval"; "connected_at";
     "disconnected_at"; "disconnect_reason"; "initial_tier"; "final_tier"; "override_tier"; "uptime_ms";
     "messages_sent"; "messages_received"; "bytes_sent"; "protocol_errors"] (map sessionArgs rows).
Definition endArgs (row : SessionRow) : list SqlValue :=
  [encodeTimePtr (srDisconnectedAt row); VStr (srDisconnectReason row); VStr (srFinalTier row);
   VStr (srOverrideTier row); VInt (srUptimeMs row); VInt (srMessagesSent row); VInt (srMessagesReceived row);
   VInt (srBytesSent row); VInt (srProtocolErrors row); VStr (srSessionID row)].

(** Every start of the batch is inserted before any end is applied. *)
Fixpoint end_sessions (rows : list SessionRow) : T -> T * option SqlError :=
  match rows with
  | [] => nothing
  | row :: rows => andThen (exec SEndSession (endArgs row)) (end_sessions rows)
  end.
Definition start_rows (batch : list SessionWrite) : list SessionRow :=
  map swRow (List.filter (fun w => negb (swEnd w)) batch).
Definition end_rows (batch : list SessionWrite) : list SessionRow := map swRow (List.filter swEnd batch).
Definition writeSessions (batch : list SessionWrite) : T -> T * option SqlError :=
  if len batch =? 0 then nothing
  else andThen (if 0 <? len (start_rows batch) then writeBatchInTx (session_insert (start_rows batch)) else nothing)
         (end_sessions (end_rows batch)).

Definition latency_args (s : LatencySample) : list SqlValue :=
  [VStr (lsSessionID s); VInt (lsSeq s); VReal (lsRTTMs s); VReal (lsJitterMs s); VInt (lsSamples s);
   if lsClientTimeMs s =? 0 then VNull else VTime (unixNanos (lsClientTimeMs s * Millisecond));
   VTime (lsServerTime s); VInt (boolToInt (lsCapped s)); VInt (boolToInt (lsMissedPong s))].
Definition writeLatency (rows : list LatencySample) : bulkInsert :=
  mkBulk false "latency_samples"
    ["session_id"; "seq"; "rtt_ms"; "jitter_ms"; "samples"; "client_time"; "server_time"; "capped"; "missed_pong"]
    (map latency_args rows).

Definition writeHealth (rows : list HealthReportRow) : bulkInsert :=
  mkBulk false "health_reports" ["session_id"; "received_at"; "rtt_ms"; "jitter_ms"; "age_since_last_ms"; "band"]
    (map (fun h => [VStr (hwSessionID h); VTime (hwReceivedAt h); VReal (hwRTTMs h); VReal (hwJitterMs h);
                    VInt (hwAgeSinceLastMs h); VStr (hwBand h)]) rows).

Definition tier_args (t : TierTransitionRow) : list SqlValue :=
  [VStr (twSessionID t); VTime (twAt t); VStr (twFrom t); VStr (twTo t); VStr (twReason t); VReal (twRTTMs t);
   VReal (twJitterMs t); VInt (twStreak t); VStr (twOverride t)].
Definition writeTiers (rows : list TierTransitionRow) : bulkInsert :=
  mkBulk false "tier_transitions"
    ["session_id"; "at"; "from_tier"; "to_tier"; "reason"; "rtt_ms"; "jitter_ms"; "streak"; "override"]
    (map tier_args rows).

Definition delivery_args (w : DeliveryWindowRow) : list SqlValue :=
  [VStr (wwSessionID w); VTime (wwWindowStart w); VInt (wwWindowMs w); VStr (wwTier w); VReal (wwTargetRate w);
   VInt (wwCandleUpdates w); VInt (wwTradeMessages w); VInt (wwBookDeltas w); VInt (wwHealthMessages w);
   VInt (wwCoalesced w); VInt (wwSuppressed w); VInt (wwBytesSent w); VReal (wwEffectiveRate w)].
Definition writeDelivery (rows : list DeliveryWindowRow) : bulkInsert :=
  mkBulk false "delivery_windows"
    ["session_id"; "window_start"; "window_ms"; "tier"; "target_rate"; "candle_updates"; "trade_messages";
     "book_deltas"; "health_messages"; "coalesced_count"; "suppressed_count"; "bytes_sent"; "effective_rate"]
    (map delivery_args rows).

Definition writeBookEvents (rows : list BookSyncEvent) : bulkInsert :=
  mkBulk false "book_sync_events"
    ["at"; "session_id"; "scope"; "event"; "epoch"; "from_update_id"; "to_update_id"; "gap_size"; "duration_ms";
     "attempt"]
    (map (fun e => [VTime (bwAt e); nullableText (bwSessionID e); VStr (bwScope e); VStr (bwEvent e);
                    VInt (bwEpoch e); VInt (bwFromUpdateID e); VInt (bwToUpdateID e); VInt (bwGapSize e);
                    VInt (bwDurationMs e); VInt (bwAttempt e)]) rows).

Definition writeProtocol (rows : list ProtocolEventRow) : bulkInsert :=
  mkBulk false "protocol_events" ["at"; "session_id"; "kind"; "detail"; "count"]
    (map (fun e => [VTime (pwAt e); nullableText (pwSessionID e); VStr (pwKind e); VStr (pwDetail e);
                    VInt (if pwCount e <=? 0 then 1 else pwCount e)]) rows).

Definition writeEngineEvents (rows : list EngineEventRow) : bulkInsert :=
  mkBulk false "engine_events"
    ["at"; "event"; "epoch"; "event_index"; "update_id"; "trade_id"; "detail"; "duration_ms"]
    (map (fun e => [VTime (eeAt e); VStr (eeEvent e); VInt (eeEpoch e); VInt (eeEventIndex e);
                    VInt (eeUpdateID e); VInt (eeTradeID e); VStr (eeDetail e); VInt (eeDurationMs e)]) rows).

Definition writeCandleCloses (rows : list CandleCloseRow) : bulkInsert :=
  mkBulk true "candle_closes"
    ["symbol"; "interval"; "start_time"; "open"; "high"; "low"; "close"; "volume"; "trade_count"; "closed_at";
     "epoch"]
    (map (fun c => [VStr (ccSymbol c); VStr (ccInterval c); VTime (ccStartTime c); VText (ccOpen c);
                    VText (ccHigh c); VText (ccLow c); VText (ccClose c); VText (ccVolume c);
                    VInt (ccTradeCount c); VTime (ccClosedAt c); VInt (ccEpoch c)]) rows).

Definition writeFaults (rows : list FaultInjectionRow) : bulkInsert :=
  mkBulk false "fault_injections" ["at"; "session_id"; "fault"; "parameters"; "applied"]
    (map (fun f => [VTime (fwAt f); nullableText (fwSessionID f); VStr (fwFault f); VStr (fwParameters f);
                    VInt (boolToInt (fwApplied f))]) rows).

(** ** A batch *)

Definition writeAll (b : Batch) : T -> T * option SqlError :=
  andThen (writeSessions (btSessions b)) (
  andThen (writeBatchInTx (writeLatency (btLatency b))) (
  andThen (writeBatchInTx (writeHealth (btHealth b))) (
  andThen (writeBatchInTx (writeTiers (btTiers b))) (
  andThen (writeBatchInTx (writeDelivery (btDelivery b))) (
  andThen (writeBatchInTx (writeBookEvents (btBookEvents b))) (
  andThen (writeBatchInTx (writeProtocol (btProtocol b))) (
  andThen (writeBatchInTx (writeEngineEvents (btEngineEvts b))) (
  andThen (writeBatchInTx (writeCandleCloses (btCandleClose b)))
          (writeBatchInTx (writeFaults (btFaults b))))))))))).

Record SqlRepo := mkSqlRepo { sqDB : D; sqClosed : bool }.
Definition with_db (r : SqlRepo) (d : D) : SqlRepo := mkSqlRepo d (sqClosed r).

Definition Sql_WriteBatch (r : SqlRepo) (b : Batch) : SqlRepo * option SqlError :=
  if Batch_Len b =? 0 then (r, None)
  else if sqClosed r then (r, Some ErrDatabaseClosed)
  else
    match dbBegin (sqDB r) with
    | None => (r, Some ErrBegin)
    | Some tx =>
        let '(tx, err) := writeAll b tx in
        match err with
        | Some e => (with_db r (txRollback tx), Some e)
        | None => let '(d, ok) := txCommit tx in
                  (with_db r d, if ok : bool then None else Some ErrCommit)
        end
    end.

Definition UpsertSession (r : SqlRepo) (row : SessionRow) : SqlRepo * option SqlError :=
  Sql_WriteBatch r (mkBatch [] [] [] [] [] [] [mkSessionWrite row false] [] [] []).
Definition EndSession (r : SqlRepo) (row : SessionRow) : SqlRepo * option SqlError :=
  Sql_WriteBatch r (mkBatch [] [] [] [] [] [] [mkSessionWrite row true] [] [] []).

(** [Close] keeps the flag whatever closing the pool returns. *)
Definition Sql_Close (r : SqlRepo) : SqlRepo := mkSqlRepo (sqDB r) true.

(** ** Pruning *)

Record PruneResult := mkPruneResult { prRows : gmap string Z; prTotal : Z; prErrors : list SqlError }.

Definition prune_rules (ret : Retention) : list (string * string * Z) :=
  [("latency_samples", "server_time", rtLatency ret); ("health_reports", "received_at", rtLatency ret);
   ("delivery_windows", "window_start", rtEvents ret); ("protocol_events", "at", rtEvents ret);
   ("book_sync_events", "at", rtEvents ret); ("tier_transitions", "at", rtEvents ret);
   ("engine_events", "at", rtSessions ret); ("fault_injections", "at", rtSessions ret);
   ("sessions", "disconnected_at", rtSessions ret)].

(** Deletes in chunks of [batch] until a pass removes fewer; [done k] is whether
    the context has ended after pass [k].  [None]: out of fuel. *)
Fixpoint pruneTable (fuel : nat) (d : D) (table column : string) (cutoff : text) (batch : Z)
    (ended : nat -> bool) (k : nat) (total : Z) : option (D * Z * option SqlError) :=
  match fuel with
  | O => None
  | S fuel =>
      let '(d, res) := dbDelete d (SDelete table column) cutoff batch in
      match res with
      | None => Some (d, total, Some ErrStatement)
      | Some affected =>
          let total := total + affected in
          if affected <? batch then Some (d, total, None)
          else if ended k then Some (d, total, Some ErrStatement)
          else pruneTable fuel d table column cutoff batch ended (S k) total
      end
  end.

Definition prune_rule (fuel : nat) (now : Time) (batch : Z) (ended : string -> nat -> bool)
    (acc : option (D * PruneResult)) (rule : string * string * Z) : option (D * PruneResult) :=
  let '(table, column, window) := rule in
  '(d, res) ← acc;
  if window <=? 0 then Some (d, res)
  else
    let cutoff := encodeTime (tAdd now (- window)) in
    '(d, deleted, err) ← pruneTable fuel d table column cutoff batch (ended table) 0 0;
    match err with
    | Some e => Some (d, mkPruneResult (prRows res) (prTotal res) (prErrors res ++ [e]))
    | None =>
        if 0 <? deleted then
          Some (d, mkPruneResult (<[table := default 0 (prRows res !! table) + deleted]> (prRows res))
                     (prTotal res + deleted) (prErrors res))
        else Some (d, res)
    end.

(** The error joins those of the tables. *)
Definition Prune (fuel : nat) (r : SqlRepo) (now : Time) (ret : Retention) (batch : Z)
    (ended : string -> nat -> bool) : option (SqlRepo * PruneResult * bool) :=
  let none := mkPruneResult ∅ 0 [] in
  if negb (rtEnabled ret) then Some (r, none, true)
  else if sqClosed r then Some (r, none, false)
  else
    let batch := if batch <=? 0 then 5000 else batch in
    '(d, res) ← fold_left (prune_rule fuel (tUTC now) batch ended) (prune_rules ret) (Some (sqDB r, none));
    Some (with_db r d, res, bool_decide (prErrors res = [])).
End Driver.

(** ** Reading rows *)

(** [rows.Scan] into the field types; NULL in a nullable column is the zero
    value. *)
Definition scan_text (v : SqlValue) : option text := match v with VText s => Some s | _ => None end.
Definition scan_string (v : SqlValue) : option string := String.string_of_list_ascii <$> scan_text v.
Definition scan_int (v : SqlValue) : option Z := match v with VInt z => Some z | _ => None end.
Definition scan_real (v : SqlValue) : option float64 := match v with VReal x => Some x | _ => None end.
Definition nullable {A} (zero : A) (scan : SqlValue -> option A) (v : SqlValue) : option A :=
  match v with VNull => Some zero | _ => scan v end.

(** One row of [LatencySamples]. *)
Definition scan_latency (row : list SqlValue) : option LatencySample :=
  match row with
  | [id; seq; rtt; jitter; samples; clientTime; serverTime; capped; missedPong] =>
      id ← scan_string id; seq ← scan_int seq; rtt ← scan_real rtt; jitter ← scan_real jitter;
      samples ← scan_int samples; clientTime ← nullable [] scan_text clientTime;
      serverTime ← scan_text serverTime; capped ← scan_int capped; missedPong ← scan_int missedPong;
      Some (mkLatency id seq rtt jitter samples
              (match clientTime with [] => 0 | _ => tUnixMilli (decodeTime clientTime) end)
              (decodeTime serverTime) (intToBool capped) (intToBool missedPong))
  | _ => None
  end.

Definition decodeTimePtr (v : SqlValue) : option Time :=
  match v with
  | VText ((_ :: _) as s) => let t := decodeTime s in if tIsZero t then None else Some t
  | _ => None
  end.

(** One row of [Sessions]. *)
Definition scan_session (row : list SqlValue) : option SessionRow :=
  match row with
  | [id; dev; ver; plat; addr; sym; iv; conn; disc; why; tier0; tier1; over; up; sent; recv; bytes; errs] =>
      id ← scan_string id; dev ← nullable "" scan_string dev; ver ← nullable "" scan_string ver;
      plat ← nullable "" scan_string plat; addr ← nullable "" scan_string addr;
      sym ← scan_string sym; iv ← scan_string iv; conn ← scan_text conn;
      why ← nullable "" scan_string why; tier0 ← scan_string tier0; tier1 ← nullable "" scan_string tier1;
      over ← nullable "" scan_string over; up ← nullable 0 scan_int up; sent ← nullable 0 scan_int sent;
      recv ← nullable 0 scan_int recv; bytes ← nullable 0 scan_int bytes; errs ← nullable 0 scan_int errs;
      Some (mkSessionRow id dev ver plat addr sym iv (decodeTime conn) (decodeTimePtr disc) why tier0 tier1 over
              up sent recv bytes errs)
  | _ => None
  end.

(** One row of [TierTransitions]. *)
Definition scan_tier (row : list SqlValue) : option TierTransitionRow :=
  match row with
  | [id; at_; from; to; reason; rtt; jitter; streak; over] =>
      id ← scan_string id; at_ ← scan_text at_; from ← scan_string from; to ← scan_string to;
      reason ← scan_string reason; rtt ← nullable (f64_of_Z 0) scan_real rtt;
      jitter ← nullable (f64_of_Z 0) scan_real jitter; streak ← nullable 0 scan_int streak;
      over ← nullable "" scan_string over;
      Some (mkTierRow id (decodeTime at_) from to reason rtt jitter streak over)
  | _ => None
  end.

(** One row of [DeliveryWindows], whose last column is the effective rate. *)
Definition scan_delivery (row : list SqlValue) : option DeliveryWindowRow :=
  match row with
  | [id; start; ms; tier; target; candles; trades; deltas; healths; coalesced; suppressed; bytes; rate] =>
      id ← scan_string id; start ← scan_text start; ms ← scan_int ms; tier ← scan_string tier;
      target ← scan_real target; candles ← scan_int candles; trades ← scan_int trades; deltas ← scan_int deltas;
      healths ← scan_int healths; coalesced ← scan_int coalesced; suppressed ← scan_int suppressed;
      bytes ← scan_int bytes; rate ← scan_real rate;
      Some (mkWindowRow id (decodeTime start) ms tier target rate candles trades deltas healths coalesced
              suppressed bytes)
  | _ => None
  end.

(** The driver as the store sees it.  [fuel] bounds the passes over a table and
    [ended] is when the context of a pruning run ends. *)
Definition sql_repository {D T} `{Transaction T} `{Database D T} `{Deletion D} (fuel : nat)
    (ended : string -> nat -> bool) : Repository (@SqlRepo D) := {|
  WriteBatch r b :=
    let '(r, e) := Sql_WriteBatch r b in (r, match e with Some _ => Some DriverFailed | None => None end);
  PruneForStore := Some (fun r now ret batch =>
    match Prune fuel r now ret batch ended with
    | Some (r, res, ok) => (r, prTotal res, if ok then None else Some DriverFailed)
    | None => (r, 0, Some DriverFailed)
    end);
  ProvideOptions o := o |}.
