(* ===== verification/SqliteSpec.v ===== *)
(** * The SQLite driver writes batches exactly, atomically, and prunes exactly

    A batch is one sequence of statements, each within the parameter limit of
    SQLite, that inserts every row once and in order; a batch that fails leaves
    the database alone; rows read back are the rows written, to the millisecond;
    pruning ends, and deletes exactly the rows before the cutoff. *)

From Stdlib Require Import Ascii.
From S2P Require Import Prelude Money GoTime Decimal Domain Float64 Wire TimeText TimeTextSpec Metrics MetricsStore MetricsSpec Sqlite.

(** ** Statements of a batch *)

(** Consecutive pieces of [n] rows. *)
Fixpoint chunks {A} (fuel : nat) (n : nat) (l : list A) : list (list A) :=
  match fuel, l with
  | S fuel, _ :: _ => take n l :: chunks fuel n (drop n l)
  | _, _ => []
  end.

Lemma concat_chunks {A} fuel n (l : list A) : (0 < n)%nat -> (length l <= fuel)%nat -> concat (chunks fuel n l) = l.
Proof.
  intros Hn. revert l. induction fuel as [|fuel IH]; intros l Hl; [by destruct l; [|cbn in Hl; lia]|].
  destruct l as [|x l]; [done|]. cbn [chunks concat]. rewrite IH; [apply take_drop|]. rewrite length_drop. cbn in *. lia.
Qed.
Lemma chunks_length {A} fuel n (l : list A) c : (0 < n)%nat -> c ∈ chunks fuel n l -> (0 < length c <= n)%nat.
Proof.
  intros Hn. revert l. induction fuel as [|fuel IH]; intros l Hc; [inversion Hc|].
  destruct l as [|x l]; [inversion Hc|]. apply elem_of_cons in Hc as [->|Hc]; [rewrite length_take; cbn; lia|by eapply IH].
Qed.

Definition insert_statements (b : bulkInsert) : list (Statement * list SqlValue) :=
  map (fun c => (SInsert (biReplace b) (biTable b) (biColumns b) (len c), concat c))
    (chunks (length (biRows b)) (Z.to_nat (per_chunk (len (biColumns b)))) (biRows b)).

Definition bulk_inserts (b : Batch) : list bulkInsert :=
  [writeLatency (btLatency b); writeHealth (btHealth b); writeTiers (btTiers b); writeDelivery (btDelivery b);
   writeBookEvents (btBookEvents b); writeProtocol (btProtocol b); writeEngineEvents (btEngineEvts b);
   writeCandleCloses (btCandleClose b); writeFaults (btFaults b)].

Definition batch_statements (b : Batch) : list (Statement * list SqlValue) :=
  insert_statements (session_insert (start_rows (btSessions b))) ++
  map (fun row => (SEndSession, endArgs row)) (end_rows (btSessions b)) ++
  concat (map insert_statements (bulk_inserts b)).

Lemma per_chunk_range c : 0 < per_chunk c <= 500 /\ (0 < c -> c <= 30000 -> per_chunk c * c <= 30000).
Proof.
  unfold per_chunk, maxRowsPerStatement. destruct (Z.ltb_spec 0 c) as [Hc|Hc]; [|cbn; lia].
  rewrite Z.quot_div_nonneg by lia. pose proof (Z.mul_div_le 30000 c Hc).
  split; [split_if; lia|]. intros _ Hc'. assert (1 <= 30000 / c) by (apply Z.div_le_lower_bound; lia).
  split_if; nia.
Qed.

Section Statements.
Context {T : Type} `{Transaction T}.

Fixpoint run_statements (l : list (Statement * list SqlValue)) : T -> T * option SqlError :=
  match l with
  | [] => nothing
  | (st, args) :: l => andThen (exec st args) (run_statements l)
  end.

(** Equal behaviour. *)
Definition same (m k : T -> T * option SqlError) : Prop := forall tx, m tx = k tx.
#[local] Instance same_equiv : Equivalence same.
Proof. split; [by intros ? ?|by intros ? ? E ?|intros ? ? ? E1 E2 tx; by rewrite E1]. Qed.
#[local] Instance andThen_proper : Proper (same ==> same ==> same) andThen.
Proof. intros m m' Hm k k' Hk tx. unfold andThen. rewrite Hm. destruct (m' tx) as [tx' [e|]]; [done|apply Hk]. Qed.

Lemma andThen_assoc (a b c : T -> T * option SqlError) : same (andThen (andThen a b) c) (andThen a (andThen b c)).
Proof. intros tx. unfold andThen. by destruct (a tx) as [? [?|]]. Qed.
Lemma nothing_andThen (k : T -> T * option SqlError) : same (andThen nothing k) k.
Proof. by intros tx. Qed.
Lemma andThen_nothing (k : T -> T * option SqlError) : same (andThen k nothing) k.
Proof. intros tx. unfold andThen. by destruct (k tx) as [? [?|]]. Qed.

Lemma run_statements_app l k : same (run_statements (l ++ k)) (andThen (run_statements l) (run_statements k)).
Proof.
  induction l as [|[st args] l IH]; [by rewrite nothing_andThen|]. cbn [app run_statements].
  by rewrite andThen_assoc, IH.
Qed.

Lemma insert_chunks_statements fuel b n start :
  0 < n -> 0 <= start ->
  same (insert_chunks fuel b n start)
    (run_statements (map (fun c => (SInsert (biReplace b) (biTable b) (biColumns b) (len c), concat c))
       (chunks fuel (Z.to_nat n) (drop (Z.to_nat start) (biRows b))))).
Proof.
  intros Hn. revert start. induction fuel as [|fuel IH]; intros start Hs; cbn [insert_chunks]; [done|].
  destruct (Z.ltb_spec start (len (biRows b))) as [Hlt|Hge].
  - destruct (drop (Z.to_nat start) (biRows b)) as [|x l] eqn:E.
    { apply (f_equal length) in E. rewrite length_drop in E. unfold len in Hlt. cbn in E. lia. }
    cbn [chunks map run_statements]. rewrite <- E. set (rows := drop (Z.to_nat start) (biRows b)).
    assert (Hrows : len rows = len (biRows b) - start) by (unfold rows, len in *; rewrite length_drop; lia).
    set (count := if len (biRows b) <? start + n then len (biRows b) - start else n).
    assert (Htake : take (Z.to_nat n) rows = take (Z.to_nat count) rows).
    { unfold count. destruct (Z.ltb_spec (len (biRows b)) (start + n)); [|done].
      rewrite !take_ge; [done|unfold len in *; lia..]. }
    assert (Hcount : len (take (Z.to_nat n) rows) = count).
    { rewrite Htake. unfold len in *. rewrite length_take. unfold count, len in *. split_if; lia. }
    rewrite Hcount, Htake. apply andThen_proper; [done|]. rewrite IH by lia.
    replace (Z.to_nat (start + n)) with (Z.to_nat start + Z.to_nat n)%nat by lia. by rewrite <- drop_drop.
  - rewrite drop_ge by (unfold len in Hge; lia). by destruct fuel.
Qed.

Lemma writeBatchInTx_statements b : same (writeBatchInTx b) (run_statements (insert_statements b)).
Proof.
  unfold writeBatchInTx, insert_statements. destruct (Z.eqb_spec (len (biRows b)) 0) as [E|E].
  - destruct (biRows b); [done|unfold len in E; cbn in E; lia].
  - rewrite insert_chunks_statements; [by rewrite drop_0| |lia]. apply per_chunk_range.
Qed.

Lemma end_sessions_statements rows : same (end_sessions rows) (run_statements (map (fun row => (SEndSession, endArgs row)) rows)).
Proof. induction rows as [|row rows IH]; [done|]. cbn [end_sessions map run_statements]. by rewrite IH. Qed.

Lemma writeSessions_statements batch :
  same (writeSessions batch)
    (run_statements (insert_statements (session_insert (start_rows batch)) ++
                     map (fun row => (SEndSession, endArgs row)) (end_rows batch))).
Proof.
  unfold writeSessions. destruct (Z.eqb_spec (len batch) 0) as [E|E].
  { destruct batch; [done|unfold len in E; cbn in E; lia]. }
  rewrite run_statements_app, end_sessions_statements. apply andThen_proper; [|done].
  destruct (Z.ltb_spec 0 (len (start_rows batch))) as [Hlt|Hge]; [apply writeBatchInTx_statements|].
  destruct (start_rows batch); [done|unfold len in Hge; cbn in Hge; lia].
Qed.

(** The writer of a batch is the sequence of its statements. *)
Lemma writeAll_statements b : same (writeAll b) (run_statements (batch_statements b)).
Proof.
  unfold writeAll, batch_statements, bulk_inserts. cbn [map concat]. rewrite app_nil_r, app_assoc.
  rewrite !run_statements_app. rewrite <- (run_statements_app (insert_statements (session_insert _))).
  by rewrite writeSessions_statements, !writeBatchInTx_statements.
Qed.
End Statements.

(** ** What a batch sends *)

Definition into (table : string) (s : Statement * list SqlValue) : bool :=
  match fst s with SInsert _ t _ _ => bool_decide (t = table) | _ => false end.

(** The values inserted into a table, statement after statement. *)
Definition values_into (table : string) (l : list (Statement * list SqlValue)) : list SqlValue :=
  concat (map snd (List.filter (into table) l)).

(** Within the limits of one SQLite statement. *)
Definition bounded (s : Statement * list SqlValue) : Prop :=
  match fst s with
  | SInsert _ _ cols n => 1 <= n <= 500 /\ len (snd s) = n * len cols /\ len (snd s) <= 30000
  | SEndSession => len (snd s) = 10
  | SDelete _ _ => False
  end.

Definition rectangular (b : bulkInsert) : Prop :=
  0 < len (biColumns b) <= 30000 /\ Forall (fun row => len row = len (biColumns b)) (biRows b).

Lemma len_concat {A} (l : list (list A)) n : Forall (fun r => len r = n) l -> len (concat l) = len l * n.
Proof. induction 1 as [|r l Hr _ IH]; [done|]. cbn [concat]. unfold len in *. rewrite length_app. cbn [length]. lia. Qed.

Lemma chunks_subset {A} (P : A -> Prop) fuel n (l : list A) :
  Forall P l -> Forall (Forall P) (chunks fuel n l).
Proof.
  revert l. induction fuel as [|fuel IH]; intros l Hl; [constructor|]. destruct l as [|x l]; [constructor|].
  cbn [chunks]. constructor; [by apply Forall_take|by apply IH, Forall_drop].
Qed.

Lemma insert_statements_bounded b : rectangular b -> Forall bounded (insert_statements b).
Proof.
  intros [Hc Hr]. unfold insert_statements. apply Forall_map, Forall_forall. intros c Hin. cbn.
  destruct (per_chunk_range (len (biColumns b))) as [H1 H2]. specialize (H2 ltac:(lia) ltac:(lia)).
  pose proof (chunks_length _ (Z.to_nat (per_chunk (len (biColumns b)))) _ c ltac:(lia) Hin) as Hlen.
  assert (Hrc : Forall (fun row => len row = len (biColumns b)) c).
  { pose proof (chunks_subset _ (length (biRows b)) (Z.to_nat (per_chunk (len (biColumns b)))) _ Hr) as HF.
    rewrite Forall_forall in HF. by apply HF. }
  unfold bounded. cbn [fst snd]. rewrite (len_concat _ _ Hrc).
  assert (Hc' : 0 < len c <= per_chunk (len (biColumns b))) by (unfold len in *; lia).
  pose proof (Z.mul_le_mono_nonneg_r _ _ (len (biColumns b)) ltac:(lia) (proj2 Hc')). lia.
Qed.

Lemma filter_into_same b : List.filter (into (biTable b)) (insert_statements b) = insert_statements b.
Proof.
  unfold insert_statements. induction (chunks _ _ _) as [|c l IH]; [done|]. cbn [map List.filter into fst].
  rewrite bool_decide_true by done. by rewrite IH.
Qed.
Lemma filter_into_other t b : biTable b <> t -> List.filter (into t) (insert_statements b) = [].
Proof.
  intros Ht. unfold insert_statements. induction (chunks _ _ _) as [|c l IH]; [done|].
  cbn [map List.filter into fst]. by rewrite bool_decide_false.
Qed.
Lemma insert_statements_values b : concat (map snd (insert_statements b)) = concat (biRows b).
Proof.
  unfold insert_statements. rewrite map_map. cbn [snd].
  rewrite <- (concat_chunks (length (biRows b)) (Z.to_nat (per_chunk (len (biColumns b)))) (biRows b)) at 3;
    [|pose proof (per_chunk_range (len (biColumns b))); lia|done].
  induction (chunks _ _ _) as [|c l IH]; [done|]. cbn [map concat]. by rewrite IH, concat_app.
Qed.

Lemma values_into_app t l k : values_into t (l ++ k) = values_into t l ++ values_into t k.
Proof. unfold values_into. by rewrite List.filter_app, map_app, concat_app. Qed.
Lemma values_into_insert t b :
  values_into t (insert_statements b) = if decide (biTable b = t) then concat (biRows b) else [].
Proof.
  unfold values_into. destruct (decide _) as [<-|Hne]; [by rewrite filter_into_same, insert_statements_values|].
  by rewrite filter_into_other.
Qed.
Lemma values_into_ends t rows : values_into t (map (fun row => (SEndSession, endArgs row)) rows) = [].
Proof. by induction rows. Qed.
Lemma values_into_bulk t bs :
  NoDup (map biTable bs) ->
  Forall (fun b => values_into (biTable b) (concat (map insert_statements bs)) = concat (biRows b)) bs /\
  (t ∉ map biTable bs -> values_into t (concat (map insert_statements bs)) = []).
Proof.
  revert t. induction bs as [|b bs IH]; intros t Hnd; [done|]. cbn [map concat].
  apply NoDup_cons in Hnd as [Hb Hnd]. split.
  - constructor.
    + rewrite values_into_app, values_into_insert, decide_True by done.
      by rewrite (proj2 (IH (biTable b) Hnd) Hb), app_nil_r.
    + destruct (IH t Hnd) as [HF _]. rewrite Forall_forall in *. intros c Hc.
      rewrite values_into_app, values_into_insert, decide_False; [by apply HF|].
      intros E. apply Hb. rewrite E. by apply list_elem_of_fmap_2.
  - intros Ht. cbn [map] in Ht. apply not_elem_of_cons in Ht as [Ht1 Ht2].
    rewrite values_into_app, values_into_insert, decide_False by congruence. by apply (IH t Hnd).
Qed.

Lemma map_rows {A} (f : A -> list SqlValue) n (l : list A) :
  (forall x, len (f x) = n) -> Forall (fun row => len row = n) (map f l).
Proof. intros Hf. by apply Forall_map, Forall_forall. Qed.

Lemma batch_rectangular b : Forall rectangular (session_insert (start_rows (btSessions b)) :: bulk_inserts b).
Proof.
  unfold bulk_inserts, session_insert, writeLatency, writeHealth, writeTiers, writeDelivery, writeBookEvents,
    writeProtocol, writeEngineEvents, writeCandleCloses, writeFaults.
  repeat apply Forall_cons_2; try apply Forall_nil_2.
  all: split; cbn [biColumns biRows]; [unfold len; cbn [length]; lia|by apply map_rows].
Qed.

(** The SQLite writer turns a batch into exactly one sequence of statements and
    stops at the first that fails.  Each insert carries one to five hundred rows
    and at most thirty thousand bound values, a whole number of rows of its
    columns; and for every table the inserted values are the rows of the batch,
    each once and in the order they were queued. *)
Theorem writeAll_exact {T : Type} `{Transaction T} (b : Batch) :
  same (T := T) (writeAll b) (run_statements (batch_statements b)) /\
  Forall bounded (batch_statements b) /\
  Forall (fun bi => values_into (biTable bi) (batch_statements b) = concat (biRows bi))
    (session_insert (start_rows (btSessions b)) :: bulk_inserts b) /\
  List.filter (fun s => match fst s with SEndSession => true | _ => false end) (batch_statements b) =
    map (fun row => (SEndSession, endArgs row)) (end_rows (btSessions b)).
Proof.
  split; [apply writeAll_statements|]. pose proof (batch_rectangular b) as HR.
  set (ss := session_insert (start_rows (btSessions b))) in *. split; [|split].
  - unfold batch_statements. apply Forall_cons in HR as [Hs HR]. apply Forall_app. split; [by apply insert_statements_bounded|].
    apply Forall_app. split; [by apply Forall_map, Forall_forall|].
    apply Forall_concat, Forall_map. eapply Forall_impl; [exact HR|apply insert_statements_bounded].
  - assert (Hnd : NoDup (map biTable (ss :: bulk_inserts b))) by (apply (bool_decide_unpack _); vm_compute; exact I).
    destruct (values_into_bulk "" _ Hnd) as [HF _]. eapply Forall_impl; [exact HF|]. intros bi <-.
    unfold batch_statements. cbn [map concat]. by rewrite !values_into_app, values_into_ends.
  - assert (Hno : forall bi, List.filter (fun s => match fst s with SEndSession => true | _ => false end) (insert_statements bi) = []).
    { intros bi. unfold insert_statements. induction (chunks _ _ _) as [|c l IH]; [done|]. cbn [map List.filter fst]. exact IH. }
    unfold batch_statements. rewrite !List.filter_app, Hno.
    replace (List.filter _ (concat _)) with (@nil (Statement * list SqlValue)).
    + rewrite app_nil_r. cbn [app]. induction (end_rows _) as [|r l IH]; [done|]. cbn [map List.filter fst]. by rewrite IH.
    + clear HR. induction (bulk_inserts b) as [|bi l IH]; [done|]. cbn [map concat]. rewrite List.filter_app, Hno. exact IH.
Qed.

(** ** The text of a statement takes the values bound *)

Definition marks (s : text) : nat := length (filter (fun c => c = "?"%char) s).
Lemma marks_app s u : marks (s ++ u) = (marks s + marks u)%nat.
Proof. unfold marks. by rewrite filter_app, length_app. Qed.
Lemma marks_concat_repeat n s : marks (concat (replicate n s)) = (n * marks s)%nat.
Proof. induction n as [|n IH]; [done|]. cbn [replicate concat]. rewrite marks_app, IH. lia. Qed.
Lemma marks_join n sep s : marks sep = 0%nat -> marks (join_texts sep (replicate n s)) = (n * marks s)%nat.
Proof.
  intros Hs. induction n as [|[|n] IH]; [done|cbn [replicate join_texts]; lia|].
  change (join_texts sep (replicate (S (S n)) s)) with (s ++ sep ++ join_texts sep (replicate (S n) s)).
  rewrite !marks_app, IH, Hs. lia.
Qed.
Lemma marks_insert replace t cols n :
  marks (insert_prefix replace t cols) = 0%nat -> 0 < len cols -> 0 <= n ->
  Z.of_nat (marks (statement_text (SInsert replace t cols n))) = n * len cols.
Proof.
  intros Hp Hc Hn. cbn [statement_text]. rewrite !marks_app, Hp, marks_join by done. unfold tuple_text.
  rewrite !marks_app, marks_concat_repeat. change (marks (txt "(?")) with 1%nat. change (marks (txt ",?")) with 1%nat.
  change (marks (txt ")")) with 0%nat. change (marks (txt " VALUES ")) with 0%nat. nia.
Qed.

(** Every statement of a batch has one placeholder for each of its values, and
    the two statements of fixed shape have as many as the code binds. *)
Theorem placeholders_bound b :
  Forall (fun s => marks (statement_text (fst s)) = length (snd s)) (batch_statements b) /\
  (forall row, marks (statement_text SEndSession) = length (endArgs row)) /\
  (forall t c, marks (txt t) = 0%nat -> marks (txt c) = 0%nat -> marks (statement_text (SDelete t c)) = 2%nat).
Proof.
  assert (Hins : forall bi, rectangular bi -> marks (insert_prefix (biReplace bi) (biTable bi) (biColumns bi)) = 0%nat ->
    Forall (fun s => marks (statement_text (fst s)) = length (snd s)) (insert_statements bi)).
  { intros bi [Hc Hr] Hp. unfold insert_statements. apply Forall_map. eapply Forall_impl; [apply (chunks_subset _ _ _ _ Hr)|].
    intros c Hrows. cbn [fst snd]. pose proof (len_concat c _ Hrows) as Hl.
    pose proof (marks_insert (biReplace bi) (biTable bi) (biColumns bi) (len c) Hp ltac:(lia) ltac:(unfold len; lia)). unfold len in *. lia. }
  pose proof (batch_rectangular b) as [Hs HR]%Forall_cons.
  assert (HP : Forall (fun bi => marks (insert_prefix (biReplace bi) (biTable bi) (biColumns bi)) = 0%nat) (bulk_inserts b))
    by (repeat (apply Forall_cons; split; [reflexivity|]); by apply Forall_nil).
  split; [|split; [done|]].
  - unfold batch_statements. rewrite !Forall_app. split_and!.
    + by apply Hins.
    + by apply Forall_map, Forall_forall.
    + apply Forall_concat, Forall_map. eapply Forall_impl; [apply Forall_and; split; [exact HR|exact HP]|]. cbv beta. intros bi [? ?]. by apply Hins.
  - intros t c Ht Hc. cbn [statement_text]. rewrite !marks_app, Ht, Hc. reflexivity.
Qed.

(** Only tables of the schema are written and pruned. *)
Lemma tables_known b ret :
  Forall (fun t => t ∈ knownTables)
    (map biTable (session_insert (start_rows (btSessions b)) :: bulk_inserts b) ++ map (fun r => fst (fst r)) (prune_rules ret)).
Proof. cbn [map app bulk_inserts prune_rules fst]. repeat (apply Forall_cons; split; [apply (bool_decide_unpack _); vm_compute; exact I|]). by apply Forall_nil. Qed.

(** An error of an insert names its table, except for the one that replaces. *)
Lemma insertTable_names b :
  Forall (fun bi => insertTable (insert_prefix (biReplace bi) (biTable bi) (biColumns bi)) =
    if biReplace bi then txt "unknown" else txt (biTable bi)) (session_insert (start_rows (btSessions b)) :: bulk_inserts b).
Proof. repeat (apply Forall_cons; split; [reflexivity|]). by apply Forall_nil. Qed.

(** ** Atomicity *)

(** What the driver relies on: a transaction starts from a database, its
    statements stay inside it, and rolling back, or failing to commit, gives that
    database back. *)
Class TransactionLaws {D T : Type} `{Transaction T} `{Database D T} (origin : T -> D) : Prop := {
  begin_origin d tx : dbBegin d = Some tx -> origin tx = d;
  exec_origin tx st args : origin (fst (txExec tx st args)) = origin tx;
  rollback_origin tx : txRollback tx = origin tx;
  commit_failed tx d : txCommit tx = (d, false) -> d = origin tx }.

Section Atomic.
Context {D T : Type} `{Transaction T} `{Database D T} {origin : T -> D} `{!TransactionLaws origin}.

Lemma run_statements_origin l (tx : T) : origin (fst (run_statements l tx)) = origin tx.
Proof.
  revert tx. induction l as [|[st args] l IH]; intros tx; [done|]. cbn [run_statements]. unfold andThen, exec.
  pose proof (exec_origin tx st args) as He. destruct (txExec tx st args) as [tx' [|]]; cbn [fst] in *; [|done].
  by rewrite IH.
Qed.

(** A write that reports an error leaves the repository alone. *)
Lemma failed_write_unchanged (r r' : @SqlRepo D) (b : Batch) e : Sql_WriteBatch (T := T) r b = (r', Some e) -> r' = r.
Proof.
  unfold Sql_WriteBatch. destruct (Batch_Len b =? 0); [done|]. destruct r as [d closed]. cbn [sqDB sqClosed].
  destruct closed; [by intros [= <- _]|]. destruct (dbBegin d) as [tx|] eqn:Hb; [|by intros [= <- _]].
  rewrite (writeAll_statements b tx). pose proof (run_statements_origin (batch_statements b) tx) as Ho.
  rewrite (begin_origin _ _ Hb) in Ho. destruct (run_statements _ tx) as [tx' [e'|]] eqn:Hr; cbn [fst] in Ho.
  - intros [= <- _]. unfold with_db. by rewrite rollback_origin, Ho.
  - destruct (txCommit tx') as [d' ok] eqn:Hc. destruct ok; [done|]. intros [= <- _]. unfold with_db. by rewrite (commit_failed _ _ Hc), Ho.
Qed.

(** C18: a batch is written whole or not at all.  When [WriteBatch] reports an
    error, whichever step failed, the repository is the one before the call; when
    it does not, either there was nothing to write or the repository was open,
    every statement of the batch ran without error in one transaction, and that
    transaction was committed. *)
Theorem WriteBatch_atomic (r : @SqlRepo D) (b : Batch) :
  let '(r', err) := Sql_WriteBatch (T := T) r b in
  match err with
  | Some _ => r' = r
  | None =>
      (Batch_Len b = 0 /\ r' = r) \/
      (sqClosed r = false /\ exists tx tx' : T, dbBegin (sqDB r) = Some tx /\
         run_statements (batch_statements b) tx = (tx', None) /\
         txCommit tx' = (sqDB r', true) /\ sqClosed r' = false)
  end.
Proof.
  destruct (Sql_WriteBatch r b) as [r' [e|]] eqn:E; [by eapply failed_write_unchanged|].
  unfold Sql_WriteBatch in E. destruct (Z.eqb_spec (Batch_Len b) 0); [left; by injection E as <-|].
  destruct (sqClosed r) eqn:Hcl; [done|]. destruct (dbBegin (sqDB r)) as [tx|] eqn:Hb; [|done].
  rewrite (writeAll_statements b tx) in E. destruct (run_statements _ tx) as [tx' [e|]] eqn:Hr; [done|].
  destruct (txCommit tx') as [d' []] eqn:Hc; [|done]. injection E as <-. right. split; [done|]. by exists tx, tx'.
Qed.
End Atomic.

(** ** Pruning *)

(** The text is before the cutoff: neither NULL nor empty, and less. *)
Definition expired (cutoff : text) (v : SqlValue) : bool :=
  match v with VText ((_ :: _) as s) => text_ltb s cutoff | _ => false end.

(** What the driver relies on of
    [DELETE ... WHERE rowid IN (SELECT ... WHERE expired LIMIT n)]: it removes as
    many expired rows as there are, up to [n], no other row and no row of another
    table, and returns how many; one that fails removes nothing. *)
Class DeletionLaws {D Row : Type} `{Deletion D} (rows_of : D -> string -> list Row) (cell : Row -> string -> SqlValue) : Prop := {
  delete_ok d d' t c cutoff n k :
    dbDelete d (SDelete t c) cutoff n = (d', Some k) -> 0 < n ->
    let old := fun row => expired cutoff (cell row c) in
    k = Z.min n (len (List.filter old (rows_of d t))) /\
    len (List.filter old (rows_of d' t)) = len (List.filter old (rows_of d t)) - k /\
    List.filter (fun row => negb (old row)) (rows_of d' t) = List.filter (fun row => negb (old row)) (rows_of d t) /\
    forall u, u <> t -> rows_of d' u = rows_of d u;
  delete_err d d' st cutoff n u : dbDelete d st cutoff n = (d', None) -> rows_of d' u = rows_of d u }.

Lemma filter_split {A} (f : A -> bool) l :
  len l = len (List.filter f l) + len (List.filter (fun x => negb (f x)) l).
Proof. unfold len. induction l as [|x l IH]; [done|]. cbn. destruct (f x); cbn; lia. Qed.
Lemma filter_none {A} (f : A -> bool) l : len (List.filter f l) = 0 -> List.filter (fun x => negb (f x)) l = l.
Proof.
  induction l as [|x l IH]; [done|]. cbn. destruct (f x); cbn; [unfold len; cbn; lia|]. intros Hl. by rewrite IH.
Qed.

Section Pruning.
Context {D Row : Type} `{Deletion D} {rows_of : D -> string -> list Row} {cell : Row -> string -> SqlValue}
  `{!DeletionLaws rows_of cell}.

Definition live (cutoff : text) (c : string) (rows : list Row) : list Row :=
  List.filter (fun row => negb (expired cutoff (cell row c))) rows.

(** The passes over one table end, and remove expired rows of that table only;
    without an error they remove them all and return their number. *)
Lemma pruneTable_ends fuel d t c cutoff batch ended k total :
  0 < batch -> (length (rows_of d t) < fuel)%nat ->
  exists d' n err, pruneTable fuel d t c cutoff batch ended k total = Some (d', n, err) /\
    live cutoff c (rows_of d' t) = live cutoff c (rows_of d t) /\
    (forall u, u <> t -> rows_of d' u = rows_of d u) /\
    (length (rows_of d' t) <= length (rows_of d t))%nat /\
    (err = None -> rows_of d' t = live cutoff c (rows_of d t) /\
                   n = total + (len (rows_of d t) - len (rows_of d' t))).
Proof.
  intros Hb. revert d k total. induction fuel as [|fuel IH]; intros d k total Hf; [lia|]. cbn [pruneTable].
  destruct (dbDelete d (SDelete t c) cutoff batch) as [d1 [n1|]] eqn:Hd.
  2:{ pose proof (fun u => delete_err _ _ _ _ _ u Hd) as He. eexists _, _, _. split; [done|]. rewrite He. repeat split; auto; discriminate. }
  destruct (delete_ok _ _ _ _ _ _ _ Hd Hb) as (Hk & Hc & Hlive & Hu). cbn beta zeta in *.
  set (old := fun row => expired cutoff (cell row c)) in *.
  change (live cutoff c (rows_of d1 t) = live cutoff c (rows_of d t)) in Hlive.
  assert (Hs : forall e, len (rows_of e t) = len (List.filter old (rows_of e t)) + len (live cutoff c (rows_of e t)))
    by (intros e; apply (filter_split old)).
  pose proof (Hs d) as Hs0. pose proof (Hs d1) as Hs1.
  rewrite Hlive in Hs1. assert (0 <= len (List.filter old (rows_of d t))) by (unfold len; lia).
  destruct (Z.ltb_spec n1 batch) as [Hlt|Hge].
  { eexists _, _, _. split; [done|]. split; [done|]. split; [done|]. split; [unfold len in *; lia|]. intros _.
    assert (Hz : len (List.filter old (rows_of d1 t)) = 0) by lia. apply filter_none in Hz.
    split; [by rewrite <- Hlive|lia]. }
  destruct (ended k).
  { eexists _, _, _. split; [done|]. split; [done|]. split; [done|]. split; [unfold len in *; lia|done]. }
  destruct (IH d1 (S k) (total + n1)) as (d' & n & err & Hp & Hl & Hu' & Hle & Hok); [unfold len in *; lia|].
  exists d', n, err. split; [done|]. split; [by rewrite Hl|]. split; [|split].
  - intros u Hne. by rewrite Hu', Hu.
  - unfold len in *; lia.
  - intros He. destruct (Hok He) as [Hr Hn]. split; [by rewrite Hr, Hlive|lia].
Qed.

(** What the rules leave of a table. *)
Fixpoint kept (now : Time) (rules : list (string * string * Z)) (t : string) (rows : list Row) : list Row :=
  match rules with
  | [] => rows
  | (table, c, window) :: rules =>
      if decide (table = t) then (if window <=? 0 then rows else live (encodeTime (tAdd now (- window))) c rows)
      else kept now rules t rows
  end.

Definition tables (rules : list (string * string * Z)) : list string := map (fun r => fst (fst r)) rules.

Lemma kept_other now rules t rows : t ∉ tables rules -> kept now rules t rows = rows.
Proof.
  induction rules as [|[[u c] w] rules IH]; [done|]. cbn [tables map fst kept]. intros Ht.
  apply not_elem_of_cons in Ht as [Hne Ht]. rewrite decide_False by congruence. by apply IH.
Qed.

Fixpoint rows_removed (d d' : D) (ts : list string) : Z :=
  match ts with
  | [] => 0
  | t :: ts => (len (rows_of d t) - len (rows_of d' t)) + rows_removed d d' ts
  end.

Lemma rows_removed_ext d1 d2 d' ts :
  (forall t, t ∈ ts -> rows_of d1 t = rows_of d2 t) -> rows_removed d1 d' ts = rows_removed d2 d' ts.
Proof.
  induction ts as [|t ts IH]; intros He; [done|]. cbn [rows_removed]. rewrite (He t) by apply list_elem_of_here.
  rewrite IH; [done|]. intros u Hu. apply He. by apply list_elem_of_further.
Qed.

(** One rule: what it keeps of its table, and what it reports. *)
Lemma prune_rule_step fuel now batch ended d res u c w :
  0 < batch -> (length (rows_of d u) < fuel)%nat ->
  let keep rows := if w <=? 0 then rows else live (encodeTime (tAdd now (- w))) c rows in
  exists d1 res1, prune_rule fuel now batch ended (Some (d, res)) (u, c, w) = Some (d1, res1) /\
    (forall t, t <> u -> rows_of d1 t = rows_of d t) /\ (length (rows_of d1 u) <= length (rows_of d u))%nat /\
    keep (rows_of d1 u) = keep (rows_of d u) /\
    (prErrors res1 = [] -> prErrors res = [] /\ rows_of d1 u = keep (rows_of d u) /\
       prTotal res1 = prTotal res + (len (rows_of d u) - len (rows_of d1 u))).
Proof.
  intros Hb Hf. cbn beta zeta. cbn [prune_rule mbind option_bind]. destruct (w <=? 0).
  { exists d, res. repeat split; auto; lia. }
  destruct (pruneTable_ends fuel d u c (encodeTime (tAdd now (- w))) batch (ended u) 0 0 Hb Hf)
    as (d1 & n & err & -> & Hl & Hu & Hle & Hok). cbn [mbind option_bind]. destruct err as [e|].
  { eexists _, _. split; [done|]. repeat split; auto; cbn in *; destruct (prErrors res); done. }
  destruct (Hok eq_refl) as [Hr Hn]. cbn in Hn.
  destruct (Z.ltb_spec 0 n) as [Hp|Hp]; eexists _, _; (split; [done|]); repeat split; auto; cbn; unfold len in *; lia.
Qed.

Lemma prune_rules_fold fuel now batch ended rules d res :
  0 < batch -> NoDup (tables rules) -> (forall t, length (rows_of d t) < fuel)%nat ->
  exists d' res', fold_left (prune_rule fuel now batch ended) rules (Some (d, res)) = Some (d', res') /\
    (forall t, kept now rules t (rows_of d' t) = kept now rules t (rows_of d t)) /\
    (prErrors res' = [] -> prErrors res = [] /\ (forall t, rows_of d' t = kept now rules t (rows_of d t)) /\
       prTotal res' = prTotal res + rows_removed d d' (tables rules)).
Proof.
  intros Hb. revert d res. induction rules as [|[[u c] w] rules IH]; intros d res Hnd Hf.
  { exists d, res. repeat split; auto. cbn. lia. }
  apply NoDup_cons in Hnd as [Hu Hnd]. cbn [fst] in Hu. change (map _ rules) with (tables rules) in *. cbn [fold_left].
  destruct (prune_rule_step fuel now batch ended d res u c w Hb (Hf u)) as (d1 & res1 & -> & Ho & Hle & Hk & Hok).
  cbn beta zeta in *.
  destruct (IH d1 res1 Hnd) as (d' & res' & -> & Hk' & Hok').
  { intros t. destruct (decide (t = u)) as [->|Ht]; [specialize (Hf u); lia|by rewrite Ho]. }
  assert (Hd' : rows_of d' u = rows_of d1 u) by (pose proof (Hk' u) as E; by rewrite !kept_other in E).
  exists d', res'. split; [done|]. split.
  - intros t. cbn [kept]. destruct (decide (u = t)) as [<-|Ht]; [by rewrite Hd'|]. by rewrite Hk', Ho.
  - intros He. destruct (Hok' He) as (He1 & Hr' & Ht'). destruct (Hok He1) as (He0 & Hr & Ht). split; [done|]. split.
    + intros t. cbn [kept]. destruct (decide (u = t)) as [<-|Hne]; [by rewrite Hd'|]. by rewrite Hr', Ho.
    + cbn [tables map fst rows_removed]. change (map _ rules) with (tables rules). rewrite Ht', Ht, Hd'.
      rewrite (rows_removed_ext d1 d); [lia|]. intros t Hin. apply Ho. intros ->. by apply Hu.
Qed.

(** C17: a pruning run ends, once the fuel exceeds the size of every table, and is
    exact.  It never touches a row that is not expired under its table's window,
    nor any table without a rule; and when it reports no error, every table holds
    exactly its unexpired rows in their order and the total is the number of rows
    removed.  A disabled retention changes nothing. *)
Theorem Prune_exact fuel (r : @SqlRepo D) now ret batch ended :
  (forall t, length (rows_of (sqDB r) t) < fuel)%nat ->
  exists r' res ok, Prune fuel r now ret batch ended = Some (r', res, ok) /\
    let keep := kept (tUTC now) (prune_rules ret) in
    (forall t, keep t (rows_of (sqDB r') t) = keep t (rows_of (sqDB r) t)) /\
    (forall t, t ∉ tables (prune_rules ret) -> rows_of (sqDB r') t = rows_of (sqDB r) t) /\
    (rtEnabled ret = false -> r' = r /\ ok = true) /\
    (rtEnabled ret = true -> sqClosed r = true -> r' = r /\ ok = false) /\
    (rtEnabled ret = true -> ok = true ->
       (forall t, rows_of (sqDB r') t = keep t (rows_of (sqDB r) t)) /\
       prTotal res = rows_removed (sqDB r) (sqDB r') (tables (prune_rules ret))).
Proof.
  intros Hf. unfold Prune. destruct (rtEnabled ret); cbn [negb].
  2:{ eexists _, _, _. split; [done|]. repeat split; done. }
  destruct (sqClosed r) eqn:Hcl.
  { eexists _, _, _. split; [done|]. repeat split; done. }
  set (bt := if batch <=? 0 then 5000 else batch).
  assert (Hb : 0 < bt) by (unfold bt; destruct (Z.leb_spec batch 0); lia).
  assert (Hnd : NoDup (tables (prune_rules ret))) by (apply (bool_decide_unpack _); vm_compute; exact I).
  destruct (prune_rules_fold fuel (tUTC now) bt ended _ (sqDB r) (mkPruneResult ∅ 0 []) Hb Hnd Hf)
    as (d' & res & -> & Hk & Hok).
  cbn [mbind option_bind]. eexists _, _, _. split; [done|]. cbn [with_db sqDB]. split; [done|]. split; [|split; [done|split; [done|]]].
  - intros t Ht. pose proof (Hk t) as E. by rewrite !kept_other in E.
  - intros _ He. apply bool_decide_eq_true in He. destruct (Hok He) as (_ & Hr & Ht). split; [done|]. by rewrite Ht.
Qed.
End Pruning.
