(* ===== verification/SqliteRef.v ===== *)
(** * Rows read back from SQLite, and a small database to run the driver on

    Rows come back as they were written, with every time cut to the millisecond.
    [RefDB] is a list of rows per table with the primary key of [sessions]
    (migrations/0001_init.sql); it stands for no code of the repository: it shows
    that the laws [SqliteSpec] asks of a database can hold, and runs the witnesses
    and examples.  No property of the driver is stated over it. *)

From Stdlib Require Import Ascii.
From S2P Require Import Prelude Money GoTime Decimal Domain Float64 Wire TimeText TimeTextSpec Metrics MetricsStore Sqlite SqliteSpec.

(** ** Round trips *)

Definition to_millis (t : Time) : Time := mkTime (millis t * Millisecond) UTC.
Definition ptr_millis (t : option Time) : option Time :=
  t ← t; if tIsZero (to_millis t) then None else Some (to_millis t).

Lemma encodeTime_some t : representable t -> tIsZero t = false -> encodeTime t <> [].
Proof.
  intros Ht Hz. unfold encodeTime. rewrite Hz. destruct (FormatTime_millis t Ht) as [_ Hw]. intros He. by rewrite He in Hw.
Qed.

Lemma decode_encode t : representable t -> decodeTime (encodeTime t) = to_millis t.
Proof.
  intros Ht. unfold encodeTime. destruct (tIsZero t) eqn:Hz.
  - unfold tIsZero in Hz. apply Z.eqb_eq in Hz. unfold to_millis, millis. by rewrite Hz.
  - destruct (FormatTime_millis t Ht) as [Hp Hw]. unfold decodeTime. rewrite Hw.
    destruct (FormatTime t) eqn:Hf; [|done]. discriminate.
Qed.

Lemma decode_encode_ptr t : (forall u, t = Some u -> representable u) -> decodeTimePtr (encodeTimePtr t) = ptr_millis t.
Proof.
  intros Ht. destruct t as [t|]; [|done]. specialize (Ht t eq_refl). cbn [encodeTimePtr ptr_millis mbind option_bind].
  pose proof (decode_encode t Ht) as Hd. unfold encodeTime in Hd. destruct (tIsZero t) eqn:Hz.
  - rewrite <- Hd. done.
  - cbn [decodeTimePtr]. rewrite Hd. pose proof (encodeTime_some t Ht Hz) as Hs. unfold encodeTime in Hs.
    rewrite Hz in Hs. by destruct (FormatTime t).
Qed.

(** The comparison of a DELETE is the order of the instants, to the millisecond. *)
Lemma expired_time t cutoff :
  representable t -> representable cutoff -> tIsZero cutoff = false ->
  expired (encodeTime cutoff) (VTime t) = negb (tIsZero t) && (millis t <? millis cutoff).
Proof.
  intros Ht Hc Hz. unfold VTime. destruct (tIsZero t) eqn:Ez; [by unfold encodeTime; rewrite Ez|].
  pose proof (encodeTime_some t Ht Ez) as Hs. unfold encodeTime in *. rewrite Ez, Hz in *. cbn [expired negb andb].
  rewrite <- FormatTime_less by done. by destruct (FormatTime t).
Qed.

Lemma scan_string_str s : scan_string (VStr s) = Some s.
Proof. unfold scan_string, VStr, txt. cbn. by rewrite String.string_of_list_ascii_of_string. Qed.
Lemma int_bool b : intToBool (boolToInt b) = b.
Proof. by destruct b. Qed.

(** The client's clock as stored: absent when zero. *)
Definition client_time_ok (ms : Z) : Prop :=
  ms = 0 \/ representable (unixNanos (ms * Millisecond)) /\ tIsZero (unixNanos (ms * Millisecond)) = false.

Definition latency_stored (s : LatencySample) : LatencySample :=
  mkLatency (lsSessionID s) (lsSeq s) (lsRTTMs s) (lsJitterMs s) (lsSamples s) (lsClientTimeMs s)
    (to_millis (lsServerTime s)) (lsCapped s) (lsMissedPong s).
Definition session_stored (s : SessionRow) : SessionRow :=
  mkSessionRow (srSessionID s) (srDeviceID s) (srClientVersion s) (srPlatform s) (srRemoteAddr s) (srSymbol s)
    (srInterval s) (to_millis (srConnectedAt s)) (ptr_millis (srDisconnectedAt s)) (srDisconnectReason s)
    (srInitialTier s) (srFinalTier s) (srOverrideTier s) (srUptimeMs s) (srMessagesSent s) (srMessagesReceived s)
    (srBytesSent s) (srProtocolErrors s).
Definition tier_stored (t : TierTransitionRow) : TierTransitionRow :=
  mkTierRow (twSessionID t) (to_millis (twAt t)) (twFrom t) (twTo t) (twReason t) (twRTTMs t) (twJitterMs t)
    (twStreak t) (twOverride t).
Definition window_stored (w : DeliveryWindowRow) : DeliveryWindowRow :=
  mkWindowRow (wwSessionID w) (to_millis (wwWindowStart w)) (wwWindowMs w) (wwTier w) (wwTargetRate w)
    (wwEffectiveRate w) (wwCandleUpdates w) (wwTradeMessages w) (wwBookDeltas w) (wwHealthMessages w)
    (wwCoalesced w) (wwSuppressed w) (wwBytesSent w).

Lemma client_time_stored ms :
  client_time_ok ms ->
  exists s, nullable [] scan_text (if ms =? 0 then VNull else VTime (unixNanos (ms * Millisecond))) = Some s /\
    match s with [] => 0 | _ => tUnixMilli (decodeTime s) end = ms.
Proof.
  intros [->|[Hr Hz]]; [by exists []|].
  destruct (Z.eqb_spec ms 0) as [->|Hne]; [by exists []|]. exists (encodeTime (unixNanos (ms * Millisecond))). split; [done|].
  pose proof (decode_encode _ Hr) as Hd.
  assert (Hms : tUnixMilli (to_millis (unixNanos (ms * Millisecond))) = ms).
  { unfold tUnixMilli, to_millis, millis, unixNanos, representable, unixToInternal, Second, Millisecond in *. cbn [ns] in *.
    rewrite i64_small; unfold in_i64; Z.div_mod_to_equations; lia. }
  pose proof (encodeTime_some _ Hr Hz) as Hs. destruct (encodeTime _); [done|by rewrite Hd].
Qed.

Lemma scan_latency_args s :
  representable (lsServerTime s) -> client_time_ok (lsClientTimeMs s) -> scan_latency (latency_args s) = Some (latency_stored s).
Proof.
  intros Hls Hlc. unfold scan_latency, latency_args. destruct (client_time_stored _ Hlc) as (c & Hc & Hms). rewrite Hc.
  rewrite scan_string_str. cbn [mbind option_bind scan_int scan_real scan_text VTime].
  by rewrite Hms, decode_encode, !int_bool.
Qed.
Lemma scan_session_args row :
  representable (srConnectedAt row) -> (forall u, srDisconnectedAt row = Some u -> representable u) ->
  scan_session (sessionArgs row) = Some (session_stored row).
Proof.
  intros Hsc Hsd. unfold scan_session, sessionArgs. cbn [nullable VStr]. fold (VStr (srSessionID row)).
  change (VText (txt ?x)) with (VStr x). rewrite !scan_string_str. cbn [mbind option_bind scan_int scan_text VTime nullable].
  by rewrite decode_encode, decode_encode_ptr.
Qed.
Lemma scan_tier_args t : representable (twAt t) -> scan_tier (tier_args t) = Some (tier_stored t).
Proof.
  intros Ht. unfold scan_tier, tier_args. cbn [nullable VStr]. change (VText (txt ?x)) with (VStr x). rewrite !scan_string_str.
  cbn [mbind option_bind scan_int scan_real scan_text VTime nullable]. by rewrite decode_encode.
Qed.
Lemma scan_delivery_args w : representable (wwWindowStart w) -> scan_delivery (delivery_args w) = Some (window_stored w).
Proof.
  intros Hw. unfold scan_delivery, delivery_args. rewrite !scan_string_str.
  cbn [mbind option_bind scan_int scan_real scan_text VTime]. by rewrite decode_encode.
Qed.

(** C28: rows read back from SQLite are the rows written.  For timestamps of the
    years 1 to 9999, scanning the values bound for a latency sample, a session, a
    tier transition or a delivery window gives the same row with its times cut to
    the millisecond in UTC; every other field, the client's clock and an absent
    disconnection included, is unchanged. *)
Theorem rows_roundtrip s row t w :
  representable (lsServerTime s) -> client_time_ok (lsClientTimeMs s) ->
  representable (srConnectedAt row) -> (forall u, srDisconnectedAt row = Some u -> representable u) ->
  representable (twAt t) -> representable (wwWindowStart w) ->
  scan_latency (latency_args s) = Some (latency_stored s) /\
  scan_session (sessionArgs row) = Some (session_stored row) /\
  scan_tier (tier_args t) = Some (tier_stored t) /\
  scan_delivery (delivery_args w) = Some (window_stored w).
Proof.
  intros Hls Hlc Hsc Hsd Ht Hw. split; [by apply scan_latency_args|]. split; [by apply scan_session_args|].
  split; [by apply scan_tier_args|by apply scan_delivery_args].
Qed.

(** ** A reference database *)

Module RefDB.
Definition Row := list (string * SqlValue).
Record DB := mkDB { dbTables : gmap string (list Row) }.
Record Tx := mkTx { txOld : DB; txNew : DB }.

Fixpoint cell (row : Row) (c : string) : SqlValue :=
  match row with
  | [] => VNull
  | (k, v) :: row => if decide (k = c) then v else cell row c
  end.
Definition rows_of (d : DB) (t : string) : list Row := default [] (dbTables d !! t).
Definition set_rows (d : DB) (t : string) (rows : list Row) : DB := mkDB (<[t := rows]> (dbTables d)).

Definition same_value (a b : SqlValue) : bool :=
  match a, b with
  | VText s, VText t => bool_decide (s = t)
  | VInt m, VInt n => m =? n
  | _, _ => false
  end.
Definition same_key (cols : list string) (a b : Row) : bool := forallb (fun c => same_value (cell a c) (cell b c)) cols.

(** The primary key of [sessions] and the unique key of [candle_closes]. *)
Definition unique_key (t : string) : list string :=
  if decide (t = "sessions") then ["session_id"]
  else if decide (t = "candle_closes") then ["symbol"; "interval"; "start_time"; "epoch"] else [].

Definition insert_row (replace : bool) (t : string) (rows : option (list Row)) (row : Row) : option (list Row) :=
  rows ← rows;
  match unique_key t with
  | [] => Some (rows ++ [row])
  | key =>
      if existsb (same_key key row) rows
      then if replace then Some (List.filter (fun old => negb (same_key key row old)) rows ++ [row]) else None
      else Some (rows ++ [row])
  end.

Definition end_columns : list string :=
  ["disconnected_at"; "disconnect_reason"; "final_tier"; "override_tier"; "uptime_ms"; "messages_sent";
   "messages_received"; "bytes_sent"; "protocol_errors"].
Definition end_row (args : list SqlValue) (row : Row) : Row :=
  if same_value (cell row "session_id") (List.last args VNull) then zip end_columns args ++ row else row.

Definition run (st : Statement) (args : list SqlValue) (d : DB) : option DB :=
  match st with
  | SInsert replace t cols n =>
      let rows := map (zip cols) (chunks (length args) (length cols) args) in
      new ← fold_left (insert_row replace t) rows (Some (rows_of d t));
      Some (set_rows d t new)
  | SEndSession => Some (set_rows d "sessions" (map (end_row args) (rows_of d "sessions")))
  | SDelete _ _ => None
  end.

#[global] Instance transaction : Transaction Tx := {|
  txExec tx st args :=
    match run st args (txNew tx) with Some d => (mkTx (txOld tx) d, true) | None => (tx, false) end |}.
#[global] Instance database : Database DB Tx := {|
  dbBegin d := Some (mkTx d d);
  txCommit tx := (txNew tx, true);
  txRollback tx := txOld tx |}.

(** Without the first [n] rows that satisfy [f], and how many those were. *)
Fixpoint remove_first (f : Row -> bool) (n : nat) (rows : list Row) : list Row * Z :=
  match n, rows with
  | S n', row :: rows =>
      if f row then let '(rest, k) := remove_first f n' rows in (rest, k + 1)
      else let '(rest, k) := remove_first f n rows in (row :: rest, k)
  | _, _ => (rows, 0)
  end.
#[global] Instance deletion : Deletion DB := {|
  dbDelete d st cutoff n :=
    match st with
    | SDelete t c =>
        let '(rows, k) := remove_first (fun row => expired cutoff (cell row c)) (Z.to_nat n) (rows_of d t) in
        (set_rows d t rows, Some k)
    | _ => (d, None)
    end |}.

#[global] Instance transaction_laws : TransactionLaws txOld.
Proof.
  split.
  - by intros d tx [= <-].
  - intros tx st args. cbn [txExec transaction]. by destruct (run st args (txNew tx)).
  - done.
  - done.
Qed.

Lemma remove_first_spec f n rows :
  let '(rest, k) := remove_first f n rows in
  k = Z.min (Z.of_nat n) (len (List.filter f rows)) /\
  len (List.filter f rest) = len (List.filter f rows) - k /\
  List.filter (fun row => negb (f row)) rest = List.filter (fun row => negb (f row)) rows.
Proof.
  revert n. induction rows as [|row rows IH]; intros [|n]; cbn [remove_first]; try (unfold len; cbn; lia || (repeat split; unfold len; cbn; lia)).
  destruct (f row) eqn:Hf.
  - specialize (IH n). destruct (remove_first f n rows) as [rest k]. cbn [List.filter]. rewrite Hf. cbn [negb].
    destruct IH as (-> & -> & ->). unfold len. cbn [length]. repeat split; lia.
  - specialize (IH (S n)). destruct (remove_first f (S n) rows) as [rest k]. cbn [List.filter]. rewrite Hf. cbn [negb].
    destruct IH as (-> & -> & ->). done.
Qed.

#[global] Instance deletion_laws : DeletionLaws rows_of cell.
Proof.
  split.
  - intros d d' t c cutoff n k Hd Hn. cbn [dbDelete deletion] in Hd.
    pose proof (remove_first_spec (fun row => expired cutoff (cell row c)) (Z.to_nat n) (rows_of d t)) as Hr.
    destruct (remove_first _ _ _) as [rest k']. injection Hd as <- <-. destruct Hr as (Hk & Hc & Hl).
    assert (Ht : rows_of (set_rows d t rest) t = rest) by (unfold rows_of, set_rows; cbn; by rewrite lookup_insert_eq).
    cbn beta zeta. rewrite Ht. split; [lia|]. split; [done|]. split; [done|].
    intros u Hu. unfold rows_of, set_rows. cbn. by rewrite lookup_insert_ne.
  - intros d d' st cutoff n u Hd. cbn [dbDelete deletion] in Hd. destruct st; [by injection Hd as <-..|].
    destruct (remove_first _ _ _). discriminate.
Qed.
End RefDB.

(** ** Concrete inputs *)

Module Inputs.
Definition t0 : Time := unixNanos 1709251199999999999.
Definition sample (id : string) : LatencySample := mkLatency id 1 (f64_of_Z 40) (f64_of_Z 3) 5 1709251199000 t0 false false.
Definition session (id : string) : SessionRow :=
  mkSessionRow id "" "" "" "" "BTC-USD" "1m" t0 None "" "FULL" "" "" 0 0 0 0 0.
Definition tier_row : TierTransitionRow := mkTierRow "a" t0 "FULL" "REDUCED" "degrade" (f64_of_Z 200) (f64_of_Z 9) 3 "".
Definition window_row : DeliveryWindowRow := mkWindowRow "a" t0 1000 "FULL" (f64_of_Z 10) (f64_of_Z 9) 9 3 4 1 2 0 512.
Definition batch (ids : list string) : Batch :=
  mkBatch [sample "a"] [] [] [] [] [] (map (fun id => mkSessionWrite (session id) false) ids) [] [] [].
Definition empty_repo : @SqlRepo RefDB.DB := mkSqlRepo (RefDB.mkDB ∅) false.
Definition month : Z := 30 * 24 * Hour.
Definition retention : Retention := mkRetention true month month month.
End Inputs.
Import Inputs.

Lemma t0_representable : representable t0.
Proof. split; [vm_compute; discriminate|reflexivity]. Qed.

(** One session opened twice makes the insert fail: nothing of the batch, the
    latency sample included, is stored. *)
Lemma WriteBatch_atomic_witness :
  Sql_WriteBatch (T := RefDB.Tx) empty_repo (batch ["a"; "b"; "a"]) = (empty_repo, Some ErrStatement) /\
  map (fun t => length (RefDB.rows_of (sqDB (fst (Sql_WriteBatch (T := RefDB.Tx) empty_repo (batch ["a"; "b"])))) t))
    ["sessions"; "latency_samples"; "tier_transitions"] = [2; 1; 0]%nat.
Proof.
  pose proof (WriteBatch_atomic (T := RefDB.Tx) (origin := RefDB.txOld) empty_repo (batch ["a"; "b"; "a"])) as Ha.
  pose proof (eq_refl : snd (Sql_WriteBatch (T := RefDB.Tx) empty_repo (batch ["a"; "b"; "a"])) = Some ErrStatement) as He.
  destruct (Sql_WriteBatch (T := RefDB.Tx) empty_repo (batch ["a"; "b"; "a"])) as [r' err]. cbn [snd] in He. subst err. rewrite Ha.
  split; reflexivity.
Defined.

Lemma rows_roundtrip_witness :
  representable t0 /\ scan_latency (latency_args (sample "a")) = Some (latency_stored (sample "a")).
Proof.
  split; [exact t0_representable|].
  refine (proj1 (rows_roundtrip (sample "a") (session "a") tier_row window_row t0_representable _ t0_representable _
                   t0_representable t0_representable)).
  - right. split; [split; [vm_compute; discriminate|reflexivity]|reflexivity].
  - discriminate.
Defined.

(** A sample 31 days old goes, the session it belonged to is still connected and
    stays. *)
Lemma Prune_exact_witness :
  exists r res, fst (Sql_WriteBatch (T := RefDB.Tx) empty_repo (batch ["a"; "b"])) = r /\
    (forall t, length (RefDB.rows_of (sqDB r) t) < 3)%nat /\
    exists r', Prune 3 r (tAdd t0 (31 * 24 * Hour)) retention 1 (fun _ _ => false) = Some (r', res, true) /\
      prTotal res = 1 /\ RefDB.rows_of (sqDB r') "latency_samples" = [] /\
      RefDB.rows_of (sqDB r') "sessions" = RefDB.rows_of (sqDB r) "sessions".
Proof.
  set (r := fst (Sql_WriteBatch (T := RefDB.Tx) empty_repo (batch ["a"; "b"]))). vm_compute in r.
  assert (Hf : forall t, (length (RefDB.rows_of (sqDB r) t) < 3)%nat).
  { intros t. unfold RefDB.rows_of, r. cbn [sqDB RefDB.dbTables].
    destruct (_ !! t) as [rows|] eqn:E; [|cbn; lia]. apply elem_of_map_to_list in E. revert E. vm_compute map_to_list.
    intros E. repeat (apply elem_of_cons in E as [[= -> ->]|E]; [cbn; lia|]). inversion E. }
  destruct (Prune_exact (rows_of := RefDB.rows_of) (cell := RefDB.cell) 3 r (tAdd t0 (31 * 24 * Hour)) retention 1
              (fun _ _ => false) Hf) as (r' & res & ok & Hp & _ & Ho & _ & _ & Hok).
  assert (Hrun : ok = true) by (pose proof Hp as H; vm_compute in H; by injection H as _ _ <-).
  subst ok. destruct (Hok eq_refl eq_refl) as [Hr Ht].
  exists r, res. split; [done|]. split; [exact Hf|]. exists r'. split; [exact Hp|].
  assert (Hl : RefDB.rows_of (sqDB r') "latency_samples" = []) by (rewrite Hr; reflexivity).
  assert (Hs : RefDB.rows_of (sqDB r') "sessions" = RefDB.rows_of (sqDB r) "sessions") by (rewrite Hr; reflexivity).
  split; [|by split]. rewrite Ht. vm_compute in Hp. injection Hp as <- _. reflexivity.
Defined.
