(* ===== verification/Http.v ===== *)
(** * The REST surface: [internal/transport/http]

    A handler is a function of the request, the state it reads and the clock; a
    control also changes that state.  The chi router and [net/http] are not part
    of the repository: a request arrives with its path parameters and its query
    already split, and a response is a status and the document that
    [encoding/json] prints.  [None] is a panic, which [withRecover] answers.
    Error messages and correlation ids are not modelled. *)

From S2P Require Import Prelude Money GoTime Decimal Domain Float64 Registry Json Protocol Wire TimeText Strconv Rand Book Bus.
From S2P Require Import Metrics MetricsStore MetricsQuery Engine Session Tier Manager.

(** ** Requests and responses *)

Record Request := mkRequest {
  rqSymbol : string; rqID : string; rqQuery : list (string * string); rqBody : option (option Json) }.

(** [r.URL.Query().Get]: the first value of the key, or the empty string. *)
Fixpoint get_first (key : string) (q : list (string * string)) : string :=
  match q with
  | [] => ""
  | (k, v) :: q => if decide (k = key) then v else get_first key q
  end.
Definition Query_Get (r : Request) (key : string) : string := get_first key (rqQuery r).

Definition StatusOK : Z := 200.
Definition StatusBadRequest : Z := 400.
Definition StatusNotFound : Z := 404.
Definition StatusConflict : Z := 409.
Definition StatusInternalServerError : Z := 500.
Definition StatusServiceUnavailable : Z := 503.

Definition codeSymbolNotFound := "SYMBOL_NOT_FOUND".
Definition codeInvalidLimit := "INVALID_LIMIT".
Definition codeUnsupportedInterval := "UNSUPPORTED_INTERVAL".
Definition codeNotFound := "NOT_FOUND".
Definition codeMethodNotAllowed := "METHOD_NOT_ALLOWED".
Definition codeInternal := "INTERNAL".
Definition codeValidationFailed := "VALIDATION_FAILED".

Record marketResponse := mkMarketResponse {
  mrSymbol : string; mrDisplay : string; mrName : string; mrGlyph : string; mrLive : bool;
  mrPriceDigits : Z; mrQuantityDigits : Z; mrLastPrice : text; mrChangeBasisPoints : Z }.

Record engineHealth := mkEngineHealth {
  ehState : string; ehSymbol : string; ehEpoch : Z; ehEventIndex : Z; ehUpdateID : Z;
  ehWarmupComplete : bool; ehLastError : option error }.
Record MetricsHealth := mkMetricsHealth {
  mhDriver : text; mhStatus : string; mhQueueDepth : Z; mhCapacity : Z; mhDroppedTotal : Z;
  mhWriteFailures : Z; mhRowsWritten : Z; mhLastFlushMs : Z; mhSchemaVersion : Z }.
Record healthPayload := mkHealthPayload {
  hdStatus : string; hdReasons : list string; hdVersion : string; hdUptimeMs : Z;
  hdEngine : option engineHealth; hdMetrics : MetricsHealth; hdActive : Z; hdTotal : Z; hdTime : text }.

Record faultRequest := mkFaultRequest {
  frSkipBookDeltas : Z; frDuplicateDelta : bool; frReverseDeltas : bool; frMalformedFrames : Z;
  frWriteDelayMs : Z; frWriteJitterMs : Z; frHoldWritesMs : Z; frSkipCandleClosed : bool }.

Inductive Body :=
| BError (code : string)
| BMarkets (l : list marketResponse)
| BSummary (p : MarketSummaryPayload)
| BBook (p : OrderBookSnapshotPayload)
| BCandles (symbol interval : string) (limit : Z) (l : list CandlePayload) (serverTime : text)
| BTrades (symbol : string) (limit : Z) (l : list TradePayload) (serverTime : text)
| BLive (time : text)
| BHealth (p : healthPayload)
| BMetrics (s : MetricsSummary)
| BLatency (sessionID : string) (from to : Time) (bucketMs : Z) (l : list LatencyBucket)
| BTiers (from to : Time) (l : list TierTransitionRow)
| BSessions (l : list SessionRow)
| BDelivery (sessionID : string) (from to : Time) (l : list DeliveryWindowRow)
| BState (s : string)
| BReset (epoch updateID : Z)
| BSeconds (n : Z)
| BEmptyHistory (on : bool)
| BMetricsFailure (on : bool)
| BDropped (id : string)
| BFaults (id : string) (f : faultRequest)
| BTier (id tier : string).

Record Response := mkResponse { rsStatus : Z; rsBody : Body }.

Definition writeError (status : Z) (code : string) : Response := mkResponse status (BError code).
Definition mapDomainError (err : error) : Response :=
  match err with
  | ErrSymbolNotFound => writeError StatusNotFound codeSymbolNotFound
  | ErrUnsupportedInterval => writeError StatusBadRequest codeUnsupportedInterval
  | ErrInvalidLimit => writeError StatusBadRequest codeInvalidLimit
  | _ => writeError StatusInternalServerError codeInternal
  end.

(** The handlers write last, so a panic comes before any byte of the response. *)
Definition withRecover (r : option Response) : Response :=
  match r with Some r => r | None => writeError StatusInternalServerError codeInternal end.

Definition notFound : Response := writeError StatusNotFound codeNotFound.
Definition methodNotAllowed : Response := writeError 405 codeMethodNotAllowed.

(** ** Parameters *)

(** An unknown or missing symbol is [None]. *)
Definition symbolFrom (r : Request) : option Symbol :=
  let raw := rqSymbol r in
  if bool_decide (raw = "") then None else match Lookup raw with Ok sym => Some sym | Err _ => None end.

Definition limitFrom (r : Request) (def max : Z) : res Z :=
  let raw := Query_Get r "limit" in
  if bool_decide (raw = "") then Ok def
  else match Atoi (txt raw) with
       | None => Err ErrInvalidLimit
       | Some value => if (value <? 1) || (max <? value) then Err ErrInvalidLimit else Ok value
       end.

(** One end of the range. *)
Definition range_end (r : Request) (key : string) (def : Time) : res Time :=
  let raw := Query_Get r key in
  if bool_decide (raw = "") then Ok def
  else match ParseRFC3339 (txt raw) with None => Err ErrInvalidLimit | Some t => Ok (tUTC t) end.

(** [now] is the process clock, not the injected one. *)
Definition parseTimeRange (r : Request) (now : Time) (def max : Z) : res (Time * Time) :=
  let now := tUTC now in
  match range_end r "from" (tAdd now (- def)) with
  | Err e => Err e
  | Ok from =>
      match range_end r "to" now with
      | Err e => Err e
      | Ok to =>
          if tBefore to from then Err ErrInvalidLimit
          else if (0 <? max) && (max <? tSub to from) then Err ErrInvalidLimit
          else Ok (from, to)
      end
  end.

Definition defaultMetricsWindow : Z := 15 * Minute.
Definition maxMetricsRange : Z := 24 * Hour.
Definition maxMetricsLimit : Z := 1000.

Definition windowFrom (r : Request) (def : Z) : Z :=
  let raw := Query_Get r "window" in
  if bool_decide (raw = "") then def
  else match ParseDuration (txt raw) with
       | None => def
       | Some parsed => if maxMetricsRange <? parsed then maxMetricsRange else parsed
       end.
Definition bucketFrom (r : Request) (def : Z) : Z :=
  let raw := Query_Get r "bucket" in
  if bool_decide (raw = "") then def
  else match ParseDuration (txt raw) with
       | None => def
       | Some parsed => if parsed <=? 0 then def else if parsed <? Second then Second else parsed
       end.
Definition limitOrDefault (r : Request) (def : Z) : Z :=
  let raw := Query_Get r "limit" in
  if bool_decide (raw = "") then def
  else match Atoi (txt raw) with
       | None => def
       | Some parsed => if parsed <? 1 then def else if maxMetricsLimit <? parsed then maxMetricsLimit else parsed
       end.
Definition intFrom (r : Request) (key : string) (def : Z) : Z :=
  let raw := Query_Get r key in if bool_decide (raw = "") then def else default def (Atoi (txt raw)).
Definition boolFrom (r : Request) (key : string) (def : bool) : bool :=
  let raw := Query_Get r key in if bool_decide (raw = "") then def else default def (ParseBool (txt raw)).

(** ** Debug switches *)

Record DebugState := mkDebugState { dsEmptyHistory : bool; dsMetricsFailure : bool }.
Definition NewDebugState : DebugState := mkDebugState false false.
Definition SetEmptyHistory (d : DebugState) (on : bool) : DebugState := mkDebugState on (dsMetricsFailure d).
Definition SetMetricsFailure (d : DebugState) (on : bool) : DebugState := mkDebugState (dsEmptyHistory d) on.

Section Handlers.
Context {G : Type} `{RandSource G}.

(** What the handlers share: the markets and the engine each name stands for, the
    debug switches ([None] is nil) and the sessions. *)
Record World := mkWorld {
  woRegistry : option (Registry.Registry (E := string)); woEngines : gmap string (Engine G);
  woDefaultSymbol : Symbol; woDebug : option DebugState; woManager : Manager }.
Definition with_engine (w : World) (id : string) (e : Engine G) : World :=
  mkWorld (woRegistry w) (<[id := e]> (woEngines w)) (woDefaultSymbol w) (woDebug w) (woManager w).
Definition with_debug (w : World) (d : option DebugState) : World :=
  mkWorld (woRegistry w) (woEngines w) (woDefaultSymbol w) d (woManager w).
Definition with_manager (w : World) (m : Manager) : World :=
  mkWorld (woRegistry w) (woEngines w) (woDefaultSymbol w) (woDebug w) m.

Definition lookup_engine (w : World) (sym : Symbol) : option (string * Engine G) :=
  id ← Registry_Lookup (woRegistry w) sym; e ← woEngines w !! id; Some (id, e).

(** ** Market data *)

Definition engineFrom (w : World) (r : Request) : option (Symbol * Engine G) :=
  sym ← symbolFrom r; '(_, e) ← lookup_engine w sym; Some (sym, e).

Definition unknownSymbol : Response := writeError StatusNotFound codeSymbolNotFound.

Fixpoint list_markets (w : World) (now : Time) (symbols : list Symbol) : option (list marketResponse) :=
  match symbols with
  | [] => Some []
  | s :: symbols =>
      match lookup_engine w s with
      | None => list_markets w now symbols
      | Some (_, e) =>
          summary ← Engine_Summary e now;
          rest ← list_markets w now symbols;
          Some (mkMarketResponse (ID s) (Display s) (Name s) (Glyph s) true (PriceDigits s) (QtyDigits s)
                  (FormatPrice s (smLast summary)) (smChangeBP summary) :: rest)
      end
  end.
Definition H_list (w : World) (now : Time) : option Response :=
  out ← list_markets w now (Symbols (woRegistry w)); Some (mkResponse StatusOK (BMarkets out)).

Definition H_summary (w : World) (r : Request) (now : Time) : option Response :=
  match engineFrom w r with
  | None => Some unknownSymbol
  | Some (sym, e) => s ← Engine_Summary e now; Some (mkResponse StatusOK (BSummary (SummaryPayloadFrom sym s)))
  end.

Definition H_orderBook (w : World) (r : Request) (now : Time) : option Response :=
  match engineFrom w r with
  | None => Some unknownSymbol
  | Some (sym, e) => Some (mkResponse StatusOK (BBook (SnapshotPayloadFrom sym (Engine_Book e now))))
  end.

Definition EmptyHistory (w : World) : bool :=
  match woDebug w with Some d => dsEmptyHistory d | None => false end.

(** Only the last candle can be the active one. *)
Fixpoint candle_payloads (sym : Symbol) (lastIsActive : bool) (candles : list Candle) : list CandlePayload :=
  match candles with
  | [] => []
  | c :: rest =>
      CandlePayloadFrom sym c (lastIsActive && match rest with [] => true | _ => false end)
        :: candle_payloads sym lastIsActive rest
  end.

Definition H_candles (w : World) (r : Request) (now : Time) : option Response :=
  match engineFrom w r with
  | None => Some unknownSymbol
  | Some (sym, e) =>
      let rawInterval := Query_Get r "interval" in
      let rawInterval := if bool_decide (rawInterval = "") then IntervalID Interval1m else rawInterval in
      match ParseInterval rawInterval with
      | Err _ => Some (writeError StatusBadRequest codeUnsupportedInterval)
      | Ok iv =>
          match limitFrom r 500 1000 with
          | Err err => Some (mapDomainError err)
          | Ok limit =>
              if EmptyHistory w then
                Some (mkResponse StatusOK (BCandles (ID sym) (IntervalID iv) limit [] (FormatTime now)))
              else
                c ← Engine_Candles e iv limit;
                match c with
                | Err err => Some (mapDomainError err)
                | Ok (candles, lastIsActive) =>
                    Some (mkResponse StatusOK (BCandles (ID sym) (IntervalID iv) limit
                            (candle_payloads sym lastIsActive candles) (FormatTime now)))
                end
          end
      end
  end.

Definition H_trades (w : World) (r : Request) (now : Time) : option Response :=
  match engineFrom w r with
  | None => Some unknownSymbol
  | Some (sym, e) =>
      match limitFrom r 50 200 with
      | Err err => Some (mapDomainError err)
      | Ok limit =>
          trades ← RecentTrades e limit;
          Some (mkResponse StatusOK (BTrades (ID sym) limit (map (TradePayloadFrom sym) trades) (FormatTime now)))
      end
  end.

(** ** Health *)

Definition liveness (now : Time) : Response := mkResponse StatusOK (BLive (FormatTime now)).

Definition metricsDisabled : MetricsHealth := mkMetricsHealth [] "disabled" 0 0 0 0 0 0 0.

Definition unhealthy (s : EngState) : bool := bool_decide (s = StateStopped) || bool_decide (s = StateDegraded).
Fixpoint engine_reasons (w : World) (symbols : list Symbol) : list string :=
  match symbols with
  | [] => []
  | sym :: symbols =>
      match lookup_engine w sym with
      | Some (_, e) =>
          if unhealthy (enState e) then ("engine_" ++ State_String (enState e) ++ ":" ++ ID sym)%string :: engine_reasons w symbols
          else engine_reasons w symbols
      | None => engine_reasons w symbols
      end
  end.

Definition detailed (w : World) (metricsHealth : option MetricsHealth) (version : string) (startedAt now : Time) : Response :=
  let metrics := default metricsDisabled metricsHealth in
  let engine := match lookup_engine w (woDefaultSymbol w) with
                | Some (_, e) =>
                    Some (mkEngineHealth (State_String (enState e)) (ID (cfSymbol (enCfg e))) (enEpoch e)
                            (enEventIndex e) (bkUpdateID (enBook e)) (enWarmupDone e) (enLastErr e))
                | None => None
                end in
  let reasons := engine_reasons w (Symbols (woRegistry w)) ++
                 (if bool_decide (mhStatus metrics = "degraded") then ["metrics_store_degraded"] else []) in
  let status := match reasons with [] => "ok" | _ => "degraded" end in
  mkResponse (if bool_decide (status = "ok") then StatusOK else StatusServiceUnavailable)
    (BHealth (mkHealthPayload status reasons version (dMilliseconds (tSub now startedAt)) engine metrics
                (Manager_Count (woManager w)) (TotalSessions (woManager w)) (FormatTime now))).

(** ** Debug controls *)

Definition engineFor (w : World) (r : Request) : option (string * Engine G) :=
  let raw := Query_Get r "symbol" in
  if bool_decide (raw = "") then lookup_engine w (woDefaultSymbol w)
  else match Lookup raw with Ok sym => lookup_engine w sym | Err _ => None end.

Definition on_engine (w : World) (r : Request)
    (f : string -> Engine G -> World * list Effect * Response) : World * list Effect * Response :=
  match engineFor w r with
  | None => (w, [], unknownSymbol)
  | Some (id, e) => f id e
  end.

Definition D_pause (w : World) (r : Request) (now : Time) : World * list Effect * Response :=
  on_engine w r (fun id e =>
    let '(e, out) := Pause e now in
    (with_engine w id e, out, mkResponse StatusOK (BState (State_String (enState e))))).
Definition D_resume (w : World) (r : Request) (now : Time) : World * list Effect * Response :=
  on_engine w r (fun id e =>
    let '(e, out) := Resume e now in
    (with_engine w id e, out, mkResponse StatusOK (BState (State_String (enState e))))).
(** [snapshot] is what the provider answers to the engine. *)
Definition D_reset (w : World) (r : Request) (snapshot : res OrderBookSnapshot) (now : Time)
    : World * list Effect * Response :=
  on_engine w r (fun id e =>
    let '(e, out, err) := Reset e snapshot now in
    (with_engine w id e, out,
     match err with
     | Some _ => writeError StatusInternalServerError codeInternal
     | None => mkResponse StatusOK (BReset (enEpoch e) (bkUpdateID (enBook e)))
     end)).
(** [time.Duration] multiplies at 64 bits. *)
Definition D_burst (w : World) (r : Request) (now : Time) : World * list Effect * Response :=
  on_engine w r (fun id e =>
    let seconds := intFrom r "seconds" 5 in
    let '(e, out) := Burst e (i64 (seconds * Second)) now in
    (with_engine w id e, out, mkResponse StatusOK (BSeconds seconds))).

Definition D_emptyHistory (w : World) (r : Request) : World * Response :=
  let on := boolFrom r "on" true in
  (with_debug w ((fun d => SetEmptyHistory d on) <$> woDebug w), mkResponse StatusOK (BEmptyHistory on)).
Definition D_metricsFail (w : World) (r : Request) : World * Response :=
  let on := boolFrom r "on" true in
  (with_debug w ((fun d => SetMetricsFailure d on) <$> woDebug w), mkResponse StatusOK (BMetricsFailure on)).

Definition noSession : Response := writeError StatusNotFound codeNotFound.

Definition dropSession (w : World) (r : Request) : World * Response :=
  let '(m, ok) := Manager_Drop (woManager w) (rqID r) "debug_drop" in
  if ok then (with_manager w m, mkResponse StatusOK (BDropped (rqID r))) else (w, noSession).

Definition bool_value (old : bool) (j : Json) : option bool :=
  match j with JBool b => Some b | JNull => Some old | _ => None end.
Definition decode_faults (j : Json) : option faultRequest :=
  ms ← members j;
  skip ← assign int_value 0 "skipBookDeltas" ms; dup ← assign bool_value false "duplicateDelta" ms;
  rev ← assign bool_value false "reverseDeltas" ms; bad ← assign int_value 0 "malformedFrames" ms;
  delay ← assign int_value 0 "writeDelayMs" ms; jitter ← assign int_value 0 "writeJitterMs" ms;
  hold ← assign int_value 0 "holdWritesMs" ms; closed ← assign bool_value false "skipCandleClosed" ms;
  Some (mkFaultRequest skip dup rev bad delay jitter hold closed).

(** [rqBody]: no body or an empty one, a body that is not JSON, or a value. *)
Definition applyFaults (w : World) (r : Request) : World * Response :=
  match (match rqBody r with
         | None => Some (mkFaultRequest 0 false false 0 0 0 0 false)
         | Some None => None
         | Some (Some j) => decode_faults j
         end) with
  | None => (w, writeError StatusBadRequest codeValidationFailed)
  | Some req =>
      let cfg := mkFaults (frSkipBookDeltas req) (frDuplicateDelta req) (frReverseDeltas req) (frMalformedFrames req)
        (i64 (frWriteDelayMs req * Millisecond)) (i64 (frWriteJitterMs req * Millisecond))
        (i64 (frHoldWritesMs req * Millisecond)) (frSkipCandleClosed req) in
      let '(m, ok) := Manager_ApplyFaults (woManager w) (rqID r) cfg in
      if ok then (with_manager w m, mkResponse StatusOK (BFaults (rqID r) req)) else (w, noSession)
  end.

(** [queued] is whether the command queue of the session takes the message, which
    the session's own loop then handles. *)
Definition forceTier (w : World) (r : Request) (queued : bool) : Response * option string :=
  let tier := Query_Get r "tier" in
  match Manager_Session (woManager w) (rqID r) with
  | None => (noSession, None)
  | Some _ =>
      if bool_decide (tier = "") then (writeError StatusBadRequest codeValidationFailed, None)
      else if queued then (mkResponse StatusOK (BTier (rqID r) tier), Some tier)
      else (writeError StatusConflict codeInternal, None)
  end.
End Handlers.

(** ** Metrics queries *)

(** The read side of the metrics store, declared by its consumer. *)
Class MetricsQuerier (Q : Type) := {
  mqSummary : Q -> Time -> Z -> MetricsSummary + DriverError;
  mqLatencyBuckets : Q -> Time -> string -> Time -> Time -> Z -> list LatencyBucket + DriverError;
  mqTierTransitions : Q -> Time -> Time -> Time -> Z -> list TierTransitionRow + DriverError;
  mqSessions : Q -> Z -> list SessionRow + DriverError;
  mqDeliveryWindows : Q -> Time -> string -> Time -> Time -> Z -> list DeliveryWindowRow + DriverError }.

Section MetricsHandlers.
Context {Q : Type} `{MetricsQuerier Q}.

Definition unavailable : Response := writeError StatusServiceUnavailable "METRICS_UNAVAILABLE".
Definition failed : Response := writeError StatusInternalServerError codeInternal.

(** Every handler needs a querier. *)
Definition with_querier (q : option Q) (f : Q -> Response) : Response :=
  match q with None => unavailable | Some q => f q end.
Definition answer {A} (x : A + DriverError) (body : A -> Body) : Response :=
  match x with inr _ => failed | inl a => mkResponse StatusOK (body a) end.

Definition M_summary (q : option Q) (r : Request) (now : Time) : Response :=
  with_querier q (fun q => answer (mqSummary q now (windowFrom r defaultMetricsWindow)) BMetrics).

Definition M_latency (q : option Q) (r : Request) (now : Time) : Response :=
  with_querier q (fun q =>
    match parseTimeRange r now defaultMetricsWindow maxMetricsRange with
    | Err err => mapDomainError err
    | Ok (from, to) =>
        let bucket := bucketFrom r (5 * Second) in
        answer (mqLatencyBuckets q now (Query_Get r "sessionId") from to bucket)
          (BLatency (Query_Get r "sessionId") from to (dMilliseconds bucket))
    end).

Definition M_tiers (q : option Q) (r : Request) (now : Time) : Response :=
  with_querier q (fun q =>
    match parseTimeRange r now Hour maxMetricsRange with
    | Err err => mapDomainError err
    | Ok (from, to) => answer (mqTierTransitions q now from to (limitOrDefault r 200)) (BTiers from to)
    end).

Definition M_sessions (q : option Q) (r : Request) : Response :=
  with_querier q (fun q => answer (mqSessions q (limitOrDefault r 50)) BSessions).

Definition M_delivery (q : option Q) (r : Request) (now : Time) : Response :=
  with_querier q (fun q =>
    match parseTimeRange r now defaultMetricsWindow maxMetricsRange with
    | Err err => mapDomainError err
    | Ok (from, to) =>
        answer (mqDeliveryWindows q now (Query_Get r "sessionId") from to (limitOrDefault r 200))
          (BDelivery (Query_Get r "sessionId") from to)
    end).
End MetricsHandlers.

(** ** Routes *)

Inductive Method := GET | POST.
Inductive Endpoint :=
| EpLiveness | EpDetailed | EpAppLinks | EpMarkets | EpSummary | EpOrderBook | EpCandles | EpTrades
| EpMetricsSummary | EpMetricsLatency | EpMetricsTiers | EpMetricsSessions | EpMetricsDelivery
| EpDebug (control : string).

Definition debug_routes : list (Method * string * Endpoint) :=
  [(POST, "/generator/pause", EpDebug "pause"); (POST, "/generator/resume", EpDebug "resume");
   (POST, "/generator/reset", EpDebug "reset"); (POST, "/generator/burst", EpDebug "burst");
   (POST, "/generator/empty-history", EpDebug "emptyHistory"); (POST, "/metrics/fail", EpDebug "metricsFail");
   (GET, "/sessions", EpDebug "listSessions"); (POST, "/sessions/{id}/drop", EpDebug "dropSession");
   (POST, "/sessions/{id}/faults", EpDebug "applyFaults"); (POST, "/sessions/{id}/tier", EpDebug "forceTier")].

Definition under (prefix : string) (routes : list (Method * string * Endpoint)) : list (Method * string * Endpoint) :=
  map (fun r => (fst (fst r), (prefix ++ snd (fst r))%string, snd r)) routes.

(** The patterns [NewRouter] registers, in order. *)
Definition routes (enableDebug : bool) (debug : option DebugState) : list (Method * string * Endpoint) :=
  [(GET, "/health", EpLiveness); (GET, "/api/v1/health", EpDetailed);
   (GET, "/.well-known/assetlinks.json", EpAppLinks)] ++
  under "/api/v1"
    ([(GET, "/markets", EpMarkets)] ++
     under "/markets/{symbol}"
       [(GET, "/summary", EpSummary); (GET, "/orderbook", EpOrderBook); (GET, "/candles", EpCandles);
        (GET, "/trades", EpTrades)] ++
     under "/metrics"
       [(GET, "/summary", EpMetricsSummary); (GET, "/latency", EpMetricsLatency); (GET, "/tiers", EpMetricsTiers);
        (GET, "/sessions", EpMetricsSessions); (GET, "/delivery", EpMetricsDelivery)] ++
     (if enableDebug && match debug with Some _ => true | None => false end then under "/debug" debug_routes else [])).

(** The store as the querier of the router, with the time it was opened. *)
#[export] Instance store_querier {R : Type} `{QueryRepository R} : MetricsQuerier (Store R * Time) := {|
  mqSummary q now window := match Summary (fst q) window now (snd q) with (s, None) => inl s | (_, Some e) => inr e end;
  mqLatencyBuckets q now id from to bucket := LatencyBuckets (fst q) id from to bucket now;
  mqTierTransitions q now from to limit := Q_TierTransitions (fst q) from to limit now;
  mqSessions q limit := Q_Sessions (fst q) limit;
  mqDeliveryWindows q now id from to limit := Q_DeliveryWindows (fst q) id from to limit now |}.

(** [store.Health] for [/api/v1/health] (cmd/server/main.go). *)
Definition health_of_store (h : Health) : MetricsHealth :=
  mkMetricsHealth (hlDriver h)
    (match hlStatus h with MetricsStore.StatusOK => "ok" | StatusDegraded => "degraded" | StatusDisabled => "disabled" end)
    (hlQueueDepth h) (hlCapacity h) (hlDroppedTotal h) (hlWriteFailures h) (hlRowsWritten h) (hlLastFlushMs h)
    (hlSchemaVersion h).
