(* ===== verification/HttpSpec.v ===== *)
(** * What the REST surface answers

    Every parameter is bounded before it reaches an engine or the database; the
    candle endpoint answers with the engine's history on every branch; the health
    document names exactly the layers that are unhealthy. *)

From Stdlib Require Import Ascii.
From S2P Require Import Prelude Money GoTime Decimal Domain Float64 Registry Json Protocol Wire TimeText Strconv Rand Book Candles Bus.
From S2P Require Import Metrics MetricsStore MetricsSpec MetricsQuery MemoryRepo Provider Engine EngineSpec Session Tier Manager Http.

(** ** Parameters *)

Lemma limitFrom_spec r def max n :
  limitFrom r def max = Ok n ->
  n = def \/ (Atoi (txt (Query_Get r "limit")) = Some n /\ 1 <= n <= max).
Proof.
  unfold limitFrom. case_bool_decide; [intros [= <-]; by left|].
  destruct (Atoi _) as [v|]; [|done]. destruct (Z.ltb_spec v 1); [done|]. destruct (Z.ltb_spec max v); [done|].
  intros [= <-]. right. split; [done|lia].
Qed.
Lemma limitFrom_err r def max e : limitFrom r def max = Err e -> e = ErrInvalidLimit.
Proof.
  unfold limitFrom. case_bool_decide; [done|]. destruct (Atoi _) as [v|]; [|by intros [= <-]].
  by destruct (_ || _); intros [= <-].
Qed.

Lemma range_end_spec r key dflt :
  match range_end r key dflt with
  | Err e => e = ErrInvalidLimit
  | Ok t => (loc dflt = UTC -> loc t = UTC) /\ (Query_Get r key = "" -> t = dflt)
  end.
Proof. unfold range_end. case_bool_decide as E; [done|]. by destruct (ParseRFC3339 _). Qed.

Lemma parseTimeRange_spec r now def max :
  match parseTimeRange r now def max with
  | Err e => e = ErrInvalidLimit
  | Ok (from, to) =>
      ns from <= ns to /\ loc from = UTC /\ loc to = UTC /\ (0 < max <= MaxInt64 - 1 -> ns to - ns from <= max) /\
      (Query_Get r "from" = "" -> from = tAdd (tUTC now) (- def)) /\ (Query_Get r "to" = "" -> to = tUTC now)
  end.
Proof.
  unfold parseTimeRange.
  pose proof (range_end_spec r "from" (tAdd (tUTC now) (- def))) as Hf. destruct (range_end r "from" _) as [from|e]; [|done].
  pose proof (range_end_spec r "to" (tUTC now)) as Ht. destruct (range_end r "to" _) as [to|e]; [|done].
  destruct (tBefore to from) eqn:Hb; [done|]. unfold tBefore in Hb. apply Z.ltb_ge in Hb.
  destruct ((0 <? max) && (max <? tSub to from)) eqn:Hm; [done|].
  destruct Hf as [Hf1 Hf2], Ht as [Ht1 Ht2]. repeat split; try done; [by apply Hf1|by apply Ht1|].
  intros Hmax. apply andb_false_iff in Hm as [Hm|Hm]; [apply Z.ltb_ge in Hm; lia|]. apply Z.ltb_ge in Hm.
  revert Hm. unfold tSub. split_if; lia.
Qed.

Lemma limitOrDefault_range r def : 1 <= def <= 1000 -> 1 <= limitOrDefault r def <= 1000.
Proof. intros Hd. unfold limitOrDefault, maxMetricsLimit. case_bool_decide; [done|]. destruct (Atoi _); [|done]. split_if; lia. Qed.
Lemma bucketFrom_min r def : Second <= def -> Second <= bucketFrom r def.
Proof. intros Hd. unfold bucketFrom. case_bool_decide; [done|]. destruct (ParseDuration _); [|done]. split_if; lia. Qed.
Lemma windowFrom_max r def : def <= 24 * Hour -> windowFrom r def <= 24 * Hour.
Proof. intros Hd. unfold windowFrom, maxMetricsRange. case_bool_decide; [done|]. destruct (ParseDuration _); [|done]. split_if; lia. Qed.

Section Bounded.
Context {Q : Type} `{MetricsQuerier Q}.

(** the metrics endpoints are bounded whatever the query string says.  A
    request is refused with status 400, or the store is asked for a range of at
    most 24 hours that does not run backwards, in UTC, with buckets of at least a
    second, at most 1000 rows and a summary window of at most 24 hours; the answer
    is what the store returns, or status 500 when it fails. *)
Theorem metrics_queries_bounded (q : Q) (r : Request) (now : Time) :
  (exists w, w <= 24 * Hour /\ M_summary (Some q) r now = answer (mqSummary q now w) BMetrics) /\
  (M_latency (Some q) r now = writeError 400 codeInvalidLimit \/
   exists from to b, ns from <= ns to <= ns from + 24 * Hour /\ loc from = UTC /\ loc to = UTC /\ Second <= b /\
     M_latency (Some q) r now =
       answer (mqLatencyBuckets q now (Query_Get r "sessionId") from to b)
         (BLatency (Query_Get r "sessionId") from to (dMilliseconds b))) /\
  (M_tiers (Some q) r now = writeError 400 codeInvalidLimit \/
   exists from to n, ns from <= ns to <= ns from + 24 * Hour /\ 1 <= n <= 1000 /\
     M_tiers (Some q) r now = answer (mqTierTransitions q now from to n) (BTiers from to)) /\
  (exists n, 1 <= n <= 1000 /\ M_sessions (Some q) r = answer (mqSessions q n) BSessions) /\
  (M_delivery (Some q) r now = writeError 400 codeInvalidLimit \/
   exists from to n, ns from <= ns to <= ns from + 24 * Hour /\ 1 <= n <= 1000 /\
     M_delivery (Some q) r now =
       answer (mqDeliveryWindows q now (Query_Get r "sessionId") from to n) (BDelivery (Query_Get r "sessionId") from to)).
Proof.
  unfold M_summary, M_latency, M_tiers, M_sessions, M_delivery. cbn [with_querier].
  assert (Hmax : 0 < maxMetricsRange <= MaxInt64 - 1) by (unfold maxMetricsRange, Hour; lia).
  split; [exists (windowFrom r defaultMetricsWindow); split; [apply windowFrom_max; unfold defaultMetricsWindow, Minute, Hour; lia|done]|].
  split; [|split; [|split; [exists (limitOrDefault r 50); split; [apply limitOrDefault_range; lia|done]|]]].
  - pose proof (parseTimeRange_spec r now defaultMetricsWindow maxMetricsRange) as Hp.
    destruct (parseTimeRange _ _ _ _) as [[from to]|e]; [|subst e; by left]. right. exists from, to, (bucketFrom r (5 * Second)).
    destruct Hp as (H1 & H2 & H3 & H4 & _). specialize (H4 Hmax). unfold maxMetricsRange in H4. repeat split; try done; [lia|].
    apply bucketFrom_min. unfold Second. lia.
  - pose proof (parseTimeRange_spec r now Hour maxMetricsRange) as Hp.
    destruct (parseTimeRange _ _ _ _) as [[from to]|e]; [|subst e; by left]. right. exists from, to, (limitOrDefault r 200).
    destruct Hp as (H1 & _ & _ & H4 & _). specialize (H4 Hmax). unfold maxMetricsRange in H4.
    split; [lia|]. split; [apply limitOrDefault_range; lia|done].
  - pose proof (parseTimeRange_spec r now defaultMetricsWindow maxMetricsRange) as Hp.
    destruct (parseTimeRange _ _ _ _) as [[from to]|e]; [|subst e; by left]. right. exists from, to, (limitOrDefault r 200).
    destruct Hp as (H1 & _ & _ & H4 & _). specialize (H4 Hmax). unfold maxMetricsRange in H4.
    split; [lia|]. split; [apply limitOrDefault_range; lia|done].
Qed.
End Bounded.

(** ** Candles *)

Section Served.
Context {G : Type} `{RandSource G}.
Implicit Types (w : World (G := G)) (e : Engine G).

Lemma candle_payloads_snoc sym active closed c :
  candle_payloads sym active (closed ++ [c]) =
  map (fun c => CandlePayloadFrom sym c false) closed ++ [CandlePayloadFrom sym c active].
Proof.
  induction closed as [|d closed IH]; cbn [app candle_payloads map]; [by rewrite andb_true_r|].
  rewrite IH. f_equal. by destruct closed; rewrite andb_false_r.
Qed.

(** The closed candles and the running one of a history that ends with it. *)
Definition rendered (sym : Symbol) (cs : list Candle) : list CandlePayload :=
  map (fun c => CandlePayloadFrom sym c false) (removelast cs) ++
  option_list ((fun c => CandlePayloadFrom sym c true) <$> last cs).

Lemma candle_payloads_rendered sym cs : candle_payloads sym (negb (bool_decide (cs = []))) cs = rendered sym cs.
Proof.
  destruct cs as [|c closed _] using rev_ind; [done|]. rewrite bool_decide_eq_false_2 by (by destruct closed).
  rewrite candle_payloads_snoc. unfold rendered. by rewrite removelast_last, last_snoc.
Qed.

(** The interval asked for; one minute unless it is given. *)
Definition interval_asked (r : Request) : string :=
  let raw := Query_Get r "interval" in if decide (raw = "") then "1m" else raw.

(** C19: the candle endpoint on every branch, for a market whose engine went through
    any history.  No engine for the symbol is 404, an unknown interval 400, a limit
    outside 1 to 1000 400; otherwise the answer is 200 with the last candles of the
    accepted trades, at most [limit] and at most one more than the history depth,
    of which only the newest is marked active.  The handler never panics, and the
    debug switch only empties the list. *)
Theorem candles_served w (r : Request) now cfg caps rng snap os id sym e0 e ts out :
  New cfg caps rng snap = Ok e0 -> exec_all e0 [] os = Some (e, ts, out) ->
  Forall (fun t => in_i64 (trQuantity t)) ts ->
  symbolFrom r = Some sym -> lookup_engine w sym = Some (id, e) ->
  (forall r', engineFrom w r' = None -> H_candles w r' now = Some (writeError 404 codeSymbolNotFound)) /\
  match ParseInterval (interval_asked r), limitFrom r 500 1000 with
  | Err _, _ => H_candles w r now = Some (writeError 400 codeUnsupportedInterval)
  | Ok _, Err _ => H_candles w r now = Some (writeError 400 codeInvalidLimit)
  | Ok iv, Ok limit =>
      1 <= limit <= 1000 /\
      let depth := cfHistoryDepth (withDefaults cfg) in
      let shown := lastn (Z.to_nat (Z.min limit (depth + 1))) (candles (ID (cfSymbol cfg)) iv ts) in
      H_candles w r now =
        Some (mkResponse 200 (BCandles (ID sym) (IntervalID iv) limit
                (if EmptyHistory w then [] else rendered sym shown) (FormatTime now)))
  end.
Proof.
  intros Hn He Hq Hs Hw. split; [by intros r' Hr'; unfold H_candles; rewrite Hr'|].
  destruct (New_rep _ _ _ _ _ Hn) as [Hr Hc]. destruct (exec_all_rep _ _ _ _ _ _ Hr He) as [Hr' Hc']. rewrite Hc in Hc'.
  assert (Hd : 0 < cfHistoryDepth (withDefaults cfg)) by (simpl; split_if; lia).
  assert (HE : engineFrom w r = Some (sym, e)) by (unfold engineFrom; rewrite Hs; cbn [mbind option_bind]; by rewrite Hw).
  unfold H_candles. rewrite HE.
  replace (if bool_decide (Query_Get r "interval" = "") then IntervalID Interval1m else Query_Get r "interval")
    with (interval_asked r) by (unfold interval_asked; case_bool_decide; by destruct (decide _)).
  destruct (ParseInterval (interval_asked r)) as [iv|err]; [|done].
  pose proof (limitFrom_spec r 500 1000) as Hl. pose proof (limitFrom_err r 500 1000) as Hle.
  destruct (limitFrom r 500 1000) as [limit|err]; [|by rewrite (Hle err eq_refl)].
  assert (Hlim : 1 <= limit <= 1000) by (destruct (Hl limit eq_refl) as [->|[_ ?]]; lia). split; [exact Hlim|].
  cbv zeta. destruct (EmptyHistory w); [done|].
  rewrite (Engine_Candles_spec e ts iv limit Hr' Hq) by (by rewrite Hc'). cbn [mbind option_bind]. rewrite Hc'.
  change (cfSymbol (withDefaults cfg)) with (cfSymbol cfg). set (cs := candles _ _ _).
  set (depth := cfHistoryDepth (withDefaults cfg)) in *. unfold history_bound.
  rewrite (proj2 (Z.leb_gt limit 0)) by lia. set (n := Z.to_nat (Z.min limit (depth + 1))).
  do 3 f_equal. rewrite <- candle_payloads_rendered. f_equal. f_equal. apply bool_decide_ext.
  assert (Hn0 : (0 < n)%nat) by (unfold n; lia). pose proof (length_lastn n cs) as Hlen.
  split; [intros ->; by rewrite lastn_all by (cbn; lia)|]. intros E. rewrite E in Hlen. destruct cs; [done|cbn in Hlen; lia].
Qed.

(** ** Health *)

Lemma engine_reasons_spec w symbols :
  (engine_reasons w symbols = [] <->
   forall sym id e, sym ∈ symbols -> lookup_engine w sym = Some (id, e) -> unhealthy (enState e) = false) /\
  (forall sym id e, sym ∈ symbols -> lookup_engine w sym = Some (id, e) -> unhealthy (enState e) = true ->
     ("engine_" ++ State_String (enState e) ++ ":" ++ ID sym)%string ∈ engine_reasons w symbols).
Proof.
  induction symbols as [|s symbols [IH1 IH2]]; [by split; [split; [|done]; intros _ ? ? ? ?%elem_of_nil|intros ? ? ? ?%elem_of_nil]|].
  cbn [engine_reasons]. destruct (lookup_engine w s) as [[id0 e0]|] eqn:Hl.
  - destruct (unhealthy (enState e0)) eqn:Hu.
    + split; [split; [done|]|].
      * intros Hall. specialize (Hall s id0 e0 (list_elem_of_here _ _) Hl). congruence.
      * intros sym id e Hin Hle Hue. apply elem_of_cons in Hin as [->|Hin]; [|right; by eapply IH2].
        rewrite Hl in Hle. injection Hle as <- <-. by left.
    + split.
      * rewrite IH1. split; intros Hall sym id e Hin Hle; [|eapply Hall; [by right|done]].
        apply elem_of_cons in Hin as [->|Hin]; [congruence|by eapply Hall].
      * intros sym id e Hin Hle Hue. apply elem_of_cons in Hin as [->|Hin]; [congruence|by eapply IH2].
  - split.
    + rewrite IH1. split; intros Hall sym id e Hin Hle; [|eapply Hall; [by right|done]].
      apply elem_of_cons in Hin as [->|Hin]; [congruence|by eapply Hall].
    + intros sym id e Hin Hle Hue. apply elem_of_cons in Hin as [->|Hin]; [congruence|by eapply IH2].
Qed.

Definition engines_healthy (w : World) : Prop :=
  forall sym id e, sym ∈ Symbols (woRegistry w) -> lookup_engine w sym = Some (id, e) ->
    enState e <> StateStopped /\ enState e <> StateDegraded.

(** The health document blames exactly the layers that are unhealthy.  It is
    answered 200 with status ok, and without reasons, when every registered
    market's engine is neither stopped nor degraded (a paused one is healthy) and
    the metrics store is not degraded; otherwise it is answered 503 as degraded,
    every unhealthy engine is named with its market, and the store is named if and
    only if its last write failed. *)
Theorem health_graded {R : Type} `{Repository R} w (s : Store R) schema version startedAt now :
  mcEnabled (stCfg s) = true ->
  let rs := detailed w (Some (health_of_store (Store_Health s schema))) version startedAt now in
  exists p, rsBody rs = BHealth p /\
    (rsStatus rs = 200 <-> engines_healthy w /\ stWriteErr s = None) /\
    (rsStatus rs = 200 \/ rsStatus rs = 503) /\
    (rsStatus rs = 200 <-> hdStatus p = "ok" /\ hdReasons p = []) /\
    (forall sym id e, sym ∈ Symbols (woRegistry w) -> lookup_engine w sym = Some (id, e) ->
       enState e = StateStopped \/ enState e = StateDegraded ->
       ("engine_" ++ State_String (enState e) ++ ":" ++ ID sym)%string ∈ hdReasons p) /\
    (stWriteErr s <> None -> "metrics_store_degraded" ∈ hdReasons p).
Proof.
  intros Hen. cbv zeta. unfold detailed. cbn [default from_option id rsBody rsStatus].
  assert (Hm : mhStatus (health_of_store (Store_Health s schema)) = match stWriteErr s with Some _ => "degraded" | None => "ok" end).
  { unfold Store_Health. rewrite Hen. cbn. by destruct (stWriteErr s). }
  rewrite Hm. destruct (engine_reasons_spec w (Symbols (woRegistry w))) as [Hnil Hin].
  assert (Hun : forall st, unhealthy st = true <-> st = StateStopped \/ st = StateDegraded) by (intros st; unfold unhealthy; by rewrite orb_true_iff, !bool_decide_eq_true).
  eexists. split; [reflexivity|]. cbn [hdStatus hdReasons].
  assert (Hok : engine_reasons w (Symbols (woRegistry w)) = [] <-> engines_healthy w).
  { unfold engines_healthy. rewrite Hnil. split; intros Ha sym id e H1 H2; specialize (Ha sym id e H1 H2); rewrite <- not_true_iff_false, Hun in *; tauto. }
  rewrite <- Hok.
  assert (Hmem : forall sym id e, sym ∈ Symbols (woRegistry w) -> lookup_engine w sym = Some (id, e) ->
       enState e = StateStopped \/ enState e = StateDegraded ->
       ("engine_" ++ State_String (enState e) ++ ":" ++ ID sym)%string ∈ engine_reasons w (Symbols (woRegistry w))).
  { intros sym id e H1 H2 H3. eapply Hin; [done..|]. by apply Hun. }
  clear Hnil Hin Hok. unfold StatusOK, StatusServiceUnavailable. destruct (stWriteErr s) as [x|].
  - rewrite (bool_decide_eq_true_2 ("degraded" = "degraded")) by done.
    destruct (engine_reasons w _ ++ ["metrics_store_degraded"]) as [|y l] eqn:El; [by destruct (engine_reasons w _)|].
    rewrite (bool_decide_eq_false_2 ("degraded" = "ok")) by done.
    split; [intuition congruence|]. split; [by right|]. split; [intuition congruence|]. rewrite <- El. split.
    + intros sym id e H1 H2 H3. apply elem_of_app. left. by eapply Hmem.
    + intros _. apply elem_of_app. right. by left.
  - rewrite (bool_decide_eq_false_2 ("ok" = "degraded")) by done. rewrite app_nil_r.
    destruct (engine_reasons w _) as [|y l].
    + rewrite (bool_decide_eq_true_2 ("ok" = "ok")) by done. intuition congruence.
    + rewrite (bool_decide_eq_false_2 ("degraded" = "ok")) by done. intuition congruence.
Qed.
End Served.

(** ** Concrete inputs *)

Definition demo_manager : Manager :=
  NewManager (mkManagerConfig None BTCUSDT None ∅ 256 20 15 false).
Definition demo_world (e : Engine PCG) : World :=
  mkWorld (Some (Registry.mkRegistry {["BTCUSDT" := "BTCUSDT"]} [BTCUSDT])) {["BTCUSDT" := e]} BTCUSDT
    (Some NewDebugState) demo_manager.
Definition ask (q : list (string * string)) : Request := mkRequest "BTCUSDT" "" q None.

(** Two accepted trades in different five-minute buckets; one candle is asked
    for. *)
Lemma candles_served_witness :
  match demo_new with
  | Ok e0 =>
      match exec_all e0 [] demo_ops with
      | Some (e, ts, _) =>
          let r := ask [("interval", "5m"); ("limit", "1")] in
          H_candles (demo_world e) r (unixNanos 0) =
          Some (mkResponse 200 (BCandles "BTCUSDT" "5m" 1 (rendered BTCUSDT (lastn 1 (candles "BTCUSDT" Interval5m ts)))
                  (FormatTime (unixNanos 0))))
      | None => False
      end
  | Err _ => False
  end.
Proof.
  destruct demo_new as [e0|] eqn:E; [|vm_compute in E; discriminate E].
  assert (Hts : (fun p => snd (fst p)) <$> exec_all e0 [] demo_ops = Some [demo_trade 1 0 102 4; demo_trade 2 300 103 1])
    by (vm_compute in E; injection E as <-; vm_compute; reflexivity).
  destruct (exec_all e0 [] demo_ops) as [[[e ts] out]|] eqn:Eo; [|discriminate Hts].
  cbn [fmap option_fmap option_map fst snd] in Hts. injection Hts as ->.
  destruct (candles_served (demo_world e) (ask [("interval", "5m"); ("limit", "1")]) (unixNanos 0) demo_cfg
    (mkCaps true true true) NewPCG (Ok demo_snapshot) demo_ops "BTCUSDT" BTCUSDT e0 e
    [demo_trade 1 0 102 4; demo_trade 2 300 103 1] out E Eo) as [_ Hc].
  - repeat constructor; vm_compute; discriminate.
  - reflexivity.
  - reflexivity.
  - exact (proj2 Hc).
Defined.

Definition failing_store : Store MemRepo :=
  mkStore demo_metrics (startWriter (R := MemRepo) demo_metrics) NewRepository (newRecordQueue 2) [] None (Some DriverFailed)
    (mkCounters 0 2 0 0 0 0) false.

(** The store's last write failed: the paused market is fine, the store is named. *)
Lemma health_graded_witness :
  match demo_new with
  | Ok e0 =>
      let w := demo_world (setState e0 StatePaused) in
      mcEnabled (stCfg failing_store) = true /\
      rsStatus (detailed w (Some (health_of_store (Store_Health failing_store 0))) "1.0.0" (unixNanos 0) (unixNanos 0)) = 503
  | Err _ => False
  end.
Proof.
  destruct demo_new as [e0|] eqn:E; [|vm_compute in E; discriminate E]. split; [reflexivity|].
  destruct (health_graded (demo_world (setState e0 StatePaused)) failing_store 0 "1.0.0" (unixNanos 0) (unixNanos 0) eq_refl)
    as (p & _ & Hs & [H200|H503] & _); [|exact H503].
  apply Hs in H200 as [_ Hf]. discriminate Hf.
Defined.

Example limits :
  (limitFrom (ask []) 500 1000, limitFrom (ask [("limit", "1000")]) 500 1000, limitFrom (ask [("limit", "0")]) 500 1000,
   limitFrom (ask [("limit", "ten")]) 500 1000, limitOrDefault (ask [("limit", "5000")]) 200,
   windowFrom (ask [("window", "48h")]) defaultMetricsWindow, bucketFrom (ask [("bucket", "10ms")]) (5 * Second)) =
  (Ok 500, Ok 1000, Err ErrInvalidLimit, Err ErrInvalidLimit, 1000, 24 * Hour, Second).
Proof. vm_compute. reflexivity. Qed.

(** A negative window passes; the store replaces it by its own default. *)
Example negative_window : windowFrom (ask [("window", "-5m")]) defaultMetricsWindow = - 5 * Minute.
Proof. vm_compute. reflexivity. Qed.
