(* ===== verification/Obs.v ===== *)
(** * Process counters and gauges: [internal/observability/registry.go]

    A counter exists from the first time it is named, whether it is written or
    only read.  The locks and atomics only order whole operations.  [report] is
    one tick of [reportGauges] in [cmd/server/main.go]. *)

From Stdlib Require Import Ascii.
From stdpp Require Import strings.
From S2P Require Import Prelude Money Decimal TimeTextSpec StableSort.

Record Registry := mkObs { obCounters : gmap string Z; obGauges : gmap string Z }.
Definition NewRegistry : Registry := mkObs ∅ ∅.

(** The existing cell of a name, or a fresh one at zero. *)
Definition cell_of (m : gmap string Z) (name : string) : gmap string Z :=
  match m !! name with Some _ => m | None => <[name := 0]> m end.
Definition Add_cell (m : gmap string Z) (name : string) (n : Z) : gmap string Z :=
  alter (fun v => i64 (v + n)) name (cell_of m name).

Definition Inc (r : Registry) (name : string) : Registry := mkObs (Add_cell (obCounters r) name 1) (obGauges r).
Definition Add (r : Registry) (name : string) (n : Z) : Registry :=
  if n =? 0 then r else mkObs (Add_cell (obCounters r) name n) (obGauges r).
Definition SetGauge (r : Registry) (name : string) (v : Z) : Registry :=
  mkObs (obCounters r) (<[name := v]> (cell_of (obGauges r) name)).
Definition Counter (r : Registry) (name : string) : Registry * Z :=
  let m := cell_of (obCounters r) name in (mkObs m (obGauges r), default 0 (m !! name)).
Definition Gauge (r : Registry) (name : string) : Registry * Z :=
  let m := cell_of (obGauges r) name in (mkObs (obCounters r) m, default 0 (m !! name)).

(** Gauges are written over the counters, under their prefixed names. *)
Definition gauge_name (name : string) : string := ("gauge." ++ name)%string.
Definition Snapshot (r : Registry) : gmap string Z :=
  map_fold (fun name v out => <[gauge_name name := v]> out) (obCounters r) (obGauges r).

Definition CounterNames (r : Registry) : list string :=
  stable_sort (fun a b => text_ltb (txt a) (txt b)) (map_to_list (obCounters r)).*1.

(** [LiveMetrics] of [internal/transport/http/metrics_handlers.go]. *)
Definition LiveMetrics (r : option Registry) : gmap string Z :=
  match r with None => ∅ | Some r => Snapshot r end.

(** ** One tick of the gauges *)

Record EngineGauges := mkEngineGauges { egEventIndex : Z; egUpdateID : Z; egEpoch : Z }.
Definition report (r : Registry) (engine : option EngineGauges) (subscribers : list Z) (sessions : Z) : Registry :=
  let r := match engine with
           | Some e => SetGauge (SetGauge (SetGauge r "engine_event_index" (i64 (egEventIndex e)))
                         "engine_update_id" (i64 (egUpdateID e))) "engine_epoch" (i64 (egEpoch e))
           | None => r
           end in
  let total := fold_left (fun t n => i64 (t + n)) subscribers 0 in
  SetGauge (SetGauge r "sessions_active" sessions) "bus_subscribers" total.

(** ** The snapshot *)

Lemma cell_of_lookup m name k : cell_of m name !! k = match m !! k with Some v => Some v | None => if decide (k = name) then Some 0 else None end.
Proof.
  unfold cell_of. destruct (m !! name) eqn:E.
  - destruct (m !! k) eqn:Ek; [done|]. destruct (decide (k = name)); congruence.
  - destruct (decide (k = name)) as [->|Hne]; [by rewrite lookup_insert_eq, E|]. rewrite lookup_insert_ne by done. by destruct (m !! k).
Qed.
Lemma Add_cell_lookup m name n k :
  Add_cell m name n !! k = if decide (k = name) then Some (i64 (default 0 (m !! name) + n)) else m !! k.
Proof.
  unfold Add_cell. destruct (decide (k = name)) as [->|Hne].
  - rewrite lookup_alter_eq, cell_of_lookup. destruct (m !! name); [done|]. by rewrite decide_True.
  - rewrite lookup_alter_ne, cell_of_lookup by done. destruct (m !! k); [done|]. by rewrite decide_False.
Qed.

Lemma gauge_name_inj a b : gauge_name a = gauge_name b -> a = b.
Proof. unfold gauge_name. intros Hn. by apply (inj (String.append _)) in Hn. Qed.

Lemma Snapshot_lookup r k :
  Snapshot r !! k =
    match list_find (fun p => gauge_name (fst p) = k) (map_to_list (obGauges r)) with
    | Some (_, (_, v)) => Some v
    | None => obCounters r !! k
    end.
Proof.
  unfold Snapshot. rewrite map_fold_foldr. induction (map_to_list (obGauges r)) as [|[name v] l IH]; [done|].
  cbn [foldr uncurry list_find fst snd]. destruct (decide (gauge_name name = k)) as [<-|Hne]; [by rewrite lookup_insert_eq|].
  rewrite lookup_insert_ne by done. rewrite IH. by destruct (list_find _ l) as [[? [? ?]]|].
Qed.

Lemma Snapshot_gauge r name : Snapshot r !! gauge_name name =
  match obGauges r !! name with Some v => Some v | None => obCounters r !! gauge_name name end.
Proof.
  rewrite Snapshot_lookup. destruct (list_find _ _) as [[i [name' v]]|] eqn:E.
  - apply list_find_Some in E as (Hl & Hn & _). cbn [fst] in Hn. apply gauge_name_inj in Hn as ->.
    apply list_elem_of_lookup_2, elem_of_map_to_list in Hl. by rewrite Hl.
  - apply list_find_None in E. destruct (obGauges r !! name) as [v|] eqn:Eg; [|done].
    rewrite Forall_forall in E. apply elem_of_map_to_list in Eg. by destruct (E _ Eg).
Qed.

(** ** Histories *)

Inductive ObsOp := OInc (name : string) | OAdd (name : string) (n : Z) | OSet (name : string) (v : Z)
| OReadCounter (name : string) | OReadGauge (name : string).
Definition obs_op (r : Registry) (o : ObsOp) : Registry :=
  match o with
  | OInc name => Inc r name | OAdd name n => Add r name n | OSet name v => SetGauge r name v
  | OReadCounter name => fst (Counter r name) | OReadGauge name => fst (Gauge r name)
  end.

(** What an operation adds to the counter [name]. *)
Definition added (name : string) (o : ObsOp) : Z :=
  match o with
  | OInc k => if decide (k = name) then 1 else 0
  | OAdd k n => if decide (k = name) then n else 0
  | _ => 0
  end.
Fixpoint last_set (name : string) (ops : list ObsOp) : Z :=
  match ops with
  | [] => 0
  | OSet k v :: ops => if decide (k = name) then v else last_set name ops
  | _ :: ops => last_set name ops
  end.
Definition total (name : string) (ops : list ObsOp) : Z := fold_left (fun t o => t + added name o) ops 0.

Lemma run_counters_rev l name :
  let r := fold_left obs_op (rev l) NewRegistry in
  default 0 (obCounters r !! name) = i64 (total name (rev l)) /\ default 0 (obGauges r !! name) = last_set name l.
Proof.
  cbv zeta. induction l as [|o l [IHc IHg]]; [by cbn; rewrite !lookup_empty|].
  cbn [rev]. unfold total in *. rewrite !fold_left_app. cbn [fold_left].
  set (r := fold_left obs_op (rev l) NewRegistry) in *. set (t := fold_left _ (rev l) 0) in *.
  destruct o as [k|k n|k v|k|k]; cbn [obs_op added last_set]; unfold Inc, Add, SetGauge, Counter, Gauge; cbn [fst].
  - cbn [obCounters obGauges]. rewrite Add_cell_lookup. split; [|done].
    destruct (decide (name = k)) as [->|Hne]; [rewrite decide_True by done; cbn; by rewrite IHc, i64_add_l|].
    by rewrite decide_False, Z.add_0_r by congruence.
  - destruct (Z.eqb_spec n 0) as [->|Hn]; [split; [|done]; rewrite IHc; destruct (decide (k = name)); by rewrite Z.add_0_r|].
    cbn [obCounters obGauges]. rewrite Add_cell_lookup. split; [|done].
    destruct (decide (name = k)) as [->|Hne]; [rewrite decide_True by done; cbn; by rewrite IHc, i64_add_l|].
    by rewrite decide_False, Z.add_0_r by congruence.
  - cbn [obCounters obGauges]. rewrite Z.add_0_r. split; [done|].
    destruct (decide (k = name)) as [->|Hne]; [by rewrite lookup_insert_eq|]. rewrite lookup_insert_ne, cell_of_lookup by done.
    rewrite <- IHg. destruct (obGauges r !! name); [done|]. by rewrite decide_False by congruence.
  - cbn [obCounters obGauges]. rewrite Z.add_0_r, cell_of_lookup. split; [|done].
    rewrite <- IHc. destruct (obCounters r !! name); [done|]. by destruct (decide (name = k)).
  - cbn [obCounters obGauges]. rewrite Z.add_0_r, cell_of_lookup. split; [done|].
    rewrite <- IHg. destruct (obGauges r !! name); [done|]. by destruct (decide (name = k)).
Qed.

(** A counter is the wrapped sum of its increments, a gauge its last value, and
    the snapshot shows both, whichever names were read meanwhile. *)
Theorem snapshot_totals ops name :
  let r := fold_left obs_op ops NewRegistry in
  snd (Counter r name) = i64 (total name ops) /\ snd (Gauge r name) = last_set name (rev ops) /\
  ((forall k, gauge_name k <> name) -> default 0 (Snapshot r !! name) = i64 (total name ops)) /\
  (is_Some (obGauges r !! name) -> Snapshot r !! gauge_name name = Some (last_set name (rev ops))).
Proof.
  cbv zeta. pose proof (run_counters_rev (rev ops) name) as Hr. rewrite rev_involutive in Hr. cbv zeta in Hr.
  set (r := fold_left obs_op ops NewRegistry) in *. destruct Hr as [Hc Hg]. unfold Counter, Gauge. cbn [snd].
  rewrite !cell_of_lookup. split; [|split; [|split]].
  - rewrite <- Hc. destruct (obCounters r !! name); [done|]. by rewrite decide_True.
  - rewrite <- Hg. destruct (obGauges r !! name); [done|]. by rewrite decide_True.
  - intros Hk. rewrite Snapshot_lookup. destruct (list_find _ _) as [[i [k v]]|] eqn:E; [|done].
    apply list_find_Some in E as (_ & Hn & _). by destruct (Hk k).
  - intros [v Hv]. rewrite Snapshot_gauge, Hv. rewrite <- Hg, Hv. done.
Qed.
