(* ===== verification/Migrate.v ===== *)
(** * Schema migrations: [internal/metrics/sqlite/migrate.go]

    The embedded files are read, checked and ordered by version; those not yet
    recorded are applied one by one.  The database executes a script and reports
    whether it failed; the hash of a file is a parameter ([crypto/sha256] in
    hexadecimal). *)

From Stdlib Require Import Ascii.
From S2P Require Import Prelude Money GoTime Decimal Domain Wire Strconv StableSort Metrics Sqlite.

(** ** File names *)

Definition HasSuffix (s suffix : text) : bool := bool_decide (drop (length s - length suffix) s = suffix).
Definition TrimSuffix (s suffix : text) : text := if HasSuffix s suffix then take (length s - length suffix) s else s.

(** Around the first separator. *)
Fixpoint Cut (s : text) (sep : ascii) : option (text * text) :=
  match s with
  | [] => None
  | c :: s => if Ascii.eqb c sep then Some ([], s) else '(before, after) ← Cut s sep; Some (c :: before, after)
  end.

Inductive MigrateError :=
| ErrCreate | ErrReadApplied | ErrReadFile | ErrName | ErrDuplicateVersion | ErrMigrationChecksum | ErrApply.

Definition parseMigrationName (name : text) : (Z * text) + MigrateError :=
  let stem := TrimSuffix name (txt ".sql") in
  match Cut stem "_" with
  | None => inr ErrName
  | Some (prefix, rest) =>
      match Atoi prefix with
      | Some version => if version <=? 0 then inr ErrName else inl (version, rest)
      | None => inr ErrName
      end
  end.

(** ** Embedded files *)

Record dirEntry := mkEntry { enName : text; enIsDir : bool; enBody : option text }.
Record migration := mkMigration { mgVersion : Z; mgName : text; mgChecksum : text; mgSQL : text }.

(** The parts of a script: [SqlRecord] inserts a row into [schema_migrations]. *)
Inductive Sql :=
| SqlBegin | SqlText (s : text) | SqlRecord (version : Z) (appliedAt checksum : text) | SqlCommit | SqlRollback.

Class SchemaDB (D : Type) := {
  sdCreate : D -> D * bool;
  sdApplied : D -> option (gmap Z text);
  sdExec : D -> list Sql -> D * bool }.

Section Migrate.
Context (checksum : text -> text).

Fixpoint read_entries (entries : list dirEntry) (seen : list Z) (out : list migration) : list migration + MigrateError :=
  match entries with
  | [] => inl out
  | e :: entries =>
      if enIsDir e || negb (HasSuffix (enName e) (txt ".sql")) then read_entries entries seen out
      else
        match enBody e with
        | None => inr ErrReadFile
        | Some body =>
            match parseMigrationName (enName e) with
            | inr err => inr err
            | inl (version, name) =>
                if existsb (Z.eqb version) seen then inr ErrDuplicateVersion
                else read_entries entries (version :: seen) (out ++ [mkMigration version name (checksum body) body])
            end
        end
  end.

(** Versions are distinct, so every sort gives the same order. *)
Definition migrationFiles (entries : list dirEntry) : list migration + MigrateError :=
  match read_entries entries [] [] with
  | inl out => inl (stable_sort (fun a b => mgVersion a <? mgVersion b) out)
  | inr e => inr e
  end.

(** ** Applying *)

Definition script (m : migration) (now : Time) : list Sql :=
  [SqlBegin; SqlText (mgSQL m); SqlRecord (mgVersion m) (encodeTime (tUTC now)) (mgChecksum m); SqlCommit].

Context {D : Type} `{SchemaDB D}.

Definition applyMigration (d : D) (m : migration) (now : Time) : D * option MigrateError :=
  let '(d, ok) := sdExec d (script m now) in
  if ok : bool then (d, None) else (fst (sdExec d [SqlRollback]), Some ErrApply).

(** [applied] is read once, before the loop. *)
Fixpoint migrate_loop (applied : gmap Z text) (now : Z -> Time) (files : list migration) (d : D) (version : Z)
    : D * (Z + MigrateError) :=
  match files with
  | [] => (d, inl version)
  | m :: files =>
      match applied !! mgVersion m with
      | Some appliedVersion =>
          if bool_decide (appliedVersion = mgChecksum m) then migrate_loop applied now files d (mgVersion m)
          else (d, inr ErrMigrationChecksum)
      | None =>
          let '(d, err) := applyMigration d m (now (mgVersion m)) in
          match err with
          | Some e => (d, inr e)
          | None => migrate_loop applied now files d (mgVersion m)
          end
      end
  end.

Definition migrate (entries : list dirEntry) (now : Z -> Time) (d : D) : D * (Z + MigrateError) :=
  let '(d, ok) := sdCreate d in
  if negb ok then (d, inr ErrCreate)
  else
    match sdApplied d with
    | None => (d, inr ErrReadApplied)
    | Some applied =>
        match migrationFiles entries with
        | inr e => (d, inr e)
        | inl files => migrate_loop applied now files d 0
        end
    end.
End Migrate.

(** ** The files are ordered *)

Section Files.
Context (checksum : text -> text).

Lemma read_entries_spec entries seen out files :
  read_entries checksum entries seen out = inl files ->
  (forall v, v ∈ seen <-> v ∈ map mgVersion out) -> NoDup (map mgVersion out) -> Forall (fun m => 0 < mgVersion m) out ->
  NoDup (map mgVersion files) /\ Forall (fun m => 0 < mgVersion m) files.
Proof.
  revert seen out. induction entries as [|e entries IH]; intros seen out; cbn [read_entries]; [by intros [= <-]|].
  intros Hr Hseen Hnd Hpos. destruct (enIsDir e || _); [by eapply IH|]. destruct (enBody e) as [body|]; [|done].
  unfold parseMigrationName in Hr. destruct (Cut _ _) as [[prefix rest]|]; [|done].
  destruct (Atoi prefix) as [version|]; [|done]. destruct (Z.leb_spec version 0); [done|].
  destruct (existsb (Z.eqb version) seen) eqn:Hex; [done|].
  assert (Hnew : version ∉ seen).
  { intros Hin. apply not_true_iff_false in Hex. apply Hex, existsb_exists. exists version.
    split; [by apply list_elem_of_In|apply Z.eqb_refl]. }
  eapply IH; [exact Hr|..].
  - intros v. rewrite map_app, elem_of_app, elem_of_cons. cbn [map]. rewrite list_elem_of_singleton, Hseen. cbn [mgVersion]. tauto.
  - rewrite map_app. apply NoDup_app. split; [done|]. split; [|apply NoDup_singleton].
    intros v Hv. cbn [map mgVersion]. rewrite list_elem_of_singleton. intros ->. by apply Hnew, Hseen.
  - apply Forall_app. split; [done|]. by constructor.
Qed.

Lemma migrationFiles_spec entries files :
  migrationFiles checksum entries = inl files ->
  StronglySorted Z.lt (map mgVersion files) /\ Forall (fun m => 0 < mgVersion m) files.
Proof.
  unfold migrationFiles. destruct (read_entries checksum entries [] []) as [out|] eqn:Hr; [|done]. intros [= <-].
  destruct (read_entries_spec _ _ _ _ Hr) as [Hnd Hpos]; [done|constructor|constructor|].
  set (less := fun a b => mgVersion a <? mgVersion b).
  pose proof (order_key mgVersion : Order less) as Ho. pose proof (stable_sort_sorted less out) as Hs.
  pose proof (stable_sort_perm less out) as Hp.
  assert (Hnd' : NoDup (map mgVersion (stable_sort less out))) by (by rewrite Hp).
  split; [|by rewrite Hp]. clear -Hs Hnd'. induction Hs as [|m l _ IH Hm]; [constructor|].
  cbn [map] in *. apply NoDup_cons in Hnd' as [Hni Hnd]. constructor; [by apply IH|].
  apply Forall_map, Forall_forall. intros x Hx. rewrite Forall_forall in Hm. pose proof (Hm x Hx) as Hle.
  unfold not_after, less in Hle. apply Z.ltb_ge in Hle.
  assert (mgVersion m <> mgVersion x) by (intros E; apply Hni; rewrite E; by apply list_elem_of_fmap_2). lia.
Qed.
End Files.

(** ** Migrating *)

(** What the runner relies on: creating the table keeps what it records, a
    script is one transaction, and a rollback after a failed one undoes it. *)
Class SchemaLaws {D : Type} `{SchemaDB D} (recorded : D -> gmap Z text) : Prop := {
  create_keeps d : recorded (fst (sdCreate d)) = recorded d;
  applied_reads d m : sdApplied d = Some m -> m = recorded d;
  script_commits d d' m now :
    sdExec d (script m now) = (d', true) -> recorded d' = <[mgVersion m := mgChecksum m]> (recorded d);
  script_rolls_back d d' m now :
    sdExec d (script m now) = (d', false) -> recorded (fst (sdExec d' [SqlRollback])) = recorded d }.

Section Spec.
Context (checksum : text -> text) {D : Type} `{SchemaDB D} {recorded : D -> gmap Z text} `{!SchemaLaws recorded}.

Definition matches (applied : gmap Z text) (m : migration) : Prop :=
  forall c, applied !! mgVersion m = Some c -> c = mgChecksum m.

Lemma migrate_loop_spec applied now files d version :
  applied ⊆ recorded d -> StronglySorted Z.lt (map mgVersion files) ->
  (forall m, m ∈ files -> applied !! mgVersion m = None -> recorded d !! mgVersion m = None) ->
  let '(d', result) := migrate_loop applied now files d version in
  recorded d ⊆ recorded d' /\
  (forall v, v ∉ map mgVersion files -> recorded d' !! v = recorded d !! v) /\
  match result with
  | inl v =>
      (forall m, m ∈ files -> recorded d' !! mgVersion m = Some (mgChecksum m)) /\
      Forall (matches applied) files /\ v = default version (last (map mgVersion files))
  | inr ErrMigrationChecksum => exists m c, m ∈ files /\ applied !! mgVersion m = Some c /\ c <> mgChecksum m
  | inr e => e = ErrApply
  end.
Proof.
  revert d version. induction files as [|m files IH]; intros d version Ha Hs Hnew; cbn [migrate_loop].
  { split; [done|]. split; [done|]. split; [by intros ? ?%elem_of_nil|]. done. }
  cbn [map] in Hs. apply StronglySorted_inv in Hs as [Hs Hm].
  assert (Hni : mgVersion m ∉ map mgVersion files).
  { intros Hin. rewrite Forall_forall in Hm. specialize (Hm _ Hin). lia. }
  assert (Hlast : default version (last (map mgVersion (m :: files))) = default (mgVersion m) (last (map mgVersion files))).
  { cbn [map]. rewrite last_cons. by destruct (last (map mgVersion files)). }
  destruct (applied !! mgVersion m) as [c|] eqn:Ea.
  - case_bool_decide as Hc.
    + pose proof (IH d (mgVersion m) Ha Hs) as Hi. destruct (migrate_loop _ _ files d _) as [d' result].
      destruct Hi as (H1 & H2 & H3); [intros x Hx; apply Hnew; by right|].
      assert (Hrec : recorded d' !! mgVersion m = Some (mgChecksum m)).
      { rewrite <- Hc. eapply lookup_weaken; [exact Ea|]. by transitivity (recorded d). }
      split; [done|]. split; [intros v Hv; apply H2; cbn [map] in Hv; by apply not_elem_of_cons in Hv as [_ Hv]|].
      destruct result as [v|e].
      * destruct H3 as (H4 & H5 & H6). split; [intros x Hx; apply elem_of_cons in Hx as [->|Hx]; [done|by apply H4]|].
        split; [constructor; [|done]; intros c' Hc'; congruence|]. by rewrite Hlast.
      * destruct e; try done. destruct H3 as (x & c' & Hx & H3). exists x, c'. split; [by right|done].
    + split; [done|]. split; [done|]. exists m, c. split; [by left|done].
  - unfold applyMigration. destruct (sdExec d (script m (now (mgVersion m)))) as [d1 ok] eqn:He. destruct ok.
    + pose proof (script_commits _ _ _ _ He) as Hrec.
      assert (Hnone : recorded d !! mgVersion m = None) by (apply Hnew; [by left|done]).
      assert (Hsub : recorded d ⊆ recorded d1) by (rewrite Hrec; by apply insert_subseteq).
      pose proof (IH d1 (mgVersion m) ltac:(by transitivity (recorded d)) Hs) as Hi. destruct (migrate_loop _ _ files d1 _) as [d' result].
      destruct Hi as (H1 & H2 & H3).
      { intros x Hx Hx'. rewrite Hrec, lookup_insert_ne; [apply Hnew; [by right|done]|].
        intros E. apply Hni. rewrite E. by apply list_elem_of_fmap_2. }
      split; [by transitivity (recorded d1)|]. split.
      { intros v Hv. cbn [map] in Hv. apply not_elem_of_cons in Hv as [Hv1 Hv2]. rewrite H2 by done. rewrite Hrec. by rewrite lookup_insert_ne. }
      destruct result as [v|e].
      * destruct H3 as (H4 & H5 & H6). split; [|split; [constructor; [intros c' Hc'; congruence|done]|by rewrite Hlast]].
        intros x Hx. apply elem_of_cons in Hx as [->|Hx]; [|by apply H4].
        eapply lookup_weaken; [|exact H1]. by rewrite Hrec, lookup_insert_eq.
      * destruct e; try done. destruct H3 as (x & c' & Hx & H3). exists x, c'. split; [by right|done].
    + pose proof (script_rolls_back _ _ _ _ He) as Hrec. rewrite Hrec. done.
Qed.

Lemma sorted_last_max (l : list Z) x : StronglySorted Z.lt l -> x ∈ l -> x <= default 0 (last l).
Proof.
  induction 1 as [|y l Hs IH Hy]; [by intros ?%elem_of_nil|]. intros Hx. rewrite last_cons.
  apply elem_of_cons in Hx as [->|Hx].
  - destruct (last l) as [z|] eqn:El; [|done]. cbn. rewrite Forall_forall in Hy.
    apply last_Some_elem_of in El. specialize (Hy _ El). lia.
  - specialize (IH Hx). destruct (last l) eqn:El; [done|]. apply last_None in El as ->. by apply elem_of_nil in Hx.
Qed.

(** Nothing is applied when everything is recorded. *)
Lemma migrate_loop_again applied now files d version :
  (forall m, m ∈ files -> applied !! mgVersion m = Some (mgChecksum m)) ->
  migrate_loop applied now files d version = (d, inl (default version (last (map mgVersion files)))).
Proof.
  revert version. induction files as [|m files IH]; intros version Ha; [done|]. cbn [migrate_loop].
  rewrite Ha by by left. rewrite bool_decide_eq_true_2 by done. rewrite IH by (intros x Hx; apply Ha; by right).
  cbn [map]. rewrite last_cons. by destruct (last (map mgVersion files)).
Qed.

(** C34: the migration runner never corrupts the record of applied migrations.
    Whatever happens, every recorded migration stays recorded with its checksum.
    When it succeeds, every embedded file is recorded with its own checksum, none
    that was recorded before had another one, and the version returned is the
    highest embedded, or 0 when there is none; running it again applies nothing
    and returns the same version.  When a recorded checksum differs from the
    embedded one it does not succeed. *)
Theorem migrate_sound entries now d files :
  migrationFiles checksum entries = inl files ->
  let '(d', result) := migrate checksum entries now d in
  recorded d ⊆ recorded d' /\
  (forall m c, m ∈ files -> recorded d !! mgVersion m = Some c -> c <> mgChecksum m -> exists e, result = inr e) /\
  match result with
  | inl v =>
      (forall m, m ∈ files -> recorded d' !! mgVersion m = Some (mgChecksum m) /\ 0 < mgVersion m <= v) /\
      (v = 0 /\ files = [] \/ v ∈ map mgVersion files) /\
      (forall d2 now', sdCreate d' = (d2, true) -> is_Some (sdApplied d2) ->
         migrate checksum entries now' d' = (d2, inl v))
  | inr _ => True
  end.
Proof.
  intros Hf. destruct (migrationFiles_spec _ _ _ Hf) as [Hs Hpos]. unfold migrate at 1.
  pose proof (create_keeps d) as Hk. destruct (sdCreate d) as [d1 ok]. cbn [fst] in Hk.
  destruct ok; cbn [negb]; [|by rewrite Hk; split; [|split; [eauto|]]].
  destruct (sdApplied d1) as [applied|] eqn:Hap; [|by rewrite Hk; split; [|split; [eauto|]]].
  apply applied_reads in Hap. rewrite Hf. pose proof (migrate_loop_spec applied now files d1 0) as Hl.
  destruct (migrate_loop applied now files d1 0) as [d' result]. rewrite <- Hk in *.
  destruct Hl as (H1 & H2 & H3); [by rewrite Hap|done|by rewrite Hap; intros m _ Hm|]. split; [done|].
  destruct result as [v|e].
  2:{ split; [eauto|done]. }
  destruct H3 as (H4 & H5 & H6). split.
  { intros m c Hm Hc Hne. rewrite Forall_forall in H5. specialize (H5 m Hm). unfold matches in H5. rewrite Hap in H5.
    by destruct Hne; apply H5. }
  assert (Hv : v = 0 /\ files = [] \/ v ∈ map mgVersion files).
  { rewrite H6. destruct (last (map mgVersion files)) as [x|] eqn:El.
    - right. cbn. apply last_Some_elem_of. done.
    - left. apply last_None in El. split; [done|]. by destruct files. }
  split; [|split; [exact Hv|]].
  - intros m Hm. split; [by apply H4|]. rewrite Forall_forall in Hpos. split; [by apply Hpos|].
    rewrite H6. apply (sorted_last_max _ _ Hs). by apply list_elem_of_fmap_2.
  - intros d2 now' Hc2 [applied2 Hap2]. unfold migrate. rewrite Hc2. cbn [negb]. rewrite Hap2.
    apply applied_reads in Hap2. pose proof (create_keeps d') as Hk2. rewrite Hc2 in Hk2. cbn [fst] in Hk2.
    rewrite Hf, H6. apply migrate_loop_again. intros m Hm. rewrite Hap2, Hk2. by apply H4.
Qed.
End Spec.

(** ** Concrete inputs *)

Module Inputs.
(** A database that records migrations and refuses an empty script. *)
Definition DB := gmap Z text.
#[global] Instance schema_db : SchemaDB DB := {|
  sdCreate d := (d, true);
  sdApplied d := Some d;
  sdExec d l :=
    match l with
    | [SqlBegin; SqlText s; SqlRecord v _ c; SqlCommit] =>
        match s with [] => (d, false) | _ => (<[v := c]> (d : gmap Z text), true) end
    | _ => (d, true)
    end |}.
#[global] Instance schema_laws : SchemaLaws (D := DB) (fun d => d).
Proof.
  split.
  - done.
  - by intros d m [= <-].
  - intros d d' m now. cbn. destruct (mgSQL m); intros [= <-]. done.
  - intros d d' m now. cbn. destruct (mgSQL m); intros [= <-]. done.
Qed.
Definition file (name body : string) : dirEntry := mkEntry (txt name) false (Some (txt body)).
Definition embedded : list dirEntry :=
  [file "0002_latency_samples_drop_fk.sql" "DROP"; file "0001_init.sql" "CREATE"; mkEntry (txt "README.md") false None].
Definition hash (body : text) : text := txt "h:" ++ body.
End Inputs.

Example parse_names :
  (parseMigrationName (txt "0001_init.sql"), parseMigrationName (txt "init.sql"), parseMigrationName (txt "0_x.sql")) =
  (inl (1, txt "init"), inr ErrName, inr ErrName).
Proof. vm_compute. reflexivity. Qed.

(** A database created before the second migration. *)
Lemma migrate_sound_witness :
  let d : Inputs.DB := {[1 := txt "h:CREATE"]} in
  exists d', migrate Inputs.hash Inputs.embedded (fun _ => unixNanos 0) d = (d', inl 2) /\
    d' !! 1 = Some (txt "h:CREATE") /\ d' !! 2 = Some (txt "h:DROP") /\
    migrate Inputs.hash Inputs.embedded (fun _ => unixNanos 1) d' = (d', inl 2).
Proof.
  intros d.
  set (files := [mkMigration 1 (txt "init") (txt "h:CREATE") (txt "CREATE");
                 mkMigration 2 (txt "latency_samples_drop_fk") (txt "h:DROP") (txt "DROP")]).
  assert (Hf : migrationFiles Inputs.hash Inputs.embedded = inl files) by (vm_compute; reflexivity).
  pose proof (migrate_sound (D := Inputs.DB) (recorded := fun d => d) Inputs.hash Inputs.embedded (fun _ => unixNanos 0) d files Hf) as Hm.
  assert (Hr : snd (migrate Inputs.hash Inputs.embedded (fun _ => unixNanos 0) d) = inl 2) by (vm_compute; reflexivity).
  destruct (migrate _ _ _ d) as [d' result]. cbn [snd] in Hr. subst result. destruct Hm as (_ & _ & Hall & _ & Hagain).
  exists d'. split; [reflexivity|]. split; [|split].
  - exact (proj1 (Hall (mkMigration 1 (txt "init") (txt "h:CREATE") (txt "CREATE")) ltac:(by left))).
  - exact (proj1 (Hall (mkMigration 2 (txt "latency_samples_drop_fk") (txt "h:DROP") (txt "DROP")) ltac:(right; by left))).
  - apply Hagain; [reflexivity|]. by exists d'.
Defined.
