(* ===== verification/SqliteQuery.v ===== *)
(** * The reads of the SQLite driver: [internal/metrics/sqlite/queries.go]

    A SELECT is the content of its text: the table, the columns, the conditions
    joined by AND with their bound values, the order and the limit.  Evaluating
    it is the database's work. *)

From Stdlib Require Import Ascii.
From S2P Require Import Prelude Money GoTime Decimal Domain Float64 Wire TimeText Metrics MetricsStore MetricsQuery Sqlite.

(** ** Statements *)

Inductive Cond :=
| CIs (column : string) (v : text)
| COneOf (column : string) (vs : list text)
| CAtLeast (column : string) (v : text)
| CAtMost (column : string) (v : text)
| CAbsent (column : string).

Inductive Direction := ASC | DESC.

(** [seTie] is whether [id] follows the column in ORDER BY, in its direction. *)
Record Select := mkSelect {
  seTable : string; seColumns : list string; seWhere : list Cond;
  seOrder : string; seDirection : Direction; seTie : bool; seLimit : option Z }.

Class Queries (D : Type) := {
  dbSelect : D -> Select -> option (list (list SqlValue));
  dbCount : D -> string -> list Cond -> option Z;
  dbSum : D -> string -> string -> list Cond -> option Z;
  dbTiers : D -> option (list (option text * Z)) }.
#[export] Hint Mode Queries ! : typeclass_instances.

Inductive QueryError := QClosed | QFailed | QScan.

Definition latency_columns : list string :=
  ["session_id"; "seq"; "rtt_ms"; "jitter_ms"; "samples"; "client_time"; "server_time"; "capped"; "missed_pong"].
Definition tier_columns : list string :=
  ["session_id"; "at"; "from_tier"; "to_tier"; "reason"; "rtt_ms"; "jitter_ms"; "streak"; "override"].
Definition session_columns : list string :=
  ["session_id"; "device_id"; "client_version"; "platform"; "remote_addr"; "symbol"; "interval"; "connected_at";
   "disconnected_at"; "disconnect_reason"; "initial_tier"; "final_tier"; "override_tier"; "uptime_ms";
   "messages_sent"; "messages_received"; "bytes_sent"; "protocol_errors"].
Definition delivery_columns : list string :=
  ["session_id"; "window_start"; "window_ms"; "tier"; "target_rate"; "candle_updates"; "trade_messages";
   "book_deltas"; "health_messages"; "coalesced_count"; "suppressed_count"; "bytes_sent"; "effective_rate"].

(** Conditions that are only there when their value is. *)
Definition for_session (sessionID : string) : list Cond :=
  if bool_decide (sessionID = "") then [] else [CIs "session_id" (txt sessionID)].
Definition in_range (column : string) (from to : Time) : list Cond :=
  (if tIsZero from then [] else [CAtLeast column (encodeTime from)]) ++
  (if tIsZero to then [] else [CAtMost column (encodeTime to)]).

Definition latencySelect (q : LatencyQuery) : Select :=
  mkSelect "latency_samples" latency_columns
    (for_session (lqSessionID q) ++ in_range "server_time" (lqFrom q) (lqTo q))
    "server_time" ASC true (if 0 <? lqLimit q then Some (lqLimit q) else None).
Definition tier_select (from to : Time) (limit : Z) : Select :=
  mkSelect "tier_transitions" tier_columns (in_range "at" from to) "at" DESC true (Some limit).
Definition session_select (limit : Z) : Select :=
  mkSelect "sessions" session_columns [] "connected_at" DESC false (Some limit).
Definition delivery_select (sessionID : string) (from to : Time) (limit : Z) : Select :=
  mkSelect "delivery_windows" delivery_columns (for_session sessionID ++ in_range "window_start" from to)
    "window_start" DESC true (Some limit).

Section Reads.
Context {D : Type} `{Queries D}.

Definition read {A} (scan : list SqlValue -> option A) (r : @SqlRepo D) (q : Select) : list A + QueryError :=
  if sqClosed r then inr QClosed
  else match dbSelect (sqDB r) q with
       | None => inr QFailed
       | Some rows => match mapM scan rows with Some out => inl out | None => inr QScan end
       end.

Definition Sql_LatencySamples (r : @SqlRepo D) (q : LatencyQuery) : list LatencySample + QueryError :=
  read scan_latency r (latencySelect q).
Definition Sql_TierTransitions (r : @SqlRepo D) (from to : Time) (limit : Z) : list TierTransitionRow + QueryError :=
  read scan_tier r (tier_select from to limit).
Definition Sql_Sessions (r : @SqlRepo D) (limit : Z) : list SessionRow + QueryError :=
  read scan_session r (session_select limit).
Definition Sql_DeliveryWindows (r : @SqlRepo D) (sessionID : string) (from to : Time) (limit : Z)
    : list DeliveryWindowRow + QueryError :=
  read scan_delivery r (delivery_select sessionID from to limit).

(** ** Counts *)

(** [COALESCE(SUM(CASE ...))] counts the violations among the same rows. *)
Definition Sql_EngineEventCounters (r : @SqlRepo D) (from to : Time) : EngineEventCounters + QueryError :=
  if sqClosed r then inr QClosed
  else
    let window := [CAtLeast "at" (encodeTime from); CAtMost "at" (encodeTime to)] in
    match dbCount (sqDB r) "engine_events" window,
          dbCount (sqDB r) "engine_events" (CIs "event" (txt "INVARIANT_VIOLATION") :: window) with
    | Some total, Some violations => inl (mkEngineCounters total violations)
    | _, _ => inr QFailed
    end.

(** The count queries of [SummaryStats], in their order; a protocol event counts
    for its [count]. *)
Definition summary_counts (d : D) (from to : Time) : option (list Z) :=
  let lo := encodeTime from in
  let hi := encodeTime to in
  let window c := [CAtLeast c lo; CAtMost c hi] in
  let protocol kind := dbSum d "protocol_events" "count" (CIs "kind" (txt kind) :: window "at") in
  mapM id
    [dbCount d "sessions" [];
     dbCount d "sessions" [CAbsent "disconnected_at"];
     dbCount d "sessions" [COneOf "disconnect_reason" [txt "client_reconnect"; txt "reconnect"]];
     dbCount d "latency_samples" (window "server_time");
     dbCount d "delivery_windows" (window "window_start");
     dbCount d "tier_transitions" (window "at");
     dbCount d "engine_events" (window "at");
     dbCount d "engine_events" (CIs "event" (txt "INVARIANT_VIOLATION") :: window "at");
     dbCount d "candle_closes" (window "closed_at");
     dbCount d "book_sync_events" (CIs "event" (txt "RECOVERY_STARTED") :: window "at");
     dbCount d "book_sync_events" (CIs "event" (txt "GAP_DETECTED") :: window "at");
     protocol "MALFORMED_FRAME"; protocol "DUPLICATE_DELTA"; protocol "STALE_DELTA"; protocol "OUT_OF_ORDER_TRADE"].

(** A missing or empty tier is not counted. *)
Definition add_tier (m : gmap string Z) (row : option text * Z) : gmap string Z :=
  match row with
  | (Some ((_ :: _) as tier), n) =>
      let name := String.string_of_list_ascii tier in <[name := default 0 (m !! name) + n]> m
  | _ => m
  end.

Definition Sql_SummaryStats (r : @SqlRepo D) (from to : Time) : SummaryStats + QueryError :=
  if sqClosed r then inr QClosed
  else
    match summary_counts (sqDB r) from to, dbTiers (sqDB r) with
    | Some [total; active; reconnects; latency; delivery; tiers; engine; _; closes; recoveries; gaps;
            malformed; duplicate; stale; outOfOrder], Some rows =>
        inl (mkSummaryStats total active (fold_left add_tier rows ∅) latency delivery closes tiers engine
               reconnects malformed duplicate stale outOfOrder recoveries gaps)
    | _, _ => inr QFailed
    end.

(** The driver as the store reads it. *)
Definition queried {A} (x : A + QueryError) : A + DriverError :=
  match x with inl a => inl a | inr _ => inr DriverFailed end.
#[export] Instance sql_queries : QueryRepository (@SqlRepo D) := {
  rpSummaryStats r from to := queried (Sql_SummaryStats r from to);
  rpLatencySamples r q := queried (Sql_LatencySamples r q);
  rpEngineEventCounters r from to := queried (Sql_EngineEventCounters r from to);
  rpTierTransitions r from to limit := queried (Sql_TierTransitions r from to limit);
  rpSessions r limit := queried (Sql_Sessions r limit);
  rpDeliveryWindows r id from to limit := queried (Sql_DeliveryWindows r id from to limit) }.
End Reads.
