(* ===== verification/DriverSpec.v ===== *)
(** * How far the two metrics drivers agree

    The SQLite driver over a database that holds the rows of an in-memory
    repository, against the in-memory driver over the same repository with its
    times cut to the millisecond, which is the precision SQLite keeps.  Four of
    the six queries are compared: latency samples, tier transitions, delivery
    windows and the counters of engine events.  The two that list the newest rows
    first order rows of one millisecond differently: SQLite by falling [id], the
    in-memory driver in order of insertion.  [Sessions] and [SummaryStats] are not
    compared: the first leaves the order of equal times to SQLite, and the second
    counts differently. *)

From Stdlib Require Import Ascii.
From S2P Require Import Prelude Money GoTime Decimal Domain Float64 Wire TimeText TimeTextSpec StableSort Metrics MetricsStore MetricsQuery MemoryRepo MemorySpec Sqlite SqliteSpec SqliteRef SqliteQuery.

(** ** What a SELECT means *)

Section Meaning.
Context {Row : Type} (cell : Row -> string -> SqlValue).

Definition holds (row : Row) (c : Cond) : bool :=
  match c with
  | CIs col v => match cell row col with VText s => bool_decide (s = v) | _ => false end
  | COneOf col vs => match cell row col with VText s => bool_decide (s ∈ vs) | _ => false end
  | CAtLeast col v => match cell row col with VText s => negb (text_ltb s v) | _ => false end
  | CAtMost col v => match cell row col with VText s => negb (text_ltb v s) | _ => false end
  | CAbsent col => match cell row col with VNull => true | VText [] => true | _ => false end
  end.
Definition selected (conds : list Cond) (rows : list Row) : list Row :=
  List.filter (fun row => forallb (holds row) conds) rows.

(** Texts compare byte by byte. *)
Definition text_of (v : SqlValue) : text := match v with VText s => s | _ => [] end.
Definition before (col : string) (x y : Row) : bool := text_ltb (text_of (cell x col)) (text_of (cell y col)).

(** [ORDER BY col, id]: rows are kept in the order of [id]. *)
Definition ordered (dir : Direction) (col : string) (rows : list Row) : list Row :=
  match dir with
  | ASC => stable_sort (before col) rows
  | DESC => stable_sort (fun x y => before col y x) (rev rows)
  end.
Definition limited {A} (limit : option Z) (l : list A) : list A :=
  match limit with Some n => if 0 <=? n then take (Z.to_nat n) l else l | None => l end.
End Meaning.

(** What the driver relies on of a query that does not fail. *)
Class QueryLaws {D Row : Type} `{Queries D} (rows_of : D -> string -> list Row) (cell : Row -> string -> SqlValue) : Prop := {
  select_tie d q rows :
    dbSelect d q = Some rows -> seTie q = true ->
    rows = map (fun row => map (cell row) (seColumns q))
             (limited (seLimit q) (ordered cell (seDirection q) (seOrder q) (selected cell (seWhere q) (rows_of d (seTable q)))));
  count_selected d t conds n : dbCount d t conds = Some n -> n = len (selected cell conds (rows_of d t)) }.

(** ** Related lists *)

Lemma Forall2_filter {A B} (R : A -> B -> Prop) f g l k :
  Forall2 R l k -> (forall x y, R x y -> f x = g y) -> Forall2 R (List.filter f l) (List.filter g k).
Proof.
  intros HF Hfg. induction HF as [|x y l k Hxy _ IH]; [constructor|]. cbn. rewrite (Hfg x y Hxy).
  destruct (g y); [by constructor|done].
Qed.
Lemma Forall2_insert_after {A B} (R : A -> B -> Prop) less less' x y l k :
  (forall a b a' b', R a a' -> R b b' -> less a b = less' a' b') -> R x y -> Forall2 R l k ->
  Forall2 R (insert_after less x l) (insert_after less' y k).
Proof.
  intros Hl Hxy HF. induction HF as [|a b l k Hab HF IH]; cbn [insert_after]; [by repeat constructor|].
  rewrite (Hl x a y b Hxy Hab). destruct (less' y b); by repeat constructor.
Qed.
Lemma Forall2_stable_sort {A B} (R : A -> B -> Prop) less less' l k :
  (forall a b a' b', R a a' -> R b b' -> less a b = less' a' b') -> Forall2 R l k ->
  Forall2 R (stable_sort less l) (stable_sort less' k).
Proof.
  intros Hl HF. unfold stable_sort.
  enough (forall acc acc', Forall2 R acc acc' ->
    Forall2 R (fold_left (fun acc x => insert_after less x acc) l acc) (fold_left (fun acc x => insert_after less' x acc) k acc'))
    as He by (apply He; constructor).
  induction HF as [|a b l k Hab HF IH]; intros acc acc' Ha; cbn [fold_left]; [done|].
  by apply IH, Forall2_insert_after.
Qed.
Lemma Forall2_rev' {A B} (R : A -> B -> Prop) l k : Forall2 R l k -> Forall2 R (rev l) (rev k).
Proof. induction 1; cbn; [constructor|]. apply Forall2_app; [done|by repeat constructor]. Qed.

Lemma cap_limited {A} n (l : list A) : 0 < n -> cap n l = limited (Some n) l.
Proof.
  intros Hn. unfold cap, limited. rewrite (proj2 (Z.ltb_lt 0 n)), (proj2 (Z.leb_le 0 n)) by lia. cbn [andb].
  destruct (Z.ltb_spec n (len l)) as [?|Hle]; [done|]. rewrite take_ge; [done|unfold len in Hle; lia].
Qed.

Lemma filter_filter' {A} (f g : A -> bool) l : List.filter g (List.filter f l) = List.filter (fun x => g x && f x) l.
Proof.
  induction l as [|x l IH]; [done|]. cbn. destruct (f x) eqn:Hf; cbn; rewrite ?IH; destruct (g x); cbn; rewrite ?Hf; done.
Qed.

(** ** Agreement *)

(** A bound of a window: absent, or later than the first millisecond. *)
Definition bound_ok (t : Time) : Prop := ns t = 0 \/ (representable t /\ 0 < millis t).
Definition stored_at (t : Time) : Prop := representable t /\ 0 < millis t.

Lemma tIsZero_millis t : 0 < millis t -> tIsZero t = false /\ tIsZero (to_millis t) = false.
Proof.
  unfold tIsZero, to_millis, millis, Millisecond. cbn [ns]. intros Hm.
  split; apply Z.eqb_neq; [intros E; rewrite E, Z.div_0_l in Hm; lia|lia].
Qed.
Lemma encode_text t : stored_at t -> encodeTime t = FormatTime t.
Proof. intros [_ Hm]. unfold encodeTime. by rewrite (proj1 (tIsZero_millis t Hm)). Qed.

Lemma tBefore_millis t u : tBefore (to_millis t) (to_millis u) = (millis t <? millis u).
Proof. unfold tBefore, to_millis, Millisecond. cbn [ns]. destruct (Z.ltb_spec (millis t) (millis u)); [apply Z.ltb_lt|apply Z.ltb_ge]; lia. Qed.

Section Agree.
Context {Row : Type} (cell : Row -> string -> SqlValue).

(** The conditions of a window are those of the in-memory driver. *)
Lemma in_range_window row col at_ from to :
  cell row col = VTime at_ -> stored_at at_ -> bound_ok from -> bound_ok to ->
  forallb (holds cell row) (in_range col from to) = inWindow (to_millis at_) (to_millis from) (to_millis to).
Proof.
  intros Hc Ha Hf Ht. pose proof (tIsZero_millis _ (proj2 Ha)) as [_ Hz]. unfold inWindow, in_range. rewrite Hz.
  assert (Hlo : forallb (holds cell row) (if tIsZero from then [] else [CAtLeast col (encodeTime from)]) =
                negb (negb (tIsZero (to_millis from)) && tBefore (to_millis at_) (to_millis from))).
  { destruct Hf as [Hf|Hf].
    - assert (E : tIsZero from = true) by (unfold tIsZero; by rewrite Hf).
      assert (E' : tIsZero (to_millis from) = true) by (unfold tIsZero, to_millis, millis; cbn [ns]; by rewrite Hf).
      by rewrite E, E'.
    - destruct (tIsZero_millis _ (proj2 Hf)) as [-> ->]. cbn [forallb holds negb andb]. rewrite Hc. unfold VTime.
      rewrite !encode_text, FormatTime_less, tBefore_millis by (done || apply Ha || apply Hf). apply andb_true_r. }
  assert (Hhi : forallb (holds cell row) (if tIsZero to then [] else [CAtMost col (encodeTime to)]) =
                negb (negb (tIsZero (to_millis to)) && tAfter (to_millis at_) (to_millis to))).
  { change (tAfter (to_millis at_) (to_millis to)) with (tBefore (to_millis to) (to_millis at_)). destruct Ht as [Ht|Ht].
    - assert (E : tIsZero to = true) by (unfold tIsZero; by rewrite Ht).
      assert (E' : tIsZero (to_millis to) = true) by (unfold tIsZero, to_millis, millis; cbn [ns]; by rewrite Ht).
      by rewrite E, E'.
    - destruct (tIsZero_millis _ (proj2 Ht)) as [-> ->]. cbn [forallb holds negb andb]. rewrite Hc. unfold VTime.
      rewrite !encode_text, FormatTime_less, tBefore_millis by (done || apply Ha || apply Ht). apply andb_true_r. }
  rewrite forallb_app, Hlo, Hhi. destruct (negb _ && _); [done|]. cbn [negb andb]. by destruct (negb _ && _).
Qed.

Lemma for_session_holds_at row col id s :
  cell row col = VStr s -> holds cell row (CIs col (txt id)) = bool_decide (s = id).
Proof.
  intros Hc. cbn [holds]. rewrite Hc. unfold VStr. apply bool_decide_ext. unfold txt. split; [|by intros ->]. intros E.
  apply (f_equal String.string_of_list_ascii) in E. by rewrite !String.string_of_list_ascii_of_string in E.
Qed.
Lemma for_session_holds row id s :
  cell row "session_id" = VStr s ->
  forallb (holds cell row) (for_session id) = bool_decide (id = "") || bool_decide (s = id).
Proof.
  intros Hc. unfold for_session. case_bool_decide; [done|]. cbn [forallb orb]. by rewrite andb_true_r, (for_session_holds_at _ _ _ s).
Qed.

Lemma before_millis x y col t u :
  cell x col = VTime t -> cell y col = VTime u -> stored_at t -> stored_at u ->
  before cell col x y = tBefore (to_millis t) (to_millis u).
Proof.
  intros Hx Hy Ht Hu. unfold before. rewrite Hx, Hy. unfold VTime. cbn [text_of].
  rewrite !encode_text, FormatTime_less, tBefore_millis by (done || apply Ht || apply Hu). done.
Qed.

Lemma Forall2_limited {A B} (R : A -> B -> Prop) n l k : Forall2 R l k -> Forall2 R (limited n l) (limited n k).
Proof. intros HF. unfold limited. destruct n as [n|]; [|done]. destruct (0 <=? n); [by apply Forall2_take|done]. Qed.

(** Rows related to values come back as the values, filtered, sorted and cut. *)
Lemma list_agree {A} (R : Row -> A -> Prop) scan cols rows l conds pred dir col at_ limit :
  Forall2 R rows l ->
  (forall row x, R row x -> scan (map (cell row) cols) = Some x) ->
  (forall row x, R row x -> forallb (holds cell row) conds = pred x) ->
  (forall x y a b, R x a -> R y b -> before cell col x y = tBefore (at_ a) (at_ b)) ->
  mapM scan (map (fun row => map (cell row) cols) (limited limit (ordered cell dir col (selected cell conds rows)))) =
  Some (limited limit (match dir with
                       | ASC => stable_sort (by_time at_) (List.filter pred l)
                       | DESC => stable_sort (by_time_desc at_) (rev (List.filter pred l))
                       end)).
Proof.
  intros HF Hscan Hpred Hless.
  assert (Hlist : Forall2 R (limited limit (ordered cell dir col (selected cell conds rows)))
    (limited limit (match dir with
                    | ASC => stable_sort (by_time at_) (List.filter pred l)
                    | DESC => stable_sort (by_time_desc at_) (rev (List.filter pred l))
                    end))).
  { apply Forall2_limited. unfold ordered, selected. destruct dir.
    - apply Forall2_stable_sort; [intros a b a' b' Ha Hb; by apply Hless|by apply Forall2_filter].
    - apply Forall2_stable_sort; [intros a b a' b' Ha Hb; by apply Hless|]. by apply Forall2_rev', Forall2_filter. }
  revert Hlist. generalize (limited limit (ordered cell dir col (selected cell conds rows))). intros rs.
  generalize (limited limit (match dir with
                    | ASC => stable_sort (by_time at_) (List.filter pred l)
                    | DESC => stable_sort (by_time_desc at_) (rev (List.filter pred l))
                    end)). intros xs.
  induction 1 as [|row x rs xs Hx _ IH]; [done|]. cbn [map mapM]. rewrite (Hscan _ _ Hx). cbn [mbind option_bind].
  by rewrite IH.
Qed.
End Agree.

(** ** Newest first *)

(** What a listing of at most [n] of the rows, newest first, gives on SQLite
    ([out]) and in memory ([mem]): they list the same instants; they list the same
    rows when the limit cuts none, each instant's in reverse order; and they are
    the same list when no two instants are equal. *)
Record newest_first {A} (at_ : A -> Time) (n : Z) (rows out mem : list A) : Prop := {
  nf_sql : out = cap n (stable_sort (by_time_desc at_) (rev rows));
  nf_mem : mem = cap n (stable_sort (by_time_desc at_) rows);
  nf_instants : map (fun x => ns (at_ x)) out = map (fun x => ns (at_ x)) mem;
  nf_uncut : len rows <= n -> out ≡ₚ mem;
  nf_ties t : len rows <= n ->
    let same := fun x => ns (at_ x) =? t in List.filter same out = rev (List.filter same mem);
  nf_distinct : NoDup (map (fun x => ns (at_ x)) rows) -> out = mem }.

#[local] Instance by_time_desc_order {A} (at_ : A -> Time) : Order (by_time_desc at_) := order_key_desc (fun x => ns (at_ x)).

Lemma sorted_desc_keys {A} (at_ : A -> Time) l :
  StronglySorted (not_after (by_time_desc at_)) l -> StronglySorted Z.ge (map (fun x => ns (at_ x)) l).
Proof.
  induction 1 as [|x l _ IH Hx]; [constructor|]. cbn [map]. constructor; [done|]. apply Forall_map.
  eapply Forall_impl; [exact Hx|]. unfold not_after, by_time_desc, tAfter. intros y. rewrite Z.ltb_ge. lia.
Qed.
#[local] Instance ge_antisym : AntiSymm (=) Z.ge.
Proof. intros x y. lia. Qed.
Lemma map_cap {A B} (f : A -> B) n l : map f (cap n l) = cap n (map f l).
Proof.
  unfold cap, len. rewrite length_map. destruct (_ && _); [|done]. symmetry. apply firstn_map.
Qed.
Lemma cap_uncut {A} n (l : list A) : len l <= n -> cap n l = l.
Proof. intros Hn. unfold cap. by rewrite (proj2 (Z.ltb_ge n (len l))), andb_false_r. Qed.

Lemma sorts_newest_first {A} (at_ : A -> Time) n rows :
  newest_first at_ n rows (cap n (stable_sort (by_time_desc at_) (rev rows))) (cap n (stable_sort (by_time_desc at_) rows)).
Proof.
  pose proof (stable_sort_sorted (by_time_desc at_) (rev rows)) as H1. pose proof (stable_sort_sorted (by_time_desc at_) rows) as H2.
  assert (HP : stable_sort (by_time_desc at_) (rev rows) ≡ₚ stable_sort (by_time_desc at_) rows).
  { rewrite !stable_sort_perm. apply Permutation_sym, Permutation_rev. }
  assert (Hlen : forall l, len rows <= n -> l ≡ₚ rows -> len l <= n) by (intros l ? E; unfold len in *; by rewrite E).
  assert (Hrev : rev rows ≡ₚ rows) by apply Permutation_sym, Permutation_rev.
  split; [done|done|..].
  - rewrite !map_cap. f_equal. apply (StronglySorted_unique Z.ge); [by apply sorted_desc_keys..|]. by apply Permutation_map.
  - intros Hn. rewrite !cap_uncut; [done|apply Hlen; [done|]..]; by rewrite stable_sort_perm.
  - intros t Hn. cbv zeta. rewrite !cap_uncut by (apply Hlen; [done|]; by rewrite stable_sort_perm).
    rewrite !(stable_sort_filter (by_time_desc at_)), List.filter_rev; [done|..];
      intros x y; unfold by_time_desc, tAfter; rewrite !Z.eqb_eq, Z.ltb_ge; lia.
  - intros Hnd. f_equal. apply (StronglySorted_unique_strong (not_after (by_time_desc at_))); [|done..].
    intros x y Hx Hy. rewrite HP in Hx. rewrite !stable_sort_perm in Hx, Hy. unfold not_after, by_time_desc, tAfter. rewrite !Z.ltb_ge.
    intros Hle Hge. assert (E : ns (at_ x) = ns (at_ y)) by lia. clear Hle Hge.
    apply list_elem_of_lookup in Hx as [i Hi], Hy as [j Hj].
    assert (Hij : i = j).
    { apply (NoDup_lookup (map (fun x => ns (at_ x)) rows) i j (ns (at_ x))); [done|..]; rewrite list_lookup_fmap; [by rewrite Hi|by rewrite Hj, E]. }
    subst j. congruence.
Qed.

(** A row of the database that holds the values bound for [x], seen as what it
    reads back as. *)
Definition written {Row A} (cell : Row -> string -> SqlValue) (columns : list string) (args : A -> list SqlValue)
    (ok : A -> Prop) (stored : A -> A) (row : Row) (y : A) : Prop :=
  exists x, y = stored x /\ map (cell row) columns = args x /\ ok x.

Section Drivers.
Context {D Row : Type} `{Queries D} {rows_of : D -> string -> list Row} {cell : Row -> string -> SqlValue}
  `{!QueryLaws rows_of cell}.

(** The tables hold the rows of the in-memory repository. *)
Record represents (d : D) (m : MemRepo) : Prop := {
  rp_latency : Forall2 (fun row s => map (cell row) latency_columns = latency_args s /\
                 stored_at (lsServerTime s) /\ client_time_ok (lsClientTimeMs s))
                 (rows_of d "latency_samples") (mrLatency m);
  rp_tiers : Forall2 (fun row t => map (cell row) tier_columns = tier_args t /\ stored_at (twAt t))
               (rows_of d "tier_transitions") (mrTiers m);
  rp_delivery : Forall2 (fun row w => map (cell row) delivery_columns = delivery_args w /\ stored_at (wwWindowStart w))
                  (rows_of d "delivery_windows") (mrDelivery m);
  rp_events : Forall2 (fun row e => cell row "at" = VTime (eeAt e) /\ cell row "event" = VStr (eeEvent e) /\
                         stored_at (eeAt e))
                (rows_of d "engine_events") (mrEngineEvts m) }.

Definition event_millis (e : EngineEventRow) : EngineEventRow :=
  mkEngineEvent (eeEvent e) (eeEpoch e) (eeEventIndex e) (eeUpdateID e) (eeTradeID e) (eeDetail e) (eeDurationMs e)
    (to_millis (eeAt e)).
(** The same repository, row for row, with the times of these four tables cut. *)
Definition cut_millis (m : MemRepo) : MemRepo :=
  mkMemRepo (map latency_stored (mrLatency m)) (mrHealth m) (map tier_stored (mrTiers m))
    (map window_stored (mrDelivery m)) (mrBookEvents m) (mrProtocol m) (map event_millis (mrEngineEvts m))
    (mrCandleClose m) (mrFaults m) (mrSessions m) (mrSessionAt m).
(** The rows of a window, in order of insertion. *)
Definition tiers_within (m : MemRepo) (from to : Time) : list TierTransitionRow :=
  List.filter (fun t => inWindow (twAt t) from to) (mrTiers m).
Definition delivery_within (m : MemRepo) (id : string) (from to : Time) : list DeliveryWindowRow :=
  List.filter (fun w => (bool_decide (id = "") || bool_decide (wwSessionID w = id)) && inWindow (wwWindowStart w) from to)
    (mrDelivery m).

Lemma Forall2_map_r {A B} (R : Row -> A -> Prop) (S : Row -> B -> Prop) (f : A -> B) l k :
  Forall2 R l k -> (forall row x, R row x -> S row (f x)) -> Forall2 S l (map f k).
Proof. intros HF HR. apply Forall2_fmap_r. eapply Forall2_impl; [exact HF|]. intros row x Hx. by apply HR. Qed.

Lemma latency_agree (r : @SqlRepo D) m id from to limit :
  sqClosed r = false -> represents (sqDB r) m -> bound_ok from -> bound_ok to -> 0 < limit ->
  dbSelect (sqDB r) (latencySelect (mkLatencyQuery id from to limit)) <> None ->
  Sql_LatencySamples r (mkLatencyQuery id from to limit) =
    inl (Mem_LatencySamples (cut_millis m) (mkLatencyQuery id (to_millis from) (to_millis to) limit)).
Proof.
  intros Hcl [Hl Ht Hd _] Hf Hto Hlim. unfold Sql_LatencySamples, Sql_TierTransitions, Sql_DeliveryWindows, read. rewrite Hcl.
  destruct (dbSelect _ _) as [rows|] eqn:Hs; [intros _|done]. rewrite (select_tie _ _ _ Hs eq_refl). cbn [latencySelect seTable seColumns seWhere seOrder seDirection seLimit].
  rewrite (list_agree cell (written cell latency_columns latency_args
      (fun s => stored_at (lsServerTime s) /\ client_time_ok (lsClientTimeMs s)) latency_stored) scan_latency
      latency_columns _ (map latency_stored (mrLatency m)) _
      (fun s => (bool_decide (id = "") || bool_decide (lsSessionID s = id)) && inWindow (lsServerTime s) (to_millis from) (to_millis to))
      ASC "server_time" lsServerTime).
  - cbn [lqLimit]. rewrite (proj2 (Z.ltb_lt 0 limit)) by lia. unfold Mem_LatencySamples. cbn [lqSessionID lqFrom lqTo lqLimit cut_millis mrLatency].
    by rewrite cap_limited.
  - eapply Forall2_map_r; [exact Hl|]. intros row s (Hc & Ha & Hok). by exists s.
  - intros row y (s & -> & Hc & [Ha Hr] & Hok). rewrite Hc. by apply scan_latency_args.
  - intros row y (s & -> & Hc & Ha & _). injection Hc as Hid _ _ _ _ _ Hat _ _. cbn [lqSessionID lqFrom lqTo].
    rewrite forallb_app, (for_session_holds cell row id _ Hid), (in_range_window cell row _ _ from to Hat Ha Hf Hto). done.
  - intros x y a b (s & -> & Hc & Ha & _) (t & -> & Hc' & Hb & _). injection Hc as _ _ _ _ _ _ Hx _ _. injection Hc' as _ _ _ _ _ _ Hy _ _.
    by apply before_millis.
Qed.

Lemma tiers_agree (r : @SqlRepo D) m from to limit :
  sqClosed r = false -> represents (sqDB r) m -> bound_ok from -> bound_ok to -> 0 < limit ->
  dbSelect (sqDB r) (tier_select from to limit) <> None ->
  exists out, Sql_TierTransitions r from to limit = inl out /\
    newest_first twAt limit (tiers_within (cut_millis m) (to_millis from) (to_millis to)) out
      (Mem_TierTransitions (cut_millis m) (to_millis from) (to_millis to) limit).
Proof.
  intros Hcl [Hl Ht Hd _] Hf Hto Hlim. unfold Sql_LatencySamples, Sql_TierTransitions, Sql_DeliveryWindows, read. rewrite Hcl.
  destruct (dbSelect _ _) as [rows|] eqn:Hs; [intros _|done]. rewrite (select_tie _ _ _ Hs eq_refl). cbn [tier_select seTable seColumns seWhere seOrder seDirection seLimit].
  rewrite (list_agree cell (written cell tier_columns tier_args (fun t => stored_at (twAt t)) tier_stored) scan_tier
      tier_columns _ (map tier_stored (mrTiers m)) _ (fun t => inWindow (twAt t) (to_millis from) (to_millis to))
      DESC "at" twAt).
  - eexists. split; [reflexivity|]. rewrite <- cap_limited by done. apply sorts_newest_first.
  - eapply Forall2_map_r; [exact Ht|]. intros row s (Hc & Ha). by exists s.
  - intros row y (s & -> & Hc & [Ha _]). rewrite Hc. by apply scan_tier_args.
  - intros row y (s & -> & Hc & Ha). injection Hc as _ Hat _ _ _ _ _ _ _. by apply in_range_window.
  - intros x y a b (s & -> & Hc & Ha) (t & -> & Hc' & Hb). injection Hc as _ Hx _ _ _ _ _ _ _. injection Hc' as _ Hy _ _ _ _ _ _ _.
    by apply before_millis.
Qed.

Lemma delivery_agree (r : @SqlRepo D) m id from to limit :
  sqClosed r = false -> represents (sqDB r) m -> bound_ok from -> bound_ok to -> 0 < limit ->
  dbSelect (sqDB r) (delivery_select id from to limit) <> None ->
  exists out, Sql_DeliveryWindows r id from to limit = inl out /\
    newest_first wwWindowStart limit (delivery_within (cut_millis m) id (to_millis from) (to_millis to)) out
      (Mem_DeliveryWindows (cut_millis m) id (to_millis from) (to_millis to) limit).
Proof.
  intros Hcl [Hl Ht Hd _] Hf Hto Hlim. unfold Sql_LatencySamples, Sql_TierTransitions, Sql_DeliveryWindows, read. rewrite Hcl.
  destruct (dbSelect _ _) as [rows|] eqn:Hs; [intros _|done]. rewrite (select_tie _ _ _ Hs eq_refl). cbn [delivery_select seTable seColumns seWhere seOrder seDirection seLimit].
  rewrite (list_agree cell (written cell delivery_columns delivery_args (fun w => stored_at (wwWindowStart w)) window_stored) scan_delivery
      delivery_columns _ (map window_stored (mrDelivery m)) _
      (fun w => (bool_decide (id = "") || bool_decide (wwSessionID w = id)) && inWindow (wwWindowStart w) (to_millis from) (to_millis to))
      DESC "window_start" wwWindowStart).
  - eexists. split; [reflexivity|]. rewrite <- cap_limited by done. apply sorts_newest_first.
  - eapply Forall2_map_r; [exact Hd|]. intros row s (Hc & Ha). by exists s.
  - intros row y (s & -> & Hc & [Ha _]). rewrite Hc. by apply scan_delivery_args.
  - intros row y (s & -> & Hc & Ha). injection Hc as Hid Hat _ _ _ _ _ _ _ _ _ _ _.
    rewrite forallb_app, (for_session_holds cell row id _ Hid), (in_range_window cell row _ _ from to Hat Ha Hf Hto). done.
  - intros x y a b (s & -> & Hc & Ha) (t & -> & Hc' & Hb). injection Hc as _ Hx _ _ _ _ _ _ _ _ _ _ _. injection Hc' as _ Hy _ _ _ _ _ _ _ _ _ _ _.
    by apply before_millis.
Qed.

Lemma events_agree (r : @SqlRepo D) m from to :
  sqClosed r = false -> represents (sqDB r) m -> stored_at from -> stored_at to ->
  match Sql_EngineEventCounters r from to with
  | inl c => c = Mem_EngineEventCounters (cut_millis m) (to_millis from) (to_millis to)
  | inr e => e = QFailed
  end.
Proof.
  intros Hcl [_ _ _ He] Hf Ht. unfold Sql_EngineEventCounters. rewrite Hcl.
  set (window := [CAtLeast "at" (encodeTime from); CAtMost "at" (encodeTime to)]).
  destruct (dbCount _ _ window) as [total|] eqn:H1; [|done]. destruct (dbCount _ _ (_ :: window)) as [bad|] eqn:H2; [|done].
  apply count_selected in H1 as ->. apply count_selected in H2 as ->. unfold Mem_EngineEventCounters. cbn [cut_millis mrEngineEvts].
  set (R := fun row y => exists e, y = event_millis e /\ cell row "at" = VTime (eeAt e) /\ cell row "event" = VStr (eeEvent e) /\
                           stored_at (eeAt e)).
  assert (HR : Forall2 R (rows_of (sqDB r) "engine_events") (map event_millis (mrEngineEvts m))).
  { eapply Forall2_map_r; [exact He|]. intros row e (Ha & Hev & Hs). by exists e. }
  assert (Hwin : forall row y, R row y -> forallb (holds cell row) window = inWindow (eeAt y) (to_millis from) (to_millis to)).
  { intros row y (e & -> & Ha & _ & Hs). cbn [event_millis eeAt]. rewrite <- (in_range_window cell row "at" (eeAt e) from to Ha Hs) by (by right).
    unfold in_range. by rewrite (proj1 (tIsZero_millis _ (proj2 Hf))), (proj1 (tIsZero_millis _ (proj2 Ht))). }
  unfold selected, len. f_equal.
  - f_equal. eapply Forall2_length, Forall2_filter; [exact HR|exact Hwin].
  - f_equal. rewrite (filter_filter' _ (fun y => bool_decide (eeEvent y = "INVARIANT_VIOLATION"))). eapply Forall2_length, Forall2_filter; [exact HR|].
    intros row y Hy. cbn [forallb]. rewrite (Hwin _ _ Hy). destruct Hy as (e & -> & _ & Hev & _). cbn [event_millis eeEvent].
    f_equal. pose proof (for_session_holds_at cell row "event" "INVARIANT_VIOLATION" (eeEvent e) Hev) as Hh. exact Hh.
Qed.

(** C33: how far the two drivers agree, on the latency, tier, delivery and
    engine-event queries.  Take a database that holds the rows of an in-memory
    repository.  Each query of the SQLite driver either fails in the database or
    succeeds (reading a row never fails), and then: latency samples and the
    counters of engine events are exactly what the in-memory driver answers over
    the same rows and bounds cut to the millisecond; tier transitions and delivery
    windows list the same instants as the in-memory driver's answer, the same rows
    when the limit cuts none, and the same list when no two rows of the window
    share a millisecond; rows that do share one come latest written first on
    SQLite and earliest written first in memory. *)
Theorem drivers_agree (r : @SqlRepo D) m id from to limit :
  sqClosed r = false -> represents (sqDB r) m -> bound_ok from -> bound_ok to -> 0 < limit ->
  let mem := cut_millis m in
  let lo := to_millis from in
  let hi := to_millis to in
  (dbSelect (sqDB r) (latencySelect (mkLatencyQuery id from to limit)) <> None ->
   Sql_LatencySamples r (mkLatencyQuery id from to limit) =
     inl (Mem_LatencySamples mem (mkLatencyQuery id lo hi limit))) /\
  (dbSelect (sqDB r) (tier_select from to limit) <> None ->
   exists out, Sql_TierTransitions r from to limit = inl out /\
     newest_first twAt limit (tiers_within mem lo hi) out (Mem_TierTransitions mem lo hi limit)) /\
  (dbSelect (sqDB r) (delivery_select id from to limit) <> None ->
   exists out, Sql_DeliveryWindows r id from to limit = inl out /\
     newest_first wwWindowStart limit (delivery_within mem id lo hi) out (Mem_DeliveryWindows mem id lo hi limit)) /\
  (stored_at from -> stored_at to -> Sql_EngineEventCounters r from to <> inr QFailed ->
   Sql_EngineEventCounters r from to = inl (Mem_EngineEventCounters mem lo hi)).
Proof.
  intros Hcl Hr Hf Hto Hlim. cbv zeta. split; [|split; [|split]]; [by apply latency_agree|by apply tiers_agree|by apply delivery_agree|].
  intros Hsf Hst Hok. pose proof (events_agree r m from to Hcl Hr Hsf Hst) as He.
  destruct (Sql_EngineEventCounters r from to); [by subst|by subst].
Qed.
End Drivers.

(** ** Writing what is read back *)

(** SQLite stores a NaN as NULL; every other bound value comes back. *)
Definition value_kept (v : SqlValue) : Prop := match v with VReal x => is_nan x = false | _ => True end.
Definition stored (Row : Type) (cell : Row -> string -> SqlValue) (row : Row) (bound : list string * list SqlValue) : Prop :=
  map (cell row) bound.1 = bound.2.
#[global] Arguments stored {Row} cell row bound /.

(** What the driver relies on of the statements that succeed, with [tx_rows] the
    rows a transaction sees, in the order of their keys: it starts from those of
    the database; a plain INSERT appends a row for each tuple, whose columns hold
    the values bound; inserts and the update of a session change no other table;
    committing makes the rows those of the database.  A DELETE only removes
    rows. *)
Class StorageLaws {D T Row : Type} `{Transaction T} `{Database D T} `{Deletion D}
    (rows_of : D -> string -> list Row) (tx_rows : T -> string -> list Row) (cell : Row -> string -> SqlValue) : Prop := {
  begin_rows d tx t : dbBegin d = Some tx -> tx_rows tx t = rows_of d t;
  insert_rows tx tx' t cols vals :
    txExec tx (SInsert false t cols (len vals)) (concat vals) = (tx', true) ->
    cols <> [] -> NoDup cols -> Forall (fun v => length v = length cols /\ Forall value_kept v) vals ->
    exists new, tx_rows tx' t = tx_rows tx t ++ new /\ Forall2 (stored cell) new (map (pair cols) vals);
  insert_elsewhere tx tx' replace t cols n args u :
    txExec tx (SInsert replace t cols n) args = (tx', true) -> u <> t -> tx_rows tx' u = tx_rows tx u;
  end_elsewhere tx tx' args u :
    txExec tx SEndSession args = (tx', true) -> u <> "sessions" -> tx_rows tx' u = tx_rows tx u;
  commit_rows tx d t : txCommit tx = (d, true) -> rows_of d t = tx_rows tx t;
  delete_sublist d d' t c cutoff n k u :
    dbDelete d (SDelete t c) cutoff n = (d', Some k) -> rows_of d' u `sublist_of` rows_of d u }.

Section Writing.
Context {D T Row : Type} `{Transaction T} `{Database D T} `{Deletion D}
  {rows_of : D -> string -> list Row} {tx_rows : T -> string -> list Row} {cell : Row -> string -> SqlValue}
  `{!StorageLaws rows_of tx_rows cell}.

(** From [tx] to [tx'] the table [u] gains rows that hold [bound]. *)
Definition gains (u : string) (bound : list (list string * list SqlValue)) (tx tx' : T) : Prop :=
  exists new, tx_rows tx' u = tx_rows tx u ++ new /\ Forall2 (stored cell) new bound.

Lemma gains_none u tx tx' : tx_rows tx' u = tx_rows tx u -> gains u [] tx tx'.
Proof. intros E. exists []. by rewrite app_nil_r. Qed.
Lemma gains_app u k l tx1 tx2 tx3 : gains u k tx1 tx2 -> gains u l tx2 tx3 -> gains u (k ++ l) tx1 tx3.
Proof. intros (a & Ea & Ha) (b & Eb & Hb). exists (a ++ b). rewrite Eb, Ea, app_assoc. split; [done|by apply Forall2_app]. Qed.

Lemma run_statements_nil (tx tx' : T) : run_statements [] tx = (tx', None) -> tx = tx'.
Proof. by intros [= ->]. Qed.
Lemma run_statements_step st args l (tx tx' : T) :
  run_statements ((st, args) :: l) tx = (tx', None) ->
  exists tx1, txExec tx st args = (tx1, true) /\ run_statements l tx1 = (tx', None).
Proof. cbn [run_statements]. unfold andThen, exec. destruct (txExec tx st args) as [tx1 []]; [|done]. by exists tx1. Qed.
Lemma run_statements_split k l (tx tx' : T) :
  run_statements (k ++ l) tx = (tx', None) ->
  exists tx1, run_statements k tx = (tx1, None) /\ run_statements l tx1 = (tx', None).
Proof. rewrite (run_statements_app k l tx). unfold andThen. destruct (run_statements k tx) as [tx1 [e|]]; [done|]. by exists tx1. Qed.

(** An insert into [u] is plain and binds values that are kept. *)
Definition plain (u : string) (b : bulkInsert) : Prop :=
  biTable b = u ->
  biReplace b = false /\ biColumns b <> [] /\ NoDup (biColumns b) /\
  Forall (fun v => length v = length (biColumns b) /\ Forall value_kept v) (biRows b).
Definition bound_in (u : string) (b : bulkInsert) : list (list string * list SqlValue) :=
  if decide (biTable b = u) then map (pair (biColumns b)) (biRows b) else [].

Lemma insert_gains u b tx tx' :
  plain u b -> run_statements (insert_statements b) tx = (tx', None) -> gains u (bound_in u b) tx tx'.
Proof.
  intros Hp. unfold bound_in, insert_statements.
  assert (Hn : (0 < Z.to_nat (per_chunk (len (biColumns b))))%nat) by (pose proof (per_chunk_range (len (biColumns b))); lia).
  pose proof (concat_chunks (length (biRows b)) _ (biRows b) Hn (le_n _)) as Hcat.
  pose proof (fun P => chunks_subset P (length (biRows b)) (Z.to_nat (per_chunk (len (biColumns b)))) (biRows b)) as HF.
  destruct (decide (biTable b = u)) as [Hu|Hu].
  - destruct (Hp Hu) as (-> & Hc & Hnd & Hv). rewrite Hu. apply HF in Hv. rewrite <- Hcat at 3. clear Hcat HF Hp. revert tx.
    induction Hv as [|c l Hx _ IH]; intros tx; [intros <-%run_statements_nil; by apply gains_none|]. cbn [map concat].
    intros (tx1 & K1 & K2)%run_statements_step. rewrite map_app. eapply gains_app; [|by eapply IH].
    by eapply insert_rows.
  - clear Hcat HF. revert tx. induction (chunks _ _ _) as [|c l IH]; intros tx; [intros <-%run_statements_nil; by apply gains_none|].
    cbn [map]. intros (tx1 & K1 & K2)%run_statements_step. change (@nil (list string * list SqlValue)) with (@nil (list string * list SqlValue) ++ []).
    eapply gains_app; [|by eapply IH]. eapply gains_none, insert_elsewhere; [exact K1|congruence].
Qed.

Definition batch_bound (b : Batch) (u : string) : list (list string * list SqlValue) :=
  concat (map (bound_in u) (bulk_inserts b)).

Lemma batch_gains b u tx tx' :
  u <> "sessions" -> Forall (plain u) (bulk_inserts b) ->
  run_statements (batch_statements b) tx = (tx', None) -> gains u (batch_bound b u) tx tx'.
Proof.
  intros Hu Hp. unfold batch_statements, batch_bound.
  intros (tx1 & K1 & (tx2 & K2 & K3)%run_statements_split)%run_statements_split.
  change (concat (map (bound_in u) (bulk_inserts b))) with ([] ++ [] ++ concat (map (bound_in u) (bulk_inserts b))).
  eapply gains_app; [|eapply gains_app].
  - apply (insert_gains u) in K1; [|intros E; cbn in E; congruence]. unfold bound_in in K1. by rewrite decide_False in K1 by (cbn; congruence).
  - clear K1 K3 Hp. revert tx1 K2. induction (end_rows _) as [|row rows IH]; intros tx1; [intros <-%run_statements_nil; by apply gains_none|].
    cbn [map]. intros (tx3 & Hx & Hr)%run_statements_step. change (@nil (list string * list SqlValue)) with (@nil (list string * list SqlValue) ++ []).
    eapply gains_app; [|by eapply IH]. by eapply gains_none, end_elsewhere.
  - clear K1 K2. revert tx2 K3. induction Hp as [|bi l Hb _ IH]; intros tx2; [intros <-%run_statements_nil; by apply gains_none|].
    cbn [map concat]. intros (tx3 & Hx & Hr)%run_statements_split. eapply gains_app; [by apply insert_gains|by apply IH].
Qed.

Lemma len_zero {A} (l : list A) : len l = 0 -> l = [].
Proof. destruct l; [done|unfold len; cbn; lia]. Qed.
Lemma batch_bound_empty b u : Batch_Len b = 0 -> batch_bound b u = [].
Proof.
  intros E. destruct b as [b1 b2 b3 b4 b5 b6 b7 b8 b9 b10]. unfold Batch_Len in E. cbn in E.
  rewrite (len_zero b1), (len_zero b2), (len_zero b3), (len_zero b4), (len_zero b5), (len_zero b6), (len_zero b8),
    (len_zero b9), (len_zero b10) by (unfold len in *; lia).
  unfold batch_bound, bulk_inserts, bound_in. cbn [map concat biRows writeLatency writeHealth writeTiers writeDelivery
    writeBookEvents writeProtocol writeEngineEvents writeCandleCloses writeFaults]. by repeat destruct (decide _).
Qed.

(** A batch that succeeds appends what it binds to every table of events. *)
Lemma write_gains d b r u :
  u <> "sessions" -> Forall (plain u) (bulk_inserts b) -> Sql_WriteBatch (T := T) (mkSqlRepo d false) b = (r, None) ->
  sqClosed r = false /\
  exists new, rows_of (sqDB r) u = rows_of d u ++ new /\ Forall2 (stored cell) new (batch_bound b u).
Proof.
  intros Hu Hp. unfold Sql_WriteBatch. cbn [sqClosed sqDB]. destruct (Z.eqb_spec (Batch_Len b) 0) as [E|E].
  - intros [= <-]. split; [done|]. exists []. by rewrite (batch_bound_empty b u E), app_nil_r.
  - destruct (dbBegin d) as [tx|] eqn:Hb; [|done]. rewrite (writeAll_statements b tx).
    destruct (run_statements _ tx) as [tx' [e|]] eqn:Hr; [done|]. destruct (txCommit tx') as [d' []] eqn:Hc; [|done]. intros [= <-].
    split; [done|]. cbn [with_db sqDB]. rewrite (commit_rows _ _ u Hc), <- (begin_rows _ _ u Hb). by apply batch_gains.
Qed.

(** *** The tables represent what was written *)

(** The records of a batch whose times and reals SQLite keeps. *)
Record batch_ok (b : Batch) : Prop := {
  bo_latency : Forall (fun s => (stored_at (lsServerTime s) /\ client_time_ok (lsClientTimeMs s)) /\
                 is_nan (lsRTTMs s) = false /\ is_nan (lsJitterMs s) = false) (btLatency b);
  bo_tiers : Forall (fun t => stored_at (twAt t) /\ is_nan (twRTTMs t) = false /\ is_nan (twJitterMs t) = false) (btTiers b);
  bo_delivery : Forall (fun w => stored_at (wwWindowStart w) /\
                  is_nan (wwTargetRate w) = false /\ is_nan (wwEffectiveRate w) = false) (btDelivery b);
  bo_events : Forall (fun e => stored_at (eeAt e)) (btEngineEvts b) }.

(** One table: the rows of the batch join those already there. *)
Lemma table_written {A} d r b u (R : Row -> A -> Prop) (args : A -> list SqlValue) (cols : list string) (ok : A -> Prop) l k :
  u <> "sessions" -> Sql_WriteBatch (T := T) (mkSqlRepo d false) b = (r, None) ->
  (forall bi, bi ∈ bulk_inserts b -> biTable bi = u -> bi = mkBulk false u cols (map args k)) ->
  batch_bound b u = map (fun x => (cols, args x)) k -> cols <> [] -> NoDup cols ->
  (forall x, ok x -> length (args x) = length cols /\ Forall value_kept (args x)) ->
  (forall row x, map (cell row) cols = args x -> ok x -> R row x) -> Forall ok k ->
  Forall2 R (rows_of d u) l -> Forall2 R (rows_of (sqDB r) u) (l ++ k).
Proof.
  intros Hu Hw Hbi Hb Hc Hnd Hlen HR Hok HF.
  assert (Hp : Forall (plain u) (bulk_inserts b)).
  { apply Forall_forall. intros bi Hin E. rewrite (Hbi bi Hin E). cbn [biReplace biColumns biRows]. split_and!; [done..|].
    apply Forall_map. eapply Forall_impl; [exact Hok|exact Hlen]. }
  destruct (write_gains d b r u Hu Hp Hw) as (_ & new & -> & Hnew). rewrite Hb in Hnew.
  apply Forall2_app; [done|]. apply Forall2_fmap_r in Hnew. clear Hb Hbi. revert new Hnew.
  induction Hok as [|x k Hx _ IH]; intros new Hnew; inversion Hnew; subst; constructor; [by apply HR|by apply IH].
Qed.

Ltac one_table :=
  intros bi Hin E; unfold bulk_inserts in Hin; repeat (apply elem_of_cons in Hin as [->|Hin]; [by (reflexivity || discriminate E)|]); by inversion Hin.
Ltac batch_table :=
  unfold batch_bound, bulk_inserts, bound_in; cbn [map concat]; cbn [biTable biColumns biRows writeLatency writeHealth writeTiers writeDelivery
    writeBookEvents writeProtocol writeEngineEvents writeCandleCloses writeFaults];
  repeat (destruct (decide _); [discriminate || idtac|congruence || idtac]); cbn [app]; rewrite ?app_nil_r, map_map; reflexivity.
Ltac event_columns := apply (bool_decide_unpack _); vm_compute; exact I.
Ltac kept_values := repeat (apply Forall_cons; split; [done|]); by apply Forall_nil.

Lemma Mem_WriteBatch_tables m b :
  mrLatency (Mem_WriteBatch m b) = mrLatency m ++ btLatency b /\ mrTiers (Mem_WriteBatch m b) = mrTiers m ++ btTiers b /\
  mrDelivery (Mem_WriteBatch m b) = mrDelivery m ++ btDelivery b /\
  mrEngineEvts (Mem_WriteBatch m b) = mrEngineEvts m ++ btEngineEvts b.
Proof.
  unfold Mem_WriteBatch. set (r := mkMemRepo _ _ _ _ _ _ _ _ _ _ _). pose proof (write_sessions_events (btSessions b) r) as E.
  revert E. destruct (fold_left write_session (btSessions b) r). unfold events, r. cbn. by intros [= -> _ -> -> _ _ -> _ _].
Qed.

Lemma client_time_value ms : value_kept (if ms =? 0 then VNull else VTime (unixNanos (ms * Millisecond))).
Proof. by destruct (ms =? 0). Qed.

(** What the SQLite driver writes stands for what the in-memory driver would
    hold. *)
Lemma written_represents d m b r :
  represents (rows_of := rows_of) (cell := cell) d m -> batch_ok b ->
  Sql_WriteBatch (T := T) (mkSqlRepo d false) b = (r, None) ->
  represents (rows_of := rows_of) (cell := cell) (sqDB r) (Mem_WriteBatch m b).
Proof.
  intros [Hl Ht Hd He] [Bl Bt Bd Be] Hw. destruct (Mem_WriteBatch_tables m b) as (E1 & E2 & E3 & E4). split.
  - rewrite E1. eapply (table_written d r b "latency_samples" _ latency_args latency_columns); [done|exact Hw|one_table|batch_table|done|event_columns|..|exact Bl|exact Hl].
    + intros x (_ & ? & ?). split; [done|]. do 5 (apply Forall_cons; split; [done|]). apply Forall_cons. split; [apply client_time_value|]. kept_values.
    + by intros row x Hc (? & _).
  - rewrite E2. eapply (table_written d r b "tier_transitions" _ tier_args tier_columns); [done|exact Hw|one_table|batch_table|done|event_columns|..|exact Bt|exact Ht].
    + intros x (_ & ? & ?). split; [done|]. kept_values.
    + by intros row x Hc (? & _).
  - rewrite E3. eapply (table_written d r b "delivery_windows" _ delivery_args delivery_columns); [done|exact Hw|one_table|batch_table|done|event_columns|..|exact Bd|exact Hd].
    + intros x (_ & ? & ?). split; [done|]. kept_values.
    + by intros row x Hc (? & _).
  - rewrite E4. eapply (table_written d r b "engine_events" _
      (fun e => [VTime (eeAt e); VStr (eeEvent e); VInt (eeEpoch e); VInt (eeEventIndex e);
                 VInt (eeUpdateID e); VInt (eeTradeID e); VStr (eeDetail e); VInt (eeDurationMs e)])
      ["at"; "event"; "epoch"; "event_index"; "update_id"; "trade_id"; "detail"; "duration_ms"]);
      [done|exact Hw|one_table|batch_table|done|event_columns|..|exact Be|exact He].
    + intros x _. split; [done|]. kept_values.
    + intros row e Hc Hs. by injection Hc as -> -> _ _ _ _ _ _.
Qed.
End Writing.
