(* ===== verification/DriverRef.v ===== *)
(** * The reference database meets the laws of the drivers

    [RefDB] with its queries: tables are lists of rows, inserts append.  It is an
    instance of what the theorems assume of SQLite ([QueryLaws], [StorageLaws]), and
    runs the witnesses and examples; the properties are stated over any instance. *)

From Stdlib Require Import Ascii.
From S2P Require Import Prelude Money GoTime Decimal Domain Float64 Wire TimeText TimeTextSpec StableSort Metrics MetricsStore MetricsQuery MemoryRepo Sqlite SqliteSpec SqliteRef SqliteQuery DriverSpec.
Import RefDB.

(** ** Queries of the reference database *)

#[global] Instance ref_queries : Queries DB := {|
  dbSelect d q :=
    Some (map (fun row => map (cell row) (seColumns q))
            (limited (seLimit q) (ordered cell (seDirection q) (seOrder q) (selected cell (seWhere q) (rows_of d (seTable q))))));
  dbCount d t conds := Some (len (selected cell conds (rows_of d t)));
  dbSum d t col conds :=
    Some (fold_left (fun n row => match cell row col with VInt z => n + z | _ => n end) (selected cell conds (rows_of d t)) 0);
  dbTiers d :=
    Some (map (fun row => (Some (match text_of (cell row "final_tier") with [] => text_of (cell row "initial_tier") | s => s end), 1))
            (rows_of d "sessions")) |}.
#[global] Instance ref_query_laws : QueryLaws rows_of cell.
Proof. split; [by intros d q rows [= <-] _|by intros d t conds n [= <-]]. Qed.

(** ** Its statements *)

Lemma rows_of_set d t rows u : rows_of (set_rows d t rows) u = if decide (t = u) then rows else rows_of d u.
Proof.
  unfold rows_of, set_rows. cbn. destruct (decide (t = u)) as [->|Hne]; [by rewrite lookup_insert_eq|by rewrite lookup_insert_ne].
Qed.

(** A plain insert appends all rows or fails. *)
Lemma fold_insert_none t rows : fold_left (insert_row false t) rows None = None.
Proof. by induction rows. Qed.
Lemma fold_insert_append t rows old new : fold_left (insert_row false t) rows (Some old) = Some new -> new = old ++ rows.
Proof.
  revert old. induction rows as [|row rows IH]; intros old; cbn [fold_left]; [intros [= ->]; by rewrite app_nil_r|].
  assert (Hor : insert_row false t (Some old) row = Some (old ++ [row]) \/ insert_row false t (Some old) row = None).
  { cbn [insert_row mbind option_bind]. destruct (unique_key t); [by left|]. destruct (existsb _ _); [by right|by left]. }
  destruct Hor as [->| ->]; [intros ->%IH; by rewrite <- app_assoc|by rewrite fold_insert_none].
Qed.

Lemma chunks_concat {A} fuel n (rows : list (list A)) :
  (0 < n)%nat -> Forall (fun r => length r = n) rows -> (length (concat rows) <= fuel)%nat ->
  chunks fuel n (concat rows) = rows.
Proof.
  intros Hn Hr. revert fuel. induction Hr as [|r rows Hr _ IH]; intros fuel Hf; [by destruct fuel|].
  cbn [concat] in *. rewrite length_app in Hf. destruct fuel as [|fuel]; [lia|].
  destruct (r ++ concat rows) as [|x l] eqn:E; [destruct r; [cbn in Hr; lia|done]|].
  cbn [chunks]. rewrite <- E, take_app_length', drop_app_length' by done. f_equal. apply IH. lia.
Qed.
Lemma cell_zip cols args : NoDup cols -> length cols = length args -> map (cell (zip cols args)) cols = args.
Proof.
  revert args. induction cols as [|c cols IH]; intros [|a args] Hnd Hl; try done. cbn [zip map cell].
  apply NoDup_cons in Hnd as [Hni Hnd]. rewrite decide_True by done. f_equal. injection Hl as Hl.
  transitivity (map (cell (zip cols args)) cols); [|by apply IH].
  apply list_fmap_ext. intros i x Hx. cbn [zip cell]. rewrite decide_False; [done|]. intros ->. apply Hni. by eapply list_elem_of_lookup_2.
Qed.

Lemma remove_first_sublist f n rows : fst (remove_first f n rows) `sublist_of` rows.
Proof.
  revert n. induction rows as [|row rows IH]; intros [|n]; cbn [remove_first]; try done.
  destruct (f row); [specialize (IH n)|specialize (IH (S n))]; destruct (remove_first f _ rows); cbn [fst] in *;
    by constructor.
Qed.

Lemma exec_run (tx tx' : Tx) st args : txExec tx st args = (tx', true) -> run st args (txNew tx) = Some (txNew tx').
Proof. cbn [txExec transaction]. destruct (run st args (txNew tx)); [by intros [= <-]|done]. Qed.

#[global] Instance ref_storage_laws : StorageLaws rows_of (fun tx => rows_of (txNew tx)) cell.
Proof.
  split.
  - by intros d tx t [= <-].
  - intros tx tx' t cols vals Hr%exec_run Hc Hnd Hv. cbn [run] in Hr. destruct (fold_left _ _ _) as [new|] eqn:Hf; [|done].
    injection Hr as <-. apply fold_insert_append in Hf as ->. eexists. rewrite rows_of_set, decide_True by done. split; [done|].
    rewrite chunks_concat; [..|lia]; [|destruct cols; cbn; [done|lia]|eapply Forall_impl; [exact Hv|by intros ? []]].
    apply Forall2_fmap. induction Hv as [|v vals [Hl _] _ IH]; constructor; [|done]. cbn. by apply cell_zip.
  - intros tx tx' replace t cols n args u Hr%exec_run Hu. cbn [run] in Hr. destruct (fold_left _ _ _); [|done].
    injection Hr as <-. by rewrite rows_of_set, decide_False.
  - intros tx tx' args u [= <-]%exec_run Hu. by rewrite rows_of_set, decide_False.
  - by intros tx d t [= <-].
  - intros d d' t c cutoff n k u. cbn [dbDelete deletion].
    pose proof (remove_first_sublist (fun row => expired cutoff (cell row c)) (Z.to_nat n) (rows_of d t)) as Hs.
    destruct (remove_first _ _ _) as [rows j]. intros [= <- _]. rewrite rows_of_set. by case_decide; subst.
Qed.

(** ** Concrete inputs *)

Import Inputs.

Definition at_ms (ms : Z) : Time := unixNanos (1709251200000000000 + ms * Millisecond + 999).
Definition demo_sample (seq ms : Z) : LatencySample := mkLatency "a" seq (f64_of_Z 40) (f64_of_Z 3) 5 0 (at_ms ms) false false.
Definition demo_batch : Batch :=
  mkBatch [demo_sample 1 7; demo_sample 2 3; demo_sample 3 5000] [] [mkTierRow "a" (at_ms 4) "FULL" "REDUCED" "degrade" (f64_of_Z 200) (f64_of_Z 9) 3 ""]
    [] [] [] [mkSessionWrite (session "a") false] [] [] [].
Definition written_repo : @SqlRepo DB := fst (Sql_WriteBatch (T := Tx) empty_repo demo_batch).

Lemma at_ms_stored ms : 0 <= ms < 100000 -> stored_at (at_ms ms).
Proof.
  intros Hms. unfold stored_at, representable, millis, at_ms, unixNanos, unixToInternal, Second, Millisecond. cbn [ns].
  split; [lia|]. apply Z.div_str_pos. lia.
Qed.

(** Two transitions of one millisecond: SQLite lists the later one first, the
    in-memory driver the earlier one. *)
Definition demo_tiers : Batch :=
  mkBatch [] [] [mkTierRow "a" (at_ms 4) "FULL" "REDUCED" "degrade" (f64_of_Z 200) (f64_of_Z 9) 3 "";
                        mkTierRow "a" (at_ms 4) "REDUCED" "MINIMAL" "degrade" (f64_of_Z 400) (f64_of_Z 9) 3 ""] [] [] [] [] [] [] [].
Example ties_differ :
  let m := Mem_WriteBatch NewRepository demo_tiers in
  twTo <$> Mem_TierTransitions (cut_millis m) zeroTime zeroTime 10 = ["REDUCED"; "MINIMAL"] /\
  match Sql_TierTransitions (fst (Sql_WriteBatch (T := Tx) empty_repo demo_tiers)) zeroTime zeroTime 10 with
  | inl out => twTo <$> out = ["MINIMAL"; "REDUCED"]
  | inr _ => False
  end.
Proof. vm_compute. by split. Qed.

(** Samples written out of order come back in order, within the window. *)
Lemma drivers_agree_witness :
  represents (rows_of := rows_of) (cell := cell) (sqDB written_repo) (Mem_WriteBatch NewRepository demo_batch) /\
  exists out, Sql_LatencySamples written_repo (mkLatencyQuery "a" (at_ms 0) (at_ms 1000) 10) = inl out /\
    map lsSeq out = [2; 1] /\ map lsServerTime out = [to_millis (at_ms 3); to_millis (at_ms 7)].
Proof.
  assert (Hrep : represents (rows_of := rows_of) (cell := cell) (sqDB written_repo) (Mem_WriteBatch NewRepository demo_batch)).
  { apply (written_represents (RefDB.mkDB ∅)); [by split; constructor| |reflexivity].
    split; repeat constructor; try (apply at_ms_stored; lia); by left. }
  split; [exact Hrep|].
  destruct (drivers_agree written_repo _ "a" (at_ms 0) (at_ms 1000) 10 eq_refl Hrep) as [Hl _];
    [right; apply at_ms_stored; lia|right; apply at_ms_stored; lia|lia|].
  eexists. split; [apply Hl; done|]. split; vm_compute; reflexivity.
Defined.
