(* ===== verification/Lifecycle.v ===== *)
(** * The life of the process: [run] of [cmd/server/main.go]

    What starts, in which order, and what is released on every way out.  A step
    that can fail takes its outcome from outside; the deferred calls of the
    function run in reverse order however it returns. *)

From S2P Require Import Prelude Money GoTime Decimal Domain Float64 Config Startup.
From S2P Require Feed Json JsonText Fixture.

Inductive Step :=
| SMakeDir | SOpenStore | SBuildProvider (market : string) | SNewEngine (market : string) | SListen
| SRunEngine (market : string) | SWaitWarmup | SReportGauges | SServe
| SCloseSessions (wait : Z) | SShutdownServer | SFlushStore
| SCloseListener | SCloseStore | SStopSignals.
#[global] Instance Step_eq_dec : EqDecision Step.
Proof. solve_decision. Defined.

Inductive RunError :=
| RConfig (e : LoadError) | RSymbol | RMakeDir | ROpenStore | RProvider (market : string) | REngine (market : string)
| RListen | RServe.

Inductive EndReason := ServeFailed | EngineEnded | Signalled.

(** [ouOk] is whether a step succeeds. *)
Record Outside := mkOutside {
  ouEnv : Config.Env; ouDotenv : option (list text); ouDir : text -> text; ouOk : Step -> bool; ouEnd : EndReason }.

Definition Trace : Type := list Step * option RunError.
(** A step that ends the function when it fails, and one that cannot. *)
Definition attempt (o : Outside) (s : Step) (e : RunError) (k : Trace) : Trace :=
  if ouOk o s then (s :: fst k, snd k) else ([s], Some e).
Definition perform (l : list Step) (k : Trace) : Trace := (l ++ fst k, snd k).
Definition deferred (s : Step) (k : Trace) : Trace := (fst k ++ [s], snd k).

(** [buildProvider]: the source of a market, by two variables of the environment
    and the files.  The fault schedule of the environment is empty, so nothing is
    wrapped. *)
Inductive Source := Synthetic (cfg : Feed.SynConfig) | Replay (p : Feed.ReplayProvider).
Record Files := mkFiles { fsProvider : text; fsFixture : text; fsRead : text -> option (text * bool) }.
Definition default_fixture : text := txt "../fixtures/replay/trades_basic.jsonl".
Definition choose_source (fs : Files) (cfg : Config) (sym : Symbol) : Fixture.outcome Fixture.FixtureError Source :=
  if bool_decide (fsProvider fs = txt "replay") then
    let path := if bool_decide (fsFixture fs = []) then default_fixture else fsFixture fs in
    r ← Fixture.NewReplay sym true (fsRead fs path);
    Some (match r with inl p => inl (Replay p) | inr e => inr e end)
  else Some (inl (Synthetic (buildProvider cfg sym (DerivedSeed (cfGeneratorSeed cfg) (ID sym))))).

Definition needs_dir (o : Outside) (cfg : Config) : bool :=
  let dir := ouDir o (cfMetricsDBPath cfg) in
  cfMetricsEnabled cfg && bool_decide (cfMetricsDriver cfg = txt "sqlite") && negb (bool_decide (cfMetricsDBPath cfg = [])) &&
  negb (bool_decide (dir = txt ".")) && negb (bool_decide (dir = [])).

Fixpoint build_markets (o : Outside) (symbols : list Symbol) (k : Trace) : Trace :=
  match symbols with
  | [] => k
  | sym :: symbols =>
      attempt o (SBuildProvider (ID sym)) (RProvider (ID sym)) (
      attempt o (SNewEngine (ID sym)) (REngine (ID sym)) (build_markets o symbols k))
  end.

Definition shutdown (cfg : Config) : list Step :=
  [SCloseSessions (Z.quot (cfShutdownGrace cfg) 2); SShutdownServer; SFlushStore].

Definition serve (o : Outside) (cfg : Config) : Trace :=
  perform (map (fun sym => SRunEngine (ID sym)) AllSymbols ++ [SWaitWarmup; SReportGauges; SServe])
    (match ouEnd o with
     | ServeFailed => ([], Some RServe)
     | EngineEnded | Signalled => (shutdown cfg, None)
     end).

Definition run (o : Outside) : Trace :=
  match Load (ouEnv o) (ouDotenv o) with
  | inr e => ([], Some (RConfig e))
  | inl cfg =>
      match Lookup (String.string_of_list_ascii (cfSymbol cfg)) with
      | Err _ => ([], Some RSymbol)
      | Ok _ =>
          deferred SStopSignals (
          let open := attempt o SOpenStore ROpenStore (
            deferred SCloseStore (
            build_markets o AllSymbols (
            attempt o SListen RListen (
            deferred SCloseListener (serve o cfg))))) in
          if needs_dir o cfg then attempt o SMakeDir RMakeDir open else open)
      end
  end.

(** ** Every way out *)

(** A step before the listener is bound. *)
Definition booting (s : Step) : bool :=
  match s with SMakeDir | SOpenStore | SBuildProvider _ | SNewEngine _ => true | _ => false end.
Definition runs_engine (s : Step) : bool := match s with SRunEngine _ => true | _ => false end.

Lemma build_markets_spec o symbols k :
  exists l, Forall (fun s => booting s = true /\ s <> SOpenStore) l /\
    ((build_markets o symbols k = (l ++ fst k, snd k) /\ forall sym, sym ∈ symbols -> SNewEngine (ID sym) ∈ l) \/
     exists e, build_markets o symbols k = (l, Some e)).
Proof.
  induction symbols as [|sym symbols (l & Hl & IH)]; cbn [build_markets].
  { exists []. split; [constructor|]. left. split; [by destruct k|]. intros ? ?%elem_of_nil. done. }
  unfold attempt. destruct (ouOk o (SBuildProvider (ID sym))); cbn [fst snd].
  2:{ exists [SBuildProvider (ID sym)]. split; [by apply Forall_singleton|]. right. eexists. reflexivity. }
  destruct (ouOk o (SNewEngine (ID sym))); cbn [fst snd].
  2:{ exists [SBuildProvider (ID sym); SNewEngine (ID sym)]. split; [|right; eexists; reflexivity].
      by apply Forall_cons_2; [|apply Forall_singleton]. }
  exists (SBuildProvider (ID sym) :: SNewEngine (ID sym) :: l).
  split; [by apply Forall_cons_2; [|apply Forall_cons_2]|].
  destruct IH as [[-> Hin]|[e ->]]; [left|right; by exists e]. split; [done|]. intros s Hs.
  apply elem_of_cons in Hs as [->|Hs]; [by right; left|by right; right; apply Hin].
Qed.

Definition engine_runs : list Step := map (fun sym => SRunEngine (ID sym)) AllSymbols.

(** The ways to return: before the store is open, while the markets are built or
    the listener bound, because the server failed, or in order. *)
Inductive Shape (o : Outside) : Trace -> Prop :=
| ShapeRefused err : Shape o ([], Some err)
| ShapeNoStore l l' err : Forall (fun s => s = SMakeDir) l ->
    (l' = [] \/ l' = [SOpenStore] /\ ouOk o SOpenStore = false) -> Shape o (l ++ l' ++ [SStopSignals], Some err)
| ShapeNoServer l l' err : Forall (fun s => s = SMakeDir) l -> ouOk o SOpenStore = true ->
    Forall (fun s => (booting s = true \/ s = SListen /\ ouOk o s = false) /\ s <> SOpenStore) l' ->
    Shape o (l ++ [SOpenStore] ++ l' ++ [SCloseStore; SStopSignals], Some err)
| ShapeServed l l' stop err : Forall (fun s => s = SMakeDir) l -> ouOk o SOpenStore = true -> ouOk o SListen = true ->
    Forall (fun s => booting s = true /\ s <> SOpenStore) l' ->
    (forall sym, sym ∈ AllSymbols -> SNewEngine (ID sym) ∈ l') ->
    (stop = [] /\ err = Some RServe \/
     exists wait, stop = [SCloseSessions wait; SShutdownServer; SFlushStore] /\ err = None) ->
    Shape o (l ++ [SOpenStore] ++ l' ++ [SListen] ++ engine_runs ++ [SWaitWarmup; SReportGauges; SServe] ++ stop ++
           [SCloseListener; SCloseStore; SStopSignals], err).

Lemma open_shape o cfg pre : Forall (fun s => s = SMakeDir) pre ->
  Shape o (deferred SStopSignals (perform pre (attempt o SOpenStore ROpenStore (deferred SCloseStore (
    build_markets o AllSymbols (attempt o SListen RListen (deferred SCloseListener (serve o cfg)))))))).
Proof.
  intros Hpre. set (k := attempt o SListen _ _). unfold attempt, perform, deferred. cbn [fst snd].
  destruct (ouOk o SOpenStore) eqn:Ho; cbn [fst snd].
  2:{ rewrite <- app_assoc. apply ShapeNoStore; [done|by right]. }
  destruct (build_markets_spec o AllSymbols k) as (l & Hl & [[-> Hin]|[e ->]]); cbn [fst snd].
  2:{ rewrite <- !app_assoc, <- app_comm_cons, <- app_assoc. apply (ShapeNoServer o pre l e); [done..|].
      eapply Forall_impl; [exact Hl|]. intros s [Hs ?]. by split; [left|]. }
  unfold k, attempt, deferred, serve, perform. destruct (ouOk o SListen) eqn:Hli; cbn [fst snd].
  2:{ rewrite <- !app_assoc, <- app_comm_cons, <- !app_assoc. rewrite (app_assoc l).
      apply (ShapeNoServer o pre (l ++ [SListen])); [done..|]. apply Forall_app. split; [|by apply Forall_singleton; split; [right|]].
      eapply Forall_impl; [exact Hl|]. intros s [Hs ?]. by split; [left|]. }
  destruct (ouEnd o); cbn [fst snd]; fold engine_runs;
    [pose proof (ShapeServed o pre l [] (Some RServe) Hpre Ho Hli Hl Hin) as HS
    |pose proof (ShapeServed o pre l (shutdown cfg) None Hpre Ho Hli Hl Hin) as HS
    |pose proof (ShapeServed o pre l (shutdown cfg) None Hpre Ho Hli Hl Hin) as HS];
    (eapply eq_ind; [apply HS; first [by left|right; by eexists]|]);
    by rewrite <- ?app_assoc, <- ?app_comm_cons, <- ?app_assoc, <- ?app_comm_cons.
Qed.

Lemma run_shape o : Shape o (run o).
Proof.
  unfold run. destruct (Load _ _) as [cfg|e]; [|constructor].
  destruct (Lookup _) as [sym|e]; [|constructor]. cbv zeta.
  destruct (needs_dir o cfg); [|exact (open_shape o cfg [] (Forall_nil_2 _))].
  unfold attempt at 1. destruct (ouOk o SMakeDir).
  - apply (open_shape o cfg [SMakeDir]). by apply Forall_singleton.
  - apply (ShapeNoStore o [SMakeDir] []); [by apply Forall_singleton|by left].
Qed.

(** How often a step is taken, on each part of a shape. *)
Definition times (s : Step) (l : list Step) : nat := length (filter (fun s' => s' = s) l).
Lemma step_times_app s l l' : times s (l ++ l') = (times s l + times s l')%nat.
Proof. unfold times. by rewrite filter_app, length_app. Qed.
Lemma times_none (P : Step -> Prop) s l : Forall P l -> ~ P s -> times s l = 0%nat.
Proof.
  intros Hl Hs. unfold times. induction Hl as [|x l Hx _ IH]; [done|].
  rewrite filter_cons_False; [done|]. by intros ->.
Qed.
Lemma engines_only : Forall (fun s => runs_engine s = true) engine_runs.
Proof. apply Forall_forall. intros s Hs. apply list_elem_of_fmap in Hs as (? & -> & _). done. Qed.

(** The steps before the first one of a kind are before every one of that kind. *)
Lemma before_kind (P : Step -> bool) A B l s r :
  Forall (fun x => P x = false) A -> P s = true -> A ++ B = l ++ s :: r -> exists k, l = A ++ k.
Proof.
  revert l. induction A as [|a A IH]; intros l HA Hs Heq; [by exists l|].
  apply Forall_cons in HA as [Ha HA]. destruct l as [|b l]; cbn in Heq; injection Heq as -> Heq; [congruence|].
  destruct (IH l HA Hs Heq) as [k ->]. by exists k.
Qed.

Lemma no_kind (P : Step -> bool) l s r : P s = true -> ~ Forall (fun x => P x = false) (l ++ s :: r).
Proof. intros Hs [_ [H _]%Forall_cons]%Forall_app. congruence. Qed.

Ltac kinds := intros []; cbn; naive_solver.
(** What a part of a shape has none of, read off what all its steps are. *)
Ltac none := rewrite ?Forall_app; split_and?; try done;
  first [apply Forall_singleton; done|by repeat apply Forall_cons_2|eapply Forall_impl; [eassumption|kinds]].

Lemma shape_engines o t : Shape o t -> forall l m r, fst t = l ++ SRunEngine m :: r ->
  SListen ∈ l /\ forall sym, sym ∈ AllSymbols -> SNewEngine (ID sym) ∈ l.
Proof.
  intros [err|l0 l1 err Hl [->|[-> Ho]]|l0 l1 err Hl Ho Hl1|l0 l1 stop err Hl Ho Hli Hl1 Hin Hs] l m r; cbn [fst].
  { by destruct l. }
  1-3: intros Heq; destruct (no_kind runs_engine l (SRunEngine m) r); [done|]; rewrite <- Heq; none.
  intros Heq. rewrite 2!app_assoc, (app_assoc _ [SListen]) in Heq.
  apply before_kind with (P := runs_engine) in Heq as [k ->]; [|none|done].
  split; [by apply elem_of_app; left; apply elem_of_app; right; left|].
  intros sym Hsym. apply elem_of_app; left. apply elem_of_app; left. apply elem_of_app; right. by apply Hin.
Qed.

Lemma stop_times s stop err : (stop = [] /\ err = Some RServe \/
  exists wait, stop = [SCloseSessions wait; SShutdownServer; SFlushStore] /\ err = None :> option RunError) ->
  s = SCloseStore \/ s = SOpenStore \/ s = SCloseListener \/ s = SListen -> times s stop = 0%nat.
Proof. intros [[-> _]|(? & -> & _)] Hs; [done|]; by destruct Hs as [->|[->|[->| ->]]]. Qed.

(** The counts of the four steps that open and close, part by part. *)
Ltac counting := cbn [fst]; rewrite ?step_times_app;
  repeat match goal with
  | |- context [times ?s engine_runs] => rewrite (times_none _ s _ engines_only) by done
  | H : Forall _ ?l |- context [times ?s ?l] => rewrite (times_none _ s l H) by (intros ?; cbn in *; intuition congruence)
  | H : ?l = [] /\ _ \/ _ |- context [times ?s ?l] => rewrite (stop_times s l _ H) by naive_solver
  | |- context [times ?s ?l] => assert_fails (is_var l); let n := eval vm_compute in (times s l) in change (times s l) with n
  end.

Lemma shape_store o t : Shape o t ->
  times SCloseStore (fst t) = (if ouOk o SOpenStore then times SOpenStore (fst t) else 0)%nat /\
  (times SOpenStore (fst t) <= 1)%nat.
Proof.
  intros [err|l0 l1 err Hl [->|[-> Ho]]|l0 l1 err Hl Ho Hl1|l0 l1 stop err Hl Ho Hli Hl1 Hin Hs];
    try rewrite Ho; counting; try destruct (ouOk _ _); lia.
Qed.

Lemma shape_listener o t : Shape o t ->
  times SCloseListener (fst t) = (if ouOk o SListen then times SListen (fst t) else 0)%nat.
Proof.
  intros [err|l0 l1 err Hl [->|[-> Ho]]|l0 l1 err Hl Ho Hl1|l0 l1 stop err Hl Ho Hli Hl1 Hin Hs];
    try rewrite Hli; try (destruct (ouOk o SListen) eqn:E); counting; lia.
Qed.

Lemma shape_last o t : Shape o t -> SCloseStore ∈ fst t ->
  exists l, fst t = l ++ [SCloseStore; SStopSignals] /\ SCloseStore ∉ l.
Proof.
  intros Ht Hin. assert (exists l, fst t = l ++ [SCloseStore; SStopSignals]) as [l Hl].
  { destruct Ht as [err|l0 l1 err Hl Hs|l0 l1 err Hl Ho Hl1|l0 l1 stop err Hl Ho Hli Hl1 Hin' Hs]; cbn [fst] in *.
    - by apply elem_of_nil in Hin.
    - exfalso. rewrite app_assoc in Hin. apply elem_of_app in Hin as [Hin|Hin]; [|by apply list_elem_of_singleton in Hin].
      apply elem_of_app in Hin as [Hin|Hin]; [by rewrite Forall_forall in Hl; apply Hl in Hin|].
      destruct Hs as [->|[-> _]]; [by apply elem_of_nil in Hin|by apply list_elem_of_singleton in Hin].
    - exists (l0 ++ [SOpenStore] ++ l1). by rewrite <- !app_assoc.
    - exists (l0 ++ [SOpenStore] ++ l1 ++ [SListen] ++ engine_runs ++ [SWaitWarmup; SReportGauges; SServe] ++ stop ++ [SCloseListener]).
      by rewrite <- !app_assoc. }
  exists l. split; [done|]. intros Hagain. destruct (shape_store o t Ht) as [Hc Ho]. rewrite Hl, step_times_app in Hc.
  rewrite <- Hl in Hc. assert (1 <= times SCloseStore l)%nat.
  { apply list_elem_of_split in Hagain as (l1 & l2 & ->). rewrite step_times_app.
    change (SCloseStore :: l2) with ([SCloseStore] ++ l2). rewrite step_times_app.
    change (times SCloseStore [SCloseStore]) with 1%nat. lia. }
  change (times SCloseStore [SCloseStore; SStopSignals]) with 1%nat in Hc.
  destruct (ouOk o SOpenStore); lia.
Qed.

Lemma shape_orderly o t : Shape o t -> snd t = None -> exists l wait, fst t =
  l ++ [SServe; SCloseSessions wait; SShutdownServer; SFlushStore; SCloseListener; SCloseStore; SStopSignals].
Proof.
  intros [err|l0 l1 err Hl Hs|l0 l1 err Hl Ho Hl1|l0 l1 stop err Hl Ho Hli Hl1 Hin Hs]; cbn [fst snd]; try done.
  intros ->. destruct Hs as [[_ ?]|(wait & -> & _)]; [done|].
  exists (l0 ++ [SOpenStore] ++ l1 ++ [SListen] ++ engine_runs ++ [SWaitWarmup; SReportGauges]), wait.
  by rewrite <- !app_assoc.
Qed.

(** C26: start-up and shutdown of the process, whatever fails on the way.  No
    engine runs before the port is bound and every market of the roster has its
    engine; the metrics store is closed exactly once if it was opened and never
    otherwise, after everything else but the release of the signals; the
    listener is closed exactly when it was bound; and [run] returns without an
    error only after closing the sessions, then the server, then flushing the
    store, before the deferred releases. *)
Theorem run_lifecycle o :
  (forall l m r, fst (run o) = l ++ SRunEngine m :: r ->
     SListen ∈ l /\ forall sym, sym ∈ AllSymbols -> SNewEngine (ID sym) ∈ l) /\
  times SCloseStore (fst (run o)) = (if ouOk o SOpenStore then times SOpenStore (fst (run o)) else 0)%nat /\
  (times SOpenStore (fst (run o)) <= 1)%nat /\
  (SCloseStore ∈ fst (run o) -> exists l, fst (run o) = l ++ [SCloseStore; SStopSignals] /\ SCloseStore ∉ l) /\
  times SCloseListener (fst (run o)) = (if ouOk o SListen then times SListen (fst (run o)) else 0)%nat /\
  (snd (run o) = None -> exists l wait, fst (run o) =
     l ++ [SServe; SCloseSessions wait; SShutdownServer; SFlushStore; SCloseListener; SCloseStore; SStopSignals]).
Proof.
  pose proof (run_shape o) as H. split; [exact (shape_engines o _ H)|].
  split; [apply (shape_store o _ H)|]. split; [apply (shape_store o _ H)|].
  split; [exact (shape_last o _ H)|]. split; [exact (shape_listener o _ H)|exact (shape_orderly o _ H)].
Qed.

(** An empty environment, every step succeeding, and an interrupt. *)
Definition quiet : Outside := mkOutside ∅ None (fun _ => txt ".") (fun _ => true) Signalled.

Lemma run_lifecycle_witness : snd (run quiet) = None /\ exists l wait, fst (run quiet) =
  l ++ [SServe; SCloseSessions wait; SShutdownServer; SFlushStore; SCloseListener; SCloseStore; SStopSignals].
Proof.
  assert (H : snd (run quiet) = None) by (vm_compute; reflexivity).
  split; [exact H|]. apply (proj2 (proj2 (proj2 (proj2 (proj2 (run_lifecycle quiet))))) H).
Defined.

(** The replayed file names no market, and every market of the roster is given
    the same one: a line recorded for one market is a trade of each of them. *)
Definition shared_line : text :=
  JsonText.Marshal (Json.JObj [("type", Json.JStr "trade"); ("timestamp", Json.JStr "2026-09-17T12:40:01Z");
    ("price", Json.JStr "67421.35"); ("quantity", Json.JStr "0.184")]%string).
Definition shared_fixture : Files := mkFiles (txt "replay") [] (fun _ => Some (shared_line, false)).
Example shared_prices cfg :
  map (fun sym => match choose_source shared_fixture cfg sym with
                  | Some (inl (Replay p)) => Feed.firstPrice p
                  | _ => 0
                  end) AllSymbols =
  [6742135; 67421350; 674213500; 674213500; 674213500; 674213500].
Proof. vm_compute. reflexivity. Qed.
