(* ===== verification/SqlWriter.v ===== *)
(** * The batching writer of the SQLite package: [sqlite/writer.go]

    The second form of the metrics writer, which takes its batches straight from
    the queue instead of a pending list.  The driver is the class [Repository]
    that the store's writer uses, whose instance for SQLite is
    [sql_repository]; what the loop selects, when contexts end and what arrives
    between two queue operations are arguments.  The callbacks are recorded as
    notices; log lines are not modelled. *)

From S2P Require Import Prelude GoTime Metrics MetricsStore.

(** A call of one of the four callbacks of [WriterOptions]. *)
Inductive Notice :=
| WriteFailed | WriteSucceeded (rows : Z) | RowsPruned (rows : Z) | FlushDone (ms : Z).

Record Writer (R : Type) := mkWriter {
  bwRepo : R; bwOpts : WriterOptions; bwQueue : recordQueue; bwErr : option DriverError;
  bwNotices : list Notice }.
Arguments mkWriter {R}. Arguments bwRepo {R}. Arguments bwOpts {R}. Arguments bwQueue {R}.
Arguments bwErr {R}. Arguments bwNotices {R}.

(** What happens around a drain: the records pushed before its [k]-th batch,
    whether its context has ended after it, and whether a call of [Err] holds
    the error's lock at that moment. *)
Record Around := mkAround {
  arArrivals : nat -> list record; arEnded : nat -> bool; arReading : nat -> bool; arElapsedMs : Z }.

(** Producers push; what the queue drops is theirs to count. *)
Definition push_all (q : recordQueue) (rs : list record) : recordQueue :=
  fold_left (fun q r => fst (push q r)) rs q.

(** [withDefaults] of this package's own [WriterOptions]. *)
Definition sqlite_withDefaults (o : WriterOptions) : WriterOptions :=
  mkWriterOptions (if woBatchSize o <=? 0 then 128 else woBatchSize o)
    (if woFlushInterval o <=? 0 then 250 * Millisecond else woFlushInterval o)
    (if woRetryBackoff o <=? 0 then 50 * Millisecond else woRetryBackoff o) (woRetention o)
    (if woPruneInterval o <=? 0 then 10 * Minute else woPruneInterval o)
    (if woPruneBatch o <=? 0 then 5000 else woPruneBatch o)
    (if woCheckpointInterval o <=? 0 then 5 * Minute else woCheckpointInterval o).
(** The options a repository keeps for its writer, and those it kept before.
    The type is this package's, so the repository is not a [WriterProvider] of
    the store and the store never calls it. *)
Definition ConfigureWriter (kept opts : WriterOptions) : WriterOptions := sqlite_withDefaults opts.

Section Writer.
Context {R : Type} `{Repository R}.
Implicit Types w : Writer R.

Definition with_repo w (r : R) : Writer R := mkWriter r (bwOpts w) (bwQueue w) (bwErr w) (bwNotices w).
Definition with_queue w (q : recordQueue) : Writer R := mkWriter (bwRepo w) (bwOpts w) q (bwErr w) (bwNotices w).
Definition notify w (n : Notice) : Writer R :=
  mkWriter (bwRepo w) (bwOpts w) (bwQueue w) (bwErr w) (bwNotices w ++ [n]).

Definition NewWriter (repo : R) (queue : recordQueue) (opts : WriterOptions) : Writer R :=
  mkWriter repo (sqlite_withDefaults opts) queue None [].

(** The lock is only tried: while [Err] holds it the error is not kept. *)
Definition setErr w (reading : bool) (e : DriverError) : Writer R :=
  if reading then w else mkWriter (bwRepo w) (bwOpts w) (bwQueue w) (Some e) (bwNotices w).
(** [Err], which answers nothing while the lock is taken. *)
Definition Writer_Err w (locked : bool) : option DriverError := if locked then None else bwErr w.

Definition w_succeeded w (b : Batch) : Writer R := notify w (WriteSucceeded (Batch_Len b)).

Definition w_commit w (b : Batch) (reading : bool) : Writer R * option DriverError :=
  let '(repo, err) := WriteBatch (bwRepo w) b in
  let w := with_repo w repo in
  match err with
  | None => (w_succeeded w b, None)
  | Some _ =>
      let '(repo, err) := WriteBatch (bwRepo w) b in
      let w := with_repo w repo in
      match err with
      | None => (w_succeeded w b, None)
      | Some e => (notify (setErr w reading e) WriteFailed, Some e)
      end
  end.

(** The records of the next batch, after [arrivals] came in. *)
Definition next_batch w (arrivals : list record) : Writer R * Batch :=
  let '(q, records) := Drain (push_all (bwQueue w) arrivals) (woBatchSize (bwOpts w)) in
  (with_queue w q, ToBatch records).

Fixpoint w_drain_loop (fuel : nat) (a : Around) (all : bool) (k : nat) w (written : Z)
    (failure : option DriverError) : option (Writer R * option DriverError) :=
  match fuel with
  | O => None
  | S fuel =>
      if maxDrainPerBatch <=? written then Some (w, failure)
      else
        let '(w, batch) := next_batch w (arArrivals a k) in
        if Batch_Len batch =? 0 then Some (w, failure)
        else
          let written := written + Batch_Len batch in
          let '(w, err) := w_commit w batch (arReading a k) in
          let failure := match err with Some e => Some e | None => failure end in
          if negb all && (Batch_Len batch <? woBatchSize (bwOpts w)) then Some (w, failure)
          else w_drain_loop fuel a all (S k) w (if arEnded a k then maxDrainPerBatch else written) failure
  end.

(** A round writes a row or ends the loop. *)
Definition w_drain w (a : Around) (all : bool) : option (Writer R * option DriverError) :=
  '(w, failure) ← w_drain_loop (S (Z.to_nat maxDrainPerBatch)) a all 0 w 0 None;
  Some (notify w (FlushDone (arElapsedMs a)), failure).

(** A pruning error is swallowed. *)
Definition w_prune w (now : Time) : Writer R :=
  match PruneForStore with
  | None => w
  | Some f =>
      let '(repo, total, err) := f (bwRepo w) (tUTC now) (woRetention (bwOpts w)) (woPruneBatch (bwOpts w)) in
      let w := with_repo w repo in
      match err with
      | Some _ => w
      | None => if total =? 0 then w else notify w (RowsPruned total)
      end
  end.

(** The last drain, with a deadline of its own. *)
Fixpoint w_finish_loop (fuel : nat) (a : Around) (k : nat) w (written : Z) : option (Writer R) :=
  match fuel with
  | O => None
  | S fuel =>
      if maxDrainPerBatch <=? written then Some w
      else
        let '(w, batch) := next_batch w (arArrivals a k) in
        if Batch_Len batch =? 0 then Some w
        else
          let written := written + Batch_Len batch in
          let '(w, err) := w_commit w batch (arReading a k) in
          match err with
          | Some _ => Some w
          | None => if arEnded a k then Some w else w_finish_loop fuel a (S k) w written
          end
  end.
Definition w_finish w (a : Around) : option (Writer R) :=
  w_finish_loop (S (Z.to_nat maxDrainPerBatch)) a 0 w 0.

(** What the loop of [Start] selected. *)
Inductive WriterWake := Stopped | Requested | FlushTick | PruneTick (now : Time) | CheckpointTick.

(** One round of [Start]: the writer, whether it goes on, and the answer to a
    flush request.  A failed checkpoint is only logged. *)
Definition Start_round (checkpoint : R -> R) w (a : Around) (wake : WriterWake)
    : option (Writer R * bool * option (option DriverError)) :=
  match wake with
  | Stopped => w ← w_finish w a; Some (w, false, None)
  | Requested => '(w, err) ← w_drain w a true; Some (w, true, Some err)
  | FlushTick => '(w, _) ← w_drain w a false; Some (w, true, None)
  | PruneTick now => Some (w_prune w now, true, None)
  | CheckpointTick => Some (with_repo w (checkpoint (bwRepo w)), true, None)
  end.
End Writer.

(** ** [Flush], at the caller *)

(** What each of its two selects finds. *)
Inductive FlushWait (A : Type) := Proceeds (a : A) | WriterClosed | CallerEnded.
Arguments Proceeds {A}. Arguments WriterClosed {A}. Arguments CallerEnded {A}.

Inductive FlushError := FlushFailed (e : DriverError) | FlushInterrupted.

Definition Writer_Flush (hand_over : FlushWait unit) (answer : FlushWait (option DriverError)) : option FlushError :=
  match hand_over with
  | WriterClosed => None
  | CallerEnded => Some FlushInterrupted
  | Proceeds _ =>
      match answer with
      | Proceeds err => FlushFailed <$> err
      | WriterClosed => None
      | CallerEnded => Some FlushInterrupted
      end
  end.
