(* ===== verification/SqlWriterSpec.v ===== *)
(** * The two writers compared

    A flush request served by the SQLite package's writer and one served by the
    store's writer are, with nothing going on around them, the same sequence of
    attempts on the driver, one per batch; at shutdown they are the same only
    when at most one batch is left.  The drain of the former ends and loses
    nothing whatever arrives in the meantime. *)

From S2P Require Import Prelude GoTime Metrics MetricsStore MetricsSpec Sqlite SqliteSpec SqlWriter.

Definition or_else {A} (x y : option A) : option A := match x with Some a => Some a | None => y end.
Lemma or_else_assoc {A} (x y z : option A) : or_else (or_else x y) z = or_else x (or_else y z).
Proof. by destruct x. Qed.

Lemma chunks_fuel {A} n f (l : list A) : (0 < n)%nat -> (length l <= f)%nat -> chunks f n l = chunks (length l) n l.
Proof.
  intros Hn. enough (forall g, (length l <= f)%nat -> (length l <= g)%nat -> chunks f n l = chunks g n l) as Hg
    by (intros; by apply Hg).
  intros g. revert g l. induction f as [|f IH]; intros [|g] [|x l] Hf Hg; try done; cbn in Hf, Hg; try lia.
  cbn [chunks]. f_equal. apply IH; rewrite length_drop; cbn; lia.
Qed.

(** Both packages have the same defaults. *)
Lemma defaults_agree o : sqlite_withDefaults o = wo_withDefaults o.
Proof. reflexivity. Qed.

(** The first batch of a run of records. *)
Lemma chunks_step {A} n (l : list A) : (0 < n)%nat -> l <> [] ->
  chunks (length l) n l = take n l :: chunks (length (drop n l)) n (drop n l).
Proof.
  intros Hn Hl. destruct l as [|x l]; [done|]. cbn [length chunks]. f_equal.
  apply chunks_fuel; [done|]. rewrite length_drop. cbn. lia.
Qed.
Lemma chunks_short {A} n (l : list A) : (0 < n)%nat -> l <> [] -> (length l <= n)%nat -> chunks (length l) n l = [l].
Proof. intros Hn Hl Hle. rewrite chunks_step by done. by rewrite take_ge, drop_ge by done. Qed.

(** ** Attempts *)

(** The rows the notices report as written, and the batches they report lost. *)
Definition rows_noticed (ns : list Notice) : Z :=
  total (map (fun n => match n with WriteSucceeded k => k | _ => 0 end) ns).
Definition losses_noticed (ns : list Notice) : Z :=
  total (map (fun n => match n with WriteFailed => 1 | _ => 0 end) ns).

Section Attempts.
Context {R : Type} `{Repository R}.

(** One batch: a second call if the first fails. *)
Definition attempt (r : R) (b : Batch) : R * option DriverError :=
  let '(r, err) := WriteBatch r b in match err with None => (r, None) | Some _ => WriteBatch r b end.

Definition attempt_notice (c : list record) (err : option DriverError) : Notice :=
  match err with None => WriteSucceeded (len c) | Some _ => WriteFailed end.

(** The driver, the last failure and the notices, after one more batch. *)
Definition deliver (st : R * option DriverError * list Notice) (c : list record) : R * option DriverError * list Notice :=
  let '(r, failure, ns) := st in
  let '(r, err) := attempt r (toBatch c) in (r, or_else err failure, ns ++ [attempt_notice c err]).
Definition deliver_all (n : nat) (l : list record) (st : R * option DriverError * list Notice)
    : R * option DriverError * list Notice := fold_left deliver (chunks (length l) n l) st.

Lemma deliver_all_step n l st : (0 < n)%nat -> l <> [] ->
  deliver_all n l st = deliver_all n (drop n l) (deliver st (take n l)).
Proof. intros Hn Hl. unfold deliver_all. by rewrite chunks_step. Qed.
Lemma deliver_all_short n l st : (0 < n)%nat -> l <> [] -> (length l <= n)%nat -> deliver_all n l st = deliver st l.
Proof. intros Hn Hl Hle. unfold deliver_all. by rewrite chunks_short. Qed.

(** ** The writer of the SQLite package *)

Implicit Types (w : Writer R) (s : Store R).

Definition outcome w (failure : option DriverError) : R * option DriverError * list Notice :=
  (bwRepo w, failure, bwNotices w).

Lemma w_commit_deliver w c failure reading :
  let '(w', err) := w_commit w (toBatch c) reading in
  outcome w' (or_else err failure) = deliver (outcome w failure) c /\ bwQueue w' = bwQueue w /\ bwOpts w' = bwOpts w /\
  (reading = false -> bwErr w' = or_else err (bwErr w)).
Proof.
  unfold w_commit, deliver, attempt, outcome, w_succeeded, setErr. destruct (WriteBatch (bwRepo w) (toBatch c)) as [r [e|]].
  - cbn [with_repo bwRepo]. destruct (WriteBatch r (toBatch c)) as [r' [e'|]]; [by destruct reading|].
    cbn. by rewrite toBatch_len.
  - cbn. by rewrite toBatch_len.
Qed.

Lemma next_batch_spec w arrivals l : queue_rep (push_all (bwQueue w) arrivals) l ->
  let '(w', b) := next_batch w arrivals in
  let n := Z.to_nat (woBatchSize (bwOpts w)) in
  b = toBatch (take n l) /\ queue_rep (bwQueue w') (drop n l) /\
  bwRepo w' = bwRepo w /\ bwNotices w' = bwNotices w /\ bwErr w' = bwErr w /\ bwOpts w' = bwOpts w.
Proof.
  intros Hq. unfold next_batch. pose proof (Drain_rep _ _ (woBatchSize (bwOpts w)) Hq) as Hd.
  destruct (Drain _ _) as [q out]. destruct Hd as (Hq' & _ & ->). cbv zeta.
  split_and!; try done. unfold ToBatch. by rewrite omap_Some.
Qed.

Definition undisturbed (a : Around) : Prop :=
  forall k, arArrivals a k = [] /\ arEnded a k = false /\ arReading a k = false.

Lemma w_drain_loop_quiet fuel a k w l written failure err0 : undisturbed a ->
  queue_rep (bwQueue w) l -> 1 <= woBatchSize (bwOpts w) -> (length l < fuel)%nat -> written + len l <= maxDrainPerBatch ->
  bwErr w = or_else failure err0 ->
  exists w' failure', w_drain_loop fuel a true k w written failure = Some (w', failure') /\ queue_rep (bwQueue w') [] /\
    outcome w' failure' = deliver_all (Z.to_nat (woBatchSize (bwOpts w))) l (outcome w failure) /\
    bwErr w' = or_else failure' err0.
Proof.
  intros Ha. revert k w l written failure. induction fuel as [|fuel IH]; intros k w l written failure Hq Hn Hf Hw He; [lia|].
  destruct (Ha k) as (Ea & Ee & Er). cbn [w_drain_loop].
  destruct (decide (l = [])) as [->|Hl].
  - destruct (Z.leb_spec maxDrainPerBatch written); [by exists w, failure|].
    rewrite Ea. pose proof (next_batch_spec w [] [] Hq) as Hb.
    destruct (next_batch w []) as [w1 b]. destruct Hb as (-> & Hq1 & E1 & E2 & E3 & _).
    rewrite take_nil, drop_nil in *. cbn. exists w1, failure. unfold outcome. by rewrite E1, E2, E3.
  - set (n := Z.to_nat (woBatchSize (bwOpts w))). assert (Hn0 : (0 < n)%nat) by (unfold n; lia).
    assert (Hpos : 0 < len l) by (unfold len; destruct l; [done|cbn; lia]).
    rewrite (proj2 (Z.leb_gt _ _)) by lia.
    rewrite Ea. pose proof (next_batch_spec w [] l Hq) as Hb.
    destruct (next_batch w []) as [w1 b]. destruct Hb as (-> & Hq1 & E1 & E2 & E3 & E4). fold n in Hq1. fold n.
    assert (Hlen : len l = len (take n l) + len (drop n l)) by (rewrite <- (take_drop n l) at 1; apply len_app).
    assert (Htake : 0 < len (take n l)) by (unfold len in *; rewrite length_take; lia).
    rewrite toBatch_len, (proj2 (Z.eqb_neq _ _)) by lia.
    pose proof (w_commit_deliver w1 (take n l) failure (arReading a k)) as Hc. rewrite Er in *.
    destruct (w_commit w1 _ _) as [w2 err]. destruct Hc as (Ho & E5 & E6 & E7). specialize (E7 eq_refl).
    cbn [negb andb]. rewrite Ee.
    destruct (IH (S k) w2 (drop n l) (written + len (take n l)) (or_else err failure)) as (w' & f' & Hr & Hq' & Ho' & He').
    { by rewrite E5. } { by rewrite E6, E4. } { rewrite length_drop. unfold len in Hpos. lia. } { lia. }
    { by rewrite E7, E3, He, or_else_assoc. }
    exists w', f'. split; [exact Hr|]. split; [exact Hq'|]. split; [|exact He'].
    rewrite Ho', Ho, E6, E4. fold n. rewrite (deliver_all_step n l) by done. unfold outcome. by rewrite E1, E2.
Qed.

(** Batches in turn until the driver refuses one twice; what was not tried. *)
Fixpoint deliver_until (batches : list (list record)) (r : R) : R * list record :=
  match batches with
  | [] => (r, [])
  | c :: batches =>
      let '(r, err) := attempt r (toBatch c) in
      match err with None => deliver_until batches r | Some _ => (r, concat batches) end
  end.

Lemma w_commit_attempt w c reading :
  let '(w', err) := w_commit w (toBatch c) reading in
  attempt (bwRepo w) (toBatch c) = (bwRepo w', err) /\ bwQueue w' = bwQueue w /\ bwOpts w' = bwOpts w.
Proof.
  unfold w_commit, attempt, w_succeeded, setErr. destruct (WriteBatch (bwRepo w) (toBatch c)) as [r [e|]]; [|done].
  cbn [with_repo bwRepo]. destruct (WriteBatch r (toBatch c)) as [r' [e'|]]; [by destruct reading|done].
Qed.

Lemma w_finish_loop_quiet fuel a k w l written : undisturbed a ->
  queue_rep (bwQueue w) l -> 1 <= woBatchSize (bwOpts w) -> (length l < fuel)%nat -> written + len l <= maxDrainPerBatch ->
  exists w' rest, w_finish_loop fuel a k w written = Some w' /\ queue_rep (bwQueue w') rest /\
    deliver_until (chunks (length l) (Z.to_nat (woBatchSize (bwOpts w))) l) (bwRepo w) = (bwRepo w', rest).
Proof.
  intros Ha. revert k w l written. induction fuel as [|fuel IH]; intros k w l written Hq Hn Hf Hw; [lia|].
  destruct (Ha k) as (Ea & Ee & Er). cbn [w_finish_loop].
  destruct (decide (l = [])) as [->|Hl].
  - destruct (Z.leb_spec maxDrainPerBatch written); [by exists w, []|].
    rewrite Ea. pose proof (next_batch_spec w [] [] Hq) as Hb.
    destruct (next_batch w []) as [w1 b]. destruct Hb as (-> & Hq1 & E1 & _).
    rewrite take_nil, drop_nil in *. cbn. exists w1, []. by rewrite E1.
  - set (n := Z.to_nat (woBatchSize (bwOpts w))). assert (Hn0 : (0 < n)%nat) by (unfold n; lia).
    assert (Hpos : 0 < len l) by (unfold len; destruct l; [done|cbn; lia]).
    rewrite (proj2 (Z.leb_gt _ _)) by lia.
    rewrite Ea. pose proof (next_batch_spec w [] l Hq) as Hb.
    destruct (next_batch w []) as [w1 b]. destruct Hb as (-> & Hq1 & E1 & _ & _ & E4). fold n in Hq1. fold n.
    assert (Hlen : len l = len (take n l) + len (drop n l)) by (rewrite <- (take_drop n l) at 1; apply len_app).
    assert (Htake : 0 < len (take n l)) by (unfold len in *; rewrite length_take; lia).
    rewrite toBatch_len, (proj2 (Z.eqb_neq _ _)) by lia.
    pose proof (w_commit_attempt w1 (take n l) (arReading a k)) as Hc.
    destruct (w_commit w1 _ _) as [w2 err]. destruct Hc as (Ho & E5 & E6). rewrite E1 in Ho.
    rewrite (chunks_step n l) by done. cbn [deliver_until]. rewrite Ho. destruct err as [e|].
    + exists w2, (drop n l). split; [done|]. split; [by rewrite E5|]. by rewrite concat_chunks.
    + rewrite Ee. destruct (IH (S k) w2 (drop n l) (written + len (take n l))) as (w' & rest & Hr & Hq' & Ho').
      { by rewrite E5. } { by rewrite E6, E4. } { rewrite length_drop. unfold len in Hpos. lia. } { lia. }
      exists w', rest. split; [exact Hr|]. split; [exact Hq'|]. by rewrite <- Ho', E6, E4.
Qed.

(** ** The writer of the store *)

(** The counters of the store, before and after, agree with the notices. *)
Definition counted s0 s (ns0 ns : list Notice) : Prop :=
  ctRowsWritten (stCounters s) = i64 (ctRowsWritten (stCounters s0) + (rows_noticed ns - rows_noticed ns0)) /\
  ctWriteFailures (stCounters s) = i64 (ctWriteFailures (stCounters s0) + (losses_noticed ns - losses_noticed ns0)).

Definition counters_fit (c : Counters) : Prop := in_i64 (ctRowsWritten c) /\ in_i64 (ctWriteFailures c).
Lemma counted_refl s ns : counters_fit (stCounters s) -> counted s s ns ns.
Proof. intros [Hr Hl]. unfold counted. by rewrite !Z.sub_diag, !Z.add_0_r, !i64_small. Qed.

Definition same_setting s s' : Prop := stQueue s' = stQueue s /\ stOpts s' = stOpts s /\ stCfg s' = stCfg s.

Lemma noticed_snoc ns n :
  rows_noticed (ns ++ [n]) = rows_noticed ns + (match n with WriteSucceeded k => k | _ => 0 end) /\
  losses_noticed (ns ++ [n]) = losses_noticed ns + (match n with WriteFailed => 1 | _ => 0 end).
Proof. unfold rows_noticed, losses_noticed. rewrite !map_app, !total_app. cbn [map]. rewrite !total_cons. change (total []) with 0. lia. Qed.

Lemma commit_deliver s0 s c failure ns0 ns : counted s0 s ns0 ns ->
  let '(s', err) := commit s (toBatch c) in
  exists ns', (stRepo s', or_else err failure, ns') = deliver (stRepo s, failure, ns) c /\ counted s0 s' ns0 ns' /\
    same_setting s s' /\ stPending s' = stPending s /\ stLastErr s' = or_else err (stLastErr s).
Proof.
  intros [Hr Hl]. unfold commit, deliver, attempt.
  assert (Hs : forall n, counted s0 s ns0 ns -> rows_noticed (ns ++ [n]) - rows_noticed ns0 =
    rows_noticed ns - rows_noticed ns0 + (match n with WriteSucceeded k => k | _ => 0 end) /\
    losses_noticed (ns ++ [n]) - losses_noticed ns0 =
    losses_noticed ns - losses_noticed ns0 + (match n with WriteFailed => 1 | _ => 0 end))
    by (intros n _; destruct (noticed_snoc ns n) as [-> ->]; lia).
  assert (Hok : forall s' ns', ns' = ns ++ [WriteSucceeded (len c)] ->
    stCounters s' = stCounters (succeeded s (toBatch c)) -> counted s0 s' ns0 ns').
  { intros s' ns' -> E. destruct (Hs (WriteSucceeded (len c)) (conj Hr Hl)) as [E1 E2]. unfold counted. rewrite E, E1, E2.
    cbn. rewrite Hr, Hl, toBatch_len, i64_add_l. split; f_equal; lia. }
  assert (Hbad : forall s', ctRowsWritten (stCounters s') = ctRowsWritten (stCounters s) ->
    ctWriteFailures (stCounters s') = i64 (ctWriteFailures (stCounters s) + 1) -> counted s0 s' ns0 (ns ++ [WriteFailed])).
  { intros s' E3 E4. destruct (Hs WriteFailed (conj Hr Hl)) as [E1 E2]. unfold counted. rewrite E3, E4, E1, E2.
    rewrite Hr, Hl, i64_add_l. split; f_equal; lia. }
  destruct (WriteBatch (stRepo s) (toBatch c)) as [r [e|]].
  - cbn [set_repo stRepo]. destruct (WriteBatch r (toBatch c)) as [r' [e'|]].
    + eexists. split; [reflexivity|]. split; [by apply Hbad|done].
    + eexists. split; [reflexivity|]. split; [by eapply Hok|done].
  - eexists. split; [reflexivity|]. split; [by eapply Hok|done].
Qed.

(** The store holds the same driver, failure and last error, with counters for
    the notices. *)
Definition stands s0 (err0 : option DriverError) (ns0 : list Notice) s (failure : option DriverError) (ns : list Notice)
    : Prop :=
  counted s0 s ns0 ns /\ same_setting s0 s /\ stLastErr s = or_else failure err0.

Lemma takePending_take s n : 0 < n <= len (stPending s) ->
  takePending s n = (set_pending s (drop (Z.to_nat n) (stPending s)), toBatch (take (Z.to_nat n) (stPending s))).
Proof.
  intros Hn. unfold takePending. rewrite (proj2 (Z.leb_gt n 0)), (proj2 (Z.eqb_neq (len (stPending s)) 0)) by lia.
  cbn [orb]. by rewrite (proj2 (Z.ltb_ge _ _)) by lia.
Qed.

Lemma commit_step s0 err0 ns0 s failure ns n : stands s0 err0 ns0 s failure ns -> 0 < n <= len (stPending s) ->
  let '(s1, b) := takePending s n in
  let '(s2, err) := commit s1 b in
  Batch_Len b = n /\ stPending s2 = drop (Z.to_nat n) (stPending s) /\
  exists ns', (stRepo s2, or_else err failure, ns') = deliver (stRepo s, failure, ns) (take (Z.to_nat n) (stPending s)) /\
    stands s0 err0 ns0 s2 (or_else err failure) ns'.
Proof.
  intros (Hc & (Q1 & Q2 & Q3) & He) Hn. rewrite takePending_take by done.
  set (s1 := set_pending s _). pose proof (commit_deliver s0 s1 (take (Z.to_nat n) (stPending s)) failure ns0 ns Hc) as Hd.
  destruct (commit s1 _) as [s2 err]. destruct Hd as (ns' & Ho & Hc' & (P1 & P2 & P3) & Hp & Hl).
  split; [rewrite toBatch_len; unfold len in *; rewrite length_take; lia|]. split; [exact Hp|].
  exists ns'. split; [exact Ho|]. split; [exact Hc'|]. split; [by unfold same_setting; rewrite P1, P2, P3|].
  rewrite Hl, or_else_assoc. by f_equal.
Qed.

(** The inner loop leaves less than one batch, and changes nothing of what is
    still to be delivered in all. *)
Lemma commit_full_deliver fuel s0 err0 ns0 s written failure ns : stands s0 err0 ns0 s failure ns ->
  1 <= woBatchSize (stOpts s0) -> (length (stPending s) <= fuel)%nat ->
  exists s' failure' ns', commit_full fuel s written failure =
      (s', written + (len (stPending s) - len (stPending s')), failure') /\
    len (stPending s') < woBatchSize (stOpts s0) /\ stands s0 err0 ns0 s' failure' ns' /\
    deliver_all (Z.to_nat (woBatchSize (stOpts s0))) (stPending s) (stRepo s, failure, ns) =
    deliver_all (Z.to_nat (woBatchSize (stOpts s0))) (stPending s') (stRepo s', failure', ns').
Proof.
  set (n := woBatchSize (stOpts s0)). intros Hst Hn. revert s written failure ns Hst.
  induction fuel as [|fuel IH]; intros s written failure ns Hst Hf; cbn [commit_full].
  - exists s, failure, ns. destruct (stPending s) as [|]; [|cbn in Hf; lia]. split_and!; try done; [by f_equal; f_equal; lia|].
    unfold len. cbn. lia.
  - assert (E : stOpts s = stOpts s0) by apply Hst. rewrite E. fold n. destruct (Z.leb_spec n (len (stPending s))) as [Hle|Hlt].
    + pose proof (commit_step s0 err0 ns0 s failure ns n Hst ltac:(lia)) as Hc.
      destruct (takePending s n) as [s1 b]. destruct (commit s1 b) as [s2 err].
      destruct Hc as (Eb & Ep & ns' & Hd & Hst').
      assert (Hlen : len (stPending s) = n + len (stPending s2))
        by (rewrite Ep; unfold len in *; rewrite length_drop; lia).
      change (match err with Some e => Some e | None => failure end) with (or_else err failure).
      destruct (IH s2 (written + Batch_Len b) (or_else err failure) ns' Hst') as (s' & f' & ns'' & -> & Hlt & Hst'' & Hd').
      { unfold len in Hlen. lia. }
      exists s', f', ns''. split; [f_equal; f_equal; lia|]. split; [done|]. split; [done|].
      rewrite <- Hd', Hd, Ep. apply deliver_all_step; [lia|]. intros E0. rewrite E0 in Hle. unfold len in Hle. cbn in Hle. lia.
    + exists s, failure, ns. split_and!; try done. by f_equal; f_equal; lia.
Qed.

Lemma commit_rest_deliver s0 err0 ns0 s failure ns : stands s0 err0 ns0 s failure ns ->
  len (stPending s) < woBatchSize (stOpts s0) ->
  exists s' failure' ns', (commit_rest s failure = (s', failure')) /\ stPending s' = [] /\
    stands s0 err0 ns0 s' failure' ns' /\
    (stRepo s', failure', ns') = deliver_all (Z.to_nat (woBatchSize (stOpts s0))) (stPending s) (stRepo s, failure, ns).
Proof.
  intros Hst Hlt. unfold commit_rest. destruct (decide (stPending s = [])) as [E|Hne].
  - rewrite E. by exists s, failure, ns.
  - assert (Hpos : 0 < len (stPending s)) by (unfold len; destruct (stPending s); [done|cbn; lia]).
    rewrite (proj2 (Z.ltb_lt _ _)) by lia.
    pose proof (commit_step s0 err0 ns0 s failure ns (len (stPending s)) Hst ltac:(lia)) as Hc.
    destruct (takePending s _) as [s1 b]. destruct (commit s1 b) as [s2 err].
    destruct Hc as (_ & Ep & ns' & Hd & Hst'). exists s2, (or_else err failure), ns'. split; [done|].
    unfold len in *. rewrite Nat2Z.id in *. rewrite drop_all in Ep. rewrite take_ge in Hd by done. split; [done|]. split; [done|].
    rewrite deliver_all_short by (try done; lia). exact Hd.
Qed.

(** A flush of the store with nothing going on around it. *)
Definition at_rest (elapsed : Z) (now : Time) : Surroundings := mkSurroundings (fun _ => []) (fun _ => false) now elapsed.

Lemma pull_rest s l : queue_rep (stQueue s) l -> len l <= maxDrainPerBatch ->
  let '(s', n) := pull s in
  queue_rep (stQueue s') [] /\ stPending s' = stPending s ++ l /\ n = len l /\ stRepo s' = stRepo s /\ stCounters s' = stCounters s /\
  stOpts s' = stOpts s /\ stCfg s' = stCfg s /\ stLastErr s' = stLastErr s.
Proof.
  intros Hq Hl. pose proof (pull_spec s l Hq) as (E1 & E2 & E3 & _).
  assert (Hn : (length l <= Z.to_nat maxDrainPerBatch)%nat) by (unfold len in Hl; lia).
  rewrite take_ge in E1, E2 by exact Hn. rewrite drop_ge in E3 by exact Hn.
  assert (Hs : stRepo (fst (pull s)) = stRepo s /\ stCounters (fst (pull s)) = stCounters s /\
    stOpts (fst (pull s)) = stOpts s /\ stCfg (fst (pull s)) = stCfg s /\ stLastErr (fst (pull s)) = stLastErr s)
    by (unfold pull; by destruct (Drain _ _)).
  destruct (pull s) as [s' n]. cbn [fst snd] in *. by destruct_and!.
Qed.

Lemma pull_empty s : queue_rep (stQueue s) [] -> pull s = (s, 0).
Proof.
  intros Hq. unfold pull, Drain. rewrite (qr_count _ _ Hq). change (len []) with 0. cbn [Z.eqb orb].
  unfold set_pending, set_queue. cbn. rewrite app_nil_r. by destruct s.
Qed.

(** A drain of a store that has pulled its queue. *)
Lemma drain_deliver s ns0 elapsed now : queue_rep (stQueue s) [] ->
  1 <= woBatchSize (stOpts s) -> counters_fit (stCounters s) ->
  exists s' failure ns', drain s (at_rest elapsed now) true = Some (s', failure) /\ queue_rep (stQueue s') [] /\
    stPending s' = [] /\ counted s s' ns0 ns' /\ stLastErr s' = or_else failure (stLastErr s) /\
    (stRepo s', failure, ns') = deliver_all (Z.to_nat (woBatchSize (stOpts s))) (stPending s) (stRepo s, None, ns0).
Proof.
  intros Hq Hn Hfit. unfold drain.
  assert (Hf : exists f, drain_rounds s = S f)
    by (exists (drain_rounds s - 1)%nat; unfold drain_rounds, maxDrainPerBatch; lia).
  destruct Hf as [f ->]. cbn [drain_loop]. change (maxDrainPerBatch <=? 0) with false. cbv iota.
  assert (Hst : stands s (stLastErr s) ns0 s None ns0) by (split_and!; [by apply counted_refl|done|done]).
  destruct (commit_full_deliver (length (stPending s)) s (stLastErr s) ns0 s 0 None ns0 Hst Hn ltac:(done))
    as (s2 & f2 & ns2 & -> & Hlt & Hst2 & Hd).
  cbn [negb snArrivals snExpired at_rest]. change (enqueue_all s2 [] _) with s2.
  assert (Hq2 : queue_rep (stQueue s2) []) by (destruct Hst2 as (_ & (-> & _) & _); done).
  rewrite (pull_empty s2 Hq2). cbn [Z.eqb andb].
  rewrite (proj2 (Z.ltb_lt _ _)) by (destruct Hst2 as (_ & (_ & -> & _) & _); exact Hlt).
  destruct (commit_rest_deliver _ _ _ _ _ _ Hst2 Hlt) as (s3 & f3 & ns3 & E & Hp3 & Hst3 & Hd3).
  cbn [mbind option_bind]. rewrite E. exists (flush_done s3 elapsed), f3, ns3. destruct Hst3 as ([C1 C2] & (Q1 & _) & L).
  split_and!; [done|by cbn; rewrite Q1|done|done|by cbn|by rewrite Hd].
Qed.

(** The last drain of the store is one attempt with everything. *)
Lemma finish_attempt s l elapsed now : queue_rep (stQueue s) l -> len (stPending s ++ l) <= maxDrainPerBatch ->
  exists s', finish s (at_rest elapsed now) = Some s' /\ stPending s' = [] /\
    stRepo s' = match stPending s ++ l with [] => stRepo s | all => fst (attempt (stRepo s) (toBatch all)) end.
Proof.
  intros Hq Hl. unfold finish. cbn [finish_loop]. change (maxDrainPerBatch <=? 0) with false. cbv iota.
  cbn [snArrivals at_rest snExpired]. change (enqueue_all s [] _) with s.
  pose proof (pull_rest s l Hq ltac:(rewrite len_app in Hl; unfold len in *; lia)) as Hpull.
  destruct (pull s) as [s1 n]. destruct Hpull as (Hq1 & Hp1 & _ & Er & _).
  rewrite <- Hp1 in *. unfold Depth. rewrite (qr_count _ _ Hq1), andb_true_r. rewrite <- Er.
  destruct (stPending s1) as [|x rest] eqn:E; [by exists s1|]. rewrite <- E in *.
  assert (Hpos : 0 < len (stPending s1)) by (rewrite E; unfold len; cbn; lia).
  rewrite (proj2 (Z.eqb_neq _ _)), takePending_take by lia.
  assert (Hall : Z.to_nat (len (stPending s1)) = length (stPending s1)) by (unfold len; lia).
  rewrite Hall, drop_all, take_ge by done. rewrite toBatch_len, (proj2 (Z.eqb_neq _ _)) by lia.
  set (s2 := set_pending s1 []).
  assert (Hat : let '(s3, err) := commit s2 (toBatch (stPending s1)) in
    attempt (stRepo s1) (toBatch (stPending s1)) = (stRepo s3, err) /\ stPending s3 = [] /\ stQueue s3 = stQueue s1).
  { unfold commit, attempt. cbn [s2 set_pending stRepo]. destruct (WriteBatch (stRepo s1) _) as [r [e|]]; [|done].
    cbn [set_repo stRepo]. by destruct (WriteBatch r _) as [r' [e'|]]. }
  destruct (commit s2 _) as [s3 err]. destruct Hat as (-> & Hp3 & Hq3). rewrite E. cbn [fst].
  destruct err as [e|]; [by exists s3|]. destruct (Z.to_nat maxDrainPerBatch) eqn:Ef; [done|]. cbn [finish_loop].
  destruct (_ <=? _); [by exists s3|]. cbn [snArrivals at_rest]. change (enqueue_all s3 [] _) with s3.
  rewrite pull_empty by by rewrite Hq3. rewrite Hp3. unfold Depth. rewrite Hq3, (qr_count _ _ Hq1). cbn. by exists s3.
Qed.

(** C25: The two writers of the code base compared, with nothing going on around
    them (nothing arrives and no context ends): the store's holds at most 10000
    records, pending and queued, the SQLite package's the same records in its
    queue, with equal drivers, options and last errors.  Serving a flush request,
    both end, make the same attempts on the driver, one per batch of the batch
    size whatever fails, leave the same driver and nothing to write, and report
    the same failure; the store's counters have moved by exactly the rows and
    losses the other writer's callbacks report.  In their last drain they differ:
    the store's makes one attempt with all the records, whatever the batch size;
    the other tries batch by batch and leaves the rest in its queue at the first
    that fails.  The two leave the same driver when at most one batch is left. *)
Theorem writers_compared s w a q l elapsed now wake :
  queue_rep (stQueue s) q -> l = stPending s ++ q -> queue_rep (bwQueue w) l -> len l <= maxDrainPerBatch ->
  1 <= woBatchSize (stOpts s) -> counters_fit (stCounters s) ->
  bwRepo w = stRepo s -> bwOpts w = stOpts s -> bwErr w = stLastErr s -> undisturbed a ->
  let size := Z.to_nat (woBatchSize (stOpts s)) in
  (exists s' w' failure ns,
    start_round s (at_rest elapsed now) true wake = Some (s', true) /\
    drain (fst (pull s)) (at_rest elapsed now) true = Some (s', failure) /\ w_drain w a true = Some (w', failure) /\
    deliver_all size l (stRepo s, None, bwNotices w) = (stRepo s', failure, ns) /\
    bwRepo w' = stRepo s' /\ bwErr w' = stLastErr s' /\ bwNotices w' = ns ++ [FlushDone (arElapsedMs a)] /\
    queue_rep (stQueue s') [] /\ queue_rep (bwQueue w') [] /\ stPending s' = [] /\
    counted s s' (bwNotices w) (bwNotices w')) /\
  (exists s' w' rest,
    finish s (at_rest elapsed now) = Some s' /\ w_finish w a = Some w' /\ stPending s' = [] /\ queue_rep (bwQueue w') rest /\
    stRepo s' = match l with [] => stRepo s | _ => fst (attempt (stRepo s) (toBatch l)) end /\
    deliver_until (chunks (length l) size l) (stRepo s) = (bwRepo w', rest) /\
    (len l <= woBatchSize (stOpts s) -> bwRepo w' = stRepo s' /\ rest = [])).
Proof.
  intros Hq El Hqw Hl Hn Hfit Er Eo Ee Ha size.
  assert (Hql : len q <= maxDrainPerBatch) by (rewrite El, len_app in Hl; unfold len in *; lia). split.
  - pose proof (pull_rest s q Hq Hql) as Hpull. unfold start_round. destruct (pull s) as [s1 n1]. cbn [fst].
    destruct Hpull as (Hq1 & Hp1 & _ & Er1 & Ec1 & Eo1 & _ & Ee1). rewrite <- El in Hp1.
    destruct (drain_deliver s1 (bwNotices w) elapsed now Hq1 ltac:(by rewrite Eo1) ltac:(by rewrite Ec1))
      as (s' & f & ns & Ed & Hq' & Hp' & Hc & Hle & Hd).
    rewrite Hp1, Er1, Eo1 in Hd. unfold counted in Hc. rewrite Ec1 in Hc. rewrite Ee1 in Hle.
    unfold w_drain. destruct (w_drain_loop_quiet (S (Z.to_nat maxDrainPerBatch)) a 0 w l 0 None (stLastErr s) Ha Hqw)
      as (w' & f' & Ew & Hqw' & Ho & Hwe); [by rewrite Eo|unfold len in Hl; lia|lia|done|].
    unfold outcome in Ho. rewrite Er, Eo, <- Hd in Ho. injection Ho as E1 -> E3.
    rewrite Ed, Ew. cbn [mbind option_bind]. exists s', (notify w' (FlushDone (arElapsedMs a))), f, ns.
    split_and!; try done; [by cbn; rewrite Hwe, Hle|by cbn; rewrite E3|].
    unfold counted in *. destruct Hc as [-> ->], (noticed_snoc ns (FlushDone (arElapsedMs a))) as [Es El'].
    cbn [notify bwNotices]. rewrite E3, Es, El'. by rewrite !Z.add_0_r.
  - destruct (finish_attempt s q elapsed now Hq ltac:(by rewrite <- El)) as (s' & Ef & Hp' & Hr). rewrite <- El in Hr.
    unfold w_finish. destruct (w_finish_loop_quiet (S (Z.to_nat maxDrainPerBatch)) a 0 w l 0 Ha Hqw)
      as (w' & rest & Ew & Hqw' & Hd); [by rewrite Eo|unfold len in Hl; lia|lia|]. rewrite Eo, Er in Hd. fold size in Hd.
    assert (Hr' : stRepo s' = match l with [] => stRepo s | _ => fst (attempt (stRepo s) (toBatch l)) end) by (rewrite Hr; by destruct l).
    exists s', w', rest. split_and!; try done. intros Hone. rewrite Hr'. destruct (decide (l = [])) as [->|Hne].
    + cbn in Hd. by injection Hd as <- <-.
    + assert (El' : fst (attempt (stRepo s) (toBatch l)) = match l with [] => stRepo s | _ => fst (attempt (stRepo s) (toBatch l)) end)
        by by destruct l. rewrite <- El'. rewrite chunks_short in Hd by (first [done|unfold size, len in *; lia]).
      cbn [deliver_until] in Hd. destruct (attempt _ _) as [r [e|]]; injection Hd as -> <-; done.
Qed.
End Attempts.

(** ** Nothing is lost on the way *)

Section Loop.
Context {R : Type} `{Repository R}.
Implicit Types w : Writer (Audited R).

Definition arriving (a : Around) (k n : nat) : list record := concat (map (arArrivals a) (seq k n)).

Lemma push_all_rep q l rs : queue_rep q l -> exists l', queue_rep (push_all q rs) l' /\ l' `sublist_of` l ++ rs.
Proof.
  unfold push_all. revert q l. induction rs as [|r rs IH]; intros q l Hq; cbn [fold_left].
  { exists l. by rewrite app_nil_r. }
  pose proof (push_rep q l r Hq) as Hp. destruct (push q r) as [q' ok]. destruct Hp as (Hq' & _).
  destruct (IH q' _ Hq') as (l' & Hr & Hs). exists l'. split; [exact Hr|]. etrans; [exact Hs|].
  change (r :: rs) with ([r] ++ rs). rewrite (app_assoc l). apply sublist_app; [apply sublist_drop|done].
Qed.

Lemma w_commit_audited w rs reading ch : history (auLog (bwRepo w)) ch ->
  let '(w', err) := w_commit w (toBatch rs) reading in
  bwQueue w' = bwQueue w /\ bwOpts w' = bwOpts w /\
  history (auLog (bwRepo w')) (ch ++ [(rs, match err with None => true | Some _ => false end)]).
Proof.
  intros Hh. unfold w_commit. cbn [WriteBatch audited].
  destruct (WriteBatch (auInner (bwRepo w)) (toBatch rs)) as [r [e|]].
  - cbn [with_repo bwRepo auInner]. destruct (WriteBatch r (toBatch rs)) as [r' [e'|]].
    + split_and!; [by destruct reading|by destruct reading|].
      assert (E : bwRepo (notify (setErr (with_repo (with_repo w (mkAudited r (auLog (bwRepo w) ++ [(toBatch rs, Some e)])))
        (mkAudited r' ((auLog (bwRepo w) ++ [(toBatch rs, Some e)]) ++ [(toBatch rs, Some e')]))) reading e') WriteFailed) =
        mkAudited r' ((auLog (bwRepo w) ++ [(toBatch rs, Some e)]) ++ [(toBatch rs, Some e')])) by (by destruct reading).
      cbn [auLog] in *. rewrite E. cbn [auLog]. rewrite <- app_assoc. by constructor.
    + split_and!; [done|done|]. cbn. rewrite <- app_assoc. by econstructor.
  - split_and!; [done|done|]. cbn. by constructor.
Qed.

(** The books of a writer: the chunks [ch] went to the driver in batches of at
    most [size], the queue holds [l], all in the order of [pushed]. *)
Record kept w (size : Z) (pushed : list record) (ch : list (list record * bool)) (l : list record) : Prop := {
  kp_queue : queue_rep (bwQueue w) l; kp_size : woBatchSize (bwOpts w) = size;
  kp_log : history (auLog (bwRepo w)) ch; kp_order : (chunk_records ch ++ l) `sublist_of` pushed;
  kp_batches : Forall (fun c => 0 < len (fst c) <= size) ch }.

(** One batch, or the end of the queue. *)
Lemma kept_batch w size pushed ch l arrivals reading : kept w size pushed ch l -> 1 <= size ->
  let '(w1, b) := next_batch w arrivals in
  (Batch_Len b = 0 /\ kept w1 size (pushed ++ arrivals) ch []) \/
  (0 < Batch_Len b <= size /\
   let '(w2, err) := w_commit w1 b reading in
   exists rs l', len rs = Batch_Len b /\
     kept w2 size (pushed ++ arrivals) (ch ++ [(rs, match err with None => true | Some _ => false end)]) l').
Proof.
  intros [Hq Hs Hh Ho Hf] Hn. destruct (push_all_rep (bwQueue w) l arrivals Hq) as (l1 & Hq1 & Hsub).
  assert (Ho1 : (chunk_records ch ++ l1) `sublist_of` pushed ++ arrivals)
    by (etrans; [apply sublist_app; [reflexivity|exact Hsub]|]; rewrite app_assoc; by apply sublist_app).
  pose proof (next_batch_spec w arrivals l1 Hq1) as Hb. destruct (next_batch w arrivals) as [w1 b].
  destruct Hb as (-> & Hq2 & E1 & _ & _ & E4). rewrite Hs in *. rewrite toBatch_len.
  destruct (decide (l1 = [])) as [->|Hne].
  - left. rewrite take_nil, drop_nil in *. split; [done|]. split; [done|by rewrite E4|by rewrite E1|done|done].
  - right. set (rs := take (Z.to_nat size) l1) in *.
    assert (Hrs : 0 < len rs <= size) by (unfold rs, len; rewrite length_take; destruct l1; [done|cbn; lia]).
    split; [exact Hrs|]. rewrite <- E1 in Hh. pose proof (w_commit_audited w1 rs reading ch Hh) as Hc.
    destruct (w_commit w1 (toBatch rs) reading) as [w2 err]. destruct Hc as (E5 & E6 & Hh').
    exists rs, (drop (Z.to_nat size) l1). split; [done|].
    split; [by rewrite E5|by rewrite E6, E4|done| |by apply Forall_app; split; [|constructor]].
    rewrite chunk_records_snoc, <- app_assoc. unfold rs. by rewrite take_drop.
Qed.

(** What a drain from [written] on does to the books. *)
Definition drained (a : Around) (k : nat) (written size : Z) (pushed : list record) (ch : list (list record * bool))
    (failure : option DriverError) w' (failure' : option DriverError) (full : Prop) : Prop :=
  exists n ch' l', kept w' size (pushed ++ arriving a k n) (ch ++ ch') l' /\
    (ch' = [] \/ (written < maxDrainPerBatch /\ written + len (chunk_records ch') < maxDrainPerBatch + size)) /\
    (failure' = None <-> failure = None /\ failed_batches ch' = 0) /\
    (full -> l' = [] \/ maxDrainPerBatch <= written + len (chunk_records ch')).

Lemma drained_end a k written size pushed ch l failure w (full : Prop) :
  kept w size pushed ch l -> (full -> l = [] \/ maxDrainPerBatch <= written) ->
  drained a k written size pushed ch failure w failure full.
Proof.
  intros Hk Hfull. exists 0%nat, [], l. unfold arriving. cbn. rewrite !app_nil_r.
  split; [exact Hk|]. split; [by left|]. split; [by split; [intros ->|intros [-> _]]|]. intros Hf. destruct (Hfull Hf); [by left|right].
  unfold chunk_records, len. cbn. lia.
Qed.

Lemma arriving_S a k n : arriving a k (S n) = arArrivals a k ++ arriving a (S k) n.
Proof. done. Qed.

(** After one batch. *)
Lemma drained_step a k written size pushed ch rs err failure w failure' (full full' : Prop) next :
  drained a (S k) next size (pushed ++ arArrivals a k)
    (ch ++ [(rs, match err with None => true | Some _ => false end)]) (or_else err failure) w failure' full' ->
  0 < len rs <= size -> written < maxDrainPerBatch ->
  next = written + len rs \/ next = maxDrainPerBatch -> (full -> full' /\ next = written + len rs) ->
  drained a k written size pushed ch failure w failure' full.
Proof.
  intros (n & ch' & l' & Hk & Hb & Hf & Hd) Hrs Hw Hnext Hfull.
  exists (S n), ((rs, match err with None => true | Some _ => false end) :: ch'), l'.
  assert (Hlen : len (chunk_records ((rs, match err with None => true | Some _ => false end) :: ch')) =
    len rs + len (chunk_records ch')) by (unfold chunk_records; cbn; apply len_app).
  rewrite Hlen. split; [|split; [|split]].
  - rewrite arriving_S, app_assoc. rewrite <- (app_assoc ch) in Hk. exact Hk.
  - right. split; [lia|]. destruct Hb as [->|[Hlt Hlt']]; [unfold chunk_records; unfold len in *; cbn; lia|].
    destruct Hnext as [->| ->]; lia.
  - rewrite Hf. assert (Hpos : 0 <= failed_batches ch') by (unfold failed_batches, len; lia).
    assert (Hc : failed_batches ((rs, match err with None => true | Some _ => false end) :: ch') =
      (match err with None => 0 | Some _ => 1 end) + failed_batches ch')
      by (unfold failed_batches, len; destruct err; cbn [List.filter snd Bool.eqb length]; lia).
    rewrite Hc. destruct err; cbn [or_else]; [|by rewrite Z.add_0_l]. split; intros [? ?]; [done|lia].
  - intros HF. destruct (Hfull HF) as [HF' ->]. destruct (Hd HF'); [by left|right; lia].
Qed.

Lemma w_drain_loop_drained fuel a all k w written failure size pushed ch l :
  kept w size pushed ch l -> 1 <= size -> (0 < fuel)%nat -> maxDrainPerBatch < written + Z.of_nat fuel ->
  exists w' failure', w_drain_loop fuel a all k w written failure = Some (w', failure') /\
    drained a k written size pushed ch failure w' failure' (all = true /\ forall j, arEnded a j = false).
Proof.
  intros Hk Hn. revert k w written failure pushed ch l Hk.
  induction fuel as [|fuel IH]; intros k w written failure pushed ch l Hk Hw Hf; cbn [w_drain_loop].
  - lia.
  - destruct (Z.leb_spec maxDrainPerBatch written) as [Hmax|Hmax].
    { exists w, failure. split; [done|]. apply (drained_end a k written size pushed ch l failure w _ Hk). by right. }
    pose proof (kept_batch w size pushed ch l (arArrivals a k) (arReading a k) Hk Hn) as Hb.
    destruct (next_batch w (arArrivals a k)) as [w1 b]. destruct Hb as [[E Hk1]|[Hb Hc]].
    + rewrite E. exists w1, failure. split; [done|]. exists 1%nat, [], []. unfold arriving. cbn. rewrite !app_nil_r.
      split; [exact Hk1|]. split; [by left|]. split; [by split; [intros ->|intros [-> _]]|by left].
    + rewrite (proj2 (Z.eqb_neq _ _)) by lia. destruct (w_commit w1 b (arReading a k)) as [w2 err].
      destruct Hc as (rs & l' & Hrs & Hk2). change (match err with Some e => Some e | None => failure end) with (or_else err failure).
      rewrite (kp_size _ _ _ _ _ Hk2). destruct (negb all && (Batch_Len b <? size)) eqn:Eshort.
      * exists w2, (or_else err failure). split; [done|].
        apply (drained_step a k written size pushed ch rs err failure w2 _ _ False (written + len rs)); [|lia|done|by left|].
        { by eapply drained_end. }
        { intros [-> _]. done. }
      * destruct (IH (S k) w2 (if arEnded a k then maxDrainPerBatch else written + Batch_Len b) (or_else err failure) _ _ _ Hk2)
          as (w' & f' & E & Hd). { lia. } { destruct (arEnded a k); lia. }
        exists w', f'. split; [exact E|].
        eapply drained_step; [exact Hd|lia|done|rewrite Hrs; destruct (arEnded a k); [by right|by left]|].
        intros HF. split; [exact HF|]. by rewrite (proj2 HF), Hrs.
Qed.

Lemma w_finish_loop_drained fuel a k w written failure size pushed ch l :
  kept w size pushed ch l -> 1 <= size -> (0 < fuel)%nat -> maxDrainPerBatch < written + Z.of_nat fuel ->
  exists w' failure', w_finish_loop fuel a k w written = Some w' /\
    drained a k written size pushed ch failure w' failure' False.
Proof.
  intros Hk Hn. revert k w written failure pushed ch l Hk.
  induction fuel as [|fuel IH]; intros k w written failure pushed ch l Hk Hw Hf; cbn [w_finish_loop]; [lia|].
  destruct (Z.leb_spec maxDrainPerBatch written) as [Hmax|Hmax].
  { exists w, failure. split; [done|]. by apply (drained_end a k written size pushed ch l failure w _ Hk). }
  pose proof (kept_batch w size pushed ch l (arArrivals a k) (arReading a k) Hk Hn) as Hb.
  destruct (next_batch w (arArrivals a k)) as [w1 b]. destruct Hb as [[E Hk1]|[Hb Hc]].
  { rewrite E. exists w1, failure. split; [done|]. exists 1%nat, [], []. unfold arriving. cbn. rewrite !app_nil_r.
    split; [exact Hk1|]. split; [by left|]. split; [by split; [intros ->|intros [-> _]]|by left]. }
  rewrite (proj2 (Z.eqb_neq _ _)) by lia. destruct (w_commit w1 b (arReading a k)) as [w2 err].
  destruct Hc as (rs & l' & Hrs & Hk2).
  assert (Hend : drained a k written size pushed ch failure w2 (or_else err failure) False)
    by (apply (drained_step a k written size pushed ch rs err failure w2 _ _ False (written + len rs));
        [by eapply drained_end|lia|done|by left|done]).
  destruct err as [e|]; [by eauto|]. destruct (arEnded a k); [by eauto|].
  destruct (IH (S k) w2 (written + Batch_Len b) failure _ _ _ Hk2) as (w' & f' & E & Hd); [lia|lia|].
  exists w', f'. split; [exact E|].
  apply (drained_step a k written size pushed ch rs None failure w' f' _ False (written + Batch_Len b));
    [exact Hd|lia|done|left; lia|done].
Qed.

(** ** Runs of the loop *)

Context (checkpoint : Audited R -> Audited R) (checkpoint_log : forall r, auLog (checkpoint r) = auLog r).

(** [Start]: rounds until one stops it. *)
Fixpoint w_run w (rounds : list (Around * WriterWake)) : option (Writer (Audited R)) :=
  match rounds with
  | [] => Some w
  | (a, wake) :: rounds =>
      '(w, go, _) ← Start_round checkpoint w a wake; if go : bool then w_run w rounds else Some w
  end.

(** What was pushed in the course of the rounds: before each of the [n] batches
    of a drain. *)
Inductive pushes : list (Around * WriterWake) -> list record -> Prop :=
| pushes_nil rounds : pushes rounds []
| pushes_round a wake rounds n rs : pushes rounds rs -> pushes ((a, wake) :: rounds) (arriving a 0 n ++ rs).

Lemma kept_notify w n size pushed ch l : kept w size pushed ch l -> kept (notify w n) size pushed ch l.
Proof. by intros []. Qed.
Lemma kept_with_repo w r size pushed ch l : auLog r = auLog (bwRepo w) -> kept w size pushed ch l ->
  kept (with_repo w r) size pushed ch l.
Proof. intros E [? ? ? ? ?]. split; try done. cbn. by rewrite E. Qed.

Lemma w_drain_drained w a all size pushed ch l : kept w size pushed ch l -> 1 <= size ->
  exists w' failure, w_drain w a all = Some (w', failure) /\
    drained a 0 0 size pushed ch None w' failure (all = true /\ forall j, arEnded a j = false).
Proof.
  intros Hk Hn. unfold w_drain.
  destruct (w_drain_loop_drained (S (Z.to_nat maxDrainPerBatch)) a all 0 w 0 None _ _ _ _ Hk Hn) as (w' & f & -> & Hd);
    [lia|lia|].
  exists (notify w' (FlushDone (arElapsedMs a))), f. split; [done|].
  destruct Hd as (n & ch' & l' & Hk' & Hrest). exists n, ch', l'. split; [by apply kept_notify|exact Hrest].
Qed.

Lemma prune_kept w now size pushed ch l : kept w size pushed ch l -> kept (w_prune w now) size pushed ch l.
Proof.
  intros Hk. unfold w_prune. cbn [PruneForStore audited]. destruct (PruneForStore (R := R)) as [f|]; [|done].
  destruct (f _ _ _ _) as [[r total] [e|]]; [by apply kept_with_repo|].
  destruct (total =? 0); [|apply kept_notify]; by apply kept_with_repo.
Qed.

Lemma round_kept w a wake size pushed ch l : kept w size pushed ch l -> 1 <= size ->
  exists w' go answer n ch' l', Start_round checkpoint w a wake = Some (w', go, answer) /\
    kept w' size (pushed ++ arriving a 0 n) ch' l'.
Proof.
  intros Hk Hn. unfold Start_round.
  assert (Hstay : forall w' (go : bool) (answer : option (option DriverError)), kept w' size pushed ch l ->
    exists w'' go' answer' n ch' l', Some (w', go, answer) = Some (w'', go', answer') /\
      kept w'' size (pushed ++ arriving a 0 n) ch' l').
  { intros w' go answer Hk'. exists w', go, answer, 0%nat, ch, l. unfold arriving. cbn. by rewrite app_nil_r. }
  destruct wake as [| | |now|].
  - unfold w_finish. destruct (w_finish_loop_drained (S (Z.to_nat maxDrainPerBatch)) a 0 w 0 None _ _ _ _ Hk Hn)
      as (w' & f & -> & n & ch' & l' & Hk' & _); [lia|lia|]. by eauto 10.
  - destruct (w_drain_drained w a true _ _ _ _ Hk Hn) as (w' & f & -> & n & ch' & l' & Hk' & _). by eauto 10.
  - destruct (w_drain_drained w a false _ _ _ _ Hk Hn) as (w' & f & -> & n & ch' & l' & Hk' & _). by eauto 10.
  - by apply Hstay, prune_kept.
  - by apply Hstay, kept_with_repo.
Qed.

Lemma run_kept rounds w size pushed ch l : kept w size pushed ch l -> 1 <= size ->
  exists w' rs ch' l', w_run w rounds = Some w' /\ pushes rounds rs /\ kept w' size (pushed ++ rs) ch' l'.
Proof.
  intros Hk Hn. revert w pushed ch l Hk. induction rounds as [|[a wake] rounds IH]; intros w pushed ch l Hk; cbn [w_run].
  { exists w, [], ch, l. split; [done|]. split; [constructor|by rewrite app_nil_r]. }
  destruct (round_kept w a wake _ _ _ _ Hk Hn) as (w1 & go & ans & n & ch1 & l1 & -> & Hk1). cbn [mbind option_bind].
  destruct go.
  - destruct (IH _ _ _ _ Hk1) as (w' & rs & ch' & l' & E & Hp & Hk'). exists w', (arriving a 0 n ++ rs), ch', l'.
    split; [exact E|]. split; [by constructor|by rewrite app_assoc].
  - exists w1, (arriving a 0 n ++ []), ch1, l1. split; [done|]. split; [constructor; constructor|by rewrite app_nil_r].
Qed.
End Loop.

(** The contract of a flush.  After any rounds of the writer's loop, a drain
    returns, whatever the driver answers, whatever keeps arriving and whenever
    contexts end.  Up to then every record went to the driver at most once, in
    order of arrival, in batches of at most the batch size, each tried twice at
    most; the drain handed over less than 10000 records and one batch more, and
    answers with an error exactly when it lost a batch; and if its context did
    not end, it left the queue empty or had spent its budget of 10000. *)
Theorem flush_contract {R} `{Repository R} (r0 : R) q0 l0 opts checkpoint rounds a :
  queue_rep q0 l0 -> (forall r, auLog (checkpoint r) = auLog r) ->
  let size := woBatchSize (sqlite_withDefaults opts) in
  exists w w' failure pushed n before handed queued,
    w_run checkpoint (NewWriter (mkAudited r0 []) q0 opts) rounds = Some w /\
    w_drain w a true = Some (w', failure) /\
    pushes rounds pushed /\ queue_rep (bwQueue w') queued /\ history (auLog (bwRepo w')) (before ++ handed) /\
    (chunk_records (before ++ handed) ++ queued) `sublist_of` (l0 ++ pushed ++ arriving a 0 n) /\
    Forall (fun c => 0 < len (fst c) <= size) (before ++ handed) /\
    len (chunk_records handed) < maxDrainPerBatch + size /\
    (failure = None <-> failed_batches handed = 0) /\
    ((forall j, arEnded a j = false) -> queued = [] \/ maxDrainPerBatch <= len (chunk_records handed)).
Proof.
  intros Hq Hc size.
  assert (Hsize : 1 <= size) by (unfold size; cbn; split_if; lia).
  assert (Hk0 : kept (NewWriter (mkAudited r0 []) q0 opts) size l0 [] l0) by (split; try done; by constructor).
  destruct (run_kept checkpoint Hc rounds _ _ _ _ _ Hk0 Hsize) as (w & pushed & before & l & Er & Hp & Hk).
  destruct (w_drain_drained w a true _ _ _ _ Hk Hsize) as (w' & f & Ed & n & handed & queued & [Q S L O B] & Hb & Hf & Hl).
  exists w, w', f, pushed, n, before, handed, queued. rewrite (app_assoc l0).
  split_and!; try done.
  - destruct Hb as [->|[_ Hb]]; [change (len (chunk_records [])) with 0; unfold maxDrainPerBatch; lia|lia].
  - rewrite Hf. by split; [intros [_ ?]|].
  - intros He. destruct (Hl (conj eq_refl He)); [by left|right; lia].
Qed.

(** ** Concrete runs

    Three records, batches of two, and a driver that refuses most calls: the
    first batch is lost, the second written at the retry. *)

Definition demo_opts : WriterOptions := wo_withDefaults (mkWriterOptions 2 0 0 (mkRetention false 0 0 0) 0 0 0).
Definition demo_record (n : Z) : record := record_of (demo_event n) (unixNanos 0).
Definition demo_queue : recordQueue := push_all (newRecordQueue 8) [demo_record 1; demo_record 2; demo_record 3].
Definition in_peace : Around := mkAround (fun _ => []) (fun _ => false) (fun _ => false) 3.
Definition demo_store : Store Flaky :=
  mkStore demo_metrics demo_opts (mkFlaky 0) demo_queue [] None None (mkCounters 0 0 0 0 0 0) false.
Definition demo_writer : Writer Flaky := mkWriter (mkFlaky 0) demo_opts demo_queue None [].

Lemma push_fits q l r : queue_rep q l -> len l < len (rqBuf q) -> queue_rep (fst (push q r)) (l ++ [r]).
Proof.
  intros Hq Hl. pose proof (push_rep q l r Hq) as Hp. destruct (push q r) as [q' ok]. destruct Hp as (Hq' & _).
  rewrite lastn_all in Hq'; [exact Hq'|]. unfold len in *. rewrite length_app. cbn. lia.
Qed.

Lemma demo_queue_rep : queue_rep demo_queue [demo_record 1; demo_record 2; demo_record 3].
Proof.
  destruct (newRecordQueue_rep 8) as [Hq _].
  apply (push_fits _ [demo_record 1; demo_record 2]); [|by vm_compute]. apply (push_fits _ [demo_record 1]); [|by vm_compute].
  by apply (push_fits _ []); [|by vm_compute].
Qed.

(** The flush loses the first batch and writes the second.  At shutdown the store
    loses all three records in its one batch; the other writer loses two and
    leaves the third in its queue. *)
Lemma writers_compared_witness :
  (exists s' w' failure, drain (H := flaky) (fst (pull demo_store)) (at_rest 3 (unixNanos 0)) true = Some (s', failure) /\
    w_drain (H := flaky) demo_writer in_peace true = Some (w', failure) /\ bwRepo w' = stRepo s' /\
    failure = Some DriverFailed /\ bwNotices w' = [WriteFailed; WriteSucceeded 1; FlushDone 3]) /\
  (exists s' w' rest, finish (H := flaky) demo_store (at_rest 3 (unixNanos 0)) = Some s' /\
    w_finish (H := flaky) demo_writer in_peace = Some w' /\ queue_rep (bwQueue w') rest /\ rest = [demo_record 3] /\
    stPending s' = [] /\ Depth (stQueue s') = 0).
Proof.
  destruct (writers_compared (H := flaky) demo_store demo_writer in_peace _ _ 3 (unixNanos 0) WakeTimer
    demo_queue_rep eq_refl demo_queue_rep) as ((s' & w' & f & ns & _ & E1 & E2 & _ & E3 & _) & (s2 & w2 & rest & F1 & F2 & F3 & F4 & _ & F5 & _)).
  - vm_compute. congruence.
  - vm_compute. congruence.
  - split; split; vm_compute; congruence.
  - reflexivity.
  - reflexivity.
  - reflexivity.
  - intros k. split_and!; reflexivity.
  - split.
    + exists s', w', f. split; [exact E1|]. split; [exact E2|]. split; [exact E3|].
      vm_compute in E2. injection E2 as <- <-. split; reflexivity.
    + exists s2, w2, rest. split; [exact F1|]. split; [exact F2|]. split; [exact F4|].
      split; [vm_compute in F5; by injection F5|]. split; [exact F3|]. vm_compute in F1. by injection F1 as <-.
Defined.

Lemma flush_contract_witness :
  exists w w' failure, w_run (H := flaky) (fun r => r) (NewWriter (mkAudited (mkFlaky 0) []) demo_queue demo_opts)
      [(in_peace, PruneTick (unixNanos 0))] = Some w /\
    w_drain (H := audited (H := flaky)) w in_peace true = Some (w', failure) /\ failure = Some DriverFailed /\
    len (auLog (bwRepo w')) = 3.
Proof.
  destruct (flush_contract (H := flaky) (mkFlaky 0) demo_queue _ demo_opts (fun r => r) [(in_peace, PruneTick (unixNanos 0))]
    in_peace demo_queue_rep) as (w & w' & f & pushed & n & before & handed & queued & E1 & E2 & _).
  - reflexivity.
  - exists w, w', f. split; [exact E1|]. split; [exact E2|].
    vm_compute in E1. injection E1 as <-. vm_compute in E2. injection E2 as <- <-. split; reflexivity.
Defined.
