(* ===== verification/SessionRun.v ===== *)
(** * The life of a session: [Session.Run] and its goroutines

    [Run] subscribes, records the start of the session, sends the welcome and
    lets three goroutines work on the session: the delivery loop, the reader
    and the writer.  When the loop ends, the deferred calls record the end, say
    goodbye, close the connection and release the subscription.

    A life is a run on a list of inputs, each the next thing one of the
    goroutines does or that happens from outside; [None] is an input that
    cannot happen in that state, or a panic.  [seDropped] says that the context
    of the session is cancelled.  Log lines are not modelled. *)

From S2P Require Import Prelude Money Decimal GoTime Domain Float64 Rand Book Candles Bus Engine Registry.
From S2P Require Import Json Protocol Wire Tier Coalesce Metrics Session SessionLoop.

(** ** State *)

(** [Running] until the delivery loop returns; [Leaving] while the goodbye is
    queued and the connection still open. *)
Inductive Phase := Created | Running | Leaving | Over.
#[export] Instance phase_eq_dec : EqDecision Phase.
Proof. solve_decision. Defined.

(** [lvWritten] counts the frames the writer has written; those it has taken
    from the queue while a critical frame waited, and not written yet, come
    first. *)
Record Live (P : Type) := mkLive {
  lvPhase : Phase; lvSession : Session P; lvAddr : string; lvLimiter : rateLimiter;
  lvCommands : list ClientMessage; lvReading : bool; lvWriting : bool; lvWritten : nat;
  lvWire : list (option Frame); lvReceived : Z; lvBytes : Z; lvWriteFails : Z }.
Arguments mkLive {P}. Arguments lvPhase {P}. Arguments lvSession {P}. Arguments lvAddr {P}.
Arguments lvLimiter {P}. Arguments lvCommands {P}. Arguments lvReading {P}. Arguments lvWriting {P}.
Arguments lvWritten {P}. Arguments lvWire {P}. Arguments lvReceived {P}. Arguments lvBytes {P}.
Arguments lvWriteFails {P}.

Definition commandCapacity : Z := 64.

(** What a life does to the rest of the program. *)
Inductive LiveEffect :=
| LSession (e : SEffect)
| LStart (row : SessionRow)
| LEnd (row : SessionRow).

(** How [ReadMessage] fails. *)
Inductive ReadError := DeadlineExceeded | ContextCanceled | OtherReadError.
Definition classifyReadError (e : ReadError) : string :=
  match e with
  | DeadlineExceeded => "read_timeout" | ContextCanceled => "context_canceled" | OtherReadError => "read_error"
  end.
Inductive ReadResult := ReadFrame (data : option Json) | ReadFails (e : ReadError).

(** How far [writeWithFaults] gets: the context ends during the injected hold or
    delay, a write fails, or all goes well. *)
Inductive WriteOutcome := EndsInHold | EndsInDelay | MalformedFails | WriteFails | WriteOk.

Section Run.
Context {G : Type} `{RandSource G} {P : Type} `{Policy P}.
Abbreviation Act := (Act (G := G) (P := P)).
Implicit Types (s : Session P) (l : Live P).

Definition new_live (s : Session P) (addr : string) : Live P :=
  mkLive Created s addr (newRateLimiter (scClientMsgPerSec (seCfg s))) [] false false 0 [] 0 0 0.

Definition with_phase (p : Phase) l : Live P :=
  mkLive p (lvSession l) (lvAddr l) (lvLimiter l) (lvCommands l) (lvReading l) (lvWriting l) (lvWritten l)
    (lvWire l) (lvReceived l) (lvBytes l) (lvWriteFails l).
Definition with_session (s : Session P) l : Live P :=
  mkLive (lvPhase l) s (lvAddr l) (lvLimiter l) (lvCommands l) (lvReading l) (lvWriting l) (lvWritten l)
    (lvWire l) (lvReceived l) (lvBytes l) (lvWriteFails l).
Definition with_commands (cs : list ClientMessage) l : Live P :=
  mkLive (lvPhase l) (lvSession l) (lvAddr l) (lvLimiter l) cs (lvReading l) (lvWriting l) (lvWritten l)
    (lvWire l) (lvReceived l) (lvBytes l) (lvWriteFails l).
Definition with_threads (reading writing : bool) l : Live P :=
  mkLive (lvPhase l) (lvSession l) (lvAddr l) (lvLimiter l) (lvCommands l) reading writing (lvWritten l)
    (lvWire l) (lvReceived l) (lvBytes l) (lvWriteFails l).
(** The reader has received a message. *)
Definition with_received (r : rateLimiter) l : Live P :=
  mkLive (lvPhase l) (lvSession l) (lvAddr l) r (lvCommands l) (lvReading l) (lvWriting l) (lvWritten l)
    (lvWire l) (i64 (lvReceived l + 1)) (lvBytes l) (lvWriteFails l).
(** The writer has put frames on the wire. *)
Definition with_wire (frames : list (option Frame)) (written : nat) (bytes fails : Z) l : Live P :=
  mkLive (lvPhase l) (lvSession l) (lvAddr l) (lvLimiter l) (lvCommands l) (lvReading l) (lvWriting l) written
    (lvWire l ++ frames) (lvReceived l) bytes fails.

(** [messagesSent]. *)
Definition lvSent l : Z := i64 (Z.of_nat (lvWritten l)).

(** ** The rows of a session *)

Definition recordSessionStart l : SessionRow :=
  let s := lvSession l in
  mkSessionRow (scID (seCfg s)) "" "" "" (lvAddr l) (ID (bnSymbol (seBinding s))) (IntervalID (bnInterval (seBinding s)))
    (acConnectedAt (seAccounting s)) None "" (Tier_String (tmTier (seTier s))) "" "" 0 0 0 0 0.

Definition recordSessionEnd l (reason : string) (now : Time) : SessionRow :=
  let s := lvSession l in
  mkSessionRow (scID (seCfg s)) "" "" "" (lvAddr l) (ID (bnSymbol (seBinding s))) (IntervalID (bnInterval (seBinding s)))
    (acConnectedAt (seAccounting s)) (Some now) reason "" (Tier_String (tmTier (seTier s))) (Override s)
    (dMilliseconds (tSub now (acConnectedAt (seAccounting s)))) (lvSent l) (lvReceived l) (lvBytes l)
    (ouProtocolErrors (seOutput s)).

(** ** The goroutines *)

(** An action of the session on behalf of the life. *)
Definition perform {A} (act : Act A) (ev : Env G) l : option (A * Live P * list LiveEffect) :=
  '(a, s, es) ← act ev (lvSession l); Some (a, with_session s l, map LSession es).

(** The deferred function of [Run] up to the goodbye. *)
Definition leave (ev : Env G) l : option (Live P * list LiveEffect) :=
  let reason := seCloseReason (lvSession l) in
  '(_, l', es) ← perform (send TypeGoodbye (PGoodbye reason) true) ev l;
  Some (with_phase Leaving l',
        LSession (ECount "ws_connections_active" (-1)) :: LEnd (recordSessionEnd l reason (evNow ev)) :: es).

(** [Run] up to its loops; [ended] says that the context it is given has ended,
    and [subscribers] is the number on the market's bus. *)
Definition start (ev : Env G) (ended : bool) (subscribers : Z) l : option (Live P * list LiveEffect) :=
  let s := with_close (seCloseReason (lvSession l)) ended (lvSession l) in
  match bnEngine (seBinding s) with
  | None => Some (with_phase Over (with_session (with_close (seCloseReason s) true s) l), [])
  | Some e =>
      let l := with_phase Running (with_session s l) in
      let effects := [LSession (EBusSubscribe e ("sess:" ++ scShortID (seCfg s)) (scOutboundCapacity (seCfg s)));
                      LStart (recordSessionStart l); LSession (ECount "ws_connections_total" 1);
                      LSession (ECount "ws_connections_active" 1); LSession (EGauge "sessions_active" subscribers)] in
      '(ok, l, es) ← perform sendWelcome ev l;
      if ok : bool then Some (with_threads true true l, effects ++ es)
      else '(l, es') ← leave ev l; Some (l, effects ++ es ++ es')
  end.

(** The connection is closed and the current subscription released; [cancel]
    and [close(done)] end the other goroutines. *)
Definition close l : Live P * list LiveEffect :=
  let s := lvSession l in
  (with_phase Over (with_session (with_close (seCloseReason s) true s) l),
   match bnEngine (seBinding s) with Some e => [LSession (EBusUnsubscribe e)] | None => [] end).

(** A round of [readLoop] after [ReadMessage] returned. *)
Definition hand_over (msg : ClientMessage) l : Live P * list LiveEffect :=
  if len (lvCommands l) <? commandCapacity then (with_commands (lvCommands l ++ [msg]) l, [])
  else (l, [LSession (ERecProtocol "RATE_LIMITED")]).

Definition fatal_frame (data : option Json) : bool :=
  match DecodeClientMessage data with inr e => peFatal e | inl _ => false end.

Definition read (ev : Env G) (r : ReadResult) l : option (Live P * list LiveEffect) :=
  match r with
  | ReadFails e =>
      let s := lvSession l in
      let s := match e with ContextCanceled => s | _ => with_close (classifyReadError e) (seDropped s) s end in
      Some (with_threads false (lvWriting l) (with_session (with_close "read_error" true s) l), [])
  | ReadFrame data =>
      let stops := snd (allow (lvLimiter l) (evNow ev)) && fatal_frame data in
      '((r, cmd), l, es) ← perform (read_step (lvLimiter l) data) ev l;
      let l := with_threads (negb stops) (lvWriting l) (with_received r l) in
      match cmd with
      | None => Some (l, es)
      | Some msg => let '(l, es') := hand_over msg l in Some (l, es ++ es')
      end
  end.

(** [writeWithFaults]: what got on the wire, and whether it returned no error. *)
Definition count_written (msg : outbound) (bytes : Z) : Act unit :=
  modify (with_accounting (fun a =>
    mkAccounting (count_frame (acWindow a) (frType (obFrame msg)) bytes) (acWindowStarted a)
      (acEffectiveRate a) (acLastReportAgeMs a) (acConnectedAt a))).
Definition write_message (o : WriteOutcome) (msg : outbound) (bytes : Z) : Act (list (option Frame) * bool) :=
  s ← get;
  let faults := fsFaults (seFaults s) in
  let holds := 0 <? fcHoldWrites faults in
  let delays := (0 <? fcWriteDelay faults) || (0 <? fcWriteJitter faults) in
  let malformed := 0 <? fcMalformedFrames faults in
  _ ← when holds (modify (with_faults (set_fault clear_hold)));
  if holds && match o with EndsInHold => true | _ => false end then mret ([], false) else
  if delays && match o with EndsInDelay => true | _ => false end then mret ([], false) else
  _ ← when malformed (_ ← modify (with_faults (set_fault dec_malformed)); emit (ERecFault "malformed_frame"));
  if malformed && match o with MalformedFails => true | _ => false end then mret ([], false) else
  let before := if malformed then [None] else [] in
  match o with
  | WriteFails => mret (before, false)
  | WriteOk => _ ← count_written msg bytes; mret (before ++ [Some (obFrame msg)], true)
  | _ => lift None
  end.

(** The outbound message the writer works on next. *)
Definition next_message l : option (outbound * Session P) :=
  let o := seOutput (lvSession l) in
  msg ← (ouTaken o ++ ouQueue o) !! lvWritten l;
  Some (msg, if (lvWritten l <? length (ouTaken o))%nat then lvSession l
             else with_output (take_out 1) (lvSession l)).

(** A round of [writeLoop] on a message. *)
Definition write (ev : Env G) (o : WriteOutcome) (bytes : Z) l : option (Live P * list LiveEffect) :=
  '(msg, s) ← next_message l;
  '((frames, ok), l, es) ← perform (write_message o msg bytes) ev (with_session s l);
  if ok : bool then Some (with_wire frames (S (lvWritten l)) (i64 (lvBytes l + bytes)) 0 l, es)
  else
    let l := with_wire frames (lvWritten l) (lvBytes l) (i64 (lvWriteFails l + 1)) l in
    let l := with_session (with_close "slow_consumer" true (lvSession l)) l in
    Some (with_threads (lvReading l) false l,
          es ++ [LSession (ECount "slow_consumers_total" 1); LSession (ERecProtocol "SLOW_CONSUMER")]).

(** ** Inputs *)

Inductive LiveInput :=
| IStart (ev : Env G) (ended : bool) (subscribers : Z)
| ILoop (ev : Env G) (i : LoopInput)
| ICommand (ev : Env G)
| ILeave (ev : Env G) (mailbox_closed : bool)
| IClose
| IRead (ev : Env G) (r : ReadResult)
| IReadEnds
| IWrite (ev : Env G) (o : WriteOutcome) (bytes : Z)
| IWriteEnds
| IDrop (reason : string)
| IInject (msg : ClientMessage)
| IFaults (cfg : FaultConfig)
| ICancel.

Definition guard {A} (b : bool) (x : option A) : option A := if b then x else None.

Definition live_step l (i : LiveInput) : option (Live P * list LiveEffect) :=
  let s := lvSession l in
  match i with
  | IStart ev ended n => guard (bool_decide (lvPhase l = Created)) (start ev ended n l)
  | ILoop ev (LCommand _) => None
  | ILoop ev i =>
      guard (bool_decide (lvPhase l = Running)) ('(_, l, es) ← perform (loop_step i) ev l; Some (l, es))
  | ICommand ev =>
      guard (bool_decide (lvPhase l = Running))
        (match lvCommands l with
         | [] => None
         | msg :: rest => '(_, l, es) ← perform (loop_step (LCommand msg)) ev (with_commands rest l); Some (l, es)
         end)
  | ILeave ev closed => guard (bool_decide (lvPhase l = Running) && (seDropped s || closed)) (leave ev l)
  | IClose => guard (bool_decide (lvPhase l = Leaving)) (Some (close l))
  | IRead ev r => guard (lvReading l) (read ev r l)
  | IReadEnds => guard (lvReading l && seDropped s) (Some (with_threads false (lvWriting l) l, []))
  | IWrite ev o bytes =>
      guard (lvWriting l && match o with
                            | WriteOk => negb (bool_decide (lvPhase l = Over))
                            | EndsInHold | EndsInDelay => seDropped s
                            | _ => true
                            end) (write ev o bytes l)
  | IWriteEnds => guard (lvWriting l && seDropped s) (Some (with_threads (lvReading l) false l, []))
  | IDrop reason =>
      Some (with_session (with_close reason (seDropped s || negb (bool_decide (lvPhase l = Created))) s) l, [])
  | IInject msg =>
      Some (if (len (lvCommands l) <? commandCapacity) && negb (bool_decide (lvPhase l = Over))
            then with_commands (lvCommands l ++ [msg]) l else l, [])
  | IFaults cfg => Some (with_session (ApplyFaults cfg s) l, [])
  | ICancel =>
      Some (with_session (with_close (seCloseReason s) (seDropped s || negb (bool_decide (lvPhase l = Created))) s) l, [])
  end.

Fixpoint live_run l (inputs : list LiveInput) : option (Live P * list LiveEffect) :=
  match inputs with
  | [] => Some (l, [])
  | i :: inputs => '(l, es) ← live_step l i; '(l, es') ← live_run l inputs; Some (l, es ++ es')
  end.
End Run.
