(* ===== verification/SessionRunSpec.v ===== *)
(** * The life of a session, in order

    Whatever happens to a session in whatever order, it is recorded once as
    started and once as ended, holds exactly one bus subscription while it runs
    and none afterwards, and writes the frames it queued in their order.  The
    proofs follow what every handler leaves alone ([calm]). *)

From S2P Require Import Prelude Money Decimal GoTime Domain Float64 Rand Book Candles Bus Engine Registry.
From S2P Require Import Json Protocol ProtocolSpec Wire Tier TierSpec Coalesce Metrics Session SessionLoop SessionSpec EngineSpec SessionRun.

(** ** What the effects of a run add up to *)

(** The market whose subscription is held after the effects, from [cur] on;
    [None] when one is released that is not held, or a second one taken. *)
Fixpoint held (cur : option string) (es : list SEffect) : option (option string) :=
  match es with
  | [] => Some cur
  | EBusSubscribe m _ _ :: es => match cur with None => held (Some m) es | Some _ => None end
  | EBusUnsubscribe m :: es => if bool_decide (cur = Some m) then held None es else None
  | _ :: es => held cur es
  end.

Definition active_move (e : SEffect) : Z :=
  match e with ECount name n => if bool_decide (name = "ws_connections_active"%string) then n else 0 | _ => 0 end.
Definition active_moves (es : list SEffect) : Z := total (map active_move es).

Lemma held_app cur es es' : held cur (es ++ es') = (cur' ← held cur es; held cur' es').
Proof.
  revert cur. induction es as [|[] es IH]; intros cur; cbn [app held]; try done; try (by apply IH).
  - destruct cur; [done|by apply IH].
  - case_bool_decide; [by apply IH|done].
Qed.
Lemma active_moves_app es es' : active_moves (es ++ es') = active_moves es + active_moves es'.
Proof. unfold active_moves. by rewrite map_app, total_app. Qed.

Section Calm.
Context {G : Type} `{RandSource G} {P : Type} `{Policy P}.
Implicit Types s : Session P.

(** Everything ever queued. *)
Definition messages s : list outbound := ouTaken (seOutput s) ++ ouQueue (seOutput s).
Definition close_info s := (seDropped s, seCloseReason s).

(** ** Handlers *)

(** What a handler does not do: lose track of the subscription, count a
    connection, take a message back, or, if [open] is set, close the session. *)
Context (open : bool).

Record calm_step s (es : list SEffect) s' : Prop := {
  cs_cfg : seCfg s' = seCfg s;
  cs_held : held (bnEngine (seBinding s)) es = Some (bnEngine (seBinding s'));
  cs_active : active_moves es = 0;
  cs_taken : ouTaken (seOutput s) `prefix_of` ouTaken (seOutput s');
  cs_messages : messages s `prefix_of` messages s';
  cs_close : open = true -> close_info s' = close_info s }.

Definition calm {A} (act : Act (G := G) (P := P) A) : Prop :=
  forall ev s a s' es, act ev s = Some (a, s', es) -> calm_step s es s'.

Lemma calm_step_refl s s' : (seCfg s', seBinding s', seOutput s', close_info s') = (seCfg s, seBinding s, seOutput s, close_info s) ->
  calm_step s [] s'.
Proof. intros [= E1 E2 E3 E4 E5]. split; unfold messages, close_info; rewrite ?E1, ?E2, ?E3, ?E4, ?E5; done. Qed.
Lemma calm_step_trans s1 es1 s2 es2 s3 : calm_step s1 es1 s2 -> calm_step s2 es2 s3 -> calm_step s1 (es1 ++ es2) s3.
Proof.
  intros [C1 H1 A1 T1 M1 D1] [C2 H2 A2 T2 M2 D2]. split.
  - congruence.
  - by rewrite held_app, H1.
  - rewrite active_moves_app. lia.
  - by etrans.
  - by etrans.
  - intros Ho. by rewrite D2, D1.
Qed.

Lemma calm_bind {A B} (m : Act (P := P) A) (f : A -> Act B) : calm m -> (forall a, calm (f a)) -> calm (m ≫= f).
Proof.
  intros Hm Hf ev s b s' es. unfold mbind, act_bind. destruct (m ev s) as [[[a s1] es1]|] eqn:E1; [|done].
  destruct (f a ev s1) as [[[b' s2] es2]|] eqn:E2; [|done]. intros [= <- <- <-].
  eapply calm_step_trans; [by eapply Hm|by eapply Hf].
Qed.
Lemma calm_ret {A} (a : A) : calm (mret a).
Proof. intros ev s b s' es [= <- <- <-]. by apply calm_step_refl. Qed.
Lemma calm_skip : calm skip.
Proof. apply calm_ret. Qed.
Lemma calm_emit e : is_bus e = false -> active_move e = 0 -> calm (emit e).
Proof.
  intros Hb Ha ev s b s' es [= <- <- <-]. split; try done; [by destruct e|]. unfold active_moves. cbn. by rewrite Ha.
Qed.
Lemma calm_get : calm get.
Proof. intros ev s b s' es [= <- <- <-]. by apply calm_step_refl. Qed.
Lemma calm_now : calm now_.
Proof. intros ev s b s' es [= <- <- <-]. by apply calm_step_refl. Qed.
Lemma calm_modify f :
  (forall s, seCfg (f s) = seCfg s /\ bnEngine (seBinding (f s)) = bnEngine (seBinding s) /\ (open = true -> close_info (f s) = close_info s) /\
     ouTaken (seOutput (f s)) = ouTaken (seOutput s) /\ messages (f s) = messages s) -> calm (modify f).
Proof. intros Hf ev s b s' es [= <- <- <-]. destruct (Hf s) as (? & E & ? & E1 & E2). split; try done; cbn; by rewrite ?E, ?E1, ?E2. Qed.
Lemma calm_lift {A} (o : option A) : calm (lift o).
Proof. intros ev s b s' es. unfold lift. destruct o; [|done]. intros [= <- <- <-]. by apply calm_step_refl. Qed.
Lemma calm_engine : calm engine.
Proof. intros ev s b s' es. unfold engine. destruct (engine_of s ev); [|done]. intros [= <- <- <-]. by apply calm_step_refl. Qed.
Lemma calm_enqueue m : calm (enqueue m).
Proof.
  intros ev s b s' es. unfold enqueue.
  assert (Hn : forall n, ouTaken (seOutput s) `prefix_of` ouTaken (seOutput (with_output (fun o => push m (take_out n o)) s)) /\
    messages s `prefix_of` messages (with_output (fun o => push m (take_out n o)) s)).
  { intros n. unfold messages. cbn [with_output push take_out seOutput ouTaken ouQueue]. split; [by apply prefix_app_r|].
    rewrite <- app_assoc, (app_assoc (take n _)), take_drop, app_assoc. by apply prefix_app_r. }
  destruct (has_space s); [|destruct (obCritical m); [case_bool_decide|]]; intros [= <- <- <-].
  - split; try done. unfold messages. cbn. rewrite app_assoc. by apply prefix_app_r.
  - by apply calm_step_refl.
  - split; try done; apply Hn.
  - split; try done.
Qed.
Lemma calm_nextSeq : calm nextSeq.
Proof. intros ev s b s' es [= <- <- <-]. by split. Qed.
Lemma calm_fault r c : calm (consumeBoolFault r c).
Proof. intros ev s b s' es. unfold consumeBoolFault. destruct (r _); intros [= <- <- <-]; by apply calm_step_refl. Qed.
Lemma calm_take_delta : calm take_delta.
Proof. intros ev s b s' es. unfold take_delta. destruct (TakeBookDelta _). intros [= <- <- <-]. by apply calm_step_refl. Qed.
Lemma calm_take_candle : calm take_candle.
Proof. intros ev s b s' es. unfold take_candle. destruct (TakeCandle _ _). intros [= <- <- <-]. by apply calm_step_refl. Qed.
Lemma calm_take_trades : calm take_trades.
Proof. intros ev s b s' es. unfold take_trades. destruct (TakeTrades _). intros [= <- <- <-]. by apply calm_step_refl. Qed.
Lemma calm_transition step : calm (transition step).
Proof. intros ev s b s' es. unfold transition. destruct (step _). intros [= <- <- <-]. by apply calm_step_refl. Qed.

Create HintDb calm.
#[local] Hint Resolve calm_ret calm_skip calm_get calm_now calm_lift calm_engine calm_enqueue calm_nextSeq calm_fault
  calm_take_delta calm_take_candle calm_take_trades calm_transition : calm.
#[local] Hint Extern 1 (calm (emit _)) => apply calm_emit; reflexivity : calm.

Ltac calm_walk :=
  repeat match goal with
  | |- calm (_ ≫= _) => apply calm_bind; [|intros ?]
  | |- calm (modify _) => apply calm_modify; intros ?; done
  | |- calm (when ?c _) => unfold when; destruct c
  | |- calm (match ?x with _ => _ end) => destruct x
  | |- calm (let '(_, _) := ?x in _) => destruct x
  | |- calm (on_coalescer _) => unfold on_coalescer
  end; try solve [eauto with calm].

Lemma calm_frame k p : calm (frame k p).
Proof. unfold frame. calm_walk. Qed.
Lemma calm_send k p c : calm (send k p c).
Proof. unfold send. apply calm_bind; [apply calm_frame|intros [f|]]; calm_walk. Qed.
#[local] Hint Resolve calm_frame calm_send : calm.
Lemma calm_sendError e : calm (sendError e).
Proof. unfold sendError. calm_walk. Qed.
Lemma calm_sendSnapshot : calm sendSnapshot.
Proof. unfold sendSnapshot. calm_walk. Qed.
#[local] Hint Resolve calm_sendError calm_sendSnapshot : calm.
Lemma calm_requestResync : calm requestResync.
Proof. unfold requestResync. calm_walk. Qed.
#[local] Hint Resolve calm_requestResync : calm.
Lemma calm_sendCandleClosed c : calm (sendCandleClosed c).
Proof. unfold sendCandleClosed, enqueueCritical. calm_walk. Qed.
Lemma calm_sendCandleUpdate c : calm (sendCandleUpdate c).
Proof. unfold sendCandleUpdate. calm_walk. Qed.
Lemma calm_flushSummary : calm flushSummary.
Proof. unfold flushSummary. calm_walk. Qed.
#[local] Hint Resolve calm_sendCandleClosed calm_sendCandleUpdate calm_flushSummary : calm.
Lemma calm_sendHealth : calm sendHealth.
Proof. unfold sendHealth. calm_walk. Qed.
Lemma calm_sendWelcome : calm sendWelcome.
Proof. unfold sendWelcome, enqueueCritical. calm_walk. Qed.
Lemma calm_sendPong i t : calm (sendPong i t).
Proof. unfold sendPong. calm_walk. Qed.
Lemma calm_handleEvent e : calm (handleEvent e).
Proof. destruct e; cbn [handleEvent]; unfold sendMarketStatus; calm_walk. Qed.
Lemma calm_send_delta d f : calm (send_delta d f).
Proof. unfold send_delta. calm_walk. Qed.
#[local] Hint Resolve calm_send_delta calm_sendHealth calm_handleEvent calm_sendPong : calm.
Lemma calm_flushBook : calm flushBook.
Proof. unfold flushBook, flush_skip, clear_skips. calm_walk. Qed.
Lemma calm_flushCandles : calm flushCandles.
Proof.
  unfold flushCandles. calm_walk. generalize 2%nat. induction n as [|n IH]; cbn [flush_candles];
    unfold suppress; calm_walk; exact IH.
Qed.
Lemma calm_flushTrades : calm flushTrades.
Proof.
  assert (Hs : forall ts, calm (send_trades (G := G) (P := P) ts)).
  { induction ts as [|t ts IH]; cbn [send_trades]; unfold suppress; calm_walk; exact IH. }
  unfold flushTrades, suppress. calm_walk.
Qed.
#[local] Hint Resolve calm_flushBook calm_flushCandles calm_flushTrades : calm.
Lemma calm_onTierChanged t : calm (onTierChanged t).
Proof. unfold onTierChanged. calm_walk. Qed.
#[local] Hint Resolve calm_onTierChanged : calm.

(** A new subscription replaces the one that was held. *)
Lemma calm_bindEngine e sym : calm (bindEngine e sym).
Proof.
  intros ev s u s' es Hrun. pose proof (bindEngine_run e sym ev s u s' es Hrun) as [Eb ->].
  unfold bindEngine, get, mbind, act_bind, modify, emit, skip, mret, act_ret in Hrun.
  destruct (bnEngine (seBinding s)) as [old|] eqn:Ee; injection Hrun as <- <-; split; try done; rewrite Ee; cbn [app held]; [|done].
  by rewrite bool_decide_eq_true_2.
Qed.
Lemma calm_handleSubscribe sy iv cs : calm (handleSubscribe sy iv cs).
Proof.
  unfold handleSubscribe. apply calm_bind; [apply calm_get|intros s0]. destruct (resolveMarket _ _) as [[e sym]|]; [|calm_walk].
  destruct (ParseInterval iv); [|calm_walk]. destruct (match cs with _ => _ end); [calm_walk|].
  apply calm_bind; [calm_walk|intros ?]. apply calm_bind; [unfold when; destruct (negb _); [apply calm_bindEngine|calm_walk]|intros ?].
  unfold announce. calm_walk.
Qed.
#[local] Hint Resolve calm_handleSubscribe : calm.

Lemma calm_loop_step i : calm (loop_step i).
Proof.
  destruct i as [[]| | | | | | | |]; cbn [loop_step handleCommand];
    unfold flush, recordDeliveryWindow, watchdog, handleLatencyReport, handleTierOverride; cbv zeta; calm_walk.
Qed.

Lemma calm_write_message o msg bytes : calm (write_message o msg bytes).
Proof. unfold write_message, count_written; cbv zeta. calm_walk. Qed.
End Calm.

Section Calm2.
Context {G : Type} `{RandSource G} {P : Type} `{Policy P}.

(** The reader may close the session, but does not touch its subscription. *)
Lemma calm_read_step r data : calm (G := G) (P := P) false (read_step r data).
Proof.
  assert (He : forall e, is_bus e = false -> active_move e = 0 -> calm (G := G) (P := P) false (emit e)) by (intros; by apply calm_emit).
  unfold read_step. apply calm_bind; [apply calm_now|intros now]. destruct (allow r now) as [r' ok]. destruct (negb ok).
  - apply calm_bind; [by apply He|intros ?]. apply calm_bind; [by apply He|intros ?].
    apply calm_bind; [apply calm_sendError|intros ?]. apply calm_ret.
  - destruct (DecodeClientMessage data) as [m|e].
    + destruct m; try apply calm_ret. apply calm_bind; [apply calm_sendPong|intros ?]. apply calm_ret.
    + apply calm_bind; [by apply calm_modify|intros ?]. apply calm_bind; [by apply He|intros ?].
      apply calm_bind; [apply He; [done|by destruct (peCode e)]|intros ?]. apply calm_bind; [apply calm_sendError|intros ?].
      apply calm_bind; [|intros ?; apply calm_ret]. unfold when. destruct (peFatal e); [by apply calm_modify|apply calm_skip].
Qed.

Lemma kb_ret {A} (a : A) : keeps_binding (G := G) (P := P) (mret a).
Proof. apply (kb_pure (fun _ _ => Some a)). Qed.
Lemma kb_when c (a : Act (G := G) (P := P) unit) : keeps_binding a -> keeps_binding (when c a).
Proof. intros Ha. unfold when. destruct c; [exact Ha|apply kb_skip]. Qed.
Lemma kb_sendError e : keeps_binding (G := G) (P := P) (sendError e).
Proof. unfold sendError. apply kb_bind; [by apply kb_modify|intros ?; apply kb_send]. Qed.

Lemma kb_read_step r data : keeps_binding (G := G) (P := P) (read_step r data).
Proof.
  unfold read_step. apply kb_bind; [apply kb_now|intros now]. destruct (allow r now) as [r' ok]. destruct (negb ok).
  - do 2 (apply kb_bind; [by apply kb_emit|intros ?]). apply kb_bind; [apply kb_sendError|intros ?; apply kb_ret].
  - destruct (DecodeClientMessage data) as [m|e].
    + destruct m; try apply kb_ret. apply kb_bind; [|intros ?; apply kb_ret].
      unfold sendPong. apply kb_bind; [apply kb_now|intros ?; apply kb_send].
    + apply kb_bind; [by apply kb_modify|intros ?]. do 2 (apply kb_bind; [by apply kb_emit|intros ?]).
      apply kb_bind; [apply kb_sendError|intros ?]. apply kb_bind; [apply kb_when; by apply kb_modify|intros ?; apply kb_ret].
Qed.
Lemma kb_write_message o msg bytes : keeps_binding (G := G) (P := P) (write_message o msg bytes).
Proof.
  unfold write_message, count_written. apply kb_bind; [apply kb_get|intros s0]. cbv zeta.
  apply kb_bind; [apply kb_when; by apply kb_modify|intros ?].
  repeat match goal with |- keeps_binding (if ?c then _ else _) => destruct c; [apply kb_ret|] end.
  apply kb_bind; [apply kb_when; apply kb_bind; [by apply kb_modify|intros ?; by apply kb_emit]|intros ?].
  repeat match goal with |- keeps_binding (if ?c then mret ([], false) else _) => destruct c; [apply kb_ret|] end.
  destruct o; try apply kb_lift; [apply kb_ret|]. apply kb_bind; [by apply kb_modify|intros ?; apply kb_ret].
Qed.
End Calm2.

(** ** Lives *)

Definition session_effects (es : list LiveEffect) : list SEffect :=
  omap (fun e => match e with LSession e => Some e | _ => None end) es.
(** The rows recorded, with whether each is of an end. *)
Definition rows (es : list LiveEffect) : list (SessionRow * bool) :=
  omap (fun e => match e with LStart r => Some (r, false) | LEnd r => Some (r, true) | _ => None end) es.

Lemma session_effects_app es es' : session_effects (es ++ es') = session_effects es ++ session_effects es'.
Proof. apply omap_app. Qed.
Lemma rows_app es es' : rows (es ++ es') = rows es ++ rows es'.
Proof. apply omap_app. Qed.
Lemma effects_session es : session_effects (map LSession es) = es /\ rows (map LSession es) = [].
Proof. unfold session_effects, rows. induction es as [|e es [IH1 IH2]]; [done|]. split; cbn; [by f_equal|done]. Qed.

Section Life.
Context {G : Type} `{RandSource G} {P : Type} `{Policy P}.
Implicit Types (s : Session P) (l : Live P).

Definition engine_bound l : option string := bnEngine (seBinding (lvSession l)).
Definition on_wire l : list Frame := omap (fun f => f) (lvWire l).

(** The frames on the wire are the first ones queued. *)
Definition wire_ok l : Prop :=
  on_wire l = take (lvWritten l) (map obFrame (messages (lvSession l))) /\ (lvWritten l <= length (messages (lvSession l)))%nat.

Lemma wire_ok_session l s : wire_ok l -> messages (lvSession l) `prefix_of` messages s -> wire_ok (with_session s l).
Proof.
  intros [Hw Hl] [k Hk]. unfold wire_ok, on_wire in *. cbn. rewrite Hw, Hk, map_app, length_app. split; [|lia].
  symmetry. apply take_app_le. by rewrite length_map.
Qed.

Lemma perform_run {A} (act : Act (G := G) A) ev l a l' es : perform act ev l = Some (a, l', es) ->
  exists s' es', act ev (lvSession l) = Some (a, s', es') /\ l' = with_session s' l /\
    session_effects es = es' /\ rows es = [].
Proof.
  unfold perform. destruct (act ev (lvSession l)) as [[[a' s'] es']|] eqn:E; [|done]. cbn. intros [= <- <- <-].
  exists s', es'. destruct (effects_session es') as [H1 H2]. by split_and!.
Qed.

(** What a step does that leaves the session in its phase. *)
Record steady l (es : list LiveEffect) l' : Prop := {
  sd_phase : lvPhase l' = lvPhase l; sd_cfg : seCfg (lvSession l') = seCfg (lvSession l);
  sd_rows : rows es = []; sd_active : active_moves (session_effects es) = 0;
  sd_held : held (engine_bound l) (session_effects es) = Some (engine_bound l');
  sd_free : lvPhase l <> Running -> engine_bound l' = engine_bound l /\ bus_effects (session_effects es) = [];
  sd_written : (lvWritten l <= lvWritten l')%nat;
  sd_threads : lvReading l = false /\ lvWriting l = false -> lvReading l' = false /\ lvWriting l' = false;
  sd_messages : messages (lvSession l) `prefix_of` messages (lvSession l');
  sd_wire : wire_ok l -> wire_ok l' }.

(** A step of the delivery loop. *)
Lemma loop_steady ev i l u l' es :
  lvPhase l = Running -> perform (G := G) (loop_step i) ev l = Some (u, l', es) -> steady l es l'.
Proof.
  intros Hp Hr. apply perform_run in Hr as (s' & es' & E & -> & Es & Er).
  destruct (calm_loop_step true i _ _ _ _ _ E) as [? ? ? ? ? ?]. split; try done; try by rewrite Es.
  by intros; apply wire_ok_session.
Qed.

Lemma held_no_bus cur es : bus_effects es = [] -> held cur es = Some cur.
Proof. unfold bus_effects. induction es as [|[] es IH]; cbn; done || by intros; apply IH. Qed.

(** A step of an action that does not touch the bus. *)
Lemma perform_free b {A} (act : Act (G := G) A) ev l a l' es : calm b act -> keeps_binding act ->
  perform act ev l = Some (a, l', es) -> steady l es l'.
Proof.
  intros Hc Hk Hr. apply perform_run in Hr as (s' & es' & E & -> & Es & Er).
  destruct (Hc _ _ _ _ _ E) as [? ? ? ? ? ?]. destruct (Hk _ _ _ _ _ E) as (Eb & _ & Eu).
  split; try done; try by rewrite Es. { intros _. unfold engine_bound. cbn. by rewrite Eb, Es. }
  by intros; apply wire_ok_session.
Qed.

Lemma steady_trans l1 es1 l2 es2 l3 : steady l1 es1 l2 -> steady l2 es2 l3 -> steady l1 (es1 ++ es2) l3.
Proof.
  intros [P1 C1 R1 A1 H1 F1 W1 T1 M1 O1] [P2 C2 R2 A2 H2 F2 W2 T2 M2 O2]. rewrite P1 in F2.
  split; try congruence; try lia; auto; [..|by etrans].
  - by rewrite rows_app, R1, R2.
  - rewrite session_effects_app, active_moves_app. lia.
  - by rewrite session_effects_app, held_app, H1.
  - intros Hn. destruct (F1 Hn) as [E1 U1], (F2 Hn) as [E2 U2]. split; [congruence|].
    unfold bus_effects in *. by rewrite session_effects_app, List.filter_app, U1, U2.
Qed.

(** A change of the other parts of a life, or of how its session is closed. *)
Lemma steady_other l l' es :
  (lvPhase l', seCfg (lvSession l'), seBinding (lvSession l'), messages (lvSession l'), lvWritten l', on_wire l') =
  (lvPhase l, seCfg (lvSession l), seBinding (lvSession l), messages (lvSession l), lvWritten l, on_wire l) ->
  rows es = [] -> bus_effects (session_effects es) = [] -> active_moves (session_effects es) = 0 ->
  (lvReading l = false /\ lvWriting l = false -> lvReading l' = false /\ lvWriting l' = false) -> steady l es l'.
Proof.
  intros [= E1 E2 E3 E4 E5 E6] Hr Hb Ha Ht. split; unfold engine_bound, wire_ok; rewrite ?E1, ?E2, ?E3, ?E4, ?E5, ?E6; try done.
  by apply held_no_bus.
Qed.

(** ** The reader and the writer *)

Lemma read_steady (ev : Env G) r l l' es : lvReading l = true -> read ev r l = Some (l', es) -> steady l es l'.
Proof.
  intros Hr. destruct r as [data|e]; cbn [read].
  - destruct (perform (read_step (lvLimiter l) data) ev l) as [[[[r' cmd] l1] es1]|] eqn:E; [|done]. cbn [mbind option_bind].
    pose proof (perform_free false _ _ _ _ _ _ (calm_read_step _ _) (kb_read_step _ _) E) as Hs.
    set (stops := negb _). intros Hrun.
    assert (Hs2 : steady l1 [] (with_threads stops (lvWriting l1) (with_received r' l1))).
    { apply steady_other; try done. apply perform_run in E as (s' & es' & _ & -> & _). cbn. rewrite Hr. by intros [? _]. }
    pose proof (steady_trans _ _ _ _ _ Hs Hs2) as Hs3. rewrite app_nil_r in Hs3.
    destruct cmd as [msg|]; [|by injection Hrun as <- <-].
    unfold hand_over in Hrun. destruct (_ <? _); injection Hrun as <- <-; (eapply steady_trans; [exact Hs3|]); by apply steady_other.
  - intros [= <- <-]. apply steady_other; try done; destruct e; done || by rewrite Hr; intros [? _].
Qed.

Lemma write_message_frames o msg bytes (ev : Env G) s frames ok s' es :
  write_message o msg bytes ev s = Some ((frames, ok), s', es) ->
  omap (fun f => f) frames = if ok then [obFrame msg] else [].
Proof.
  unfold write_message. intros Hrun. apply act_inv in Hrun as (s0 & s1 & es1 & es2 & [= <- <- <-] & Hrun & ->).
  cbv zeta in Hrun. apply act_inv in Hrun as (u & s2 & es3 & es4 & _ & Hrun & ->).
  destruct (_ && _) in Hrun; [by injection Hrun as <- <- _ _|].
  destruct (_ && _) in Hrun; [by injection Hrun as <- <- _ _|].
  apply act_inv in Hrun as (u' & s3 & es5 & es6 & _ & Hrun & ->).
  destruct (_ && _) in Hrun; [by injection Hrun as <- <- _ _|].
  destruct o; try done.
  - injection Hrun as <- <- _ _. by destruct (0 <? _).
  - apply act_inv in Hrun as (u'' & s4 & es7 & es8 & _ & Hrun & ->). injection Hrun as <- <- _ _. by destruct (0 <? _).
Qed.

Lemma next_message_spec l msg s : next_message l = Some (msg, s) ->
  messages (lvSession l) !! lvWritten l = Some msg /\ messages s = messages (lvSession l) /\
  seCfg s = seCfg (lvSession l) /\ seBinding s = seBinding (lvSession l).
Proof.
  unfold next_message, messages. destruct (_ !! lvWritten l) as [m|] eqn:E; [|done]. cbn [mbind option_bind]. intros [= <- <-].
  split; [done|]. destruct (Nat.ltb (lvWritten l) (length (ouTaken (seOutput (lvSession l))))); [done|]. cbn. by rewrite <- app_assoc, take_drop.
Qed.

Lemma write_steady (ev : Env G) o bytes l l' es : lvWriting l = true -> write ev o bytes l = Some (l', es) -> steady l es l'.
Proof.
  intros Hw. unfold write. destruct (next_message l) as [[msg s]|] eqn:En; [|done]. cbn [mbind option_bind].
  apply next_message_spec in En as (Hm & Em & Ec & Eb).
  destruct (perform (write_message o msg bytes) ev (with_session s l)) as [[[[frames ok] l1] es1]|] eqn:E; [|done].
  cbn [mbind option_bind].
  pose proof (perform_free true _ _ _ _ _ _ (calm_write_message true o msg bytes) (kb_write_message o msg bytes) E) as Hs.
  assert (Hs0 : steady l [] (with_session s l)) by (apply steady_other; try done; cbn; by rewrite Ec, Eb, Em).
  pose proof (steady_trans _ _ _ _ _ Hs0 Hs) as Hs1. cbn [app] in Hs1.
  apply perform_run in E as (s' & es' & E & -> & _). apply write_message_frames in E.
  destruct ok; intros [= <- <-].
  - destruct Hs1 as [P1 C1 R1 A1 H1 F1 W1 T1 M1 O1]. split; try done; [cbn; lia|].
    intros Hok. pose proof (O1 Hok) as [Hw1 Hl1]. unfold wire_ok, on_wire in *. cbn [with_wire with_session lvWire lvWritten lvSession] in *.
    rewrite omap_app, E, Hw1.
    assert (Hm' : messages s' !! lvWritten l = Some msg) by (by eapply prefix_lookup_Some; [exact Hm|]).
    split; [|by apply lookup_lt_Some in Hm'].
    symmetry. apply take_S_r. by rewrite list_lookup_fmap, Hm'.
  - eapply steady_trans; [exact Hs1|]. apply steady_other; try done; [|by cbn; rewrite Hw; intros [_ ?]].
    unfold on_wire, messages. cbn. by rewrite omap_app, E, app_nil_r.
Qed.

(** ** Every input *)

Definition phase_input (i : LiveInput (G := G)) : bool :=
  match i with IStart _ _ _ | ILeave _ _ | IClose => true | _ => false end.

Lemma guard_run {A} b (x : option A) a : guard b x = Some a -> b = true /\ x = Some a.
Proof. by destruct b. Qed.

Lemma live_steady l i l' es : phase_input i = false -> live_step l i = Some (l', es) -> steady l es l'.
Proof.
  destruct i as [| ev i | ev | | | ev r | | ev o bytes | | reason | msg | cfg | ]; intros Hi Hrun; try done; cbn [live_step] in Hrun.
  - destruct i; try done; apply guard_run in Hrun as [Hp Hrun]; apply bool_decide_eq_true in Hp;
      match type of Hrun with context [perform ?a ev l] => destruct (perform a ev l) as [[[u l1] es1]|] eqn:E end; try done;
      injection Hrun as <- <-; by eapply loop_steady.
  - apply guard_run in Hrun as [Hp Hrun]. apply bool_decide_eq_true in Hp. destruct (lvCommands l) as [|msg rest]; [done|].
    destruct (perform (loop_step (LCommand msg)) ev (with_commands rest l)) as [[[u l1] es1]|] eqn:E; [|done].
    injection Hrun as <- <-. apply (steady_trans _ [] (with_commands rest l)); [by apply steady_other|by eapply loop_steady].
  - apply guard_run in Hrun as [Hp Hrun]. by eapply read_steady.
  - apply guard_run in Hrun as [Hp Hrun]. injection Hrun as <- <-. apply andb_true_iff in Hp as [Hp _].
    apply steady_other; try done. cbn. by intros [_ ?].
  - apply guard_run in Hrun as [Hp Hrun]. apply andb_true_iff in Hp as [Hp _]. by eapply write_steady.
  - apply guard_run in Hrun as [Hp Hrun]. injection Hrun as <- <-. apply andb_true_iff in Hp as [Hp _].
    apply steady_other; try done. cbn. by intros [? _].
  - injection Hrun as <- <-. by apply steady_other.
  - injection Hrun as <- <-. destruct (_ && _); by apply steady_other.
  - injection Hrun as <- <-. by apply steady_other.
  - injection Hrun as <- <-. by apply steady_other.
Qed.

(** ** The books of a life *)

(** A session that left has a row of each kind; the messages its end row counts
    are frames that were on the wire by then. *)
Definition start_row (id : string) (r : SessionRow) : Prop := srSessionID r = id /\ srDisconnectedAt r = None.
Definition end_row (id : string) (n : nat) (r : SessionRow) : Prop :=
  srSessionID r = id /\ is_Some (srDisconnectedAt r) /\ srMessagesSent r = i64 (Z.of_nat n).
Definition recorded l (rs : list (SessionRow * bool)) : Prop :=
  let id := scID (seCfg (lvSession l)) in
  let whole := exists r r' n, rs = [(r, false); (r', true)] /\ start_row id r /\ end_row id n r' /\ (n <= lvWritten l)%nat in
  match lvPhase l with
  | Created => rs = []
  | Running => exists r, rs = [(r, false)] /\ start_row id r
  | Leaving => whole
  | Over => rs = [] \/ whole
  end.

(** The subscription a life holds. *)
Definition subscription l : option string :=
  match lvPhase l with Running | Leaving => engine_bound l | _ => None end.
Definition is_active l : Z := match lvPhase l with Running => 1 | _ => 0 end.

Record life l (es : list LiveEffect) : Prop := {
  lf_rows : recorded l (rows es); lf_active : active_moves (session_effects es) = is_active l;
  lf_held : held None (session_effects es) = Some (subscription l);
  lf_wire : wire_ok l; lf_idle : lvPhase l = Created -> lvReading l = false /\ lvWriting l = false }.

Lemma recorded_written l l' rs : (lvPhase l', seCfg (lvSession l')) = (lvPhase l, seCfg (lvSession l)) ->
  (lvWritten l <= lvWritten l')%nat -> recorded l rs -> recorded l' rs.
Proof.
  intros [= E1 E2] Hw. unfold recorded. rewrite E1, E2. cbv zeta. destruct (lvPhase l); try done.
  - intros (r & r' & n & ? & ? & ? & ?). exists r, r', n. split_and!; try done. lia.
  - intros [?|(r & r' & n & ? & ? & ? & ?)]; [by left|right]. exists r, r', n. split_and!; try done. lia.
Qed.

Lemma life_steady l es l' es' : steady l es' l' -> life l es -> life l' (es ++ es').
Proof.
  intros [P1 C1 R1 A1 H1 F1 W1 T1 M1 O1] [Lr La Lh Lw Li]. split.
  - rewrite rows_app, R1, app_nil_r. eapply recorded_written; [|exact W1|exact Lr]. by rewrite P1, C1.
  - unfold is_active in *. by rewrite session_effects_app, active_moves_app, La, A1, P1, Z.add_0_r.
  - rewrite session_effects_app, held_app, Lh. unfold subscription in *. rewrite P1.
    destruct (lvPhase l) eqn:Ep; cbn [mbind option_bind]; [|exact H1|..];
      (destruct F1 as [E U]; [done|]); rewrite ?E; by apply held_no_bus.
  - by apply O1.
  - rewrite P1. intros Hc. by apply T1, Li.
Qed.

Lemma perform_calm {A} b (act : Act (G := G) A) ev l a l' es : calm b act -> perform act ev l = Some (a, l', es) ->
  exists s', l' = with_session s' l /\ calm_step b (lvSession l) (session_effects es) s' /\ rows es = [].
Proof. intros Hc Hr. apply perform_run in Hr as (s' & es' & E & -> & Es & Er). exists s'. rewrite Es. split_and!; try done. by eapply Hc. Qed.

Lemma leave_life (ev : Env G) l es l' es' : lvPhase l = Running -> leave ev l = Some (l', es') -> life l es -> life l' (es ++ es').
Proof.
  intros Hp. unfold leave. destruct (perform _ ev l) as [[[u l1] es1]|] eqn:E; [|done]. cbn [mbind option_bind]. intros [= <- <-] [Lr La Lh Lw Li].
  apply (perform_calm true) in E as (s' & -> & [C1 H1 A1 T1 M1 _] & R1); [|apply calm_send].
  unfold recorded, is_active, subscription in *. rewrite Hp in *. destruct Lr as (r & Er & Ei).
  split; cbn [with_phase with_session lvPhase lvSession lvWritten].
  - rewrite rows_app, Er. change (rows (?a :: LEnd ?r :: es1)) with ((r, true) :: rows es1). rewrite R1. exists r, (recordSessionEnd l (seCloseReason (lvSession l)) (evNow ev)), (lvWritten l).
    cbn [with_phase with_session lvSession lvWritten]. rewrite C1. by split_and!.
  - rewrite session_effects_app, active_moves_app, La. 
    change (active_moves (session_effects (LSession ?e :: LEnd ?r :: es1))) with (active_move e + active_moves (session_effects es1)).
    by rewrite A1.
  - rewrite session_effects_app, held_app, Lh. exact H1.
  - exact (wire_ok_session l s' Lw M1).
  - done.
Qed.

Lemma close_life l es : lvPhase l = Leaving -> life l es -> life (fst (close l)) (es ++ snd (close l)).
Proof.
  intros Hp [Lr La Lh Lw Li]. unfold close, recorded, is_active, subscription, engine_bound in *. rewrite Hp in *.
  split; cbn [fst snd with_phase with_session lvPhase lvSession lvWritten with_close seCfg].
  - rewrite rows_app. right. destruct Lr as (r & r' & n & -> & ?). exists r, r', n. split; [|done]. by destruct (bnEngine _).
  - rewrite session_effects_app, active_moves_app, La. by destruct (bnEngine _).
  - rewrite session_effects_app, held_app, Lh. destruct (bnEngine _); cbn; [|done]. by rewrite bool_decide_eq_true_2.
  - exact (wire_ok_session l (with_close _ true (lvSession l)) Lw ltac:(done)).
  - done.
Qed.

Lemma start_life (ev : Env G) ended n l l' es es' : lvPhase l = Created -> start ev ended n l = Some (l', es') -> life l es -> life l' (es ++ es').
Proof.
  intros Hp. unfold start. set (s := with_close _ ended (lvSession l)). intros Hrun [Lr La Lh Lw Li].
  unfold recorded, is_active, subscription in Lr, La, Lh. rewrite Hp in Lr, La, Lh.
  destruct (bnEngine (seBinding s)) as [e|] eqn:Ee.
  - set (l0 := with_phase Running (with_session s l)) in *.
    set (pre := [_; _; _; _; _]) in Hrun.
    destruct (perform sendWelcome ev l0) as [[[ok l1] es1]|] eqn:E; [|done]. cbn [mbind option_bind] in Hrun.
    apply (perform_calm true) in E as (s' & -> & [C1 H1 A1 T1 M1 _] & R1); [|apply calm_sendWelcome].
    assert (Hrow : life (with_session s' l0) (es ++ pre ++ es1)).
    { split; unfold recorded, is_active, subscription, engine_bound; cbn [l0 with_phase with_session lvPhase lvSession].
      - rewrite !rows_app, R1, Lr. cbn. eexists. split; [reflexivity|]. by rewrite C1.
      - rewrite !session_effects_app, !active_moves_app, A1, La. reflexivity.
      - rewrite !session_effects_app, !held_app, Lh. cbn [pre session_effects omap list_omap held mbind option_bind].
        change (bnEngine (seBinding (lvSession l0))) with (bnEngine (seBinding s)) in H1. rewrite Ee in H1. exact H1.
      - exact (wire_ok_session (with_phase Running l) s' Lw M1).
      - done. }
    destruct ok.
    + injection Hrun as <- <-. destruct Hrow as [? ? ? ? ?]. by split.
    + destruct (leave ev (with_session s' l0)) as [[l2 es2]|] eqn:El; [|done]. injection Hrun as <- <-.
      change (life l2 (es ++ pre ++ es1 ++ es2)). rewrite (app_assoc pre), (app_assoc es).
      eapply leave_life; [|exact El|exact Hrow]. reflexivity.
  - injection Hrun as <- <-. rewrite app_nil_r. split; unfold recorded, is_active, subscription; cbn; try done. by left.
Qed.

Lemma live_step_life l (i : LiveInput (G := G)) l' es es' : live_step l i = Some (l', es') -> life l es -> life l' (es ++ es').
Proof.
  destruct (phase_input i) eqn:Ei; [|intros Hr; apply life_steady; by eapply live_steady].
  destruct i; try done; cbn [live_step]; intros [Hp Hr]%guard_run.
  - apply bool_decide_eq_true in Hp. by eapply start_life.
  - apply andb_true_iff in Hp as [Hp _]. apply bool_decide_eq_true in Hp. by eapply leave_life.
  - apply bool_decide_eq_true in Hp. intros Hl. injection Hr as <- <-. by apply (close_life l es).
Qed.

Lemma live_run_life (inputs : list (LiveInput (G := G))) l l' es es' : live_run l inputs = Some (l', es') -> life l es -> life l' (es ++ es').
Proof.
  revert l es es'. induction inputs as [|i inputs IH]; intros l es es'; cbn [live_run].
  { intros [= <- <-]. by rewrite app_nil_r. }
  destruct (live_step l i) as [[l1 es1]|] eqn:E1; [|done]. cbn [mbind option_bind].
  destruct (live_run l1 inputs) as [[l2 es2]|] eqn:E2; [|done]. cbn [mbind option_bind]. intros [= <- <-] Hl.
  rewrite app_assoc. eapply IH; [exact E2|]. by eapply live_step_life.
Qed.

Lemma new_live_life s addr : messages s = [] -> life (new_live s addr) [].
Proof. intros Hs. split; try done. unfold wire_ok, on_wire. cbn. by rewrite Hs. Qed.

(** C11: The life of a session is accounted for.  Whatever its three goroutines
    do and whatever happens to it from outside, in whatever order: a session
    that runs has recorded exactly one start and no end, one that has left
    exactly one of each, under its identifier; the gauge of active connections
    counts it exactly while it runs; it holds exactly one bus subscription, that
    of the market it is bound to, from its start until it is closed, through
    every change of market, and none after; the frames on the wire are the first
    ones it queued, in order, and are the messages it counts as sent. *)
Theorem session_lifecycle cfg sym iv cs e (p : P) now addr (inputs : list (LiveInput (G := G))) l es :
  live_run (new_live (NewSession cfg sym iv cs e p now) addr) inputs = Some (l, es) ->
  recorded l (rows es) /\ active_moves (session_effects es) = is_active l /\
  held None (session_effects es) = Some (subscription l) /\
  on_wire l `prefix_of` stream (lvSession l) /\ lvSent l = i64 (len (on_wire l)).
Proof.
  intros Hr. pose proof (live_run_life _ _ _ [] _ Hr (new_live_life (NewSession cfg sym iv cs e p now) addr eq_refl)) as [Lr La Lh [Lw Ll] _].
  cbn [app] in *. split; [exact Lr|]. split; [exact La|]. split; [exact Lh|]. rewrite Lw. split.
  - exists (drop (lvWritten l) (map obFrame (messages (lvSession l)))). unfold stream. fold (messages (lvSession l)). by rewrite take_drop.
  - unfold lvSent, len. by rewrite length_take, length_map, Nat.min_l.
Qed.

(** ** The book on the wire *)

Lemma follow_all_prefix fs gs : is_Some (follow_all (fs ++ gs)) -> is_Some (follow_all fs).
Proof.
  unfold follow_all. rewrite foldl_app. destruct (foldl follow _ fs) as [p|]; [done|].
  enough (foldl follow None gs = None) as -> by done. induction gs as [|g gs IH]; [done|exact IH].
Qed.

Lemma read_step_in_step ev r data : env_ok ev -> triple (G := G) (P := P) ev in_step (read_step r data) (fun _ => in_step).
Proof.
  intros Hok. change in_step with (either (P := P) true). unfold read_step.
  assert (Hret : forall x : rateLimiter * option ClientMessage, triple (G := G) (P := P) ev (either true) (mret x) (fun _ => either true))
    by (intros; apply triple_ret).
  eapply triple_bind; [apply triple_now|intros now; cbv beta]. destruct (allow r now) as [r' ok]. destruct (negb ok).
  - do 2 (eapply triple_bind; [apply triple_emit|intros ?; cbv beta]).
    eapply triple_bind; [by apply sendError_keeps|intros ?; apply Hret].
  - destruct (DecodeClientMessage data) as [m|e].
    + destruct m; try apply Hret. eapply triple_bind; [|intros ?; apply Hret]. unfold sendPong.
      eapply triple_bind; [apply triple_now|intros ?; cbv beta]. by apply send_keeps.
    + eapply triple_bind; [by apply errors_keeps|intros ?; cbv beta].
      do 2 (eapply triple_bind; [apply triple_emit|intros ?; cbv beta]).
      eapply triple_bind; [by apply sendError_keeps|intros ?; cbv beta]. eapply triple_bind; [|intros ?; apply Hret].
      apply triple_when; [|done]. intros _. apply triple_modify. intros s Hs. by eapply either_core; [|exact Hs].
Qed.

Lemma in_step_faults f s : (forall c, fcSkipBookDeltas (f c) = fcSkipBookDeltas c /\ fcReverseDeltas (f c) = fcReverseDeltas c) ->
  in_step s -> in_step (with_faults (set_fault f) s).
Proof.
  intros Hf. destruct (Hf (fsFaults (seFaults s))) as [E1 E2].
  unfold in_step, sound, quiet. cbn [with_faults set_fault seFaults fsFaults fsHeldDelta seCoalescer]. by rewrite E1, E2.
Qed.

Lemma write_message_in_step ev o msg bytes : triple (G := G) (P := P) ev in_step (write_message o msg bytes) (fun _ => in_step).
Proof.
  assert (Hret : forall x : list (option Frame) * bool, triple (G := G) (P := P) ev in_step (mret x) (fun _ => in_step))
    by (intros; apply triple_ret).
  unfold write_message, count_written. eapply triple_bind; [apply triple_get_any|intros s0; cbv beta zeta].
  eapply triple_bind; [apply triple_when; [intros _; apply triple_modify; intros s; by apply in_step_faults|done]|intros ?; cbv beta].
  destruct (_ && _); [apply Hret|]. destruct (_ && _); [apply Hret|].
  eapply triple_bind; [apply triple_when; [intros _|done]; eapply triple_bind; [|intros ?; apply triple_emit];
    apply triple_modify; intros s; by apply in_step_faults|intros ?; cbv beta].
  destruct (_ && _); [apply Hret|]. destruct o; try apply triple_lift; [apply Hret|].
  eapply triple_bind; [|intros ?; apply Hret]. apply triple_modify. intros s Hs. by eapply in_step_core; [|exact Hs].
Qed.

Lemma perform_in_step {A} (act : Act (G := G) A) ev l a l' es : triple ev in_step act (fun _ => in_step) ->
  perform act ev l = Some (a, l', es) -> in_step (lvSession l) -> in_step (lvSession l').
Proof. intros Ht Hr Hs. apply perform_run in Hr as (s' & es' & E & -> & _). by eapply Ht. Qed.

Lemma sendWelcome_in_step ev : env_ok ev -> triple (G := G) (P := P) ev in_step sendWelcome (fun _ => in_step).
Proof.
  intros Hok. change in_step with (either (P := P) true). unfold sendWelcome, enqueueCritical.
  eapply triple_bind; [apply engine_keeps|intros e; cbv beta]. eapply triple_bind; [apply triple_get_any|intros s0; cbv beta].
  eapply triple_bind; [apply triple_now|intros now; cbv beta zeta]. eapply triple_bind; [apply frame_spec|].
  intros [f|]; apply triple_pure; [|intros _; apply triple_ret]. intros [Hf _]. apply enqueue_keeps; [done|].
  unfold is_book. cbn [obFrame]. by rewrite Hf.
Qed.

(** An input under which the feed keeps its promise. *)
Definition input_ok (i : LiveInput (G := G)) : Prop :=
  match i with
  | IStart ev _ _ | ILoop ev _ | ICommand ev | ILeave ev _ | IRead ev _ | IWrite ev _ _ => env_ok ev
  | IFaults cfg => fcSkipBookDeltas cfg = 0 /\ fcReverseDeltas cfg = false
  | _ => True
  end.

Lemma close_in_step r b s : in_step s -> in_step (with_close r b s).
Proof. by apply in_step_core. Qed.

Lemma take_out_in_step n s : in_step s -> in_step (with_output (take_out n) s).
Proof.
  intros Hs. assert (Es : stream (with_output (take_out n) s) = stream s)
    by (unfold stream; cbn; by rewrite <- app_assoc, take_drop).
  unfold in_step, sound, quiet, bounded in *. rewrite Es. cbn [with_output take_out seOutput ouQueue seFaults seCfg seCoalescer] in *.
  unfold len in *. rewrite length_drop. destruct_and!. split_and!; try done. lia.
Qed.

Lemma leave_in_step (ev : Env G) l l' es : env_ok ev -> leave ev l = Some (l', es) -> in_step (lvSession l) -> in_step (lvSession l').
Proof.
  intros Hok. unfold leave. destruct (perform _ ev l) as [[[u l1] es1]|] eqn:E; [|done]. intros [= <- <-] Hs.
  refine (perform_in_step _ _ _ _ _ _ _ E Hs). change in_step with (either (P := P) true). by apply send_keeps.
Qed.

Lemma read_in_step (ev : Env G) r l l' es : env_ok ev -> read ev r l = Some (l', es) -> in_step (lvSession l) -> in_step (lvSession l').
Proof.
  intros Hok Hr Hs. destruct r as [data|e]; cbn [read] in Hr.
  - destruct (perform (read_step _ _) ev l) as [[[[r' cmd] l1] es1]|] eqn:E; [|done]. cbn [mbind option_bind] in Hr.
    apply perform_in_step in E; [|by apply read_step_in_step|done].
    destruct cmd as [msg|]; [unfold hand_over in Hr; destruct (_ <? _)|]; by injection Hr as <- <-.
  - injection Hr as <- <-. cbn. destruct e; by repeat apply close_in_step.
Qed.

Lemma write_in_step (ev : Env G) o bytes l l' es : write ev o bytes l = Some (l', es) -> in_step (lvSession l) -> in_step (lvSession l').
Proof.
  unfold write, next_message. destruct (_ !! lvWritten l) as [msg|]; [|done]. cbn [mbind option_bind]. intros Hr Hs.
  destruct (perform _ ev _) as [[[[frames ok] l1] es1]|] eqn:E; [|done]. cbn [mbind option_bind] in Hr.
  apply perform_in_step in E; [|apply write_message_in_step|].
  - destruct ok; injection Hr as <- <-; [done|by apply close_in_step].
  - cbn [with_session lvSession]. destruct (Nat.ltb _ _); [done|by apply take_out_in_step].
Qed.

Lemma start_in_step (ev : Env G) ended n l l' es : env_ok ev -> start ev ended n l = Some (l', es) -> in_step (lvSession l) -> in_step (lvSession l').
Proof.
  intros Hok Hr Hs. unfold start in Hr. destruct (bnEngine _) as [e|]; [|injection Hr as <- <-; by repeat apply close_in_step].
  destruct (perform sendWelcome ev _) as [[[ok l1] es1]|] eqn:E; [|done]. cbn [mbind option_bind] in Hr.
  apply perform_in_step in E; [|by apply sendWelcome_in_step|by apply close_in_step].
  destruct ok; [by injection Hr as <- <-|]. destruct (leave ev l1) as [[l2 es2]|] eqn:El; [|done]. injection Hr as <- <-.
  by eapply leave_in_step.
Qed.

Lemma live_step_in_step l i l' es : input_ok i -> live_step l i = Some (l', es) -> in_step (lvSession l) -> in_step (lvSession l').
Proof.
  intros Hok Hr Hs. destruct i as [ev ended n|ev i|ev|ev closed| |ev r| |ev o bytes| |reason|msg|cfg|]; cbn [live_step input_ok] in *.
  - apply guard_run in Hr as [_ Hr]. by eapply start_in_step.
  - destruct i; try done; apply guard_run in Hr as [_ Hr];
      match type of Hr with context [perform ?a ev l] => destruct (perform a ev l) as [[[u l1] es1]|] eqn:E end; try done;
      injection Hr as <- <-; (eapply perform_in_step; [by apply loop_step_spec|exact E|exact Hs]).
  - apply guard_run in Hr as [_ Hr]. destruct (lvCommands l) as [|msg rest]; [done|].
    destruct (perform _ ev _) as [[[u l1] es1]|] eqn:E; [|done]. injection Hr as <- <-.
    eapply perform_in_step; [by apply loop_step_spec|exact E|exact Hs].
  - apply guard_run in Hr as [_ Hr]. by eapply leave_in_step.
  - apply guard_run in Hr as [_ Hr]. injection Hr as <- <-. by apply close_in_step.
  - apply guard_run in Hr as [_ Hr]. by eapply read_in_step.
  - apply guard_run in Hr as [_ Hr]. by injection Hr as <- <-.
  - apply guard_run in Hr as [_ Hr]. by eapply write_in_step.
  - apply guard_run in Hr as [_ Hr]. by injection Hr as <- <-.
  - injection Hr as <- <-. by apply close_in_step.
  - injection Hr as <- <-. by destruct (_ && _).
  - injection Hr as <- <-. destruct Hok as [E1 E2]. destruct Hs as (((_ & _ & Hq) & Hb & Hst) & Hn & Hf).
    destruct_and!. unfold in_step, sound, quiet. by split_and!.
  - injection Hr as <- <-. by apply close_in_step.
Qed.

(** C5: The client never sees a gap in the book, over the whole life of its
    connection.  Whatever market events, commands, flushes and ticks the delivery
    loop processes, whatever the reader answers in between, whatever faults other
    than gaps and reversals are injected, and wherever the session is dropped, a
    read or a write fails: as long as the writer takes critical frames in time,
    the outbound queue stays within its capacity, and a client that follows the
    frames it received finds every delta contiguous with what it applied last;
    when it has received all that was queued it stands exactly where the
    coalescer believes it stands. *)
Theorem wire_feed_contiguous cfg sym iv cs e (p : P) now addr inputs l es :
  Forall input_ok inputs -> live_run (new_live (NewSession cfg sym iv cs e p now) addr) inputs = Some (l, es) ->
  let s := lvSession l in
  len (ouQueue (seOutput s)) <= scOutboundCapacity (seCfg s) /\
  is_Some (follow_all (on_wire l)) /\
  (lvWritten l = length (messages s) ->
   follow_all (on_wire l) = Some (coEpoch (seCoalescer s), coClientApplied (seCoalescer s))).
Proof.
  intros Hok Hr s.
  pose proof (live_run_life _ _ _ [] _ Hr (new_live_life (NewSession cfg sym iv cs e p now) addr eq_refl)) as [_ _ _ [Lw _] _].
  assert (Hs : in_step (lvSession l)).
  { clear Lw s. revert Hr. assert (H1 : in_step (lvSession (new_live (NewSession cfg sym iv cs e p now) addr))) by apply NewSession_in_step.
    revert H1. generalize (new_live (NewSession cfg sym iv cs e p now) addr). intros l0. revert l0 es.
    induction Hok as [|i inputs Hi _ IH]; intros l0 es H1; cbn [live_run]; [by intros [= <- <-]|].
    destruct (live_step l0 i) as [[l1 es1]|] eqn:E1; [|done]. cbn [mbind option_bind].
    destruct (live_run l1 inputs) as [[l2 es2]|] eqn:E2; [|done]. intros [= <- <-].
    eapply IH; [|exact E2]. by eapply live_step_in_step. }
  destruct Hs as ((_ & [_ Hb] & Hst & _) & _ & Hf). split; [exact Hb|].
  assert (Estream : stream (lvSession l) = on_wire l ++ drop (lvWritten l) (map obFrame (messages (lvSession l))))
    by (rewrite Lw; unfold stream; by rewrite take_drop).
  rewrite Estream in Hst, Hf. split; [by eapply follow_all_prefix|]. intros Hall.
  rewrite drop_ge, app_nil_r in Hf; [exact Hf|]. rewrite length_map. fold s. lia.
Qed.

(** ** Why a session ended *)

(** The reasons [Drop] is given by the session itself. *)
Definition own_reason (r : string) : Prop :=
  r = "unknown"%string \/ r = "read_error"%string \/ r = "slow_consumer"%string \/ exists c, r = Code_String c.

Definition given (inputs : list (LiveInput (G := G))) : list string :=
  omap (fun i => match i with IDrop reason => Some reason | _ => None end) inputs.

(** An invariant of the reason alone. *)
Definition reason_in (Q : string -> Prop) s : Prop := Q (seCloseReason s).

Lemma calm_reason {A} Q (act : Act (G := G) A) ev : calm true act -> triple ev (reason_in Q) act (fun _ => reason_in Q).
Proof.
  intros Hc s a s' es Hs Hr. destruct (Hc _ _ _ _ _ Hr) as [_ _ _ _ _ E]. specialize (E eq_refl).
  unfold reason_in, close_info in *. by injection E as _ ->.
Qed.

Lemma read_step_reason Q ev r data : (forall c, Q (Code_String c)) ->
  triple (G := G) (P := P) ev (reason_in Q) (read_step r data) (fun _ => reason_in Q).
Proof.
  intros HQ. unfold read_step.
  assert (Hret : forall x : rateLimiter * option ClientMessage, triple (G := G) (P := P) ev (reason_in Q) (mret x) (fun _ => reason_in Q))
    by (intros; apply triple_ret).
  eapply triple_bind; [apply triple_now|intros now; cbv beta]. destruct (allow r now) as [r' ok]. destruct (negb ok).
  - do 2 (eapply triple_bind; [apply triple_emit|intros ?; cbv beta]).
    eapply triple_bind; [apply calm_reason, calm_sendError|intros ?; apply Hret].
  - destruct (DecodeClientMessage data) as [m|e].
    + destruct m; try apply Hret. eapply triple_bind; [apply calm_reason, calm_sendPong|intros ?; apply Hret].
    + eapply triple_bind; [apply (triple_modify ev _ (reason_in Q) (reason_in Q)); by intros s|intros ?; cbv beta].
      do 2 (eapply triple_bind; [apply triple_emit|intros ?; cbv beta]).
      eapply triple_bind; [apply calm_reason, calm_sendError|intros ?; cbv beta]. eapply triple_bind; [|intros ?; apply Hret].
      apply triple_when; [|done]. intros _. apply triple_modify. intros s _. apply HQ.
Qed.

Lemma perform_reason {A} Q (act : Act (G := G) A) ev l a l' es : triple ev (reason_in Q) act (fun _ => reason_in Q) ->
  perform act ev l = Some (a, l', es) -> reason_in Q (lvSession l) -> reason_in Q (lvSession l') /\ rows es = [].
Proof. intros Ht Hr Hs. apply perform_run in Hr as (s' & es' & E & -> & _ & Er). split; [by eapply Ht|exact Er]. Qed.

Definition rows_reasoned (Q : string -> Prop) (es : list LiveEffect) : Prop :=
  Forall (fun r => snd r = true -> Q (srDisconnectReason (fst r))) (rows es).
Lemma rows_reasoned_app Q es es' : rows_reasoned Q es -> rows_reasoned Q es' -> rows_reasoned Q (es ++ es').
Proof. unfold rows_reasoned. rewrite rows_app. apply Forall_app_2. Qed.
Lemma rows_reasoned_none Q es : rows es = [] -> rows_reasoned Q es.
Proof. unfold rows_reasoned. by intros ->. Qed.

Lemma leave_reason Q (ev : Env G) l l' es : leave ev l = Some (l', es) -> reason_in Q (lvSession l) ->
  reason_in Q (lvSession l') /\ rows_reasoned Q es.
Proof.
  unfold leave. destruct (perform _ ev l) as [[[u l1] es1]|] eqn:E; [|done]. intros [= <- <-] Hs.
  destruct (perform_reason Q _ _ _ _ _ _ (calm_reason Q _ ev (calm_send true _ _ _)) E Hs) as [H1 R1]. split; [exact H1|].
  unfold rows_reasoned. change (rows (?a :: LEnd ?r :: es1)) with ((r, true) :: rows es1). rewrite R1.
  constructor; [intros _; exact Hs|constructor].
Qed.

Lemma start_reason Q (ev : Env G) ended n l l' es : start ev ended n l = Some (l', es) -> reason_in Q (lvSession l) ->
  reason_in Q (lvSession l') /\ rows_reasoned Q es.
Proof.
  unfold start. destruct (bnEngine _) as [e|]; [|intros [= <- <-] Hs; split; [exact Hs|constructor]]. set (pre := [_; _; _; _; _]).
  destruct (perform sendWelcome ev _) as [[[ok l1] es1]|] eqn:E; [|done]. cbn [mbind option_bind]. intros Hr Hs.
  destruct (perform_reason Q _ _ _ _ _ _ (calm_reason Q _ ev (calm_sendWelcome true)) E Hs) as [H1 R1].
  assert (Hpre : rows_reasoned Q (pre ++ es1)) by (apply rows_reasoned_app; [constructor; [done|constructor]|by apply rows_reasoned_none]).
  destruct ok; [by injection Hr as <- <-|]. destruct (leave ev l1) as [[l2 es2]|] eqn:El; [|done]. injection Hr as <- <-.
  destruct (leave_reason Q _ _ _ _ El H1) as [H2 R2]. split; [exact H2|].
  change (rows_reasoned Q (pre ++ es1 ++ es2)). rewrite app_assoc. by apply rows_reasoned_app.
Qed.

Lemma steady_rows l es l' Q : steady l es l' -> rows_reasoned Q es.
Proof. intros []. by apply rows_reasoned_none. Qed.

Lemma live_step_reason Q l (i : LiveInput (G := G)) l' es : (forall r, own_reason r -> Q r) -> (forall r, i = IDrop r -> Q r) ->
  live_step l i = Some (l', es) -> reason_in Q (lvSession l) -> reason_in Q (lvSession l') /\ rows_reasoned Q es.
Proof.
  intros Hown Hd Hr Hs. destruct (phase_input i) eqn:Ei.
  - destruct i as [ev ended n| | |ev closed| | | | | | | | | ]; try done; cbn [live_step] in Hr; apply guard_run in Hr as [_ Hr];
      [by eapply start_reason|by eapply leave_reason|]. injection Hr as <- <-. split; [done|].
    apply rows_reasoned_none. by destruct (bnEngine _).
  - split; [|eapply steady_rows; by eapply live_steady].
    destruct i as [| ev i | ev | | | ev r | | ev o bytes | | reason | msg | cfg | ]; try done; cbn [live_step] in Hr.
    + destruct i; try done; apply guard_run in Hr as [_ Hr];
        match type of Hr with context [perform ?a ev l] => destruct (perform a ev l) as [[[u l1] es1]|] eqn:E end; try done;
        injection Hr as <- <-; exact (proj1 (perform_reason Q _ _ _ _ _ _ (calm_reason Q _ ev (calm_loop_step true _)) E Hs)).
    + apply guard_run in Hr as [_ Hr]. destruct (lvCommands l) as [|msg rest]; [done|].
      destruct (perform _ ev _) as [[[u l1] es1]|] eqn:E; [|done]. injection Hr as <- <-.
      exact (proj1 (perform_reason Q _ _ _ _ _ _ (calm_reason Q _ ev (calm_loop_step true _)) E Hs)).
    + apply guard_run in Hr as [_ Hr]. destruct r as [data|e]; cbn [read] in Hr.
      * destruct (perform _ ev l) as [[[[r' cmd] l1] es1]|] eqn:E; [|done]. cbn [mbind option_bind] in Hr.
        apply perform_reason with (Q := Q) in E as [H1 _]; [| |exact Hs];
          [|apply read_step_reason; intros c; apply Hown; unfold own_reason; eauto 10].
        destruct cmd as [msg|]; [unfold hand_over in Hr; destruct (_ <? _)|]; by injection Hr as <- <-.
      * injection Hr as <- <-. apply Hown. unfold own_reason. cbn. auto.
    + apply guard_run in Hr as [_ Hr]. by injection Hr as <- <-.
    + apply guard_run in Hr as [_ Hr]. unfold write in Hr. destruct (next_message l) as [[msg s]|] eqn:En; [|done].
      cbn [mbind option_bind] in Hr. destruct (perform _ ev _) as [[[[frames ok] l1] es1]|] eqn:E; [|done]. cbn [mbind option_bind] in Hr.
      destruct ok; injection Hr as <- <-; [|apply Hown; unfold own_reason; cbn; auto].
      refine (proj1 (perform_reason Q _ _ _ _ _ _ (calm_reason Q _ ev (calm_write_message true _ _ _)) E _)).
      unfold next_message in En. destruct (_ !! lvWritten l); [|done]. injection En as <- <-. cbn [with_session lvSession].
      by destruct (Nat.ltb _ _).
    + apply guard_run in Hr as [_ Hr]. by injection Hr as <- <-.
    + injection Hr as <- <-. by apply Hd.
    + injection Hr as <- <-. by destruct (_ && _).
    + by injection Hr as <- <-.
    + by injection Hr as <- <-.
Qed.

(** C39: Why a session ended, as its record says.  Whatever happens, the reason
    in the end row is one the session was dropped with from outside, that no one
    closed it, or one of those the session drops itself with: a read error, a
    slow consumer, or the code of a fatal protocol error.  In particular the
    kinds of read error the reader distinguishes, a timeout and a cancelled
    context, and the mark of a fatal protocol error are overwritten before
    anyone can read them. *)
Theorem close_reasons cfg sym iv cs e (p : P) now addr (inputs : list (LiveInput (G := G))) l es row :
  live_run (new_live (NewSession cfg sym iv cs e p now) addr) inputs = Some (l, es) -> (row, true) ∈ rows es ->
  own_reason (srDisconnectReason row) \/ srDisconnectReason row ∈ given inputs.
Proof.
  intros Hr Hrow.
  assert (Hgen : forall all : list string, (forall r, r ∈ given inputs -> r ∈ all) ->
    rows_reasoned (fun r => own_reason r \/ r ∈ all) es).
  { intros all Hall. assert (H0' : reason_in (fun r => own_reason r \/ r ∈ all) (lvSession (new_live (NewSession cfg sym iv cs e p now) addr)))
      by (left; by left).
    revert Hr H0'. generalize (new_live (NewSession cfg sym iv cs e p now) addr). clear Hrow. intros l0. revert l0 es.
    induction inputs as [|i inputs' IH]; intros l0 es; cbn [live_run]; [intros [= <- <-] _; constructor|].
    destruct (live_step l0 i) as [[l1 es1]|] eqn:E1; [|done]. cbn [mbind option_bind].
    destruct (live_run l1 inputs') as [[l2 es2]|] eqn:E2; [|done]. cbn [mbind option_bind]. intros [= <- <-] Hs.
    apply (live_step_reason (fun r => own_reason r \/ r ∈ all)) in E1 as [H1 R1]; [|by left| |exact Hs].
    - apply rows_reasoned_app; [exact R1|]. eapply IH; [|exact E2|exact H1]. intros r Hin. apply Hall. unfold given. cbn.
      destruct i; try done. by right.
    - intros r ->. right. apply Hall. unfold given. cbn. by left. }
  specialize (Hgen (given inputs) (fun r H => H)). unfold rows_reasoned in Hgen. rewrite Forall_forall in Hgen.
  by apply (Hgen (row, true)).
Qed.
End Life.

(** ** A concrete life

    A client that subscribes, is sent a snapshot, falls silent and is dropped by
    the manager while its read times out. *)

Definition demo_live : Live DefaultPolicy := new_live demo_session "10.0.0.7:5000".
Definition demo_life : list (LiveInput (G := PCG)) :=
  [IStart (demo_env 1) false 1; IWrite (demo_env 2) WriteOk 900; IInject (Subscribe "BTCUSDT" "5m" None);
   ICommand (demo_env 3); ILoop (demo_env 4) (LEvent (demo_window 8 4)); ILoop (demo_env 5) LFlush;
   IWrite (demo_env 6) WriteOk 700; IRead (demo_env 7) (ReadFails DeadlineExceeded); ILeave (demo_env 8) false;
   IWriteEnds; IClose].

(** What the witnesses need of the run. *)
Definition life_summary (r : option (Live DefaultPolicy * list LiveEffect)) :=
  '(l, es) ← r; Some (lvPhase l, lvWritten l, map (fun r => (srDisconnectReason (fst r), srMessagesSent (fst r), snd r)) (rows es)).
Lemma demo_life_summary : life_summary (live_run demo_live demo_life) =
  Some (Over, 2%nat, [("", 0, false); ("read_error", 2, true)]%string).
Proof. vm_compute. reflexivity. Qed.

Lemma demo_life_runs : exists l es, live_run demo_live demo_life = Some (l, es) /\ lvPhase l = Over /\ lvWritten l = 2%nat /\
  map (fun r => (srDisconnectReason (fst r), srMessagesSent (fst r), snd r)) (rows es) =
  [("", 0, false); ("read_error", 2, true)]%string.
Proof.
  pose proof demo_life_summary as H. unfold life_summary in H. destruct (live_run demo_live demo_life) as [[l es]|]; [|done].
  cbn [mbind option_bind] in H. injection H as H1 H2 H3. exists l, es. by split_and!.
Qed.

Lemma session_lifecycle_witness : exists l es, live_run demo_live demo_life = Some (l, es) /\
  held None (session_effects es) = Some None /\ active_moves (session_effects es) = 0 /\ lvSent l = 2 /\
  len (on_wire l) = 2.
Proof.
  destruct demo_life_runs as (l & es & E & Hp & Hw & _). exists l, es. split; [exact E|].
  destruct (session_lifecycle (mkSessionConfig "sess_0" "ABC123" None 4 20 15 false) BTCUSDT None None (Some "BTCUSDT"%string)
    doc_policy (at_ms 0) "10.0.0.7:5000" demo_life l es E) as (_ & Ha & Hh & _ & Hs).
  unfold is_active, subscription in *. rewrite Hp in Ha, Hh. split; [exact Hh|]. split; [exact Ha|].
  assert (H2 : lvSent l = 2) by (unfold lvSent; rewrite Hw; reflexivity). split; [exact H2|].
  vm_compute in E. injection E as <- _. reflexivity.
Defined.

Lemma demo_life_ok : Forall input_ok demo_life.
Proof. unfold demo_life. repeat (apply Forall_cons_2; [first [exact I|apply demo_env_ok]|]). apply Forall_nil_2. Qed.

Lemma wire_feed_contiguous_witness : exists l es, live_run demo_live demo_life = Some (l, es) /\
  is_Some (follow_all (on_wire l)) /\ len (ouQueue (seOutput (lvSession l))) <= scOutboundCapacity (seCfg (lvSession l)).
Proof.
  destruct demo_life_runs as (l & es & E & _). exists l, es. split; [exact E|].
  destruct (wire_feed_contiguous (mkSessionConfig "sess_0" "ABC123" None 4 20 15 false) BTCUSDT None None (Some "BTCUSDT"%string)
    doc_policy (at_ms 0) "10.0.0.7:5000" demo_life l es demo_life_ok E) as (Hq & Hf & _). split; [exact Hf|exact Hq].
Defined.

Lemma close_reasons_witness : exists l es row, live_run demo_live demo_life = Some (l, es) /\ (row, true) ∈ rows es /\
  srDisconnectReason row = "read_error"%string /\ own_reason "read_error".
Proof.
  destruct demo_life_runs as (l & es & E & _ & _ & Hr).
  destruct (rows es) as [|[r1 b1] [|[r2 b2] [|]]] eqn:Er; try discriminate Hr. injection Hr as _ _ _ H2 _ ->.
  exists l, es, r2. split; [exact E|]. rewrite Er. assert (Hin : (r2, true) ∈ [(r1, b1); (r2, true)]) by (apply list_elem_of_In; right; left; reflexivity).
  split; [exact Hin|]. split; [exact H2|]. rewrite <- Er in Hin.
  destruct (close_reasons (mkSessionConfig "sess_0" "ABC123" None 4 20 15 false) BTCUSDT None None (Some "BTCUSDT"%string)
    doc_policy (at_ms 0) "10.0.0.7:5000" demo_life l es r2 E Hin) as [H|H]; [rewrite <- H2; exact H|].
  vm_compute in H. apply list_elem_of_In in H. destruct H.
Defined.

(** A drop before [Run] only leaves its reason: the session runs all the same. *)
Example early_drop_ignored :
  match live_run demo_live [IDrop "server_shutdown"; IStart (demo_env 1) false 1; ILoop (demo_env 2) LHealth] with
  | Some (l, _) => lvPhase l = Running /\ seDropped (lvSession l) = false /\ seCloseReason (lvSession l) = "server_shutdown"%string
  | None => False
  end.
Proof. vm_compute. split_and!; reflexivity. Qed.

(** Dropping a session whose writer is held by an injected fault records a slow
    consumer. *)
Example held_writer_blamed :
  match live_run demo_live [IStart (demo_env 1) false 1; IFaults (mkFaults 0 false false 0 0 0 1000 false);
                            IDrop "server_shutdown"; IWrite (demo_env 2) EndsInHold 0; ILeave (demo_env 3) false] with
  | Some (_, es) => map (fun r => (srDisconnectReason (fst r), snd r)) (rows es) = [("", false); ("slow_consumer", true)]%string
  | None => False
  end.
Proof. vm_compute. reflexivity. Qed.

(** A reader that notices the shutdown first replaces its reason. *)
Example shutdown_reason_lost :
  match live_run demo_live [IStart (demo_env 1) false 1; IDrop "server_shutdown"; IRead (demo_env 2) (ReadFails ContextCanceled);
                            ILeave (demo_env 3) false] with
  | Some (_, es) => map (fun r => (srDisconnectReason (fst r), snd r)) (rows es) = [("", false); ("read_error", true)]%string
  | None => False
  end.
Proof. vm_compute. reflexivity. Qed.
