(* ===== verification/Router.v ===== *)
(** * The middleware of the HTTP router: [transport/http/router.go]

    A handler is a script: what it calls on its [http.ResponseWriter], and
    whether it then panics.  Writers are a class with two instances, the
    connection of [net/http] and the [statusRecorder] around any writer.  The
    routes themselves are matched by chi: the routed handler is an argument of
    [router]. *)

From Stdlib Require Import Ascii.
From stdpp Require Import strings.
From S2P Require Import Prelude Money Decimal GoTime Domain Float64 Json JsonText Rand Engine Tier Coalesce Session SessionRun.
From S2P Require Http Obs.

(** ** Requests and writers *)

(** [hqCorrelation] is the header of the request, [hqContextID] the value the
    middleware attaches to its context, [hqBodyLimit] the limit on its body. *)
Record HttpRequest := mkHttpRequest {
  hqMethod : string; hqPath : string; hqCorrelation : string; hqContextID : string; hqBodyLimit : option Z }.

Definition with_context_id (id : string) (r : HttpRequest) : HttpRequest :=
  mkHttpRequest (hqMethod r) (hqPath r) (hqCorrelation r) id (hqBodyLimit r).
Definition with_limit (n : Z) (r : HttpRequest) : HttpRequest :=
  mkHttpRequest (hqMethod r) (hqPath r) (hqCorrelation r) (hqContextID r) (Some n).
(** [CorrelationID]. *)
Definition CorrelationID (r : HttpRequest) : string := hqContextID r.

Class ResponseWriter (W : Type) := {
  SetHeader : W -> string -> string -> W;
  WriteHeader : W -> Z -> W;
  Write : W -> text -> W * Z }.
#[export] Hint Mode ResponseWriter ! : typeclass_instances.

(** The response under way: the first final status sticks, and the headers are
    those set by then.  The handlers send statuses of three digits only. *)
Record Conn := mkConn {
  cnHeader : gmap string string; cnSent : option (Z * gmap string string); cnBody : text }.
Definition NewConn : Conn := mkConn ∅ None [].

Definition bodyAllowedForStatus (status : Z) : bool :=
  negb ((100 <=? status) && (status <=? 199) || (status =? 204) || (status =? 304)).
Definition informational (status : Z) : bool := (100 <=? status) && (status <=? 199) && negb (status =? 101).
Definition conn_WriteHeader (c : Conn) (status : Z) : Conn :=
  match cnSent c with
  | Some _ => c
  | None => if informational status then c else mkConn (cnHeader c) (Some (status, cnHeader c)) (cnBody c)
  end.
#[export] Instance conn_writer : ResponseWriter Conn := {|
  SetHeader c k v := mkConn (<[k := v]> (cnHeader c)) (cnSent c) (cnBody c);
  WriteHeader := conn_WriteHeader;
  Write c b :=
    let c := conn_WriteHeader c 200 in
    if bodyAllowedForStatus (match cnSent c with Some (status, _) => status | None => 200 end)
    then (mkConn (cnHeader c) (cnSent c) (cnBody c ++ b), len b) else (c, 0) |}.

Record statusRecorder (W : Type) := mkRecorder { srWriter : W; srStatus : Z; srBytes : Z }.
Arguments mkRecorder {W}. Arguments srWriter {W}. Arguments srStatus {W}. Arguments srBytes {W}.
#[export] Instance recorder_writer {W} `{ResponseWriter W} : ResponseWriter (statusRecorder W) := {|
  SetHeader s k v := mkRecorder (SetHeader (srWriter s) k v) (srStatus s) (srBytes s);
  WriteHeader s status := mkRecorder (WriteHeader (srWriter s) status) status (srBytes s);
  Write s b :=
    let status := if srStatus s =? 0 then Http.StatusOK else srStatus s in
    let '(w, n) := Write (srWriter s) b in
    (mkRecorder w status (i64 (srBytes s + n)), n) |}.

(** ** Scripts *)

Inductive Call := CSet (key value : string) | CStatus (status : Z) | CWrite (b : text).
Record Script := mkScript { scCalls : list Call; scPanics : bool }.
Definition Handler : Type := HttpRequest -> Script.

Definition run_call {W} `{ResponseWriter W} (w : W) (c : Call) : W :=
  match c with
  | CSet k v => SetHeader w k v
  | CStatus status => WriteHeader w status
  | CWrite b => fst (Write w b)
  end.
Definition run_calls {W} `{ResponseWriter W} (w : W) (calls : list Call) : W := foldl run_call w calls.

(** [writeJSON]; the encoder ends the document with a newline. *)
Definition writeJSON (status : Z) (payload : option Json) : list Call :=
  [CSet "Content-Type" "application/json; charset=utf-8"; CStatus status] ++
  match payload with Some p => [CWrite (Marshal p ++ [ascii_of_N 10])] | None => [] end.

(** [errorBody]; an empty correlation id is omitted. *)
Definition error_json (code message id : string) : Json :=
  JObj [("error", JObj ([("code", JStr code); ("message", JStr message)] ++
          (if bool_decide (id = "") then [] else [("correlationId", JStr id)])))]%string.
Definition writeError (r : HttpRequest) (status : Z) (code message : string) : list Call :=
  writeJSON status (Some (error_json code message (CorrelationID r))).

(** ** Middleware *)

Definition hex_upper (n : Z) : ascii := ascii_of_N (Z.to_N (if n <? 10 then 48 + n else 55 + n)).
(** The eight random bytes, if the source has them. *)
Definition newCorrelationID (random : option (list Z)) : string :=
  match random with
  | None => "cid-fallback"
  | Some b => ("01J" ++ String.string_of_list_ascii (flat_map (fun v => [hex_upper (v / 16); hex_upper (v mod 16)]) b))%string
  end.
Definition correlation_of (random : option (list Z)) (r : HttpRequest) : string :=
  if bool_decide (hqCorrelation r = "") then newCorrelationID random else hqCorrelation r.

(** The log lines of the router. *)
Inductive LogLine :=
| LHttpPanic (path id : string)
| LHttpRequest (method path : string) (status bytes : Z) (id : string).

(** What serves a request: the writer afterwards and the lines logged. *)
Definition Server : Type := HttpRequest -> Conn -> Conn * list LogLine.

Definition withCorrelation (random : option (list Z)) (next : Server) : Server := fun r w =>
  let id := correlation_of random r in
  next (with_context_id id r) (SetHeader w "X-Correlation-Id" id).

Definition recovered_message (id : string) : string := ("internal error; quote correlation id " ++ id)%string.
Definition withRecover (next : Handler) : HttpRequest -> Script * list LogLine := fun r =>
  let s := next r in
  if scPanics s then
    (mkScript (scCalls s ++ writeError r Http.StatusInternalServerError Http.codeInternal (recovered_message (CorrelationID r))) false,
     [LHttpPanic (hqPath r) (CorrelationID r)])
  else (s, []).

Definition withAccessLog (next : HttpRequest -> Script * list LogLine) : Server := fun r w =>
  let '(s, lines) := next r in
  let recorder := run_calls (mkRecorder w 0 0) (scCalls s) in
  let status := if srStatus recorder =? 0 then Http.StatusOK else srStatus recorder in
  (srWriter recorder,
   lines ++ [LHttpRequest (hqMethod r) (hqPath r) status (srBytes recorder) (CorrelationID r)]).

Definition withBodyLimit (limit : Z) (next : Handler) : Handler := fun r => next (with_limit limit r).

Definition cors_headers : list Call :=
  [CSet "Access-Control-Allow-Origin" "*"; CSet "Access-Control-Allow-Headers" "Content-Type, X-Correlation-Id";
   CSet "Access-Control-Allow-Methods" "GET, POST, OPTIONS"]%string.
Definition withCORS (next : Handler) : Handler := fun r =>
  if bool_decide (hqMethod r = "OPTIONS"%string) then mkScript (cors_headers ++ [CStatus 204]) false
  else let s := next r in mkScript (cors_headers ++ scCalls s) (scPanics s).

(** [NewRouter]: the middleware, outermost first, around the routes. *)
Definition body_limit (limit : Z) : Z := if limit <=? 0 then 64 * 1024 else limit.
Definition router (limit : Z) (random : option (list Z)) (routed : Handler) : Server :=
  withCorrelation random (withAccessLog (withRecover (withBodyLimit (body_limit limit) (withCORS routed)))).

(** A handler of [Http], given how its document is printed. *)
Definition respond (render : Http.Body -> text) (answer : option Http.Response) : Script :=
  match answer with
  | None => mkScript [] true
  | Some a => mkScript [CSet "Content-Type" "application/json; charset=utf-8"; CStatus (Http.rsStatus a);
                        CWrite (render (Http.rsBody a) ++ [ascii_of_N 10])] false
  end.

(** ** [applinks.go] *)

Definition appLinkPackageName : string := "com.pulsetrade.pulse_trade_frontend".
Definition appLinkDebugFingerprint : string :=
  "D1:DA:98:52:74:DE:04:AD:BD:E9:E5:4E:63:8F:5F:16:5A:05:B9:22:0B:E9:8B:06:06:1B:4A:AF:2F:EC:D6:97".
Definition appLinks : Handler := fun _ =>
  mkScript (writeJSON Http.StatusOK (Some (JArr [JObj
    [("relation", JArr [JStr "delegate_permission/common.handle_all_urls"]);
     ("target", JObj [("namespace", JStr "android_app"); ("package_name", JStr appLinkPackageName);
                      ("sha256_cert_fingerprints", JArr [JStr appLinkDebugFingerprint])])]]%string))) false.

(** ** Debug controls *)

(** [audit]: the line it logs and the counter it moves. *)
Record AuditLine := mkAudit { auAction : string; auDetail : string; auID : string }.
Definition audit (gauges : option Obs.Registry) (r : HttpRequest) (action detail : string) : AuditLine * option Obs.Registry :=
  (mkAudit action detail (CorrelationID r), (fun g => Obs.Inc g "debug_actions_total") <$> gauges).

Record sessionView := mkSessionView {
  svSessionID : string; svShortID : string; svRemoteAddr : string; svTier : string; svOverride : string;
  svRTTMs : float64; svJitterMs : float64; svLastReportMs : Z; svUptimeMs : Z; svMessagesSent : Z; svMessagesRecv : Z }.

(** One row of [listSessions], for a session with the clock it reads. *)
Definition session_view (now : Time) (l : Live DefaultPolicy) : sessionView :=
  let s := lvSession l in
  let health := Tracker_Snapshot (seHealth s) now in
  mkSessionView (scID (seCfg s)) (scShortID (seCfg s)) (lvAddr l) (Tier_String (tmTier (seTier s))) (Override s)
    (hsRTTMs health) (hsJitterMs health) (dMilliseconds (hsAge health))
    (dMilliseconds (tSub (tUTC now) (acConnectedAt (seAccounting s)))) (lvSent l) (lvReceived l).
Definition listSessions (now : Time) (sessions : list (Live DefaultPolicy)) (reconnects : Z) : list sessionView * Z :=
  (map (session_view now) sessions, reconnects).

(** ** What the middleware promises *)

(** ** The recorder shows what it wraps *)

Definition is_set (c : Call) : bool := match c with CSet _ _ => true | _ => false end.

(** A handler answers orderly when it sets the status at most once, and before
    it writes. *)
Fixpoint orderly (started : bool) (calls : list Call) : bool :=
  match calls with
  | [] => true
  | CSet _ _ :: calls => orderly started calls
  | CStatus status :: calls => negb started && negb (informational status) && negb (status =? 0) && orderly true calls
  | CWrite _ :: calls => orderly true calls
  end.
(** ... and it does not panic once it has started. *)
Definition orderly_script (s : Script) : bool :=
  orderly false (scCalls s) && (negb (scPanics s) || forallb is_set (scCalls s)).

(** What the client sees: [net/http] sends a 200 when the handler sent nothing. *)
Definition client_status (c : Conn) : Z := match cnSent c with Some (status, _) => status | None => Http.StatusOK end.
Definition client_header (c : Conn) : gmap string string :=
  match cnSent c with Some (_, header) => header | None => cnHeader c end.
Definition logged_status (s : statusRecorder Conn) : Z := if srStatus s =? 0 then Http.StatusOK else srStatus s.

Definition record (c : Conn) (calls : list Call) : statusRecorder Conn := run_calls (mkRecorder c 0 0) calls.

Lemma run_calls_cons {W} `{ResponseWriter W} (w : W) c calls : run_calls w (c :: calls) = run_calls (run_call w c) calls.
Proof. done. Qed.
Lemma run_calls_app {W} `{ResponseWriter W} (w : W) a b : run_calls w (a ++ b) = run_calls (run_calls w a) b.
Proof. apply foldl_app. Qed.

(** The recorder passes every call through. *)
Lemma recorder_transparent {W} `{ResponseWriter W} calls (s : statusRecorder W) :
  srWriter (run_calls s calls) = run_calls (srWriter s) calls.
Proof.
  revert s. induction calls as [|c calls IH]; intros s; [done|].
  rewrite !run_calls_cons, IH. f_equal.
  destruct c as [k v|status|b]; simpl; try done. by destruct (Write (srWriter s) b).
Qed.

Lemma write_conn (c : Conn) b :
  Write c b = (if bodyAllowedForStatus (client_status c)
               then (mkConn (cnHeader c) (Some (client_status c, client_header c)) (cnBody c ++ b), len b)
               else (mkConn (cnHeader c) (Some (client_status c, client_header c)) (cnBody c), 0)).
Proof. destruct c as [h [[status header]|] body]; cbn; [by destruct (bodyAllowedForStatus status)|done]. Qed.

Lemma write_recorded {W} `{ResponseWriter W} (w : W) status n b :
  run_call (mkRecorder w status n) (CWrite b) =
  mkRecorder (fst (Write w b)) (if status =? 0 then Http.StatusOK else status) (i64 (n + snd (Write w b))).
Proof. simpl. by destruct (Write w b). Qed.

(** The bytes it counts are those of the body. *)
Lemma recorder_bytes calls (s : statusRecorder Conn) :
  srBytes s = i64 (len (cnBody (srWriter s))) ->
  srBytes (run_calls s calls) = i64 (len (cnBody (srWriter (run_calls s calls)))).
Proof.
  revert s. induction calls as [|c calls IH]; intros s Hs; [done|].
  rewrite run_calls_cons. apply IH. destruct s as [c0 status n]; simpl in Hs.
  destruct c as [k v|st|b].
  - done.
  - cbn -[i64 len]. unfold conn_WriteHeader. destruct (cnSent c0), (informational st); done.
  - rewrite write_recorded, write_conn. destruct (bodyAllowedForStatus _); cbn -[i64 len]; subst n.
    + unfold len. rewrite length_app, Nat2Z.inj_add. apply i64_add_l.
    + rewrite Z.add_0_r. apply i64_i64.
Qed.

(** The status it keeps is the one sent, as long as the handler is orderly. *)
Definition agrees (started : bool) (s : statusRecorder Conn) : Prop :=
  if started then exists h, cnSent (srWriter s) = Some (srStatus s, h) /\ srStatus s <> 0
  else cnSent (srWriter s) = None /\ srStatus s = 0.
Lemma recorder_status calls : forall started (s : statusRecorder Conn),
  agrees started s -> orderly started calls = true ->
  logged_status (run_calls s calls) = client_status (srWriter (run_calls s calls)).
Proof.
  unfold agrees.
  induction calls as [|[k v|status|b] calls IH]; intros started [c st n] Ha Ho; rewrite ?run_calls_cons; simpl in Ho, Ha.
  - unfold logged_status, client_status. destruct started; simpl in *.
    + destruct Ha as (h & -> & Hn). by rewrite (proj2 (Z.eqb_neq _ _) Hn).
    + by destruct Ha as [-> ->].
  - by apply (IH started).
  - destruct started; [done|]. destruct Ha as [Ha ->]. rewrite !andb_true_iff, !negb_true_iff in Ho.
    destruct Ho as (((_ & Hi) & H0) & Ho). apply (IH true); [|done]. simpl. unfold conn_WriteHeader.
    rewrite Ha, Hi. eexists. split; [done|]. simpl. lia.
  - apply (IH true); [|done]. rewrite write_recorded, write_conn. unfold client_status, client_header. destruct started.
    + destruct Ha as (h & Hc & Hn). rewrite Hc, (proj2 (Z.eqb_neq _ _) Hn).
      destruct (bodyAllowedForStatus _); simpl; eauto.
    + destruct Ha as [Hc ->]. rewrite Hc. simpl. eexists. split; [done|]. done.
Qed.

Lemma orderly_sets a b : forallb is_set a = true -> orderly false (a ++ b) = orderly false b.
Proof. induction a as [|[] a IH]; simpl; [done|auto|done..]. Qed.

(** Headers nobody touches again are the ones sent. *)
Definition sets (k : string) (c : Call) : bool := match c with CSet k' _ => bool_decide (k' = k) | _ => false end.
Lemma header_kept k v calls : forall c : Conn,
  cnHeader c !! k = Some v -> client_header c !! k = Some v -> existsb (sets k) calls = false ->
  client_header (run_calls c calls) !! k = Some v.
Proof.
  induction calls as [|[k' v'|status|b] calls IH]; intros c Hh Hc Hs; simpl in Hs; [done|..]; rewrite run_calls_cons.
  - apply orb_false_iff in Hs as [Hk Hs]. apply bool_decide_eq_false in Hk.
    apply IH; [..|done]; unfold client_header in *; simpl; [by rewrite lookup_insert_ne|].
    destruct (cnSent c) as [[]|]; [done|by rewrite lookup_insert_ne].
  - apply IH; [..|done]; cbn [run_call WriteHeader conn_writer]; unfold conn_WriteHeader, client_header in *;
      destruct (cnSent c) as [[]|] eqn:E, (informational status); simpl; rewrite ?E; done.
  - apply IH; [..|done]; cbn [run_call]; rewrite write_conn; by destruct (bodyAllowedForStatus _).
Qed.

(** ** The stack as one function *)

(** What the routes are asked for a request, and what they are asked to run. *)
Definition routed_request (limit : Z) (random : option (list Z)) (r : HttpRequest) : HttpRequest :=
  with_limit (body_limit limit) (with_context_id (correlation_of random r) r).
Definition preflight (r : HttpRequest) : bool := bool_decide (hqMethod r = "OPTIONS"%string).
Definition answer_of (limit : Z) (random : option (list Z)) (routed : Handler) (r : HttpRequest) : Script :=
  if preflight r then mkScript [CStatus 204] false else routed (routed_request limit random r).
Definition panic_answer (id : string) : list Call :=
  writeJSON Http.StatusInternalServerError (Some (error_json Http.codeInternal (recovered_message id) id)).
Definition calls_of (limit : Z) (random : option (list Z)) (routed : Handler) (r : HttpRequest) : list Call :=
  let s := answer_of limit random routed r in
  cors_headers ++ scCalls s ++ (if scPanics s then panic_answer (correlation_of random r) else []).
Definition tagged (id : string) : Conn := SetHeader NewConn "X-Correlation-Id" id.

Lemma router_flat limit random routed r :
  let id := correlation_of random r in
  let calls := calls_of limit random routed r in
  router limit random routed r NewConn =
  (run_calls (tagged id) calls,
   (if scPanics (answer_of limit random routed r) then [LHttpPanic (hqPath r) id] else []) ++
   [LHttpRequest (hqMethod r) (hqPath r) (logged_status (record (tagged id) calls))
      (srBytes (record (tagged id) calls)) id]).
Proof.
  intros id calls. unfold router, withCorrelation, withAccessLog, withRecover. fold id.
  assert (E : withBodyLimit (body_limit limit) (withCORS routed) (with_context_id id r) =
              mkScript (cors_headers ++ scCalls (answer_of limit random routed r)) (scPanics (answer_of limit random routed r))).
  { unfold withBodyLimit, withCORS, answer_of, preflight. simpl. by case_bool_decide. }
  rewrite E. subst calls. unfold calls_of.
  destruct (answer_of limit random routed r) as [calls panics]; simpl.
  fold id. unfold logged_status, record.
  destruct panics; cbn [scCalls]; rewrite recorder_transparent, <- ?app_assoc, ?app_nil_r; done.
Qed.

Lemma calls_orderly limit random routed r :
  orderly_script (answer_of limit random routed r) = true -> orderly false (calls_of limit random routed r) = true.
Proof.
  unfold orderly_script, calls_of. destruct (answer_of limit random routed r) as [calls panics]; simpl.
  intros [Ho Hp]%andb_true_iff. destruct panics; simpl in Hp; [|by rewrite app_nil_r].
  by rewrite orderly_sets.
Qed.

(** A handler that panics before it answers has its answer written for it. *)
Lemma sets_only calls : forallb is_set calls = true -> forall c : Conn,
  cnSent (run_calls c calls) = cnSent c /\ cnBody (run_calls c calls) = cnBody c.
Proof.
  induction calls as [|[k v|?|?] calls IH]; simpl; intros Hs c; try done.
  by destruct (IH Hs (SetHeader c k v)).
Qed.

Lemma writeJSON_run status payload (c : Conn) :
  cnSent c = None -> cnBody c = [] -> bodyAllowedForStatus status = true ->
  let c' := run_calls c (writeJSON status (Some payload)) in
  client_status c' = status /\ cnBody c' = (Marshal payload ++ [ascii_of_N 10])%list.
Proof.
  destruct c as [h sent body]; simpl. intros -> -> Ha. unfold conn_WriteHeader; simpl.
  assert (informational status = false) as ->.
  { unfold bodyAllowedForStatus in Ha. unfold informational.
    apply negb_true_iff, orb_false_iff in Ha as [[Ha _]%orb_false_iff _]. by rewrite Ha. }
  simpl. rewrite Ha. done.
Qed.

(** ** The contract *)

(** C40: every request gets exactly one access-log line, the last one logged,
    and a line for the panic before it just when the handler panicked; the
    line names the method, the path and the correlation id and counts the
    bytes of the body.  As long as the handler answers orderly, the status
    logged is the status the client gets.  The id is the client's own or a
    generated one and is sent back.  A preflight request gets an empty 204
    without the routes being asked; a handler that panics before it answers
    has a 500 sent for it, whose document quotes the id. *)
Theorem router_contract (limit : Z) (random : option (list Z)) (routed : Handler) (r : HttpRequest) :
  let '(c, lines) := router limit random routed r NewConn in
  let s := routed (routed_request limit random r) in
  let id := correlation_of random r in
  (exists status,
     lines = ((if negb (preflight r) && scPanics s then [LHttpPanic (hqPath r) id] else []) ++
              [LHttpRequest (hqMethod r) (hqPath r) status (i64 (len (cnBody c))) id])%list /\
     (preflight r = true \/ orderly_script s = true -> status = client_status c)) /\
  (preflight r = true -> client_status c = 204 /\ cnBody c = []) /\
  (preflight r = false -> scPanics s = true -> forallb is_set (scCalls s) = true ->
     client_status c = Http.StatusInternalServerError /\
     cnBody c = (Marshal (error_json Http.codeInternal (recovered_message id) id) ++ [ascii_of_N 10])%list) /\
  (preflight r = true \/ existsb (sets "X-Correlation-Id") (scCalls s) = false ->
     client_header c !! "X-Correlation-Id"%string = Some id).
Proof.
  rewrite router_flat. cbv zeta. split; [|split; [|split]].
  - exists (logged_status (record (tagged (correlation_of random r)) (calls_of limit random routed r))). split.
    + unfold record. rewrite recorder_bytes by done. rewrite recorder_transparent.
      unfold answer_of. by destruct (preflight r).
    + intros Ho. unfold record. rewrite (recorder_status _ false); [by rewrite recorder_transparent|done|].
      apply calls_orderly. unfold answer_of. destruct (preflight r), Ho as [H|H]; done.
  - intros Hp. unfold calls_of, answer_of. rewrite Hp. done.
  - intros Hp Hs Hc. unfold calls_of, answer_of. rewrite Hp, Hs, app_assoc, run_calls_app.
    apply writeJSON_run; [..|done];
      by apply (sets_only (cors_headers ++ scCalls (routed (routed_request limit random r)))).
  - intros H. apply header_kept; [done..|]. unfold calls_of, answer_of.
    destruct (preflight r) eqn:E; [done|]. destruct H as [H|H]; [done|].
    rewrite !existsb_app, H. by destruct (scPanics _).
Qed.

(** A handler of [Http] behind the stack: its status arrives, a panic as 500. *)
Theorem respond_through limit random render (answer : HttpRequest -> option Http.Response) r :
  hqMethod r <> "OPTIONS"%string ->
  (forall a, answer (routed_request limit random r) = Some a -> bodyAllowedForStatus (Http.rsStatus a) = true) ->
  client_status (fst (router limit random (fun r => respond render (answer r)) r NewConn)) =
  Http.rsStatus (Http.withRecover (answer (routed_request limit random r))).
Proof.
  intros Hm Ha. rewrite router_flat. unfold calls_of, answer_of, preflight. rewrite bool_decide_eq_false_2 by done.
  destruct (answer _) as [a|]; [|done]. specialize (Ha a eq_refl).
  cbn [fst respond scCalls scPanics]. rewrite app_nil_r, run_calls_app.
  set (c := run_calls _ cors_headers). assert (Hc : cnSent c = None) by done. clearbody c.
  destruct c as [h sent body]; simpl in *; subst. unfold conn_WriteHeader; simpl.
  unfold bodyAllowedForStatus in Ha. apply negb_true_iff, orb_false_iff in Ha as [[Hi _]%orb_false_iff _].
  unfold informational. rewrite Hi. simpl. by destruct (bodyAllowedForStatus _).
Qed.

(** ** Runs *)

Definition get (path : string) : HttpRequest := mkHttpRequest "GET" path "" "" None.
Definition eight : option (list Z) := Some [0; 17; 34; 51; 68; 85; 170; 255].
Definition gives_up : Handler := fun _ => mkScript [CSet "Content-Type" "text/plain"] true.

Lemma router_contract_witness :
  let '(c, lines) := router 0 eight gives_up (get "/api/v1/markets") NewConn in
  client_status c = 500 /\
  client_header c !! "X-Correlation-Id"%string = Some "01J001122334455AAFF"%string /\
  lines = [LHttpPanic "/api/v1/markets" "01J001122334455AAFF";
           LHttpRequest "GET" "/api/v1/markets" 500 (i64 (len (cnBody c))) "01J001122334455AAFF"].
Proof.
  generalize (router_contract 0 eight gives_up (get "/api/v1/markets")).
  destruct (router 0 eight gives_up (get "/api/v1/markets") NewConn) as [c lines].
  cbv zeta. intros ((status & -> & Hs) & _ & Hp & Hid).
  destruct (Hp eq_refl eq_refl eq_refl) as [Hc _].
  rewrite (Hs (or_intror eq_refl)), Hc. split; [done|]. split; [apply (Hid (or_intror eq_refl))|reflexivity].
Defined.

(** A panic after the answer has started is logged as a 500; the client got the
    200 and a body that ends in an error document. *)
Definition late : Handler := fun _ => mkScript [CStatus 200; CWrite (txt "[")] true.
Example late_panic_misreported :
  let '(c, lines) := router 0 eight late (get "/api/v1/markets") NewConn in
  client_status c = 200 /\
  exists bytes, lines = [LHttpPanic "/api/v1/markets" "01J001122334455AAFF";
                         LHttpRequest "GET" "/api/v1/markets" 500 bytes "01J001122334455AAFF"].
Proof. split; [reflexivity|]. eexists. reflexivity. Qed.

(** The association file, as the client reads it. *)
Example app_links_served :
  let '(c, _) := router 0 eight appLinks (get "/.well-known/assetlinks.json") NewConn in
  client_status c = 200 /\
  parse_json (cnBody c) = Some (JArr [JObj
    [("relation", JArr [JStr "delegate_permission/common.handle_all_urls"]);
     ("target", JObj [("namespace", JStr "android_app"); ("package_name", JStr appLinkPackageName);
                      ("sha256_cert_fingerprints", JArr [JStr appLinkDebugFingerprint])])]]%string).
Proof. vm_compute. done. Qed.
