(* ===== verification/StoreLife.v ===== *)
(** * The life of the metrics store: [Open] to [Close] of [recorder.go]

    Opening picks a registered driver and creates the directory of its file;
    closing flushes under a deadline, stops the writer, waits for it and closes
    the driver.  A life is a run on a list of inputs, each the next thing a
    producer, the writer's goroutine or the caller of [Close] does; [None] is an
    input that cannot happen then. *)

From Stdlib Require Import Ascii.
From S2P Require Import Prelude Money GoTime Decimal Domain Float64 Metrics MetricsStore.

(** ** [path/filepath] on a Unix system *)

Definition slash : ascii := "/"%char.

(** The elements between the slashes. *)
Fixpoint elements_of (cur s : text) : list text :=
  match s with
  | [] => [cur]
  | c :: s => if decide (c = slash) then cur :: elements_of [] s else elements_of (cur ++ [c]) s
  end.
Definition dotdot : text := txt "..".
(** One element of [Clean]; the elements kept so far are in reverse. *)
Definition clean_element (rooted : bool) (kept : list text) (e : text) : list text :=
  if bool_decide (e = []) || bool_decide (e = txt ".") then kept
  else if bool_decide (e = dotdot) then
    match kept with
    | [] => if rooted then [] else [dotdot]
    | k :: rest => if bool_decide (k = dotdot) then dotdot :: kept else rest
    end
  else e :: kept.
Fixpoint join_elements (es : list text) : text :=
  match es with [] => [] | [e] => e | e :: es => e ++ slash :: join_elements es end.
Definition rooted (p : text) : bool := match p with c :: _ => bool_decide (c = slash) | [] => false end.
Definition Clean (p : text) : text :=
  let kept := rev (foldl (clean_element (rooted p)) [] (elements_of [] p)) in
  if rooted p then slash :: join_elements kept
  else match kept with [] => txt "." | _ => join_elements kept end.
(** The path up to its last slash. *)
Fixpoint up_to_slash (p : text) : text :=
  match p with
  | [] => []
  | c :: p => match up_to_slash p with [] => if decide (c = slash) then [c] else [] | d => c :: d end
  end.
Definition Dir (p : text) : text := Clean (up_to_slash p).

(** ** Opening *)

(** [os.MkdirAll]: the directories it makes, unless it fails. *)
Inductive OpenError := OInvalid (e : ConfigError) | OUnknownDriver | OMakeDir (dir : text) | OFactory (e : DriverError).

(** The directory asked for, and the error. *)
Definition ensureParentDir (mkdir_fails : text -> bool) (dsn : text) : option text * option OpenError :=
  match TrimSpace dsn with
  | [] => (None, None)
  | _ =>
      let dir := Dir dsn in
      if bool_decide (dir = []) || bool_decide (dir = txt ".") || bool_decide (dir = [slash]) then (None, None)
      else (Some dir, if mkdir_fails dir then Some (OMakeDir dir) else None)
  end.

Section Open.
Context {R : Type} `{Repository R}.

Definition Factory : Type := MetricsConfig -> R + DriverError.

(** [strings.ToLower] of an ASCII name. *)
Definition lower_byte (c : ascii) : ascii :=
  let n := N_of_ascii c in if bool_decide (65 <= n <= 90)%N then ascii_of_N (n + 32) else c.
Definition driver_key (name : text) : text := map lower_byte name.

(** The registered drivers, the newest first: a name registered twice means the
    newest factory. *)
Definition Drivers : Type := list (text * Factory).
Definition RegisterDriver (drivers : Drivers) (name : text) (factory : option Factory) : Drivers :=
  match factory with
  | None => drivers
  | Some f => (driver_key (TrimSpace name), f) :: filter (fun d => d.1 <> driver_key (TrimSpace name)) drivers
  end.
Definition find_driver (drivers : Drivers) (name : text) : option Factory :=
  snd <$> find (fun d => bool_decide (d.1 = driver_key name)) drivers.

Definition openRepository (mkdir_fails : text -> bool) (drivers : Drivers) (cfg : MetricsConfig)
    : option text * (R + OpenError) :=
  match find_driver drivers (mcDriver cfg) with
  | None => (None, inr OUnknownDriver)
  | Some factory =>
      let '(dir, err) := ensureParentDir mkdir_fails (mcDSN cfg) in
      (dir, match err with
            | Some e => inr e
            | None => match factory cfg with inl repo => inl repo | inr e => inr (OFactory e) end
            end)
  end.

(** [Open]; a disabled store has no driver. *)
Definition OpenStore (mkdir_fails : text -> bool) (drivers : Drivers) (cfg : MetricsConfig)
    : option text * (option (Store R) + OpenError) :=
  let c := mc_withDefaults cfg in
  match mc_validate c with
  | Some e => (None, inr (OInvalid e))
  | None =>
      if negb (mcEnabled c) then (None, inl None)
      else
        let '(dir, repo) := openRepository mkdir_fails drivers c in
        (dir, match repo with
              | inr e => inr e
              | inl repo => match Open cfg repo with inl s => inl (Some s) | inr e => inr (OInvalid e) end
              end)
  end.
End Open.
Arguments Factory R : clear implicits. Arguments Drivers R : clear implicits.

(** ** Closing *)

(** [Flushing] until the flush of [Close] returns; from [Joining] on the
    writer's context is cancelled. *)
Inductive ClosePhase := NotClosing | Flushing | Joining | ClosedDown.
#[export] Instance close_phase_eq_dec : EqDecision ClosePhase.
Proof. solve_decision. Defined.

Inductive CloseError := FlushDeadline | FlushFailed (e : DriverError) | RepoClose (e : DriverError).

(** The driver's [Close]. *)
Class Closer (R : Type) := { RepositoryClose : R -> R * option DriverError }.
#[export] Hint Mode Closer ! : typeclass_instances.

(** [slWriting] says that the writer's goroutine runs; [slChecked] are the
    records of producers that have read the closed flag and not pushed yet;
    [slClosings] counts the calls of the driver's [Close]. *)
Record StoreLife (R : Type) := mkStoreLife {
  slStore : Store R; slPhase : ClosePhase; slWriting : bool; slChecked : list record;
  slErr : option CloseError; slClosings : nat }.
Arguments mkStoreLife {R}. Arguments slStore {R}. Arguments slPhase {R}. Arguments slWriting {R}.
Arguments slChecked {R}. Arguments slErr {R}. Arguments slClosings {R}.

(** [LRound] is a round of the writer: [by_close] when the flush request it
    takes is that of [Close], [expired] when the deadline passes before its
    answer. *)
Inductive LifeInput :=
| LRecord (call : RecordCall) (now : Time)
| LLoad (call : RecordCall) (now : Time)
| LPush (i : nat) (now : Time)
| LRound (w : Surroundings) (early : bool) (wake : Wake) (by_close expired : bool)
| LClose | LDeadline | LRelease.

Section Life.
Context {R : Type} `{Repository R} `{Closer R}.
Implicit Types l : StoreLife R.

Definition opened (s : Store R) : StoreLife R := mkStoreLife s NotClosing true [] None 0.

Definition with_store l (s : Store R) : StoreLife R :=
  mkStoreLife s (slPhase l) (slWriting l) (slChecked l) (slErr l) (slClosings l).
Definition with_checked l (rs : list record) : StoreLife R :=
  mkStoreLife (slStore l) (slPhase l) (slWriting l) rs (slErr l) (slClosings l).

(** The second half of [enqueue]. *)
Definition push_record (s : Store R) (r : record) (now : Time) : Store R :=
  let '(q, ok) := push (stQueue s) r in
  let s := set_queue s q in
  if ok : bool then s else fst (noteDrop s now).

(** Which of its cases a round is: it serves a flush request, or it ends. *)
Definition full_batch (s : Store R) : bool := woBatchSize (stOpts s) <=? len (stPending s).
Definition serves (s : Store R) (early : bool) (wake : Wake) : bool :=
  early || (negb (full_batch (fst (pull s))) && match wake with WakeFlush => true | _ => false end).
Definition stops (s : Store R) (early : bool) (wake : Wake) : bool :=
  negb early && negb (full_batch (fst (pull s))) && match wake with WakeStop => true | _ => false end.
(** The answer to the request served. *)
Definition flush_failure (s : Store R) (w : Surroundings) : option DriverError :=
  match drain (fst (pull s)) w true with Some (_, failure) => failure | None => None end.

Definition cancelled (p : ClosePhase) : bool := bool_decide (p = Joining) || bool_decide (p = ClosedDown).

Definition life_round l (w : Surroundings) (early : bool) (wake : Wake) (by_close expired : bool)
    : option (StoreLife R) :=
  let s := slStore l in
  if negb (slWriting l) then None
  else if stops s early wake && negb (cancelled (slPhase l)) then None
  else if by_close && negb (serves s early wake && bool_decide (slPhase l = Flushing)) then None
  else
    '(s', more) ← start_round s w early wake;
    Some (if by_close
          then mkStoreLife s' Joining more (slChecked l)
                 (if expired then Some FlushDeadline else FlushFailed <$> flush_failure s w) (slClosings l)
          else mkStoreLife s' (slPhase l) more (slChecked l) (slErr l) (slClosings l)).

Definition life_step l (i : LifeInput) : option (StoreLife R) :=
  match i with
  | LRecord call now => Some (with_store l (Record_ (slStore l) call now))
  | LLoad call now =>
      if negb (mcEnabled (stCfg (slStore l))) then Some l
      else if stClosed (slStore l) then Some (with_store l (fst (noteDrop (slStore l) now)))
      else Some (with_checked l (slChecked l ++ [record_of call now]))
  | LPush i now =>
      r ← slChecked l !! i;
      Some (with_checked (with_store l (push_record (slStore l) r now)) (delete i (slChecked l)))
  | LRound w early wake by_close expired => life_round l w early wake by_close expired
  | LClose =>
      if decide (slPhase l = NotClosing)
      then Some (mkStoreLife (close_mark (slStore l)) Flushing (slWriting l) (slChecked l) None (slClosings l))
      else Some l
  | LDeadline =>
      if decide (slPhase l = Flushing)
      then Some (mkStoreLife (slStore l) Joining (slWriting l) (slChecked l) (Some FlushDeadline) (slClosings l))
      else None
  | LRelease =>
      if decide (slPhase l = Joining) then
        if slWriting l then None
        else
          let '(repo, err) := RepositoryClose (stRepo (slStore l)) in
          Some (mkStoreLife (set_repo (slStore l) repo) ClosedDown false (slChecked l)
                  (match slErr l with Some e => Some e | None => RepoClose <$> err end) (S (slClosings l)))
      else None
  end.

Fixpoint life_run l (inputs : list LifeInput) : option (StoreLife R) :=
  match inputs with [] => Some l | i :: inputs => l ← life_step l i; life_run l inputs end.
End Life.
