(* ===== verification/StoreLifeSpec.v ===== *)
(** * [Close] returns, and where every record is afterwards: facts of [StoreLife] *)

From Stdlib Require Import Ascii.
From S2P Require Import Prelude Money GoTime Decimal Domain Float64 Metrics MetricsStore MetricsSpec StoreLife.

#[export] Instance audited_closer {R} `{Closer R} : Closer (Audited R) := {|
  RepositoryClose a := let '(r, e) := RepositoryClose (auInner a) in (mkAudited r (auLog a), e) |}.

Section Life.
Context {R : Type} `{Repository R} `{Closer R}.
Implicit Types (s : Store (Audited R)) (l : StoreLife (Audited R)).

(** The configuration of the life.  One pull of the writer empties the queue, or
    leaves more than a batch pending: the queue or the batches are that small. *)
Context (C : MetricsConfig).
Definition small_queue : Prop := mcQueueCapacity C <= maxDrainPerBatch.
Definition small_batches : Prop := woBatchSize (startWriter (R := R) C) <= maxDrainPerBatch.

Definition balanced s (offers : list record) (ch : list (list record * bool)) (q : list record) (d : Z) : Prop :=
  accounted C (fun _ => True) s offers ch q d.

Lemma balanced_closed s b offers ch q d : balanced s offers ch q d -> balanced (set_closed s b) offers ch q d.
Proof. unfold balanced. intros []. by split. Qed.

Lemma push_record_enqueue s r now :
  mcEnabled (stCfg s) = true ->
  push_record s r now = set_closed (fst (enqueue (set_closed s false) r now)) (stClosed s).
Proof.
  intros He. unfold push_record, enqueue. cbn [set_closed stCfg stClosed stQueue]. rewrite He. cbn [negb].
  by destruct s, (push _ r) as [q []].
Qed.
Lemma balanced_push s r now offers ch q d :
  balanced s offers ch q d -> exists q' d', balanced (push_record s r now) (offers ++ [r]) ch q' d'.
Proof.
  intros Ha. rewrite push_record_enqueue by apply Ha.
  destruct (acc_enqueue C (fun _ => True) (set_closed s false) offers ch q d r now) as (q' & d' & Hb).
  { by apply balanced_closed. }
  exists q', d'. by apply balanced_closed.
Qed.

Lemma queue_small s offers ch q d :
  small_queue -> balanced s offers ch q d -> len q <= maxDrainPerBatch.
Proof.
  unfold small_queue. intros Hs Ha. pose proof (qr_le _ _ (ac_queue _ _ _ _ _ _ _ Ha)). pose proof (ac_cap _ _ _ _ _ _ _ Ha).
  rewrite (proj2 (ac_cfg _ _ _ _ _ _ _ Ha)) in *. lia.
Qed.

(** ** A closed store only drops *)

Lemma enqueue_closed s r now :
  mcEnabled (stCfg s) = true -> stClosed s = true -> enqueue s r now = noteDrop s now.
Proof. intros He Hc. unfold enqueue. by rewrite He, Hc. Qed.

Lemma closed_all s rs now offers ch q d :
  balanced s offers ch q d -> stClosed s = true ->
  let s' := enqueue_all s rs now in
  stClosed s' = true /\ stPending s' = stPending s /\ stOpts s' = stOpts s /\
  exists d', balanced s' (offers ++ rs) ch q d'.
Proof.
  revert s offers d. induction rs as [|r rs IH]; intros s offers d Ha Hc.
  { cbn. split_and!; try done. exists d. by rewrite app_nil_r. }
  unfold enqueue_all. cbn [fold_left]. fold (enqueue_all (fst (enqueue s r now)) rs now).
  rewrite enqueue_closed by first [apply Ha|done].
  pose proof (acc_drop C (fun _ => True) s offers ch q d r now Ha) as Hd.
  destruct (IH (fst (noteDrop s now)) _ _ Hd Hc) as (? & -> & -> & d' & Ha').
  split_and!; try done. exists d'. by rewrite <- app_assoc in Ha'.
Qed.

(** ** The closed flag is the store's own *)

Lemma enqueue_all_flag s rs now : stClosed (enqueue_all s rs now) = stClosed s.
Proof.
  revert s. induction rs as [|r rs IH]; intros s; [done|]. unfold enqueue_all. cbn [fold_left].
  fold (enqueue_all (fst (enqueue s r now)) rs now). rewrite IH. unfold enqueue.
  destruct (negb _); [done|]. destruct (stClosed s) eqn:E; [done|]. by destruct (push _ _) as [? []].
Qed.
Lemma pull_flag s : stClosed (fst (pull s)) = stClosed s.
Proof. unfold pull. by destruct (Drain _ _). Qed.
Lemma take_flag s n : stClosed (fst (takePending s n)) = stClosed s.
Proof. unfold takePending. by destruct (_ || _). Qed.
Lemma commit_flag s b : stClosed (fst (commit s b)) = stClosed s.
Proof. unfold commit. destruct (WriteBatch _ _) as [? []]; [|done]. by destruct (WriteBatch _ _) as [? []]. Qed.
Lemma commit_full_flag fuel : forall s written failure,
  stClosed (fst (fst (commit_full fuel s written failure))) = stClosed s.
Proof.
  induction fuel as [|fuel IH]; intros s written failure; [done|]. cbn [commit_full].
  destruct (_ <=? _); [|done]. pose proof (take_flag s (woBatchSize (stOpts s))) as Ht.
  destruct (takePending s _) as [s1 b]. pose proof (commit_flag s1 b) as Hc.
  destruct (commit s1 b) as [s2 err]. rewrite IH. cbn [fst] in *. congruence.
Qed.
Lemma drain_loop_flag fuel w all : forall k s written failure s' failure',
  drain_loop fuel w all k s written failure = Some (s', failure') -> stClosed s' = stClosed s.
Proof.
  induction fuel as [|fuel IH]; intros k s written failure s' failure' E; [done|]. cbn [drain_loop] in E.
  destruct (_ <=? _); [congruence|].
  pose proof (commit_full_flag (length (stPending s)) s written failure) as Hc.
  destruct (commit_full _ _ _ _) as [[s1 written1] failure1]. cbn [fst] in Hc.
  destruct all; cbn [negb] in E; [|congruence].
  pose proof (pull_flag (enqueue_all s1 (snArrivals w k) (snNow w))) as Hp.
  destruct (pull _) as [s2 n]. cbn [fst] in Hp. rewrite enqueue_all_flag in Hp.
  destruct (_ && _); [congruence|]. apply IH in E. congruence.
Qed.
Lemma drain_flag s w all s' failure : drain s w all = Some (s', failure) -> stClosed s' = stClosed s.
Proof.
  unfold drain. destruct (drain_loop _ _ _ _ _ _ _) as [[s1 f1]|] eqn:E; [|done]. apply drain_loop_flag in E.
  cbn [mbind option_bind]. unfold commit_rest. destruct (0 <? _); [|by intros [= <- _]].
  pose proof (take_flag s1 (len (stPending s1))) as Ht. destruct (takePending _ _) as [s2 b].
  pose proof (commit_flag s2 b) as Hc. destruct (commit s2 b). cbn [fst] in *. intros [= <- _]. cbn. congruence.
Qed.

Lemma finish_flag fuel w : forall k s written s', finish_loop fuel w k s written = Some s' -> stClosed s' = stClosed s.
Proof.
  induction fuel as [|fuel IH]; intros k s written s' E; [done|]. cbn [finish_loop] in E.
  destruct (_ <=? _); [congruence|].
  pose proof (pull_flag (enqueue_all s (snArrivals w k) (snNow w))) as Hp.
  destruct (pull _) as [s1 n]. cbn [fst] in Hp. rewrite enqueue_all_flag in Hp.
  destruct (_ && _); [congruence|]. pose proof (take_flag s1 (len (stPending s1))) as Ht.
  destruct (takePending _ _) as [s2 b]. cbn [fst] in Ht. destruct (_ =? 0); [congruence|].
  pose proof (commit_flag s2 b) as Hc. destruct (commit s2 b) as [s3 err]. cbn [fst] in Hc.
  destruct err; [congruence|]. destruct (snExpired w k); [congruence|]. apply IH in E. congruence.
Qed.

(** ** The last drain of a closed store leaves nothing pending, nor queued if the
    queue is small *)

Lemma finish_closed fuel w : forall k s offers ch q d written,
  balanced s offers ch q d -> stClosed s = true -> 0 <= written ->
  written < maxDrainPerBatch \/ stPending s = [] /\ (small_queue -> q = []) ->
  (Z.to_nat (maxDrainPerBatch - written) < fuel)%nat ->
  exists s' n, finish_loop fuel w k s written = Some s' /\ stPending s' = [] /\ stClosed s' = true /\
    exists ch' q' d', balanced s' (offers ++ arrivals w k n) ch' q' d' /\ (small_queue \/ q = [] -> q' = []).
Proof.
  induction fuel as [|fuel IH]; intros k s offers ch q d written Ha Hc Hw Hor Hf; [lia|]. cbn [finish_loop].
  destruct (Z.leb_spec maxDrainPerBatch written) as [Hmax|Hmax].
  { destruct Hor as [Hlt|[Hp Hq]]; [lia|]. exists s, 0%nat. split_and!; try done.
    exists ch, q, d. unfold arrivals. cbn. rewrite app_nil_r. split; [done|]. intros [Hs|Hs]; [by apply Hq|done]. }
  destruct (closed_all s (snArrivals w k) (snNow w) offers ch q d Ha Hc) as (Hc1 & _ & _ & d1 & Ha1).
  pose proof (acc_pull _ _ _ _ _ _ _ Ha1) as Ha2. pose proof (pull_flag (enqueue_all s (snArrivals w k) (snNow w))) as Hc2.
  assert (Hnone : small_queue -> drop (Z.to_nat maxDrainPerBatch) q = []).
  { intros Hs. apply drop_ge. pose proof (queue_small _ _ _ _ _ Hs Ha1). unfold len in *. lia. }
  assert (Hnone' : small_queue \/ q = [] -> drop (Z.to_nat maxDrainPerBatch) q = []) by (intros [?| ->]; [by apply Hnone|by destruct (Z.to_nat _)]).
  destruct (pull _) as [s2 pulled]. cbn [fst] in Ha2, Hc2. rewrite Hc1 in Hc2.
  assert (Hone : arrivals w k 1 = snArrivals w k) by (unfold arrivals; cbn; by rewrite app_nil_r).
  destruct (Z.ltb_spec 0 (len (stPending s2))) as [Hlt|Hle].
  - rewrite (proj2 (Z.eqb_neq (len (stPending s2)) 0)) by lia. cbn [andb].
    pose proof (acc_commit C (fun _ => True) ltac:(done) s2 _ _ _ _ (len (stPending s2)) Ha2 ltac:(lia)) as Hk.
    pose proof (take_flag s2 (len (stPending s2))) as Hc3. destruct (takePending s2 _) as [s3 b].
    pose proof (commit_flag s3 b) as Hc4. destruct (commit s3 b) as [s4 err]. cbn [fst] in *.
    destruct Hk as (Hbl & Hp & _ & _ & _ & ok & Ha4 & _). rewrite (proj2 (Z.eqb_neq (Batch_Len b) 0)) by lia.
    assert (Hp4 : stPending s4 = []) by (rewrite Hp; apply drop_ge; unfold len; lia).
    assert (Hc5 : stClosed s4 = true) by congruence.
    destruct err; [exists s4, 1%nat; rewrite Hone; eauto 9|].
    destruct (snExpired w k); [exists s4, 1%nat; rewrite Hone; eauto 9|].
    destruct (IH (S k) s4 _ _ _ _ (written + Batch_Len b) Ha4) as (s' & n & -> & Hp' & Hc' & ch' & q' & d' & Ha' & Hq');
      [done|lia|by right|unfold maxDrainPerBatch in *; lia|].
    exists s', (S n). split_and!; try done. rewrite arrivals_S, app_assoc. eauto 8.
  - assert (Hp2 : stPending s2 = []) by (apply length_zero_iff_nil; unfold len in Hle; lia).
    destruct (_ && _); [exists s2, 1%nat; rewrite Hone; eauto 9|].
    unfold takePending. rewrite (proj2 (Z.leb_le _ _)) by done. cbn [orb].
    change (Batch_Len emptyBatch =? 0) with true. exists s2, 1%nat. rewrite Hone. eauto 9.
Qed.

Lemma round_spec s w early wake offers ch q d :
  balanced s offers ch q d ->
  exists s' n, start_round s w early wake = Some (s', negb (stops s early wake)) /\ stClosed s' = stClosed s /\
    exists ch' q' d', balanced s' (offers ++ arrivals w 0 n) ch' q' d' /\
      (stops s early wake = true -> stClosed s = true -> stPending s' = [] /\ (small_queue \/ small_batches -> q' = [])).
Proof.
  intros Ha. unfold start_round, stops, full_batch. pose proof (acc_pull _ _ _ _ _ _ _ Ha) as Hp.
  pose proof (proj1 (pull_spec s q (ac_queue _ _ _ _ _ _ _ Ha))) as Hpe.
  pose proof (pull_flag s) as Hc. destruct (pull s) as [s1 pulled]. cbn [fst] in *.
  assert (Hdrain : forall all, exists s' n,
    ('(s, _) ← drain s1 w all; Some (s, true)) = Some (s', true) /\ stClosed s' = stClosed s /\
    exists ch' q' d', balanced s' (offers ++ arrivals w 0 n) ch' q' d' /\
      (false = true -> stClosed s = true -> stPending s' = [] /\ (small_queue \/ small_batches -> q' = []))).
  { intros all. destruct (acc_drain C (fun _ => True) ltac:(done) s1 w all _ _ _ _ Hp) as (s' & f & n & E & _ & ch' & q' & d' & Ha' & _).
    pose proof (drain_flag _ _ _ _ _ E) as Hf. rewrite E. exists s', n. split; [done|]. split; [congruence|].
    exists ch', q', d'. by split. }
  destruct early; [apply Hdrain|]. destruct (Z.leb_spec (woBatchSize (stOpts s1)) (len (stPending s1))) as [_|Hpart]; [apply Hdrain|]. cbn [negb andb].
  destruct wake; try apply Hdrain; cbn [negb].
  - unfold finish. destruct (stClosed s) eqn:Ec.
    + destruct (finish_closed (S (Z.to_nat maxDrainPerBatch)) w 0 s1 _ _ _ _ 0 Hp) as
        (s' & n & -> & Hp' & Hc' & ch' & q' & d' & Ha' & Hq'); [congruence|lia|left; unfold maxDrainPerBatch; lia|lia|].
      exists s', n. split; [done|]. split; [congruence|]. exists ch', q', d'. split; [done|]. intros _ _. split; [done|].
      intros [Hs|Hs]; apply Hq'; [by left|right]. apply drop_ge. unfold small_batches in Hs.
      rewrite <- (ac_opts _ _ _ _ _ _ _ Hp) in Hs. rewrite Hpe, len_app in Hpart. unfold len in *. rewrite length_take in Hpart. lia.
    + destruct (acc_finish_loop C (fun _ => True) ltac:(done) (S (Z.to_nat maxDrainPerBatch)) w 0 s1 _ _ _ _ 0 Hp) as
        (s' & n & E & ch' & q' & d' & Ha'); [lia|lia|].
      rewrite E. exists s', n. split; [done|]. split.
      { rewrite <- Hc. by apply (finish_flag _ _ _ _ _ _ E). }
      exists ch', q', d'. by split.
  - exists (prune s1 (tUTC (snNow w))), 0%nat. split; [done|]. split.
    { unfold prune. destruct PruneForStore as [f|]; [|done]. destruct (f _ _ _ _) as [[? t] []]; [done|].
      by destruct (t =? 0). }
    exists ch, (drop (Z.to_nat maxDrainPerBatch) q), d. unfold arrivals. cbn. rewrite app_nil_r.
    split; [by apply acc_prune|done].
  - exists s1, 0%nat. split; [done|]. split; [done|]. unfold arrivals. cbn. rewrite app_nil_r.
    exists ch, (drop (Z.to_nat maxDrainPerBatch) q), d. by split.
Qed.

(** ** The books over a life *)

(** The records of all producers; a round sees the arrivals of [n] pulls. *)
Inductive produced : list LifeInput -> list record -> Prop :=
| produced_nil : produced [] []
| produced_record call now is_ rs : produced is_ rs -> produced (LRecord call now :: is_) (record_of call now :: rs)
| produced_load call now is_ rs : produced is_ rs -> produced (LLoad call now :: is_) (record_of call now :: rs)
| produced_push i now is_ rs : produced is_ rs -> produced (LPush i now :: is_) rs
| produced_round w early wake by_close expired n is_ rs :
    produced is_ rs -> produced (LRound w early wake by_close expired :: is_) (arrivals w 0 n ++ rs)
| produced_close is_ rs : produced is_ rs -> produced (LClose :: is_) rs
| produced_deadline is_ rs : produced is_ rs -> produced (LDeadline :: is_) rs
| produced_release is_ rs : produced is_ rs -> produced (LRelease :: is_) rs.

Lemma produced_app a b rs rs' : produced a rs -> produced b rs' -> produced (a ++ b) (rs ++ rs').
Proof. induction 1; intros; cbn; rewrite <- ?app_assoc; try constructor; auto. Qed.

(** [calm] says that [Close] has begun with no producer between its check of
    the flag and its push. *)
Record life_ok (calm : Prop) l (rs offers : list record) (ch : list (list record * bool)) (q : list record) (d : Z) : Prop := {
  lo_books : balanced (slStore l) offers ch q d;
  lo_all : offers ++ slChecked l ≡ₚ rs;
  lo_flag : stClosed (slStore l) = bool_decide (slPhase l <> NotClosing);
  lo_ended : slWriting l = false -> cancelled (slPhase l) = true /\ stPending (slStore l) = [];
  lo_down : slPhase l = ClosedDown -> slWriting l = false;
  lo_closings : slClosings l = if decide (slPhase l = ClosedDown) then 1%nat else 0%nat;
  lo_calm : calm -> slPhase l <> NotClosing /\ slChecked l = [] /\ (slWriting l = false -> small_queue \/ small_batches -> q = []) }.
Definition life_inv (calm : Prop) l (rs : list record) : Prop := exists offers ch q d, life_ok calm l rs offers ch q d.

Lemma push_pending s r now : stPending (push_record s r now) = stPending s /\ stClosed (push_record s r now) = stClosed s /\
  stRepo (push_record s r now) = stRepo s.
Proof. unfold push_record. by destruct (push _ r) as [q []]. Qed.

Lemma inv_record calm l call now rs :
  life_inv calm l rs -> life_inv calm (with_store l (Record_ (slStore l) call now)) (rs ++ [record_of call now]).
Proof.
  intros (offers & ch & q & d & [Hb Ha Hf He Hd Hc Hq]). unfold Record_.
  destruct (enqueue_opts (slStore l) (record_of call now) now) as (_ & Hp & _).
  assert (Hall : (offers ++ [record_of call now]) ++ slChecked l ≡ₚ rs ++ [record_of call now])
    by (rewrite <- Ha, <- !app_assoc; apply Permutation_app_head, Permutation_app_comm).
  assert (Hflag : stClosed (fst (enqueue (slStore l) (record_of call now) now)) = stClosed (slStore l))
    by apply (enqueue_all_flag (slStore l) [record_of call now] now).
  destruct (decide (slPhase l = NotClosing)) as [E|E].
  - destruct (acc_enqueue C (fun _ => True) _ _ _ _ _ (record_of call now) now Hb) as (q' & d' & Hb').
    exists (offers ++ [record_of call now]), ch, q', d'. split; cbn; try done; try congruence.
    + by rewrite Hp.
    + intros Hk. by destruct (Hq Hk).
  - rewrite enqueue_closed in * by first [apply Hb|rewrite Hf; by apply bool_decide_eq_true].
    exists (offers ++ [record_of call now]), ch, q, (d + 1). split; cbn; try done.
    by apply acc_drop.
Qed.

Lemma inv_load calm l call now rs l' :
  life_inv calm l rs -> life_step l (LLoad call now) = Some l' -> life_inv calm l' (rs ++ [record_of call now]).
Proof.
  intros (offers & ch & q & d & [Hb Ha Hf He Hd Hc Hq]). cbn [life_step].
  rewrite (proj1 (ac_cfg _ _ _ _ _ _ _ Hb)). cbn [negb]. rewrite Hf. case_bool_decide as E; intros [= <-].
  - exists (offers ++ [record_of call now]), ch, q, (d + 1). split; cbn; try done.
    + by apply acc_drop.
    + rewrite <- Ha, <- !app_assoc. apply Permutation_app_head, Permutation_app_comm.
    + rewrite Hf. symmetry. by apply bool_decide_eq_true.
  - exists offers, ch, q, d. split; cbn; try done.
    + by rewrite <- Ha, app_assoc.
    + rewrite Hf. by case_bool_decide.
    + intros Hk. by destruct (Hq Hk).
Qed.

Lemma inv_push calm l i now rs l' :
  life_inv calm l rs -> life_step l (LPush i now) = Some l' -> life_inv calm l' rs.
Proof.
  intros (offers & ch & q & d & [Hb Ha Hf He Hd Hc Hq]). cbn [life_step].
  destruct (slChecked l !! i) as [r|] eqn:Er; [|done]. cbn [mbind option_bind]. intros [= <-].
  destruct (balanced_push _ r now _ _ _ _ Hb) as (q' & d' & Hb').
  destruct (push_pending (slStore l) r now) as (Hp & Hc' & _). exists (offers ++ [r]), ch, q', d'.
  split; cbn [with_checked with_store slStore slPhase slWriting slChecked slErr slClosings]; try done.
  - rewrite <- Ha, <- app_assoc. apply Permutation_app_head. symmetry. by apply delete_Permutation.
  - congruence.
  - by rewrite Hp.
  - intros Hk. destruct (Hq Hk) as (_ & E & _). by rewrite E in Er.
Qed.

Lemma cancelled_not p : cancelled p = true -> p <> NotClosing.
Proof. by destruct p. Qed.

Lemma inv_round calm l w early wake by_close expired rs l' :
  life_inv calm l rs -> life_round l w early wake by_close expired = Some l' ->
  exists n, life_inv calm l' (rs ++ arrivals w 0 n).
Proof.
  intros (offers & ch & q & d & [Hb Ha Hf He Hd Hc Hq]). unfold life_round.
  destruct (slWriting l) eqn:Ew; [|done]. cbn [negb].
  destruct (round_spec (slStore l) w early wake _ _ _ _ Hb) as (s' & n & E & Hc' & ch' & q' & d' & Hb' & Hend).
  rewrite E. destruct (stops (slStore l) early wake && _) eqn:Eg; [done|].
  destruct (by_close && _) eqn:Ec; [done|]. cbn [mbind option_bind]. intros [= <-].
  assert (Hall : (offers ++ arrivals w 0 n) ++ slChecked l ≡ₚ rs ++ arrivals w 0 n)
    by (rewrite <- Ha, <- !app_assoc; apply Permutation_app_head, Permutation_app_comm).
  assert (Hstop : negb (stops (slStore l) early wake) = false ->
    cancelled (slPhase l) = true /\ stPending s' = [] /\ (small_queue \/ small_batches -> q' = [])).
  { intros Hs%negb_false_iff. rewrite Hs in Eg. apply negb_false_iff in Eg. split; [done|]. apply Hend; [done|].
    rewrite Hf. apply bool_decide_eq_true. by apply cancelled_not. }
  exists n, (offers ++ arrivals w 0 n), ch', q', d'.
  destruct by_close; cbn in Ec.
  - apply negb_false_iff, andb_true_iff in Ec as [_ Ep%bool_decide_eq_true]. rewrite Ep in *.
    split; cbn [slStore slPhase slWriting slChecked slErr slClosings]; try done.
    + by rewrite Hc', Hf.
    + intros Hs. by destruct (Hstop Hs) as (? & ? & _).
    + intros Hk. destruct (Hq Hk) as (_ & ? & _). split_and!; try done. intros Hs. by destruct (Hstop Hs) as (_ & _ & ?).
  - split; cbn [slStore slPhase slWriting slChecked slErr slClosings]; try done.
    + by rewrite Hc'.
    + intros Hs. by destruct (Hstop Hs) as (? & ? & _).
    + intros Hd'. by specialize (Hd Hd').
    + intros Hk. destruct (Hq Hk) as (? & ? & _). split_and!; try done. intros Hs. by destruct (Hstop Hs) as (_ & _ & ?).
Qed.

Lemma inv_release calm l rs l' :
  life_inv calm l rs -> life_step l LRelease = Some l' -> life_inv calm l' rs.
Proof.
  intros (offers & ch & q & d & [Hb Ha Hf He Hd Hc Hq]). cbn [life_step].
  destruct (decide (slPhase l = Joining)) as [Ep|]; [|done]. destruct (slWriting l) eqn:Ew; [done|].
  cbn [RepositoryClose audited_closer]. destruct (RepositoryClose (auInner (stRepo (slStore l)))) as [r e].
  intros [= <-]. exists offers, ch, q, d.
  split; cbn [slStore slPhase slWriting slChecked slErr slClosings]; try done.
  - destruct Hb. by split.
  - cbn. rewrite Hf, Ep. done.
  - intros _. destruct (He eq_refl) as [_ Hp]. by split.
  - rewrite Hc, Ep. done.
  - intros Hk. destruct (Hq Hk) as (_ & ? & ?). by split_and!.
Qed.

Lemma inv_step calm l i rs l' :
  life_inv calm l rs -> life_step l i = Some l' -> exists rs', produced [i] rs' /\ life_inv calm l' (rs ++ rs').
Proof.
  intros Hi. destruct i as [call now|call now|i now|w early wake by_close expired| | |]; intros E.
  - cbn in E. injection E as <-. exists [record_of call now]. split; [repeat constructor|]. by apply inv_record.
  - exists [record_of call now]. split; [repeat constructor|]. by apply (inv_load calm l).
  - exists []. split; [repeat constructor|]. rewrite app_nil_r. by apply (inv_push calm l i now).
  - destruct (inv_round calm l w early wake by_close expired rs l' Hi E) as [n Hn].
    exists (arrivals w 0 n). split; [|done]. rewrite <- (app_nil_r (arrivals w 0 n)). repeat constructor.
  - exists []. split; [repeat constructor|]. rewrite app_nil_r. cbn in E.
    destruct (decide (slPhase l = NotClosing)) as [Ep|]; injection E as <-; [|done].
    destruct Hi as (offers & ch & q & d & [Hb Ha Hf He Hd Hc Hq]). exists offers, ch, q, d.
    split; cbn [slStore slPhase slWriting slChecked slErr slClosings]; try done.
    + by apply balanced_closed.
    + intros Hs. destruct (He Hs) as [Hx _]. by rewrite Ep in Hx.
    + by rewrite Hc, Ep.
    + intros Hk. by destruct (Hq Hk).
  - exists []. split; [repeat constructor|]. rewrite app_nil_r. cbn in E.
    destruct (decide (slPhase l = Flushing)) as [Ep|]; [|done]. injection E as <-.
    destruct Hi as (offers & ch & q & d & [Hb Ha Hf He Hd Hc Hq]). exists offers, ch, q, d.
    split; cbn [slStore slPhase slWriting slChecked slErr slClosings]; try done.
    + by rewrite Hf, Ep.
    + intros Hs. destruct (He Hs) as [Hx _]. by rewrite Ep in Hx.
    + by rewrite Hc, Ep.
    + intros Hk. by destruct (Hq Hk).
  - exists []. split; [repeat constructor|]. rewrite app_nil_r. by apply (inv_release calm l).
Qed.

Lemma inv_run calm is_ : forall l rs l',
  life_inv calm l rs -> life_run l is_ = Some l' -> exists rs', produced is_ rs' /\ life_inv calm l' (rs ++ rs').
Proof.
  induction is_ as [|i is_ IH]; intros l rs l' Hi E; cbn [life_run] in E.
  { injection E as <-. exists []. split; [constructor|]. by rewrite app_nil_r. }
  destruct (life_step l i) as [l1|] eqn:E1; [|done]. cbn [mbind option_bind] in E.
  destruct (inv_step _ _ _ _ _ Hi E1) as (r1 & Hr1 & H1). destruct (IH _ _ _ H1 E) as (r2 & Hr2 & H2).
  exists (r1 ++ r2). split; [by apply (produced_app [i] is_)|by rewrite app_assoc].
Qed.

Lemma inv_weaken (calm calm' : Prop) l rs : (calm' -> calm) -> life_inv calm l rs -> life_inv calm' l rs.
Proof. intros Hi (offers & ch & q & d & [? ? ? ? ? ? Hq]). exists offers, ch, q, d. split; auto. Qed.

Lemma inv_close l rs l' :
  slPhase l = NotClosing -> life_inv False l rs -> life_step l LClose = Some l' ->
  life_inv (slChecked l = []) l' rs.
Proof.
  intros Ep (offers & ch & q & d & [Hb Ha Hf He Hd Hc _]). cbn. rewrite Ep. cbn. intros [= <-].
  exists offers, ch, q, d. split; cbn [slStore slPhase slWriting slChecked slErr slClosings]; try done.
  - by apply balanced_closed.
  - intros Hs. destruct (He Hs) as [Hx _]. by rewrite Ep in Hx.
  - by rewrite Hc, Ep.
  - intros Hk. split_and!; try done. intros Hs. destruct (He Hs) as [Hx _]. by rewrite Ep in Hx.
Qed.

(** ** After the end the driver is left alone *)

Definition at_rest l : Prop := slPhase l = ClosedDown /\ slWriting l = false.
Lemma record_repo s r now : stRepo (fst (enqueue s r now)) = stRepo s.
Proof. unfold enqueue. destruct (negb _), (stClosed s); try done; by destruct (push _ _) as [? []]. Qed.
Lemma rest_step l i l' : at_rest l -> life_step l i = Some l' ->
  at_rest l' /\ stRepo (slStore l') = stRepo (slStore l) /\ slClosings l' = slClosings l.
Proof.
  intros [Ep Ew]. destruct i; cbn [life_step]; unfold life_round; rewrite ?Ep, ?Ew; cbn; try done.
  - intros [= <-]. split_and!; try done. apply record_repo.
  - destruct (negb _), (stClosed (slStore l)); intros [= <-]; done.
  - destruct (slChecked l !! i) as [r|]; [|done]. cbn [mbind option_bind]. intros [= <-]. split_and!; try done.
    apply push_pending.
  - intros [= <-]. done.
Qed.
Lemma rest_run is_ : forall l l', at_rest l -> life_run l is_ = Some l' ->
  at_rest l' /\ stRepo (slStore l') = stRepo (slStore l) /\ slClosings l' = slClosings l.
Proof.
  induction is_ as [|i is_ IH]; intros l l' Hr E; cbn in E; [by injection E as <-|].
  destruct (life_step l i) as [l1|] eqn:E1; [|done]. destruct (rest_step l i l1 Hr E1) as (Hr1 & Hs1 & Hc1).
  destruct (IH l1 l' Hr1 E) as (? & ? & ?). split_and!; congruence || done.
Qed.

(** ** A stopped writer ends *)

Lemma take_queue s n : stQueue (fst (takePending s n)) = stQueue s.
Proof. unfold takePending. by destruct (_ || _). Qed.
Lemma commit_queue s b : stQueue (fst (commit s b)) = stQueue s.
Proof. unfold commit. destruct (WriteBatch _ _) as [? []]; [|done]. by destruct (WriteBatch _ _) as [? []]. Qed.
Lemma commit_full_queue fuel : forall s written failure,
  stQueue (fst (fst (commit_full fuel s written failure))) = stQueue s.
Proof.
  induction fuel as [|fuel IH]; intros s written failure; [done|]. cbn [commit_full].
  destruct (_ <=? _); [|done]. pose proof (take_queue s (woBatchSize (stOpts s))) as Ht.
  destruct (takePending s _) as [s1 b]. pose proof (commit_queue s1 b) as Hc.
  destruct (commit s1 b) as [s2 err]. rewrite IH. cbn [fst] in *. congruence.
Qed.
Lemma drain_partial_queue s w s' failure : drain s w false = Some (s', failure) -> stQueue s' = stQueue s.
Proof.
  unfold drain. destruct (drain_rounds s) as [|n]; cbn [drain_loop]; [done|]. change (maxDrainPerBatch <=? 0) with false.
  pose proof (commit_full_queue (length (stPending s)) s 0 None) as Hq.
  destruct (commit_full _ _ _ _) as [[s1 written1] failure1]. cbn [negb fst mbind option_bind] in *.
  unfold commit_rest. destruct (0 <? _); [|by intros [= <- _]].
  pose proof (take_queue s1 (len (stPending s1))) as Ht. destruct (takePending _ _) as [s2 b].
  pose proof (commit_queue s2 b) as Hc. destruct (commit s2 b). cbn [fst] in *. intros [= <- _]. cbn. congruence.
Qed.

(** What a closed store has to write still; nothing joins it any more. *)
Definition weight s : Z := len (stPending s) + Depth (stQueue s).
Definition steady s : Prop :=
  stClosed s = true /\ mcEnabled (stCfg s) = true /\ exists q, queue_rep (stQueue s) q.
Definition lighter s s' : Prop := steady s -> steady s' /\ stOpts s' = stOpts s /\ weight s' <= weight s.
#[local] Instance lighter_preorder : PreOrder lighter.
Proof.
  split; [by intros s Hs|]. intros s1 s2 s3 H12 H23 Hs. destruct (H12 Hs) as (H2 & E2 & W2).
  destruct (H23 H2) as (H3 & E3 & W3). split_and!; [done|congruence|lia].
Qed.

Lemma rep_depth q rs : queue_rep q rs -> Depth q = len rs.
Proof. intros Hq. unfold Depth. by rewrite (queue_eta _ _ Hq). Qed.

Lemma enqueue_all_lighter s rs now : lighter s (enqueue_all s rs now).
Proof.
  revert s. induction rs as [|r rs IH]; intros s; [done|]. unfold enqueue_all. cbn [fold_left].
  fold (enqueue_all (fst (enqueue s r now)) rs now). transitivity (fst (enqueue s r now)); [|apply IH].
  intros (Hc & He & Hq). rewrite enqueue_closed by done. by split_and!.
Qed.
Lemma pull_lighter s : lighter s (fst (pull s)).
Proof.
  intros (Hc & He & q & Hq). destruct (pull_spec s q Hq) as (Hp & _ & Hq' & _), (pull_opts s) as [Ho Hcf].
  split; [split_and!; [by rewrite pull_flag|by rewrite Hcf|by eexists]|split; [done|]].
  unfold weight. rewrite Hp, (rep_depth _ _ Hq), (rep_depth _ _ Hq'), len_app.
  rewrite <- (take_drop (Z.to_nat maxDrainPerBatch) q) at 3. rewrite len_app. lia.
Qed.
Lemma take_lighter s n : lighter s (fst (takePending s n)).
Proof.
  unfold takePending. destruct (_ || _); [done|]. intros Hs. split; [exact Hs|]. split; [done|].
  unfold weight. cbn. unfold len. rewrite length_drop. lia.
Qed.
Lemma commit_lighter s b : lighter s (fst (commit s b)).
Proof. unfold commit. destruct (WriteBatch _ _) as [? []]; [|done]. by destruct (WriteBatch _ _) as [? []]. Qed.
Lemma commit_full_lighter fuel : forall s written failure, lighter s (fst (fst (commit_full fuel s written failure))).
Proof.
  induction fuel as [|fuel IH]; intros s written failure; [done|]. cbn [commit_full]. destruct (_ <=? _); [|done].
  pose proof (take_lighter s (woBatchSize (stOpts s))) as Ht. destruct (takePending s _) as [s1 b].
  pose proof (commit_lighter s1 b) as Hc. destruct (commit s1 b) as [s2 err]. etransitivity; [exact Ht|].
  etransitivity; [exact Hc|apply IH].
Qed.
Lemma drain_loop_lighter fuel w all : forall k s written failure s' failure',
  drain_loop fuel w all k s written failure = Some (s', failure') -> lighter s s'.
Proof.
  induction fuel as [|fuel IH]; intros k s written failure s' failure' E; [done|]. cbn [drain_loop] in E.
  destruct (_ <=? _); [by injection E as <- _|].
  pose proof (commit_full_lighter (length (stPending s)) s written failure) as Hc.
  destruct (commit_full _ _ _ _) as [[s1 written1] failure1]. etransitivity; [exact Hc|]. cbn [fst].
  destruct all; cbn [negb] in E; [|by injection E as <- _].
  pose proof (pull_lighter (enqueue_all s1 (snArrivals w k) (snNow w))) as Hp.
  destruct (pull _) as [s2 n]. transitivity (enqueue_all s1 (snArrivals w k) (snNow w)); [apply enqueue_all_lighter|].
  etransitivity; [exact Hp|]. destruct (_ && _); [by injection E as <- _|]. by apply IH in E.
Qed.
Lemma drain_lighter s w all s' failure : drain s w all = Some (s', failure) -> lighter s s'.
Proof.
  unfold drain. destruct (drain_loop _ _ _ _ _ _ _) as [[s1 f1]|] eqn:E; [|done]. apply drain_loop_lighter in E.
  cbn [mbind option_bind]. unfold commit_rest. intros Er. transitivity s1; [exact E|].
  destruct (0 <? _); [|by injection Er as <- _].
  pose proof (take_lighter s1 (len (stPending s1))) as Ht. destruct (takePending _ _) as [s2 b].
  pose proof (commit_lighter s2 b) as Hc. destruct (commit s2 b) as [s3 err]. injection Er as <- _.
  etransitivity; [exact Ht|]. exact Hc.
Qed.
Lemma prune_lighter s now : lighter s (prune s now).
Proof.
  unfold prune. destruct PruneForStore as [f|]; [|done]. destruct (f _ _ _ _) as [[? t] []]; [done|]. by destruct (t =? 0).
Qed.

(** A round after which the writer goes on. *)
Lemma round_lighter s w early wake s' : start_round s w early wake = Some (s', true) -> lighter s s'.
Proof.
  unfold start_round. pose proof (pull_lighter s) as Hp. destruct (pull s) as [s1 n]. cbn [fst] in Hp.
  assert (Hd : forall all, ('(s, _) ← drain s1 w all; Some (s, true)) = Some (s', true) -> lighter s s').
  { intros all. destruct (drain s1 w all) as [[s2 f]|] eqn:E; [|done]. intros [= <-]. etransitivity; [exact Hp|by eapply drain_lighter]. }
  destruct early; [apply Hd|]. destruct (_ <=? _); [apply Hd|]. destruct wake; try apply Hd.
  - by destruct (finish s1 w).
  - intros [= <-]. etransitivity; [exact Hp|apply prune_lighter].
  - by intros [= <-].
Qed.

(** Rounds in which the writer would take the end of its context. *)
Definition stop_round (w : Surroundings) : LifeInput := LRound w false WakeStop false false.
Definition takes_stop (i : LifeInput) : bool :=
  match i with LRound _ early WakeStop _ _ => negb early | _ => false end.
Definition stop_rounds (inputs : list LifeInput) : Z := len (List.filter takes_stop inputs).

(** One that does not end it writes a batch at least. *)
Lemma stop_round_weight s w s' offers ch q d :
  balanced s offers ch q d -> stClosed s = true -> start_round s w false WakeStop = Some (s', true) ->
  weight s' + woBatchSize (stOpts s) <= weight s.
Proof.
  intros Hb Hc. assert (Hs : steady s) by (split_and!; [done|apply Hb|by exists q; apply Hb]).
  unfold start_round. pose proof (acc_pull _ _ _ _ _ _ _ Hb) as Hp. pose proof (pull_lighter s) as Hl.
  destruct (pull s) as [s1 n]. cbn [fst] in *. destruct (Hl Hs) as (_ & Ho & Hw).
  destruct (Z.leb_spec (woBatchSize (stOpts s1)) (len (stPending s1))) as [Hfull|_]; [|by destruct (finish s1 w)].
  destruct (acc_drain C (fun _ => True) ltac:(done) s1 w false _ _ _ _ Hp) as (s2 & f & m & E & Hpend & _).
  rewrite E. intros [= <-]. pose proof (drain_partial_queue _ _ _ _ E) as Hq. rewrite Ho in Hfull.
  unfold weight in *. rewrite Hq, Hpend. unfold len in *. cbn [length]. lia.
Qed.

(** What the writer may have to write before it ends. *)
Definition backlog l : Z := weight (slStore l) + len (slChecked l).

Lemma closing_step calm l i rs l' :
  life_inv calm l rs -> slPhase l <> NotClosing -> life_step l i = Some l' ->
  slPhase l' <> NotClosing /\
  (slWriting l' = true -> slWriting l = true /\ stOpts (slStore l') = stOpts (slStore l) /\
   (if takes_stop i then woBatchSize (stOpts (slStore l)) else 0) + backlog l' <= backlog l).
Proof.
  intros (offers & ch & q & d & [Hb _ Hf _ _ _ _]) Hph E. rewrite bool_decide_eq_true_2 in Hf by done.
  assert (Hs : steady (slStore l)) by (split_and!; [done|apply Hb|by exists q; apply Hb]). unfold backlog.
  destruct i as [call now|call now|i now|w early wake by_close expired| | |]; cbn [life_step takes_stop] in *.
  - injection E as <-. split; [done|]. cbn [slWriting slStore slChecked with_store]. intros Hw. unfold Record_.
    rewrite enqueue_closed by apply Hs. by split_and!.
  - rewrite (proj1 (ac_cfg _ _ _ _ _ _ _ Hb)), Hf in E. injection E as <-. by split.
  - destruct (slChecked l !! i) as [r|] eqn:Er; [|done]. injection E as <-. split; [done|].
    cbn [slWriting slStore slChecked with_checked with_store]. intros Hw. split; [done|].
    pose proof (push_rep (stQueue (slStore l)) q r (ac_queue _ _ _ _ _ _ _ Hb)) as Hp.
    apply lookup_lt_Some in Er as Hi. unfold push_record. destruct (push _ r) as [q' ok]. destruct Hp as (Hq' & _).
    assert (Hwt : len (stPending (slStore l)) + Depth q' <= weight (slStore l) + 1).
    { unfold weight. rewrite (rep_depth _ _ Hq'), (rep_depth _ _ (ac_queue _ _ _ _ _ _ _ Hb)).
      unfold len. rewrite length_lastn, length_app. cbn [length]. lia. }
    split; [by destruct ok|]. assert (Hlen : len (delete i (slChecked l)) = len (slChecked l) - 1)
      by (unfold len; rewrite length_delete by (by apply lookup_lt_is_Some_2); lia).
    rewrite Hlen. unfold weight in *. destruct ok; cbn; lia.
  - unfold life_round in E. destruct (slWriting l) eqn:Ew; [|done]. cbn [negb] in E.
    destruct (stops _ _ _ && _); [done|]. destruct (by_close && _) eqn:Eb; [done|].
    destruct (start_round (slStore l) w early wake) as [[s' more]|] eqn:Er; [|done]. cbn [mbind option_bind] in E. injection E as <-.
    split; [by destruct by_close|]. intros Hw.
    assert (more = true) as -> by by destruct by_close. destruct (round_lighter _ _ _ _ _ Er Hs) as (_ & Ho & Hle).
    assert (Hst : takes_stop (LRound w early wake by_close expired) = true ->
      weight s' + woBatchSize (stOpts (slStore l)) <= weight (slStore l)).
    { cbn. destruct wake; try done. intros ->%negb_true_iff. by eapply stop_round_weight. }
    cbn [takes_stop] in Hst. split; [done|]. split; [by destruct by_close|].
    assert (Hck : forall ph e c, len (slChecked (mkStoreLife s' ph true (slChecked l) e c)) = len (slChecked l)) by done.
    destruct wake; [destruct early; [|specialize (Hst eq_refl)]|..]; destruct by_close; cbn; lia.
  - rewrite decide_False in E by done. injection E as <-. by split_and!.
  - destruct (decide _); [|done]. injection E as <-. by split.
  - destruct (decide _) as [Ep|]; [|done]. destruct (slWriting l); [done|]. destruct (RepositoryClose _). injection E as <-.
    by split.
Qed.

Lemma closing_run calm is_ : forall l rs l',
  life_inv calm l rs -> slPhase l <> NotClosing -> life_run l is_ = Some l' ->
  slPhase l' <> NotClosing /\
  (slWriting l' = true -> slWriting l = true /\
     woBatchSize (stOpts (slStore l)) * stop_rounds is_ + backlog l' <= backlog l).
Proof.
  induction is_ as [|i is_ IH]; intros l rs l' Hi Hph E; cbn [life_run] in E.
  { injection E as <-. split; [done|]. intros Hw. split; [done|]. change (stop_rounds []) with 0. lia. }
  destruct (life_step l i) as [l1|] eqn:E1; [|done]. cbn [mbind option_bind] in E.
  destruct (inv_step _ _ _ _ _ Hi E1) as (rs1 & _ & Hi1), (closing_step _ _ _ _ _ Hi Hph E1) as (Hph1 & H1).
  destruct (IH l1 _ l' Hi1 Hph1 E) as (Hph' & H2). split; [done|]. intros Hw. destruct (H2 Hw) as [Hw1 Hle].
  destruct (H1 Hw1) as (Hw0 & Ho & Hle1). split; [done|]. rewrite Ho in Hle.
  assert (Hn : stop_rounds (i :: is_) = (if takes_stop i then 1 else 0) + stop_rounds is_)
    by (unfold stop_rounds, len; cbn [List.filter]; destruct (takes_stop i); cbn [length]; lia).
  rewrite Hn. destruct (takes_stop i); lia.
Qed.

Lemma backlog_nonneg calm l rs : life_inv calm l rs -> 0 <= backlog l.
Proof.
  intros (offers & ch & q & d & [Hb _ _ _ _ _ _]). unfold backlog, weight.
  rewrite (rep_depth _ _ (ac_queue _ _ _ _ _ _ _ Hb)). unfold len. lia.
Qed.

(** A writer whose context has ended can take any case of its loop. *)
Lemma round_enabled calm l rs w early wake :
  life_inv calm l rs -> slPhase l = Joining -> slWriting l = true ->
  exists l', life_step l (LRound w early wake false false) = Some l'.
Proof.
  intros (offers & ch & q & d & [Hb _ _ _ _ _ _]) Ep Ew. cbn [life_step]. unfold life_round. rewrite Ew, Ep.
  cbn [negb andb cancelled]. rewrite andb_false_r.
  destruct (round_spec (slStore l) w early wake _ _ _ _ Hb) as (s' & n & -> & _). by eexists.
Qed.
Lemma release_enabled l :
  slPhase l = Joining -> slWriting l = false ->
  exists l', life_step l LRelease = Some l' /\ slPhase l' = ClosedDown /\ forall e, slErr l = Some e -> slErr l' = Some e.
Proof.
  intros Ep Ew. cbn [life_step]. rewrite Ep, Ew. cbn. destruct (RepositoryClose _). eexists. split_and!; try done.
  by intros e ->.
Qed.
End Life.

Section Theorems.
Context {R : Type} `{Repository R} `{Closer R}.

Lemma life_opened cfg (r0 : R) s0 :
  Open cfg (mkAudited r0 []) = inl s0 -> mcEnabled cfg = true ->
  life_inv (stCfg s0) False (opened s0) [].
Proof.
  intros Ho He. exists [], [], [], 0. split; try done.
  - by apply (acc_open (stCfg s0) (fun _ => True) cfg r0 s0 Ho He eq_refl I).
  - unfold Open in Ho. destruct (mc_validate _); [done|]. by injection Ho as <-.
Qed.

(** C23: Where every record is once [Close] has returned, whatever producers,
    writer and caller did before and did while closing.  No record is pending in
    the writer.  Every record a producer handed over is in exactly one of five
    places: written; in a batch the driver refused twice; counted as dropped; left
    in the queue, where nothing counts it; or held by a producer that passed its
    check of the closed flag and has not pushed yet.  The last two are empty when
    no producer was between check and push as [Close] began and the queue's
    capacity or the batch size is at most 10000 (one pull); otherwise records may
    stay in the queue for ever (see [late_record_lost]).  The driver's own [Close] has run exactly
    once, and whatever happens later no batch is written to it any more. *)
Theorem close_accounts cfg (r0 : R) s0 before after l1 l2 :
  Open cfg (mkAudited r0 []) = inl s0 -> mcEnabled cfg = true ->
  life_run (opened s0) before = Some l1 -> slPhase l1 = NotClosing ->
  life_run l1 (LClose :: after) = Some l2 -> slPhase l2 = ClosedDown ->
  (exists rs ch queued d,
     produced (before ++ LClose :: after) rs /\ history (auLog (stRepo (slStore l2))) ch /\
     queue_rep (stQueue (slStore l2)) queued /\ stPending (slStore l2) = [] /\
     chunk_records ch ++ queued ++ slChecked l2 ⊆+ rs /\
     len rs = d + len (rows_of true ch) + len (rows_of false ch) + len queued + len (slChecked l2) /\ 0 <= d /\
     ctDropped (stCounters (slStore l2)) = i64 d /\
     ctRowsWritten (stCounters (slStore l2)) = i64 (len (rows_of true ch)) /\
     ctWriteFailures (stCounters (slStore l2)) = i64 (failed_batches ch) /\
     (slChecked l1 = [] -> slChecked l2 = [] /\ 
        (mcQueueCapacity (stCfg s0) <= maxDrainPerBatch \/ woBatchSize (stOpts s0) <= maxDrainPerBatch -> queued = []))) /\
  slClosings l2 = 1%nat /\
  (forall later l3, life_run l2 later = Some l3 ->
     auLog (stRepo (slStore l3)) = auLog (stRepo (slStore l2)) /\ slClosings l3 = 1%nat).
Proof.
  intros Ho He Hb Ep1 Ha Ep2.
  destruct (inv_run _ _ _ _ _ _ (life_opened _ _ _ Ho He) Hb) as (rs1 & Hr1 & Hi1).
  assert (Hso : stOpts s0 = startWriter (R := R) (stCfg s0)).
  { destruct (life_opened _ _ _ Ho He) as (? & ? & ? & ? & [Hb0 _ _ _ _ _ _]). apply Hb0. }
  cbn [life_run] in Ha. destruct (life_step l1 LClose) as [l1'|] eqn:Ec; [|done]. cbn [mbind option_bind] in Ha.
  destruct (inv_run _ _ _ _ _ _ (inv_close _ _ _ _ Ep1 Hi1 Ec) Ha) as (rs2 & Hr2 & offers & ch & q & d & Hl).
  destruct Hl as [[_ _ ? _ ? _ Hord Hc ? ? ? ?] Hall _ Hend Hdown Hn Hcalm].
  specialize (Hdown Ep2). destruct (Hend Hdown) as [_ Hp]. rewrite Ep2 in Hn. cbn in Hn.
  split; [|split; [done|]].
  - exists (rs1 ++ rs2), ch, q, d. rewrite Hp in Hord, Hc. split_and!; try done.
    + apply produced_app; [done|by constructor].
    + rewrite <- Hall, app_assoc. apply submseteq_app; [|done]. by apply sublist_submseteq.
    + apply Permutation_length in Hall. rewrite length_app in Hall. rewrite rows_split in Hc.
      unfold len in *. cbn [app length] in *. lia.
    + intros Hk. destruct (Hcalm Hk) as (_ & -> & Hq). split; [done|]. rewrite Hso. by apply Hq.
  - intros later l3 E. destruct (rest_run _ _ _ (conj Ep2 Hdown) E) as (_ & -> & ->). done.
Qed.

(** C24: [Close] returns.  Take any state in which [Close] is under way and any
    run on from there, whatever the driver answers and whichever ready case the
    writer's [select] takes each time.  While the flush of [Close] waits, its
    deadline can pass, and [Close] goes on to wait for the writer.  While it waits
    and the writer runs, the writer's next round returns in every case of the
    loop.  The writer has ended once it would have taken the end of its context
    more often than the batches still to write when the run began: each such round
    either ends it or writes a full batch, of which there are at most the backlog
    over the batch size, since nothing joins a closed store's queue but the records
    of producers already past their check.  And when it has ended, [Close] closes
    the driver and returns, with the error of the deadline if that passed. *)
Theorem close_returns cfg (r0 : R) s0 inputs l after l' :
  Open cfg (mkAudited r0 []) = inl s0 -> mcEnabled cfg = true ->
  life_run (opened s0) inputs = Some l -> slPhase l = Flushing \/ slPhase l = Joining ->
  life_run l after = Some l' ->
  let size := woBatchSize (stOpts (slStore l)) in
  1 <= size /\ 0 <= backlog l /\ slPhase l' <> NotClosing /\
  (slPhase l' = Flushing ->
     exists l2, life_step l' LDeadline = Some l2 /\ slPhase l2 = Joining /\ slErr l2 = Some FlushDeadline) /\
  (slPhase l' = Joining -> slWriting l' = true ->
     forall w early wake, exists l2, life_step l' (LRound w early wake false false) = Some l2) /\
  (backlog l < size * stop_rounds after -> slWriting l' = false) /\
  (slPhase l' = Joining -> slWriting l' = false ->
     exists l2, life_step l' LRelease = Some l2 /\ slPhase l2 = ClosedDown /\
       forall e, slErr l' = Some e -> slErr l2 = Some e).
Proof.
  intros Ho He Hrun Hph Haf size.
  destruct (inv_run _ _ _ _ _ _ (life_opened _ _ _ Ho He) Hrun) as (rs & _ & Hi).
  destruct (inv_run _ _ _ _ _ _ Hi Haf) as (rs' & _ & Hi').
  assert (Hn : slPhase l <> NotClosing) by (destruct Hph as [-> | ->]; done).
  destruct (closing_run _ _ _ _ _ _ Hi Hn Haf) as (Hn' & Hw).
  split_and!; [|by eapply backlog_nonneg|done|..].
  - destruct Hi as (? & ? & ? & ? & [Hb _ _ _ _ _ _]). apply Hb.
  - intros Ep. cbn [life_step]. rewrite decide_True by done. by eexists.
  - intros Ep Ew w early wake. by eapply round_enabled.
  - intros Hlt. destruct (slWriting l') eqn:Ew; [|done]. destruct (Hw eq_refl) as [_ Hle].
    pose proof (backlog_nonneg _ _ _ _ Hi'). unfold size in *. lia.
  - apply release_enabled.
Qed.
End Theorems.

(** ** Opening *)

Section Opening.
Context {R : Type} `{Repository R}.

(** The [init] functions of the two drivers. *)
Definition registered (sqlite memory : Factory R) : Drivers R :=
  RegisterDriver (RegisterDriver [] (txt "sqlite") (Some sqlite)) (txt "memory") (Some memory).

Lemma registered_find sqlite memory :
  find_driver (registered sqlite memory) DriverSQLite = Some sqlite /\
  find_driver (registered sqlite memory) DriverMemory = Some memory.
Proof. done. Qed.

(** With both drivers linked in, a configuration that validates finds its
    driver, and the directory of its file is made before the driver opens it. *)
Theorem OpenStore_spec mkdir_fails sqlite memory cfg :
  let c := mc_withDefaults cfg in
  OpenStore mkdir_fails (registered sqlite memory) cfg =
  match mc_validate c with
  | Some e => (None, inr (OInvalid e))
  | None =>
      if negb (mcEnabled c) then (None, inl None)
      else
        let '(dir, err) := ensureParentDir mkdir_fails (mcDSN c) in
        (dir, match err with
              | Some e => inr e
              | None =>
                  match (if bool_decide (mcDriver c = DriverSQLite) then sqlite else memory) c with
                  | inl repo => match Open cfg repo with inl s => inl (Some s) | inr e => inr (OInvalid e) end
                  | inr e => inr (OFactory e)
                  end
              end)
  end.
Proof.
  intros c. unfold OpenStore. fold c. destruct (mc_validate c) eqn:Ev; [done|].
  destruct (mcEnabled c) eqn:Ee; cbn [negb]; [|done]. unfold openRepository.
  assert (Ef : find_driver (registered sqlite memory) (mcDriver c) =
               Some (if bool_decide (mcDriver c = DriverSQLite) then sqlite else memory)).
  { unfold mc_validate in Ev. rewrite Ee in Ev. cbn [negb] in Ev.
    case_bool_decide as Es; [by rewrite Es|]. case_bool_decide as Em; [by rewrite Em|done]. }
  rewrite Ef. destruct (ensureParentDir mkdir_fails (mcDSN c)) as [dir [e|]]; [done|].
  case_bool_decide; [by destruct (sqlite c)|by destruct (memory c)].
Qed.
End Opening.

(** The driver of [MetricsSpec] that refuses two calls of three. *)
#[local] Instance flaky_repository : Repository Flaky := {
  WriteBatch d _ := (mkFlaky (fkCalls d + 1), if fkCalls d `mod` 3 =? 2 then None else Some DriverFailed);
  PruneForStore := None; ProvideOptions o := o }.
#[local] Instance flaky_closer : Closer Flaky := { RepositoryClose d := (d, None) }.

Example default_directory :
  ensureParentDir (fun _ => false) (txt "./data/pulsetrade.db") = (Some (txt "data"), None) /\
  ensureParentDir (fun _ => false) (txt "pulsetrade.db") = (None, None) /\
  ensureParentDir (fun _ => false) (txt ":memory:") = (None, None) /\
  ensureParentDir (fun _ => false) (txt "/srv//app/../data/./p.db") = (Some (txt "/srv/data"), None).
Proof. by vm_compute. Qed.

(** The directory is made for a driver that has no file as well. *)
Example memory_makes_directory :
  fst (OpenStore (fun _ => false) (registered (fun _ => inr DriverFailed) (fun _ => inl (mkAudited (mkFlaky 0) [])))
         (mkMetricsConfig true DriverMemory (txt "data/unused.db") 0 0 0 false 0 0 0 0 0)) = Some (txt "data").
Proof. by vm_compute. Qed.

(** ** Runs *)

Definition small_store : MetricsConfig := mkMetricsConfig true DriverMemory [] 4 3 0 false 0 0 0 0 0.
Definition recorded (n : Z) : LifeInput := LRecord (demo_event n) (unixNanos n).
(** A request answered in time, then the writer's end. *)
Definition closing : list LifeInput :=
  [recorded 4; LRound quiet true WakeTimer true false; LRound quiet false WakeStop false false; LRelease].

Lemma close_accounts_witness :
  exists s0, Open small_store (mkAudited (mkFlaky 0) []) = inl s0 /\
  exists l1 l2, life_run (opened s0) [recorded 1; recorded 2; recorded 3] = Some l1 /\
    life_run l1 (LClose :: closing) = Some l2 /\
    (exists queued, queue_rep (stQueue (slStore l2)) queued /\ queued = []) /\ slClosings l2 = 1%nat /\
    ctDropped (stCounters (slStore l2)) = 1 /\ ctWriteFailures (stCounters (slStore l2)) = 1.
Proof.
  eexists. split; [reflexivity|]. eexists. eexists. split; [vm_compute; reflexivity|].
  split; [vm_compute; reflexivity|].
  destruct (close_accounts small_store (mkFlaky 0) _ [recorded 1; recorded 2; recorded 3] closing _ _
    eq_refl eq_refl ltac:(vm_compute; reflexivity) eq_refl
    ltac:(vm_compute; reflexivity) eq_refl)
    as ((rs & ch & queued & d & _ & _ & Hq & _ & _ & _ & _ & _ & _ & _ & Hcalm) & Hn & _).
  split; [exists queued; split; [exact Hq|exact (proj2 (Hcalm eq_refl) ltac:(left; vm_compute; discriminate))]|]. split; [exact Hn|]. split; reflexivity.
Defined.

(** The deadline passes, the timer fires once more, then the writer takes the
    end of its context: one such round is more than a backlog of one record over
    batches of three. *)
Definition late_close : list LifeInput := [LDeadline; LRound quiet false WakeTimer false false; stop_round quiet].
Lemma close_returns_witness :
  exists s0, Open small_store (mkAudited (mkFlaky 0) []) = inl s0 /\
  exists l l', life_run (opened s0) [recorded 1; LClose] = Some l /\ life_run l late_close = Some l' /\
    backlog l = 1 /\ slWriting l' = false /\
    exists l2, life_step l' LRelease = Some l2 /\ slPhase l2 = ClosedDown /\ slErr l2 = Some FlushDeadline.
Proof.
  eexists. split; [reflexivity|]. eexists. eexists. split; [vm_compute; reflexivity|]. split; [vm_compute; reflexivity|].
  destruct (close_returns small_store (mkFlaky 0) _ [recorded 1; LClose] _ late_close _
    eq_refl eq_refl ltac:(vm_compute; reflexivity) ltac:(by left) ltac:(vm_compute; reflexivity))
    as (_ & _ & _ & _ & _ & Hend & Hrel).
  specialize (Hend ltac:(vm_compute; reflexivity)). destruct (Hrel eq_refl Hend) as (l2 & E & Ed & Herr).
  split; [reflexivity|]. split; [exact Hend|]. exists l2. split; [exact E|]. split; [exact Ed|exact (Herr _ eq_refl)].
Defined.

(** A producer between its check and its push when the store closes: its record
    stays in the queue for ever and is counted nowhere. *)
Example late_record_lost :
  exists s0 l, Open small_store (mkAudited (mkFlaky 2) []) = inl s0 /\
    life_run (opened s0) [LLoad (demo_event 1) (unixNanos 1); LClose; LRound quiet true WakeTimer true false;
                          LRound quiet false WakeStop false false; LRelease; LPush 0 (unixNanos 2)] = Some l /\
    slPhase l = ClosedDown /\ Depth (stQueue (slStore l)) = 1 /\ auLog (stRepo (slStore l)) = [] /\
    stCounters (slStore l) = mkCounters 0 0 0 0 3 0.
Proof. eexists. eexists. split; [reflexivity|]. split; [vm_compute; reflexivity|]. by vm_compute. Qed.

(** A batch lost in the last drain is counted, but [Close] reports success. *)
Example finish_failure_unreported :
  exists s0 l, Open small_store (mkAudited (mkFlaky 0) []) = inl s0 /\
    life_run (opened s0) [LLoad (demo_event 1) (unixNanos 1); LClose; LRound quiet true WakeTimer true false;
                          LPush 0 (unixNanos 2); LRound quiet false WakeStop false false; LRelease] = Some l /\
    slErr l = None /\ ctWriteFailures (stCounters (slStore l)) = 1.
Proof. eexists. eexists. split; [reflexivity|]. split; [vm_compute; reflexivity|]. by vm_compute. Qed.
