(* ===== verification/SqliteOpen.v ===== *)
(** * Opening the SQLite database: [Open] of [sqlite/repository.go]

    The name of the database carries the pragmas the driver applies to its
    connection; [applyPragmas] repeats and checks some of them, and the
    migrations follow.  The driver and [database/sql] are the class
    [SqlDriver], which [Migrate] extends with the schema.  The theorems say what
    the driver reads from the name and that a database is opened whole or not at
    all. *)

From Stdlib Require Import Ascii.
From S2P Require Import Prelude GoTime Decimal Strconv StableSort TimeTextSpec Json JsonText Metrics Migrate.

(** ** [net/url] *)

(** [shouldEscape] of a query component. *)
Definition unreserved (c : ascii) : bool :=
  byte_in 48 57 [c] || byte_in 65 90 [c] || byte_in 97 122 [c] || bool_decide (c ∈ txt "-_.~").
Definition upper_hex (n : N) : ascii := ascii_of_N (if n <? 10 then 48 + n else 55 + n)%N.
Definition space : ascii := " "%char.
Definition escape_one (c : ascii) : text :=
  if unreserved c then [c]
  else if bool_decide (c = space) then ["+"%char]
  else ["%"%char; upper_hex (code c / 16); upper_hex (code c mod 16)].
Definition QueryEscape (s : text) : text := flat_map escape_one s.

(** [None] is an invalid escape. *)
Fixpoint QueryUnescape (s : text) : option text :=
  match s with
  | [] => Some []
  | c :: s =>
      if bool_decide (c = "%"%char) then
        match s with
        | a :: b :: s => a ← hex_digit a; b ← hex_digit b; r ← QueryUnescape s; Some (ascii_of_N (a * 16 + b) :: r)
        | _ => None
        end
      else r ← QueryUnescape s; Some ((if bool_decide (c = "+"%char) then space else c) :: r)
  end.

(** [url.Values] with the keys in the order of their first use. *)
Definition Values : Type := list (text * list text).
Fixpoint values_add (key value : text) (v : Values) : Values :=
  match v with
  | [] => [(key, [value])]
  | (k, vs) :: v => if decide (k = key) then (k, vs ++ [value]) :: v else (k, vs) :: values_add key value v
  end.
Fixpoint values_set (key value : text) (v : Values) : Values :=
  match v with
  | [] => [(key, [value])]
  | (k, vs) :: v => if decide (k = key) then (k, [value]) :: v else (k, vs) :: values_set key value v
  end.
Definition key_less (a b : text * list text) : bool := text_ltb (fst a) (fst b).
(** The pairs [Encode] writes, in order. *)
Definition pairs_of (v : Values) : list (text * text) :=
  flat_map (fun e => map (pair (fst e)) (snd e)) (stable_sort key_less v).
Definition encode_pair (p : text * text) : text := QueryEscape (fst p) ++ "="%char :: QueryEscape (snd p).
Fixpoint join_pairs (ps : list (text * text)) : text :=
  match ps with [] => [] | [p] => encode_pair p | p :: ps => encode_pair p ++ "&"%char :: join_pairs ps end.
Definition Encode (v : Values) : text := join_pairs (pairs_of v).

(** ** [buildDSN] *)

Definition dsn_values : Values :=
  let v := values_set (txt "_txlock") (txt "immediate") [] in
  let v := values_add (txt "_pragma") (txt "busy_timeout(5000)") v in
  let v := values_add (txt "_pragma") (txt "journal_mode(WAL)") v in
  let v := values_add (txt "_pragma") (txt "synchronous(NORMAL)") v in
  let v := values_add (txt "_pragma") (txt "foreign_keys(ON)") v in
  let v := values_add (txt "_pragma") (txt "temp_store(MEMORY)") v in
  values_add (txt "_pragma") (txt "mmap_size(67108864)") v.
Definition buildDSN (path : text) : text := txt "file:" ++ path ++ "?"%char :: Encode dsn_values.

(** ** The driver *)

(** A query of one row answers its text, or [None] for an error. *)
Class SqlDriver (D : Type) := {
  drOpen : text -> option D;
  drQuery : D -> text -> D * option text;
  drExec : D -> text -> D * bool;
  drPing : D -> bool;
  drClose : D -> D * bool }.

Inductive SqliteError :=
| EPathRequired | EOpen | EJournal | EJournalMode (mode : text) | EPragma (stmt : text) | EMigrate (e : MigrateError)
| EClosed | EPing | EClose | ECheckpoint.

Record Repository_ (D : Type) := mkRepository { rpDB : D; rpPath : text; rpVersion : Z; rpClosed : bool }.
Arguments mkRepository {D}. Arguments rpDB {D}. Arguments rpPath {D}. Arguments rpVersion {D}. Arguments rpClosed {D}.

Section Open.
Context (checksum : text -> text) {D : Type} `{SqlDriver D} `{SchemaDB D}.

Definition lower_ascii (c : ascii) : ascii := if byte_in 65 90 [c] then ascii_of_N (code c + 32) else c.
(** [strings.EqualFold] with an ASCII word none of whose letters folds to
    anything else. *)
Definition EqualFold (s word : text) : bool := bool_decide (map lower_ascii s = word).

Definition journal_stmt : text := txt "PRAGMA journal_mode=WAL".
Definition pragma_stmts : list text :=
  map txt ["PRAGMA synchronous=NORMAL"; "PRAGMA busy_timeout=5000"; "PRAGMA foreign_keys=ON"; "PRAGMA temp_store=MEMORY"]%string.

Fixpoint exec_all (d : D) (stmts : list text) : D * option SqliteError :=
  match stmts with
  | [] => (d, None)
  | stmt :: stmts =>
      let '(d, ok) := drExec d stmt in
      if ok : bool then exec_all d stmts else (d, Some (EPragma stmt))
  end.
Definition applyPragmas (d : D) : D * option SqliteError :=
  match drQuery d journal_stmt with
  | (d, None) => (d, Some EJournal)
  | (d, Some journal) =>
      if EqualFold journal (txt "wal") then exec_all d pragma_stmts else (d, Some (EJournalMode journal))
  end.

(** [Open]; [Some d] is the handle it leaves behind, closed when it fails. *)
Definition Open (entries : list dirEntry) (now : Z -> Time) (path : text) : option D * (Repository_ D + SqliteError) :=
  match TrimSpace path with
  | [] => (None, inr EPathRequired)
  | _ =>
      match drOpen (buildDSN path) with
      | None => (None, inr EOpen)
      | Some d =>
          match applyPragmas d with
          | (d, Some e) => (Some (fst (drClose d)), inr e)
          | (d, None) =>
              match migrate checksum entries now d with
              | (d, inr e) => (Some (fst (drClose d)), inr (EMigrate e))
              | (d, inl version) => (Some d, inl (mkRepository d path version false))
              end
          end
      end
  end.

Definition with_handle (r : Repository_ D) (d : D) (closed : bool) : Repository_ D :=
  mkRepository d (rpPath r) (rpVersion r) closed.
Definition SchemaVersion (r : Repository_ D) : Z := rpVersion r.
Definition Path (r : Repository_ D) : text := rpPath r.
Definition Ping (r : Repository_ D) : option SqliteError :=
  if rpClosed r then Some EClosed else if drPing (rpDB r) then None else Some EPing.
Definition Checkpoint (r : Repository_ D) : Repository_ D * option SqliteError :=
  let '(d, ok) := drExec (rpDB r) (txt "PRAGMA wal_checkpoint(TRUNCATE)") in
  (with_handle r d (rpClosed r), if ok : bool then None else Some ECheckpoint).
Definition Close (r : Repository_ D) : Repository_ D * option SqliteError :=
  if rpClosed r then (r, None)
  else
    let '(d, ok) := drClose (rpDB r) in
    (with_handle r d true, if ok : bool then None else Some EClose).
End Open.

(** ** Queries read back *)

Definition ampersand : ascii := "&"%char.
Definition equals : ascii := "="%char.

Fixpoint split_at_byte (sep : ascii) (cur s : text) : list text :=
  match s with
  | [] => [cur]
  | c :: s => if decide (c = sep) then cur :: split_at_byte sep [] s else split_at_byte sep (cur ++ [c]) s
  end.
Definition parse_pair (s : text) : option (text * text) :=
  let '(k, v) := match Cut s equals with Some kv => kv | None => (s, []) end in
  k ← QueryUnescape k; v ← QueryUnescape v; Some (k, v).
(** [url.ParseQuery], the pairs in order. *)
Definition ParseQuery (s : text) : option (list (text * text)) :=
  if bool_decide (";"%char ∈ s) then None
  else mapM parse_pair (List.filter (fun e => negb (bool_decide (e = []))) (split_at_byte ampersand [] s)).

Lemma unescape_step c rest : QueryUnescape (escape_one c ++ rest) = (r ← QueryUnescape rest; Some (c :: r)).
Proof. destruct c as [[] [] [] [] [] [] [] []]; reflexivity. Qed.

(** Nothing is lost by escaping. *)
Lemma unescape_escape s : QueryUnescape (QueryEscape s) = Some s.
Proof.
  induction s as [|c s IH]; [done|]. unfold QueryEscape in *. cbn [flat_map]. by rewrite unescape_step, IH.
Qed.

Definition plain (c : ascii) : Prop := c <> ampersand /\ c <> equals /\ c <> ";"%char.
Lemma escape_one_plain c : Forall plain (escape_one c).
Proof.
  apply Forall_forall. unfold plain, ampersand, equals.
  destruct c as [[] [] [] [] [] [] [] []]; cbn; intros x Hx;
    repeat (apply elem_of_cons in Hx as [->|Hx]; [by split_and!|]); by apply elem_of_nil in Hx.
Qed.
Lemma escape_plain s : Forall plain (QueryEscape s).
Proof.
  induction s as [|c s IH]; [constructor|]. unfold QueryEscape in *. cbn [flat_map].
  apply Forall_app. split; [apply escape_one_plain|done].
Qed.

Lemma cut_plain s rest sep : Forall (fun c => c <> sep) s -> Cut (s ++ sep :: rest) sep = Some (s, rest).
Proof.
  induction 1 as [|c s Hc _ IH]; cbn [app Cut].
  - by rewrite Ascii.eqb_refl.
  - rewrite (proj2 (Ascii.eqb_neq _ _) Hc), IH. done.
Qed.
Lemma split_plain sep cur s rest :
  Forall (fun c => c <> sep) s ->
  split_at_byte sep cur (s ++ sep :: rest) = (cur ++ s) :: split_at_byte sep [] rest.
Proof.
  intros Hs. revert cur. induction Hs as [|c s Hc _ IH]; intros cur; cbn [app split_at_byte].
  - by rewrite decide_True, app_nil_r.
  - rewrite decide_False by done. rewrite IH. by rewrite <- app_assoc.
Qed.
Lemma split_end sep cur s : Forall (fun c => c <> sep) s -> split_at_byte sep cur s = [cur ++ s].
Proof.
  intros Hs. revert cur. induction Hs as [|c s Hc _ IH]; intros cur; cbn [split_at_byte]; [by rewrite app_nil_r|].
  rewrite decide_False by done. rewrite IH. by rewrite <- app_assoc.
Qed.

Lemma pair_bytes p : Forall (fun c => c <> ampersand /\ c <> ";"%char) (encode_pair p) /\ encode_pair p <> [].
Proof.
  unfold encode_pair. split; [|by destruct (QueryEscape (fst p))].
  apply Forall_app. split; [|constructor; [done|]];
    (eapply Forall_impl; [apply escape_plain|]; by intros c (? & ? & ?)).
Qed.
Lemma parse_pair_encode p : parse_pair (encode_pair p) = Some p.
Proof.
  destruct p as [k v]. unfold parse_pair, encode_pair. cbn [fst snd].
  rewrite (cut_plain (QueryEscape k)) by (eapply Forall_impl; [apply escape_plain|]; by intros c (? & ? & ?)).
  by rewrite !unescape_escape.
Qed.

Lemma split_join ps : ps <> [] -> split_at_byte ampersand [] (join_pairs ps) = map encode_pair ps.
Proof.
  induction ps as [|p ps IH]; [done|]. intros _. destruct (pair_bytes p) as [Hb _].
  assert (Hs : Forall (fun c => c <> ampersand) (encode_pair p)) by (eapply Forall_impl; [exact Hb|]; by intros c [? ?]).
  destruct ps as [|q ps]; [by apply split_end|].
  change (join_pairs (p :: q :: ps)) with (encode_pair p ++ ampersand :: join_pairs (q :: ps)).
  rewrite split_plain by done. by rewrite IH.
Qed.

(** The pairs written are the pairs read. *)
Lemma parse_join ps : ParseQuery (join_pairs ps) = Some ps.
Proof.
  destruct ps as [|p0 ps0]; [done|]. unfold ParseQuery. set (ps := p0 :: ps0).
  rewrite bool_decide_eq_false_2.
  - rewrite split_join by done. clearbody ps. induction ps as [|p ps IH]; [done|]. cbn [map List.filter].
    rewrite bool_decide_eq_false_2 by apply pair_bytes. cbn [negb mapM]. rewrite parse_pair_encode. cbn [mbind option_bind].
    by rewrite IH.
  - clearbody ps. assert (Hno : Forall (fun c => c <> ";"%char) (join_pairs ps)).
    { induction ps as [|p ps IH]; [constructor|]. destruct (pair_bytes p) as [Hb _].
      assert (Hs : Forall (fun c => c <> ";"%char) (encode_pair p)) by (eapply Forall_impl; [exact Hb|]; by intros c [? ?]).
      destruct ps as [|q ps]; [done|].
      change (join_pairs (p :: q :: ps)) with (encode_pair p ++ ampersand :: join_pairs (q :: ps)).
      apply Forall_app. split; [done|]. by constructor. }
    intros Hin. rewrite Forall_forall in Hno. by apply (Hno _ Hin).
Qed.

(** What the driver reads from the name: the file, and every setting; as long
    as the path has no question mark of its own. *)
Theorem dsn_read path :
  Forall (fun c => c <> "?"%char) path ->
  exists q, Cut (buildDSN path) "?"%char = Some (txt "file:" ++ path, q) /\
    ParseQuery q = Some
      (map (fun s => (txt "_pragma", txt s))
         ["busy_timeout(5000)"; "journal_mode(WAL)"; "synchronous(NORMAL)"; "foreign_keys(ON)"; "temp_store(MEMORY)";
          "mmap_size(67108864)"]%string ++ [(txt "_txlock", txt "immediate")]).
Proof.
  intros Hp. exists (Encode dsn_values). split.
  - unfold buildDSN. rewrite app_assoc. apply cut_plain. apply Forall_app. split; [|done]. by repeat constructor.
  - unfold Encode. rewrite parse_join. f_equal.
Qed.
Example question_mark_splits_path :
  fst <$> Cut (buildDSN (txt "data/what?.db")) "?"%char = Some (txt "file:data/what").
Proof. reflexivity. Qed.

(** ** Watching a connection *)

(** The statements it was sent, each with whether it succeeded, and how often it
    was closed. *)
Record Traced (D : Type) := mkTraced { tcInner : D; tcDone : list (text * bool); tcClosed : nat }.
Arguments mkTraced {D}. Arguments tcInner {D}. Arguments tcDone {D}. Arguments tcClosed {D}.

#[export] Instance traced_driver {D} `{SqlDriver D} : SqlDriver (Traced D) := {|
  drOpen name := d ← drOpen name; Some (mkTraced d [] 0);
  drQuery t stmt := let '(d, row) := drQuery (tcInner t) stmt in (mkTraced d (tcDone t ++ [(stmt, match row with Some _ => true | None => false end)]) (tcClosed t), row);
  drExec t stmt := let '(d, ok) := drExec (tcInner t) stmt in (mkTraced d (tcDone t ++ [(stmt, ok)]) (tcClosed t), ok);
  drPing t := drPing (tcInner t);
  drClose t := let '(d, ok) := drClose (tcInner t) in (mkTraced d (tcDone t) (S (tcClosed t)), ok) |}.
#[export] Instance traced_schema {D} `{SchemaDB D} : SchemaDB (Traced D) := {|
  sdCreate t := let '(d, ok) := sdCreate (tcInner t) in (mkTraced d (tcDone t) (tcClosed t), ok);
  sdApplied t := sdApplied (tcInner t);
  sdExec t s := let '(d, ok) := sdExec (tcInner t) s in (mkTraced d (tcDone t) (tcClosed t), ok) |}.

Section Contract.
Context (checksum : text -> text) {D : Type} `{SqlDriver D} `{SchemaDB D}.
Implicit Types t : Traced D.

Definition on_inner t (d : D) : Traced D := mkTraced d (tcDone t) (tcClosed t).

Lemma migrate_loop_traced applied now files : forall t version,
  migrate_loop applied now files t version =
  (on_inner t (fst (migrate_loop applied now files (tcInner t) version)), snd (migrate_loop applied now files (tcInner t) version)).
Proof.
  induction files as [|m files IH]; intros t version; cbn [migrate_loop]; [by destruct t|].
  destruct (applied !! mgVersion m) as [c|].
  { case_bool_decide; [apply IH|by destruct t]. }
  unfold applyMigration. cbn [sdExec traced_schema]. destruct (sdExec (tcInner t) _) as [d1 [|]].
  - rewrite IH. done.
  - cbn [tcInner tcDone tcClosed]. by destruct (sdExec d1 _) as [d2 b].
Qed.
Lemma migrate_traced entries now t :
  migrate checksum entries now t =
  (on_inner t (fst (migrate checksum entries now (tcInner t))), snd (migrate checksum entries now (tcInner t))).
Proof.
  unfold migrate. cbn [sdCreate traced_schema]. destruct (sdCreate (tcInner t)) as [d [|]]; cbv beta iota zeta; cbn [negb]; [|done].
  cbn [sdApplied traced_schema tcInner]. destruct (sdApplied d) as [applied|]; [|done].
  destruct (migrationFiles checksum entries) as [files|e]; [|done]. by rewrite migrate_loop_traced.
Qed.

Definition wanted : list text := journal_stmt :: pragma_stmts.
Definition succeeded (stmts : list text) : list (text * bool) := map (fun stmt => (stmt, true)) stmts.

(** What had been sent when an error was returned: every statement before the
    one that failed, successfully, and none after it. *)
Definition failed_at (e : SqliteError) (sent : list (text * bool)) : Prop :=
  match e with
  | EJournal => sent = [(journal_stmt, false)]
  | EJournalMode mode => sent = [(journal_stmt, true)] /\ EqualFold mode (txt "wal") = false
  | EPragma stmt => exists before after, wanted = before ++ stmt :: after /\ sent = succeeded before ++ [(stmt, false)]
  | EMigrate _ => sent = succeeded wanted
  | _ => False
  end.

Lemma exec_all_traced stmts : forall t,
  let '(t', err) := exec_all t stmts in
  tcClosed t' = tcClosed t /\
  match err with
  | None => tcDone t' = tcDone t ++ succeeded stmts
  | Some e => exists before stmt after, e = EPragma stmt /\ stmts = before ++ stmt :: after /\
                tcDone t' = tcDone t ++ succeeded before ++ [(stmt, false)]
  end.
Proof.
  induction stmts as [|stmt stmts IH]; intros t; cbn [exec_all].
  { split; [done|]. by rewrite app_nil_r. }
  cbn [drExec traced_driver]. destruct (drExec (tcInner t) stmt) as [d [|]].
  - specialize (IH (mkTraced d (tcDone t ++ [(stmt, true)]) (tcClosed t))). destruct (exec_all _ stmts) as [t' [e|]];
      cbn [tcClosed tcDone] in IH; destruct IH as [Hc Hd]; (split; [done|]).
    + destruct Hd as (before & s' & after & -> & -> & ->). exists (stmt :: before), s', after. by rewrite <- app_assoc.
    + by rewrite Hd, <- app_assoc.
  - split; [done|]. by exists [], stmt, stmts.
Qed.

(** The settings succeed only as a whole, on a connection whose journal is a
    write-ahead log. *)
Lemma applyPragmas_traced t :
  tcDone t = [] ->
  let '(t', err) := applyPragmas t in
  tcClosed t' = tcClosed t /\
  match err with
  | Some e => failed_at e (tcDone t')
  | None => tcDone t' = succeeded wanted /\
      exists d mode, drQuery (tcInner t) journal_stmt = (d, Some mode) /\ EqualFold mode (txt "wal") = true
  end.
Proof.
  intros Ht. unfold applyPragmas. cbn [drQuery traced_driver].
  destruct (drQuery (tcInner t) journal_stmt) as [d row]. rewrite Ht. cbn [app].
  destruct row as [mode|]; [|done]. destruct (EqualFold mode (txt "wal")) eqn:Em; [|done].
  pose proof (exec_all_traced pragma_stmts (mkTraced d [(journal_stmt, true)] (tcClosed t))) as He.
  destruct (exec_all _ pragma_stmts) as [t' [e|]]; cbn [tcClosed tcDone] in He; destruct He as [Hc Hd]; (split; [done|]).
  - destruct Hd as (before & stmt & after & -> & Hs & ->). exists (journal_stmt :: before), after. split; [|done].
    unfold wanted. by rewrite Hs.
  - split; [exact Hd|]. by exists d, mode.
Qed.

(** C30: A database is opened whole or not at all.  A blank path and a name the
    driver refuses leave no connection.  Otherwise the connection is set up by
    the five statements, in order; a repository is returned only when each of
    them was answered without an error, the journal is a write-ahead log and
    every migration went through, and it then holds the open connection and the
    version the migrations reached; the error says what failed: everything
    before it had succeeded, nothing that comes later was tried, and the
    connection is closed once.  A repository closed twice closes its
    connection once and does not answer a ping. *)
Theorem open_contract entries now path :
  match Open checksum entries now path with
  | (None, result) => result = inr EPathRequired /\ TrimSpace path = [] \/ result = inr EOpen
  | (Some t, inr e) => tcClosed t = 1%nat /\ failed_at e (tcDone t)
  | (Some t, inl r) =>
      rpDB r = t /\ Path r = path /\ tcClosed t = 0%nat /\ tcDone t = succeeded wanted /\
      (exists d0 d mode, drOpen (buildDSN path) = Some d0 /\ drQuery d0 journal_stmt = (d, Some mode) /\ EqualFold mode (txt "wal") = true) /\
      (exists d, migrate checksum entries now d = (tcInner t, inl (SchemaVersion r))) /\
      let '(r1, _) := Close r in
      let '(r2, again) := Close r1 in
      tcClosed (rpDB r2) = 1%nat /\ again = None /\ Ping r1 = Some EClosed
  end.
Proof.
  unfold Open. destruct (TrimSpace path) as [|c0 p0]; [by left|]. cbn [drOpen traced_driver].
  destruct (drOpen (buildDSN path)) as [d|] eqn:Eo; [|by right]. cbn [mbind option_bind].
  pose proof (applyPragmas_traced (mkTraced d [] 0) eq_refl) as Hp.
  destruct (applyPragmas _) as [t err]. destruct Hp as (Hc & Hok). cbn [tcClosed tcInner] in *. destruct err as [e|].
  { cbn [drClose traced_driver]. destruct (drClose (tcInner t)) as [d' ok]. cbn. by rewrite Hc. }
  destruct Hok as (Hw & d1 & mode & Hq & Hm). rewrite migrate_traced.
  destruct (migrate checksum entries now (tcInner t)) as [d2 [version|e]] eqn:Em; cbn [fst snd].
  - cbn [on_inner tcInner tcClosed tcDone rpDB Path rpPath SchemaVersion rpVersion]. split_and!; try done; [by exists d, d1, mode|by exists (tcInner t)|].
    unfold Close. cbn [rpClosed rpDB drClose traced_driver on_inner tcInner tcClosed tcDone].
    destruct (drClose d2) as [d3 ok]. cbn. by rewrite Hc.
  - cbn [drClose traced_driver on_inner tcInner tcClosed tcDone]. destruct (drClose d2) as [d3 ok]. cbn. by rewrite Hc.
Qed.
End Contract.

(** ** Runs *)

(** A connection that says what its journal is. *)
Record Fake := mkFake { fkJournal : text; fkSchema : gmap Z text }.
#[local] Instance fake_driver : SqlDriver Fake := {|
  drOpen _ := Some (mkFake (txt "WAL") ∅);
  drQuery d _ := (d, Some (fkJournal d)); drExec d _ := (d, true); drPing _ := true; drClose d := (d, true) |}.
#[local] Instance fake_schema : SchemaDB Fake := {|
  sdCreate d := (d, true);
  sdApplied d := Some (fkSchema d);
  sdExec d l :=
    match l with
    | [SqlBegin; SqlText s; SqlRecord v _ c; SqlCommit] => (mkFake (fkJournal d) (<[v := c]> (fkSchema d)), true)
    | _ => (d, true)
    end |}.
Definition after_open (path : string) : option (nat * nat) * option Z :=
  let '(handle, result) := Open (D := Traced Fake) Inputs.hash Inputs.embedded (fun _ => unixNanos 0) (txt path) in
  ((fun t => (length (tcDone t), tcClosed t)) <$> handle, match result with inl r => Some (SchemaVersion r) | inr _ => None end).
Example open_runs :
  after_open "data/pulsetrade.db" = (Some (5, 0)%nat, Some 2) /\ after_open "  " = (None, None).
Proof. by vm_compute. Qed.
