(* ===== verification/SessionStore.v ===== *)
(** * What a session did is what the store says about it

    The life of a session ([SessionRun]) hands rows to the recorder and moves the
    counters of the process; the store ([MetricsStore]) brings the rows to its
    driver, among everybody else's records, and the registry ([Obs]) adds up what
    all sessions count.  This file puts them together: the rows of a session over
    the in-memory driver, and the counter of connections over many lives. *)

From S2P Require Import Prelude Money Decimal GoTime Domain Float64 Rand Book Candles Bus Engine Registry.
From S2P Require Import Json Protocol Wire Tier TierSpec Coalesce Metrics MetricsStore MetricsSpec MemoryRepo MemorySpec Session SessionLoop SessionRun SessionRunSpec.
From S2P Require SessionSpec Obs.

(** ** The calls of a session on its recorder *)

(** What a call adds to an effect: the reading of the clock, the text of its
    detail, and how long taking a snapshot took. *)
Record Reading := mkReading { rdNow : Time; rdDetail : string; rdTook : Z }.
Definition ScopeSession : string := "SESSION".

Definition recordBookEvent (id : string) (rd : Reading) (event : string) (epoch from to gap attempt : Z) : RecordCall :=
  RecordBookEvent (mkBookRow (rdNow rd) id ScopeSession event epoch from to gap 0 attempt).
(** The call of [sendSnapshot] is its own: it has a duration. *)
Definition record_snapshot (id : string) (rd : Reading) (event : string) (epoch to : Z) : RecordCall :=
  RecordBookEvent (mkBookRow (rdNow rd) id ScopeSession event epoch 0 to 0 (rdTook rd) 0).
Definition recordProtocolEvent (id : string) (rd : Reading) (kind : string) : RecordCall :=
  RecordProtocolEvent (mkProtocolRow (rdNow rd) id kind (rdDetail rd) 1).
Definition recordFault (id : string) (rd : Reading) (fault : string) : RecordCall :=
  RecordFaultInjection (mkFaultRow (rdNow rd) id fault (rdDetail rd) true).
Definition transition_row (id : string) (t : TierTransition) (override : string) : TierTransitionRow :=
  mkTierRow id (ttAt t) (Tier_String (ttFrom t)) (Tier_String (ttTo t)) (Reason_String (ttReason t))
    (ttRTTMs t) (ttJitterMs t) (ttStreak t) override.
Definition window_row (id : string) (started : Time) (w : deliveryWindow) (ms : Z) (tier : DeliveryTier)
    (target effective : float64) : DeliveryWindowRow :=
  mkWindowRow id started ms (Tier_String tier) target effective (dwCandleUpdates w) (dwTradeMessages w)
    (dwBookDeltas w) (dwHealthMessages w) (dwCoalesced w) (dwSuppressed w) (dwBytes w).

Definition effect_call (id : string) (rd : Reading) (e : SEffect) : option RecordCall :=
  match e with
  | ERecHealthReport rtt jitter age band => Some (RecordHealthReport (mkHealthRow id (rdNow rd) rtt jitter age band))
  | ERecLatency seq rtt jitter samples clientTime capped missed =>
      Some (RecordLatency (mkLatency id seq rtt jitter samples clientTime (rdNow rd) capped missed))
  | ERecTransition t override => Some (RecordTierTransition (transition_row id t override))
  | ERecWindow started w ms tier target effective =>
      Some (RecordDeliveryWindow (window_row id started w ms tier target effective))
  | ERecBook event epoch from to gap =>
      Some (if bool_decide (event = "SNAPSHOT_APPLIED"%string) then record_snapshot id rd event epoch to
            else recordBookEvent id rd event epoch from to gap 0)
  | ERecProtocol kind => Some (recordProtocolEvent id rd kind)
  | ERecFault fault => Some (recordFault id rd fault)
  | EBusSubscribe _ _ _ | EBusUnsubscribe _ | EOnHello _ | ECount _ _ | EGauge _ _ => None
  end.
Definition live_call (id : string) (rd : Reading) (e : LiveEffect) : option RecordCall :=
  match e with
  | LStart row => Some (RecordSessionStart row)
  | LEnd row => Some (RecordSessionEnd row)
  | LSession e => effect_call id rd e
  end.
(** The calls of a life, the i-th effect with the i-th reading. *)
Definition live_calls (id : string) (rd : nat -> Reading) (es : list LiveEffect) : list RecordCall :=
  omap (fun c => c) (imap (fun i => live_call id (rd i)) es).

(** The session rows they put into the queue, whenever they are made. *)
Definition session_writes (id : string) (rd : nat -> Reading) (now : Time) (es : list LiveEffect) : list SessionWrite :=
  omap session_of (map (fun c => record_of c now) (live_calls id rd es)).
Lemma session_writes_rows id rd now es :
  session_writes id rd now es = map (fun r => mkSessionWrite (fst r) (snd r)) (rows es).
Proof.
  unfold session_writes, live_calls, rows. revert rd. induction es as [|e es IH]; intros rd; [done|].
  rewrite imap_cons. specialize (IH (rd ∘ S)). destruct e as [e|row|row]; cbn; [|by f_equal..].
  destruct e; cbn; try exact IH. case_bool_decide; exact IH.
Qed.

(** ** The rows are its own *)

Definition call_session (c : RecordCall) : option string :=
  match c with
  | RecordLatency v => Some (lsSessionID v) | RecordHealthReport v => Some (hwSessionID v)
  | RecordTierTransition v => Some (twSessionID v) | RecordDeliveryWindow v => Some (wwSessionID v)
  | RecordBookEvent v => Some (bwSessionID v) | RecordProtocolEvent v => Some (pwSessionID v)
  | RecordSessionStart v | RecordSessionEnd v => Some (srSessionID v)
  | RecordFaultInjection v => Some (fwSessionID v)
  | RecordEngineEvent _ | RecordCandleClose _ => None
  end.
Lemma effect_call_session id rd e c : effect_call id rd e = Some c -> call_session c = Some id.
Proof. destruct e; cbn; try done; try case_bool_decide; by intros [= <-]. Qed.

(** ** One row, of the right kind *)

Lemma outcome_alone id ws ws' : writes_of id ws = ws' -> session_outcome id ws = fold_left session_step ws' None.
Proof. unfold session_outcome. by intros ->. Qed.

Lemma closed_row id n r r' : start_row id r -> end_row id n r' -> end_row id n (close_row r r').
Proof. intros [Hi _] (_ & [t Ht] & Hm). unfold end_row, close_row. cbn. rewrite Ht. split_and!; [done|by eexists|done]. Qed.

(** What the table says of a session in each phase of its life. *)
Definition shown (id : string) (written : nat) (ph : Phase) (row : option SessionRow) : Prop :=
  match ph with
  | Created => row = None
  | Running => exists r, row = Some r /\ start_row id r
  | Leaving => exists r n, row = Some r /\ end_row id n r /\ (n <= written)%nat
  | Over => row = None \/ exists r n, row = Some r /\ end_row id n r /\ (n <= written)%nat
  end.

Section Stored.
Context {G : Type} `{RandSource G} {P : Type} `{Policy P}.

Lemma recorded_shown (l : Live P) es id rd at_ :
  recorded l (rows es) ->
  shown (scID (seCfg (lvSession l))) (lvWritten l) (lvPhase l) (fold_left session_step (session_writes id rd at_ es) None).
Proof.
  rewrite session_writes_rows. unfold recorded, shown. cbv zeta.
  assert (Hwhole : forall r r' n, start_row (scID (seCfg (lvSession l))) r -> end_row (scID (seCfg (lvSession l))) n r' ->
    (n <= lvWritten l)%nat -> exists row k, Some (close_row r r') = Some row /\ end_row (scID (seCfg (lvSession l))) k row /\ (k <= lvWritten l)%nat).
  { intros r r' n Hr Hr' Hn. exists (close_row r r'), n. split_and!; [done| |done]. by apply closed_row. }
  destruct (lvPhase l).
  - by intros ->.
  - intros (r & -> & Hr). by exists r.
  - intros (r & r' & n & -> & Hr & Hr' & Hn). by apply (Hwhole r r' n).
  - intros [->|(r & r' & n & -> & Hr & Hr' & Hn)]; [by left|right]. by apply (Hwhole r r' n).
Qed.

(** C13: What a session did is what the store says about it.  Take any life of a
    session and any life of a store over the in-memory driver, in which the
    session's rows are recorded in order, at any readings of the clock, among
    any records of other sessions, and whatever the interleaving with the
    writer.  Once what
    was offered is written (nothing pending, queued or dropped), the table has
    no row for a session that never ran, an open row while it runs, and a
    closed one, with the time of its end and at most the messages its
    connection took, after it has left. *)
Theorem session_row_stored cfg sym iv cs e (p : P) now addr (inputs : list (LiveInput (G := G))) l es mcfg s0 steps rd :
  live_run (new_live (NewSession cfg sym iv cs e p now) addr) inputs = Some (l, es) ->
  Open mcfg (mkAudited NewRepository []) = inl s0 -> mcEnabled mcfg = true ->
  exists s offers queued d,
    m_run s0 steps = Some s /\ offered steps offers /\ queue_rep (stQueue s) queued /\
    ctDropped (stCounters s) = i64 d /\ 0 <= d <= len offers /\
    (d = 0 -> stPending s = [] -> queued = [] ->
     writes_of (scID (seCfg (lvSession l))) (omap session_of offers) = session_writes (scID (seCfg (lvSession l))) rd (unixNanos 0) es ->
     shown (scID (seCfg (lvSession l))) (lvWritten l) (lvPhase l)
       (mrSessions (auInner (stRepo s)) !! scID (seCfg (lvSession l)))).
Proof.
  intros Hrun Ho He.
  destruct (memory_run mcfg s0 steps Ho He) as (s & offers & written & q & d & Hr & Hof & Hq & [_ Hs _] & _ & _ & Hsub & Hlen & Hd).
  exists s, offers, q, d. split_and!; try done.
  1,2: apply sublist_length in Hsub; unfold len in *; lia.
  intros E Hp -> Hw. pose proof (nothing_dropped _ _ _ Hsub Hlen E) as Hall. rewrite Hp, !app_nil_r in Hall. subst offers.
  rewrite Hs, (outcome_alone _ _ _ Hw). apply recorded_shown.
  by apply (live_run_life _ _ _ [] _ Hrun (new_live_life (NewSession cfg sym iv cs e p now) addr eq_refl)).
Qed.
End Stored.

(** ** A run *)

Definition stored_es : list LiveEffect := match live_run demo_live demo_life with Some (_, es) => es | None => [] end.
Definition stored_readings (i : nat) : Reading := mkReading (unixNanos (Z.of_nat i)) "" 0.
Definition stored_calls : list RecordCall := live_calls "sess_0" stored_readings stored_es.
(** Every row is written before the next call. *)
Definition stored_steps : list MStep :=
  flat_map (fun c => [MRecord c (unixNanos 0); MRound quiet false WakeTimer]) stored_calls.

Lemma offered_stored offers :
  offered stored_steps offers -> offers = map (fun c => record_of c (unixNanos 0)) stored_calls.
Proof.
  unfold stored_steps. intros ->%offered_quiet.
  - induction stored_calls as [|c l IH]; [done|]. cbn. by f_equal.
  - clear. induction stored_calls as [|c l IH]; [constructor|]. constructor; [by left|]. constructor; [right; by eexists _, _|exact IH].
Qed.

Lemma session_row_stored_witness :
  exists s0 s row, Open demo_metrics (mkAudited NewRepository []) = inl s0 /\ m_run s0 stored_steps = Some s /\
    mrSessions (auInner (stRepo s)) !! "sess_0"%string = Some row /\ is_Some (srDisconnectedAt row).
Proof.
  eexists.
  destruct demo_life_runs as (l & es & E & Hp & _).
  destruct (session_row_stored (mkSessionConfig "sess_0" "ABC123" None 4 20 15 false) BTCUSDT None None (Some "BTCUSDT"%string)
    doc_policy (SessionSpec.at_ms 0) "10.0.0.7:5000" demo_life l es demo_metrics _ stored_steps stored_readings E eq_refl eq_refl)
    as (s & offers & q & d & Hr & Hof & Hq & Hd & Hb & Hshown).
  assert (Ees : es = stored_es) by (unfold stored_es; by rewrite E).
  assert (Hid : scID (seCfg (lvSession l)) = "sess_0"%string) by (vm_compute in E; injection E as <- _; reflexivity).
  rewrite Hid, Hp in Hshown. subst es. pose proof (offered_stored _ Hof) as ->.
  assert (Hw : writes_of "sess_0" (omap session_of (map (fun c => record_of c (unixNanos 0)) stored_calls)) = session_writes "sess_0" stored_readings (unixNanos 0) stored_es)
    by (vm_compute; reflexivity).
  assert (Hst : stPending s = [] /\ ctDropped (stCounters s) = 0 /\ Depth (stQueue s) = 0 /\
    is_Some (mrSessions (auInner (stRepo s)) !! "sess_0"%string))
    by (vm_compute in Hr; injection Hr as <-; split; [reflexivity|]; split; [reflexivity|]; split; [reflexivity|]; eexists; reflexivity).
  destruct Hst as (Hpend & Hdrop & Hdepth & Hsome).
  assert (H0 : d = 0).
  { assert (Hl : len (map (fun c => record_of c (unixNanos 0)) stored_calls) = 3) by (vm_compute; reflexivity).
    rewrite i64_small in Hd by (unfold in_i64; lia). lia. }
  assert (Hq0 : q = []) by (pose proof (qr_count _ _ Hq) as Hc; unfold Depth in Hdepth; destruct q; [reflexivity|unfold len in Hc; cbn in Hc; lia]).
  specialize (Hshown H0 Hpend Hq0 Hw). cbn in Hshown.
  destruct Hshown as [Hnone|(row & n & Hrow & Hend & _)]; [rewrite Hnone in Hsome; destruct Hsome as [? [=]]|].
  exists s, row. split; [reflexivity|]. split; [exact Hr|]. split; [exact Hrow|exact (proj1 (proj2 Hend))].
Defined.

(** ** The counters of the process *)

(** [registryInc], [registryAdd], [registryDec] and [registrySetGauge]. *)
Definition registry_op (e : SEffect) : option Obs.ObsOp :=
  match e with
  | ECount name n => Some (if n =? 1 then Obs.OInc name else Obs.OAdd name n)
  | EGauge name v => Some (Obs.OSet name v)
  | _ => None
  end.
Definition registry_ops (es : list LiveEffect) : list Obs.ObsOp := omap registry_op (session_effects es).
(** A session may have no registry. *)
Definition count_effects (r : option Obs.Registry) (es : list LiveEffect) : option Obs.Registry :=
  fold_left Obs.obs_op (registry_ops es) <$> r.

Definition active_counter : string := "ws_connections_active".
Definition counted (ops : list Obs.ObsOp) : Z := total (map (Obs.added active_counter) ops).

Lemma obs_total ops name : Obs.total name ops = total (map (Obs.added name) ops).
Proof.
  unfold Obs.total. rewrite <- (Z.add_0_l (total _)). generalize 0.
  induction ops as [|o ops IH]; intros t; cbn [fold_left map]; [by rewrite Z.add_0_r|].
  rewrite IH, total_cons. lia.
Qed.
Lemma counted_app ops ops' : counted (ops ++ ops') = counted ops + counted ops'.
Proof. unfold counted. by rewrite map_app, total_app. Qed.
Lemma counted_active es : counted (registry_ops es) = active_moves (session_effects es).
Proof.
  unfold registry_ops, active_moves, counted. induction (session_effects es) as [|e l IH]; [done|].
  cbn [map omap list_omap]. rewrite total_cons, <- IH. destruct e; try done. unfold registry_op.
  destruct (Z.eqb_spec n 1) as [->|_]; cbn [map]; rewrite total_cons; unfold Obs.added, active_move, active_counter;
    case_bool_decide; by case_decide.
Qed.

Section Counted.
Context {G : Type} `{RandSource G} {P : Type} `{Policy P}.

Definition a_life (x : Live P * list LiveEffect) : Prop :=
  exists cfg sym iv cs e (p : P) now addr (inputs : list (LiveInput (G := G))),
    live_run (new_live (NewSession cfg sym iv cs e p now) addr) inputs = Some x.
Definition running (x : Live P * list LiveEffect) : bool := bool_decide (lvPhase (fst x) = Running).

Lemma lives_counted lives : Forall a_life lives ->
  counted (flat_map (fun x => registry_ops (snd x)) lives) = len (List.filter running lives).
Proof.
  induction 1 as [|[l es] lives (cfg & sym & iv & cs & e & p & now & addr & inputs & Hr) _ IH]; [done|].
  cbn [flat_map List.filter snd]. rewrite counted_app, counted_active, IH.
  pose proof (lf_active _ _ (live_run_life _ _ _ [] _ Hr (new_live_life (NewSession cfg sym iv cs e p now) addr eq_refl))) as Ha.
  rewrite app_nil_l in Ha. rewrite Ha. unfold running, is_active, len. cbn [fst]. destruct (lvPhase l); case_bool_decide; try done; cbn [length]; lia.
Qed.

(** The counter of active connections is the number of sessions that run, when
    any number of lives share the registry with code that leaves the counter
    alone, in whatever order their operations reach it. *)
Theorem connections_counted lives others ops :
  Forall a_life lives -> Forall (fun o => Obs.added active_counter o = 0) others ->
  ops ≡ₚ flat_map (fun x => registry_ops (snd x)) lives ++ others ->
  snd (Obs.Counter (fold_left Obs.obs_op ops Obs.NewRegistry) active_counter) = i64 (len (List.filter running lives)).
Proof.
  intros Hl Ho Hp. destruct (Obs.snapshot_totals ops active_counter) as (-> & _). f_equal.
  rewrite obs_total, <- (lives_counted _ Hl), <- (Z.add_0_r (counted _)).
  rewrite (total_perm _ _ (Permutation_map _ Hp)), map_app, total_app. f_equal.
  clear Hp. induction Ho as [|o l Ho _ IH]; [done|]. cbn [map]. rewrite total_cons. lia.
Qed.
End Counted.

(** One life still runs, one is over. *)
Definition life_after (n : nat) : option (Live DefaultPolicy * list LiveEffect) := live_run demo_live (take n demo_life).
Example two_sessions :
  ('(_, es) ← life_after 1; '(_, es') ← life_after (length demo_life);
   r ← count_effects (count_effects (Some Obs.NewRegistry) es) es';
   Some (snd (Obs.Counter r active_counter))) = Some 1.
Proof. vm_compute. reflexivity. Qed.

(** A gauge of a tier is set when the tier is entered and never cleared, and the
    snapshot prefixes its name a second time. *)
Example tier_gauges_stay :
  Obs.Snapshot (default Obs.NewRegistry (count_effects (Some Obs.NewRegistry)
    (map LSession [EGauge ("gauge.tier." ++ Tier_String TierDegraded) 1; EGauge ("gauge.tier." ++ Tier_String TierFull) 1])))
  = <["gauge.gauge.tier.DEGRADED"%string := 1]> {["gauge.gauge.tier.FULL"%string := 1]}.
Proof. vm_compute. reflexivity. Qed.
