(* ===== verification/SqliteStore.v ===== *)
(** * A store over SQLite answers what was recorded

    The whole way of a metrics row, composed: the recorder's queue, the writer
    and its retries, the statements of a batch, the tables, and back through the
    queries of [Querier].  SQLite is a parameter: any database that meets the laws
    of [SqliteSpec] (transactions, deletions) and [DriverSpec] (queries, storage),
    whose calls may fail at any time.  Whatever was written is what a reader sees,
    cut to the millisecond; a batch SQLite refused left no trace; with retention
    off nothing written is ever missing. *)

From Stdlib Require Import Ascii.
From S2P Require Import Prelude Money GoTime Decimal Domain Float64 Wire TimeText TimeTextSpec StableSort Metrics MetricsStore MetricsSpec MetricsQuery MemoryRepo Sqlite SqliteSpec SqliteRef SqliteQuery DriverSpec DriverRef.

(** ** Rows whose times and reals SQLite keeps *)

Definition storable (r : record) : Prop :=
  match r with
  | RLatency s => (stored_at (lsServerTime s) /\ client_time_ok (lsClientTimeMs s)) /\
                  is_nan (lsRTTMs s) = false /\ is_nan (lsJitterMs s) = false
  | RTier t => stored_at (twAt t) /\ is_nan (twRTTMs t) = false /\ is_nan (twJitterMs t) = false
  | RDelivery w => stored_at (wwWindowStart w) /\ is_nan (wwTargetRate w) = false /\ is_nan (wwEffectiveRate w) = false
  | REngine e => stored_at (eeAt e)
  | _ => True
  end.

Lemma Forall_omap {A B} (P : A -> Prop) (Q : B -> Prop) (f : A -> option B) l :
  (forall x y, P x -> f x = Some y -> Q y) -> Forall P l -> Forall Q (omap f l).
Proof.
  intros Hf. induction 1 as [|x l Hx _ IH]; [constructor|]. cbn. destruct (f x) eqn:E; [|done]. constructor; [by eapply Hf|done].
Qed.
Lemma storable_batch rs : Forall storable rs -> batch_ok (toBatch rs).
Proof.
  intros Hr. destruct (toBatch_tables rs) as ((El & _ & Et & Ed & Ee) & _).
  split; rewrite ?El, ?Et, ?Ed, ?Ee; (eapply Forall_omap; [|exact Hr]); intros [] y; cbn; try done; by intros ? [= <-].
Qed.

(** ** What the log of the driver amounts to *)

(** The batches that were written, after what was there. *)
Definition apply_call (m : MemRepo) (c : Batch * option DriverError) : MemRepo :=
  match c.2 with None => Mem_WriteBatch m c.1 | Some _ => m end.
Definition applied (m0 : MemRepo) (log : list (Batch * option DriverError)) : MemRepo := fold_left apply_call log m0.

Lemma applied_snoc m0 log c : applied m0 (log ++ [c]) = apply_call (applied m0 log) c.
Proof. unfold applied. by rewrite fold_left_app. Qed.

(** In the tables the four queries read, [m] is [m0] and then the records [rs]. *)
Record holds_after (m0 m : MemRepo) (rs : list record) : Prop := {
  ha_latency : mrLatency m = mrLatency m0 ++ omap latency_of rs;
  ha_tiers : mrTiers m = mrTiers m0 ++ omap tier_of rs;
  ha_delivery : mrDelivery m = mrDelivery m0 ++ omap delivery_of rs;
  ha_engine : mrEngineEvts m = mrEngineEvts m0 ++ omap engine_of rs }.

Lemma holds_after_write m0 m rs new :
  holds_after m0 m rs -> holds_after m0 (Mem_WriteBatch m (toBatch new)) (rs ++ new).
Proof.
  intros [H1 H2 H3 H4]. destruct (toBatch_tables new) as ((E1 & _ & E2 & E3 & E4) & _).
  destruct (Mem_WriteBatch_tables m (toBatch new)) as (F1 & F2 & F3 & F4).
  split; rewrite omap_app, app_assoc, ?F1, ?F2, ?F3, ?F4, ?E1, ?E2, ?E3, ?E4; by f_equal.
Qed.

Lemma applied_history m0 log ch : history log ch -> holds_after m0 (applied m0 log) (MetricsSpec.rows_of true ch).
Proof.
  induction 1 as [|log ch rs _ IH|log ch rs e _ IH|log ch rs e e' _ IH]; [by split; rewrite app_nil_r|..].
  - rewrite applied_snoc, rows_of_snoc. by apply holds_after_write.
  - change [?x; ?y] with ([x] ++ [y]). rewrite app_assoc, !applied_snoc, rows_of_snoc. by apply holds_after_write.
  - change [?x; ?y] with ([x] ++ [y]). rewrite app_assoc, !applied_snoc, rows_of_snoc, app_nil_r. exact IH.
Qed.
Lemma storable_history log ch :
  history log ch -> Forall storable (chunk_records ch) -> Forall (fun c => batch_ok c.1) log.
Proof.
  induction 1 as [|log ch rs _ IH|log ch rs e _ IH|log ch rs e e' _ IH]; [intros _; by apply Forall_nil|..];
    (rewrite chunk_records_snoc; intros [Hc Hr]%Forall_app; apply storable_batch in Hr;
     specialize (IH Hc); rewrite Forall_app, ?Forall_cons, Forall_nil; done).
Qed.

(** ** Retention *)

(** [all] says that nothing may be missing. *)
Definition kept (all : bool) {A} (l k : list A) : Prop := if all then l = k else l `sublist_of` k.
Lemma kept_app all {A} (l k x : list A) : kept all l k -> kept all (l ++ x) (k ++ x).
Proof. destruct all; cbn; [by intros ->|intros H; by apply sublist_app]. Qed.
Lemma kept_less all {A} (l k x : list A) : all = false -> l `sublist_of` k -> kept all k x -> kept all l x.
Proof. intros -> Hl Hk. cbn in *. by etransitivity. Qed.
Lemma kept_refl all {A} (l : list A) : kept all l l.
Proof. by destruct all. Qed.

Record tables_kept (all : bool) (m m' : MemRepo) : Prop := {
  tk_latency : kept all (mrLatency m) (mrLatency m'); tk_tiers : kept all (mrTiers m) (mrTiers m');
  tk_delivery : kept all (mrDelivery m) (mrDelivery m'); tk_engine : kept all (mrEngineEvts m) (mrEngineEvts m') }.

Lemma tables_kept_write all m m' b :
  tables_kept all m m' -> tables_kept all (Mem_WriteBatch m b) (Mem_WriteBatch m' b).
Proof.
  intros []. destruct (Mem_WriteBatch_tables m b) as (E1 & E2 & E3 & E4), (Mem_WriteBatch_tables m' b) as (F1 & F2 & F3 & F4).
  split; rewrite ?E1, ?E2, ?E3, ?E4, ?F1, ?F2, ?F3, ?F4; by apply kept_app.
Qed.

(** What is left of related rows is related to what is left. *)
Lemma Forall2_sublist {A B} (R : A -> B -> Prop) l l' k :
  Forall2 R l k -> l' `sublist_of` l -> exists k', k' `sublist_of` k /\ Forall2 R l' k'.
Proof.
  intros HF Hs. revert k HF. induction Hs as [|x l' l _ IH|x l' l _ IH]; intros k HF.
  - inversion HF. subst. by exists [].
  - inversion HF as [|? y ? k0 Hx HF']; subst. destruct (IH _ HF') as (k' & Hk & H'). exists (y :: k').
    split; by constructor.
  - inversion HF as [|? y ? k0 Hx HF']; subst. destruct (IH _ HF') as (k' & Hk & H'). exists k'. split; [by constructor|done].
Qed.

(** ** The store over SQLite *)

#[global] Instance audited_queries {R} `{QueryRepository R} : QueryRepository (Audited R) := {
  rpSummaryStats a := rpSummaryStats (auInner a); rpLatencySamples a := rpLatencySamples (auInner a);
  rpEngineEventCounters a := rpEngineEventCounters (auInner a); rpTierTransitions a := rpTierTransitions (auInner a);
  rpSessions a := rpSessions (auInner a); rpDeliveryWindows a := rpDeliveryWindows (auInner a) }.

(** A query that the database answers gives a result that satisfies [P]; one that
    it does not is an error. *)
Definition answers {A B} (got : option B) (result : A + DriverError) (P : A -> Prop) : Prop :=
  match got with Some _ => exists out, result = inl out /\ P out | None => result = inr DriverFailed end.

Section Store.
Context {D T Row : Type} `{Transaction T} `{Database D T} `{Deletion D} `{Queries D}
  {origin : T -> D} {rows_of : D -> string -> list Row} {tx_rows : T -> string -> list Row} {cell : Row -> string -> SqlValue}
  `{!TransactionLaws origin} `{!DeletionLaws rows_of cell} `{!QueryLaws rows_of cell}
  `{!StorageLaws rows_of tx_rows cell}.

(** Fewer rows in every table. *)
Definition shrunk (d' d : D) : Prop := forall u, rows_of d' u `sublist_of` rows_of d u.
#[local] Instance shrunk_preorder : PreOrder shrunk.
Proof. split; [by intros d u|]. intros d1 d2 d3 K1 K2 u. by etransitivity; [apply K1|apply K2]. Qed.

Lemma delete_shrinks d t c cutoff n d' k : dbDelete d (SDelete t c) cutoff n = (d', k) -> shrunk d' d.
Proof.
  destruct k as [k|]; intros Hd u; [by eapply delete_sublist|]. by rewrite (delete_err _ _ _ _ _ u Hd).
Qed.
Lemma pruneTable_shrinks fuel d table column cutoff batch ended k total d' n e :
  pruneTable fuel d table column cutoff batch ended k total = Some (d', n, e) -> shrunk d' d.
Proof.
  revert d k total. induction fuel as [|fuel IH]; intros d k total; cbn [pruneTable]; [done|].
  destruct (dbDelete d _ cutoff batch) as [d1 res] eqn:E. apply delete_shrinks in E. destruct res as [c|]; [|by intros [= <- _ _]].
  destruct (c <? batch); [by intros [= <- _ _]|]. destruct (ended k); [by intros [= <- _ _]|]. intros Hr%IH. by etransitivity.
Qed.
Lemma prune_rules_shrink fuel now batch ended rules d res d' res' :
  fold_left (prune_rule fuel now batch ended) rules (Some (d, res)) = Some (d', res') -> shrunk d' d.
Proof.
  revert d res. induction rules as [|[[t c] w] rules IH]; intros d res; cbn [fold_left]; [by intros [= <- _]|].
  assert (Hnone : fold_left (prune_rule fuel now batch ended) rules None = None :> option (D * PruneResult)).
  { clear. induction rules as [|[[? ?] ?] rules IH]; [done|exact IH]. }
  cbn [prune_rule mbind option_bind]. destruct (w <=? 0); [apply IH|].
  destruct (pruneTable _ d t c _ _ _ _ _) as [[[d1 n] e]|] eqn:E; cbn [mbind option_bind]; [|by rewrite Hnone].
  apply pruneTable_shrinks in E. destruct e; [|destruct (0 <? n)]; intros Hr%IH; by etransitivity.
Qed.

Lemma Prune_shrinks fuel (r r' : @SqlRepo D) now ret batch ended res ok :
  Prune fuel r now ret batch ended = Some (r', res, ok) ->
  sqClosed r' = sqClosed r /\ shrunk (sqDB r') (sqDB r) /\ (rtEnabled ret = false -> r' = r).
Proof.
  unfold Prune. destruct (rtEnabled ret); cbn [negb]; [|by intros [= <- _ _]].
  destruct (sqClosed r) eqn:Hc; [by intros [= <- _ _]|]. set (n := if batch <=? 0 then 5000 else batch). clearbody n.
  destruct (fold_left _ _ _) as [[d res']|] eqn:E; [|done]. cbn [mbind option_bind]. intros [= <- _ _].
  apply prune_rules_shrink in E. by cbn.
Qed.

Abbreviation stands_for := (represents (rows_of := rows_of) (cell := cell)).

Lemma represents_shrunk d d' m :
  stands_for d m -> shrunk d' d -> exists m', stands_for d' m' /\ tables_kept false m' m.
Proof.
  intros [K1 K2 K3 K4] Hs.
  destruct (Forall2_sublist _ _ _ _ K1 (Hs _)) as (l1 & S1 & F1), (Forall2_sublist _ _ _ _ K2 (Hs _)) as (l2 & S2 & F2),
    (Forall2_sublist _ _ _ _ K3 (Hs _)) as (l3 & S3 & F3), (Forall2_sublist _ _ _ _ K4 (Hs _)) as (l4 & S4 & F4).
  exists (mkMemRepo l1 [] l2 l3 [] [] l4 [] [] ∅ []). by split.
Qed.

(** Passes over a table, and when the context of a pruning run ends. *)
Context (fuel : nat) (ended : string -> nat -> bool).
#[local] Instance sqlite : Repository (@SqlRepo D) := sql_repository (T := T) fuel ended.

(** Invariant: the database represents what is left of the batches written. *)
Definition mirrors (all : bool) (m0 : MemRepo) (a : Audited (@SqlRepo D)) : Prop :=
  sqClosed (auInner a) = false /\
  (Forall (fun c => batch_ok c.1) (auLog a) ->
   exists m, stands_for (sqDB (auInner a)) m /\ tables_kept all m (applied m0 (auLog a))).

Lemma mirrors_new all m0 r0 : sqClosed r0 = false -> stands_for (sqDB r0) m0 -> mirrors all m0 (mkAudited r0 []).
Proof. intros Hc Hr. split; [done|]. intros _. exists m0. split; [done|]. split; apply kept_refl. Qed.

Lemma write_open d b r : Sql_WriteBatch (T := T) (mkSqlRepo d false) b = (r, None) -> sqClosed r = false.
Proof.
  unfold Sql_WriteBatch. destruct (Batch_Len b =? 0); [by intros [= <-]|]. cbn [sqClosed sqDB]. destruct (dbBegin d); [|done].
  destruct (writeAll b _) as [tx [e|]]; [done|]. destruct (txCommit tx) as [d' []]; [|done]. by intros [= <-].
Qed.

Lemma mirrors_write all m0 a b : mirrors all m0 a -> mirrors all m0 (fst (WriteBatch a b)).
Proof.
  intros [Hc Hm]. destruct a as [[d closed] log]. cbn [auInner auLog sqClosed] in *. subst closed.
  cbn [WriteBatch audited sqlite sql_repository auInner auLog].
  destruct (Sql_WriteBatch (T := T) (mkSqlRepo d false) b) as [r e] eqn:Hw.
  assert (Hok : Forall (fun c : Batch * option DriverError => batch_ok c.1) (log ++ [(b, match e with Some _ => Some DriverFailed | None => None end)]) ->
    batch_ok b /\ Forall (fun c => batch_ok c.1) log) by (rewrite Forall_app, Forall_cons; tauto).
  destruct e as [e|]; cbn [fst].
  - apply (failed_write_unchanged (origin := origin)) in Hw as ->. split; [done|]. cbn [auLog auInner].
    intros [_ Hl]%Hok. rewrite applied_snoc. by apply Hm.
  - split; cbn [auInner auLog]; [by eapply write_open|].
    intros [Hb Hl]%Hok. destruct (Hm Hl) as (m & Hr & Hk). rewrite applied_snoc. cbn [apply_call fst snd].
    exists (Mem_WriteBatch m b). split; [by eapply written_represents|by apply tables_kept_write].
Qed.

Lemma mirrors_prune ret m0 f a now n :
  PruneForStore = Some f -> mirrors (negb (rtEnabled ret)) m0 a -> mirrors (negb (rtEnabled ret)) m0 (fst (fst (f a now ret n))).
Proof.
  intros [= <-] [Hc Hm]. cbn [PruneForStore sqlite sql_repository].
  destruct (Prune fuel (auInner a) now ret n ended) as [[[r res] ok]|] eqn:E; cbn [fst auInner auLog];
    [|destruct a; by split].
  apply Prune_shrinks in E as (Hcl & Hs & Hoff). split; [cbn [auInner]; congruence|]. cbn [auInner auLog].
  intros Hl. destruct (Hm Hl) as (m & Hr & Hk). destruct (rtEnabled ret) eqn:Eret; cbn [negb] in *.
  - destruct (represents_shrunk _ _ _ Hr Hs) as (m' & Hr' & []), Hk. exists m'. split; [done|].
    split; by eapply kept_less.
  - rewrite Hoff by done. by exists m.
Qed.

(** A store whose queries are answered from the rows of [m], with times cut to the
    millisecond, as [drivers_agree] compares them with the in-memory driver. *)
Record reads_as (s : Store (Audited (@SqlRepo D))) (m : MemRepo) : Prop := {
  ra_tiers from to limit now :
    let '(lo, hi) := list_range from to now in
    let n := limitOr limit 100 maxQueryRows in
    bound_ok lo -> bound_ok hi ->
    answers (dbSelect (sqDB (auInner (stRepo s))) (tier_select lo hi n)) (Q_TierTransitions s from to limit now)
      (fun out => newest_first twAt n (tiers_within (cut_millis m) (to_millis lo) (to_millis hi)) out
                    (Mem_TierTransitions (cut_millis m) (to_millis lo) (to_millis hi) n));
  ra_delivery id from to limit now :
    let '(lo, hi) := list_range from to now in
    let n := limitOr limit 100 maxQueryRows in
    bound_ok lo -> bound_ok hi ->
    answers (dbSelect (sqDB (auInner (stRepo s))) (delivery_select id lo hi n)) (Q_DeliveryWindows s id from to limit now)
      (fun out => newest_first wwWindowStart n (delivery_within (cut_millis m) id (to_millis lo) (to_millis hi)) out
                    (Mem_DeliveryWindows (cut_millis m) id (to_millis lo) (to_millis hi) n));
  ra_buckets id from to bucket now :
    let '(lo, hi) := clampRange from to now in
    bound_ok lo -> bound_ok hi -> tAfter hi lo = true ->
    answers (dbSelect (sqDB (auInner (stRepo s))) (latencySelect (mkLatencyQuery id lo hi maxLatencySamples)))
      (LatencyBuckets s id from to bucket now)
      (fun out => out = bucketLatency
         (Mem_LatencySamples (cut_millis m) (mkLatencyQuery id (to_millis lo) (to_millis hi) maxLatencySamples))
         lo (pos_or bucket defaultBucketSize));
  ra_events from to c :
    stored_at from -> stored_at to -> rpEngineEventCounters (stRepo s) from to = inl c ->
    c = Mem_EngineEventCounters (cut_millis m) (to_millis from) (to_millis to) }.

Lemma limitOr_pos limit : 0 < limitOr limit 100 maxQueryRows.
Proof. unfold limitOr, maxQueryRows. split_if; lia. Qed.

(** An open driver reports what its database does not answer. *)
Lemma read_failed {A} (scan : list SqlValue -> option A) (r : @SqlRepo D) q :
  sqClosed r = false -> dbSelect (sqDB r) q = None -> queried (read scan r q) = inr DriverFailed.
Proof. intros Hc Hd. unfold read. by rewrite Hc, Hd. Qed.

Lemma represented_reads s m :
  mcEnabled (stCfg s) = true -> sqClosed (auInner (stRepo s)) = false -> stands_for (sqDB (auInner (stRepo s))) m ->
  reads_as s m.
Proof.
  intros He Hc Hr. split.
  - intros from to limit now. destruct (list_range from to now) as [lo hi] eqn:E. intros n Hlo Hhi.
    unfold Q_TierTransitions. rewrite He, E. cbn [negb rpTierTransitions audited_queries sql_queries]. fold n.
    destruct (dbSelect _ _) as [rows|] eqn:Hd; [|by apply read_failed].
    destruct (tiers_agree (auInner (stRepo s)) m lo hi n) as (out & Ho & Hnf); [done..|apply limitOr_pos|by rewrite Hd|].
    exists out. by rewrite Ho.
  - intros id from to limit now. destruct (list_range from to now) as [lo hi] eqn:E. intros n Hlo Hhi.
    unfold Q_DeliveryWindows. rewrite He, E. cbn [negb rpDeliveryWindows audited_queries sql_queries]. fold n.
    destruct (dbSelect _ _) as [rows|] eqn:Hd; [|by apply read_failed].
    destruct (delivery_agree (auInner (stRepo s)) m id lo hi n) as (out & Ho & Hnf); [done..|apply limitOr_pos|by rewrite Hd|].
    exists out. by rewrite Ho.
  - intros id from to bucket now. destruct (clampRange from to now) as [lo hi] eqn:E. intros Hlo Hhi Haf.
    unfold LatencyBuckets. rewrite He, E, Haf. cbn [negb rpLatencySamples audited_queries sql_queries].
    destruct (dbSelect _ _) as [rows|] eqn:Hd.
    + eexists. rewrite (latency_agree _ m); [by split|done..|by rewrite Hd].
    + unfold Sql_LatencySamples. by rewrite read_failed.
  - intros from to c Hf Ht. cbn [rpEngineEventCounters audited_queries sql_queries].
    pose proof (events_agree _ m from to Hc Hr Hf Ht) as Hev.
    destruct (Sql_EngineEventCounters _ _ _); [|done]. subst. by intros [= <-].
Qed.

(** C12: What is recorded over SQLite is what four of the queries answer.  Let
    SQLite be any database that meets the stated laws, with the rows [m0] in it at
    the start, and take any life of a store over it: any records, of times and
    reals SQLite keeps, in any interleaving with the writer's rounds, its retries
    and pruning; beginning, running and committing a transaction, deleting and
    selecting may fail at any time.  Every step returns; the latency, tier,
    delivery and engine-event tables hold what was there and then the records of
    the batches that were written, in order of arrival, and nothing of a batch
    that failed twice; with retention off none of them is missing, otherwise what
    is left is a subsequence; and when the database answers, the tier, delivery,
    latency-bucket and engine-event queries give what the in-memory driver gives
    over those rows cut to the millisecond: the same, except that a listing puts
    rows of one millisecond latest written first (and so, when its limit cuts
    among them, keeps the later ones).  Each record offered is written, refused,
    dropped (and counted), pending or queued.  [Summary] and [Sessions] are not
    part of this. *)
Theorem sqlite_store_answers cfg (r0 : @SqlRepo D) m0 s0 steps :
  Open cfg (mkAudited r0 []) = inl s0 -> mcEnabled cfg = true ->
  sqClosed r0 = false -> represents (rows_of := rows_of) (cell := cell) (sqDB r0) m0 ->
  (forall offers, offered steps offers -> Forall storable offers) ->
  exists s offers ch queued d left written,
    m_run s0 steps = Some s /\ offered steps offers /\
    history (auLog (stRepo s)) ch /\ queue_rep (stQueue s) queued /\
    (chunk_records ch ++ stPending s ++ queued) `sublist_of` offers /\
    len offers = d + len (MetricsSpec.rows_of true ch) + len (MetricsSpec.rows_of false ch) + len (stPending s) + len queued /\
    ctDropped (stCounters s) = i64 d /\
    holds_after m0 written (MetricsSpec.rows_of true ch) /\
    tables_kept (negb (mcRetentionEnabled cfg)) left written /\
    reads_as s left.
Proof.
  intros Ho He Hcl0 Hr0 Hst.
  assert (HC : stCfg s0 = mc_withDefaults cfg) by (revert Ho; unfold Open; destruct (mc_validate _); [done|by intros [= <-]]).
  set (all := negb (mcRetentionEnabled cfg)).
  assert (Hprune : forall f a now n, PruneForStore = Some f -> mirrors all m0 a ->
    mirrors all m0 (fst (fst (f a now (woRetention (startWriter (R := @SqlRepo D) (stCfg s0))) n)))).
  { rewrite HC. intros f a now n. exact (mirrors_prune (woRetention (startWriter (R := @SqlRepo D) (mc_withDefaults cfg))) m0 f a now n). }
  destruct (acc_run (stCfg s0) (mirrors all m0) (mirrors_write all m0) Hprune steps s0 _ _ _ _
    (acc_open (stCfg s0) (mirrors all m0) cfg r0 s0 Ho He eq_refl (mirrors_new all m0 r0 Hcl0 Hr0)))
    as (s & offers & ch & q & d & Hr & Hof & [[Hen _] _ Hq _ Hh [Hcl Hm] Hsub Hcount Hd _ _ _ _]).
  cbn [app] in *. rewrite rows_split in Hcount.
  assert (Hall : Forall storable (chunk_records ch)).
  { specialize (Hst offers Hof). rewrite Forall_forall in Hst |- *. intros r Hin. apply Hst. eapply elem_of_submseteq; [|by apply sublist_submseteq].
    rewrite elem_of_app. by left. }
  destruct (Hm (storable_history _ _ Hh Hall)) as (left & Hrep & Hk).
  exists s, offers, ch, q, d, left, (applied m0 (auLog (stRepo s))).
  split_and!; try done; [lia|by apply applied_history|by apply represented_reads].
Qed.
End Store.

(** ** A run with a refused batch *)

Import RefDB Inputs.

(** A session that starts twice: SQLite refuses the second batch, with the
    sample in it, twice; what came before and after stays. *)
Definition sql_metrics : MetricsConfig :=
  mkMetricsConfig true DriverSQLite (txt "metrics.db") 8 0 0 false 0 0 0 0 0.
Definition sql_tier (ms : Z) : TierTransitionRow :=
  mkTierRow "a" (at_ms ms) "FULL" "REDUCED" "degrade" (f64_of_Z 200) (f64_of_Z 9) 3 "".
Definition sql_steps : list MStep :=
  [MRecord (RecordSessionStart (session "a")) (at_ms 0); MRecord (RecordLatency (demo_sample 1 7)) (at_ms 7);
   MRecord (RecordTierTransition (sql_tier 4)) (at_ms 8); MRound quiet false WakeTimer;
   MRecord (RecordSessionStart (session "a")) (at_ms 9); MRecord (RecordLatency (demo_sample 2 8)) (at_ms 9);
   MRound quiet false WakeTimer;
   MRecord (RecordLatency (demo_sample 3 5)) (at_ms 10); MRound quiet false WakeTimer].

Lemma sql_steps_storable offers : offered sql_steps offers -> Forall storable offers.
Proof.
  intros ->%offered_quiet.
  - assert (Hat : forall ms, 0 <= ms < 100000 -> stored_at (at_ms ms)) by apply at_ms_stored.
    repeat (apply Forall_cons; split); try apply Forall_nil; cbn; repeat (first [done|apply Hat; lia|by left|split]).
  - repeat (apply Forall_cons; split; [first [by left|right; by eexists _, _]|]). apply Forall_nil; done.
Qed.

#[local] Instance demo_sqlite : Repository (@SqlRepo DB) := sqlite (T := Tx) 10 (fun _ _ => false).

Lemma sqlite_store_answers_witness :
  exists s0 s bs ts, Open sql_metrics (mkAudited empty_repo []) = inl s0 /\
    m_run s0 sql_steps = Some s /\ ctWriteFailures (stCounters s) = 1 /\
    LatencyBuckets s "" (at_ms 0) (at_ms 1000) 0 (at_ms 1000) = inl bs /\ map lbCount bs = [2] /\
    Q_TierTransitions s (at_ms 0) (at_ms 1000) 0 (at_ms 1000) = inl ts /\ map twAt ts = [to_millis (at_ms 4)].
Proof.
  eexists.
  destruct (sqlite_store_answers (rows_of := RefDB.rows_of) (cell := cell) 10 (fun _ _ => false) sql_metrics empty_repo
      NewRepository _ sql_steps eq_refl eq_refl eq_refl ltac:(split; constructor) sql_steps_storable)
    as (s & offers & ch & q & d & left & written & Hr & _).
  exists s. do 2 eexists. split; [reflexivity|]. split; [exact Hr|].
  vm_compute in Hr. injection Hr as <-. split_and!; vm_compute; reflexivity.
Defined.
